(* ===== verification/_CoqProject ===== *)
-Q . S2P
Prelude.v
LinkedList.v
Bitmap.v
Malloc.v
Iobuf.v
Checksum.v
Retry.v
Tcp.v
TcpLemmas.v
TcpView.v
TcpApp.v
TcpTx.v
TcpRx.v
TcpConn.v
TcpState.v
Strings.v
Printf.v
Uri.v
BitTorrent.v
BtLemmas.v
BtRx.v
BtPeers.v
BtDownload.v
Ipv4.v
IpReassembly.v
IpPath.v
Process.v
LineBuffer.v
Codec.v
DhcpOpts.v
Digest.v
Sha.v
Hmac.v
Entropy.v
Drbg.v
Ethernet.v
Netdev.v
Arp.v
IpLink.v
Udp.v
Interface.v
DhcpPkt.v
Bigint.v
NumTheory.v
Time.v
Asn1.v
Rsa.v
X509.v
X509Der.v
X509Chain.v
X509Cache.v
Cms.v
Ocsp.v
