(* ===== verification/Prelude.v ===== *)
(** * Verification of the wpxe network boot firmware

    wpxe is a fork of the iPXE boot firmware with an experimental
    BitTorrent client, with which machines that boot at the same time share
    an image.  This development models the client and what it stands on:
    the containers, the allocator, buffers, timers, processes and object
    interfaces of src/src/core, the network path from TCP and UDP over IPv4
    and ARP to Ethernet devices of src/src/net, DHCP packets, and of
    src/src/crypto the digests, random numbers, RSA, certificates, signed
    data and certificate status.

    ** The program and the files

    A process (core/process.c) steps the client (net/tcp/bittorrent.c).  It
    opens TCP connections (net/tcp.c), which queue segments in I/O buffers
    (core/iobuf.c) from the heap (core/malloc.c), retransmit them with timers
    (net/retry.c) and hand them to IPv4 (net/ipv4.c) through the dispatch of
    net/tcpip.c.  IPv4 finds the hardware address of the next hop with ARP
    (net/arp.c) and gives the packet to a device (net/netdevice.c), which
    frames it (net/ethernet.c).  Objects talk through interfaces
    (core/interface.c).  Everything is linked by the lists of ipxe/list.h.
    Beside this path, certificates (crypto/x509.c) are parsed from ASN.1
    (crypto/asn1.c), cached on the heap and validated with RSA (crypto/rsa.c)
    on big integers (crypto/bigint.c); signed data (crypto/cms.c) and
    certificate status (crypto/ocsp.c) rest on them.

    - [LinkedList] models ipxe/list.h and core/list.c over a store of
      pointers, with the representation predicate [cyc].  Its refinement
      theorems justify the sequences that stand for lists in all other
      files.
    - [Bitmap] models core/bitmap.c, with the bounds of the block array.
    - [Malloc] models core/malloc.c: blocks, cache discarders, realloc and
      the contents of memory.
    - [Iobuf] models ipxe/iobuf.h, core/iobuf.c and net/iobpad.c on that heap.
    - [Checksum] models net/tcpip.c.
    - [Retry] models core/refcnt.c and net/retry.c.
    - [Tcp] models net/tcp.c and core/pending.c, every handler in a state and
      failure monad.  [TcpLemmas] executes that code; [TcpView] says which
      handlers change nothing of a view of the connections, and [TcpApp]
      what an application may do when TCP calls it.  [TcpTx], [TcpRx],
      [TcpConn] and [TcpState] have the theorems on sending, receiving,
      connections and the state machine.
    - [Strings], [Printf] and [Uri] model core/string.c and its neighbours,
      core/vsprintf.c and core/uri.c.
    - [BitTorrent] models net/tcp/bittorrent.c in a monad with the outcomes
      [Done], [Fault] and [Hang].  [BtLemmas] executes it; [BtRx], [BtPeers]
      and [BtDownload] have the theorems on messages, peers and downloads.
    - [Ipv4] models net/ipv4.c; [IpReassembly] and [IpPath] have the
      theorems.
    - [Process], [LineBuffer] and [Codec] model core/process.c,
      core/linebuf.c, core/base16.c and core/base64.c.
    - [DhcpOpts] models net/dhcpopts.c, over the memory of a block and what
      lies behind it; [DhcpPkt] models net/dhcppkt.c on it.
    - [Digest] is the common part of crypto/md5.c, sha1.c and sha256.c, which
      [Sha] models; its class is the interface of a digest algorithm.
      [Hmac] models crypto/hmac.c, hash_df.c and sha1extra.c against that
      interface, [Entropy] models crypto/entropy.c, and [Drbg] models
      crypto/hmac_drbg.c, drbg.c, rbg.c and random_nz.c.
    - [Ethernet] models net/ethernet.c, [Netdev] net/netdevice.c and [Arp]
      net/arp.c, each with the state of the layer below as a parameter.
      [IpLink] makes the environment of [Ipv4] from them.
    - [Udp] models net/udp.c and net/icmp.c on any state that has the
      connections, and on [Ipv4].
    - [Interface] models core/interface.c and the delivery of data of
      core/xfer.c; methods of objects are programs that may call interfaces
      again.
    - [Bigint] models crypto/bigint.c and the x86 routines under it,
      [NumTheory] has the arithmetic behind RSA, and [Rsa] models
      crypto/rsa.c.
    - [Time] models core/time.c and [Asn1] crypto/asn1.c, with cursors over
      memory.  [X509] models the parser of crypto/x509.c and [X509Der] has
      the layout of certificates and the theorems on parsing; [X509Chain]
      models validation, [X509Cache] the cache and the references, with
      crypto/rootcert.c.
    - [Cms] models crypto/cms.c and [Ocsp] crypto/ocsp.c on that cache.

    This file has the integers, bytes, error numbers, tactics, hints and
    lemmas they share.

    ** What the theorems show

    - Lists: insertion, deletion and splicing of pointers are the operations
      on sequences, and change nothing outside of the list.
    - Heap: an allocation takes memory that was free, a release makes exactly
      its region free, the two undo each other, realloc keeps the contents.
    - Bitmaps, buffers, timers: every operation keeps the invariant of its
      data and does what it is for; timeouts stay in their bounds.
    - TCP: the application receives the stream of the peer in order and once,
      whatever arrives, and the end of the stream when its FIN does;
      acknowledged bytes and no others leave the transmit queue; what is
      sent is one segment with exactly the fields and bytes that are due;
      segments are parsed back by the receiver; connections stay in
      thirteen states, also when the application opens, sends and closes
      from within the calls it gets.
    - IPv4: what is sent along a route is received by its destination;
      reassembly refines a table of partial datagrams; datagrams whose
      fragments arrive in order are put together.
    - BitTorrent: a piece has the same effect however it is segmented, as
      long as the first segment holds the length and the identifier; a
      download against a neighbour that answers in order, in such segments,
      completes; handshakes are answered on both sides of a connection; the
      inputs that make the client hang or overrun a buffer are characterised.
    - Link layer: the open devices are the ones opened last and not closed,
      with drivers that open and close no devices themselves;
      a packet arrives at the protocol it was sent for; ARP resolves an
      address and sends what waited for it; a datagram gets through IPv4,
      ARP and Ethernet to a host that was never talked to.
    - UDP and ICMP: a payload arrives unchanged at the application with its
      port; ports are unique; a ping is answered once.
    - Interfaces: shutting down ends although objects close each other;
      references change exactly with the interfaces that are plugged in and
      with what the methods count themselves.
    - Digests and keyed hashing: the incremental functions compute the
      digest of the whole data, HMAC is that of RFC 2104 and the generator
      that of SP 800-90.  The health tests of the entropy source are exact.
      The generator returns from every request and keeps its data in shape.
    - Big integers and RSA: the x86 routines compute sums, products and
      powers of integers; a key pair decrypts what it encrypted and verifies
      what it signed; a short modulus makes the check of a signature write
      outside its memory.
    - ASN.1 and certificates: no parser reads outside its buffer; what is
      built is read back; a certificate in the layout of RFC 5280 is parsed
      into its fields; validation succeeds exactly for paths of signed
      issuers to a trusted root; in all reachable states of the cache
      references are right and valid certificates have such a path.
    - Signed data and certificate status: accepted data was signed for its
      purpose by a certificate with such a path; a certificate is marked as
      good only on the evidence of a response signed for its issuer;
      requests and responses are those of RFC 2560.
    - DHCP options and packets: storing sets or clears exactly one setting,
      also inside of an encapsulator or in a fixed field, whose equivalent
      option is erased, and fetching gives it back.
    - Processes: the scheduler is fair.
    - Strings, numbers, URIs, base64, lines: printing and parsing, encoding
      and decoding, and cutting into pieces undo each other.

    ** Conventions, bounds and fuel

    The build is the i386 one, where [int], [long], [size_t] and pointers
    have 32 bits.  Integers are in [Z] and wrap where the C type does.
    [None] (and [Fault]) is an access the code has no right to.  Loops that
    are not structural have fuel.  Where a theorem says that code returns,
    the fuel is shown to be enough: it is the number of entries for list
    walks and searches, the number of bits for a bitmap, of ports for
    tcp_bind() and udp_bind(), of bytes for strings, lines, digests and DHCP
    options, of covered bytes for ASN.1 cursors, of queued packets for
    devices and ARP, the largest number of
    discards for the allocator; the delivery loop of the client needs two
    rounds for each segment of a piece, drbg_generate() two passes, and
    closing an interface a depth of as many methods as there are interfaces
    that are not blocked.  Running out of fuel is stated as
    such only for loops that do not end for any fuel.

    Code outside of a component is an argument of its model: the discarders
    of caches, expiry callbacks, the application above TCP and UDP and the
    network below it, the devices, ARP and settings around IPv4, hardware
    drivers, the entropy source, the sockets of the client, the methods of
    processes and objects.  What is assumed of it is a hypothesis or a class
    ([Realloc] of [Bitmap], [CacheDiscarders] of [Malloc], [Reallocates] and
    [Shrinks] of [DhcpOpts], [QuietDrivers] and [SoundNic] of [Netdev],
    [UdpClients] of [Udp], [NonZeroRandom] of [Rsa], [Allocates] of
    [X509Cache]) with an instance; the application above TCP is any
    [client] of [TcpApp], and [Logs] of [TcpRx] says what it has received.

    ** Not modelled

    Debug output and assertions have no effect on the models.  Drivers,
    assembly, firmware interfaces and consoles are input and output below
    the level of this model.  Redirection and opening by name of core/xfer.c
    and core/open.c work on variable arguments and linker tables.  The
    models of TCP and BitTorrent have their interfaces as environments, not
    through [Interface].  IPv6, the other link layers, VLAN devices among
    them, DNS, HTTP, TFTP, the DHCP protocol, registration of settings,
    images, scripts, commands, TLS and the process that fetches certificates
    (net/validator.c) are neighbours that the modelled code does not
    enter. *)
From stdpp Require Export base list gmap sets.
From Stdlib Require Export ZArith Lia.
#[global] Open Scope Z_scope.

(** ** Machine integers.

    An unsigned [w]-bit C integer is a [Z] in [0, 2^w); every assignment
    to such a variable wraps.  The build modelled throughout is the i386
    one, where [unsigned int], [unsigned long], [size_t] and pointers
    all have 32 bits. *)
Definition wrap (w x : Z) : Z := x mod 2 ^ w.

Abbreviation u8 := (wrap 8).
Abbreviation u16 := (wrap 16).
Abbreviation u32 := (wrap 32).

(** Conversion of an unsigned value to the signed type of its width. *)
Definition signed (w x : Z) : Z :=
  if wrap w x <? 2 ^ (w - 1) then wrap w x else wrap w x - 2 ^ w.

Abbreviation s32 := (signed 32).

(** C truth value of an integer. *)
Definition ctrue (x : Z) : bool := negb (x =? 0).

(** Length of a list as an integer. *)
Abbreviation zlen l := (Z.of_nat (length l)).

(** ** Return status codes: zero, or a negated error number. *)
Inductive errno :=
| ENOMEM | EINVAL | ENOTCONN | ECONNRESET | ETIMEDOUT | ECANCELED
| EADDRINUSE | ENOBUFS | ENOENT | ENOSPC | ENOTSUP | EPROTO | EIO
| EPIPE | EPROTONOSUPPORT | EAFNOSUPPORT | EBTHM | ENETUNREACH | ENOTTY
| EPIPE_REPETITION_COUNT_TEST | EPIPE_ADAPTIVE_PROPORTION_TEST | ERANGE | ESTALE
| EAGAIN | ENODEV | EUNKNOWN_LINK_STATUS | ENOTCONN_LINK_DOWN
| EINVAL_ASN1_EMPTY | EINVAL_ASN1_LEN_LEN | EINVAL_ASN1_LEN | EINVAL_ASN1_BOOLEAN | EINVAL_ASN1_INTEGER
| EINVAL_ASN1_TIME | EINVAL_ASN1_ALGORITHM | EINVAL_BIT_STRING | ENOTSUP_ALGORITHM | ENOTTY_ALGORITHM | ENXIO
| EACCES_VERIFY | ENOTSUP_EXTENSION | EINVAL_ALGORITHM_MISMATCH | EINVAL_VERSION | EACCES_WRONG_ISSUER
| EACCES_NOT_CA | EACCES_KEY_USAGE | EACCES_EXPIRED | EACCES_PATH_LEN | EACCES_UNTRUSTED | EACCES_OUT_OF_ORDER
| EACCES_EMPTY | EACCES_OCSP_REQUIRED
| ENOTSUP_SIGNEDDATA | EACCES_NON_SIGNING | EACCES_NON_CODE_SIGNING | EACCES_WRONG_NAME | EACCES_NO_SIGNATURES
| EACCES_CERT_STATUS | EACCES_CERT_MISMATCH | EACCES_NON_OCSP_SIGNING | EACCES_STALE
(** What an OCSP responder says of a request. *)
| EPROTO_STATUS (status : Z)
(** A length of 2^31 or more, returned as a negative [int]. *)
| ELENGTH (len : Z).

#[export] Instance errno_eq_dec : EqDecision errno.
Proof. solve_decision. Defined.

Inductive rc :=
| RC_OK
| RC_ERR (e : errno).

#[export] Instance rc_eq_dec : EqDecision rc.
Proof. solve_decision. Defined.

(** ** Bytes. *)
Definition is_byte (b : Z) : Prop := 0 <= b < 256.
Definition bytes_ok (l : list Z) : Prop := Forall is_byte l.

(** Network byte order, most significant byte first. *)
Fixpoint be_bytes (n : nat) (x : Z) : list Z :=
  match n with
  | O => []
  | S n' => (x / 2 ^ (8 * Z.of_nat n')) mod 256 :: be_bytes n' x
  end.

Fixpoint be_val (l : list Z) : Z :=
  match l with
  | [] => 0
  | b :: l' => b * 2 ^ (8 * zlen l') + be_val l'
  end.

(** ** Automation. *)
Ltac zdm := Z.div_mod_to_equations; lia.

(** Proof of a decidable proposition by evaluating its decision procedure. *)
Ltac by_decide := apply (bool_decide_unpack _); vm_compute; exact I.

(** Split conjunctions, if any. *)
Ltac splits := repeat match goal with |- _ /\ _ => split end.

Create HintDb wpxe.

(** Case analysis on every boolean comparison of integers in sight. *)
Ltac zcases :=
  repeat match goal with
  | |- context [?a =? ?b] => destruct (Z.eqb_spec a b)
  | |- context [?a <? ?b] => destruct (Z.ltb_spec a b)
  | |- context [?a <=? ?b] => destruct (Z.leb_spec a b)
  | H : context [?a =? ?b] |- _ => destruct (Z.eqb_spec a b)
  | H : context [?a <? ?b] |- _ => destruct (Z.ltb_spec a b)
  | H : context [?a <=? ?b] |- _ => destruct (Z.leb_spec a b)
  end; try lia.

(** ** Lemmas on machine integers. *)
Lemma wrap_range (w x : Z) : 0 <= w -> 0 <= wrap w x < 2 ^ w.
Proof. intros. unfold wrap. apply Z.mod_pos_bound. lia. Qed.

Lemma wrap_small (w x : Z) : 0 <= x < 2 ^ w -> wrap w x = x.
Proof. intros. unfold wrap. by apply Z.mod_small. Qed.

Lemma wrap_wrap (w x : Z) : 0 <= w -> wrap w (wrap w x) = wrap w x.
Proof. intros. unfold wrap. apply Z.mod_mod. lia. Qed.

Lemma wrap_add_l (w x y : Z) : 0 <= w -> wrap w (wrap w x + y) = wrap w (x + y).
Proof. intros. unfold wrap. apply Zplus_mod_idemp_l. Qed.

Lemma wrap_add_r (w x y : Z) : 0 <= w -> wrap w (x + wrap w y) = wrap w (x + y).
Proof. intros. unfold wrap. apply Zplus_mod_idemp_r. Qed.

Lemma wrap_sub_l (w x y : Z) : 0 <= w -> wrap w (wrap w x - y) = wrap w (x - y).
Proof. intros. unfold wrap. apply Zminus_mod_idemp_l. Qed.

Lemma wrap_sub_r (w x y : Z) : 0 <= w -> wrap w (x - wrap w y) = wrap w (x - y).
Proof. intros. unfold wrap. apply Zminus_mod_idemp_r. Qed.

Create Rewrite HintDb wrap.
#[export] Hint Rewrite wrap_add_l wrap_add_r wrap_sub_l wrap_sub_r wrap_wrap
  using lia : wrap.

Lemma signed_small (w x : Z) : 0 <= x < 2 ^ (w - 1) -> 0 < w -> signed w x = x.
Proof.
  intros Hx Hw. unfold signed.
  assert (2 ^ w = 2 * 2 ^ (w - 1)) as E.
  { rewrite <- Z.pow_succ_r by lia. f_equal. lia. }
  rewrite wrap_small by lia. zcases.
Qed.

Lemma s32_id x : - 2 ^ 31 <= x < 2 ^ 31 -> s32 x = x.
Proof. intros. unfold signed, wrap. change (2 ^ (32 - 1)) with (2 ^ 31). zcases; zdm. Qed.

Lemma signed_range (w x : Z) : 0 < w -> - 2 ^ (w - 1) <= signed w x < 2 ^ (w - 1).
Proof.
  intros Hw. unfold signed.
  assert (2 ^ w = 2 * 2 ^ (w - 1)) as E.
  { rewrite <- Z.pow_succ_r by lia. f_equal. lia. }
  pose proof (wrap_range w x). zcases.
Qed.

Lemma lor_range n a b : 0 <= n -> 0 <= a < 2 ^ n -> 0 <= b < 2 ^ n -> 0 <= Z.lor a b < 2 ^ n.
Proof.
  intros Hn Ha Hb. assert (Z.lor a b = Z.lor a b mod 2 ^ n) as ->.
  - rewrite <- Z.land_ones, Z.land_lor_distr_l, !Z.land_ones, !Z.mod_small by lia. done.
  - apply Z.mod_pos_bound. lia.
Qed.

(** ** Lists filtered by a property all or none of their elements have. *)
Lemma filter_all {A} (P : A -> Prop) `{!forall x, Decision (P x)} l : Forall P l -> filter P l = l.
Proof. induction 1 as [|x l Hx Hl IH]; [done|]. by rewrite filter_cons_True, IH. Qed.

Lemma filter_none {A} (P : A -> Prop) `{!forall x, Decision (P x)} l : Forall (fun x => ~ P x) l -> filter P l = [].
Proof. induction 1 as [|x l Hx Hl IH]; [done|]. by rewrite filter_cons_False, IH. Qed.

(** ** Sequences of commands that may fail. *)
Lemma obind_some {A B} (o : option A) (f : A -> option B) x : o = Some x -> (o ≫= f) = f x.
Proof. by intros ->. Qed.

(** ** Lemmas on bytes. *)
Lemma lor_byte x b : 0 <= x -> is_byte b -> Z.lor (Z.shiftl x 8) b = x * 256 + b.
Proof.
  intros Hx Hb. unfold is_byte in Hb. rewrite <- Z.add_lor_land, Z.shiftl_mul_pow2 by lia. change (2 ^ 8) with 256.
  enough (Z.land (x * 256) b = 0) by lia. apply Z.bits_inj'. intros n Hn. rewrite Z.land_spec, Z.testbit_0_l.
  destruct (Z.ltb_spec n 8); [rewrite (Z.mul_pow2_bits_low x 8) by lia; done|].
  rewrite <- (Z.mod_small b (2 ^ 8)), Z.mod_pow2_bits_high by lia. apply andb_false_r.
Qed.

Lemma be_bytes_length (n : nat) (x : Z) : length (be_bytes n x) = n.
Proof. induction n; simpl; congruence. Qed.

Lemma be_bytes_ok (n : nat) (x : Z) : bytes_ok (be_bytes n x).
Proof.
  induction n; simpl; constructor; auto.
  unfold is_byte. apply Z.mod_pos_bound. lia.
Qed.

Lemma be_val_bytes (n : nat) (x : Z) :
  be_val (be_bytes n x) = x mod 2 ^ (8 * Z.of_nat n).
Proof.
  induction n as [|n IH].
  - simpl. by rewrite Z.mod_1_r.
  - cbn [be_bytes be_val]. rewrite be_bytes_length, IH.
    replace (8 * Z.of_nat (S n)) with (8 * Z.of_nat n + 8) by lia.
    rewrite Z.pow_add_r by lia. change (2 ^ 8) with 256.
    rewrite Z.rem_mul_r; lia.
Qed.

Lemma be_val_range (l : list Z) : bytes_ok l -> 0 <= be_val l < 2 ^ (8 * zlen l).
Proof.
  induction 1 as [|b l Hb Hl IH]; [simpl; lia|].
  cbn [be_val length]. unfold is_byte in Hb.
  replace (8 * Z.of_nat (S (length l))) with (8 * zlen l + 8) by lia.
  rewrite Z.pow_add_r by lia. change (2 ^ 8) with 256. nia.
Qed.

Lemma be_bytes_mod (n : nat) (x y : Z) :
  x mod 2 ^ (8 * Z.of_nat n) = y mod 2 ^ (8 * Z.of_nat n) ->
  be_bytes n x = be_bytes n y.
Proof.
  induction n as [|n IH]; intros E; [done|].
  replace (8 * Z.of_nat (S n)) with (8 * Z.of_nat n + 8) in E by lia.
  rewrite Z.pow_add_r, !Z.rem_mul_r in E by lia. change (2 ^ 8) with 256 in E.
  pose proof (Z.mod_pos_bound x (2 ^ (8 * Z.of_nat n)) ltac:(lia)).
  pose proof (Z.mod_pos_bound y (2 ^ (8 * Z.of_nat n)) ltac:(lia)).
  set (p := 2 ^ (8 * Z.of_nat n)) in *.
  assert (x mod p = y mod p /\ (x / p) mod 256 = (y / p) mod 256) as [E1 E2].
  { assert (0 < p) by (subst p; lia).
    assert ((x / p) mod 256 = (y / p) mod 256) by nia. split; [nia|done]. }
  cbn [be_bytes]. fold p. rewrite E2. f_equal. by apply IH.
Qed.

Lemma be_bytes_val (l : list Z) : bytes_ok l -> be_bytes (length l) (be_val l) = l.
Proof.
  induction 1 as [|b l Hb Hl IH]; [done|].
  cbn [length be_bytes be_val]. pose proof (be_val_range l Hl).
  unfold is_byte in Hb. f_equal.
  - rewrite Z.div_add_l, Z.div_small, Z.add_0_r, Z.mod_small; lia.
  - transitivity (be_bytes (length l) (be_val l)); [|done]. apply be_bytes_mod.
    rewrite Z.add_comm, Z.mod_add; lia.
Qed.

#[export] Hint Resolve be_bytes_ok : wpxe.
