(* ===== verification/LinkedList.v ===== *)
(** * Linked lists: src/src/include/ipxe/list.h and src/src/core/list.c.

    The circular doubly-linked lists on which every other component is
    built, modelled at the level of pointers: a store maps the address of
    each [struct list_head] to its two fields, a dereference of an address
    outside the store fails, and each operation performs the source's
    reads and writes in the source's order.  The representation predicate
    [cyc] relates a store to the abstract list of entries; the theorems
    are the refinement of every operation to the list operation that the
    other files use in its place. *)
From S2P Require Import Prelude.

Abbreviation loc := positive.

Record list_head := ListHead { next : loc; prev : loc }.

#[export] Instance list_head_eq_dec : EqDecision list_head.
Proof. solve_decision. Defined.

Abbreviation store := (gmap loc list_head).

(** ** Field access. *)
Definition rd_next (s : store) (p : loc) : option loc := next <$> s !! p.
Definition rd_prev (s : store) (p : loc) : option loc := prev <$> s !! p.

Definition wr_next (s : store) (p v : loc) : option store :=
  n ← s !! p; Some (<[p := ListHead v (prev n)]> s).
Definition wr_prev (s : store) (p v : loc) : option store :=
  n ← s !! p; Some (<[p := ListHead (next n) v]> s).

(** ** The operations of list.h. *)
Definition INIT_LIST_HEAD (list : loc) (s : store) : option store :=
  s ← wr_next s list list;
  wr_prev s list list.

Definition list_check (list : loc) (s : store) : bool :=
  match s !! list with
  | None => false
  | Some n =>
      bool_decide (rd_prev s (next n) = Some list)
      && bool_decide (rd_next s (prev n) = Some list)
  end.

Definition inline_list_add (new head : loc) (s : store) : option store :=
  let p := head in
  n ← rd_next s head;
  s ← wr_prev s n new;
  s ← wr_next s new n;
  s ← wr_prev s new p;
  wr_next s p new.

Definition inline_list_add_tail (new head : loc) (s : store) : option store :=
  p ← rd_prev s head;
  let n := head in
  s ← wr_prev s n new;
  s ← wr_next s new n;
  s ← wr_prev s new p;
  wr_next s p new.

Definition inline_list_del (list : loc) (s : store) : option store :=
  n ← rd_next s list;
  p ← rd_prev s list;
  s ← wr_prev s n p;
  wr_next s p n.

Definition inline_list_empty (list : loc) (s : store) : option bool :=
  n ← rd_next s list;
  Some (bool_decide (n = list)).

Definition inline_list_is_singular (list : loc) (s : store) : option bool :=
  e ← inline_list_empty list s;
  n ← rd_next s list;
  p ← rd_prev s list;
  Some (negb e && bool_decide (n = p)).

Definition inline_list_is_last (list head : loc) (s : store) : option bool :=
  n ← rd_next s list;
  Some (bool_decide (n = head)).

Definition inline_list_cut_position (new list entry : loc) (s : store)
    : option store :=
  first ← rd_next s entry;
  if bool_decide (list = entry) then Some s else
  n ← rd_next s list;
  s ← wr_next s new n;
  n ← rd_next s new;
  s ← wr_prev s n new;
  s ← wr_prev s new entry;
  p ← rd_prev s new;
  s ← wr_next s p new;
  s ← wr_next s list first;
  n ← rd_next s list;
  wr_prev s n list.

Definition inline_list_splice (list entry : loc) (s : store) : option store :=
  first ← rd_next s list;
  last ← rd_prev s list;
  e ← inline_list_empty list s;
  if (e : bool) then Some s else
  n ← rd_next s entry;
  s ← wr_next s last n;
  n ← rd_next s last;
  s ← wr_prev s n last;
  s ← wr_prev s first entry;
  p ← rd_prev s first;
  wr_next s p first.

Definition inline_list_splice_tail (list entry : loc) (s : store)
    : option store :=
  first ← rd_next s list;
  last ← rd_prev s list;
  e ← inline_list_empty list s;
  if (e : bool) then Some s else
  p ← rd_prev s entry;
  s ← wr_prev s first p;
  p ← rd_prev s first;
  s ← wr_next s p first;
  s ← wr_next s last entry;
  n ← rd_next s last;
  wr_prev s n last.

Definition inline_list_splice_init (list entry : loc) (s : store)
    : option store :=
  s ← inline_list_splice list entry s;
  INIT_LIST_HEAD list s.

Definition inline_list_splice_tail_init (list entry : loc) (s : store)
    : option store :=
  s ← inline_list_splice_tail list entry s;
  INIT_LIST_HEAD list s.

Definition list_first_entry (list : loc) (s : store) : option (option loc) :=
  e ← inline_list_empty list s;
  if (e : bool) then Some None else
  n ← rd_next s list; Some (Some n).

Definition list_last_entry (list : loc) (s : store) : option (option loc) :=
  e ← inline_list_empty list s;
  if (e : bool) then Some None else
  p ← rd_prev s list; Some (Some p).

(** The iteration macros.  [fuel] bounds the number of iterations; running
    out of it is [None]. *)
Fixpoint walk (rd : store -> loc -> option loc) (fuel : nat)
    (pos head : loc) (s : store) : option (list loc) :=
  match fuel with
  | O => None
  | S fuel =>
      if bool_decide (pos = head) then Some [] else
      pos' ← rd s pos;
      l ← walk rd fuel pos' head s;
      Some (pos :: l)
  end.

Definition list_for_each (fuel : nat) (head : loc) (s : store)
    : option (list loc) :=
  pos ← rd_next s head;
  walk rd_next fuel pos head s.

Definition list_for_each_entry_reverse (fuel : nat) (head : loc) (s : store)
    : option (list loc) :=
  pos ← rd_prev s head;
  walk rd_prev fuel pos head s.

Fixpoint safe_loop (fuel : nat) (body : loc -> store -> option store)
    (pos tmp head : loc) (s : store) : option store :=
  match fuel with
  | O => None
  | S fuel =>
      if bool_decide (pos = head) then Some s else
      s ← body pos s;
      tmp' ← rd_next s tmp;
      safe_loop fuel body tmp tmp' head s
  end.

Definition list_for_each_entry_safe (fuel : nat)
    (body : loc -> store -> option store) (head : loc) (s : store)
    : option store :=
  pos ← rd_next s head;
  tmp ← rd_next s pos;
  safe_loop fuel body pos tmp head s.

(** [list_for_each] with an early return as soon as the entry is found. *)
Fixpoint contains_loop (fuel : nat) (entry pos head : loc) (s : store)
    : option bool :=
  match fuel with
  | O => None
  | S fuel =>
      if bool_decide (pos = head) then Some false else
      if bool_decide (pos = entry) then Some true else
      pos' ← rd_next s pos;
      contains_loop fuel entry pos' head s
  end.

Definition inline_list_contains (fuel : nat) (entry head : loc) (s : store)
    : option bool :=
  tmp ← rd_next s head;
  contains_loop fuel entry tmp head s.

(** ** The out-of-line copies of list.c. *)
Definition extern_list_add := inline_list_add.
Definition extern_list_add_tail := inline_list_add_tail.
Definition extern_list_del := inline_list_del.
Definition extern_list_empty := inline_list_empty.
Definition extern_list_is_singular := inline_list_is_singular.
Definition extern_list_is_last := inline_list_is_last.
Definition extern_list_cut_position := inline_list_cut_position.
Definition extern_list_splice := inline_list_splice.
Definition extern_list_splice_tail := inline_list_splice_tail.
Definition extern_list_splice_init := inline_list_splice_init.
Definition extern_list_splice_tail_init := inline_list_splice_tail_init.
Definition extern_list_contains := inline_list_contains.

(** ** The abstraction: a store holds a cycle of entries. *)
Fixpoint seg (s : store) (a : loc) (l : list loc) (b : loc) : Prop :=
  match l with
  | [] => rd_next s a = Some b /\ rd_prev s b = Some a
  | x :: l => rd_next s a = Some x /\ rd_prev s x = Some a /\ seg s x l b
  end.

Definition cyc (s : store) (c : list loc) : Prop :=
  match c with
  | [] => False
  | h :: l => seg s h l h /\ NoDup (h :: l)
  end.

(** ** Effect of the field writes. *)
Definition valid (s : store) (p : loc) : Prop := is_Some (s !! p).

(** [wrote s s' N P]: [s'] differs from [s] by the writes [N] to next
    fields and [P] to prev fields, the last write to a field first. *)
Fixpoint over (w : list (loc * loc)) (f : loc -> option loc) (q : loc)
    : option loc :=
  match w with
  | [] => f q
  | (p, v) :: w => if decide (q = p) then Some v else over w f q
  end.

Record wrote (s s' : store) (N P : list (loc * loc)) : Prop := Wrote {
  wrote_next q : rd_next s' q = over N (rd_next s) q;
  wrote_prev q : rd_prev s' q = over P (rd_prev s) q;
  wrote_valid q : valid s' q <-> valid s q;
  wrote_frame q : q ∉ N.*1 ++ P.*1 -> s' !! q = s !! q }.

Lemma wrote_refl s : wrote s s [] [].
Proof. by split. Qed.

Lemma rd_next_valid s p q : rd_next s p = Some q -> valid s p.
Proof. unfold rd_next, valid. destruct (s !! p); naive_solver. Qed.

Lemma rd_prev_valid s p q : rd_prev s p = Some q -> valid s p.
Proof. unfold rd_prev, valid. destruct (s !! p); naive_solver. Qed.

#[export] Hint Resolve rd_next_valid rd_prev_valid : wpxe.

Lemma wr_next_wrote s0 s N P p v :
  wrote s0 s N P -> valid s0 p ->
  exists s', wr_next s p v = Some s' /\ wrote s0 s' ((p, v) :: N) P.
Proof.
  intros [Hn Hp Hv Hf] Hval.
  destruct (proj2 (Hv p) Hval) as [n En]. unfold wr_next. rewrite En. simpl.
  eexists; split; [done|]. split.
  - intros q. simpl. rewrite <- Hn. unfold rd_next. case_decide.
    + subst. by rewrite lookup_insert_eq.
    + by rewrite lookup_insert_ne.
  - intros q. rewrite <- Hp. unfold rd_prev. destruct (decide (q = p)) as [->|].
    + by rewrite lookup_insert_eq, En.
    + by rewrite lookup_insert_ne.
  - intros q. rewrite <- Hv. unfold valid. destruct (decide (q = p)) as [->|].
    + rewrite lookup_insert_eq, En. naive_solver.
    + by rewrite lookup_insert_ne.
  - intros q Hq. simpl in Hq. rewrite lookup_insert_ne by set_solver.
    apply Hf. set_solver.
Qed.

Lemma wr_prev_wrote s0 s N P p v :
  wrote s0 s N P -> valid s0 p ->
  exists s', wr_prev s p v = Some s' /\ wrote s0 s' N ((p, v) :: P).
Proof.
  intros [Hn Hp Hv Hf] Hval.
  destruct (proj2 (Hv p) Hval) as [n En]. unfold wr_prev. rewrite En. simpl.
  eexists; split; [done|]. split.
  - intros q. rewrite <- Hn. unfold rd_next. destruct (decide (q = p)) as [->|].
    + by rewrite lookup_insert_eq, En.
    + by rewrite lookup_insert_ne.
  - intros q. simpl. rewrite <- Hp. unfold rd_prev. case_decide.
    + subst. by rewrite lookup_insert_eq.
    + by rewrite lookup_insert_ne.
  - intros q. rewrite <- Hv. unfold valid. destruct (decide (q = p)) as [->|].
    + rewrite lookup_insert_eq, En. naive_solver.
    + by rewrite lookup_insert_ne.
  - intros q Hq. simpl in Hq. rewrite lookup_insert_ne by set_solver.
    apply Hf. set_solver.
Qed.

(** Symbolic execution of the next field write of the goal. *)
Ltac wr_step :=
  match goal with
  | W : wrote ?s0 ?s _ _ |- context [wr_next ?s ?p ?v] =>
      let s' := fresh "s" in let E := fresh "E" in let W' := fresh "W" in
      destruct (wr_next_wrote s0 s _ _ p v W) as (s' & E & W');
      [eauto with wpxe | rewrite E; cbn; clear W E]
  | W : wrote ?s0 ?s _ _ |- context [wr_prev ?s ?p ?v] =>
      let s' := fresh "s" in let E := fresh "E" in let W' := fresh "W" in
      destruct (wr_prev_wrote s0 s _ _ p v W) as (s' & E & W');
      [eauto with wpxe | rewrite E; cbn; clear W E]
  end.

Ltac wr_start s := pose proof (wrote_refl s).

(** ** Lemmas on segments. *)
Lemma seg_app s a l1 x l2 b :
  seg s a (l1 ++ x :: l2) b <-> seg s a l1 x /\ seg s x l2 b.
Proof.
  revert a. induction l1 as [|y l1 IH]; intros a; simpl; [tauto|].
  rewrite IH. tauto.
Qed.

Lemma seg_wrote s s' N P a l b :
  wrote s s' N P ->
  Forall (fun p => p ∉ a :: l) N.*1 ->
  Forall (fun p => p ∉ b :: l) P.*1 ->
  seg s a l b -> seg s' a l b.
Proof.
  rewrite !Forall_forall.
  intros W. assert (forall w f q, q ∉ w.*1 -> over w f q = f q) as Hov.
  { clear. induction w as [|[p v] w IH]; intros f q Hq; [done|].
    simpl in *. rewrite decide_False by set_solver. apply IH. set_solver. }
  revert a. induction l as [|x l IH]; intros a HN HP; simpl.
  - rewrite (wrote_next _ _ _ _ W), (wrote_prev _ _ _ _ W), !Hov by set_solver. done.
  - rewrite (wrote_next _ _ _ _ W), (wrote_prev _ _ _ _ W), !Hov by set_solver.
    intros (? & ? & ?). split_and!; [done..|].
    apply IH; [set_solver..|done].
Qed.

Lemma seg_valid s a l b q : seg s a l b -> q ∈ a :: b :: l -> valid s q.
Proof.
  revert a. induction l as [|x l IH]; intros a; simpl.
  - intros [? ?] Hq. assert (q = a \/ q = b) as [->| ->] by set_solver; eauto with wpxe.
  - intros (? & ? & Hs) Hq. destruct (decide (q = a)) as [->|]; [eauto with wpxe|].
    apply (IH x Hs). set_solver.
Qed.

Lemma seg_last s a l b :
  seg s a l b -> exists z, rd_prev s b = Some z /\ rd_next s z = Some b /\
    ((z = a /\ l = []) \/ exists l', l = l' ++ [z]).
Proof.
  revert a. induction l as [|x l IH]; intros a; simpl.
  - intros [? ?]. exists a. auto.
  - intros (? & ? & Hs). destruct (IH x Hs) as (z & ? & ? & [[-> ->]|[l' ->]]).
    + exists x. split_and!; [done..|]. right. by exists [].
    + exists z. split_and!; [done..|]. right. by exists (x :: l').
Qed.

(** A cycle has no distinguished start. *)
Lemma cyc_rotate s l1 l2 : cyc s (l1 ++ l2) -> cyc s (l2 ++ l1).
Proof.
  destruct l1 as [|h l1]; [by rewrite app_nil_r|].
  destruct l2 as [|x l2]; [by rewrite app_nil_r|].
  simpl. rewrite !seg_app. intros [[? ?] Hnd]. split; [done|].
  change (NoDup ((x :: l2) ++ (h :: l1))). by rewrite (Permutation_app_comm (x :: l2)).
Qed.

Lemma cyc_valid s c q : cyc s c -> q ∈ c -> valid s q.
Proof. destruct c as [|h l]; [done|]. intros [Hs _] Hq. eapply seg_valid; [done|set_solver]. Qed.

(** ** Refinement of the operations. *)

(** Disjointness of two lists of entries. *)
Definition disj (l1 l2 : list loc) : Prop := forall x, x ∈ l1 -> x ∉ l2.

Lemma disj_cons_l a l1 l2 : disj (a :: l1) l2 <-> a ∉ l2 /\ disj l1 l2.
Proof. unfold disj. set_solver. Qed.

Lemma disj_cons_r b l1 l2 : disj l1 (b :: l2) <-> b ∉ l1 /\ disj l1 l2.
Proof. unfold disj. set_solver. Qed.

Lemma disj_app_l l1 l1' l2 : disj (l1 ++ l1') l2 <-> disj l1 l2 /\ disj l1' l2.
Proof. unfold disj. set_solver. Qed.

Lemma disj_app_r l1 l2 l2' : disj l1 (l2 ++ l2') <-> disj l1 l2 /\ disj l1 l2'.
Proof. unfold disj. set_solver. Qed.

Lemma disj_nil_l l : disj [] l.
Proof. unfold disj. set_solver. Qed.

Lemma disj_nil_r l : disj l [].
Proof. unfold disj. set_solver. Qed.

Lemma disj_sym l1 l2 : disj l1 l2 -> disj l2 l1.
Proof. unfold disj. set_solver. Qed.

Lemma NoDup_app_disj (l1 l2 : list loc) :
  NoDup (l1 ++ l2) <-> NoDup l1 /\ disj l1 l2 /\ NoDup l2.
Proof. apply NoDup_app. Qed.

(** Distinctness facts of the context, as atomic facts. *)
Ltac nodup_hyps :=
  repeat match goal with
  | H : NoDup (_ :: _) |- _ => apply NoDup_cons in H as [? ?]
  | H : NoDup (_ ++ _) |- _ => apply NoDup_app_disj in H as (? & ? & ?)
  | H : NoDup [] |- _ => clear H
  | H : _ ∉ _ :: _ |- _ => apply not_elem_of_cons in H as [? ?]
  | H : _ ∉ _ ++ _ |- _ => apply not_elem_of_app in H as [? ?]
  | H : _ ∉ [] |- _ => clear H
  | H : disj (_ :: _) _ |- _ => apply disj_cons_l in H as [? ?]
  | H : disj _ (_ :: _) |- _ => apply disj_cons_r in H as [? ?]
  | H : disj (_ ++ _) _ |- _ => apply disj_app_l in H as [? ?]
  | H : disj _ (_ ++ _) |- _ => apply disj_app_r in H as [? ?]
  end.

(** Goals about distinctness, from atomic facts. *)
Ltac nodup_goal :=
  repeat match goal with
  | |- _ /\ _ => split
  | |- NoDup (_ :: _) => apply NoDup_cons
  | |- NoDup (_ ++ _) => apply NoDup_app_disj
  | |- NoDup [] => apply NoDup_nil_2
  | |- disj (_ :: _) _ => apply disj_cons_l
  | |- disj _ (_ :: _) => apply disj_cons_r
  | |- disj (_ ++ _) _ => apply disj_app_l
  | |- disj _ (_ ++ _) => apply disj_app_r
  | |- disj [] _ => apply disj_nil_l
  | |- disj _ [] => apply disj_nil_r
  | |- _ ∉ _ :: _ => apply not_elem_of_cons
  | |- _ ∉ _ ++ _ => apply not_elem_of_app
  | |- _ ∉ [] => apply not_elem_of_nil
  | |- _ <> _ => congruence
  | |- Forall _ (_ :: _) => apply Forall_cons
  | |- Forall _ [] => apply Forall_nil_2
  | _ => solve [assumption | by apply disj_sym]
  end.

Ltac nodup := nodup_hyps; nodup_goal.

(** Case analysis on every [over] left by the writes. *)
Ltac over_solve :=
  match goal with
  | W : wrote _ ?s _ _ |- rd_next ?s _ = _ => rewrite (wrote_next _ _ _ _ W)
  | W : wrote _ ?s _ _ |- rd_prev ?s _ = _ => rewrite (wrote_prev _ _ _ _ W)
  end; cbn; repeat case_decide; congruence.

(** The part of a segment, or of the store, that the writes missed. *)
Ltac frame_solve :=
  match goal with
  | W : wrote _ ?s _ _ |- seg ?s _ _ _ =>
      eapply seg_wrote; [exact W|..|eassumption]; cbn; solve [nodup]
  | W : wrote _ ?s _ _ |- forall q, _ -> ?s !! q = _ =>
      let q := fresh "q" in let Hq := fresh "Hq" in
      intros q Hq; nodup_hyps; apply (wrote_frame _ _ _ _ W); cbn; solve [nodup]
  end.

(** Use the known links of the initial store. *)
Ltac read_facts s :=
  repeat match goal with
  | H : rd_next s ?p = Some _ |- context [rd_next s ?p] => rewrite H; cbn
  | H : rd_prev s ?p = Some _ |- context [rd_prev s ?p] => rewrite H; cbn
  end.

(** A read through the writes performed so far. *)
Ltac rd_step :=
  match goal with
  | W : wrote ?s0 ?s _ _ |- context [rd_next ?s ?p] =>
      tryif constr_eq s0 s then fail else rewrite (wrote_next _ _ _ _ W p)
  | W : wrote ?s0 ?s _ _ |- context [rd_prev ?s ?p] =>
      tryif constr_eq s0 s then fail else rewrite (wrote_prev _ _ _ _ W p)
  end; cbn; repeat case_decide; try congruence; cbn.

Ltac exec := repeat (first [rd_step | wr_step]).

(** Conclude that the final store holds the given cycles. *)
Ltac cyc_solve :=
  eexists; split; [done|]; nodup_hyps; rewrite <- ?app_assoc; simpl;
  repeat (rewrite seg_app; simpl);
  split_and!; try (intros _); first [over_solve | frame_solve | solve [nodup]].

Lemma list_add_cycle s new h l :
  cyc s (h :: l) -> valid s new -> new ∉ h :: l ->
  exists s', inline_list_add new h s = Some s' /\ cyc s' (h :: new :: l) /\
    (forall q, q ∉ new :: h :: l -> s' !! q = s !! q).
Proof.
  intros [Hs Hnd] Hnew Hni. wr_start s. unfold inline_list_add.
  destruct l as [|x l]; simpl in Hs; destruct_and!; read_facts s; exec; cyc_solve.
Qed.

Lemma list_add_tail_cycle s new h l :
  cyc s (h :: l) -> valid s new -> new ∉ h :: l ->
  exists s', inline_list_add_tail new h s = Some s' /\ cyc s' (h :: l ++ [new]) /\
    (forall q, q ∉ new :: h :: l -> s' !! q = s !! q).
Proof.
  intros [Hs Hnd] Hnew Hni. wr_start s. unfold inline_list_add_tail.
  destruct (seg_last _ _ _ _ Hs) as (z & Hz & Hz' & [[-> ->]|[l' ->]]); rewrite Hz; cbn;
    [|apply seg_app in Hs as [Hs _]]; exec; cyc_solve.
Qed.

(** [list_add] inserts the new entry directly after the list head (or
    after any other entry of the cycle), [list_add_tail] appends it as the
    last entry; every other entry stays in place and nothing outside the
    list is touched. *)
Theorem list_add_refines s new h l :
  cyc s (h :: l) -> valid s new -> new ∉ h :: l ->
  (exists s', inline_list_add new h s = Some s' /\ cyc s' (h :: new :: l) /\
    (forall q, q ∉ new :: h :: l -> s' !! q = s !! q)) /\
  (exists s', inline_list_add_tail new h s = Some s' /\ cyc s' (h :: l ++ [new]) /\
    (forall q, q ∉ new :: h :: l -> s' !! q = s !! q)).
Proof. intros. split; [by apply list_add_cycle | by apply list_add_tail_cycle]. Qed.

Lemma list_del_cycle s x y c :
  cyc s (x :: y :: c) ->
  exists s', inline_list_del x s = Some s' /\ cyc s' (y :: c) /\
    (forall q, q ∉ y :: c -> s' !! q = s !! q).
Proof.
  intros [Hs Hnd]. wr_start s. unfold inline_list_del.
  destruct Hs as (Hn & Hp & Hs). rewrite Hn.
  destruct (seg_last _ _ _ _ Hs) as (z & Hz & Hz' & [[-> ->]|[l' ->]]); rewrite Hz; cbn;
    [|apply seg_app in Hs as [Hs _]]; exec; cyc_solve.
Qed.

Lemma list_del_middle s h l1 x l2 :
  cyc s (h :: l1 ++ x :: l2) ->
  exists s', inline_list_del x s = Some s' /\ cyc s' (h :: l1 ++ l2) /\
    (forall q, q ∉ h :: l1 ++ l2 -> s' !! q = s !! q).
Proof.
  intros Hc. apply (cyc_rotate s (h :: l1)) in Hc. simpl in Hc.
  destruct (l2 ++ h :: l1) as [|y c] eqn:E; [by destruct l2|].
  destruct (list_del_cycle _ _ _ _ Hc) as (s' & E' & Hc' & Hf). rewrite <- E in *.
  exists s'. split; [done|]. split; [by apply (cyc_rotate s' l2) in Hc' | set_solver].
Qed.

Lemma list_empty_spec s h l :
  cyc s (h :: l) -> inline_list_empty h s = Some (bool_decide (l = [])).
Proof.
  intros [Hs Hnd]. unfold inline_list_empty.
  destruct l as [|x l]; simpl in Hs; destruct Hs as [Hn _]; rewrite Hn; simpl; f_equal.
  - by apply bool_decide_eq_true_2.
  - nodup. rewrite !bool_decide_eq_false_2; set_solver.
Qed.

Lemma list_is_singular_spec s h l :
  cyc s (h :: l) -> inline_list_is_singular h s = Some (bool_decide (length l = 1%nat)).
Proof.
  intros Hc. unfold inline_list_is_singular. rewrite (list_empty_spec _ _ _ Hc). simpl.
  destruct Hc as [Hs Hnd]. destruct (seg_last _ _ _ _ Hs) as (z & Hz & _ & Hl). rewrite Hz.
  destruct l as [|x l]; simpl in Hs; destruct Hs as [Hn _]; rewrite Hn; simpl; f_equal. apply bool_decide_ext.
  destruct Hl as [[_ ?]|[l' E]]; [done|]. destruct l' as [|x' l']; simplify_eq/=; [done|].
  rewrite length_app. simpl. nodup. split; [intros ->; set_solver | lia].
Qed.

(** [list_cut_position] splits a list after the given entry: the new
    list holds the entries up to and including it, the old list keeps the
    rest.  Cutting at the list head itself moves nothing. *)
Theorem list_cut_position_refines s new h l1 l2 :
  cyc s (h :: l1 ++ l2) -> cyc s [new] -> new ∉ h :: l1 ++ l2 ->
  exists s', inline_list_cut_position new h (List.last l1 h) s = Some s' /\
    cyc s' (new :: l1) /\ cyc s' (h :: l2).
Proof.
  intros Hc Hnew Hni. wr_start s. unfold inline_list_cut_position.
  assert (valid s new) as Hvn by (eapply cyc_valid; [done|set_solver]).
  destruct Hc as [Hs Hnd]. destruct l1 as [|e l1' _] using rev_ind; simpl.
  { assert (exists f, rd_next s h = Some f) as [f Ef] by (destruct l2; simpl in Hs; naive_solver).
    rewrite Ef. cbn. rewrite bool_decide_eq_true_2 by done. by exists s. }
  rewrite List.last_last. rewrite <- app_assoc in *. simpl in *.
  rewrite seg_app in Hs. destruct Hs as [Hs1 Hs2].
  assert (h <> e) by (nodup; set_solver).
  assert (valid s h /\ valid s e) as [? ?] by (split; eapply seg_valid; [exact Hs1|set_solver|exact Hs1|set_solver]).
  destruct l1' as [|x l1']; destruct l2 as [|y l2]; simpl in *; destruct_and!;
    read_facts s; rewrite bool_decide_eq_false_2 by done; cbn; exec; cyc_solve.
Qed.

Lemma list_splice_cycle s h l e m :
  cyc s (h :: l) -> cyc s (e :: m) -> NoDup (h :: l ++ e :: m) ->
  exists s', inline_list_splice h e s = Some s' /\ cyc s' (e :: l ++ m) /\
    (forall q, q ∉ l ++ e :: m -> s' !! q = s !! q).
Proof.
  intros Hc [Hs2 Hnd2] Hdisj. wr_start s. unfold inline_list_splice.
  pose proof (list_empty_spec _ _ _ Hc) as Hem. destruct Hc as [Hs Hnd].
  destruct (seg_last _ _ _ _ Hs) as (z & Hz & Hz' & Hl).
  assert (valid s z /\ valid s e) as [? ?] by
    (split; [eauto with wpxe | eapply seg_valid; [exact Hs2|set_solver]]).
  destruct l as [|x l]; destruct m as [|y m]; simpl in Hs, Hs2; destruct_and!;
    read_facts s; rewrite Hem; cbn; try (by exists s);
    destruct Hl as [[_ ?]|[l' El]]; try done;
    (destruct l' as [|x' l']; simpl in El; simplify_eq; [|
      match goal with H : seg s x' (l' ++ _) _ |- _ => apply seg_app in H as [? ?] end]);
    exec; cyc_solve.
Qed.

Lemma list_splice_tail_cycle s h l e m :
  cyc s (h :: l) -> cyc s (e :: m) -> NoDup (h :: l ++ e :: m) ->
  exists s', inline_list_splice_tail h e s = Some s' /\ cyc s' (e :: m ++ l) /\
    (forall q, q ∉ l ++ e :: m -> s' !! q = s !! q).
Proof.
  intros Hc [Hs2 Hnd2] Hdisj. wr_start s. unfold inline_list_splice_tail.
  pose proof (list_empty_spec _ _ _ Hc) as Hem. destruct Hc as [Hs Hnd].
  destruct (seg_last _ _ _ _ Hs) as (z & Hz & Hz' & Hl).
  destruct (seg_last _ _ _ _ Hs2) as (w & Hw & Hw' & Hm).
  assert (valid s z /\ valid s e /\ valid s w) as (? & ? & ?) by (split_and!; eauto with wpxe).
  destruct l as [|x l]; simpl in Hs; destruct_and!; read_facts s; rewrite Hem; cbn.
  { exists s. rewrite app_nil_r. split; [done|]. split; [split; [done|nodup] | done]. }
  destruct Hl as [[_ ?]|[l' El]]; [done|].
  destruct Hm as [[-> ->]|[m' ->]]; [|apply seg_app in Hs2 as [Hs2 _]];
    (destruct l' as [|x' l']; simpl in El; simplify_eq; [|
      match goal with H : seg s x' (l' ++ _) _ |- _ => apply seg_app in H as [? ?] end]);
    exec; cyc_solve.
Qed.

Lemma INIT_LIST_HEAD_spec s h :
  valid s h -> exists s', INIT_LIST_HEAD h s = Some s' /\ cyc s' [h] /\
    (forall q, q <> h -> s' !! q = s !! q).
Proof.
  intros Hv. wr_start s. unfold INIT_LIST_HEAD. exec.
  eexists; split; [done|]. split; [split; [split; over_solve | nodup] |].
  intros q Hq. apply (wrote_frame _ _ _ _ W0). cbn. nodup.
Qed.

(** A cycle is determined by the contents of its entries. *)
Lemma seg_ext s s' a l b :
  (forall q, q ∈ a :: b :: l -> s' !! q = s !! q) -> seg s a l b -> seg s' a l b.
Proof.
  unfold rd_next, rd_prev. revert a. induction l as [|x l IH]; intros a Hq; simpl;
    unfold rd_next, rd_prev; rewrite !Hq by set_solver; [done|].
  intros (? & ? & ?). split_and!; [done..|]. apply IH; [set_solver|done].
Qed.

Lemma cyc_ext s s' c : (forall q, q ∈ c -> s' !! q = s !! q) -> cyc s c -> cyc s' c.
Proof.
  destruct c as [|h l]; [done|]. intros Hq [Hs Hnd]. split; [|done].
  eapply seg_ext; [|done]. set_solver.
Qed.

Lemma list_splice_init_cycle s h l e m :
  cyc s (h :: l) -> cyc s (e :: m) -> NoDup (h :: l ++ e :: m) ->
  (exists s', inline_list_splice_init h e s = Some s' /\
     cyc s' (e :: l ++ m) /\ cyc s' [h]) /\
  (exists s', inline_list_splice_tail_init h e s = Some s' /\
     cyc s' (e :: m ++ l) /\ cyc s' [h]).
Proof.
  intros Hc He Hnd. unfold inline_list_splice_init, inline_list_splice_tail_init.
  assert (forall s' c, h ∉ c -> valid s' h -> cyc s' c ->
    exists s'', INIT_LIST_HEAD h s' = Some s'' /\ cyc s'' c /\ cyc s'' [h]) as Hinit.
  { intros s' c Hni Hv Hc'. destruct (INIT_LIST_HEAD_spec s' h Hv) as (s'' & E & Hc'' & Hf).
    exists s''. split_and!; [done| |done]. eapply cyc_ext; [|done]. intros q Hq. apply Hf. set_solver. }
  assert (h ∉ e :: l ++ m /\ h ∉ e :: m ++ l) as [Hn1 Hn2] by nodup.
  assert (valid s h) as Hvh by (eapply cyc_valid; [exact Hc | set_solver]).
  assert (h ∉ l ++ e :: m) as Hn3 by nodup.
  split.
  - destruct (list_splice_cycle s h l e m) as (s' & E & Hc' & Hf); [done..|]. rewrite E.
    apply (Hinit s' (e :: l ++ m)); [done| |done]. unfold valid. by rewrite Hf.
  - destruct (list_splice_tail_cycle s h l e m) as (s' & E & Hc' & Hf); [done..|]. rewrite E.
    apply (Hinit s' (e :: m ++ l)); [done| |done]. unfold valid. by rewrite Hf.
Qed.

(** The splices move all the entries of a list, in order, to just
    after ([list_splice]) or just before ([list_splice_tail]) the given
    position of another list, and touch nothing else; the [_init] variants
    also leave the source list empty and reusable. *)
Theorem list_splices_refine s h l e m :
  cyc s (h :: l) -> cyc s (e :: m) -> NoDup (h :: l ++ e :: m) ->
  (exists s', inline_list_splice h e s = Some s' /\ cyc s' (e :: l ++ m) /\
    (forall q, q ∉ l ++ e :: m -> s' !! q = s !! q)) /\
  (exists s', inline_list_splice_tail h e s = Some s' /\ cyc s' (e :: m ++ l) /\
    (forall q, q ∉ l ++ e :: m -> s' !! q = s !! q)) /\
  (exists s', inline_list_splice_init h e s = Some s' /\ cyc s' (e :: l ++ m) /\ cyc s' [h]) /\
  (exists s', inline_list_splice_tail_init h e s = Some s' /\ cyc s' (e :: m ++ l) /\ cyc s' [h]).
Proof.
  intros. split_and!; [by apply list_splice_cycle | by apply list_splice_tail_cycle
    | by apply list_splice_init_cycle..].
Qed.

(** ** Iteration. *)
Lemma walk_next s a l h fuel :
  seg s a l h -> h ∉ l -> (length l < fuel)%nat ->
  rd_next s a ≫= (fun pos => walk rd_next fuel pos h s) = Some l.
Proof.
  revert a fuel. induction l as [|x l IH]; intros a fuel Hs Hh Hf;
    (destruct fuel as [|fuel]; [simpl in Hf; lia|]); simpl in *.
  - destruct Hs as [Hn _]. rewrite Hn. simpl. by rewrite bool_decide_eq_true_2.
  - destruct Hs as (Hn & _ & Hs). rewrite Hn. simpl. nodup_hyps.
    rewrite bool_decide_eq_false_2 by congruence.
    pose proof (IH x fuel Hs ltac:(done) ltac:(lia)) as E.
    destruct (rd_next s x); simpl in *; [|done]. by rewrite E.
Qed.

Lemma walk_prev s a l b fuel :
  seg s a l b -> a ∉ l -> (length l < fuel)%nat ->
  rd_prev s b ≫= (fun pos => walk rd_prev fuel pos a s) = Some (rev l).
Proof.
  revert b fuel. induction l as [|z l IH] using rev_ind; intros b fuel Hs Ha Hf;
    (destruct fuel as [|fuel]; [simpl in Hf; lia|]).
  - destruct Hs as [_ Hp]. rewrite Hp. simpl. by rewrite bool_decide_eq_true_2.
  - apply seg_app in Hs as [Hs [_ Hp]]. rewrite Hp. rewrite length_app in Hf. simpl in *.
    nodup_hyps. rewrite bool_decide_eq_false_2 by congruence.
    pose proof (IH z fuel Hs ltac:(done) ltac:(lia)) as E.
    destruct (rd_prev s z); simpl in *; [|done]. rewrite E. by rewrite rev_app_distr.
Qed.

(** Iterating over a list terminates and visits each entry exactly
    once, first to last, and the reverse iteration last to first. *)
Theorem list_for_each_visits s h l fuel :
  cyc s (h :: l) -> (length l < fuel)%nat ->
  list_for_each fuel h s = Some l /\
  list_for_each_entry_reverse fuel h s = Some (rev l).
Proof.
  intros [Hs Hnd] Hf. nodup_hyps. split; [by apply walk_next | by apply walk_prev].
Qed.

Lemma safe_loop_del s h l pos tmp fuel :
  cyc s (h :: l) -> pos = hd h l -> rd_next s pos = Some tmp -> (length l < fuel)%nat ->
  exists s', safe_loop fuel inline_list_del pos tmp h s = Some s' /\ cyc s' [h].
Proof.
  revert s pos tmp fuel. induction l as [|x l IH]; intros s pos tmp fuel Hc -> Ht Hf;
    (destruct fuel as [|fuel]; [simpl in Hf; lia|]); simpl hd in *; cbn [safe_loop].
  - rewrite bool_decide_eq_true_2 by done. by exists s.
  - rewrite bool_decide_eq_false_2 by (destruct Hc; nodup_hyps; congruence).
    assert (tmp = hd h l) as -> by (destruct Hc as [Hs _]; destruct l; simpl in *; naive_solver).
    destruct (list_del_middle s h [] x l Hc) as (s1 & E1 & Hc1 & _). rewrite E1. cbn.
    destruct (cyc_valid s1 _ (hd h l) Hc1) as [n En]; [destruct l; set_solver|].
    unfold rd_next at 1. rewrite En. simpl.
    apply IH; [done|done| |simpl in Hf; lia]. unfold rd_next. by rewrite En.
Qed.

(** C32: [list_del] unlinks exactly the given entry, wherever it is in the
    list, and changes nothing outside the list; deleting every entry from
    within the safe iteration, as the queue-freeing loops do, terminates
    and leaves the list empty. *)
Theorem list_del_refines s h l1 x l2 :
  cyc s (h :: l1 ++ x :: l2) ->
  (exists s', inline_list_del x s = Some s' /\ cyc s' (h :: l1 ++ l2) /\
    (forall q, q ∉ h :: l1 ++ l2 -> s' !! q = s !! q)) /\
  (exists s', list_for_each_entry_safe (S (length (l1 ++ x :: l2))) inline_list_del h s
     = Some s' /\ cyc s' [h]).
Proof.
  intros Hc. split; [by apply list_del_middle|].
  unfold list_for_each_entry_safe.
  destruct (l1 ++ x :: l2) as [|y l] eqn:E; [by destruct l1|].
  destruct (cyc_valid s _ y Hc) as [n En]; [set_solver|].
  assert (rd_next s h = Some y) as -> by apply Hc.
  assert (rd_next s y = Some (next n)) as Ht by (unfold rd_next; by rewrite En).
  unfold mbind, option_bind. rewrite Ht. apply (safe_loop_del s h (y :: l)); [done..|simpl; lia].
Qed.

Lemma contains_loop_spec s a l h entry fuel :
  seg s a l h -> h ∉ l -> (length l < fuel)%nat ->
  rd_next s a ≫= (fun pos => contains_loop fuel entry pos h s)
    = Some (bool_decide (entry ∈ l)).
Proof.
  revert a fuel. induction l as [|x l IH]; intros a fuel Hs Hh Hf;
    (destruct fuel as [|fuel]; [simpl in Hf; lia|]); cbn [seg length contains_loop] in *.
  - destruct Hs as [Hn _]. rewrite Hn. cbn [mbind option_bind].
    rewrite bool_decide_eq_true_2 by done.
    by rewrite bool_decide_eq_false_2 by apply not_elem_of_nil.
  - destruct Hs as (Hn & _ & Hs). rewrite Hn. cbn [mbind option_bind]. nodup_hyps.
    rewrite bool_decide_eq_false_2 by congruence.
    destruct (decide (x = entry)) as [->|Hx].
    + by rewrite !bool_decide_eq_true_2 by set_solver.
    + rewrite (bool_decide_eq_false_2 (x = entry)) by done.
      etransitivity; [apply (IH x fuel); (done || lia)|].
      f_equal. apply bool_decide_ext. set_solver.
Qed.

(** In a well-formed list every entry passes [list_check], so none of
    the assertions of list.h can fire; emptiness, singularity, membership
    and the first and last entries are those of the abstract list. *)
Theorem list_queries_spec s h l fuel entry :
  cyc s (h :: l) -> (length l < fuel)%nat ->
  (forall q, q ∈ h :: l -> list_check q s = true) /\
  inline_list_empty h s = Some (bool_decide (l = [])) /\
  inline_list_is_singular h s = Some (bool_decide (length l = 1%nat)) /\
  inline_list_contains fuel entry h s = Some (bool_decide (entry ∈ l)) /\
  list_first_entry h s = Some (head l) /\
  list_last_entry h s = Some (last l).
Proof.
  intros Hc Hf. pose proof (list_empty_spec _ _ _ Hc) as He. split_and!.
  - intros q Hq. apply list_elem_of_split in Hq as (c1 & c2 & E). rewrite E in Hc.
    apply cyc_rotate in Hc. destruct Hc as [Hs _].
    destruct (seg_last _ _ _ _ Hs) as (z & Hz & Hz' & _).
    assert (exists y, rd_next s q = Some y /\ rd_prev s y = Some q) as (y & Hy & Hy')
      by (destruct (c2 ++ c1); simpl in Hs; naive_solver).
    unfold list_check, rd_next, rd_prev in *. destruct (s !! q) as [n|]; simplify_eq/=.
    by rewrite Hy', Hz', !bool_decide_eq_true_2.
  - done.
  - by apply list_is_singular_spec.
  - destruct Hc. nodup_hyps. by apply contains_loop_spec.
  - unfold list_first_entry. rewrite He. destruct Hc as [Hs _]. destruct l; simpl in *; [done|].
    destruct Hs as (-> & _). done.
  - unfold list_last_entry. rewrite He. destruct Hc as [Hs _].
    destruct (seg_last _ _ _ _ Hs) as (z & Hz & _ & [[_ ->]|[l' ->]]); [done|].
    rewrite bool_decide_eq_false_2 by (by destruct l'). cbn. rewrite Hz, last_snoc. done.
Qed.

(** ** Instances: a list of two entries at 1 (head), 2, 3; an empty list
    at 4; an unlinked entry at 5. *)
Definition two_lists : store :=
  <[1%positive := ListHead 2 3]> (<[2%positive := ListHead 3 1]> (<[3%positive := ListHead 1 2]>
  (<[4%positive := ListHead 4 4]> (<[5%positive := ListHead 5 5]> ∅)))).

Lemma two_lists_entries : cyc two_lists [1; 2; 3]%positive.
Proof. split; [by vm_compute|]. by_decide. Qed.

Lemma two_lists_empty : cyc two_lists [4%positive].
Proof. split; [by vm_compute|]. by_decide. Qed.

Lemma list_add_refines_witness :
  exists s', inline_list_add 5 1 two_lists = Some s' /\ cyc s' [1; 5; 2; 3]%positive.
Proof.
  destruct (list_add_refines two_lists 5 1 [2; 3]%positive two_lists_entries) as [(s' & ? & ? & _) _];
    [by eexists | by_decide | by exists s'].
Defined.

Lemma list_cut_position_refines_witness :
  exists s', inline_list_cut_position 4 1 2 two_lists = Some s' /\
    cyc s' [4; 2]%positive /\ cyc s' [1; 3]%positive.
Proof.
  apply (list_cut_position_refines two_lists 4 1 [2%positive] [3%positive] two_lists_entries two_lists_empty).
  by_decide.
Defined.

Lemma list_splices_refine_witness :
  exists s', inline_list_splice_tail_init 1 4 two_lists = Some s' /\
    cyc s' [4; 2; 3]%positive /\ cyc s' [1%positive].
Proof.
  apply (list_splices_refine two_lists 1 [2; 3]%positive 4 [] two_lists_entries two_lists_empty).
  by_decide.
Defined.

Lemma list_for_each_visits_witness :
  list_for_each 3 1 two_lists = Some [2; 3]%positive.
Proof. apply (list_for_each_visits two_lists 1 [2; 3]%positive 3 two_lists_entries). simpl. lia. Defined.

Lemma list_del_refines_witness :
  exists s', inline_list_del 3 two_lists = Some s' /\ cyc s' [1; 2]%positive.
Proof.
  destruct (list_del_refines two_lists 1 [2%positive] 3 [] two_lists_entries) as [(s' & ? & ? & _) _].
  by exists s'.
Defined.

Lemma list_queries_spec_witness : inline_list_is_singular 1 two_lists = Some false.
Proof. apply (list_queries_spec two_lists 1 [2; 3]%positive 3 2 two_lists_entries). simpl. lia. Defined.
