(* ===== verification/Bitmap.v ===== *)
(** * Bitmaps: src/src/core/bitmap.c and src/src/include/ipxe/bitmap.h.

    The piece maps of the BitTorrent client and of multicast downloads.
    A block is an [unsigned long], 32 bits in the i386 build.  Accesses to
    the block array are checked: an access outside it is [None].  Memory
    reallocation is an argument, constrained by the class [Realloc] that
    states what the callers of realloc() rely on. *)
From S2P Require Import Prelude.

(** What realloc() promises: on success the block has the requested
    number of elements and keeps the old contents up to the smaller of
    the two sizes. *)
Class Realloc (realloc : list Z -> Z -> option (list Z)) : Prop := {
  realloc_length l n l' : 0 <= n -> realloc l n = Some l' -> zlen l' = n;
  realloc_keeps l n l' i : 0 <= n -> realloc l n = Some l' ->
    (Z.of_nat i < n) -> (i < length l)%nat -> l' !! i = l !! i }.

Definition BITMAP_BLKSIZE : Z := 32.
Definition BITMAP_INDEX (bit : Z) : Z := bit / BITMAP_BLKSIZE.
Definition BITMAP_MASK (bit : Z) : Z := u32 (Z.shiftl 1 (bit mod BITMAP_BLKSIZE)).

Record bitmap := Bitmap {
  blocks : list Z;
  bm_length : Z;
  first_gap : Z }.

(** A zero-filled [struct bitmap], as zalloc() leaves it. *)
Definition bitmap_zero : bitmap := Bitmap [] 0 0.

Definition set_first_gap (bm : bitmap) (g : Z) : bitmap :=
  Bitmap (blocks bm) (bm_length bm) g.

(** [while ( old < new ) blocks[old++] = 0;] *)
Fixpoint zero_blocks (n : nat) (from : Z) (bl : list Z) : list Z :=
  match n with
  | O => bl
  | S n => zero_blocks n (from + 1) (<[Z.to_nat from := 0]> bl)
  end.

Definition bitmap_resize (realloc : list Z -> Z -> option (list Z))
    (bm : bitmap) (new_length : Z) : bitmap * rc :=
  let old_num_blocks := BITMAP_INDEX (u32 (bm_length bm + BITMAP_BLKSIZE - 1)) in
  let new_num_blocks := BITMAP_INDEX (u32 (new_length + BITMAP_BLKSIZE - 1)) in
  let finish bl :=
    (Bitmap (zero_blocks (Z.to_nat (new_num_blocks - old_num_blocks)) old_num_blocks bl)
       new_length (first_gap bm), RC_OK) in
  if old_num_blocks =? new_num_blocks then finish (blocks bm) else
  match realloc (blocks bm) new_num_blocks with
  | None => (bm, RC_ERR ENOMEM)
  | Some new_blocks => finish new_blocks
  end.

Definition bitmap_test (bm : bitmap) (bit : Z) : option bool :=
  let index := BITMAP_INDEX bit in
  let mask := BITMAP_MASK bit in
  if bm_length bm <=? bit then Some false else
  b ← blocks bm !! Z.to_nat index;
  Some (ctrue (Z.land b mask)).

(** [while ( bitmap_test ( bitmap, bitmap->first_gap ) ) first_gap++;] *)
Fixpoint advance_gap (fuel : nat) (bm : bitmap) : option bitmap :=
  match fuel with
  | O => None
  | S fuel =>
      t ← bitmap_test bm (first_gap bm);
      if (t : bool)
      then advance_gap fuel (set_first_gap bm (u32 (first_gap bm + 1)))
      else Some bm
  end.

(** Each iteration of the loop passes one set bit below the length, so
    the distance to the length bounds the iterations. *)
Definition gap_fuel (bm : bitmap) : nat :=
  S (Z.to_nat (bm_length bm - first_gap bm)).

Definition bitmap_set (bm : bitmap) (bit : Z) : option bitmap :=
  let index := BITMAP_INDEX bit in
  let mask := BITMAP_MASK bit in
  b ← blocks bm !! Z.to_nat index;
  let bm := Bitmap (<[Z.to_nat index := Z.lor b mask]> (blocks bm))
              (bm_length bm) (first_gap bm) in
  advance_gap (gap_fuel bm) bm.

Definition bitmap_first_gap (bm : bitmap) : Z := first_gap bm.
Definition bitmap_full (bm : bitmap) : bool := first_gap bm =? bm_length bm.

(** ** Abstraction: the set of bits. *)
Definition bm_bit (bm : bitmap) (i : Z) : bool :=
  match blocks bm !! Z.to_nat (BITMAP_INDEX i) with
  | Some b => Z.testbit b (i mod BITMAP_BLKSIZE)
  | None => false
  end.

(** Shape: the block array fits the length, and no bit is set beyond it. *)
Record bm_shape (bm : bitmap) : Prop := BmShape {
  wf_len : 0 <= bm_length bm < 2 ^ 32 - BITMAP_BLKSIZE;
  wf_blocks : zlen (blocks bm) = BITMAP_INDEX (bm_length bm + BITMAP_BLKSIZE - 1);
  wf_block : Forall (fun b => 0 <= b < 2 ^ 32) (blocks bm);
  wf_stray i : bm_length bm <= i -> bm_bit bm i = false }.

(** Well-formedness: moreover [first_gap] is the first clear bit. *)
Record bm_wf (bm : bitmap) : Prop := BmWf {
  wf_shape : bm_shape bm;
  wf_gap_le : 0 <= first_gap bm <= bm_length bm;
  wf_gap_set i : 0 <= i < first_gap bm -> bm_bit bm i = true;
  wf_gap : bm_bit bm (first_gap bm) = false }.

(** ** Lemmas. *)
Lemma bitmap_mask_pow bit : BITMAP_MASK bit = 2 ^ (bit mod 32).
Proof.
  unfold BITMAP_MASK, BITMAP_BLKSIZE. rewrite Z.shiftl_mul_pow2, Z.mul_1_l by zdm.
  apply wrap_small. split; [lia|]. apply Z.pow_lt_mono_r; zdm.
Qed.

Lemma land_mask b bit : ctrue (Z.land b (BITMAP_MASK bit)) = Z.testbit b (bit mod 32).
Proof.
  rewrite bitmap_mask_pow. unfold ctrue. pose proof (Z.mod_pos_bound bit 32 ltac:(lia)).
  destruct (Z.testbit b (bit mod 32)) eqn:E.
  - apply negb_true_iff, Z.eqb_neq. intros H0.
    assert (Z.testbit (Z.land b (2 ^ (bit mod 32))) (bit mod 32) = true) as Ht.
    { rewrite Z.land_spec, E, Z.pow2_bits_true; [done|lia]. }
    by rewrite H0, Z.testbit_0_l in Ht.
  - apply negb_false_iff, Z.eqb_eq, Z.bits_inj'. intros n Hn.
    rewrite Z.land_spec, Z.testbit_0_l, Z.pow2_bits_eqb by lia.
    destruct (Z.eqb_spec (bit mod 32) n); [subst; by rewrite E | apply andb_false_r].
Qed.

Lemma shape_index bm i :
  bm_shape bm -> 0 <= i < bm_length bm -> (Z.to_nat (BITMAP_INDEX i) < length (blocks bm))%nat.
Proof. intros [Hl Hb _ _] Hi. unfold BITMAP_INDEX, BITMAP_BLKSIZE in *. zdm. Qed.

Lemma bitmap_test_shape bm i : bm_shape bm -> 0 <= i -> bitmap_test bm i = Some (bm_bit bm i).
Proof.
  intros Hs Hi. unfold bitmap_test. zcases.
  - by rewrite (wf_stray _ Hs).
  - unfold bm_bit. destruct (lookup_lt_is_Some_2 (blocks bm) (Z.to_nat (BITMAP_INDEX i))) as [b Eb].
    { apply shape_index; [done|lia]. }
    rewrite Eb. simpl. by rewrite land_mask.
Qed.

(** The loop only moves [first_gap], up to the first clear bit. *)
Lemma advance_gap_spec fuel bm :
  bm_shape bm -> 0 <= first_gap bm <= bm_length bm ->
  (Z.to_nat (bm_length bm - first_gap bm) < fuel)%nat ->
  exists g, advance_gap fuel bm = Some (set_first_gap bm g) /\
    first_gap bm <= g <= bm_length bm /\ bm_bit bm g = false /\
    (forall i, first_gap bm <= i < g -> bm_bit bm i = true).
Proof.
  revert bm. induction fuel as [|fuel IH]; intros bm Hs Hg Hf; [lia|].
  pose proof (wf_len _ Hs). unfold BITMAP_BLKSIZE in *.
  simpl. rewrite (bitmap_test_shape _ _ Hs) by lia. simpl.
  destruct (bm_bit bm (first_gap bm)) eqn:E.
  - assert (first_gap bm <> bm_length bm) by (intros Eg; rewrite Eg, (wf_stray _ Hs) in E by lia; done).
    assert (u32 (first_gap bm + 1) = first_gap bm + 1) as Eg by (apply wrap_small; lia).
    rewrite Eg. destruct (IH (set_first_gap bm (first_gap bm + 1))) as (g & E1 & Hg1 & Hg2 & Hg3);
      simpl in *; [by destruct Hs|lia|lia|].
    exists g. split_and!; [done|lia|lia|done|]. intros i Hi.
    destruct (decide (i = first_gap bm)) as [->|]; [done|]. apply Hg3. lia.
  - exists (first_gap bm). split_and!; [by destruct bm|lia|lia|done|lia].
Qed.

Lemma bm_bit_update bm bit b len g i :
  0 <= bit -> 0 <= i -> blocks bm !! Z.to_nat (BITMAP_INDEX bit) = Some b ->
  bm_bit (Bitmap (<[Z.to_nat (BITMAP_INDEX bit) := Z.lor b (BITMAP_MASK bit)]> (blocks bm)) len g) i
  = (i =? bit) || bm_bit bm i.
Proof.
  intros Hbit Hi Eb. unfold bm_bit. simpl.
  pose proof (lookup_lt_Some _ _ _ Eb).
  destruct (decide (BITMAP_INDEX i = BITMAP_INDEX bit)) as [E|Hne].
  - rewrite E, list_lookup_insert_eq, Eb by done.
    unfold BITMAP_INDEX, BITMAP_BLKSIZE in *.
    rewrite Z.lor_spec, bitmap_mask_pow, Z.pow2_bits_eqb by zdm. rewrite orb_comm.
    f_equal. apply eq_iff_eq_true. rewrite !Z.eqb_eq. zdm.
  - rewrite list_lookup_insert_ne by (unfold BITMAP_INDEX, BITMAP_BLKSIZE in *; zdm).
    destruct (Z.eqb_spec i bit); [congruence|done].
Qed.

Lemma bm_block_update bm bit b :
  bm_shape bm -> blocks bm !! Z.to_nat (BITMAP_INDEX bit) = Some b ->
  0 <= Z.lor b (BITMAP_MASK bit) < 2 ^ 32.
Proof.
  intros Hwf Eb. pose proof (Forall_lookup_1 _ _ _ _ (wf_block _ Hwf) Eb) as Hb. simpl in Hb.
  assert (0 <= BITMAP_MASK bit < 2 ^ 32) as Hm by (apply wrap_range; lia).
  split; [apply Z.lor_nonneg; lia|]. rewrite <- (Z.mod_small b (2 ^ 32)) by lia.
  rewrite <- (Z.mod_small (BITMAP_MASK bit) (2 ^ 32)) by lia.
  rewrite <- !Z.land_ones, <- Z.land_lor_distr_l, Z.land_ones by lia. apply Z.mod_pos_bound. lia.
Qed.

Lemma bm_shape_update bm bit b :
  bm_shape bm -> 0 <= bit < bm_length bm ->
  blocks bm !! Z.to_nat (BITMAP_INDEX bit) = Some b ->
  bm_shape (Bitmap (<[Z.to_nat (BITMAP_INDEX bit) := Z.lor b (BITMAP_MASK bit)]> (blocks bm))
              (bm_length bm) (first_gap bm)).
Proof.
  intros Hs Hbit Eb. pose proof (wf_len _ Hs). split; simpl.
  - done.
  - rewrite length_insert. apply (wf_blocks _ Hs).
  - apply Forall_insert; [apply (wf_block _ Hs)|by apply (bm_block_update bm)].
  - intros i Hi. rewrite bm_bit_update by (done || lia). rewrite (wf_stray _ Hs) by done.
    destruct (Z.eqb_spec i bit); [lia|done].
Qed.

Lemma bitmap_set_bits bm bit :
  bm_wf bm -> 0 <= bit < bm_length bm ->
  exists bm', bitmap_set bm bit = Some bm' /\ bm_wf bm' /\ bm_length bm' = bm_length bm /\
    (forall i, 0 <= i -> bm_bit bm' i = (i =? bit) || bm_bit bm i).
Proof.
  intros [Hs Hgl Hgs Hg] Hbit. unfold bitmap_set.
  destruct (lookup_lt_is_Some_2 (blocks bm) (Z.to_nat (BITMAP_INDEX bit))) as [b Eb].
  { by apply shape_index. }
  rewrite Eb. cbn [mbind option_bind].
  pose proof (bm_shape_update bm bit b Hs Hbit Eb) as Hs1.
  set (bm1 := Bitmap _ (bm_length bm) (first_gap bm)) in *.
  assert (forall i, 0 <= i -> bm_bit bm1 i = (i =? bit) || bm_bit bm i) as Hb1
    by (intros; apply bm_bit_update; [lia|done|done]).
  destruct (advance_gap_spec (gap_fuel bm1) bm1) as (g & E & Hg1 & Hgap & Hset);
    [done|done|unfold gap_fuel; lia|].
  exists (set_first_gap bm1 g). simpl in Hg1. split_and!; [done| |done|done].
  split; [by destruct Hs1|simpl; lia| |done]. simpl. intros i Hi. change (bm_bit bm1 i = true).
  destruct (decide (first_gap bm <= i)); [apply Hset; simpl; lia|].
  rewrite Hb1, Hgs by lia. apply orb_true_r.
Qed.

Lemma bitmap_full_bits bm :
  bm_wf bm -> bitmap_full bm = true <-> forall i, 0 <= i < bm_length bm -> bm_bit bm i = true.
Proof.
  intros [Hs Hgl Hgs Hg]. unfold bitmap_full. rewrite Z.eqb_eq. split.
  - intros E i Hi. apply Hgs. lia.
  - intros Hall. destruct (decide (first_gap bm = bm_length bm)) as [|Hne]; [done|].
    specialize (Hall (first_gap bm) ltac:(lia)). congruence.
Qed.

(** A bitmap of [n] clear bits. *)
Definition bitmap_clear (n : Z) : bitmap :=
  Bitmap (replicate (Z.to_nat (BITMAP_INDEX (n + BITMAP_BLKSIZE - 1))) 0) n 0.

Lemma bitmap_clear_bit n i : bm_bit (bitmap_clear n) i = false.
Proof.
  unfold bm_bit, bitmap_clear. simpl. destruct (replicate _ 0 !! _) as [b|] eqn:E; [|done].
  apply lookup_replicate in E as [-> _]. apply Z.testbit_0_l.
Qed.

Lemma bitmap_clear_wf n : 0 <= n < 2 ^ 32 - BITMAP_BLKSIZE -> bm_wf (bitmap_clear n).
Proof.
  intros Hn. split; [split| | |]; simpl.
  - done.
  - rewrite length_replicate, Z2Nat.id; [done|]. unfold BITMAP_INDEX, BITMAP_BLKSIZE in *. zdm.
  - by apply Forall_replicate.
  - intros i _. apply bitmap_clear_bit.
  - lia.
  - lia.
  - apply bitmap_clear_bit.
Qed.

(** Setting a bit within the length sets exactly that bit, keeps the
    bitmap well formed, and leaves [first_gap] at the first clear bit: the
    update loop always terminates. *)
Theorem bitmap_set_spec bm bit :
  bm_wf bm -> 0 <= bit < bm_length bm ->
  exists bm', bitmap_set bm bit = Some bm' /\ bm_wf bm' /\
    bm_length bm' = bm_length bm /\
    (forall i, 0 <= i -> bitmap_test bm' i = Some ((i =? bit) || bm_bit bm i)).
Proof.
  intros Hw Hbit. destruct (bitmap_set_bits bm bit Hw Hbit) as (bm' & E & Hw' & Hl & Hb).
  exists bm'. split_and!; [done..|]. intros i Hi. by rewrite (bitmap_test_shape _ _ (wf_shape _ Hw')), Hb.
Qed.

(** A well-formed bitmap is reported full exactly when every bit of
    its length is set, and [bitmap_first_gap] is the least clear bit. *)
Theorem bitmap_full_iff bm :
  bm_wf bm ->
  (bitmap_full bm = true <-> forall i, 0 <= i < bm_length bm -> bitmap_test bm i = Some true) /\
  (forall i, 0 <= i -> bitmap_test bm i = Some false -> bitmap_first_gap bm <= i).
Proof.
  intros Hw. pose proof (wf_shape _ Hw) as Hs. split.
  - rewrite (bitmap_full_bits _ Hw). split; intros H i Hi; specialize (H i Hi); rewrite bitmap_test_shape in * by (done || lia); congruence.
  - intros i Hi. rewrite bitmap_test_shape by done. intros [= E]. unfold bitmap_first_gap.
    destruct (decide (first_gap bm <= i)); [done|]. rewrite (wf_gap_set _ Hw) in E by lia. done.
Qed.

(** [bitmap_set] does no bounds check: setting a bit past the last
    block accesses memory outside the block array. *)
Theorem bitmap_set_out_of_bounds bm bit :
  BITMAP_BLKSIZE * zlen (blocks bm) <= bit -> bitmap_set bm bit = None.
Proof.
  intros Hb. unfold bitmap_set.
  rewrite lookup_ge_None_2; [done|]. unfold BITMAP_INDEX, BITMAP_BLKSIZE in *. zdm.
Qed.

(** ** Resizing. *)
Lemma zero_blocks_length n from bl : length (zero_blocks n from bl) = length bl.
Proof. revert from bl. induction n; intros; simpl; [done|]. by rewrite IHn, length_insert. Qed.

Lemma zero_blocks_lookup n from bl i :
  0 <= from -> from + Z.of_nat n <= zlen bl ->
  zero_blocks n from bl !! i =
    if decide (from <= Z.of_nat i < from + Z.of_nat n) then Some 0 else bl !! i.
Proof.
  revert from bl. induction n as [|n IH]; intros from bl Hf Hl; cbn [zero_blocks].
  - by rewrite decide_False by lia.
  - rewrite IH by (rewrite ?length_insert; lia).
    destruct (decide (i = Z.to_nat from)) as [->|Hne].
    + rewrite decide_False, decide_True by lia. apply list_lookup_insert_eq. lia.
    + rewrite list_lookup_insert_ne by done. repeat case_decide; try done; lia.
Qed.

(** The new block array, once its tail has been cleared. *)
Lemma resize_finish bm bl new_length :
  bm_wf bm -> bm_length bm <= new_length < 2 ^ 32 - BITMAP_BLKSIZE ->
  let old_num := BITMAP_INDEX (bm_length bm + BITMAP_BLKSIZE - 1) in
  let new_num := BITMAP_INDEX (new_length + BITMAP_BLKSIZE - 1) in
  zlen bl = new_num -> (forall i, (i < length (blocks bm))%nat -> bl !! i = blocks bm !! i) ->
  let bm' := Bitmap (zero_blocks (Z.to_nat (new_num - old_num)) old_num bl)
               new_length (first_gap bm) in
  bm_wf bm' /\ (forall i, 0 <= i -> bm_bit bm' i = bm_bit bm i).
Proof.
  intros [Hs Hgl Hgs Hg] Hnew old_num new_num Hbl Hkeep bm'.
  pose proof (wf_blocks _ Hs) as Hob. fold old_num in Hob.
  assert (0 <= old_num <= new_num) as Hnum
    by (pose proof (wf_len _ Hs); unfold old_num, new_num, BITMAP_INDEX, BITMAP_BLKSIZE in *; zdm).
  assert (forall i, blocks bm' !! i = if decide (old_num <= Z.of_nat i < new_num) then Some 0 else blocks bm !! i) as Hlk.
  { intros i. simpl. rewrite zero_blocks_lookup by lia. repeat case_decide; try lia; [done|].
    destruct (decide (i < length (blocks bm))%nat); [by apply Hkeep|]. rewrite !lookup_ge_None_2; [done|lia..]. }
  assert (forall i, 0 <= i -> bm_bit bm' i = bm_bit bm i) as Hbits.
  { intros i Hi. unfold bm_bit. rewrite Hlk. case_decide; [|done].
    rewrite (lookup_ge_None_2 (blocks bm)) by lia. apply Z.testbit_0_l. }
  assert (0 <= bm_length bm) by apply (wf_len _ Hs).
  split; [|done]. split; [split|..]; simpl.
  - lia.
  - rewrite zero_blocks_length. exact Hbl.
  - apply Forall_lookup. intros i b. change (zero_blocks _ _ _) with (blocks bm'). rewrite Hlk.
    case_decide; [intros [= <-]; lia|]. apply (Forall_lookup_1 _ _ _ _ (wf_block _ Hs)).
  - intros i Hi. fold bm'. rewrite Hbits by lia. apply (wf_stray _ Hs). lia.
  - lia.
  - intros i Hi. fold bm'. rewrite Hbits by lia. auto.
  - fold bm'. rewrite Hbits by lia. done.
Qed.

(** Growing a bitmap keeps every bit, adds only clear bits, keeps the
    first gap, and a failed allocation changes nothing. *)
Theorem bitmap_resize_spec realloc `{Realloc realloc} bm new_length bm' r :
  bm_wf bm -> bm_length bm <= new_length < 2 ^ 32 - BITMAP_BLKSIZE ->
  bitmap_resize realloc bm new_length = (bm', r) ->
  match r with
  | RC_ERR e => e = ENOMEM /\ bm' = bm
  | RC_OK => bm_wf bm' /\ bm_length bm' = new_length /\ first_gap bm' = first_gap bm /\
      (forall i, 0 <= i -> bitmap_test bm' i = Some (bm_bit bm i))
  end.
Proof.
  intros Hwf Hnew. pose proof (wf_len _ (wf_shape _ Hwf)) as Hl. unfold BITMAP_BLKSIZE in Hl, Hnew.
  unfold bitmap_resize. rewrite !wrap_small by (unfold BITMAP_BLKSIZE; lia).
  pose proof (wf_blocks _ (wf_shape _ Hwf)) as Hob.
  assert (forall bl, zlen bl = BITMAP_INDEX (new_length + BITMAP_BLKSIZE - 1) ->
    (forall i, (i < length (blocks bm))%nat -> bl !! i = blocks bm !! i) -> 
    let bm' := Bitmap (zero_blocks (Z.to_nat (BITMAP_INDEX (new_length + BITMAP_BLKSIZE - 1) -
        BITMAP_INDEX (bm_length bm + BITMAP_BLKSIZE - 1))) (BITMAP_INDEX (bm_length bm + BITMAP_BLKSIZE - 1)) bl)
               new_length (first_gap bm) in
    bm_wf bm' /\ forall i, 0 <= i -> bitmap_test bm' i = Some (bm_bit bm i)) as Hfin.
  { intros bl Hbl Hk bm1. destruct (resize_finish bm bl new_length) as [Hw Hb]; [done|done|done|done|].
    split; [done|]. intros i Hi. rewrite (bitmap_test_shape bm1); [|apply Hw|done]. f_equal. by apply Hb. }
  destruct (Z.eqb_spec (BITMAP_INDEX (bm_length bm + BITMAP_BLKSIZE - 1)) (BITMAP_INDEX (new_length + BITMAP_BLKSIZE - 1))) as [E|Hne].
  - intros [= <- <-]. destruct (Hfin (blocks bm)) as [? ?]; [congruence|done|done].
  - assert (BITMAP_INDEX (bm_length bm + BITMAP_BLKSIZE - 1) <= BITMAP_INDEX (new_length + BITMAP_BLKSIZE - 1)) as Hle
      by (unfold BITMAP_INDEX, BITMAP_BLKSIZE in *; zdm).
    destruct (realloc _ _) as [bl|] eqn:Er; intros [= <- <-]; [|done].
    apply realloc_length in Er as Hlen; [|lia].
    destruct (Hfin bl) as [? ?]; [done| |done]. intros i Hi.
    apply (realloc_keeps _ _ _ i) in Er; [done|lia|lia|done].
Qed.

(** ** Instances: a bitmap of 40 bits with bits 0, 1 and 3 set. *)
Definition bitmap_40 : bitmap := Bitmap [11; 0] 40 2.

Lemma bitmap_40_bit i :
  bm_bit bitmap_40 i = (i / 32 <=? 0) && Z.testbit 11 (i mod 32).
Proof.
  unfold bm_bit, BITMAP_INDEX, BITMAP_BLKSIZE. simpl blocks. destruct (Z.leb_spec (i / 32) 0).
  - by replace (Z.to_nat (i / 32)) with O by lia.
  - destruct (decide (i / 32 = 1)) as [->|]; [apply Z.testbit_0_l; zdm|].
    rewrite lookup_ge_None_2; [done|]. simpl. lia.
Qed.

Lemma bitmap_40_wf : bm_wf bitmap_40.
Proof.
  split; [split| | |]; try done.
  - by_decide.
  - intros i Hi. simpl in Hi. rewrite bitmap_40_bit. destruct (Z.leb_spec (i / 32) 0); [zdm|done].
  - simpl. intros i Hi. assert (i = 0 \/ i = 1) as [-> | ->] by lia; done.
Qed.

Lemma bitmap_set_spec_witness :
  exists bm', bitmap_set bitmap_40 2 = Some bm' /\ bm_wf bm' /\ bm_length bm' = 40.
Proof.
  destruct (bitmap_set_spec bitmap_40 2 bitmap_40_wf) as (bm' & ? & ? & ? & _); [simpl; lia|].
  by exists bm'.
Defined.

Lemma bitmap_full_iff_witness :
  bitmap_test bitmap_40 5 = Some false /\ bitmap_first_gap bitmap_40 <= 5.
Proof. split; [done|]. apply (bitmap_full_iff bitmap_40 bitmap_40_wf); [lia|done]. Defined.

Lemma bitmap_set_out_of_bounds_witness : bitmap_set bitmap_40 64 = None.
Proof. apply (bitmap_set_out_of_bounds bitmap_40 64). by vm_compute. Defined.

(** A reallocator that fills new blocks with ones. *)
Definition resize_ones (l : list Z) (n : Z) : option (list Z) :=
  Some (take (Z.to_nat n) l ++ replicate (Z.to_nat n - length l) (2 ^ 32 - 1)).

#[export] Instance resize_ones_realloc : Realloc resize_ones.
Proof.
  split.
  - intros l n l' Hn [= <-]. rewrite length_app, length_take, length_replicate. lia.
  - intros l n l' i Hn [= <-] Hi Hl. rewrite lookup_app_l by (rewrite length_take; lia).
    apply lookup_take_lt. lia.
Qed.

Lemma bitmap_resize_spec_witness :
  bm_wf (bitmap_resize resize_ones bitmap_40 100).1.
Proof.
  refine (proj1 (bitmap_resize_spec resize_ones bitmap_40 100
    (bitmap_resize resize_ones bitmap_40 100).1 RC_OK bitmap_40_wf _ eq_refl)).
  simpl. unfold BITMAP_BLKSIZE. lia.
Defined.
