(* ===== verification/Malloc.v ===== *)
(** * The memory allocator: src/src/core/malloc.c.

    The free list is the list of free blocks in list order (the pointer
    manipulations are those of LinkedList, whose refinement theorems
    justify the abstract list).  Addresses and sizes are 32-bit; the
    differences the code compares are signed 32-bit values.  Cached data
    that can be discarded to obtain memory belongs to other components:
    their state is the type [W], their discard functions act on that
    state and on the heap together. *)
From S2P Require Import Prelude.

Record memory_block := Blk { baddr : Z; bsize : Z }.

#[export] Instance memory_block_eq_dec : EqDecision memory_block.
Proof. solve_decision. Defined.

(** [sizeof ( struct memory_block )] is 16 in the i386 build: the size,
    the padding over a reference count, and two list pointers. *)
Definition MIN_MEMBLOCK_SIZE : Z := 16.
Definition HEAP_SIZE : Z := 1024 * 1024 * 50.

Record heap := Heap { free_blocks : list memory_block; freemem : Z }.

(** [( size + MIN_MEMBLOCK_SIZE - 1 ) & ~( MIN_MEMBLOCK_SIZE - 1 )] *)
Definition round_up (size : Z) : Z :=
  Z.land (u32 (size + MIN_MEMBLOCK_SIZE - 1)) (Z.lnot (MIN_MEMBLOCK_SIZE - 1)).

Section Allocator.

(** Difference between physical and virtual addresses. *)
Variable virt_offset : Z.

Definition virt_to_phys (addr : Z) : Z := u32 (addr + virt_offset).

(** State of the components that hold discardable data. *)
Context {W : Type}.

Abbreviation world := (W * heap)%type.
Variable discarders : list (world -> world * Z).

Fixpoint discard_cache_loop (ds : list (world -> world * Z)) (w : world)
    : world * Z :=
  match ds with
  | [] => (w, 0)
  | d :: ds =>
      let '(w, discarded) := d w in
      if ctrue discarded then (w, discarded) else discard_cache_loop ds w
  end.

Definition discard_cache (w : world) : world * Z :=
  discard_cache_loop discarders w.

Fixpoint discard_all_cache (fuel : nat) (w : world) : option world :=
  match fuel with
  | O => None
  | S fuel =>
      let '(w, discarded) := discard_cache w in
      if ctrue discarded then discard_all_cache fuel w else Some w
  end.

(** First-fit search of the free list; the block found is split into a
    block before, the allocated block, and a block after, and the outer
    two stay free unless they are too small. *)
Fixpoint alloc_search (size align_mask offset : Z) (l : list memory_block)
    : option (list memory_block * Z) :=
  match l with
  | [] => None
  | b :: rest =>
      let pre_size := Z.land (u32 (offset - virt_to_phys (baddr b))) align_mask in
      let post_size := s32 (bsize b - pre_size - size) in
      if 0 <=? post_size then
        let block := u32 (baddr b + pre_size) in
        let post := u32 (block + size) in
        let posts := if MIN_MEMBLOCK_SIZE <=? post_size then [Blk post post_size] else [] in
        let pres := if pre_size <? MIN_MEMBLOCK_SIZE then [] else [Blk (baddr b) pre_size] in
        Some (pres ++ posts ++ rest, block)
      else
        '(l', p) ← alloc_search size align_mask offset rest;
        Some (b :: l', p)
  end.

Fixpoint alloc_loop (fuel : nat) (size align_mask offset : Z) (w : world)
    : option (world * option Z) :=
  match fuel with
  | O => None
  | S fuel =>
      match alloc_search size align_mask offset (free_blocks w.2) with
      | Some (l, ptr) => Some ((w.1, Heap l (u32 (freemem w.2 - size))), Some ptr)
      | None =>
          let '(w, discarded) := discard_cache w in
          if ctrue discarded then alloc_loop fuel size align_mask offset w
          else Some (w, None)
      end
  end.

(** [None]: the search did not end within the fuel, or the rounded size
    is zero, which the function excludes (the block after would be the
    allocated block itself). *)
Definition alloc_memblock (fuel : nat) (size align offset : Z) (w : world)
    : option (world * option Z) :=
  let size := round_up size in
  let align_mask := Z.lor (u32 (align - 1)) (MIN_MEMBLOCK_SIZE - 1) in
  if size =? 0 then None else alloc_loop fuel size align_mask offset w.

End Allocator.

(** The loop of [free_memblock]: the blocks kept before the insertion
    point, the block being freed (grown if it was merged into the block
    before it), the blocks from the insertion point on, and the last gap
    computed.  [None]: the insertion point would be the merged block. *)
Fixpoint free_loop (size : Z) (freeing : memory_block) (gap_after : Z)
    (l : list memory_block)
    : option (list memory_block * memory_block * list memory_block * Z) :=
  match l with
  | [] => Some ([], freeing, [], gap_after)
  | b :: rest =>
      let gap_before := s32 (baddr freeing - (baddr b + bsize b)) in
      let gap_after := s32 (baddr b - (baddr freeing + bsize freeing)) in
      if gap_before =? 0 then
        if 0 <=? gap_after then None else
        free_loop size (Blk (baddr b) (u32 (bsize b + size))) gap_after rest
      else if 0 <=? gap_after then Some ([], freeing, l, gap_after)
      else
        '(kept, freeing, rest, gap_after) ← free_loop size freeing gap_after rest;
        Some (b :: kept, freeing, rest, gap_after)
  end.

(** Insertion before the block that follows, merging it if it is adjacent. *)
Definition insert_freeing (freeing : memory_block) (rest : list memory_block)
    (gap_after : Z) : list memory_block :=
  match rest with
  | b :: rest' =>
      if gap_after =? 0
      then Blk (baddr freeing) (u32 (bsize freeing + bsize b)) :: rest'
      else freeing :: rest
  | [] => [freeing]
  end.

Definition free_memblock (ptr size : Z) (h : heap) : option heap :=
  if ptr =? 0 then Some h else
  let size := round_up size in
  '(kept, freeing, rest, gap_after) ← free_loop size (Blk ptr size) (-1) (free_blocks h);
  Some (Heap (kept ++ insert_freeing freeing rest gap_after) (u32 (freemem h + size))).

Definition mpopulate (start len : Z) (h : heap) : option heap :=
  free_memblock start (Z.land len (Z.lnot (MIN_MEMBLOCK_SIZE - 1))) h.

Definition init_heap (heap_addr : Z) : option heap :=
  mpopulate heap_addr HEAP_SIZE (Heap [] 0).

(** Contents of memory: the size field of the autosized blocks, and the
    data bytes.  What the allocator itself writes into free blocks is not
    part of the contents. *)
Record mem := Mem { mem_size : Z -> Z; mem_byte : Z -> Z }.

Definition NULL : Z := 0.
Definition NOWHERE : Z := 2 ^ 32 - 1.

(** [offsetof ( struct autosized_block, data )] *)
Definition AUTOSIZED_DATA : Z := 4.

Definition set_size (m : mem) (block size : Z) : mem :=
  Mem (fun a => if a =? block then size else mem_size m a) (mem_byte m).

Definition memcpy (m : mem) (dest src len : Z) : mem :=
  Mem (mem_size m)
    (fun a => if (dest <=? a) && (a <? dest + len) then mem_byte m (src + (a - dest))
              else mem_byte m a).

Definition memset (m : mem) (dest c len : Z) : mem :=
  Mem (mem_size m)
    (fun a => if (dest <=? a) && (a <? dest + len) then c else mem_byte m a).

Section Realloc.
Variable virt_offset : Z.
Context {W : Type}.
Variable discarders : list ((W * heap) -> (W * heap) * Z).
Variable fuel : nat.

(** The second half of [realloc]: copy and free the old block. *)
Definition realloc_finish (old_ptr new_ptr new_size : Z) (w : W * heap) (m : mem)
    : option (W * heap * mem * Z) :=
  if (old_ptr =? NULL) || (old_ptr =? NOWHERE) then Some (w, m, new_ptr) else
  let old_block := u32 (old_ptr - AUTOSIZED_DATA) in
  let old_total_size := mem_size m old_block in
  let old_size := u32 (old_total_size - AUTOSIZED_DATA) in
  let m := memcpy m new_ptr old_ptr (if old_size <? new_size then old_size else new_size) in
  h ← free_memblock old_block old_total_size w.2;
  Some ((w.1, h), m, new_ptr).

Definition realloc (old_ptr new_size : Z) (w : W * heap) (m : mem)
    : option (W * heap * mem * Z) :=
  if new_size =? 0 then realloc_finish old_ptr NOWHERE new_size w m else
  let new_total_size := u32 (new_size + AUTOSIZED_DATA) in
  '(w, new_block) ← alloc_memblock virt_offset discarders fuel new_total_size 1 0 w;
  match new_block with
  | None => Some (w, m, NULL)
  | Some new_block =>
      let m := set_size m new_block new_total_size in
      realloc_finish old_ptr (u32 (new_block + AUTOSIZED_DATA)) new_size w m
  end.

Definition malloc (size : Z) (w : W * heap) (m : mem) : option (W * heap * mem * Z) :=
  realloc NULL size w m.

Definition free (ptr : Z) (w : W * heap) (m : mem) : option (W * heap * mem) :=
  '(w, m, _) ← realloc ptr 0 w m;
  Some (w, m).

Definition zalloc (size : Z) (w : W * heap) (m : mem) : option (W * heap * mem * Z) :=
  '(w, m, data) ← malloc size w m;
  if ctrue data then Some (w, memset m data 0 size, data) else Some (w, m, data).

End Realloc.

(** ** Invariant of the free list: blocks in address order inside [lo, hi),
    none smaller than the minimum, never adjacent. *)
Fixpoint blocks_ok (lo hi : Z) (l : list memory_block) : Prop :=
  match l with
  | [] => True
  | b :: l =>
      lo <= baddr b /\ MIN_MEMBLOCK_SIZE <= bsize b /\ baddr b + bsize b <= hi /\
      blocks_ok (baddr b + bsize b + 1) hi l
  end.

Definition in_block (b : memory_block) (a : Z) : Prop := baddr b <= a < baddr b + bsize b.
Definition is_free (l : list memory_block) (a : Z) : Prop := Exists (fun b => in_block b a) l.

Fixpoint total_size (l : list memory_block) : Z :=
  match l with
  | [] => 0
  | b :: l => bsize b + total_size l
  end.

(** The heap proper: a region of the address space smaller than 2^31. *)
Record region (lo hi : Z) : Prop := Region {
  region_lo : 0 < lo;
  region_hi : hi < 2 ^ 32;
  region_size : hi - lo < 2 ^ 31 }.

(** ** Arithmetic of rounding and alignment. *)
Lemma land_lnot_ones x n : 0 <= n -> Z.land x (Z.lnot (2 ^ n - 1)) = x - x mod 2 ^ n.
Proof.
  intros Hn. replace (2 ^ n - 1) with (Z.ones n) by (rewrite Z.ones_equiv; lia).
  rewrite <- Z.ldiff_land, Z.ldiff_ones_r by done.
  rewrite Z.shiftl_mul_pow2, Z.shiftr_div_pow2 by done.
  pose proof (Z.div_mod x (2 ^ n) ltac:(lia)). lia.
Qed.

Lemma round_up_eq size :
  0 <= size <= 2 ^ 32 - MIN_MEMBLOCK_SIZE ->
  round_up size = MIN_MEMBLOCK_SIZE * ((size + MIN_MEMBLOCK_SIZE - 1) / MIN_MEMBLOCK_SIZE).
Proof.
  intros Hs. unfold round_up, MIN_MEMBLOCK_SIZE in *. rewrite wrap_small by lia.
  change (16 - 1) with (2 ^ 4 - 1). rewrite land_lnot_ones by lia. change (2 ^ 4) with 16. zdm.
Qed.

Lemma round_up_bounds size :
  0 <= size <= 2 ^ 32 - MIN_MEMBLOCK_SIZE -> size <= round_up size < size + MIN_MEMBLOCK_SIZE.
Proof. intros Hs. rewrite round_up_eq by done. unfold MIN_MEMBLOCK_SIZE in *. zdm. Qed.

Lemma round_up_multiple size :
  0 <= size <= 2 ^ 32 - MIN_MEMBLOCK_SIZE -> round_up size mod MIN_MEMBLOCK_SIZE = 0.
Proof. intros Hs. rewrite round_up_eq by done. unfold MIN_MEMBLOCK_SIZE in *. zdm. Qed.

Lemma align_mask_ones k :
  0 <= k < 32 -> Z.lor (u32 (2 ^ k - 1)) (MIN_MEMBLOCK_SIZE - 1) = Z.ones (Z.max k 4).
Proof.
  intros Hk. pose proof (Z.pow_lt_mono_r 2 k 32 ltac:(lia) ltac:(lia) ltac:(lia)).
  rewrite wrap_small by lia. change (MIN_MEMBLOCK_SIZE - 1) with (Z.ones 4).
  replace (2 ^ k - 1) with (Z.ones k) by (rewrite Z.ones_equiv; lia).
  apply Z.bits_inj'. intros n Hn. rewrite Z.lor_spec, !Z.testbit_ones_nonneg by lia.
  apply eq_iff_eq_true. rewrite orb_true_iff, !Z.ltb_lt. lia.
Qed.

Lemma phys_aligned virt_offset a offset m :
  0 <= m <= 32 -> 
  let pre := Z.land (u32 (offset - virt_to_phys virt_offset a)) (Z.ones m) in
  0 <= pre < 2 ^ m /\ (virt_to_phys virt_offset (a + pre)) mod 2 ^ m = offset mod 2 ^ m.
Proof.
  intros Hm pre. subst pre. rewrite Z.land_ones by lia. split; [apply Z.mod_pos_bound; lia|].
  assert (forall x, u32 x mod 2 ^ m = x mod 2 ^ m) as Hu.
  { intros x. unfold wrap. replace 32 with (m + (32 - m)) by lia. rewrite Z.pow_add_r by lia.
    rewrite Z.rem_mul_r, Z.mul_comm, Z.mod_add, Z.mod_mod by lia. done. }
  unfold virt_to_phys. rewrite !Hu. 
  replace (a + (offset - u32 (a + virt_offset)) mod 2 ^ m + virt_offset)
    with ((a + virt_offset) + (offset - u32 (a + virt_offset)) mod 2 ^ m) by lia.
  rewrite Zplus_mod_idemp_r, <- Zplus_mod_idemp_l, <- (Hu (a + virt_offset)), Zplus_mod_idemp_l.
  f_equal. lia.
Qed.

(** ** Lemmas on free lists. *)
Lemma blocks_ok_mono lo lo' hi l : lo' <= lo -> blocks_ok lo hi l -> blocks_ok lo' hi l.
Proof. destruct l; simpl; [done|]. intros ? (? & ? & ? & ?). split_and!; [lia|done..]. Qed.

Lemma is_free_nil a : is_free [] a <-> False.
Proof. unfold is_free. by rewrite Exists_nil. Qed.

Lemma is_free_cons b l a : is_free (b :: l) a <-> in_block b a \/ is_free l a.
Proof. unfold is_free. by rewrite Exists_cons. Qed.

Lemma is_free_app l1 l2 a : is_free (l1 ++ l2) a <-> is_free l1 a \/ is_free l2 a.
Proof. unfold is_free. by rewrite Exists_app. Qed.

Create Rewrite HintDb free.
#[export] Hint Rewrite is_free_nil is_free_cons is_free_app : free.

Lemma blocks_ok_bounds lo hi l a : blocks_ok lo hi l -> is_free l a -> lo <= a < hi.
Proof.
  revert lo. induction l as [|b l IH]; intros lo; simpl; autorewrite with free; [done|].
  unfold in_block, MIN_MEMBLOCK_SIZE. intros (? & ? & ? & Hl) [?|Hf]; [lia|].
  apply (IH _ Hl) in Hf. lia.
Qed.

Ltac mlia := unfold MIN_MEMBLOCK_SIZE in *; lia.

Section AllocatorLemmas.
Variable virt_offset : Z.
Variables lo hi : Z.
Hypothesis Hreg : region lo hi.

(** What one successful search does to the free list: [p] is the block
    found; everything that stays free was free and lies outside it, and
    what is lost besides the block itself are fragments next to it that
    are smaller than the minimum. *)
Record carved (size offset m : Z) (l l' : list memory_block) (p : Z) : Prop := Carved {
  carved_ok : blocks_ok lo hi l';
  carved_fits a : p <= a < p + size -> is_free l a;
  carved_align : virt_to_phys virt_offset p mod 2 ^ m = offset mod 2 ^ m;
  carved_sub a : is_free l' a -> is_free l a /\ ~ (p <= a < p + size);
  carved_lost a : is_free l a -> ~ is_free l' a ->
    p - MIN_MEMBLOCK_SIZE < a < p + size + MIN_MEMBLOCK_SIZE }.

(** The split of one block large enough. *)
Lemma split_block b lo' size pre post l :
  lo <= lo' -> lo' <= baddr b -> baddr b + bsize b <= hi -> MIN_MEMBLOCK_SIZE <= size ->
  0 <= pre -> 0 <= post -> bsize b = pre + size + post ->
  blocks_ok (baddr b + bsize b + 1) hi l ->
  blocks_ok lo' hi
    ((if pre <? MIN_MEMBLOCK_SIZE then [] else [Blk (baddr b) pre]) ++
     (if MIN_MEMBLOCK_SIZE <=? post then [Blk (baddr b + pre + size) post] else []) ++ l).
Proof.
  intros. unfold MIN_MEMBLOCK_SIZE in *. zcases; simpl; splits; try lia; try done;
    (eapply blocks_ok_mono; [|eassumption]; simpl; lia).
Qed.

Lemma alloc_search_spec size offset m lo' l l' p :
  blocks_ok lo' hi l -> lo <= lo' -> 4 <= m <= 30 ->
  MIN_MEMBLOCK_SIZE <= size -> size + 2 ^ m <= 2 ^ 31 ->
  alloc_search virt_offset size (Z.ones m) offset l = Some (l', p) ->
  blocks_ok lo' hi l' /\ carved size offset m l l' p.
Proof.
  intros Hok Hlo Hm Hsz Hov. revert lo' l' p Hok Hlo.
  induction l as [|b l IH]; intros lo' l' p Hok Hlo; [done|]. cbn [alloc_search].
  destruct Hok as (Hb1 & Hb2 & Hb3 & Hl). destruct Hreg as [Hr1 Hr2 Hr3].
  destruct (phys_aligned virt_offset (baddr b) offset m ltac:(lia)) as [Hpre Hal].
  set (pre := Z.land _ _) in *. unfold MIN_MEMBLOCK_SIZE in Hb2, Hsz.
  assert (s32 (bsize b - pre - size) = bsize b - pre - size) as Epost.
  { unfold signed, wrap. change (2 ^ (32 - 1)) with (2 ^ 31). zcases; zdm. }
  rewrite Epost. destruct (Z.leb_spec 0 (bsize b - pre - size)) as [Hpost|Hpost].
  - rewrite (wrap_small 32 (baddr b + pre)), (wrap_small 32 (baddr b + pre + size)) by lia.
    intros [= <- <-].
    assert (blocks_ok lo' hi
      ((if pre <? MIN_MEMBLOCK_SIZE then [] else [Blk (baddr b) pre]) ++
       (if MIN_MEMBLOCK_SIZE <=? bsize b - pre - size then [Blk (baddr b + pre + size) (bsize b - pre - size)] else []) ++ l)) as Hok'
      by (apply split_block; unfold MIN_MEMBLOCK_SIZE; (done || lia)).
    split; [done|]. split.
    + eapply blocks_ok_mono; [|exact Hok']; lia.
    + intros a Ha. autorewrite with free. left. unfold in_block. lia.
    + done.
    + intros a. pose proof (blocks_ok_bounds _ _ _ a Hl) as Hbd. autorewrite with free. unfold in_block, MIN_MEMBLOCK_SIZE.
      intros [Hf|[Hf|Hf]]; [..|specialize (Hbd Hf); split; [tauto|lia]];
        zcases; autorewrite with free in Hf; unfold in_block in Hf; simpl in Hf; split; try tauto; lia.
    + intros a. autorewrite with free. unfold in_block, MIN_MEMBLOCK_SIZE.
      intros [Hf|Hf]; [|tauto]. zcases; autorewrite with free; unfold in_block; simpl; intros Hn; lia.
  - destruct (alloc_search _ _ _ _ l) as [[l1 p1]|] eqn:E; [|done]. cbn. intros [= <- <-].
    destruct (IH _ _ _ Hl ltac:(lia) eq_refl) as [Hok1 [C1 C2 C3 C4 C5]].
    assert (forall a, p1 <= a < p1 + size -> ~ in_block b a) as Hout.
    { intros a Ha Hin. apply C2, (blocks_ok_bounds _ _ _ _ Hl) in Ha. unfold in_block in Hin. lia. }
    split; [done|]. split; [simpl; split_and!; (done || lia)|..].
    + intros a Ha. autorewrite with free. auto.
    + done.
    + intros a. autorewrite with free. intros [Hf|Hf]; [|apply C4 in Hf; tauto].
      split; [tauto|]. intros Ha. by apply (Hout a).
    + intros a. autorewrite with free. intros [Hf|Hf] Hn; [tauto|]. apply C5; tauto.
Qed.

(** Failure means that no block is large enough once aligned. *)
Lemma alloc_search_None size offset m lo' l :
  blocks_ok lo' hi l -> lo <= lo' -> 4 <= m <= 30 ->
  MIN_MEMBLOCK_SIZE <= size -> size + 2 ^ m <= 2 ^ 31 ->
  alloc_search virt_offset size (Z.ones m) offset l = None ->
  Forall (fun b => bsize b < Z.land (u32 (offset - virt_to_phys virt_offset (baddr b))) (Z.ones m) + size) l.
Proof.
  intros Hok Hlo Hm Hsz Hov. revert lo' Hok Hlo. induction l as [|b l IH]; intros lo' Hok Hlo; [constructor|].
  cbn [alloc_search]. destruct Hok as (Hb1 & Hb2 & Hb3 & Hl). destruct Hreg as [Hr1 Hr2 Hr3].
  destruct (phys_aligned virt_offset (baddr b) offset m ltac:(lia)) as [Hpre _].
  set (pre := Z.land _ _) in *. unfold MIN_MEMBLOCK_SIZE in Hb2, Hsz.
  assert (s32 (bsize b - pre - size) = bsize b - pre - size) as ->.
  { unfold signed, wrap. change (2 ^ (32 - 1)) with (2 ^ 31). zcases; zdm. }
  destruct (Z.leb_spec 0 (bsize b - pre - size)) as [Hpost|Hpost]; [done|].
  destruct (alloc_search _ _ _ _ l) as [[l1 p1]|] eqn:E; [done|]. intros _.
  constructor; [lia|]. eapply IH; [exact Hl|lia|done].
Qed.

(** Differences of addresses inside the region do not wrap. *)
Lemma gap_exact x y : lo <= x <= hi -> lo <= y <= hi -> s32 (x - y) = x - y.
Proof.
  intros Hx Hy. destruct Hreg. unfold signed, wrap. change (2 ^ (32 - 1)) with (2 ^ 31). zcases; zdm.
Qed.

(** The freed block lies before every block left to visit. *)
Lemma free_loop_front size f g l lo' :
  lo <= lo' -> lo' <= baddr f -> MIN_MEMBLOCK_SIZE <= bsize f -> baddr f + bsize f <= hi -> g < 0 ->
  blocks_ok (baddr f + bsize f) hi l ->
  exists g', free_loop size f g l = Some ([], f, l, g') /\
    blocks_ok lo' hi (insert_freeing f l g') /\
    (forall a, is_free (insert_freeing f l g') a <-> in_block f a \/ is_free l a) /\
    total_size (insert_freeing f l g') = bsize f + total_size l.
Proof.
  intros Hlo Hf1 Hf2 Hf3 Hg Hl. unfold MIN_MEMBLOCK_SIZE in *. destruct l as [|b l].
  { exists g. simpl. split_and!; try mlia; try done. intros a. by autorewrite with free. }
  destruct Hl as (Hb1 & Hb2 & Hb3 & Hl). unfold MIN_MEMBLOCK_SIZE in *.
  exists (baddr b - (baddr f + bsize f)). cbn [free_loop].
  rewrite (gap_exact (baddr f)), (gap_exact (baddr b)) by lia. destruct Hreg.
  destruct (Z.eqb_spec (baddr f - (baddr b + bsize b)) 0); [lia|].
  destruct (Z.leb_spec 0 (baddr b - (baddr f + bsize f))); [|lia].
  split; [done|]. unfold insert_freeing.
  destruct (Z.eqb_spec (baddr b - (baddr f + bsize f)) 0).
  - rewrite wrap_small by lia. unfold MIN_MEMBLOCK_SIZE. simpl. split_and!; try mlia.
    + eapply blocks_ok_mono; [|exact Hl]; lia.
    + intros a. autorewrite with free. unfold in_block. simpl. intuition lia.
  - unfold MIN_MEMBLOCK_SIZE. simpl. split_and!; try mlia; try done.
    intros a. by autorewrite with free.
Qed.

(** The whole walk: the freed region is added to the free list, merged
    with its neighbours. *)
Lemma free_loop_spec p size g l lo' :
  lo <= lo' -> lo' <= p -> MIN_MEMBLOCK_SIZE <= size -> p + size <= hi -> g < 0 ->
  blocks_ok lo' hi l -> (forall a, p <= a < p + size -> ~ is_free l a) ->
  exists kept f rest g', free_loop size (Blk p size) g l = Some (kept, f, rest, g') /\
    let r := kept ++ insert_freeing f rest g' in
    blocks_ok lo' hi r /\ (forall a, is_free r a <-> is_free l a \/ p <= a < p + size) /\
    total_size r = total_size l + size.
Proof.
  intros Hlo Hp Hs Hhi. revert lo' g Hlo Hp. unfold MIN_MEMBLOCK_SIZE in *.
  induction l as [|b l IH]; intros lo' g Hlo Hp Hg Hok Hdis.
  { exists [], (Blk p size), [], g. split; [done|]. simpl. unfold MIN_MEMBLOCK_SIZE.
    split_and!; try mlia; try done. intros a. autorewrite with free. unfold in_block. simpl. tauto. }
  assert (forall a, p <= a < p + size -> ~ is_free l a) as Hdis'
    by (intros a Ha; specialize (Hdis a Ha); autorewrite with free in Hdis; tauto).
  assert (forall a, p <= a < p + size -> ~ in_block b a) as Hdisb
    by (intros a Ha; specialize (Hdis a Ha); autorewrite with free in Hdis; tauto).
  pose proof Hok as (Hb1 & Hb2 & Hb3 & Hl). unfold MIN_MEMBLOCK_SIZE in *.
  assert (baddr b + bsize b <= p \/ p + size <= baddr b) as [Hcase|Hcase].
  { specialize (Hdisb (Z.max p (baddr b))). unfold in_block in Hdisb. lia. }
  2:{ destruct (free_loop_front size (Blk p size) g (b :: l) lo') as (g' & E & H1 & H2 & H3);
        unfold MIN_MEMBLOCK_SIZE; simpl; splits; try (done || mlia).
      exists [], (Blk p size), (b :: l), g'. split; [exact E|]. cbn [app]. split_and!; [exact H1| |rewrite H3; simpl; lia].
      intros a. rewrite H2. unfold in_block at 1. simpl. tauto. }
  cbn [free_loop]. rewrite (gap_exact (baddr (Blk p size))), (gap_exact (baddr b)) by (simpl; lia).
  simpl baddr; simpl bsize.
  destruct (Z.leb_spec 0 (baddr b - (p + size))); [lia|].
  destruct (Z.eqb_spec (p - (baddr b + bsize b)) 0) as [E0|Hne].
  - destruct Hreg. rewrite wrap_small by lia.
    assert (blocks_ok (p + size) hi l) as Hl'.
    { destruct l as [|c l]; [done|]. destruct Hl as (? & ? & ? & ?). simpl. split_and!; try done.
      specialize (Hdis' (Z.max p (baddr c))). rewrite is_free_cons in Hdis'. unfold in_block, MIN_MEMBLOCK_SIZE in *. lia. }
    destruct (free_loop_front size (Blk (baddr b) (bsize b + size)) (baddr b - (p + size)) l lo')
      as (g' & E & H1 & H2 & H3); unfold MIN_MEMBLOCK_SIZE; simpl; try (done || mlia).
    { replace (baddr b + (bsize b + size)) with (p + size) by lia. done. }
    exists [], (Blk (baddr b) (bsize b + size)), l, g'. split; [exact E|]. cbn [app].
    split_and!; [exact H1| |rewrite H3; simpl; lia].
    intros a. rewrite H2. autorewrite with free. unfold in_block. simpl. intuition lia.
  - destruct (IH (baddr b + bsize b + 1) (baddr b - (p + size))) as (kept & f & rest & g' & E & H1 & H2 & H3); try (done || mlia).
    rewrite E. cbn. exists (b :: kept), f, rest, g'. split; [done|]. cbn [app]. simpl. unfold MIN_MEMBLOCK_SIZE.
    split_and!; try (done || mlia). intros a. rewrite !is_free_cons, H2. tauto.
Qed.

End AllocatorLemmas.

(** A well-formed free list is determined by the set of free addresses. *)
Lemma blocks_ok_unique lo hi l1 l2 :
  blocks_ok lo hi l1 -> blocks_ok lo hi l2 ->
  (forall a, is_free l1 a <-> is_free l2 a) -> l1 = l2.
Proof.
  revert lo l2. induction l1 as [|b1 l1 IH]; intros lo [|b2 l2] H1 H2 Hf; [done|..].
  - destruct H2 as (? & ? & _). specialize (Hf (baddr b2)). rewrite is_free_nil, is_free_cons in Hf.
    unfold in_block in Hf. exfalso. apply Hf. mlia.
  - destruct H1 as (? & ? & _). specialize (Hf (baddr b1)). rewrite is_free_nil, is_free_cons in Hf.
    unfold in_block in Hf. exfalso. apply Hf. mlia.
  - destruct H1 as (A1 & B1 & D1 & E1), H2 as (A2 & B2 & D2 & E2).
    assert (forall a, is_free l1 a -> baddr b1 + bsize b1 < a) as L1
      by (intros a Ha; apply (blocks_ok_bounds _ _ _ _ E1) in Ha; lia).
    assert (forall a, is_free l2 a -> baddr b2 + bsize b2 < a) as L2
      by (intros a Ha; apply (blocks_ok_bounds _ _ _ _ E2) in Ha; lia).
    assert (forall a, in_block b1 a \/ is_free l1 a <-> in_block b2 a \/ is_free l2 a) as Hf'
      by (intros a; by rewrite <- !is_free_cons).
    unfold in_block, MIN_MEMBLOCK_SIZE in *.
    assert (~ baddr b1 < baddr b2) by (intros ?; destruct (proj1 (Hf' (baddr b1))) as [?|Hx];
      [left; lia|lia|apply L2 in Hx; lia]).
    assert (~ baddr b2 < baddr b1) by (intros ?; destruct (proj2 (Hf' (baddr b2))) as [?|Hx];
      [left; lia|lia|apply L1 in Hx; lia]).
    assert (baddr b1 = baddr b2) as Ea by lia.
    assert (~ bsize b1 < bsize b2) by (intros ?; destruct (proj2 (Hf' (baddr b1 + bsize b1))) as [?|Hx];
      [left; lia|lia|apply L1 in Hx; lia]).
    assert (~ bsize b2 < bsize b1) by (intros ?; destruct (proj1 (Hf' (baddr b2 + bsize b2))) as [?|Hx];
      [left; lia|lia|apply L2 in Hx; lia]).
    assert (bsize b1 = bsize b2) as Es by lia.
    assert (b1 = b2) as -> by (destruct b1, b2; simpl in *; congruence). f_equal.
    apply (IH (baddr b2 + bsize b2 + 1)); [done|done|]. intros a. specialize (Hf' a).
    pose proof (L1 a). pose proof (L2 a). split; intros Ha; [apply L1 in Ha as ?|apply L2 in Ha as ?]; intuition lia.
Qed.

(** ** Interface of the components that hold discardable data: a discard
    keeps the free list well formed, does nothing when it reports zero
    items, and otherwise decreases a measure of what is left. *)
Class CacheDiscarders {W : Type} (lo hi : Z)
    (discarders : list ((W * heap) -> (W * heap) * Z))
    (measure : W * heap -> nat) : Prop := {
  discard_ok d w : d ∈ discarders ->
    blocks_ok lo hi (free_blocks w.2) -> blocks_ok lo hi (free_blocks (d w).1.2);
  discard_idle d w : d ∈ discarders -> (d w).2 = 0 -> (d w).1 = w;
  discard_progress d w : d ∈ discarders -> (d w).2 <> 0 -> (measure (d w).1 < measure w)%nat }.

Section AllocatorTheorems.
Variable virt_offset : Z.
Variables lo hi : Z.
Hypothesis Hreg : region lo hi.
Context {W : Type} (discarders : list ((W * heap) -> (W * heap) * Z)) (measure : W * heap -> nat).
Context `{CD : !CacheDiscarders lo hi discarders measure}.

Lemma discard_cache_spec (w w' : W * heap) n :
  discard_cache discarders w = (w', n) ->
  (n = 0 /\ w' = w /\ forall d, d ∈ discarders -> (d w).2 = 0) \/
  (n <> 0 /\ (exists d, d ∈ discarders /\ d w = (w', n)) /\ (measure w' < measure w)%nat /\
   (blocks_ok lo hi (free_blocks w.2) -> blocks_ok lo hi (free_blocks w'.2))).
Proof.
  unfold discard_cache.
  assert (forall ds, (forall d, d ∈ ds -> d ∈ discarders) ->
    discard_cache_loop ds w = (w', n) ->
    (n = 0 /\ w' = w /\ forall d, d ∈ ds -> (d w).2 = 0) \/
    (n <> 0 /\ (exists d, d ∈ discarders /\ d w = (w', n)) /\ (measure w' < measure w)%nat /\
     (blocks_ok lo hi (free_blocks w.2) -> blocks_ok lo hi (free_blocks w'.2)))) as Hgen; [|by apply Hgen].
  induction ds as [|d ds IH]; intros Hin; simpl; [intros [= <- <-]; left; set_solver|].
  pose proof (discard_ok d w (Hin d ltac:(set_solver))) as Hok.
  pose proof (discard_idle d w (Hin d ltac:(set_solver))) as Hid.
  pose proof (discard_progress d w (Hin d ltac:(set_solver))) as Hpr.
  destruct (d w) as [w1 n1] eqn:E. simpl in *. unfold ctrue. destruct (Z.eqb_spec n1 0) as [->|Hn]; simpl.
  - rewrite Hid by done. intros H. destruct IH as [(-> & -> & Hz)|?]; [set_solver|done| |by right].
    left. split_and!; [done|done|]. intros d' [->|?]%elem_of_cons; [by rewrite E|auto].
  - intros [= <- <-]. right. split_and!; [done|exists d; split; [apply Hin; set_solver|done]|by apply Hpr|done].
Qed.

(** No free block holds [size] bytes at the given alignment. *)
Definition none_fits (size offset m : Z) (w : W * heap) : Prop :=
  Forall (fun b => bsize b < (offset - virt_to_phys virt_offset (baddr b)) mod 2 ^ m + size) (free_blocks w.2).

(** One step of discarding: memory is short and some component gives up
    some of its data. *)
Definition discard_step (size offset m : Z) (w w' : W * heap) : Prop :=
  none_fits size offset m w /\ exists d n, d ∈ discarders /\ d w = (w', n) /\ n <> 0.

Lemma land_ones_u32 x m : 4 <= m <= 30 -> Z.land (u32 x) (Z.ones m) = x mod 2 ^ m.
Proof.
  intros Hm. rewrite Z.land_ones by lia. unfold wrap. replace 32 with (m + (32 - m)) by lia. rewrite Z.pow_add_r by lia.
  by rewrite Z.rem_mul_r, Z.mul_comm, Z.mod_add, Z.mod_mod by lia.
Qed.

Lemma alloc_loop_spec fuel size offset m w :
  blocks_ok lo hi (free_blocks w.2) -> 4 <= m <= 30 ->
  MIN_MEMBLOCK_SIZE <= size -> size + 2 ^ m <= 2 ^ 31 -> (measure w < fuel)%nat ->
  exists w1 w' r, alloc_loop virt_offset discarders fuel size (Z.ones m) offset w = Some (w', r) /\
    rtc (discard_step size offset m) w w1 /\ blocks_ok lo hi (free_blocks w1.2) /\
    match r with
    | Some p => carved virt_offset lo hi size offset m (free_blocks w1.2) (free_blocks w'.2) p /\
        freemem w'.2 = u32 (freemem w1.2 - size) /\ w'.1 = w1.1
    | None => w' = w1 /\ none_fits size offset m w1 /\ forall d, d ∈ discarders -> (d w1).2 = 0
    end.
Proof.
  intros Hok Hm Hs Hov. revert w Hok. induction fuel as [|fuel IH]; intros w Hok Hf; [lia|].
  cbn [alloc_loop]. destruct (alloc_search _ _ _ _ _) as [[l p]|] eqn:E.
  - exists w, (w.1, Heap l (u32 (freemem w.2 - size))), (Some p). split; [done|]. split; [apply rtc_refl|]. split; [done|].
    split; [|done]. apply (alloc_search_spec virt_offset lo hi Hreg size offset m lo) in E as [_ ?]; [done|done|lia|done|done|done].
  - assert (none_fits size offset m w) as Hnone.
    { eapply Forall_impl; [eapply alloc_search_None; eauto; lia|]. intros b. cbn beta. by rewrite land_ones_u32. }
    destruct (discard_cache discarders w) as [w2 n] eqn:Ed.
    destruct (discard_cache_spec _ _ _ Ed) as [(-> & -> & Hz)|(Hn & (d & Hd & Edw) & Hms & Hk)]; unfold ctrue.
    + simpl. exists w, w, None. split_and!; [done|apply rtc_refl|done|done|done|done].
    + destruct (Z.eqb_spec n 0); [done|]. simpl.
      destruct (IH w2) as (w1 & w' & r & E1 & Hr & ? & ?); [auto|lia|].
      exists w1, w', r. split_and!; [done| |done|done]. apply rtc_l with w2; [|done]. split; [done|]. by exists d, n.
Qed.


End AllocatorTheorems.

Lemma free_block lo hi ptr size h :
  region lo hi -> blocks_ok lo hi (free_blocks h) -> 0 < size -> lo <= ptr ->
  ptr + round_up size <= hi -> size <= 2 ^ 31 ->
  (forall a, ptr <= a < ptr + round_up size -> ~ is_free (free_blocks h) a) ->
  exists h', free_memblock ptr size h = Some h' /\ blocks_ok lo hi (free_blocks h') /\
    (forall a, is_free (free_blocks h') a <->
       is_free (free_blocks h) a \/ ptr <= a < ptr + round_up size) /\
    total_size (free_blocks h') = total_size (free_blocks h) + round_up size /\
    freemem h' = u32 (freemem h + round_up size).
Proof.
  intros Hreg Hok Hs Hlo Hhi Hmax Hdis. unfold free_memblock. pose proof (region_lo _ _ Hreg).
  destruct (Z.eqb_spec ptr 0); [lia|].
  pose proof (round_up_bounds size ltac:(mlia)) as Hb. pose proof (round_up_multiple size ltac:(mlia)) as Hm16.
  destruct (free_loop_spec lo hi Hreg ptr (round_up size) (-1) (free_blocks h) lo)
    as (kept & f & rest & g & E & H1 & H2 & H3); try (done || lia).
  { unfold MIN_MEMBLOCK_SIZE in *. zdm. }
  rewrite E. cbn. eexists; split; [done|]. done.
Qed.

(** C9: freeing a region of the heap that is not free makes exactly that
    region free, merges it with adjacent free blocks so that the free list
    stays in its canonical form, and accounts for it in [freemem]. *)
Theorem free_memblock_spec lo hi ptr size h :
  region lo hi -> blocks_ok lo hi (free_blocks h) -> 0 < size -> lo <= ptr ->
  ptr + round_up size <= hi -> size <= 2 ^ 31 ->
  (forall a, ptr <= a < ptr + round_up size -> ~ is_free (free_blocks h) a) ->
  exists h', free_memblock ptr size h = Some h' /\ blocks_ok lo hi (free_blocks h') /\
    (forall a, is_free (free_blocks h') a <->
       is_free (free_blocks h) a \/ ptr <= a < ptr + round_up size) /\
    total_size (free_blocks h') = total_size (free_blocks h) + round_up size /\
    freemem h' = u32 (freemem h + round_up size).
Proof. apply free_block. Qed.

(** ** Aligned heaps: with an alignment offset that is a multiple of the
    minimum block size nothing is ever lost to fragments. *)
Definition aligned (virt_offset : Z) (l : list memory_block) : Prop :=
  Forall (fun b => virt_to_phys virt_offset (baddr b) mod MIN_MEMBLOCK_SIZE = 0 /\
                   bsize b mod MIN_MEMBLOCK_SIZE = 0) l.

Lemma mod_pow2_mod16 x y m : 4 <= m -> x mod 2 ^ m = y mod 2 ^ m -> x mod 16 = y mod 16.
Proof.
  intros Hm E. assert (forall z, z mod 2 ^ m mod 16 = z mod 16) as Hz.
  { intros z. replace m with (4 + (m - 4)) by lia. rewrite Z.pow_add_r by lia. change (2 ^ 4) with 16.
    rewrite Z.rem_mul_r, Z.mul_comm, Z.mod_add, Z.mod_mod by lia. done. }
  by rewrite <- Hz, E, Hz.
Qed.

Lemma phys_add_mod16 virt_offset a x :
  virt_to_phys virt_offset (a + x) mod 16 = (virt_to_phys virt_offset a + x) mod 16.
Proof. unfold virt_to_phys, wrap. zdm. Qed.

Lemma alloc_search_aligned virt_offset lo hi size offset m lo' l l' p :
  region lo hi -> blocks_ok lo' hi l -> lo <= lo' -> 4 <= m <= 30 ->
  MIN_MEMBLOCK_SIZE <= size -> size + 2 ^ m <= 2 ^ 31 ->
  size mod MIN_MEMBLOCK_SIZE = 0 -> offset mod MIN_MEMBLOCK_SIZE = 0 -> aligned virt_offset l ->
  alloc_search virt_offset size (Z.ones m) offset l = Some (l', p) ->
  aligned virt_offset l' /\ lo' <= p /\ p + size <= hi /\
  (forall a, is_free l a -> is_free l' a \/ p <= a < p + size).
Proof.
  intros Hreg Hok Hlo Hm Hsz Hov Hs16 Ho16 Hal. revert lo' l' p Hok Hlo Hal.
  induction l as [|b l IH]; intros lo' l' p Hok Hlo Hal; [done|]. cbn [alloc_search].
  destruct Hok as (Hb1 & Hb2 & Hb3 & Hl). apply Forall_cons in Hal as [[Hp16 Hz16] Hal].
  destruct (phys_aligned virt_offset (baddr b) offset m ltac:(lia)) as [Hpre Hph].
  set (pre := Z.land _ _) in *. destruct Hreg as [Hr1 Hr2 Hr3]. unfold MIN_MEMBLOCK_SIZE in *.
  apply (mod_pow2_mod16 _ _ m) in Hph; [|lia]. rewrite phys_add_mod16 in Hph.
  assert (pre mod 16 = 0) as Hpre16 by (clearbody pre; zdm).
  assert (s32 (bsize b - pre - size) = bsize b - pre - size) as ->.
  { unfold signed, wrap. change (2 ^ (32 - 1)) with (2 ^ 31). clearbody pre. zcases; zdm. }
  destruct (Z.leb_spec 0 (bsize b - pre - size)) as [Hpost|Hpost].
  - rewrite (wrap_small 32 (baddr b + pre)), (wrap_small 32 (baddr b + pre + size)) by lia.
    intros [= <- <-]. clearbody pre. split_and!; [|lia|lia|].
    + unfold aligned, MIN_MEMBLOCK_SIZE. rewrite !Forall_app. split_and!; [zcases; constructor; [|constructor]|..|done]; simpl.
      * split; [done|zdm].
      * zcases; constructor; [|constructor]. simpl.
        rewrite <- Z.add_assoc, phys_add_mod16. split; zdm.
    + intros a. rewrite !is_free_app, is_free_cons. unfold in_block. intros [Ha|Ha]; [|tauto].
      destruct (decide (a < baddr b + pre)); [left; left|destruct (decide (a < baddr b + pre + size)); [right; lia|left; right; left]].
      * destruct (Z.ltb_spec pre 16); [zdm|]. rewrite is_free_cons. left. unfold in_block. simpl. lia.
      * destruct (Z.leb_spec 16 (bsize b - pre - size)); [|zdm]. rewrite is_free_cons. left. unfold in_block. simpl. lia.
  - destruct (alloc_search _ _ _ _ l) as [[l1 p1]|] eqn:E; [|done]. cbn. intros [= <- <-].
    destruct (IH _ _ _ Hl ltac:(lia) Hal eq_refl) as (H1 & H2 & H3 & H4). split_and!; [by constructor|lia|done|].
    intros a. rewrite !is_free_cons. intros [Ha|Ha]; [tauto|]. apply H4 in Ha. tauto.
Qed.

(** What an allocation from an aligned heap does: the block is taken out
    of the free addresses, and nothing else changes. *)
Record took (virt_offset lo hi size : Z) (h h' : heap) (p : Z) : Prop := Took {
  took_ok : blocks_ok lo hi (free_blocks h');
  took_aligned : aligned virt_offset (free_blocks h');
  took_lo : lo <= p;
  took_hi : p + round_up size <= hi;
  took_free a : is_free (free_blocks h) a <-> is_free (free_blocks h') a \/ p <= a < p + round_up size;
  took_used a : p <= a < p + round_up size -> ~ is_free (free_blocks h') a;
  took_phys : virt_to_phys virt_offset p mod MIN_MEMBLOCK_SIZE = 0;
  took_freemem : freemem h' = u32 (freemem h - round_up size) }.

Lemma alloc_took virt_offset lo hi size k offset w :
  region lo hi -> blocks_ok lo hi (free_blocks w.2) -> aligned virt_offset (free_blocks w.2) ->
  0 <= k <= 30 -> 0 < size <= 2 ^ 31 -> round_up size + 2 ^ Z.max k 4 <= 2 ^ 31 ->
  offset mod MIN_MEMBLOCK_SIZE = 0 ->
  alloc_memblock virt_offset (W := unit) [] 1 size (2 ^ k) offset w = Some (w, None) \/
  exists w' p, alloc_memblock virt_offset (W := unit) [] 1 size (2 ^ k) offset w = Some (w', Some p) /\
    took virt_offset lo hi size w.2 w'.2 p.
Proof.
  intros Hreg Hok Hal Hk Hs Hov Ho. unfold alloc_memblock.
  pose proof (round_up_bounds size ltac:(mlia)) as Hb. pose proof (round_up_multiple size ltac:(mlia)) as Hm16.
  destruct (Z.eqb_spec (round_up size) 0); [lia|]. rewrite align_mask_ones by lia. cbn [alloc_loop].
  destruct (alloc_search _ _ _ _ _) as [[l q]|] eqn:E; [right|by left]. eexists _, _. split; [done|].
  assert (MIN_MEMBLOCK_SIZE <= round_up size) by (unfold MIN_MEMBLOCK_SIZE in *; zdm).
  destruct (alloc_search_spec virt_offset lo hi Hreg (round_up size) offset (Z.max k 4) lo _ _ _ Hok ltac:(lia) ltac:(lia) ltac:(done) ltac:(done) E)
    as [Hok' [_ C2 C3 C4 _]].
  destruct (alloc_search_aligned virt_offset lo hi (round_up size) offset (Z.max k 4) lo (free_blocks w.2) l q) as (? & Hq1 & Hq2 & Hno); try (done || lia).
  split; simpl; try done.
  - intros a. split; [apply Hno|]. intros [Ha|Ha]; [by apply C4 in Ha as [? _]|by apply C2].
  - intros a Ha Hf. by apply C4 in Hf as [_ ?].
  - apply (mod_pow2_mod16 _ _ (Z.max k 4)) in C3; [|lia]. unfold MIN_MEMBLOCK_SIZE in *. by rewrite C3.
Qed.

(** Free lists that agree on the free addresses are equal, so a sequence
    of frees is determined by the addresses it frees. *)
Lemma free_restores virt_offset lo hi size h h1 p :
  region lo hi -> blocks_ok lo hi (free_blocks h) -> 0 < size <= 2 ^ 31 -> 0 <= freemem h < 2 ^ 32 ->
  took virt_offset lo hi size h h1 p -> free_memblock p size h1 = Some h.
Proof.
  intros Hreg Hok Hs Hfm [].
  destruct (free_block lo hi p size h1) as (h' & -> & Hok' & Hfree & _ & Hfm'); try (done || lia).
  f_equal. destruct h as [fb fm], h' as [fb' fm']. simpl in *. f_equal.
  - apply (blocks_ok_unique lo hi); [done|done|]. intros a. rewrite Hfree. naive_solver.
  - rewrite Hfm', took_freemem0, wrap_add_l, Z.sub_add by lia. by apply wrap_small.
Qed.

(** On an aligned heap, freeing a block that was just allocated
    restores the free list and the free memory counter exactly. *)
Theorem alloc_free_roundtrip virt_offset lo hi size k offset w w' p :
  region lo hi -> blocks_ok lo hi (free_blocks w.2) -> aligned virt_offset (free_blocks w.2) ->
  0 <= k <= 30 -> 0 < size <= 2 ^ 31 -> round_up size + 2 ^ Z.max k 4 <= 2 ^ 31 ->
  offset mod MIN_MEMBLOCK_SIZE = 0 -> 0 <= freemem w.2 < 2 ^ 32 ->
  alloc_memblock virt_offset (W := unit) [] 1 size (2 ^ k) offset w = Some (w', Some p) ->
  free_memblock p size w'.2 = Some w.2.
Proof.
  intros Hreg Hok Hal Hk Hs Hov Ho Hfm E.
  destruct (alloc_took virt_offset lo hi size k offset w) as [E'|(w2 & q & E' & Ht)]; try done; [congruence|].
  rewrite E' in E. simplify_eq. by apply (free_restores virt_offset lo hi).
Qed.

(** The size test of [alloc_memblock] is made on a signed 32-bit
    difference: a request larger than the whole heap by more than 2^31 is
    granted, from a heap that is far too small for it. *)
Theorem alloc_memblock_oversize_granted :
  alloc_memblock 0 (W := unit) [] 1 (9 * 2 ^ 28) 1 0 (tt, Heap [Blk 4096 HEAP_SIZE] HEAP_SIZE) =
    Some ((tt, Heap [Blk (9 * 2 ^ 28 + 4096) (HEAP_SIZE + 7 * 2 ^ 28)] (HEAP_SIZE + 7 * 2 ^ 28)), Some 4096).
Proof. vm_compute. reflexivity. Qed.

(** ** Reallocation. *)
Lemma alloc_simple virt_offset lo hi size w :
  region lo hi -> blocks_ok lo hi (free_blocks w.2) -> 0 < size <= 2 ^ 30 ->
  alloc_memblock virt_offset (W := unit) [] 1 size 1 0 w = Some (w, None) \/
  exists w' p, alloc_memblock virt_offset (W := unit) [] 1 size 1 0 w = Some (w', Some p) /\
    carved virt_offset lo hi (round_up size) 0 4 (free_blocks w.2) (free_blocks w'.2) p.
Proof.
  intros Hreg Hok Hs. unfold alloc_memblock.
  pose proof (round_up_bounds size ltac:(mlia)) as Hb. pose proof (round_up_multiple size ltac:(mlia)) as Hm16.
  destruct (Z.eqb_spec (round_up size) 0); [lia|].
  change 1 with (2 ^ 0) at 1. rewrite align_mask_ones by lia. change (Z.max 0 4) with 4. cbn [alloc_loop].
  destruct (alloc_search _ _ _ _ _) as [[l q]|] eqn:E; [right|by left].
  eexists _, _. split; [done|]. simpl.
  apply (alloc_search_spec virt_offset lo hi Hreg _ _ _ lo) in E as [_ ?]; [done|done|lia|lia| |mlia].
  unfold MIN_MEMBLOCK_SIZE in *; zdm.
Qed.

(** An autosized block in use: its header holds its size, and the region
    it occupies is inside the heap and not free. *)
Record live (lo hi : Z) (l : list memory_block) (m : mem) (ptr : Z) : Prop := Live {
  live_lo : lo <= ptr - AUTOSIZED_DATA;
  live_size : AUTOSIZED_DATA < mem_size m (ptr - AUTOSIZED_DATA) <= 2 ^ 30;
  live_hi : ptr - AUTOSIZED_DATA + round_up (mem_size m (ptr - AUTOSIZED_DATA)) <= hi;
  live_used a : ptr - AUTOSIZED_DATA <= a < ptr - AUTOSIZED_DATA + round_up (mem_size m (ptr - AUTOSIZED_DATA)) ->
    ~ is_free l a }.

(** Resizing a live block to a non-zero size never fails to return.
    If memory cannot be found it returns NULL and nothing has changed;
    otherwise the new block holds the old contents up to the smaller of the
    two sizes, no byte in use outside the new block has changed, the old block
    is free, the new one is not, and the free list is still well formed. *)
Theorem realloc_spec virt_offset lo hi old_ptr new_size w m :
  region lo hi -> blocks_ok lo hi (free_blocks w.2) -> live lo hi (free_blocks w.2) m old_ptr ->
  0 < new_size <= 2 ^ 30 - AUTOSIZED_DATA ->
  exists w' m' p, realloc virt_offset (W := unit) [] 1 old_ptr new_size w m = Some (w', m', p) /\
    ((p = NULL /\ w' = w /\ m' = m) \/
     (p <> NULL /\ blocks_ok lo hi (free_blocks w'.2) /\
      mem_size m' (p - AUTOSIZED_DATA) = new_size + AUTOSIZED_DATA /\
      (forall i, 0 <= i < new_size ->
         i < mem_size m (old_ptr - AUTOSIZED_DATA) - AUTOSIZED_DATA ->
         mem_byte m' (p + i) = mem_byte m (old_ptr + i)) /\
      (forall a, ~ is_free (free_blocks w'.2) a -> ~ p - AUTOSIZED_DATA <= a < p + new_size ->
         mem_byte m' a = mem_byte m a) /\
      (forall a, p - AUTOSIZED_DATA <= a < p + new_size -> is_free (free_blocks w.2) a /\ ~ is_free (free_blocks w'.2) a) /\
      (forall a, old_ptr <= a < old_ptr - AUTOSIZED_DATA + mem_size m (old_ptr - AUTOSIZED_DATA) ->
         is_free (free_blocks w'.2) a))).
Proof.
  intros Hreg Hok [Hl1 Hl2 Hl3 Hl4] Hn. unfold realloc, AUTOSIZED_DATA in *.
  destruct (Z.eqb_spec new_size 0); [lia|]. rewrite (wrap_small 32 (new_size + 4)) by lia.
  destruct (alloc_simple virt_offset lo hi (new_size + 4) w Hreg Hok ltac:(lia)) as [->|(w1 & q & -> & C)].
  { cbn. exists w, m, NULL. split; [done|]. by left. }
  cbn. set (ob := old_ptr - 4) in *. pose proof (region_lo _ _ Hreg). pose proof (region_hi _ _ Hreg).
  pose proof (round_up_bounds (new_size + 4) ltac:(mlia)) as Hb.
  pose proof (round_up_bounds (mem_size m ob) ltac:(mlia)) as Hb'. pose proof (round_up_multiple (mem_size m ob) ltac:(mlia)) as Hm'.
  destruct C as [C1 C2 _ C4 _].
  assert (forall a, q <= a < q + round_up (new_size + 4) -> lo <= a < hi) as Hin
    by (intros a Ha; apply C2 in Ha; by apply (blocks_ok_bounds _ _ _ _ Hok) in Ha).
  pose proof (Hin q ltac:(lia)). pose proof (Hin (q + round_up (new_size + 4) - 1) ltac:(lia)).
  assert (q <> ob) by (intros ->; apply (Hl4 ob); [lia|]; apply C2; lia).
  unfold realloc_finish, NULL, NOWHERE. destruct (Z.eqb_spec old_ptr 0); [lia|]. 
  destruct (Z.eqb_spec old_ptr (2 ^ 32 - 1)); [unfold ob, MIN_MEMBLOCK_SIZE in *; zdm|].
  cbn [orb]. unfold AUTOSIZED_DATA. rewrite (wrap_small 32 (old_ptr - 4)), (wrap_small 32 (q + 4)) by lia. fold ob.
  cbn [set_size mem_size]. destruct (Z.eqb_spec ob q); [lia|]. rewrite (wrap_small 32 (mem_size m ob - 4)) by lia.
  destruct (free_block lo hi ob (mem_size m ob) w1.2) as (h & -> & H4 & H5 & _); try (done || lia).
  { intros a Ha Hf. apply C4 in Hf as [Hf _]. by apply (Hl4 a). }
  cbn. eexists _, _, _. split; [done|]. right. cbn [fst snd memcpy set_size mem_size mem_byte].
  replace (q + 4 - 4) with q by lia.
  splits; try done; [lia|by rewrite Z.eqb_refl| | | |].
  - intros i Hi Hi'. replace (q + 4 + i - (q + 4)) with i by lia. zcases; done || lia.
  - intros a _ Ha. zcases; done || lia.
  - intros a Ha. split; [apply C2; lia|]. rewrite H5. intros [Hf|Hf]; [apply C4 in Hf; lia|].
    apply (Hl4 a); [lia|]. apply C2. lia.
  - intros a Ha. apply H5. right. unfold ob in *. lia.
Qed.

(** ** Instances: a heap of 256 bytes at 4096 with the first 64 bytes in
    use, and a cache that can be asked to discard a number of times. *)
Definition small_heap : heap := Heap [Blk 4160 192] 192.

Definition counting_cache (w : nat * heap) : (nat * heap) * Z :=
  match w.1 with
  | O => (w, 0)
  | S n => ((n, w.2), 1)
  end.

#[export] Instance counting_cache_discards :
  CacheDiscarders 4096 8192 [counting_cache] fst.
Proof.
  split; intros d [n h] ->%list_elem_of_singleton; destruct n; simpl; try done; lia.
Qed.

Lemma small_region : region 4096 8192.
Proof. split; lia. Qed.

Lemma small_heap_ok : blocks_ok 4096 8192 (free_blocks small_heap).
Proof. vm_compute. intuition congruence. Qed.

Lemma small_heap_free a : is_free (free_blocks small_heap) a <-> 4160 <= a < 4352.
Proof. simpl. rewrite is_free_cons, is_free_nil. unfold in_block. simpl. intuition lia. Qed.


Lemma free_memblock_spec_witness :
  exists h', free_memblock 4112 40 small_heap = Some h' /\ blocks_ok 4096 8192 (free_blocks h').
Proof.
  destruct (free_memblock_spec 4096 8192 4112 40 small_heap small_region small_heap_ok)
    as (h' & ? & ? & _); [lia|lia|by vm_compute|lia| |by exists h'].
  intros a Ha. rewrite small_heap_free. change (round_up 40) with 48 in Ha. lia.
Defined.

Lemma alloc_free_roundtrip_witness : free_memblock 4224 100 (Heap [Blk 4160 64; Blk 4336 16] 80) = Some small_heap.
Proof.
  apply (alloc_free_roundtrip 0 4096 8192 100 7 0 (tt, small_heap) (tt, Heap [Blk 4160 64; Blk 4336 16] 80) 4224 small_region small_heap_ok);
    [by repeat constructor|lia|lia|by vm_compute|done|simpl; lia|by vm_compute].
Defined.

Lemma realloc_spec_witness :
  exists w' m' p, realloc 0 (W := unit) [] 1 4100 100 (tt, small_heap) (Mem (fun _ => 60) (fun a => a mod 256))
    = Some (w', m', p).
Proof.
  destruct (realloc_spec 0 4096 8192 4100 100 (tt, small_heap) (Mem (fun _ => 60) (fun a => a mod 256))
    small_region small_heap_ok) as (w' & m' & p & ? & _); [|unfold AUTOSIZED_DATA; lia|by exists w', m', p].
  split; unfold AUTOSIZED_DATA; simpl; try lia; [by vm_compute|].
  intros a Ha. change (round_up 60) with 64 in Ha. unfold snd. rewrite small_heap_free. lia.
Defined.
