(* ===== verification/Iobuf.v ===== *)
(** * I/O buffers: src/src/include/ipxe/iobuf.h, src/src/core/iobuf.c,
    src/src/net/iobpad.c, with [fls] of src/src/core/bitops.c.

    A descriptor is the four pointers of [struct io_buffer]; the list link
    belongs to the owner of the buffer and is modelled where it is used.
    Pointers are 32-bit; the data lives in the memory of [Malloc]. *)
From S2P Require Import Prelude Malloc.

Record io_buffer := IOB {
  iob_head : Z;
  iob_data : Z;
  iob_tail : Z;
  iob_end : Z }.

Definition IOB_ZLEN : Z := 64.
(** [sizeof ( struct io_buffer )] and its alignment in the i386 build:
    two link pointers and four pointers. *)
Definition SIZEOF_IOBUF : Z := 24.
Definition ALIGNOF_IOBUF : Z := 4.

(** ** Inline operations.  Those that return a pointer return it with the
    updated descriptor. *)
Definition iob_reserve (iobuf : io_buffer) (len : Z) : io_buffer * Z :=
  let iobuf := IOB (iob_head iobuf) (u32 (iob_data iobuf + len))
                   (u32 (iob_tail iobuf + len)) (iob_end iobuf) in
  (iobuf, iob_data iobuf).

Definition iob_push (iobuf : io_buffer) (len : Z) : io_buffer * Z :=
  let iobuf := IOB (iob_head iobuf) (u32 (iob_data iobuf - len))
                   (iob_tail iobuf) (iob_end iobuf) in
  (iobuf, iob_data iobuf).

Definition iob_pull (iobuf : io_buffer) (len : Z) : io_buffer * Z :=
  let iobuf := IOB (iob_head iobuf) (u32 (iob_data iobuf + len))
                   (iob_tail iobuf) (iob_end iobuf) in
  (iobuf, iob_data iobuf).

Definition iob_put (iobuf : io_buffer) (len : Z) : io_buffer * Z :=
  let old_tail := iob_tail iobuf in
  (IOB (iob_head iobuf) (iob_data iobuf) (u32 (iob_tail iobuf + len)) (iob_end iobuf), old_tail).

Definition iob_unput (iobuf : io_buffer) (len : Z) : io_buffer :=
  IOB (iob_head iobuf) (iob_data iobuf) (u32 (iob_tail iobuf - len)) (iob_end iobuf).

Definition iob_empty (iobuf : io_buffer) : io_buffer :=
  IOB (iob_head iobuf) (iob_data iobuf) (iob_data iobuf) (iob_end iobuf).

Definition iob_len (iobuf : io_buffer) : Z := u32 (iob_tail iobuf - iob_data iobuf).
Definition iob_headroom (iobuf : io_buffer) : Z := u32 (iob_data iobuf - iob_head iobuf).
Definition iob_tailroom (iobuf : io_buffer) : Z := u32 (iob_end iobuf - iob_tail iobuf).

Definition iob_populate (data len max_len : Z) : io_buffer :=
  IOB data data (u32 (data + len)) (u32 (data + max_len)).

Definition iob_ensure_headroom (iobuf : io_buffer) (len : Z) : rc :=
  if len <=? iob_headroom iobuf then RC_OK else RC_ERR ENOBUFS.

(** [memmove] reads all of its source before writing, as [memcpy] of
    [Malloc] does. *)
Definition iob_pad (iobuf : io_buffer) (min_len : Z) (m : mem) : io_buffer * mem :=
  let data := iob_data iobuf in
  let len := iob_len iobuf in
  let headroom := iob_headroom iobuf in
  let '(iobuf, _) := iob_push iobuf headroom in
  let m := memcpy m (iob_data iobuf) data len in
  let iobuf := iob_unput iobuf headroom in
  let pad_len := s32 (min_len - iob_len iobuf) in
  if 0 <? pad_len then
    let '(iobuf, tail) := iob_put iobuf pad_len in (iobuf, memset m tail 0 pad_len)
  else (iobuf, m).

(** [for ( ls = 0 ; value ; ls++ ) value >>= 1;] on 32 bits. *)
Fixpoint flsl_loop (fuel : nat) (value ls : Z) : Z :=
  match fuel with
  | O => ls
  | S fuel => if ctrue value then flsl_loop fuel (Z.shiftr value 1) (ls + 1) else ls
  end.

Definition flsl (x : Z) : Z := flsl_loop 32 (u32 x) 0.

Section Alloc.
Variable virt_offset : Z.
Context {W : Type}.
Variable discarders : list ((W * heap) -> (W * heap) * Z).
Variable fuel : nat.

Definition malloc_dma_offset (size phys_align offset : Z) (w : W * heap)
    : option (W * heap * option Z) :=
  alloc_memblock virt_offset discarders fuel size phys_align offset w.

Definition free_dma (ptr size : Z) (w : W * heap) : option (W * heap) :=
  h ← free_memblock ptr size w.2;
  Some (w.1, h).

(** The address of the descriptor and its contents, or [None] for NULL. *)
Definition alloc_iob_raw (len align offset : Z) (w : W * heap) (m : mem)
    : option (W * heap * mem * option (Z * io_buffer)) :=
  let len := Z.land (u32 (len + ALIGNOF_IOBUF - 1)) (u32 (Z.lnot (ALIGNOF_IOBUF - 1))) in
  let align := u32 (Z.shiftl 1 (flsl (align - 1))) in
  let populate data := IOB data data data (u32 (data + len)) in
  if u32 (len + SIZEOF_IOBUF) <=? align then
    '(w, data) ← malloc_dma_offset (u32 (len + SIZEOF_IOBUF)) align offset w;
    match data with
    | None => Some (w, m, None)
    | Some data => Some (w, m, Some (u32 (data + len), populate data))
    end
  else
    '(w, data) ← malloc_dma_offset len align offset w;
    match data with
    | None => Some (w, m, None)
    | Some data =>
        '(w, m, iobuf) ← malloc virt_offset discarders fuel SIZEOF_IOBUF w m;
        if ctrue iobuf then Some (w, m, Some (iobuf, populate data)) else
        w ← free_dma data len w;
        Some (w, m, None)
    end.

Definition alloc_iob (len : Z) (w : W * heap) (m : mem)
    : option (W * heap * mem * option (Z * io_buffer)) :=
  let len := if len <? IOB_ZLEN then IOB_ZLEN else len in
  alloc_iob_raw len len 0 w m.

Definition free_iob (iobuf : option (Z * io_buffer)) (w : W * heap) (m : mem)
    : option (W * heap * mem) :=
  match iobuf with
  | None => Some (w, m)
  | Some (addr, iobuf) =>
      let len := u32 (iob_end iobuf - iob_head iobuf) in
      if iob_end iobuf =? addr then
        w ← free_dma (iob_head iobuf) (u32 (len + SIZEOF_IOBUF)) w;
        Some (w, m)
      else
        w ← free_dma (iob_head iobuf) len w;
        free virt_offset discarders fuel addr w m
  end.

End Alloc.

(** ** Invariant and abstraction.  The assertions of iobuf.h and the sanity
    checks of [free_iob] are [iob_ok]; the contents are the bytes between
    the data and tail pointers. *)
Record iob_ok (iobuf : io_buffer) : Prop := IobOk {
  ok_head : 0 <= iob_head iobuf <= iob_data iobuf;
  ok_data : iob_data iobuf <= iob_tail iobuf;
  ok_tail : iob_tail iobuf <= iob_end iobuf < 2 ^ 32 }.

Definition read (m : mem) (addr len : Z) : list Z := mem_byte m <$> seqZ addr len.
Definition contents (m : mem) (iobuf : io_buffer) : list Z :=
  read m (iob_data iobuf) (iob_tail iobuf - iob_data iobuf).

Lemma read_length m a n : 0 <= n -> zlen (read m a n) = n.
Proof. intros. unfold read. rewrite length_fmap, length_seqZ. lia. Qed.

Lemma read_app m a n1 n2 : 0 <= n1 -> 0 <= n2 -> read m a (n1 + n2) = read m a n1 ++ read m (a + n1) n2.
Proof. intros. unfold read. by rewrite seqZ_app, fmap_app by lia. Qed.

Lemma read_split m a b n n1 n2 :
  0 <= n1 -> 0 <= n2 -> b = a + n1 -> n = n1 + n2 -> read m a n = read m a n1 ++ read m b n2.
Proof. intros ? ? -> ->. by apply read_app. Qed.

Lemma read_ext m m' a a' n :
  (forall i, 0 <= i < n -> mem_byte m (a + i) = mem_byte m' (a' + i)) -> read m a n = read m' a' n.
Proof.
  intros H. unfold read. apply list_eq. intros i. rewrite !list_lookup_fmap.
  destruct (decide (Z.of_nat i < n)).
  - rewrite !lookup_seqZ_lt by lia. simpl. f_equal. apply H. lia.
  - by rewrite !lookup_seqZ_ge by lia.
Qed.

Lemma read_const m a n c :
  (forall i, 0 <= i < n -> mem_byte m (a + i) = c) -> read m a n = replicate (Z.to_nat n) c.
Proof.
  intros H. apply list_eq. intros i. unfold read. rewrite list_lookup_fmap.
  destruct (decide (Z.of_nat i < n)).
  - rewrite lookup_seqZ_lt, lookup_replicate_2 by lia. simpl. f_equal. apply H. lia.
  - rewrite lookup_seqZ_ge by lia. symmetry. apply lookup_replicate_None. lia.
Qed.

Lemma read_drop m a n k : 0 <= k <= n -> drop (Z.to_nat k) (read m a n) = read m (a + k) (n - k).
Proof.
  intros. replace n with (k + (n - k)) at 1 by lia. rewrite read_app by lia.
  apply drop_app_length'. pose proof (read_length m a k). lia.
Qed.

Lemma read_take m a n k : 0 <= k <= n -> take (Z.to_nat k) (read m a n) = read m a k.
Proof.
  intros. replace n with (k + (n - k)) at 1 by lia. rewrite read_app by lia.
  apply take_app_length'. pose proof (read_length m a k). lia.
Qed.

Ltac iob_solve := repeat match goal with H : iob_ok _ |- _ => destruct H as [? ? ?] end;
  unfold iob_len, iob_headroom, iob_tailroom, iob_unput in *; simpl in *;
  repeat match goal with H : context [wrap 32 ?x] |- _ => rewrite (wrap_small 32 x) in H by lia end;
  repeat match goal with |- context [wrap 32 ?x] => rewrite (wrap_small 32 x) by lia end.

(** On a well-formed buffer, with enough data or room, each pointer
    operation keeps the buffer well formed and is the sequence operation
    on its contents: [iob_pull] drops from the front, [iob_unput] from the
    back, [iob_push] and [iob_put] extend at the front and the back with
    whatever the buffer holds there, and [iob_len] is the length. *)
Theorem iob_ops_refine m iobuf n :
  iob_ok iobuf -> 0 <= n ->
  zlen (contents m iobuf) = iob_len iobuf /\
  contents m (iob_empty iobuf) = [] /\
  (n <= iob_len iobuf ->
     iob_ok (iob_pull iobuf n).1 /\ contents m (iob_pull iobuf n).1 = drop (Z.to_nat n) (contents m iobuf) /\
     iob_ok (iob_unput iobuf n) /\
     contents m (iob_unput iobuf n) = take (Z.to_nat (iob_len iobuf - n)) (contents m iobuf)) /\
  (n <= iob_headroom iobuf ->
     iob_ok (iob_push iobuf n).1 /\
     contents m (iob_push iobuf n).1 = read m (iob_push iobuf n).2 n ++ contents m iobuf) /\
  (n <= iob_tailroom iobuf ->
     iob_ok (iob_put iobuf n).1 /\
     contents m (iob_put iobuf n).1 = contents m iobuf ++ read m (iob_put iobuf n).2 n).
Proof.
  intros Hok Hn. unfold contents. split_and!.
  - iob_solve. by rewrite read_length by lia.
  - simpl. by rewrite Z.sub_diag.
  - intros Hl. iob_solve. split_and!; [split; simpl; lia| |split; simpl; lia|].
    + rewrite read_drop by lia. f_equal; lia.
    + rewrite read_take by lia. f_equal; lia.
  - intros Hl. iob_solve. split; [split; simpl; lia|]. apply read_split; lia.
  - intros Hl. iob_solve. split; [split; simpl; lia|]. apply read_split; lia.
Qed.

(** [iob_pad] moves the data to the start of the buffer and appends
    zeroes up to the minimum length; longer packets are only moved. *)
Theorem iob_pad_spec m iobuf min_len iobuf' m' :
  iob_ok iobuf -> 0 <= min_len <= IOB_ZLEN -> min_len <= iob_end iobuf - iob_head iobuf < 2 ^ 31 ->
  iob_pad iobuf min_len m = (iobuf', m') ->
  iob_ok iobuf' /\ iob_data iobuf' = iob_head iobuf /\ iob_end iobuf' = iob_end iobuf /\
  contents m' iobuf' = contents m iobuf ++ replicate (Z.to_nat (min_len - iob_len iobuf)) 0.
Proof.
  intros Hok Hmin Hsz. unfold iob_pad, contents, IOB_ZLEN in *. cbn -[s32 memset].
  iob_solve. replace (iob_data iobuf - (iob_data iobuf - iob_head iobuf)) with (iob_head iobuf) by lia.
  set (len := iob_tail iobuf - iob_data iobuf).
  replace (iob_tail iobuf - (iob_data iobuf - iob_head iobuf) - iob_head iobuf) with len by lia.
  assert (s32 (min_len - len) = min_len - len) as ->
    by (apply s32_id; unfold len; lia).
  destruct (Z.ltb_spec 0 (min_len - len)); intros [= <- <-]; cbn [iob_head iob_data iob_tail iob_end].
  - rewrite (wrap_small 32) by lia. split_and!; try done; [split; simpl; lia|].
    rewrite (read_split _ _ (iob_head iobuf + len) _ len (min_len - len)) by lia. f_equal.
    + apply read_ext. intros i Hi. simpl. zcases; try lia. f_equal. lia.
    + apply read_const. intros i Hi. simpl. zcases; done || lia.
  - split_and!; try done; [split; simpl; lia|].
    replace (Z.to_nat (min_len - len)) with O by lia. rewrite app_nil_r.
    replace (iob_tail iobuf - (iob_data iobuf - iob_head iobuf) - iob_head iobuf) with len by lia.
    apply read_ext. intros i Hi. simpl. zcases; try lia. f_equal. lia.
Qed.

(** ** Allocation. *)
Lemma flsl_loop_spec fuel v ls :
  0 <= v < 2 ^ Z.of_nat fuel ->
  exists k, flsl_loop fuel v ls = ls + k /\ 0 <= k <= Z.of_nat fuel /\ v < 2 ^ k /\
    (v = 0 -> k = 0) /\ (0 < v -> 0 < k /\ 2 ^ (k - 1) <= v).
Proof.
  revert v ls. induction fuel as [|fuel IH]; intros v ls Hv.
  { exists 0. simpl in *. lia. }
  cbn [flsl_loop]. unfold ctrue. destruct (Z.eqb_spec v 0) as [->|Hne]; simpl negb; cbn iota.
  { exists 0. lia. }
  rewrite Nat2Z.inj_succ, Z.pow_succ_r in Hv by lia.
  rewrite Z.shiftr_div_pow2, Z.pow_1_r by lia.
  destruct (IH (v / 2) (ls + 1)) as (k & -> & Hk & Hub & H0 & Hlb); [zdm|].
  exists (k + 1). rewrite Z.pow_add_r by lia. split_and!; [lia|lia|lia|zdm|lia|].
  intros _. rewrite Z.add_simpl_r. split; [lia|]. destruct (decide (v = 1)) as [->|].
  - by rewrite H0.
  - destruct Hlb as [? Hlb]; [zdm|]. replace k with (1 + (k - 1)) by lia. rewrite Z.pow_add_r by lia. zdm.
Qed.

(** [1 << fls ( align - 1 )] rounds up to a power of two. *)
Lemma fls_round align e :
  0 < align <= 2 ^ e -> 0 <= e <= 30 ->
  exists k, u32 (Z.shiftl 1 (flsl (align - 1))) = 2 ^ k /\ 0 <= k <= e /\ align <= 2 ^ k.
Proof.
  intros Ha He. assert (2 ^ e < 2 ^ 31) by (apply Z.pow_lt_mono_r; lia).
  unfold flsl. rewrite (wrap_small 32 (align - 1)) by lia.
  destruct (flsl_loop_spec 32 (align - 1) 0) as (k & -> & Hk & Hub & H0 & Hlb); [simpl; lia|].
  assert (k <= e).
  { destruct (decide (align = 1)); [lia|]. assert (k - 1 < e); [|lia].
    apply (Z.pow_lt_mono_r_iff 2); lia. }
  exists k. rewrite Z.shiftl_mul_pow2, Z.mul_1_l by lia. split_and!; [|lia..].
  assert (2 ^ k < 2 ^ 32) by (apply Z.pow_lt_mono_r; lia). apply wrap_small. lia.
Qed.

Lemma malloc_took virt_offset lo hi size w m :
  region lo hi -> blocks_ok lo hi (free_blocks w.2) -> aligned virt_offset (free_blocks w.2) ->
  0 < size <= 2 ^ 29 ->
  malloc virt_offset (W := unit) [] 1 size w m = Some (w, m, NULL) \/
  exists w' q, malloc virt_offset (W := unit) [] 1 size w m =
      Some (w', set_size m q (size + AUTOSIZED_DATA), q + AUTOSIZED_DATA) /\
    took virt_offset lo hi (size + AUTOSIZED_DATA) w.2 w'.2 q.
Proof.
  intros Hreg Hok Hal Hs. unfold malloc, realloc, AUTOSIZED_DATA. destruct (Z.eqb_spec size 0); [lia|].
  rewrite (wrap_small 32 (size + 4)) by lia. change 1 with (2 ^ 0).
  pose proof (round_up_bounds (size + 4) ltac:(mlia)) as Hb.
  destruct (alloc_took virt_offset lo hi (size + 4) 0 0 w) as [->|(w' & q & -> & Ht)]; try (done || lia); [change (Z.max 0 4) with 4; mlia|by left|].
  right. exists w', q. split; [|done]. cbn. destruct Ht. pose proof (region_lo _ _ Hreg). pose proof (region_hi _ _ Hreg).
  by rewrite (wrap_small 32) by lia.
Qed.

(** Freeing what two allocations took, in the order of allocation. *)
Lemma free_two virt_offset lo hi s1 s2 h h1 h2 p q :
  region lo hi -> blocks_ok lo hi (free_blocks h) -> 0 <= freemem h < 2 ^ 32 ->
  0 < s1 <= 2 ^ 31 -> 0 < s2 <= 2 ^ 31 ->
  took virt_offset lo hi s1 h h1 p -> took virt_offset lo hi s2 h1 h2 q ->
  exists h3, free_memblock p s1 h2 = Some h3 /\ free_memblock q s2 h3 = Some h.
Proof.
  intros Hreg Hok Hfm Hs1 Hs2 [??? ? took_free0 took_used0 ? took_freemem0] [??? ? took_free1 took_used1 ? took_freemem1].
  destruct (free_block lo hi p s1 h2) as (h3 & -> & Hok3 & Hfree3 & _ & Hfm3); try (done || lia).
  { intros a Ha Hf. apply (took_used0 a); [done|]. apply took_free1. by left. }
  exists h3. split; [done|].
  destruct (free_block lo hi q s2 h3) as (h4 & -> & Hok4 & Hfree4 & _ & Hfm4); try (done || lia).
  { intros a Ha [Hf|Hf]%Hfree3; [by apply (took_used1 a)|].
    apply (took_used0 a); [done|]. apply took_free1. by right. }
  f_equal. destruct h as [fb fm], h4 as [fb4 fm4]. simpl in *. f_equal.
  - apply (blocks_ok_unique lo hi); [done|done|]. intros a. rewrite Hfree4, Hfree3, took_free0, took_free1. tauto.
  - rewrite Hfm4, Hfm3, took_freemem1, took_freemem0. autorewrite with wrap.
    rewrite <- Z.add_assoc, wrap_add_l by lia. transitivity (u32 fm); [f_equal; lia | by apply wrap_small].
Qed.

Lemma free_took virt_offset q size h w m :
  mem_size m q = size -> 0 < q -> q + AUTOSIZED_DATA < 2 ^ 32 - 1 -> free_memblock q size w.2 = Some h ->
  exists m', free virt_offset (W := unit) [] 1 (q + AUTOSIZED_DATA) w m = Some ((w.1, h), m').
Proof.
  intros Hm Hq Hq' Hf. unfold free, realloc, realloc_finish, AUTOSIZED_DATA, NULL, NOWHERE in *. simpl Z.eqb at 1. cbn iota.
  destruct (Z.eqb_spec (q + 4) 0), (Z.eqb_spec (q + 4) (2 ^ 32 - 1)); try lia. cbn [orb].
  rewrite (wrap_small 32 (q + 4 - 4)) by lia. replace (q + 4 - 4) with q by lia.
  rewrite Hm, Hf. cbn. by eexists.
Qed.

(** [( len + 3 ) & ~3] *)
Lemma len_align len :
  0 <= len < 2 ^ 31 ->
  let l := Z.land (u32 (len + ALIGNOF_IOBUF - 1)) (u32 (Z.lnot (ALIGNOF_IOBUF - 1))) in
  len <= l < len + 4.
Proof.
  intros Hl. unfold ALIGNOF_IOBUF. rewrite (wrap_small 32 (len + 4 - 1)) by lia.
  assert (u32 (Z.lnot (4 - 1)) = Z.ldiff (Z.ones 32) (Z.ones 2)) as -> by done. cbn zeta.
  assert (forall x, 0 <= x < 2 ^ 32 -> Z.land x (Z.ldiff (Z.ones 32) (Z.ones 2)) = x - x mod 4) as E; [|rewrite E by lia; zdm].
  intros x Hx. transitivity (Z.ldiff x (Z.ones 2)).
  - rewrite !Z.ldiff_land, Z.land_assoc, Z.land_ones, Z.mod_small by lia. done.
  - rewrite Z.ldiff_ones_r, Z.shiftl_mul_pow2, Z.shiftr_div_pow2 by lia. change (2 ^ 2) with 4. zdm.
Qed.

Lemma fresh_iob p l len :
  0 <= p -> p + l < 2 ^ 32 -> 0 <= len <= l ->
  let iobuf := IOB p p p (p + l) in
  iob_ok iobuf /\ iob_len iobuf = 0 /\ iob_headroom iobuf = 0 /\ len <= iob_tailroom iobuf.
Proof.
  intros. unfold iob_len, iob_headroom, iob_tailroom. simpl. rewrite !Z.sub_diag.
  split_and!; [split; simpl; lia|done..|]. rewrite (wrap_small 32) by lia. lia.
Qed.

(** Allocating an I/O buffer always returns.  It either returns NULL
    with the heap as it was, also when only the descriptor could not be
    allocated, or a well-formed empty buffer with room for the requested
    length whose memory was free and no longer is; and [free_iob] of that
    buffer gives back exactly that memory, whether the descriptor is inline
    or detached. *)
Theorem alloc_iob_raw_spec virt_offset lo hi len align offset w m :
  region lo hi -> blocks_ok lo hi (free_blocks w.2) -> aligned virt_offset (free_blocks w.2) ->
  0 <= freemem w.2 < 2 ^ 32 -> 0 < len <= 2 ^ 28 -> 0 < align <= 2 ^ 28 ->
  offset mod MIN_MEMBLOCK_SIZE = 0 ->
  exists w' m' r, alloc_iob_raw virt_offset (W := unit) [] 1 len align offset w m = Some (w', m', r) /\
    match r with
    | None => w' = w
    | Some (addr, iobuf) =>
        iob_ok iobuf /\ iob_len iobuf = 0 /\ iob_headroom iobuf = 0 /\ len <= iob_tailroom iobuf /\
        (forall a, iob_head iobuf <= a < iob_end iobuf ->
           is_free (free_blocks w.2) a /\ ~ is_free (free_blocks w'.2) a) /\
        exists m'', free_iob virt_offset (W := unit) [] 1 r w' m' = Some (w, m'')
    end.
Proof.
  intros Hreg Hok Hal Hfm Hlen Halign Ho. unfold alloc_iob_raw.
  destruct (fls_round align 28) as (k & -> & Hk & Hak); [lia..|].
  pose proof (len_align len ltac:(lia)) as Hl. cbn zeta in *.
  set (l := Z.land (u32 (len + _ - 1)) _) in *. clearbody l.
  pose proof (region_lo _ _ Hreg). pose proof (region_hi _ _ Hreg).
  assert (2 ^ Z.max k 4 <= 2 ^ 28) by (apply Z.pow_le_mono_r; lia).
  unfold malloc_dma_offset, SIZEOF_IOBUF. rewrite (wrap_small 32 (l + 24)) by lia.
  pose proof (round_up_bounds l ltac:(mlia)) as Hb. pose proof (round_up_bounds (l + 24) ltac:(mlia)) as Hb2.
  destruct (Z.leb_spec (l + 24) (2 ^ k)).
  - destruct (alloc_took virt_offset lo hi (l + 24) k offset w) as [->|(w' & p & -> & Ht)]; try (done || mlia).
    { eexists _, _, _. split; [done|]. done. }
    pose proof (free_restores virt_offset lo hi (l + 24) w.2 w'.2 p Hreg Hok ltac:(lia) Hfm Ht) as Hfr.
    destruct Ht as [_ _ ? ? Hfree Hused _ _].
    cbn. rewrite (wrap_small 32 (p + l)) by lia. eexists _, _, _. split; [done|]. cbn beta iota.
    destruct (fresh_iob p l len) as (? & ? & ? & ?); [lia..|]. split_and!; try done.
    + simpl. intros a Ha. split; [apply Hfree; right; lia | apply Hused; lia].
    + exists m. cbn -[SIZEOF_IOBUF]. unfold free_dma, SIZEOF_IOBUF. rewrite Z.eqb_refl.
      rewrite (wrap_small 32 (p + l - p)), (wrap_small 32) by lia. replace (p + l - p + 24) with (l + 24) by lia.
      rewrite Hfr. by destruct w as [[] ?], w' as [[] ?].
  - destruct (alloc_took virt_offset lo hi l k offset w) as [->|(w1 & p & -> & Ht1)]; try (done || mlia).
    { eexists _, _, _. split; [done|]. done. }
    cbn -[malloc]. rewrite (wrap_small 32 (p + l)) by (destruct Ht1; lia).
    destruct (malloc_took virt_offset lo hi 24 w1 m Hreg (took_ok _ _ _ _ _ _ _ Ht1) (took_aligned _ _ _ _ _ _ _ Ht1) ltac:(lia))
      as [->|(w2 & q & -> & Ht2)]; cbn -[free_iob].
    { unfold free_dma. rewrite (free_restores virt_offset lo hi l w.2 w1.2 p) by (done || lia). cbn.
      eexists _, _, _. split; [done|]. by destruct w as [[] ?], w1 as [[] ?]. }
    destruct (free_two virt_offset lo hi l 28 w.2 w1.2 w2.2 p q) as (h3 & Hf1 & Hf2); try (done || lia).
    destruct Ht1 as [_ _ ? ? Hfree Hused _ _], Ht2 as [_ _ Hq1 Hq2 Hfree2 Hused2 _ _]. change (24 + AUTOSIZED_DATA) with 28 in *.
    change (round_up 28) with 32 in *.
    assert (q < p - 31 \/ p + l <= q) as Hpq.
    { destruct (decide (p - 31 <= q < p + l)); [|lia]. exfalso.
      apply (Hused (Z.max p q)); [lia|]. apply Hfree2. right. lia. }
    unfold ctrue, AUTOSIZED_DATA. destruct (Z.eqb_spec (q + 4) 0); [lia|]. cbn [negb].
    eexists _, _, _. split; [done|]. cbn beta iota.
    destruct (fresh_iob p l len) as (? & ? & ? & ?); [lia..|]. split_and!; try done.
    + simpl. intros a Ha. split; [apply Hfree; right; lia|]. intros Hf.
      apply (Hused a); [lia|]. apply Hfree2. by left.
    + cbn -[free]. destruct (Z.eqb_spec (p + l) (q + 4)); [lia|]. unfold free_dma.
      rewrite (wrap_small 32 (p + l - p)) by lia. replace (p + l - p) with l by lia. rewrite Hf1. cbn -[free].
      destruct (free_took virt_offset q 28 w.2 (w2.1, h3) (set_size m q 28)) as [m'' Hm]; try (done || lia).
      { simpl. by rewrite Z.eqb_refl. }
      { unfold AUTOSIZED_DATA. lia. }
      unfold AUTOSIZED_DATA in Hm. rewrite Hm. exists m''. by destruct w as [[] ?], w2 as [[] ?].
Qed.

(** ** Instances. *)
Definition iob_example : io_buffer := IOB 4096 4110 4130 4196.

Lemma iob_ops_refine_witness :
  zlen (contents (Mem (fun _ => 0) (fun a => a mod 256)) iob_example) = iob_len iob_example.
Proof. apply (iob_ops_refine (Mem (fun _ => 0) (fun a => a mod 256)) iob_example 3); [split; simpl; lia|lia]. Defined.

Lemma iob_pad_spec_witness :
  let r := iob_pad iob_example 60 (Mem (fun _ => 0) (fun a => a mod 256)) in
  contents r.2 r.1 = contents (Mem (fun _ => 0) (fun a => a mod 256)) iob_example ++ replicate 40 0.
Proof.
  apply (iob_pad_spec (Mem (fun _ => 0) (fun a => a mod 256)) iob_example 60 _ _);
    [split; simpl; lia|unfold IOB_ZLEN; lia|simpl; lia|reflexivity].
Defined.

Lemma alloc_iob_raw_spec_witness :
  exists w' m' r, alloc_iob_raw 0 (W := unit) [] 1 50 50 0 (tt, small_heap) (Mem (fun _ => 0) (fun _ => 0))
    = Some (w', m', r).
Proof.
  destruct (alloc_iob_raw_spec 0 4096 8192 50 50 0 (tt, small_heap) (Mem (fun _ => 0) (fun _ => 0)))
    as (w' & m' & r & ? & _); [apply small_region|apply small_heap_ok|by repeat constructor|simpl; lia|lia|lia|done|].
  by exists w', m', r.
Defined.
