(* ===== verification/Checksum.v ===== *)
(** * The TCP/IP checksum and dispatch: src/src/net/tcpip.c.

    Little-endian build: [be16_to_cpu] swaps the two bytes of a 16-bit
    value and [le16_to_cpu] is the identity.  A checksum "in network byte
    order" is a 16-bit value that is stored in memory as it is, low byte
    first. *)
From S2P Require Import Prelude.

Definition TCPIP_EMPTY_CSUM : Z := 65535.

Definition be16_to_cpu (x : Z) : Z := u16 (Z.lor (Z.shiftl (u16 x) 8) (Z.shiftr (u16 x) 8)).
Definition le16_to_cpu (x : Z) : Z := u16 x.

(** The loop of [generic_tcpip_continue_chksum], with its counter. *)
Fixpoint chksum_loop (i cksum : Z) (data : list Z) : Z :=
  match data with
  | [] => cksum
  | b :: data =>
      let value := if ctrue (Z.land i 1) then be16_to_cpu b else le16_to_cpu b in
      let cksum := u32 (cksum + value) in
      let cksum := if 65535 <? cksum then u32 (cksum - 65535) else cksum in
      chksum_loop (i + 1) cksum data
  end.

Definition generic_tcpip_continue_chksum (partial : Z) (data : list Z) : Z :=
  let cksum := Z.land (u32 (Z.lnot partial)) 65535 in
  u16 (Z.lnot (chksum_loop 0 cksum data)).

Definition tcpip_chksum (data : list Z) : Z :=
  generic_tcpip_continue_chksum TCPIP_EMPTY_CSUM data.

(** ** Dispatch.  The linker tables of protocols are arguments; a protocol
    that is not found frees the buffer. *)
Section Dispatch.
Context {S A : Type}.
Variable free_iob : A -> S -> S.

Fixpoint tcpip_rx (TCPIP_PROTOCOLS : list (Z * (A -> S -> S * rc)))
    (iobuf : A) (tcpip_proto : Z) (s : S) : S * rc :=
  match TCPIP_PROTOCOLS with
  | [] => (free_iob iobuf s, RC_ERR EPROTONOSUPPORT)
  | (proto, rx) :: rest =>
      if proto =? tcpip_proto then rx iobuf s else tcpip_rx rest iobuf tcpip_proto s
  end.

Fixpoint tcpip_tx (TCPIP_NET_PROTOCOLS : list (Z * (A -> S -> S * rc)))
    (iobuf : A) (st_family : Z) (s : S) : S * rc :=
  match TCPIP_NET_PROTOCOLS with
  | [] => (free_iob iobuf s, RC_ERR EAFNOSUPPORT)
  | (sa_family, tx) :: rest =>
      if sa_family =? st_family then tx iobuf s else tcpip_tx rest iobuf st_family s
  end.
End Dispatch.

(** ** Specification: the one's complement sum of the 16-bit words, the
    last one padded with zero. *)
Fixpoint word_sum (data : list Z) : Z :=
  match data with
  | b0 :: b1 :: data => b0 + 256 * b1 + word_sum data
  | [b0] => b0
  | [] => 0
  end.

(** The representative of a sum modulo 65535 that end-around carry
    produces: zero only for a zero sum. *)
Definition carry (x : Z) : Z := if x =? 0 then 0 else (x - 1) mod 65535 + 1.

Lemma carry_range x : 0 <= x -> 0 <= carry x <= 65535.
Proof. intros. unfold carry. zcases; zdm. Qed.

Lemma carry_small x : 0 <= x <= 65535 -> carry x = x.
Proof. intros. unfold carry. zcases; zdm. Qed.

Lemma carry_add x y : 0 <= x -> 0 <= y -> carry (carry x + y) = carry (x + y).
Proof. intros. unfold carry. zcases; zdm. Qed.

Lemma be16_byte b : is_byte b -> be16_to_cpu b = 256 * b.
Proof.
  intros Hb. unfold be16_to_cpu, is_byte in *. rewrite !(wrap_small 16 b) by lia.
  rewrite Z.shiftr_div_pow2, Z.div_small, Z.lor_0_r, Z.shiftl_mul_pow2 by lia.
  rewrite wrap_small; lia.
Qed.

Lemma chksum_step c v :
  0 <= c <= 65535 -> 0 <= v <= 65280 ->
  (if 65535 <? u32 (c + v) then u32 (u32 (c + v) - 65535) else u32 (c + v)) = carry (c + v).
Proof.
  intros. rewrite (wrap_small 32 (c + v)) by lia. unfold carry.
  zcases; try lia; rewrite ?(wrap_small 32 (c + v - 65535)) by lia; zdm.
Qed.

Lemma land_1_even i : ctrue (Z.land i 1) = Z.odd i.
Proof.
  change 1 with (Z.ones 1). rewrite Z.land_ones by lia. change (2 ^ 1) with 2.
  rewrite Zmod_odd. by destruct (Z.odd i).
Qed.

(** Induction over a byte sequence two bytes at a time. *)
Lemma pairs_ind (P : list Z -> Prop) :
  P [] -> (forall b, P [b]) -> (forall b0 b1 l, P l -> P (b0 :: b1 :: l)) -> forall l, P l.
Proof.
  intros H0 H1 H2. assert (forall l, P l /\ forall b, P (b :: l)) as H; [|apply H].
  induction l as [|b l [IH1 IH2]]; auto.
Qed.

Lemma word_sum_nonneg data : bytes_ok data -> 0 <= word_sum data.
Proof.
  induction data as [|b|b0 b1 l IH] using pairs_ind; intros Hd; simpl; [lia| |].
  - apply Forall_inv in Hd. unfold is_byte in Hd. lia.
  - apply Forall_cons in Hd as [? [? ?]%Forall_cons]. unfold is_byte in *. specialize (IH ltac:(done)). lia.
Qed.

Lemma chksum_loop_spec data i c :
  bytes_ok data -> 0 <= c <= 65535 -> Z.odd i = false ->
  chksum_loop i c data = carry (c + word_sum data).
Proof.
  revert i c. induction data as [|b|b0 b1 l IH] using pairs_ind; intros i c Hd Hc Hi.
  - simpl. by rewrite Z.add_0_r, carry_small.
  - apply Forall_inv in Hd. unfold is_byte in Hd. cbn -[Z.ltb wrap].
    rewrite land_1_even, Hi. unfold le16_to_cpu. rewrite (wrap_small 16) by lia. by apply chksum_step; lia.
  - apply Forall_cons in Hd as [H0 [H1 Hl]%Forall_cons]. pose proof (word_sum_nonneg l Hl).
    cbn -[Z.ltb wrap Z.mul]. rewrite !land_1_even, Z.odd_add, Hi. cbn [xorb Z.odd]. rewrite be16_byte by done.
    unfold le16_to_cpu, is_byte in *. rewrite (wrap_small 16) by lia.
    rewrite (chksum_step c b0) by lia. pose proof (carry_range (c + b0) ltac:(lia)).
    rewrite (chksum_step (carry (c + b0)) (256 * b1)) by lia.
    rewrite carry_add by lia. pose proof (carry_range (c + b0 + 256 * b1) ltac:(lia)).
    rewrite IH; [|done|lia|by rewrite !Z.odd_add, Hi].
    rewrite carry_add by lia. f_equal. lia.
Qed.

Lemma lnot16 c : 0 <= c <= 65535 -> u16 (Z.lnot c) = 65535 - c.
Proof. intros. unfold Z.lnot, wrap. zdm. Qed.

Lemma partial_init p : 0 <= p <= 65535 -> Z.land (u32 (Z.lnot p)) 65535 = 65535 - p.
Proof.
  intros. change 65535 with (Z.ones 16) at 1. rewrite Z.land_ones by lia. unfold Z.lnot, wrap. zdm.
Qed.

Lemma continue_spec p data :
  bytes_ok data -> 0 <= p <= 65535 ->
  generic_tcpip_continue_chksum p data = 65535 - carry (65535 - p + word_sum data).
Proof.
  intros Hd Hp. unfold generic_tcpip_continue_chksum. pose proof (word_sum_nonneg _ Hd).
  rewrite partial_init, chksum_loop_spec by (done || lia). apply lnot16, carry_range. lia.
Qed.

Lemma word_sum_app a b :
  Z.even (zlen a) = true -> word_sum (a ++ b) = word_sum a + word_sum b.
Proof.
  induction a as [|x|b0 b1 l IH] using pairs_ind; [done|done|].
  simpl length. rewrite !Nat2Z.inj_succ, Z.even_succ_succ. intros He. cbn -[Z.mul]. rewrite IH by done. lia.
Qed.

(** The checksum is the complement of the one's complement sum of the
    data as little-endian 16-bit words, and a checksum continued over more
    data is the checksum of the whole, when the first part has even length
    as the comment of the function requires. *)
Theorem tcpip_chksum_spec a b :
  bytes_ok a -> bytes_ok b ->
  tcpip_chksum a = 65535 - carry (word_sum a) /\
  (Z.even (zlen a) = true -> generic_tcpip_continue_chksum (tcpip_chksum a) b = tcpip_chksum (a ++ b)).
Proof.
  intros Ha Hb. unfold tcpip_chksum, TCPIP_EMPTY_CSUM.
  assert (bytes_ok (a ++ b)) by by apply Forall_app_2.
  pose proof (word_sum_nonneg _ Ha). pose proof (word_sum_nonneg _ Hb). pose proof (carry_range (word_sum a) ltac:(lia)).
  rewrite (continue_spec 65535 a), Z.sub_diag, Z.add_0_l by (done || lia). split; [done|intros He].
  rewrite (continue_spec 65535 (a ++ b)), continue_spec by (done || lia).
  rewrite word_sum_app by done. f_equal. rewrite Z.sub_diag, Z.add_0_l.
  replace (65535 - (65535 - carry (word_sum a))) with (carry (word_sum a)) by lia. apply carry_add; lia.
Qed.

Lemma chksum_fill a b :
  bytes_ok a -> bytes_ok b -> Z.even (zlen a) = true ->
  let csum := tcpip_chksum (a ++ [0; 0] ++ b) in
  tcpip_chksum (a ++ [csum mod 256; csum / 256] ++ b) = 0.
Proof.
  intros Ha Hb He csum. assert (forall x y, is_byte x -> is_byte y -> bytes_ok (a ++ [x; y] ++ b)) as Hok.
  { intros. apply Forall_app_2; [done|]. simpl. by repeat (apply Forall_cons_2; [done|]). }
  pose proof (word_sum_nonneg _ Ha). pose proof (word_sum_nonneg _ Hb).
  assert (csum = 65535 - carry (word_sum a + word_sum b)) as Hc.
  { unfold csum, tcpip_chksum, TCPIP_EMPTY_CSUM. rewrite continue_spec by (apply Hok || lia; unfold is_byte; lia).
    rewrite word_sum_app by done. simpl. done. }
  pose proof (carry_range (word_sum a + word_sum b) ltac:(lia)) as Hr.
  unfold tcpip_chksum, TCPIP_EMPTY_CSUM. rewrite continue_spec by (apply Hok || lia; unfold is_byte; zdm).
  rewrite word_sum_app by done. cbn [app word_sum].
  replace (csum mod 256 + 256 * (csum / 256)) with csum by zdm. clearbody csum. subst csum.
  unfold carry in *. zcases; zdm.
Qed.

(** A packet whose checksum field, at an even offset, holds the
    checksum computed with the field zero has checksum zero: what a sender
    fills in, the receiving side's test accepts. *)
Theorem tcpip_chksum_verifies a b :
  bytes_ok a -> bytes_ok b -> Z.even (zlen a) = true ->
  let csum := tcpip_chksum (a ++ [0; 0] ++ b) in
  tcpip_chksum (a ++ [csum mod 256; csum / 256] ++ b) = 0.
Proof. apply chksum_fill. Qed.

(** ** Instances. *)
Lemma tcpip_chksum_spec_witness : tcpip_chksum [69; 0; 0; 40] = 65535 - carry (word_sum [69; 0; 0; 40]).
Proof. apply (tcpip_chksum_spec [69; 0; 0; 40] [1]); by_decide. Defined.

Lemma tcpip_chksum_verifies_witness :
  let csum := tcpip_chksum ([69; 0] ++ [0; 0] ++ [7]) in
  tcpip_chksum ([69; 0] ++ [csum mod 256; csum / 256] ++ [7]) = 0.
Proof. apply (tcpip_chksum_verifies [69; 0] [7]); [by_decide|by_decide|done]. Defined.
