(* ===== verification/Retry.v ===== *)
(** * Reference counters and retry timers: src/src/core/refcnt.c,
    src/src/include/ipxe/refcnt.h, src/src/net/retry.c,
    src/src/include/ipxe/retry.h.

    Timers and reference counters are objects of a store, found by their
    address.  The list of running timers is the abstract sequence that the
    theorems of [LinkedList] justify.  The tick rate, the current time and
    the expiry callbacks are arguments. *)
From S2P Require Import Prelude LinkedList.

(** ** Reference counters.  [freed] records the objects whose free method
    has been called, latest first. *)
Record refs := Refs { count : gmap loc Z; freed : list loc }.

Definition ref_increment (refcnt : option loc) (r : refs) : refs :=
  match refcnt with
  | None => r
  | Some p => Refs (alter (fun c => s32 (c + 1)) p (count r)) (freed r)
  end.

Definition ref_decrement (refcnt : option loc) (r : refs) : refs :=
  match refcnt with
  | None => r
  | Some p =>
      let r := Refs (alter (fun c => s32 (c - 1)) p (count r)) (freed r) in
      match count r !! p with
      | None => r
      | Some c =>
          if 0 <=? c then r else
          if c <? -1 then r else
          Refs (count r) (p :: freed r)
      end
  end.

Definition ref_get := ref_increment.
Definition ref_put := ref_decrement.

(** ** Retry timers. *)
Record retry_timer := Timer {
  running : bool;
  timeout : Z;
  min_timeout : Z;
  max_timeout : Z;
  start : Z;
  tm_count : Z;
  tm_refcnt : option loc }.

Record timer_state := Timers {
  timers : list loc;
  tmr : gmap loc retry_timer;
  objects : refs }.

Definition set_timer (t : loc) (x : retry_timer) (s : timer_state) : timer_state :=
  Timers (timers s) (<[t := x]> (tmr s)) (objects s).

Definition MIN_TIMEOUT : Z := 7.

(** [timer_init]: only the callback and the counter are set; the callback
    is found by the address of the timer. *)
Definition timer_init (t : loc) (refcnt : option loc) (s : timer_state) : option timer_state :=
  x ← tmr s !! t;
  Some (set_timer t (Timer (running x) (timeout x) (min_timeout x) (max_timeout x)
                           (start x) (tm_count x) refcnt) s).

Definition timer_running (t : loc) (s : timer_state) : option bool :=
  x ← tmr s !! t;
  Some (running x).

Section Timers.
Variable ticks_per_sec : Z.

Definition DEFAULT_MIN_TIMEOUT : Z := ticks_per_sec / 4.
Definition DEFAULT_MAX_TIMEOUT : Z := u32 (10 * ticks_per_sec).

(** The timeout fields after [start_timer]. *)
Definition clamp_min (x : Z) : Z :=
  let x := if x =? 0 then DEFAULT_MIN_TIMEOUT else x in
  if x <? MIN_TIMEOUT then MIN_TIMEOUT else x.

Definition start_timer (now : Z) (t : loc) (s : timer_state) : option timer_state :=
  x ← tmr s !! t;
  let s := if running x then s
           else Timers (t :: timers s) (tmr s) (ref_get (tm_refcnt x) (objects s)) in
  let min := clamp_min (min_timeout x) in
  let tmo := if timeout x <? min then min else timeout x in
  Some (set_timer t (Timer true tmo min (max_timeout x) now (tm_count x) (tm_refcnt x)) s).

Definition start_timer_fixed (now : Z) (t : loc) (tmo : Z) (s : timer_state) : option timer_state :=
  s ← start_timer now t s;
  x ← tmr s !! t;
  Some (set_timer t (Timer (running x) tmo (min_timeout x) (max_timeout x)
                           (start x) (tm_count x) (tm_refcnt x)) s).

Definition start_timer_nodelay (now : Z) (t : loc) (s : timer_state) : option timer_state :=
  start_timer_fixed now t 0 s.

(** Removal of a timer from the list of running timers. *)
Definition unlink (t : loc) (l : list loc) : list loc := filter (fun q => q <> t) l.

Definition smooth (tmo runtime : Z) : Z :=
  u32 (u32 (tmo - Z.shiftr tmo 3) + Z.shiftr runtime 1).

Definition stop_timer (now : Z) (t : loc) (s : timer_state) : option timer_state :=
  x ← tmr s !! t;
  if negb (running x) then Some s else
  let s := Timers (unlink t (timers s)) (tmr s) (objects s) in
  let runtime := u32 (now - start x) in
  let '(cnt, tmo) := if ctrue (tm_count x) then (u32 (tm_count x - 1), timeout x)
                     else (tm_count x, smooth (timeout x) runtime) in
  let s := set_timer t (Timer false tmo (min_timeout x) (max_timeout x) (start x) cnt (tm_refcnt x)) s in
  Some (Timers (timers s) (tmr s) (ref_put (tm_refcnt x) (objects s))).

(** [timer_expired] up to the callback: the state it sees and the failure
    indicator it is given. *)
Definition expire (t : loc) (s : timer_state) : option (timer_state * bool) :=
  x ← tmr s !! t;
  let s := Timers (unlink t (timers s)) (tmr s) (objects s) in
  let tmo := u32 (Z.shiftl (timeout x) 1) in
  let max := if max_timeout x =? 0 then DEFAULT_MAX_TIMEOUT else max_timeout x in
  let fail := max <? tmo in
  let tmo := if fail then max else tmo in
  Some (set_timer t (Timer false tmo (min_timeout x) max (start x) (u32 (tm_count x + 1)) (tm_refcnt x)) s, fail).

Variable expired : loc -> bool -> timer_state -> timer_state.

Definition timer_expired (t : loc) (s : timer_state) : option timer_state :=
  x ← tmr s !! t;
  let refcnt := tm_refcnt x in
  '(s, fail) ← expire t s;
  let s := expired t fail s in
  Some (Timers (timers s) (tmr s) (ref_put refcnt (objects s))).

Fixpoint poll_loop (now : Z) (l : list loc) (s : timer_state) : option timer_state :=
  match l with
  | [] => Some s
  | t :: l =>
      x ← tmr s !! t;
      let used := u32 (now - start x) in
      if timeout x <=? used then timer_expired t s else poll_loop now l s
  end.

Definition retry_poll (now : Z) (s : timer_state) : option timer_state :=
  poll_loop now (timers s) s.

Definition retry_step := retry_poll.
End Timers.

(** ** Invariant: the list holds each running timer exactly once, and each
    running timer accounts for one reference to its object. *)
Definition holds (s : timer_state) (r t : loc) : Prop := (tm_refcnt <$> tmr s !! t) = Some (Some r).
#[export] Instance holds_dec s r t : Decision (holds s r t).
Proof. unfold holds. apply _. Defined.

Definition held (s : timer_state) (r : loc) : Z := zlen (filter (holds s r) (timers s)).
Definition ref_count (s : timer_state) (r : loc) : Z := default 0 (count (objects s) !! r).

Record timers_ok (s : timer_state) : Prop := TimersOk {
  tok_nodup : NoDup (timers s);
  tok_running t : t ∈ timers s <-> exists x, tmr s !! t = Some x /\ running x = true;
  tok_held r : held s r <= ref_count s r;
  tok_count r t : holds s r t -> exists c, count (objects s) !! r = Some c /\ c < 2 ^ 31 }.

(** The references to an object that do not come from running timers. *)
Definition spare (s : timer_state) (r : loc) : Z := ref_count s r - held s r.

Lemma holds_set s t x y r q :
  tmr s !! t = Some x -> tm_refcnt y = tm_refcnt x ->
  (tm_refcnt <$> <[t := y]> (tmr s) !! q = Some (Some r)) <-> holds s r q.
Proof.
  intros Hx Hy. unfold holds. destruct (decide (q = t)) as [->|].
  - rewrite lookup_insert_eq, Hx. simpl. by rewrite Hy.
  - by rewrite lookup_insert_ne.
Qed.

Lemma unlink_nodup t l : NoDup l -> NoDup (unlink t l).
Proof. apply NoDup_filter. Qed.

Lemma unlink_absent t l : t ∉ l -> unlink t l = l.
Proof.
  unfold unlink. induction l as [|q l IH]; [done|]. intros [? ?]%not_elem_of_cons.
  rewrite filter_cons_True by congruence. by rewrite IH.
Qed.

Lemma unlink_length (P : loc -> Prop) `{!forall t, Decision (P t)} t l :
  NoDup l -> t ∈ l ->
  zlen (filter P (unlink t l)) = zlen (filter P l) - (if decide (P t) then 1 else 0).
Proof.
  induction l as [|q l IH]; [by intros _ ?%not_elem_of_nil|].
  intros [Hq Hl]%NoDup_cons Ht. unfold unlink in *. rewrite !filter_cons.
  destruct (decide (q = t)) as [->|Hne].
  - rewrite decide_False by congruence. replace (filter (fun q => q <> t) l) with l.
    + case_decide; simpl; lia.
    + symmetry. by apply unlink_absent.
  - rewrite decide_True by congruence. apply elem_of_cons in Ht as [->|Ht]; [done|].
    specialize (IH Hl Ht). rewrite filter_cons. destruct (decide (P q)); simpl; lia.
Qed.

Lemma held_set s t x y r l o :
  tmr s !! t = Some x -> tm_refcnt y = tm_refcnt x ->
  held (Timers l (<[t := y]> (tmr s)) o) r = zlen (filter (holds s r) l).
Proof.
  intros Hx Hy. unfold held. simpl. do 2 f_equal. apply list_filter_iff.
  intros q. unfold holds at 1. simpl. by apply (holds_set s t x).
Qed.

Lemma holds_at s r t x : tmr s !! t = Some x -> holds s r t <-> tm_refcnt x = Some r.
Proof. intros Hx. unfold holds. rewrite Hx. simpl. split; [by intros [=]|by intros ->]. Qed.

Lemma held_le s r t : t ∈ timers s -> holds s r t -> 1 <= held s r.
Proof.
  intros Ht Hh. unfold held. assert (t ∈ filter (holds s r) (timers s)) as H by by apply list_elem_of_filter.
  destruct (filter _ _); [by apply not_elem_of_nil in H|simpl; lia].
Qed.

(** Counting a reference up, and down while others remain. *)
Lemma ref_get_count r o p :
  (forall q, r = Some q -> exists c, count o !! q = Some c /\ 0 <= c < 2 ^ 31 - 1) ->
  freed (ref_get r o) = freed o /\
  default 0 (count (ref_get r o) !! p) = default 0 (count o !! p) + (if decide (r = Some p) then 1 else 0) /\
  (forall c, count o !! p = Some c -> c < 2 ^ 31 -> exists c', count (ref_get r o) !! p = Some c' /\ c' < 2 ^ 31).
Proof.
  intros H. destruct r as [q|]; simpl; [|split_and!; [done|lia|by eauto]].
  destruct (H q eq_refl) as (c & Hc & Hr). split_and!; [done| |].
  - case_decide; simplify_eq.
    + rewrite lookup_alter_eq, Hc. simpl. apply s32_id. lia.
    + rewrite lookup_alter_ne by congruence. lia.
  - intros c' Hc' Hl. destruct (decide (p = q)) as [->|]; [|rewrite lookup_alter_ne by congruence; by eauto].
    rewrite lookup_alter_eq, Hc. eexists. split; [done|]. rewrite s32_id by lia. lia.
Qed.

Lemma ref_put_count r o p :
  (forall q, r = Some q -> exists c, count o !! q = Some c /\ 1 <= c < 2 ^ 31) ->
  freed (ref_put r o) = freed o /\
  count (ref_put r o) !! p = (fun c => c - (if decide (r = Some p) then 1 else 0)) <$> count o !! p.
Proof.
  intros H. destruct r as [q|]; simpl.
  - destruct (H q eq_refl) as (c & Hc & Hr). rewrite lookup_alter_eq, Hc. simpl. rewrite s32_id by lia.
    destruct (Z.leb_spec 0 (c - 1)); [|lia]. split; [done|]. simpl. case_decide; simplify_eq.
    + rewrite lookup_alter_eq, Hc. simpl. by rewrite s32_id by lia.
    + rewrite lookup_alter_ne by congruence. destruct (count o !! p); simpl; [f_equal; lia|done].
  - split; [done|]. destruct (count o !! p); simpl; [f_equal; lia|done].
Qed.

Lemma timers_ok_update s t x y l o :
  timers_ok s -> tmr s !! t = Some x -> tm_refcnt y = tm_refcnt x -> NoDup l ->
  (forall q, q ∈ l <-> if decide (q = t) then running y = true else q ∈ timers s) ->
  (forall r, default 0 (count o !! r) - zlen (filter (holds s r) l) = spare s r) ->
  (forall r c, count (objects s) !! r = Some c -> c < 2 ^ 31 -> exists c', count o !! r = Some c' /\ c' < 2 ^ 31) ->
  timers_ok (Timers l (<[t := y]> (tmr s)) o) /\
  forall r, spare (Timers l (<[t := y]> (tmr s)) o) r = spare s r.
Proof.
  intros [_ Hrun Hheld Hcnt] Hx Hy Hnd Hl Hsp Hc.
  assert (forall r, spare (Timers l (<[t := y]> (tmr s)) o) r = spare s r) as Hsp'.
  { intros r. rewrite <- Hsp. unfold spare. by rewrite (held_set s t x). }
  split; [split; [done|..]|done].
  - intros q. rewrite Hl. simpl. case_decide as Hq.
    + subst. rewrite lookup_insert_eq. naive_solver.
    + rewrite lookup_insert_ne by congruence. apply Hrun.
  - intros r. specialize (Hsp' r). specialize (Hheld r). unfold spare in Hsp'. lia.
  - intros r q. unfold holds. simpl. rewrite (holds_set s t x) by done.
    intros Hq. destruct (Hcnt r q Hq) as (c & ? & ?). by apply (Hc r c).
Qed.

Lemma start_timer_run tps now t x s :
  timers_ok s -> tmr s !! t = Some x ->
  (forall r, tm_refcnt x = Some r -> exists c, count (objects s) !! r = Some c /\ 0 <= c < 2 ^ 31 - 1) ->
  exists s', start_timer tps now t s = Some s' /\ timers_ok s' /\ t ∈ timers s' /\
    freed (objects s') = freed (objects s) /\ (forall r, spare s' r = spare s r).
Proof.
  intros Hok Hx Href. unfold start_timer. rewrite Hx. cbn [mbind option_bind].
  eexists. split; [done|]. set (y := Timer true _ _ _ _ _ _). pose proof (tok_running s Hok) as Hrun.
  destruct (running x) eqn:Er.
  - assert (t ∈ timers s) as Ht by (apply Hrun; eauto).
    destruct (timers_ok_update s t x y (timers s) (objects s)) as [H1 H2]; try done; [by apply Hok| |by eauto].
    intros q. case_decide; naive_solver.
  - assert (t ∉ timers s) as Hni by (intros (z & ? & ?)%Hrun; simplify_eq; congruence).
    destruct (timers_ok_update s t x y (t :: timers s) (ref_get (tm_refcnt x) (objects s))) as [H1 H2]; try done.
    + constructor; [done|apply Hok].
    + intros q. rewrite elem_of_cons. case_decide; naive_solver.
    + intros r. destruct (ref_get_count (tm_refcnt x) (objects s) r Href) as (_ & -> & _).
      unfold spare, held, ref_count. rewrite filter_cons.
      destruct (decide (holds s r t)) as [Hh|Hh]; rewrite (holds_at s r t x Hx) in Hh;
        case_decide; try done; simpl; lia.
    + intros r. apply (ref_get_count (tm_refcnt x) (objects s) r Href).
    + split_and!; try done; [set_solver|]. apply (ref_get_count _ _ t Href).
Qed.

(** Starting a timer always succeeds, links it once, keeps the
    invariant, takes exactly one reference for a timer that was stopped and
    none for one that was running, and never frees an object. *)
Theorem start_timer_ok tps now t x s :
  timers_ok s -> tmr s !! t = Some x ->
  (forall r, tm_refcnt x = Some r -> exists c, count (objects s) !! r = Some c /\ 0 <= c < 2 ^ 31 - 1) ->
  exists s', start_timer tps now t s = Some s' /\ timers_ok s' /\ t ∈ timers s' /\
    freed (objects s') = freed (objects s) /\ (forall r, spare s' r = spare s r).
Proof. apply start_timer_run. Qed.

(** Taking a timer off the list, its reference kept. *)
Lemma unlink_elem t l q : q ∈ unlink t l <-> q <> t /\ q ∈ l.
Proof. unfold unlink. by rewrite list_elem_of_filter. Qed.

Lemma running_count s t x r :
  timers_ok s -> tmr s !! t = Some x -> running x = true -> tm_refcnt x = Some r ->
  exists c, count (objects s) !! r = Some c /\ 1 <= c < 2 ^ 31.
Proof.
  intros [_ Hrun Hheld Hcnt] Hx Hr Href. assert (holds s r t) as Hh by (unfold holds; rewrite Hx; simpl; by rewrite Href).
  destruct (Hcnt r t Hh) as (c & Hc & Hlt). exists c. split; [done|].
  assert (t ∈ timers s) as Ht by (apply Hrun; eauto). pose proof (held_le s r t Ht Hh). specialize (Hheld r). unfold ref_count in Hheld. rewrite Hc in Hheld. simpl in Hheld.
  lia.
Qed.

Lemma stopped_ok s t x y :
  timers_ok s -> tmr s !! t = Some x -> running x = true ->
  tm_refcnt y = tm_refcnt x -> running y = false ->
  let s' := Timers (unlink t (timers s)) (<[t := y]> (tmr s)) (ref_put (tm_refcnt x) (objects s)) in
  timers_ok s' /\ t ∉ timers s' /\ freed (objects s') = freed (objects s) /\ (forall r, spare s' r = spare s r).
Proof.
  intros Hok Hx Er Hy Hyr. pose proof (fun r => running_count s t x r Hok Hx Er) as Hc.
  assert (t ∈ timers s) as Ht by (apply (tok_running s Hok); eauto).
  destruct (timers_ok_update s t x y (unlink t (timers s)) (ref_put (tm_refcnt x) (objects s))) as [H1 H2];
    try done; [apply unlink_nodup, Hok|..].
  - intros q. rewrite unlink_elem, Hyr. case_decide; naive_solver.
  - intros r. destruct (ref_put_count (tm_refcnt x) (objects s) r Hc) as [_ ->].
    rewrite unlink_length by (done || apply Hok). unfold spare, held, ref_count.
    destruct (decide (holds s r t)) as [Hh|Hh]; rewrite (holds_at s r t x Hx) in Hh;
      case_decide; try done; [destruct (Hc r Hh) as (c & -> & ?); simpl; lia|].
    destruct (count (objects s) !! r); simpl; lia.
  - intros r c Hrc Hlt. destruct (ref_put_count (tm_refcnt x) (objects s) r Hc) as [_ ->].
    rewrite Hrc. simpl. eexists. split; [done|]. case_decide; lia.
  - split_and!; try done; [by intros [? _]%unlink_elem|]. by apply ref_put_count.
Qed.

Lemma stop_timer_run now t x s :
  timers_ok s -> tmr s !! t = Some x ->
  exists s', stop_timer now t s = Some s' /\ timers_ok s' /\ t ∉ timers s' /\
    freed (objects s') = freed (objects s) /\ (forall r, spare s' r = spare s r) /\
    (running x = false -> s' = s).
Proof.
  intros Hok Hx. unfold stop_timer. rewrite Hx. cbn [mbind option_bind]. pose proof (tok_running s Hok) as Hrun.
  destruct (running x) eqn:Er; cbn [negb].
  - destruct (ctrue (tm_count x)); (eexists; split; [done|]); simpl;
    (match goal with |- timers_ok (Timers _ (<[t := ?y]> _) _) /\ _ =>
      destruct (stopped_ok s t x y Hok Hx Er) as (? & ? & ? & ?) end; [done..|by split_and!]).
  - exists s. split_and!; try done. intros (z & ? & ?)%Hrun. simplify_eq. congruence.
Qed.

(** Stopping a timer always succeeds: a stopped timer is left alone; a
    running one is unlinked and gives back the one reference it held, and
    since the invariant guarantees that reference nothing is freed. *)
Theorem stop_timer_ok now t x s :
  timers_ok s -> tmr s !! t = Some x ->
  exists s', stop_timer now t s = Some s' /\ timers_ok s' /\ t ∉ timers s' /\
    freed (objects s') = freed (objects s) /\ (forall r, spare s' r = spare s r) /\
    (running x = false -> s' = s).
Proof. apply stop_timer_run. Qed.

Lemma smooth_spec t r :
  0 <= t < 2 ^ 31 -> 0 <= r < 2 ^ 32 ->
  smooth t r = t - t / 8 + r / 2 /\ (MIN_TIMEOUT <= t -> MIN_TIMEOUT <= smooth t r).
Proof.
  intros Ht Hr. unfold smooth, MIN_TIMEOUT. rewrite !Z.shiftr_div_pow2 by lia. change (2 ^ 3) with 8. change (2 ^ 1) with 2.
  rewrite (wrap_small 32 (t - t / 8)), wrap_small by zdm. split; [done|zdm].
Qed.

(** The timeouts a timer goes through.  Starting gives at least the
    minimum, which is never below seven ticks.  Stopping a timer that has
    not been retried smooths the timeout to seven eighths plus half the
    runtime, and never below seven ticks again.  Expiry doubles the timeout
    up to the maximum and reports failure exactly when the maximum is
    exceeded. *)
Theorem timer_timeouts tps now t x s :
  tmr s !! t = Some x -> 0 <= timeout x < 2 ^ 31 -> running x = true ->
  (exists s' y, start_timer tps now t s = Some s' /\ tmr s' !! t = Some y /\
     MIN_TIMEOUT <= min_timeout y <= timeout y /\ (timeout y = timeout x \/ timeout y = min_timeout y) /\
     start y = now /\ running y = true) /\
  (exists s' y, stop_timer now t s = Some s' /\ tmr s' !! t = Some y /\ running y = false /\
     (tm_count x = 0 -> timeout y = timeout x - timeout x / 8 + u32 (now - start x) / 2 /\
        (MIN_TIMEOUT <= timeout x -> MIN_TIMEOUT <= timeout y)) /\
     (tm_count x <> 0 -> timeout y = timeout x)) /\
  (exists s' y fail, expire tps t s = Some (s', fail) /\ tmr s' !! t = Some y /\ running y = false /\
     timeout y = Z.min (2 * timeout x) (max_timeout y) /\ (fail = true <-> max_timeout y < 2 * timeout x)).
Proof.
  intros Hx Ht Hr. unfold start_timer, stop_timer, expire. rewrite Hx. cbn [mbind option_bind]. rewrite Hr. cbn [negb].
  split_and!.
  - eexists _, _. split; [done|]. simpl. split; [apply lookup_insert_eq|]. cbn [min_timeout timeout start running].
    unfold clamp_min, MIN_TIMEOUT. zcases.
  - pose proof (wrap_range 32 (now - start x) ltac:(lia)) as Hw.
    pose proof (smooth_spec (timeout x) _ Ht Hw) as Hs.
    unfold ctrue. destruct (Z.eqb_spec (tm_count x) 0); simpl;
      (eexists _, _; split; [done|]); simpl; (split; [apply lookup_insert_eq|]); simpl; split_and!; done.
  - eexists _, _, _. split; [done|]. simpl. split; [apply lookup_insert_eq|].
    cbn [timeout running max_timeout]. rewrite Z.shiftl_mul_pow2, Z.pow_1_r, (wrap_small 32) by lia.
    set (mx := if _ =? 0 then _ else _). split; [done|].
    destruct (Z.ltb_spec mx (timeout x * 2)); (split; [lia|]); split; (done || lia).
Qed.

(** A timer is due when it has run for at least its timeout. *)
Definition due (now : Z) (s : timer_state) (t : loc) : bool :=
  match tmr s !! t with
  | Some x => timeout x <=? u32 (now - start x)
  | None => false
  end.

(** Polling handles the first timer of the list that is due and only
    that one; with no timer due nothing changes. *)
Theorem retry_poll_first tps expired now s :
  timers_ok s ->
  retry_poll tps expired now s =
    match List.find (due now s) (timers s) with
    | Some t => timer_expired tps expired t s
    | None => Some s
    end.
Proof.
  intros Hok. unfold retry_poll.
  assert (forall t, t ∈ timers s -> is_Some (tmr s !! t)) as Hin
    by (intros t (x & ? & _)%(tok_running s Hok); eauto).
  induction (timers s) as [|t l IH]; [done|]. simpl. unfold due at 1.
  destruct (Hin t) as [x Hx]; [set_solver|]. rewrite Hx. cbn [mbind option_bind].
  destruct (timeout x <=? u32 (now - start x)); [done|]. apply IH. set_solver.
Qed.

(** ** Instances: one running timer at 2 and a stopped one at 3, both of
    the object at 1. *)
Definition two_timers : timer_state :=
  Timers [2%positive]
    (<[2%positive := Timer true 40 18 0 100 0 (Some 1%positive)]>
      {[3%positive := Timer false 0 0 0 0 0 (Some 1%positive)]})
    (Refs {[1%positive := 1]} []).

Lemma two_timers_lookup t x :
  tmr two_timers !! t = Some x ->
  (t = 2%positive /\ x = Timer true 40 18 0 100 0 (Some 1%positive)) \/
  (t = 3%positive /\ x = Timer false 0 0 0 0 0 (Some 1%positive)).
Proof.
  simpl. rewrite lookup_insert_Some, lookup_singleton_Some. naive_solver.
Qed.

Lemma two_timers_ok : timers_ok two_timers.
Proof.
  split.
  - by_decide.
  - intros t. split.
    + intros ->%list_elem_of_singleton. by eexists.
    + intros (x & [[-> ->]|[-> ->]]%two_timers_lookup & ?); [set_solver|done].
  - intros r. unfold held, ref_count. simpl timers. rewrite filter_cons, filter_nil.
    destruct (decide (holds two_timers r 2)) as [[= <-]|]; [done|]. simpl. 
    destruct (decide (r = 1%positive)) as [->|]; [done|]. by rewrite lookup_singleton_ne.
  - intros r t. unfold holds. destruct (tmr two_timers !! t) as [x|] eqn:E; [|done].
    apply two_timers_lookup in E as [[-> ->]|[-> ->]]; intros [= <-]; by exists 1.
Qed.

Lemma start_timer_ok_witness :
  exists s', start_timer 18 200 3 two_timers = Some s' /\ timers_ok s' /\ 3%positive ∈ timers s'.
Proof.
  destruct (start_timer_ok 18 200 3 (Timer false 0 0 0 0 0 (Some 1%positive)) two_timers two_timers_ok eq_refl)
    as (s' & ? & ? & ? & _); [|by exists s'].
  intros r [= <-]. exists 1. split; [done|lia].
Defined.

Lemma stop_timer_ok_witness :
  exists s', stop_timer 120 2 two_timers = Some s' /\ timers_ok s' /\ 2%positive ∉ timers s'.
Proof.
  destruct (stop_timer_ok 120 2 (Timer true 40 18 0 100 0 (Some 1%positive)) two_timers two_timers_ok eq_refl)
    as (s' & ? & ? & ? & _). by exists s'.
Defined.

Lemma timer_timeouts_witness :
  exists s' y fail, expire 18 2 two_timers = Some (s', fail) /\ tmr s' !! 2%positive = Some y /\ running y = false /\
     timeout y = Z.min 80 (max_timeout y) /\ (fail = true <-> max_timeout y < 80).
Proof.
  apply (timer_timeouts 18 120 2 (Timer true 40 18 0 100 0 (Some 1%positive)) two_timers eq_refl); [simpl; lia|done].
Defined.

Lemma retry_poll_first_witness :
  retry_poll 18 (fun _ _ s => s) 139 two_timers = Some two_timers.
Proof. rewrite (retry_poll_first 18 (fun _ _ s => s) 139 two_timers two_timers_ok). reflexivity. Defined.
