(* ===== verification/Tcp.v ===== *)
(** * TCP: src/src/net/tcp.c and src/src/include/ipxe/tcp.h, with the
    pending operations of src/src/core/pending.c.

    Connections are objects of a store, found by their address; the global
    list of connections and the queues are the abstract sequences that the
    theorems of [LinkedList] justify, and I/O buffers on queues are their
    contents (the theorems of [Iobuf]).  The timers of a connection are
    timers of [Retry] and its reference counter is one of [Retry]'s.

    The handlers run in a state and failure monad over [tcp_world]; [None]
    is a dereference of a null or stale pointer, a read outside a buffer,
    or a loop that does not end.  Everything outside tcp.c is in the record
    [tcp_env]: the application behind the data transfer interface, which
    may change the world and call back into TCP, and the network layer.
    The values random() will return and the outcomes of future memory
    allocations are part of the world. *)
From S2P Require Import Prelude LinkedList Malloc Checksum Retry.

(** ** tcp.h: options, flags, states. *)
Definition TCP_OPTION_END : Z := 0.
Definition TCP_OPTION_NOP : Z := 1.
Definition TCP_OPTION_MSS : Z := 2.
Definition TCP_OPTION_WS : Z := 3.
Definition TCP_RX_WINDOW_SCALE : Z := 9.
Definition TCP_OPTION_TS : Z := 8.

Definition TCP_CWR : Z := 128.
Definition TCP_ECE : Z := 64.
Definition TCP_URG : Z := 32.
Definition TCP_ACK : Z := 16.
Definition TCP_PSH : Z := 8.
Definition TCP_RST : Z := 4.
Definition TCP_SYN : Z := 2.
Definition TCP_FIN : Z := 1.

Definition TCP_STATE_SENT (flags : Z) : Z := Z.shiftl flags 0.
Definition TCP_FLAGS_SENT (state : Z) : Z := Z.land (Z.shiftr state 0) 255.
Definition TCP_STATE_ACKED (flags : Z) : Z := Z.shiftl flags 8.
Definition TCP_FLAGS_ACKED (state : Z) : Z := Z.land (Z.shiftr state 8) 255.
Definition TCP_STATE_RCVD (flags : Z) : Z := Z.shiftl flags 16.
Definition TCP_FLAGS_RCVD (state : Z) : Z := Z.land (Z.shiftr state 16) 255.
Definition TCP_FLAGS_SENDING (state : Z) : Z :=
  Z.land (TCP_FLAGS_SENT state) (Z.lnot (TCP_FLAGS_ACKED state)).

Definition TCP_CLOSED : Z := TCP_RST.
Definition TCP_LISTEN : Z := 0.
Definition TCP_SYN_SENT : Z := TCP_STATE_SENT TCP_SYN.
Definition TCP_SYN_RCVD : Z :=
  Z.lor (TCP_STATE_SENT (Z.lor TCP_SYN TCP_ACK)) (TCP_STATE_RCVD TCP_SYN).
Definition TCP_ESTABLISHED : Z :=
  Z.lor (Z.lor (TCP_STATE_SENT (Z.lor TCP_SYN TCP_ACK)) (TCP_STATE_ACKED TCP_SYN))
    (TCP_STATE_RCVD TCP_SYN).
Definition TCP_FIN_WAIT_1 : Z :=
  Z.lor (Z.lor (TCP_STATE_SENT (Z.lor (Z.lor TCP_SYN TCP_ACK) TCP_FIN)) (TCP_STATE_ACKED TCP_SYN))
    (TCP_STATE_RCVD TCP_SYN).
Definition TCP_FIN_WAIT_2 : Z :=
  Z.lor (Z.lor (TCP_STATE_SENT (Z.lor (Z.lor TCP_SYN TCP_ACK) TCP_FIN))
    (TCP_STATE_ACKED (Z.lor TCP_SYN TCP_FIN))) (TCP_STATE_RCVD TCP_SYN).
Definition TCP_CLOSING_OR_LAST_ACK : Z :=
  Z.lor (Z.lor (TCP_STATE_SENT (Z.lor (Z.lor TCP_SYN TCP_ACK) TCP_FIN)) (TCP_STATE_ACKED TCP_SYN))
    (TCP_STATE_RCVD (Z.lor TCP_SYN TCP_FIN)).
Definition TCP_TIME_WAIT : Z :=
  Z.lor (Z.lor (TCP_STATE_SENT (Z.lor (Z.lor TCP_SYN TCP_ACK) TCP_FIN))
    (TCP_STATE_ACKED (Z.lor TCP_SYN TCP_FIN))) (TCP_STATE_RCVD (Z.lor TCP_SYN TCP_FIN)).
Definition TCP_CLOSE_WAIT : Z :=
  Z.lor (Z.lor (TCP_STATE_SENT (Z.lor TCP_SYN TCP_ACK)) (TCP_STATE_ACKED TCP_SYN))
    (TCP_STATE_RCVD (Z.lor TCP_SYN TCP_FIN)).

Definition TCP_CAN_SEND_DATA (state : Z) : bool :=
  Z.land state (Z.lor (TCP_STATE_ACKED TCP_SYN) (TCP_STATE_SENT TCP_FIN)) =? TCP_STATE_ACKED TCP_SYN.
Definition TCP_HAS_BEEN_ESTABLISHED (state : Z) : bool :=
  Z.land state (Z.lor (TCP_STATE_ACKED TCP_SYN) (TCP_STATE_RCVD TCP_SYN)) =?
    Z.lor (TCP_STATE_ACKED TCP_SYN) (TCP_STATE_RCVD TCP_SYN).
Definition TCP_CLOSED_GRACEFULLY (state : Z) : bool :=
  Z.land state (Z.lor (TCP_STATE_ACKED TCP_FIN) (TCP_STATE_RCVD TCP_FIN)) =?
    Z.lor (TCP_STATE_ACKED TCP_FIN) (TCP_STATE_RCVD TCP_FIN).

Definition TCP_MASK_HLEN : Z := 240.
Definition TCP_MAX_WINDOW_SIZE : Z := 256 * 1024.
Definition TCP_PATH_MTU : Z := 1460.
Definition TCP_MSS : Z := 1460.
Definition TCP_MSL (ticks_per_sec : Z) : Z := 2 * 60 * ticks_per_sec.
Definition LISTEN_PORT : Z := 45501.
(** [sizeof ( struct tcp_header )] *)
Definition TCP_HLEN : Z := 20.

Definition tcp_cmp (seq1 seq2 : Z) : Z := s32 (seq1 - seq2).
Definition tcp_in_window (seq start len : Z) : bool := u32 (seq - start) <? len.

(** The flags of [tcp->flags]. *)
Definition TCP_XFER_CLOSED : Z := 1.
Definition TCP_TS_ENABLED : Z := 2.
Definition TCP_ACK_PENDING : Z := 4.

Inductive state_name :=
| CLOSED | LISTEN | SYN_SENT | SYN_RCVD | ESTABLISHED | FIN_WAIT_1 | FIN_WAIT_2
| CLOSING_OR_LAST_ACK | TIME_WAIT | CLOSE_WAIT | INVALID.

#[export] Instance state_name_eq_dec : EqDecision state_name.
Proof. solve_decision. Defined.

(** [tcp_state]: the name of a state. *)
Definition tcp_state_name (state : Z) : state_name :=
  if state =? TCP_CLOSED then CLOSED else
  if state =? TCP_LISTEN then LISTEN else
  if state =? TCP_SYN_SENT then SYN_SENT else
  if state =? TCP_SYN_RCVD then SYN_RCVD else
  if state =? TCP_ESTABLISHED then ESTABLISHED else
  if state =? TCP_FIN_WAIT_1 then FIN_WAIT_1 else
  if state =? TCP_FIN_WAIT_2 then FIN_WAIT_2 else
  if state =? TCP_CLOSING_OR_LAST_ACK then CLOSING_OR_LAST_ACK else
  if state =? TCP_TIME_WAIT then TIME_WAIT else
  if state =? TCP_CLOSE_WAIT then CLOSE_WAIT else INVALID.

(** ** Data.  A socket address: the network-layer part is opaque, the port
    is in host byte order. *)
Record sockaddr_tcpip := Sockaddr { st_addr : list Z; st_port : Z }.

(** A packet on the receive queue: the internal header and the data. *)
Record rx_queued := RxQueued { q_seq : Z; q_flags : Z; q_data : list Z }.

Record tcp_connection := Tcp {
  tcp_flags : Z;
  peer : sockaddr_tcpip;
  local_port : Z;
  tcp_state : Z;
  prev_tcp_state : Z;
  snd_seq : Z;
  snd_sent : Z;
  snd_win : Z;
  rcv_ack : Z;
  rcv_win : Z;
  ts_val : Z;
  ts_recent : Z;
  snd_win_scale : Z;
  rcv_win_scale : Z;
  max_rcv_win : Z;
  tx_queue : list (list Z);
  rx_queue : list rx_queued;
  pending_flags : Z;
  pending_data : Z;
  new_tcp_created : Z }.

Definition set_tcp_flags (v : Z) (c : tcp_connection) : tcp_connection :=
  Tcp v (peer c) (local_port c) (tcp_state c) (prev_tcp_state c) (snd_seq c) (snd_sent c)
    (snd_win c) (rcv_ack c) (rcv_win c) (ts_val c) (ts_recent c) (snd_win_scale c)
    (rcv_win_scale c) (max_rcv_win c) (tx_queue c) (rx_queue c) (pending_flags c)
    (pending_data c) (new_tcp_created c).
Definition set_peer (v : sockaddr_tcpip) (c : tcp_connection) : tcp_connection :=
  Tcp (tcp_flags c) v (local_port c) (tcp_state c) (prev_tcp_state c) (snd_seq c)
    (snd_sent c) (snd_win c) (rcv_ack c) (rcv_win c) (ts_val c) (ts_recent c)
    (snd_win_scale c) (rcv_win_scale c) (max_rcv_win c) (tx_queue c) (rx_queue c)
    (pending_flags c) (pending_data c) (new_tcp_created c).
Definition set_local_port (v : Z) (c : tcp_connection) : tcp_connection :=
  Tcp (tcp_flags c) (peer c) v (tcp_state c) (prev_tcp_state c) (snd_seq c) (snd_sent c)
    (snd_win c) (rcv_ack c) (rcv_win c) (ts_val c) (ts_recent c) (snd_win_scale c)
    (rcv_win_scale c) (max_rcv_win c) (tx_queue c) (rx_queue c) (pending_flags c)
    (pending_data c) (new_tcp_created c).
Definition set_tcp_state (v : Z) (c : tcp_connection) : tcp_connection :=
  Tcp (tcp_flags c) (peer c) (local_port c) v (prev_tcp_state c) (snd_seq c) (snd_sent c)
    (snd_win c) (rcv_ack c) (rcv_win c) (ts_val c) (ts_recent c) (snd_win_scale c)
    (rcv_win_scale c) (max_rcv_win c) (tx_queue c) (rx_queue c) (pending_flags c)
    (pending_data c) (new_tcp_created c).
Definition set_prev_tcp_state (v : Z) (c : tcp_connection) : tcp_connection :=
  Tcp (tcp_flags c) (peer c) (local_port c) (tcp_state c) v (snd_seq c) (snd_sent c)
    (snd_win c) (rcv_ack c) (rcv_win c) (ts_val c) (ts_recent c) (snd_win_scale c)
    (rcv_win_scale c) (max_rcv_win c) (tx_queue c) (rx_queue c) (pending_flags c)
    (pending_data c) (new_tcp_created c).
Definition set_snd_seq (v : Z) (c : tcp_connection) : tcp_connection :=
  Tcp (tcp_flags c) (peer c) (local_port c) (tcp_state c) (prev_tcp_state c) v (snd_sent
    c) (snd_win c) (rcv_ack c) (rcv_win c) (ts_val c) (ts_recent c) (snd_win_scale c)
    (rcv_win_scale c) (max_rcv_win c) (tx_queue c) (rx_queue c) (pending_flags c)
    (pending_data c) (new_tcp_created c).
Definition set_snd_sent (v : Z) (c : tcp_connection) : tcp_connection :=
  Tcp (tcp_flags c) (peer c) (local_port c) (tcp_state c) (prev_tcp_state c) (snd_seq c) v
    (snd_win c) (rcv_ack c) (rcv_win c) (ts_val c) (ts_recent c) (snd_win_scale c)
    (rcv_win_scale c) (max_rcv_win c) (tx_queue c) (rx_queue c) (pending_flags c)
    (pending_data c) (new_tcp_created c).
Definition set_snd_win (v : Z) (c : tcp_connection) : tcp_connection :=
  Tcp (tcp_flags c) (peer c) (local_port c) (tcp_state c) (prev_tcp_state c) (snd_seq c)
    (snd_sent c) v (rcv_ack c) (rcv_win c) (ts_val c) (ts_recent c) (snd_win_scale c)
    (rcv_win_scale c) (max_rcv_win c) (tx_queue c) (rx_queue c) (pending_flags c)
    (pending_data c) (new_tcp_created c).
Definition set_rcv_ack (v : Z) (c : tcp_connection) : tcp_connection :=
  Tcp (tcp_flags c) (peer c) (local_port c) (tcp_state c) (prev_tcp_state c) (snd_seq c)
    (snd_sent c) (snd_win c) v (rcv_win c) (ts_val c) (ts_recent c) (snd_win_scale c)
    (rcv_win_scale c) (max_rcv_win c) (tx_queue c) (rx_queue c) (pending_flags c)
    (pending_data c) (new_tcp_created c).
Definition set_rcv_win (v : Z) (c : tcp_connection) : tcp_connection :=
  Tcp (tcp_flags c) (peer c) (local_port c) (tcp_state c) (prev_tcp_state c) (snd_seq c)
    (snd_sent c) (snd_win c) (rcv_ack c) v (ts_val c) (ts_recent c) (snd_win_scale c)
    (rcv_win_scale c) (max_rcv_win c) (tx_queue c) (rx_queue c) (pending_flags c)
    (pending_data c) (new_tcp_created c).
Definition set_ts_val (v : Z) (c : tcp_connection) : tcp_connection :=
  Tcp (tcp_flags c) (peer c) (local_port c) (tcp_state c) (prev_tcp_state c) (snd_seq c)
    (snd_sent c) (snd_win c) (rcv_ack c) (rcv_win c) v (ts_recent c) (snd_win_scale c)
    (rcv_win_scale c) (max_rcv_win c) (tx_queue c) (rx_queue c) (pending_flags c)
    (pending_data c) (new_tcp_created c).
Definition set_ts_recent (v : Z) (c : tcp_connection) : tcp_connection :=
  Tcp (tcp_flags c) (peer c) (local_port c) (tcp_state c) (prev_tcp_state c) (snd_seq c)
    (snd_sent c) (snd_win c) (rcv_ack c) (rcv_win c) (ts_val c) v (snd_win_scale c)
    (rcv_win_scale c) (max_rcv_win c) (tx_queue c) (rx_queue c) (pending_flags c)
    (pending_data c) (new_tcp_created c).
Definition set_snd_win_scale (v : Z) (c : tcp_connection) : tcp_connection :=
  Tcp (tcp_flags c) (peer c) (local_port c) (tcp_state c) (prev_tcp_state c) (snd_seq c)
    (snd_sent c) (snd_win c) (rcv_ack c) (rcv_win c) (ts_val c) (ts_recent c) v
    (rcv_win_scale c) (max_rcv_win c) (tx_queue c) (rx_queue c) (pending_flags c)
    (pending_data c) (new_tcp_created c).
Definition set_rcv_win_scale (v : Z) (c : tcp_connection) : tcp_connection :=
  Tcp (tcp_flags c) (peer c) (local_port c) (tcp_state c) (prev_tcp_state c) (snd_seq c)
    (snd_sent c) (snd_win c) (rcv_ack c) (rcv_win c) (ts_val c) (ts_recent c)
    (snd_win_scale c) v (max_rcv_win c) (tx_queue c) (rx_queue c) (pending_flags c)
    (pending_data c) (new_tcp_created c).
Definition set_max_rcv_win (v : Z) (c : tcp_connection) : tcp_connection :=
  Tcp (tcp_flags c) (peer c) (local_port c) (tcp_state c) (prev_tcp_state c) (snd_seq c)
    (snd_sent c) (snd_win c) (rcv_ack c) (rcv_win c) (ts_val c) (ts_recent c)
    (snd_win_scale c) (rcv_win_scale c) v (tx_queue c) (rx_queue c) (pending_flags c)
    (pending_data c) (new_tcp_created c).
Definition set_tx_queue (v : list (list Z)) (c : tcp_connection) : tcp_connection :=
  Tcp (tcp_flags c) (peer c) (local_port c) (tcp_state c) (prev_tcp_state c) (snd_seq c)
    (snd_sent c) (snd_win c) (rcv_ack c) (rcv_win c) (ts_val c) (ts_recent c)
    (snd_win_scale c) (rcv_win_scale c) (max_rcv_win c) v (rx_queue c) (pending_flags c)
    (pending_data c) (new_tcp_created c).
Definition set_rx_queue (v : list rx_queued) (c : tcp_connection) : tcp_connection :=
  Tcp (tcp_flags c) (peer c) (local_port c) (tcp_state c) (prev_tcp_state c) (snd_seq c)
    (snd_sent c) (snd_win c) (rcv_ack c) (rcv_win c) (ts_val c) (ts_recent c)
    (snd_win_scale c) (rcv_win_scale c) (max_rcv_win c) (tx_queue c) v (pending_flags c)
    (pending_data c) (new_tcp_created c).
Definition set_pending_flags (v : Z) (c : tcp_connection) : tcp_connection :=
  Tcp (tcp_flags c) (peer c) (local_port c) (tcp_state c) (prev_tcp_state c) (snd_seq c)
    (snd_sent c) (snd_win c) (rcv_ack c) (rcv_win c) (ts_val c) (ts_recent c)
    (snd_win_scale c) (rcv_win_scale c) (max_rcv_win c) (tx_queue c) (rx_queue c) v
    (pending_data c) (new_tcp_created c).
Definition set_pending_data (v : Z) (c : tcp_connection) : tcp_connection :=
  Tcp (tcp_flags c) (peer c) (local_port c) (tcp_state c) (prev_tcp_state c) (snd_seq c)
    (snd_sent c) (snd_win c) (rcv_ack c) (rcv_win c) (ts_val c) (ts_recent c)
    (snd_win_scale c) (rcv_win_scale c) (max_rcv_win c) (tx_queue c) (rx_queue c)
    (pending_flags c) v (new_tcp_created c).
Definition set_new_tcp_created (v : Z) (c : tcp_connection) : tcp_connection :=
  Tcp (tcp_flags c) (peer c) (local_port c) (tcp_state c) (prev_tcp_state c) (snd_seq c)
    (snd_sent c) (snd_win c) (rcv_ack c) (rcv_win c) (ts_val c) (ts_recent c)
    (snd_win_scale c) (rcv_win_scale c) (max_rcv_win c) (tx_queue c) (rx_queue c)
    (pending_flags c) (pending_data c) v.

(** A zero-filled connection, as zalloc() leaves it. *)
Definition tcp_zero : tcp_connection :=
  Tcp 0 (Sockaddr [] 0) 0 0 0 0 0 0 0 0 0 0 0 0 0 [] [] 0 0 0.

Record tcp_world (E : Type) := World {
  conns : gmap loc tcp_connection;
  tcp_conns : list loc;
  listener : option loc;
  tcp_timers : timer_state;
  pending_total : Z;
  random_pool : list Z;
  alloc_pool : list (option loc);
  ticks : Z;
  net : E }.
Arguments World {E}.
Arguments conns {E}.
Arguments tcp_conns {E}.
Arguments listener {E}.
Arguments tcp_timers {E}.
Arguments pending_total {E}.
Arguments random_pool {E}.
Arguments alloc_pool {E}.
Arguments ticks {E}.
Arguments net {E}.

Definition set_conns {E} (v : gmap loc tcp_connection) (w : tcp_world E) : tcp_world E :=
  World v (tcp_conns w) (listener w) (tcp_timers w) (pending_total w) (random_pool w)
    (alloc_pool w) (ticks w) (net w).
Definition set_tcp_conns {E} (v : list loc) (w : tcp_world E) : tcp_world E :=
  World (conns w) v (listener w) (tcp_timers w) (pending_total w) (random_pool w)
    (alloc_pool w) (ticks w) (net w).
Definition set_listener {E} (v : option loc) (w : tcp_world E) : tcp_world E :=
  World (conns w) (tcp_conns w) v (tcp_timers w) (pending_total w) (random_pool w)
    (alloc_pool w) (ticks w) (net w).
Definition set_tcp_timers {E} (v : timer_state) (w : tcp_world E) : tcp_world E :=
  World (conns w) (tcp_conns w) (listener w) v (pending_total w) (random_pool w)
    (alloc_pool w) (ticks w) (net w).
Definition set_pending_total {E} (v : Z) (w : tcp_world E) : tcp_world E :=
  World (conns w) (tcp_conns w) (listener w) (tcp_timers w) v (random_pool w) (alloc_pool
    w) (ticks w) (net w).
Definition set_random_pool {E} (v : list Z) (w : tcp_world E) : tcp_world E :=
  World (conns w) (tcp_conns w) (listener w) (tcp_timers w) (pending_total w) v
    (alloc_pool w) (ticks w) (net w).
Definition set_alloc_pool {E} (v : list (option loc)) (w : tcp_world E) : tcp_world E :=
  World (conns w) (tcp_conns w) (listener w) (tcp_timers w) (pending_total w) (random_pool
    w) v (ticks w) (net w).
Definition set_ticks {E} (v : Z) (w : tcp_world E) : tcp_world E :=
  World (conns w) (tcp_conns w) (listener w) (tcp_timers w) (pending_total w) (random_pool
    w) (alloc_pool w) v (net w).
Definition set_net {E} (v : E) (w : tcp_world E) : tcp_world E :=
  World (conns w) (tcp_conns w) (listener w) (tcp_timers w) (pending_total w) (random_pool
    w) (alloc_pool w) (ticks w) v.

(** ** The environment. *)
Record tcp_env (E : Type) := TcpEnv {
  ticks_per_sec : Z;
  (** The application's receive window. *)
  xfer_window : loc -> tcp_world E -> Z;
  (** Delivery of received data to the application. *)
  xfer_deliver_iob : loc -> list Z -> tcp_world E -> tcp_world E * rc;
  (** Closing of the data transfer interface. *)
  intf_shutdown : loc -> rc -> tcp_world E -> tcp_world E;
  (** Opening of a child of the listening application. *)
  xfer_open_child : loc -> loc -> tcp_world E -> tcp_world E;
  xfer_window_changed : loc -> tcp_world E -> tcp_world E;
  (** [intf_plug_plug] of a new connection with its parent. *)
  plug_parent : loc -> tcp_world E -> tcp_world E;
  (** The network layer. *)
  net_tx : sockaddr_tcpip -> list Z -> E -> E * rc }.
Arguments TcpEnv {E}.
Arguments ticks_per_sec {E}.
Arguments xfer_window {E}.
Arguments xfer_deliver_iob {E}.
Arguments intf_shutdown {E}.
Arguments xfer_open_child {E}.
Arguments xfer_window_changed {E}.
Arguments plug_parent {E}.
Arguments net_tx {E}.

(** ** The monad of the handlers. *)
Definition M (E A : Type) : Type := tcp_world E -> option (tcp_world E * A).

#[export] Instance M_ret E : MRet (M E) := fun A x w => Some (w, x).
#[export] Instance M_bind E : MBind (M E) := fun A B k m w =>
  match m w with
  | None => None
  | Some (w, x) => k x w
  end.

Section Handlers.
Context {E : Type}.
Variable env : tcp_env E.
Abbreviation MT := (M E).

Definition get : MT (tcp_world E) := fun w => Some (w, w).
Definition modify (f : tcp_world E -> tcp_world E) : MT unit := fun w => Some (f w, tt).
(** A call that may change the world and returns a value. *)
Definition call {A} (f : tcp_world E -> tcp_world E * A) : MT A := fun w => Some (f w).

(** The connection at an address. *)
Definition get_conn (tcp : loc) : MT tcp_connection := fun w =>
  c ← conns w !! tcp; Some (w, c).
Definition put_conn (tcp : loc) (c : tcp_connection) : MT unit :=
  modify (fun w => set_conns (<[tcp := c]> (conns w)) w).
Definition update (tcp : loc) (f : tcp_connection -> tcp_connection) : MT unit :=
  c ← get_conn tcp; put_conn tcp (f c).

(** An operation on the timers. *)
Definition timers_op (f : timer_state -> option timer_state) : MT unit := fun w =>
  s ← f (tcp_timers w); Some (set_tcp_timers s w, tt).
(** The addresses of the two timers of a connection. *)
Definition timer_of (tcp : loc) : loc := xO tcp.
Definition wait_of (tcp : loc) : loc := xI tcp.

Definition random : MT Z := fun w =>
  match random_pool w with
  | [] => None
  | x :: pool => Some (set_random_pool pool w, x)
  end.

(** A memory allocation: the address, or [None] for NULL. *)
Definition alloc : MT (option loc) := fun w =>
  match alloc_pool w with
  | [] => Some (w, None)
  | p :: pool => Some (set_alloc_pool pool w, p)
  end.

(** *** Pending operations. *)
Definition pending_get (count total : Z) : Z * Z := (u32 (count + 1), s32 (total + 1)).
Definition pending_put (count total : Z) : Z * Z :=
  if ctrue count then (u32 (count - 1), s32 (total - 1)) else (count, total).
Definition is_pending (count : Z) : bool := ctrue count.

Definition pending_flags_op (f : Z -> Z -> Z * Z) (tcp : loc) : MT unit :=
  c ← get_conn tcp;
  w ← get;
  let '(n, total) := f (pending_flags c) (pending_total w) in
  _ ← put_conn tcp (set_pending_flags n c);
  modify (set_pending_total total).

Definition pending_data_op (f : Z -> Z -> Z * Z) (tcp : loc) : MT unit :=
  c ← get_conn tcp;
  w ← get;
  let '(n, total) := f (pending_data c) (pending_total w) in
  _ ← put_conn tcp (set_pending_data n c);
  modify (set_pending_total total).

(** An operation repeated a number of times. *)
Fixpoint repeat_op (n : nat) (m : MT unit) : MT unit :=
  match n with
  | O => mret tt
  | S n => _ ← m; repeat_op n m
  end.

Definition tcp_dump_state (c : tcp_connection) : tcp_connection := set_prev_tcp_state (tcp_state c) c.

(** *** Open and close. *)
Definition port_in_use (w : tcp_world E) (port : Z) : bool :=
  existsb (fun p => match conns w !! p with Some c => local_port c =? port | None => false end)
    (tcp_conns w).

Definition tcp_bind_port (tcp : loc) (port : Z) : MT rc :=
  w ← get;
  if port_in_use w port then mret (RC_ERR EADDRINUSE) else
  _ ← update tcp (set_local_port port);
  mret RC_OK.

Fixpoint bind_loop (n : nat) (tcp : loc) (try_port : Z) : MT rc :=
  match n with
  | O => mret (RC_ERR EADDRINUSE)
  | S n =>
      let try_port := u16 (try_port + 1) in
      if try_port <? 1024 then bind_loop n tcp try_port else
      r ← tcp_bind_port tcp try_port;
      match r with
      | RC_OK => mret RC_OK
      | RC_ERR _ => bind_loop n tcp try_port
      end
  end.

(** The recursive call has a non-zero port. *)
Definition tcp_bind (tcp : loc) (port : Z) : MT rc :=
  if ctrue port then tcp_bind_port tcp port else
  r ← random;
  bind_loop (Z.to_nat 65536) tcp (u16 r).

Definition start_timer_op (t : loc) : MT unit :=
  w ← get; timers_op (start_timer (ticks_per_sec env) (ticks w) t).
Definition start_timer_fixed_op (t : loc) (tmo : Z) : MT unit :=
  w ← get; timers_op (start_timer_fixed (ticks_per_sec env) (ticks w) t tmo).
Definition stop_timer_op (t : loc) : MT unit :=
  w ← get; timers_op (stop_timer (ticks w) t).
Definition ref_put_op (tcp : loc) : MT unit :=
  timers_op (fun s => Some (Timers (timers s) (tmr s) (ref_put (Some tcp) (objects s)))).

(** The timers and the reference counter of a new connection, all zero
    but for the pointer to the counter. *)
Definition init_conn (tcp : loc) (c : tcp_connection) : MT unit :=
  _ ← put_conn tcp c;
  timers_op (fun s =>
    let zero := Timer false 0 0 0 0 0 (Some tcp) in
    Some (Timers (timers s) (<[timer_of tcp := zero]> (<[wait_of tcp := zero]> (tmr s)))
      (Refs (<[tcp := 0]> (count (objects s))) (freed (objects s))))).

(** [peer] is [None] for a null pointer, which the code dereferences. *)
Definition tcp_open (st_peer st_local : option sockaddr_tcpip) : MT rc :=
  p ← alloc;
  match p with
  | None => mret (RC_ERR ENOMEM)
  | Some tcp =>
      _ ← init_conn tcp (set_prev_tcp_state TCP_CLOSED tcp_zero);
      match st_peer with
      | None => fun _ => None
      | Some sp =>
          let has_peer := ctrue (st_port sp) in
          _ ← (if has_peer
               then update tcp (set_tcp_state (TCP_STATE_SENT TCP_SYN))
               else _ ← update tcp (set_tcp_state TCP_LISTEN); modify (set_listener (Some tcp)));
          _ ← update tcp tcp_dump_state;
          r ← random;
          _ ← update tcp (set_snd_seq (u32 r));
          _ ← update tcp (set_max_rcv_win TCP_MAX_WINDOW_SIZE);
          _ ← (if has_peer then update tcp (set_peer sp) else mret tt);
          let bind_port := match st_local with Some sl => st_port sl | None => 0 end in
          let bind_port := if has_peer then bind_port else LISTEN_PORT in
          r ← tcp_bind tcp bind_port;
          match r with
          | RC_ERR e => _ ← ref_put_op tcp; mret (RC_ERR e)
          | RC_OK =>
              _ ← (if has_peer
                   then _ ← start_timer_fixed_op (timer_of tcp) 0; pending_flags_op pending_get tcp
                   else mret tt);
              _ ← modify (plug_parent env tcp);
              _ ← modify (fun w => set_tcp_conns (tcp :: tcp_conns w) w);
              mret RC_OK
          end
      end
  end.

(** *** Transmit queue.  [tcp_process_tx_queue] on a queue: the new queue,
    the bytes copied, their number, and the number of buffers freed. *)
Fixpoint process_tx (queue : list (list Z)) (max_len : Z) (remove : bool)
    : list (list Z) * list Z * Z * nat :=
  match queue with
  | [] => ([], [], 0, O)
  | iobuf :: queue =>
      let frag_len := if max_len <? zlen iobuf then max_len else zlen iobuf in
      let '(queue, data, len, n) := process_tx queue (max_len - frag_len) remove in
      let data := take (Z.to_nat frag_len) iobuf ++ data in
      let rest := drop (Z.to_nat frag_len) iobuf in
      if remove then
        if ctrue (zlen rest) then (rest :: queue, data, len + frag_len, n)
        else (queue, data, len + frag_len, S n)
      else (iobuf :: queue, data, len + frag_len, n)
  end.

Definition tcp_process_tx_queue (tcp : loc) (max_len : Z) (remove : bool) : MT (list Z * Z) :=
  c ← get_conn tcp;
  let '(queue, data, len, n) := process_tx (tx_queue c) max_len remove in
  _ ← put_conn tcp (set_tx_queue queue c);
  _ ← repeat_op n (pending_data_op pending_put tcp);
  mret (data, len).

Definition tcp_xmit_win (c : tcp_connection) : Z :=
  if negb (TCP_CAN_SEND_DATA (tcp_state c)) then 0 else
  let len := snd_win c in
  if TCP_PATH_MTU <? len then TCP_PATH_MTU else len.

Definition tcp_xfer_window (c : tcp_connection) : Z :=
  match tx_queue c with
  | _ :: _ => 0
  | [] => tcp_xmit_win c
  end.

(** *** Acknowledgements. *)
Definition tcp_rx_ack (tcp : loc) (ack win : Z) : MT rc :=
  c ← get_conn tcp;
  let ack_len := u32 (ack - snd_seq c) in
  if snd_sent c <? ack_len then
    if TCP_HAS_BEEN_ESTABLISHED (tcp_state c) then mret RC_OK else mret (RC_ERR EINVAL)
  else if ack_len =? 0 then mret RC_OK else
  _ ← stop_timer_op (timer_of tcp);
  let acked_flags := Z.land (TCP_FLAGS_SENDING (tcp_state c)) (Z.lor TCP_SYN TCP_FIN) in
  let len := if ctrue acked_flags then u32 (ack_len - 1) else ack_len in
  _ ← (if ctrue acked_flags then pending_flags_op pending_put tcp else mret tt);
  _ ← update tcp (fun c => set_snd_win win (set_snd_sent 0 (set_snd_seq ack c)));
  _ ← tcp_process_tx_queue tcp len true;
  _ ← (if ctrue acked_flags
       then update tcp (fun c => set_tcp_state (Z.lor (tcp_state c) (TCP_STATE_ACKED acked_flags)) c)
       else mret tt);
  c ← get_conn tcp;
  _ ← (if match tx_queue c with [] => true | _ => false end &&
          ctrue (Z.land (tcp_flags c) TCP_XFER_CLOSED) &&
          negb (ctrue (Z.land (tcp_state c) (TCP_STATE_SENT TCP_FIN)))
       then _ ← update tcp (fun c => set_tcp_state (Z.lor (tcp_state c) (TCP_STATE_SENT TCP_FIN)) c);
            pending_flags_op pending_get tcp
       else mret tt);
  mret RC_OK.

Definition tcp_close (tcp : loc) (r : rc) : MT unit :=
  _ ← modify (intf_shutdown env tcp r);
  _ ← update tcp (fun c => set_tcp_flags (Z.lor (tcp_flags c) TCP_XFER_CLOSED) c);
  c ← get_conn tcp;
  if negb (ctrue (Z.land (tcp_state c) (TCP_STATE_RCVD TCP_SYN))) then
    _ ← update tcp (fun c => tcp_dump_state (set_tcp_state TCP_CLOSED c));
    _ ← update tcp (set_rx_queue []);
    let n := length (tx_queue c) in
    _ ← update tcp (set_tx_queue []);
    _ ← repeat_op n (pending_data_op pending_put tcp);
    _ ← pending_flags_op pending_put tcp;
    _ ← pending_flags_op pending_put tcp;
    _ ← stop_timer_op (timer_of tcp);
    _ ← stop_timer_op (wait_of tcp);
    _ ← modify (fun w => set_tcp_conns (unlink tcp (tcp_conns w)) w);
    ref_put_op tcp
  else
    _ ← (if negb (ctrue (Z.land (tcp_state c) (TCP_STATE_ACKED TCP_SYN)))
         then _ ← tcp_rx_ack tcp (u32 (snd_seq c + 1)) 0; mret tt
         else mret tt);
    c ← get_conn tcp;
    if match tx_queue c with [] => true | _ => false end &&
       negb (ctrue (Z.land (tcp_state c) (TCP_STATE_SENT TCP_FIN)))
    then
      _ ← update tcp (fun c => tcp_dump_state
                        (set_tcp_state (Z.lor (tcp_state c) (TCP_STATE_SENT TCP_FIN)) c));
      pending_flags_op pending_get tcp
    else mret tt.

(** *** Segments.  The checksum is stored in memory order. *)
Definition with_csum (segment : list Z) : list Z :=
  let csum := tcpip_chksum segment in
  take 16 segment ++ [csum mod 256; csum / 256] ++ drop 18 segment.

Definition tcp_header (src dest seq ack hlen flags win : Z) : list Z :=
  be_bytes 2 src ++ be_bytes 2 dest ++ be_bytes 4 seq ++ be_bytes 4 ack ++
  [u8 hlen; u8 flags] ++ be_bytes 2 win ++ [0; 0; 0; 0].

Definition mss_option : list Z := [TCP_OPTION_MSS; 4] ++ be_bytes 2 TCP_MSS.
Definition ws_option : list Z := [TCP_OPTION_NOP; TCP_OPTION_WS; 3; TCP_RX_WINDOW_SCALE].
Definition ts_option (tsval tsecr : Z) : list Z :=
  [TCP_OPTION_NOP; TCP_OPTION_NOP; TCP_OPTION_TS; 10] ++ be_bytes 4 tsval ++ be_bytes 4 tsecr.

(** The segment [tcp_xmit] builds for a connection. *)
Definition tcp_segment (c : tcp_connection) (flags now : Z) (payload : list Z) : list Z :=
  let syn := ctrue (Z.land flags TCP_SYN) in
  let options :=
    (if syn || ctrue (Z.land (tcp_flags c) TCP_TS_ENABLED) then ts_option now (ts_recent c) else []) ++
    (if syn then ws_option ++ mss_option else []) in
  let flags := match payload with [] => flags | _ => Z.lor flags TCP_PSH end in
  let hlen := Z.shiftl (TCP_HLEN + zlen options) 2 in
  with_csum
    (tcp_header (local_port c) (st_port (peer c)) (snd_seq c) (rcv_ack c) hlen flags
       (Z.shiftr (rcv_win c) (rcv_win_scale c)) ++ options ++ payload).

(** The receive window after the expansion of [tcp_xmit]. *)
Definition expand_window (c : tcp_connection) (app_win : Z) : Z :=
  let max_win := max_rcv_win c in
  let max_win := if app_win <? max_win then app_win else max_win in
  let max_representable_win := u32 (Z.shiftl 65535 (rcv_win_scale c)) in
  let max_win := if max_representable_win <? max_win then max_representable_win else max_win in
  let max_win := Z.land max_win (Z.lnot 3) in
  if rcv_win c <? max_win then max_win else rcv_win c.

Definition tcpip_tx_op (dest : sockaddr_tcpip) (packet : list Z) : MT rc :=
  call (fun w => let '(n, r) := net_tx env dest packet (net w) in (set_net n w, r)).

Definition tcp_xmit (tcp : loc) : MT rc :=
  w ← get;
  match timer_running (timer_of tcp) (tcp_timers w) with
  | None => fun _ => None
  | Some true => mret RC_OK
  | Some false =>
      c ← get_conn tcp;
      let len := if TCP_CAN_SEND_DATA (tcp_state c)
                 then (process_tx (tx_queue c) (tcp_xmit_win c) false).1.2 else 0 in
      let flags := TCP_FLAGS_SENDING (tcp_state c) in
      let seq_len := if ctrue (Z.land flags (Z.lor TCP_SYN TCP_FIN)) then u32 (len + 1) else u32 len in
      _ ← update tcp (set_snd_sent seq_len);
      if (seq_len =? 0) && negb (ctrue (Z.land (tcp_flags c) TCP_ACK_PENDING)) then mret RC_OK else
      _ ← (if ctrue seq_len then start_timer_op (timer_of tcp) else mret tt);
      p ← alloc;
      match p with
      | None => mret (RC_ERR ENOMEM)
      | Some _ =>
          '(payload, _) ← tcp_process_tx_queue tcp len false;
          w ← get;
          let app_win := xfer_window env tcp w in
          _ ← update tcp (fun c => set_rcv_win (expand_window c app_win) c);
          c ← get_conn tcp;
          r ← tcpip_tx_op (peer c) (tcp_segment c flags (ticks w) payload);
          match r with
          | RC_ERR e => mret (RC_ERR e)
          | RC_OK =>
              _ ← update tcp (fun c => set_tcp_flags (Z.land (tcp_flags c) (Z.lnot TCP_ACK_PENDING)) c);
              mret RC_OK
          end
      end
  end.

Definition tcp_expired (tcp : loc) (over : bool) : MT unit :=
  if over then
    _ ← update tcp (fun c => tcp_dump_state (set_tcp_state TCP_CLOSED c));
    tcp_close tcp (RC_ERR ETIMEDOUT)
  else
    _ ← tcp_xmit tcp; mret tt.

Definition tcp_wait_expired (tcp : loc) : MT unit :=
  _ ← update tcp (fun c => tcp_dump_state (set_tcp_state TCP_CLOSED c));
  tcp_close tcp RC_OK.

Definition tcp_xmit_reset (dest : sockaddr_tcpip) (in_src in_dest in_seq in_ack : Z) : MT rc :=
  p ← alloc;
  match p with
  | None => mret (RC_ERR ENOMEM)
  | Some _ =>
      tcpip_tx_op dest
        (with_csum (tcp_header in_dest in_src in_ack in_seq (Z.shiftl (TCP_HLEN / 4) 4)
                      (Z.lor TCP_RST TCP_ACK) 0))
  end.

(** *** Receive path. *)
Fixpoint demux_loop (w : tcp_world E) (l : list loc) (lst : option loc) (lport pport : Z)
    : option (option loc) :=
  match l with
  | [] =>
      (* The listening connection, if any, is dereferenced. *)
      tcp ← lst;
      c ← conns w !! tcp;
      Some (if local_port c =? lport then Some tcp else None)
  | tcp :: l =>
      c ← conns w !! tcp;
      let lst := if tcp_state c =? TCP_LISTEN then Some tcp else lst in
      if (local_port c =? lport) && (st_port (peer c) =? pport) && ctrue pport
      then Some (Some tcp) else demux_loop w l lst lport pport
  end.

Definition tcp_demux (lport pport : Z) : MT (option loc) := fun w =>
  r ← demux_loop w (tcp_conns w) None lport pport;
  Some (w, r).

(** Parsed options: offsets within the packet. *)
Record tcp_options := Options { mssopt : option Z; wsopt : option Z; tsopt : option Z }.

Definition byte_at (packet : list Z) (off : Z) : option Z := packet !! Z.to_nat off.

Fixpoint tcp_rx_opts (fuel : nat) (packet : list Z) (data end_ : Z) (options : tcp_options)
    : option tcp_options :=
  match fuel with
  | O => None
  | S fuel =>
      if negb (data <? end_) then Some options else
      kind ← byte_at packet data;
      if kind =? TCP_OPTION_END then Some options else
      if kind =? TCP_OPTION_NOP then tcp_rx_opts fuel packet (data + 1) end_ options else
      let options :=
        if kind =? TCP_OPTION_MSS then Options (Some data) (wsopt options) (tsopt options) else
        if kind =? TCP_OPTION_WS then Options (mssopt options) (Some data) (tsopt options) else
        if kind =? TCP_OPTION_TS then Options (mssopt options) (wsopt options) (Some data)
        else options in
      len ← byte_at packet (data + 1);
      tcp_rx_opts fuel packet (data + len) end_ options
  end.

Definition be_at (packet : list Z) (off n : Z) : option Z :=
  let l := take (Z.to_nat n) (drop (Z.to_nat off) packet) in
  if zlen l =? n then Some (be_val l) else None.

Definition rx_seq (seq_len : Z) (c : tcp_connection) : tcp_connection :=
  let c := set_rcv_ack (u32 (rcv_ack c + seq_len)) c in
  let c := set_rcv_win (if seq_len <? rcv_win c then rcv_win c - seq_len else 0) c in
  let c := set_ts_recent (ts_val c) c in
  set_tcp_flags (Z.lor (tcp_flags c) TCP_ACK_PENDING) c.

Definition tcp_rx_seq (tcp : loc) (seq_len : Z) : MT unit := update tcp (rx_seq seq_len).

(** The scale of the window scale option of the packet, and whether there
    is a timestamp option, are all that is used of the options. *)
Definition rx_syn (seq : Z) (has_ts : bool) (scale : option Z) (c : tcp_connection) : tcp_connection :=
  let c :=
    if negb (ctrue (Z.land (tcp_state c) (TCP_STATE_RCVD TCP_SYN))) then
      let c := set_rcv_ack seq c in
      let c := if has_ts then set_tcp_flags (Z.lor (tcp_flags c) TCP_TS_ENABLED) c else c in
      match scale with
      | Some scale => set_rcv_win_scale TCP_RX_WINDOW_SCALE (set_snd_win_scale scale c)
      | None => c
      end
    else c in
  if negb (seq =? rcv_ack c) then c else
  let c := rx_seq 1 c in
  if tcp_state c =? TCP_LISTEN then
    set_tcp_state (Z.lor (tcp_state c)
      (Z.lor (TCP_STATE_SENT (Z.lor TCP_SYN TCP_ACK)) (TCP_STATE_RCVD TCP_SYN))) c
  else
    set_tcp_state (Z.lor (tcp_state c)
      (Z.lor (TCP_STATE_SENT TCP_ACK) (TCP_STATE_RCVD TCP_SYN))) c.

Definition tcp_rx_syn (tcp : loc) (seq : Z) (packet : list Z) (options : tcp_options) : MT rc :=
  c ← get_conn tcp;
  scale ← (match wsopt options with
           | Some off => if ctrue (Z.land (tcp_state c) (TCP_STATE_RCVD TCP_SYN)) then mret None
                         else fun w => s ← byte_at packet (off + 2); Some (w, Some s)
           | None => mret None
           end : MT (option Z));
  _ ← update tcp (rx_syn seq (match tsopt options with Some _ => true | None => false end) scale);
  mret RC_OK.

Definition tcp_rx_data (tcp : loc) (seq : Z) (iobuf : list Z) : MT rc :=
  c ← get_conn tcp;
  let already_rcvd := u32 (rcv_ack c - seq) in
  let len := zlen iobuf in
  if len <=? already_rcvd then mret RC_OK else
  let iobuf := drop (Z.to_nat already_rcvd) iobuf in
  let len := len - already_rcvd in
  _ ← tcp_rx_seq tcp len;
  call (xfer_deliver_iob env tcp iobuf).

Definition tcp_rx_fin (tcp : loc) (seq : Z) : MT rc :=
  c ← get_conn tcp;
  if negb (seq =? rcv_ack c) then mret RC_OK else
  _ ← tcp_rx_seq tcp 1;
  _ ← update tcp (fun c => set_tcp_state (Z.lor (tcp_state c) (TCP_STATE_RCVD TCP_FIN)) c);
  _ ← tcp_close tcp RC_OK;
  mret RC_OK.

Definition tcp_rx_rst (tcp : loc) (seq : Z) : MT rc :=
  c ← get_conn tcp;
  if (if ctrue (Z.land (tcp_state c) (TCP_STATE_RCVD TCP_SYN))
      then negb (tcp_in_window seq (rcv_ack c) (rcv_win c))
      else negb (ctrue (Z.land (tcp_state c) (TCP_STATE_ACKED TCP_SYN))))
  then mret RC_OK else
  _ ← update tcp (fun c => tcp_dump_state (set_tcp_state TCP_CLOSED c));
  _ ← tcp_close tcp (RC_ERR ECONNRESET);
  mret (RC_ERR ECONNRESET).

(** Insertion before the first queued packet with a later SEQ. *)
Fixpoint rx_insert (q : rx_queued) (queue : list rx_queued) : list rx_queued :=
  match queue with
  | [] => [q]
  | x :: queue => if tcp_cmp (q_seq q) (q_seq x) <? 0 then q :: x :: queue else x :: rx_insert q queue
  end.

Definition rx_enqueue (seq flags : Z) (iobuf : list Z) (c : tcp_connection) : tcp_connection :=
  let flags := Z.land flags TCP_FIN in
  let seq_len := zlen iobuf + (if ctrue flags then 1 else 0) in
  if negb (ctrue (Z.land (tcp_state c) (TCP_STATE_RCVD TCP_SYN))) ||
     (0 <=? tcp_cmp seq (rcv_ack c + rcv_win c)) ||
     (tcp_cmp (seq + seq_len) (rcv_ack c) <? 0) ||
     (seq_len =? 0)
  then c
  else set_rx_queue (rx_insert (RxQueued seq flags iobuf) (rx_queue c)) c.

Definition tcp_rx_enqueue (tcp : loc) (seq flags : Z) (iobuf : list Z) : MT unit :=
  update tcp (rx_enqueue seq flags iobuf).

Fixpoint tcp_process_rx_queue (fuel : nat) (tcp : loc) : MT unit :=
  match fuel with
  | O => fun _ => None
  | S fuel =>
      c ← get_conn tcp;
      match rx_queue c with
      | [] => mret tt
      | q :: queue =>
          if 0 <? tcp_cmp (q_seq q) (rcv_ack c) then mret tt else
          _ ← put_conn tcp (set_rx_queue queue c);
          _ ← tcp_rx_data tcp (q_seq q) (q_data q);
          let seq := u32 (q_seq q + zlen (q_data q)) in
          _ ← (if ctrue (Z.land (q_flags q) TCP_FIN)
               then _ ← tcp_rx_fin tcp seq; mret tt else mret tt);
          tcp_process_rx_queue fuel tcp
      end
  end.

(** The connection [tcp_rx] makes from a listening one. *)
Definition clone_conn (c : tcp_connection) (st_src : sockaddr_tcpip) (src : Z) : tcp_connection :=
  Tcp 0 (Sockaddr (st_addr st_src) src) LISTEN_PORT (tcp_state c) (tcp_state c)
    (snd_seq c) (snd_sent c) (snd_win c) (rcv_ack c) (rcv_win c) (ts_val c) (ts_recent c)
    (snd_win_scale c) (rcv_win_scale c) (max_rcv_win c) [] []
    (pending_flags c) (pending_data c) 0.

Definition accept (tcp : loc) (st_src : sockaddr_tcpip) (src : Z) : MT (option loc) :=
  c ← get_conn tcp;
  if negb (tcp_state c =? TCP_LISTEN) then mret (Some tcp) else
  p ← alloc;
  match p with
  | None => mret None
  | Some new_tcp =>
      _ ← init_conn new_tcp (clone_conn c st_src src);
      _ ← modify (fun w => set_tcp_conns (tcp_conns w ++ [new_tcp]) w);
      r ← random;
      _ ← update tcp (fun c => set_rx_queue [] (set_tx_queue [] (set_snd_seq (u32 r)
             (tcp_dump_state (set_tcp_state TCP_LISTEN c)))));
      mret (Some new_tcp)
  end.

(** The new child connection of the listener is opened once, when its SYN
    is acknowledged. *)
Definition open_child (tcp : loc) : MT unit :=
  c ← get_conn tcp;
  w ← get;
  if (tcp_state c =? TCP_ESTABLISHED) && (prev_tcp_state c =? TCP_SYN_RCVD) && (new_tcp_created c =? 0)
  then
    match listener w with
    | Some l =>
        _ ← modify (xfer_open_child env l tcp);
        update tcp (fun c => set_new_tcp_created (new_tcp_created c + 1) c)
    | None => mret tt
    end
  else mret tt.

(** [tcp_rx] after the connection is known and the ACK is handled. *)
Definition tcp_rx_segment (fuel : nat) (tcp : loc) (packet : list Z) (options : tcp_options)
    (seq flags : Z) (data : list Z) (old_xfer_window : Z) : MT rc :=
  c ← get_conn tcp;
  _ ← (if ctrue (Z.land (tcp_state c) (TCP_STATE_RCVD TCP_SYN)) && negb (seq =? rcv_ack c)
       then update tcp (fun c => set_tcp_flags (Z.lor (tcp_flags c) TCP_ACK_PENDING) c)
       else mret tt);
  _ ← (if ctrue (Z.land flags TCP_SYN) then _ ← tcp_rx_syn tcp seq packet options; mret tt else mret tt);
  let seq := if ctrue (Z.land flags TCP_SYN) then u32 (seq + 1) else seq in
  r ← (if ctrue (Z.land flags TCP_RST) then tcp_rx_rst tcp seq else mret RC_OK);
  match r with
  | RC_ERR e => mret (RC_ERR e)
  | RC_OK =>
      _ ← tcp_rx_enqueue tcp seq flags data;
      _ ← tcp_process_rx_queue fuel tcp;
      _ ← update tcp tcp_dump_state;
      _ ← tcp_xmit tcp;
      c ← get_conn tcp;
      _ ← (if TCP_CLOSED_GRACEFULLY (tcp_state c)
           then _ ← stop_timer_op (wait_of tcp);
                start_timer_fixed_op (wait_of tcp) (u32 (2 * TCP_MSL (ticks_per_sec env)))
           else mret tt);
      c ← get_conn tcp;
      _ ← (if negb (tcp_xfer_window c =? old_xfer_window)
           then modify (xfer_window_changed env tcp) else mret tt);
      mret RC_OK
  end.

Definition tcp_rx (fuel : nat) (packet : list Z) (st_src : sockaddr_tcpip) (pshdr_csum : Z) : MT rc :=
  if zlen packet <? TCP_HLEN then mret (RC_ERR EINVAL) else
  match packet !! 12%nat, packet !! 13%nat with
  | Some hl, Some flags =>
      let hlen := Z.land hl TCP_MASK_HLEN / 16 * 4 in
      if hlen <? TCP_HLEN then mret (RC_ERR EINVAL) else
      if zlen packet <? hlen then mret (RC_ERR EINVAL) else
      if ctrue (generic_tcpip_continue_chksum pshdr_csum packet) then mret (RC_ERR EINVAL) else
      let src := be_val (take 2 packet) in
      let dest := be_val (take 2 (drop 2 packet)) in
      let seq := be_val (take 4 (drop 4 packet)) in
      let ack := be_val (take 4 (drop 8 packet)) in
      let raw_win := be_val (take 2 (drop 14 packet)) in
      t ← tcp_demux dest src;
      match tcp_rx_opts (S (Z.to_nat hlen)) packet TCP_HLEN hlen (Options None None None) with
      | None => fun _ => None
      | Some options =>
          _ ← (match t, tsopt options with
               | Some tcp, Some off =>
                   match be_at packet (off + 2) 4 with
                   | Some v => update tcp (set_ts_val v)
                   | None => fun _ => None
                   end
               | _, _ => mret tt
               end);
          let data := drop (Z.to_nat hlen) packet in
          match t with
          | None => _ ← tcp_xmit_reset st_src src dest seq ack; mret (RC_ERR ENOTCONN)
          | Some tcp =>
              t ← accept tcp st_src src;
              match t with
              | None => mret (RC_ERR ENOMEM)
              | Some tcp =>
                  c ← get_conn tcp;
                  let old_xfer_window := tcp_xfer_window c in
                  r ← (if ctrue (Z.land flags TCP_ACK)
                       then tcp_rx_ack tcp ack (u32 (Z.shiftl raw_win (snd_win_scale c)))
                       else mret RC_OK);
                  match r with
                  | RC_ERR e => _ ← tcp_xmit_reset st_src src dest seq ack; mret (RC_ERR e)
                  | RC_OK =>
                      _ ← (if ctrue (Z.land flags TCP_ACK) then open_child tcp else mret tt);
                      tcp_rx_segment fuel tcp packet options seq flags data old_xfer_window
                  end
              end
          end
      end
  | _, _ => fun _ => None
  end.

(** *** Discarding, shutdown and the data transfer interface. *)
Definition discard_conn (c : tcp_connection) : tcp_connection * Z :=
  match last (rx_queue c) with
  | None => (c, 0)
  | Some q =>
      let max_win := u32 (q_seq q - rcv_ack c) in
      let c := if max_win <? max_rcv_win c then set_max_rcv_win max_win c else c in
      (set_rx_queue (removelast (rx_queue c)) c, 1)
  end.

Fixpoint discard_loop (l : list loc) (w : tcp_world E) : option (tcp_world E * Z) :=
  match l with
  | [] => Some (w, 0)
  | tcp :: l =>
      c ← conns w !! tcp;
      let '(c, n) := discard_conn c in
      '(w, m) ← discard_loop l (set_conns (<[tcp := c]> (conns w)) w);
      Some (w, n + m)
  end.

Definition tcp_discard : MT Z := fun w => discard_loop (tcp_conns w) w.

Fixpoint tcp_shutdown (fuel : nat) : MT unit :=
  match fuel with
  | O => fun _ => None
  | S fuel =>
      w ← get;
      match tcp_conns w with
      | [] => mret tt
      | tcp :: _ =>
          _ ← update tcp (fun c => tcp_dump_state (set_tcp_state TCP_CLOSED c));
          _ ← tcp_close tcp (RC_ERR ECANCELED);
          tcp_shutdown fuel
      end
  end.

Definition tcp_xfer_close (tcp : loc) (r : rc) : MT unit :=
  _ ← tcp_close tcp r;
  _ ← tcp_xmit tcp;
  mret tt.

Definition tcp_xfer_deliver (tcp : loc) (iobuf : list Z) : MT rc :=
  _ ← update tcp (fun c => set_tx_queue (tx_queue c ++ [iobuf]) c);
  _ ← pending_data_op pending_get tcp;
  _ ← tcp_xmit tcp;
  mret RC_OK.

End Handlers.
