(* ===== verification/TcpLemmas.v ===== *)
(** * Running the TCP handlers: the lemmas with which the theorems on [Tcp]
    execute the monadic code. *)
From S2P Require Import Prelude LinkedList Malloc Checksum Retry Tcp.

Lemma bind_run {E A B} (m : M E A) (k : A -> M E B) w w' x :
  m w = Some (w', x) -> (m ≫= k) w = k x w'.
Proof. intros H. unfold mbind, M_bind. by rewrite H. Qed.

(** Execution of the first command of a sequence. *)
Tactic Notation "mrun" uconstr(H) := rewrite (bind_run _ _ _ _ _ H).

Lemma ret_run {E A} (x : A) (w : tcp_world E) : (mret x : M E A) w = Some (w, x).
Proof. done. Qed.

Lemma set_conns_id {E} (w : tcp_world E) : set_conns (conns w) w = w.
Proof. by destruct w. Qed.

(** Evaluation of the field accesses of connections. *)
Ltac csimpl := cbn [tcp_flags peer local_port tcp_state prev_tcp_state snd_seq snd_sent snd_win rcv_ack
  rcv_win ts_val ts_recent snd_win_scale rcv_win_scale max_rcv_win tx_queue rx_queue
  pending_flags pending_data new_tcp_created set_tcp_flags set_peer set_local_port
  set_tcp_state set_prev_tcp_state set_snd_seq set_snd_sent set_snd_win set_rcv_ack
  set_rcv_win set_ts_val set_ts_recent set_snd_win_scale set_rcv_win_scale set_max_rcv_win
  set_tx_queue set_rx_queue set_pending_flags set_pending_data set_new_tcp_created].
Tactic Notation "csimpl" "in" hyp(H) := cbn [tcp_flags peer local_port tcp_state prev_tcp_state snd_seq snd_sent snd_win rcv_ack
  rcv_win ts_val ts_recent snd_win_scale rcv_win_scale max_rcv_win tx_queue rx_queue
  pending_flags pending_data new_tcp_created set_tcp_flags set_peer set_local_port
  set_tcp_state set_prev_tcp_state set_snd_seq set_snd_sent set_snd_win set_rcv_ack
  set_rcv_win set_ts_val set_ts_recent set_snd_win_scale set_rcv_win_scale set_max_rcv_win
  set_tx_queue set_rx_queue set_pending_flags set_pending_data set_new_tcp_created] in H.
(** A chain of updates is kept as a chain of equations between variables,
    and flattened from the first connection on: evaluating nested updates
    at once is exponential. *)
Ltac flat H := cbv beta iota zeta delta [tcp_flags peer local_port tcp_state prev_tcp_state snd_seq snd_sent snd_win rcv_ack
  rcv_win ts_val ts_recent snd_win_scale rcv_win_scale max_rcv_win tx_queue rx_queue
  pending_flags pending_data new_tcp_created set_tcp_flags set_peer set_local_port
  set_tcp_state set_prev_tcp_state set_snd_seq set_snd_sent set_snd_win set_rcv_ack
  set_rcv_win set_ts_val set_ts_recent set_snd_win_scale set_rcv_win_scale set_max_rcv_win
  set_tx_queue set_rx_queue set_pending_flags set_pending_data set_new_tcp_created] in H;
  match type of H with ?x = _ => subst x end.

Section Run.
Context {E : Type}.
Implicit Types (w : tcp_world E) (c : tcp_connection).

Lemma get_run w : get w = Some (w, w).
Proof. done. Qed.

Lemma modify_run f w : modify f w = Some (f w, tt).
Proof. done. Qed.

Lemma get_conn_run tcp w c : conns w !! tcp = Some c -> get_conn tcp w = Some (w, c).
Proof. intros H. unfold get_conn. by rewrite H. Qed.

Lemma put_conn_run tcp w c : put_conn tcp c w = Some (set_conns (<[tcp := c]> (conns w)) w, tt).
Proof. done. Qed.

Lemma update_run tcp f w c :
  conns w !! tcp = Some c -> update tcp f w = Some (set_conns (<[tcp := f c]> (conns w)) w, tt).
Proof. intros H. unfold update. by mrun (get_conn_run _ _ _ H). Qed.

Lemma timers_op_run f w s : f (tcp_timers w) = Some s -> timers_op f w = Some (set_tcp_timers s w, tt).
Proof. intros H. unfold timers_op. by rewrite H. Qed.

(** A handler that changed nothing but one connection, which is now [c],
    the timers, now [s], and the count of pending operations. *)
Record acts (tcp : loc) (w w' : tcp_world E) (c : tcp_connection) (s : timer_state) : Prop := Acts {
  act_conns : conns w' = <[tcp := c]> (conns w);
  act_list : tcp_conns w' = tcp_conns w;
  act_listener : listener w' = listener w;
  act_timers : tcp_timers w' = s;
  act_random : random_pool w' = random_pool w;
  act_alloc : alloc_pool w' = alloc_pool w;
  act_ticks : ticks w' = ticks w;
  act_net : net w' = net w }.

Lemma acts_lookup tcp w w' c s : acts tcp w w' c s -> conns w' !! tcp = Some c.
Proof. intros []. rewrite act_conns0. apply lookup_insert_eq. Qed.

Lemma acts_other tcp w w' c s q : acts tcp w w' c s -> q <> tcp -> conns w' !! q = conns w !! q.
Proof. intros [] Hq. rewrite act_conns0. by apply lookup_insert_ne. Qed.

Lemma acts_refl tcp w c : conns w !! tcp = Some c -> acts tcp w w c (tcp_timers w).
Proof. intros H. split; try done. by rewrite insert_id. Qed.

Lemma acts_trans tcp w1 w2 w3 c2 c3 s2 s3 :
  acts tcp w1 w2 c2 s2 -> acts tcp w2 w3 c3 s3 -> acts tcp w1 w3 c3 s3.
Proof. intros [] []. split; try congruence. rewrite act_conns1, act_conns0. apply insert_insert_eq. Qed.

Lemma acts_conn tcp w c : acts tcp w (set_conns (<[tcp := c]> (conns w)) w) c (tcp_timers w).
Proof. by split. Qed.

Lemma acts_set_timers tcp w c s : conns w !! tcp = Some c -> acts tcp w (set_tcp_timers s w) c s.
Proof. intros H. split; try done. simpl. by rewrite insert_id. Qed.

(** Equality up to the counts of pending operations. *)
Definition core c : tcp_connection := set_pending_flags 0 (set_pending_data 0 c).

Lemma pending_flags_run f tcp w c :
  conns w !! tcp = Some c ->
  exists w' n, pending_flags_op f tcp w = Some (w', tt) /\ acts tcp w w' (set_pending_flags n c) (tcp_timers w).
Proof.
  intros H. unfold pending_flags_op. mrun (get_conn_run _ _ _ H).
  mrun (get_run _). destruct (f _ _) as [n total].
  eexists _, n. split; [done|]. by split.
Qed.

Lemma pending_data_run f tcp w c :
  conns w !! tcp = Some c ->
  exists w' n, pending_data_op f tcp w = Some (w', tt) /\ acts tcp w w' (set_pending_data n c) (tcp_timers w).
Proof.
  intros H. unfold pending_data_op. mrun (get_conn_run _ _ _ H).
  mrun (get_run _). destruct (f _ _) as [n total].
  eexists _, n. split; [done|]. by split.
Qed.

Lemma pending_repeat_run k f tcp w c :
  conns w !! tcp = Some c ->
  exists w' n, repeat_op k (pending_data_op f tcp) w = Some (w', tt) /\
    acts tcp w w' (set_pending_data n c) (tcp_timers w).
Proof.
  revert w c. induction k as [|k IH]; intros w c H; simpl.
  - exists w, (pending_data c). split; [done|]. replace (set_pending_data _ c) with c by by destruct c.
    by apply acts_refl.
  - destruct (pending_data_run f tcp w c H) as (w1 & n1 & E1 & A1). mrun E1.
    destruct (IH w1 _ (acts_lookup _ _ _ _ _ A1)) as (w2 & n2 & E2 & A2). exists w2, n2. split; [done|].
    rewrite <- (act_timers _ _ _ _ _ A1). by apply (acts_trans _ _ _ _ _ _ _ _ A1 A2).
Qed.

Lemma pending_opt_run (b : bool) f tcp w c :
  conns w !! tcp = Some c ->
  exists w' n, (if b then pending_flags_op f tcp else mret tt) w = Some (w', tt) /\
    acts tcp w w' (set_pending_flags n c) (tcp_timers w).
Proof.
  intros H. destruct b; [by apply pending_flags_run|]. exists w, (pending_flags c). split; [done|].
  replace (set_pending_flags _ c) with c by by destruct c. by apply acts_refl.
Qed.

Lemma update_opt_run (b : bool) f tcp w c :
  conns w !! tcp = Some c ->
  exists w', (if b then update tcp f else mret tt) w = Some (w', tt) /\
    acts tcp w w' (if b then f c else c) (tcp_timers w).
Proof.
  intros H. destruct b; [|exists w; split; [done|by apply acts_refl]].
  eexists. split; [by apply update_run|apply acts_conn].
Qed.

(** An update with a pending operation for it. *)
Lemma update_pending_run (b : bool) f tcp w c :
  conns w !! tcp = Some c ->
  exists w' n, (if b then _ ← update tcp f; pending_flags_op pending_get tcp else mret tt) w = Some (w', tt) /\
    acts tcp w w' (set_pending_flags n (if b then f c else c)) (tcp_timers w).
Proof.
  intros H. destruct b.
  - mrun (update_run _ _ _ _ H). pose proof (acts_conn tcp w (f c)) as A1.
    destruct (pending_flags_run pending_get tcp _ _ (acts_lookup _ _ _ _ _ A1)) as (w2 & n & E2 & A2).
    exists w2, n. split; [done|]. by apply (acts_trans _ _ _ _ _ _ _ _ A1 A2).
  - exists w, (pending_flags c). split; [done|]. replace (set_pending_flags _ c) with c by by destruct c. by apply acts_refl.
Qed.
End Run.

Tactic Notation "name" constr(A) "as" ident(c) ident(H) :=
  match type of A with acts _ _ _ ?x _ => remember x as c eqn:H end.

(** ** Instances: an application that accepts everything, a network that
    records what is sent, and an established connection at 1 with five
    bytes queued, two of them sent. *)
Definition quiet_env : tcp_env (list (list Z)) :=
  TcpEnv 18 (fun _ _ => 65536) (fun _ _ w => (w, RC_OK)) (fun _ _ w => w) (fun _ _ w => w)
    (fun _ w => w) (fun _ w => w) (fun _ p n => (p :: n, RC_OK)).

Definition established : tcp_connection :=
  Tcp TCP_TS_ENABLED (Sockaddr [10; 0; 0; 2] 6881) 1024 TCP_ESTABLISHED TCP_ESTABLISHED
    1000 2 4096 5000 8192 0 0 9 9 TCP_MAX_WINDOW_SIZE [[1; 2; 3]; [4; 5]] [] 0 2 0.

Definition established_timers (running : bool) : timer_state :=
  Timers (if running then [timer_of 1] else [])
    (<[timer_of 1 := Timer running 40 18 0 100 0 (Some 1%positive)]>
      {[wait_of 1 := Timer false 0 0 0 0 0 (Some 1%positive)]})
    (Refs {[1%positive := 3]} []).

Definition established_world (running : bool) : tcp_world (list (list Z)) :=
  World {[1%positive := established]} [1%positive] None (established_timers running) 2 [] [Some 9%positive] 120 [].

Lemma established_timers_lookup b t x :
  tmr (established_timers b) !! t = Some x ->
  (t = timer_of 1 /\ x = Timer b 40 18 0 100 0 (Some 1%positive)) \/
  (t = wait_of 1 /\ x = Timer false 0 0 0 0 0 (Some 1%positive)).
Proof. simpl. rewrite lookup_insert_Some, lookup_singleton_Some. naive_solver. Qed.

Lemma established_timers_ok b : timers_ok (established_timers b).
Proof.
  split.
  - destruct b; by_decide.
  - intros t. split.
    + destruct b; [intros ->%list_elem_of_singleton; by eexists|by intros ?%not_elem_of_nil].
    + intros (x & [[-> ->]|[-> ->]]%established_timers_lookup & Hr); [|done]. simpl in Hr. subst b. set_solver.
  - intros r. unfold held, ref_count. destruct (decide (r = 1%positive)) as [->|].
    + destruct b; vm_compute; congruence.
    + simpl. rewrite lookup_singleton_ne by congruence. simpl. destruct b; simpl timers; [|done].
      rewrite filter_cons_False, filter_nil; [done|]. unfold holds. simpl. rewrite lookup_insert_eq. simpl. congruence.
  - intros r t. unfold holds. destruct (tmr (established_timers b) !! t) as [x|] eqn:Et; [|done].
    apply established_timers_lookup in Et as [[-> ->]|[-> ->]]; intros [= <-]; by exists 3.
Qed.
