(* ===== verification/TcpView.v ===== *)
(** * Views of the connections: handlers that change nothing of the list of
    connections and of what a view of each connection shows. *)
From S2P Require Import Prelude LinkedList Malloc Checksum Retry Tcp TcpLemmas.

(** A view of a connection that shows none of the fields that transmission
    and the counts of pending operations change. *)
Class Inert {T} (V : tcp_connection -> T) : Prop := {
  inert_local_port p c : V (set_local_port p c) = V c;
  inert_snd_sent n c : V (set_snd_sent n c) = V c;
  inert_rcv_win n c : V (set_rcv_win n c) = V c;
  inert_tx_queue q c : V (set_tx_queue q c) = V c;
  inert_pending_flags n c : V (set_pending_flags n c) = V c;
  inert_pending_data n c : V (set_pending_data n c) = V c;
  inert_ack_sent c : V (set_tcp_flags (Z.land (tcp_flags c) (Z.lnot TCP_ACK_PENDING)) c) = V c }.

Definition view_of {T E} (V : tcp_connection -> T) (w : tcp_world E) : list loc * gmap loc T := (tcp_conns w, V <$> conns w).

(** Whenever the handler returns, the view is as before. *)
Definition same {T E A} (V : tcp_connection -> T) (m : M E A) : Prop :=
  forall w w' x, m w = Some (w', x) -> view_of V w' = view_of V w.

Section Basic.
Context {T E : Type} (V : tcp_connection -> T).


Lemma same_bind {A B} (m : M E A) (k : A -> M E B) : same V m -> (forall x, same V (k x)) -> same V (m ≫= k).
Proof.
  intros Hm Hk w w' x. unfold mbind, M_bind. destruct (m w) as [[w1 y]|] eqn:H; [|done].
  intros H2. rewrite (Hk _ _ _ _ H2). by apply (Hm _ _ _ H).
Qed.

Lemma same_ret {A} (x : A) : same V (mret x : M E A).
Proof. by intros w w' y [= <- _]. Qed.

Lemma same_none {A} : same V ((fun _ => None) : M E A).
Proof. by intros w w' x. Qed.

Lemma same_get : same V (get : M E (tcp_world E)).
Proof. by intros w w' y [= <- _]. Qed.

Lemma same_get_conn tcp : same V (get_conn tcp : M E tcp_connection).
Proof. intros w w' y. unfold get_conn. destruct (_ !! _); [|done]. by intros [= <- _]. Qed.

Lemma same_modify (f : tcp_world E -> tcp_world E) : (forall w, view_of V (f w) = view_of V w) -> same V (modify f).
Proof. intros Hf w w' y [= <- _]. apply Hf. Qed.

Lemma same_call {A} (f : tcp_world E -> tcp_world E * A) : (forall w, view_of V (f w).1 = view_of V w) -> same V (call f).
Proof. intros Hf w w' y [= H]. specialize (Hf w). by rewrite H in Hf. Qed.

Lemma same_timers_op f : same V (timers_op f : M E unit).
Proof. intros w w' y. unfold timers_op. destruct (f _); [|done]. by intros [= <- _]. Qed.

Lemma same_random : same V (random : M E Z).
Proof. intros w w' y. unfold random. destruct (random_pool w); [done|]. by intros [= <- _]. Qed.

Lemma same_alloc : same V (alloc : M E (option loc)).
Proof. intros w w' y. unfold alloc. destruct (alloc_pool w); by intros [= <- _]. Qed.

(** What an update does to the view. *)
Lemma put_view tcp c (w : tcp_world E) :
  view_of V (set_conns (<[tcp := c]> (conns w)) w) = (tcp_conns w, <[tcp := V c]> (view_of V w).2).
Proof. unfold view_of. simpl. by rewrite fmap_insert. Qed.

Lemma same_update tcp f :
  (forall c, V (f c) = V c) -> same V (update tcp f : M E unit).
Proof.
  intros Hf w w' y. unfold update, get_conn, mbind, M_bind. destruct (conns w !! tcp) as [c|] eqn:Hc; [|done].
  simpl. intros [= <- _]. rewrite put_view, Hf. unfold view_of. simpl. rewrite insert_id; [done|].
  by rewrite lookup_fmap, Hc.
Qed.

Lemma put_same tcp c c' (w : tcp_world E) :
  conns w !! tcp = Some c -> V c' = V c -> view_of V (set_conns (<[tcp := c']> (conns w)) w) = view_of V w.
Proof.
  intros Hc Hv. rewrite put_view, Hv. unfold view_of. simpl. rewrite insert_id; [done|]. by rewrite lookup_fmap, Hc.
Qed.

Lemma same_repeat n (m : M E unit) : same V m -> same V (repeat_op n m).
Proof. intros Hm. induction n; simpl; [apply same_ret|]. by apply same_bind. Qed.

End Basic.
Arguments same_bind {T E V A B}.
Arguments same_ret {T E V A}.
Arguments same_modify {T E V}.
Arguments same_call {T E V A}.
Arguments same_update {T E V}.
Arguments put_same {T E V}.
Arguments put_view {T E V}.
Arguments same_repeat {T E V}.

Create HintDb same discriminated.
#[export] Hint Resolve same_ret same_none same_get same_get_conn same_timers_op same_random same_alloc : same.

(** Goes through a handler, command by command. *)
Ltac keep := repeat first
  [ solve [auto with same]
  | solve [apply same_update; intros ?; done]
  | solve [apply same_update; intros ?; auto using inert_local_port, inert_snd_sent, inert_rcv_win]
  | solve [apply same_modify; intros ?; done]
  | apply same_repeat
  | apply same_bind; [|intros ?]
  | match goal with |- same _ (match ?x with _ => _ end) => destruct x end ].

Section Handlers.
Context {T E : Type} (V : tcp_connection -> T) `{!Inert V}.

Lemma same_pending_flags f tcp : same V (pending_flags_op f tcp : M E unit).
Proof.
  intros w w' y. unfold pending_flags_op, get_conn, mbind, M_bind. destruct (conns w !! tcp) as [c|] eqn:Hc; [|done].
  simpl. destruct (f _ _). intros [= <- _]. change (view_of V (set_conns (<[tcp := set_pending_flags z c]> (conns w)) w) = view_of V w).
  apply (put_same _ c); [done|apply inert_pending_flags].
Qed.

Lemma same_pending_data f tcp : same V (pending_data_op f tcp : M E unit).
Proof.
  intros w w' y. unfold pending_data_op, get_conn, mbind, M_bind. destruct (conns w !! tcp) as [c|] eqn:Hc; [|done].
  simpl. destruct (f _ _). intros [= <- _]. change (view_of V (set_conns (<[tcp := set_pending_data z c]> (conns w)) w) = view_of V w).
  apply (put_same _ c); [done|apply inert_pending_data].
Qed.

#[local] Hint Resolve same_pending_flags same_pending_data : same.

Context (env : tcp_env E).

Lemma same_start t : same V (start_timer_op env t).
Proof. unfold start_timer_op. keep. Qed.

Lemma same_start_fixed t tmo : same V (start_timer_fixed_op env t tmo).
Proof. unfold start_timer_fixed_op. keep. Qed.

Lemma same_stop t : same V (stop_timer_op t : M E unit).
Proof. unfold stop_timer_op. keep. Qed.

Lemma same_ref_put t : same V (ref_put_op t : M E unit).
Proof. unfold ref_put_op. keep. Qed.

Lemma same_bind_port tcp port : same V (tcp_bind_port tcp port : M E rc).
Proof. unfold tcp_bind_port. keep. Qed.

Lemma same_bind_loop n tcp port : same V (bind_loop n tcp port : M E rc).
Proof.
  revert port. induction n as [|n IH]; intros port; cbn [bind_loop]; [keep|].
  destruct (_ <? _); [apply IH|]. apply same_bind; [apply same_bind_port|]. intros []; [keep|apply IH].
Qed.

Lemma same_tcp_bind tcp port : same V (tcp_bind tcp port : M E rc).
Proof. unfold tcp_bind. destruct (ctrue port); [apply same_bind_port|]. apply same_bind; [keep|intros r; apply same_bind_loop]. Qed.

Lemma same_process_tx tcp n b : same V (tcp_process_tx_queue tcp n b : M E (list Z * Z)).
Proof.
  unfold tcp_process_tx_queue. intros w w' x. unfold mbind at 1, M_bind at 1, get_conn.
  destruct (conns w !! tcp) as [c|] eqn:Hc; [|done]. simpl. destruct (process_tx _ _ _) as [[[q d] l] k].
  unfold mbind at 1, M_bind at 1. simpl. intros H.
  assert (same V (_ ← repeat_op k (pending_data_op pending_put tcp); mret (d, l) : M E (list Z * Z))) as Hs by keep.
  rewrite (Hs _ _ _ H). apply (put_same _ c); [done|apply inert_tx_queue].
Qed.

Lemma same_tx dest packet : same V (tcpip_tx_op env dest packet).
Proof. apply same_call. intros w. by destruct (net_tx _ _ _ _). Qed.

Lemma same_xmit tcp : same V (tcp_xmit env tcp).
Proof.
  unfold tcp_xmit. apply same_bind; [keep|intros w]. destruct (timer_running _ _) as [[]|]; [keep| |keep].
  apply same_bind; [keep|intros c]. apply same_bind; [keep|intros _]. destruct (_ && _); [keep|].
  apply same_bind; [destruct (ctrue _); [apply same_start|keep]|intros _].
  apply same_bind; [keep|intros [p|]]; [|keep]. apply same_bind; [apply same_process_tx|intros [payload n]].
  apply same_bind; [keep|intros w1]. apply same_bind; [keep|intros _]. apply same_bind; [keep|intros c1].
  apply same_bind; [apply same_tx|intros []]; [|keep]. apply same_bind; [|keep].
  apply same_update. intros c2. apply inert_ack_sent.
Qed.

Lemma same_reset dest a b c d : same V (tcp_xmit_reset env dest a b c d).
Proof. unfold tcp_xmit_reset. apply same_bind; [keep|intros []]; [apply same_tx|keep]. Qed.

Lemma same_demux l p : same V (tcp_demux l p : M E (option loc)).
Proof. intros w w' x. unfold tcp_demux. destruct (demux_loop _ _ _ _ _); [|done]. by intros [= <- _]. Qed.
End Handlers.

#[export] Hint Resolve same_pending_flags same_pending_data same_start same_start_fixed same_stop same_ref_put same_tcp_bind
  same_process_tx same_tx same_xmit same_reset same_demux : same.
#[export] Hint Extern 1 (Inert _) => typeclasses eauto : same.

(** ** Steps of a handler that returned. *)
Lemma bind_inv {E A B} (m : M E A) (k : A -> M E B) w w' x :
  (m ≫= k) w = Some (w', x) -> exists w1 y, m w = Some (w1, y) /\ k y w1 = Some (w', x).
Proof. unfold mbind, M_bind. destruct (m w) as [[w1 y]|]; [|done]. eauto. Qed.

Tactic Notation "minv" hyp(H) "as" ident(w1) ident(y) ident(H1) :=
  apply bind_inv in H as (w1 & y & H1 & H).

Lemma update_shows {T E} (V : tcp_connection -> T) tcp f (w w' : tcp_world E) x :
  update tcp f w = Some (w', x) ->
  exists c, conns w !! tcp = Some c /\ view_of V w' = ((view_of V w).1, <[tcp := V (f c)]> (view_of V w).2).
Proof.
  unfold update, get_conn, mbind, M_bind. destruct (conns w !! tcp) as [c|] eqn:Hc; [|done].
  simpl. intros [= <- _]. exists c. split; [done|]. apply put_view.
Qed.

Lemma conn_shows {T E} (V : tcp_connection -> T) tcp (w : tcp_world E) c : conns w !! tcp = Some c -> (view_of V w).2 !! tcp = Some (V c).
Proof. intros H. unfold view_of. simpl. by rewrite lookup_fmap, H. Qed.

Lemma get_conn_shows {T E} (V : tcp_connection -> T) tcp (w w' : tcp_world E) c :
  get_conn tcp w = Some (w', c) -> w' = w /\ conns w !! tcp = Some c /\ (view_of V w).2 !! tcp = Some (V c).
Proof.
  unfold get_conn. destruct (conns w !! tcp) as [c'|] eqn:Hc; [|done]. intros [= <- <-]. split_and!; try done.
  by apply conn_shows.
Qed.

Lemma init_conn_shows {T E} (V : tcp_connection -> T) tcp c (w w' : tcp_world E) x :
  init_conn tcp c w = Some (w', x) -> view_of V w' = ((view_of V w).1, <[tcp := V c]> (view_of V w).2).
Proof. unfold init_conn, mbind, M_bind. simpl. intros [= <- _]. apply put_view. Qed.

(** Skips a command that keeps the view [P] is about. *)
Tactic Notation "mskip" hyp(K) hyp(P) :=
  let w := fresh "w" in let y := fresh "y" in let H := fresh "H" in let S := fresh "S" in
  apply bind_inv in K as (w & y & H & K);
  match type of P with
  | context [view_of ?V _] =>
      match type of H with
      | ?m ?v = Some (?v', ?x) => assert (same V m) as S by keep; apply S in H; rewrite <- H in P; clear S H
      end
  end.
