(* ===== verification/TcpApp.v ===== *)
(** * The application above TCP: what it may do when TCP calls it.

    TCP calls the application when data arrives, when the connection is
    closed, when a listening connection gets a child and when the transmit
    window changes.  The application may then call back into TCP: open
    connections, send on them and close them, any number of times, as the
    HTTP, FTP, iSCSI and BitTorrent code does; a call may again lead to a call
    of the application, to any finite depth. *)
From S2P Require Import Prelude LinkedList Malloc Checksum Retry Tcp TcpLemmas.

Section App.
Context {E : Type}.
Implicit Types (w : tcp_world E) (env : tcp_env E).

(** Everything but the connections and their list may have changed. *)
Definition outside w w' : Prop := conns w' = conns w /\ tcp_conns w' = tcp_conns w.

(** Whether the memory allocator may, meanwhile, call TCP's discarder. *)
Variable discards : Prop.

(** The calls of TCP's interface.  An address that is allocated is not the
    one of a connection in the list. *)
Inductive api_call env : tcp_world E -> tcp_world E -> Prop :=
| call_open st_peer st_local w w' r :
    (forall p l, alloc_pool w = Some p :: l -> p ∉ tcp_conns w) ->
    tcp_open env st_peer st_local w = Some (w', r) -> api_call env w w'
| call_close tcp r w w' : tcp_xfer_close env tcp r w = Some (w', tt) -> api_call env w w'
| call_deliver tcp data w w' r : tcp_xfer_deliver env tcp data w = Some (w', r) -> api_call env w w'
| call_discard w w' n : discards -> tcp_discard w = Some (w', n) -> api_call env w w'.

(** An application whose methods are runs of such calls; the methods that
    run meanwhile are those of an application again.  Plugging two interfaces
    together calls nobody. *)
Inductive client : tcp_env E -> Prop :=
| Client env :
    (forall tcp data w, runs w (xfer_deliver_iob env tcp data w).1) ->
    (forall tcp r w, runs w (intf_shutdown env tcp r w)) ->
    (forall l tcp w, runs w (xfer_open_child env l tcp w)) ->
    (forall tcp w, runs w (xfer_window_changed env tcp w)) ->
    (forall tcp w, outside w (plug_parent env tcp w)) ->
    client env
with runs : tcp_world E -> tcp_world E -> Prop :=
| runs_end w w' : outside w w' -> runs w w'
| runs_call env w w1 w2 w' : outside w w1 -> client env -> api_call env w1 w2 -> runs w2 w' -> runs w w'.

Scheme client_runs_ind := Minimality for client Sort Prop
  with runs_client_ind := Minimality for runs Sort Prop.

(** The methods of an application change the world only by [R]. *)
Record methods_by (R : tcp_world E -> tcp_world E -> Prop) env : Prop := MethodsBy {
  by_deliver tcp data w : R w (xfer_deliver_iob env tcp data w).1;
  by_shutdown tcp r w : R w (intf_shutdown env tcp r w);
  by_child l tcp w : R w (xfer_open_child env l tcp w);
  by_changed tcp w : R w (xfer_window_changed env tcp w);
  by_plug tcp w : outside w (plug_parent env tcp w) }.

(** A relation between worlds that every call of the interface keeps to,
    provided the methods called meanwhile do, is kept to by the methods. *)
Lemma client_methods (R : tcp_world E -> tcp_world E -> Prop) env :
  (forall w w', outside w w' -> R w w') -> (forall w1 w2 w3, R w1 w2 -> R w2 w3 -> R w1 w3) ->
  (forall env w w', methods_by R env -> api_call env w w' -> R w w') ->
  client env -> methods_by R env.
Proof.
  intros Hout Htrans Hcall. induction 1 using client_runs_ind with (P0 := R).
  - by split.
  - by apply Hout.
  - eauto 10.
Qed.
End App.
Arguments client {E} discards env.
Arguments runs {E} discards w w'.
