(* ===== verification/TcpTx.v ===== *)
(** * The transmit side of TCP: theorems on the model of [Tcp].

    The transmit queue is the unacknowledged suffix of the byte stream the
    application has sent: its concatenation is what is shown to be sent,
    retransmitted and acknowledged. *)
From S2P Require Import Prelude LinkedList Malloc Checksum Retry Tcp TcpLemmas.

(** The unacknowledged data of a connection. *)
Definition unacked (c : tcp_connection) : list Z := concat (tx_queue c).

Lemma take_min {A} (n : nat) (l : list A) (k : Z) :
  n = Z.to_nat (Z.min k (zlen l)) -> take n l = take (Z.to_nat k) l.
Proof.
  intros ->. destruct (decide (k <= zlen l)).
  - by replace (Z.min k (zlen l)) with k by lia.
  - rewrite !take_ge by lia. done.
Qed.

Lemma process_tx_spec q max_len remove :
  0 <= max_len ->
  exists q' n, process_tx q max_len remove =
      (q', take (Z.to_nat max_len) (concat q), Z.min max_len (zlen (concat q)), n) /\
    (remove = false -> q' = q /\ n = O) /\
    (remove = true -> concat q' = drop (Z.to_nat max_len) (concat q) /\ (n + length q' = length q)%nat).
Proof.
  revert max_len. induction q as [|b q IH]; intros max_len Hm; simpl.
  { exists [], O. rewrite take_nil, drop_nil. split; [do 3 f_equal; lia|done]. }
  set (frag := if max_len <? zlen b then max_len else zlen b).
  assert (frag = Z.min max_len (zlen b)) as Hf by (unfold frag; zcases).
  clearbody frag. subst frag. rewrite length_app.
  destruct (IH (max_len - Z.min max_len (zlen b)) ltac:(lia)) as (q' & n & -> & Hk & Hr).
  assert (take (Z.to_nat (Z.min max_len (zlen b))) b ++
          take (Z.to_nat (max_len - Z.min max_len (zlen b))) (concat q) =
          take (Z.to_nat max_len) (b ++ concat q)) as Ed.
  { rewrite take_app. f_equal; [by apply take_min|]. f_equal. lia. }
  assert (drop (Z.to_nat (Z.min max_len (zlen b))) b ++
          drop (Z.to_nat (max_len - Z.min max_len (zlen b))) (concat q) =
          drop (Z.to_nat max_len) (b ++ concat q)) as Edr.
  { rewrite drop_app. f_equal; [|f_equal; lia]. destruct (decide (max_len <= zlen b)).
    - by replace (Z.min max_len (zlen b)) with max_len by lia.
    - rewrite !drop_ge by lia. done. }
  assert (Z.min (max_len - Z.min max_len (zlen b)) (zlen (concat q)) + Z.min max_len (zlen b) =
          Z.min max_len (Z.of_nat (length b + length (concat q)))) as El by lia.
  rewrite Ed, El. destruct remove.
  - destruct (Hr eq_refl) as [Hc Hn]. unfold ctrue.
    destruct (Z.eqb_spec (zlen (drop (Z.to_nat (Z.min max_len (zlen b))) b)) 0) as [Hz|Hz]; simpl.
    + eexists _, _. split; [done|]. split; [done|]. intros _. split; [|lia].
      rewrite Hc, <- Edr. destruct (drop _ b); [done|simpl in Hz; lia].
    + eexists _, _. split; [done|]. split; [done|]. intros _. simpl. rewrite Hc, Edr. split; [done|lia].
  - destruct (Hk eq_refl) as [-> ->]. eexists _, _. split; [done|]. done.
Qed.

Lemma process_tx_queue_run {E} tcp (w : tcp_world E) c max_len remove :
  conns w !! tcp = Some c -> 0 <= max_len ->
  exists w' q n, tcp_process_tx_queue tcp max_len remove w =
      Some (w', (take (Z.to_nat max_len) (unacked c), Z.min max_len (zlen (unacked c)))) /\
    acts tcp w w' (set_pending_data n (set_tx_queue q c)) (tcp_timers w) /\
    (if remove then concat q = drop (Z.to_nat max_len) (unacked c)
     else q = tx_queue c /\ n = pending_data c).
Proof.
  intros H Hm. unfold tcp_process_tx_queue. mrun (get_conn_run _ _ _ H).
  destruct (process_tx_spec (tx_queue c) max_len remove Hm) as (q & k & -> & Hkeep & Hrem).
  mrun (put_conn_run _ _ _). pose proof (acts_conn tcp w (set_tx_queue q c)) as A1.
  destruct remove.
  - destruct (pending_repeat_run k pending_put tcp _ _ (acts_lookup _ _ _ _ _ A1)) as (w2 & n2 & E2 & A2).
    mrun E2. exists w2, q, n2. split; [done|]. split; [|by apply Hrem].
    by apply (acts_trans _ _ _ _ _ _ _ _ A1 A2).
  - destruct (Hkeep eq_refl) as [-> ->]. cbn [repeat_op]. mrun (ret_run _ _).
    eexists _, (tx_queue c), (pending_data c). split; [done|]. split; [|done].
    replace (set_pending_data _ _) with (set_tx_queue (tx_queue c) c); [done|by destruct c].
Qed.

(** The SYN or FIN that an acknowledgement covers. *)
Definition acked_flags (c : tcp_connection) : Z :=
  Z.land (TCP_FLAGS_SENDING (tcp_state c)) (Z.lor TCP_SYN TCP_FIN).

(** The state after an acknowledgement, when it leaves the given data
    unacknowledged. *)
Definition acked_state (c : tcp_connection) (left_ : list (list Z)) : Z :=
  let st := if ctrue (acked_flags c) then Z.lor (tcp_state c) (TCP_STATE_ACKED (acked_flags c))
            else tcp_state c in
  if match left_ with [] => true | _ => false end && ctrue (Z.land (tcp_flags c) TCP_XFER_CLOSED) &&
     negb (ctrue (Z.land st (TCP_STATE_SENT TCP_FIN)))
  then Z.lor st (TCP_STATE_SENT TCP_FIN) else st.

(** What accepting an acknowledgement does to a connection. *)
Record ack_accepted (c : tcp_connection) (ack win : Z) (c' : tcp_connection) : Prop := AckAccepted {
  ack_seq : snd_seq c' = ack;
  ack_sent : snd_sent c' = 0;
  ack_win : snd_win c' = win;
  ack_data : unacked c' =
    drop (Z.to_nat (u32 (ack - snd_seq c) - (if ctrue (acked_flags c) then 1 else 0))) (unacked c);
  ack_state : tcp_state c' = acked_state c (tx_queue c');
  ack_flags : tcp_flags c' = tcp_flags c;
  ack_prev : prev_tcp_state c' = prev_tcp_state c;
  ack_addr : peer c' = peer c /\ local_port c' = local_port c;
  ack_rx : rcv_ack c' = rcv_ack c /\ rcv_win c' = rcv_win c /\ rx_queue c' = rx_queue c }.

Lemma rx_ack_accept {E} tcp (w : tcp_world E) c ack win s1 :
  conns w !! tcp = Some c -> 0 < u32 (ack - snd_seq c) <= snd_sent c ->
  stop_timer (ticks w) (timer_of tcp) (tcp_timers w) = Some s1 ->
  exists w' c', tcp_rx_ack tcp ack win w = Some (w', RC_OK) /\
    ack_accepted c ack win c' /\ acts tcp w w' c' s1.
Proof.
  intros H Hl Hs. unfold tcp_rx_ack. mrun (get_conn_run _ _ _ H).
  set (len := u32 (ack - snd_seq c)) in *. destruct (Z.ltb_spec (snd_sent c) len); [lia|].
  destruct (Z.eqb_spec len 0); [lia|]. fold (acked_flags c).
  assert (stop_timer_op (timer_of tcp) w = Some (set_tcp_timers s1 w, tt)) as E1.
  { unfold stop_timer_op. mrun (get_run _). by apply timers_op_run. }
  mrun E1. pose proof (acts_set_timers tcp w c s1 H) as A1.
  destruct (pending_opt_run (ctrue (acked_flags c)) pending_put tcp _ _ (acts_lookup _ _ _ _ _ A1)) as (w2 & m & E2 & A2).
  mrun E2. apply (acts_trans _ _ _ _ _ _ _ _ A1) in A2. name A2 as c2 Hc2.
  mrun (update_run _ _ _ _ (acts_lookup _ _ _ _ _ A2)).
  pose proof (acts_conn tcp w2 (set_snd_win win (set_snd_sent 0 (set_snd_seq ack c2)))) as A3.
  apply (acts_trans _ _ _ _ _ _ _ _ A2) in A3. name A3 as c3 Hc3.
  assert ((if ctrue (acked_flags c) then u32 (len - 1) else len) = len - (if ctrue (acked_flags c) then 1 else 0)) as ->.
  { pose proof (wrap_range 32 (ack - snd_seq c)). destruct (ctrue _); [apply wrap_small; lia|lia]. }
  destruct (process_tx_queue_run tcp _ _ (len - (if ctrue (acked_flags c) then 1 else 0)) true
    (acts_lookup _ _ _ _ _ A3)) as (w4 & q & n4 & E4 & A4 & Hq); [destruct (ctrue _); lia|].
  mrun E4. apply (acts_trans _ _ _ _ _ _ _ _ A3) in A4. name A4 as c4 Hc4.
  destruct (update_opt_run (ctrue (acked_flags c))
    (fun c0 => set_tcp_state (Z.lor (tcp_state c0) (TCP_STATE_ACKED (acked_flags c))) c0)
    tcp w4 _ (acts_lookup _ _ _ _ _ A4)) as (w5 & E5 & A5).
  mrun E5. apply (acts_trans _ _ _ _ _ _ _ _ A4) in A5. name A5 as c5 Hc5.
  mrun (get_conn_run _ _ _ (acts_lookup _ _ _ _ _ A5)).
  destruct (update_pending_run (match tx_queue c5 with [] => true | _ => false end &&
      ctrue (Z.land (tcp_flags c5) TCP_XFER_CLOSED) && negb (ctrue (Z.land (tcp_state c5) (TCP_STATE_SENT TCP_FIN))))
    (fun c => set_tcp_state (Z.lor (tcp_state c) (TCP_STATE_SENT TCP_FIN)) c)
    tcp w5 _ (acts_lookup _ _ _ _ _ A5)) as (w6 & m6 & E6 & A6).
  mrun E6. apply (acts_trans _ _ _ _ _ _ _ _ A5) in A6. name A6 as c6 Hc6.
  exists w6, c6. split; [done|]. split.
  - clear - Hq Hc2 Hc3 Hc4 Hc5 Hc6. unfold len in *. clear len.
    set (af := acked_flags c) in *. set (alen := u32 _ - _) in *.
    assert (af = acked_flags c) as Haf by done. clearbody af.
    destruct (ctrue af) eqn:Ef; destruct c; flat Hc2; flat Hc3; flat Hc4; flat Hc5;
      match type of Hc6 with context [if ?b then _ else _] => destruct b eqn:Eb end; csimpl in Eb; flat Hc6;
      split; try done; unfold acked_state; rewrite <- Haf, Ef; cbv zeta; csimpl; try (by rewrite Eb); exact Hq.
  - rewrite (act_timers _ _ _ _ _ A5), (act_timers _ _ _ _ _ A4) in A6. simpl in A6.
    by rewrite (act_timers _ _ _ _ _ A2) in A6.
Qed.

(** C15: an acknowledgement of nothing new changes nothing, one outside what
    was sent changes nothing and is an error unless the connection has been
    established, and an acknowledgement of new sequence space removes from
    the transmit queue exactly the acknowledged bytes (not counting a SYN or
    FIN), advances SEQ to it, records the window, stops the retransmission
    timer and moves the state on, touching no other connection. *)
Theorem tcp_rx_ack_spec {E} (w : tcp_world E) tcp c x ack win :
  conns w !! tcp = Some c -> timers_ok (tcp_timers w) -> tmr (tcp_timers w) !! timer_of tcp = Some x ->
  (snd_sent c < u32 (ack - snd_seq c) -> tcp_rx_ack tcp ack win w =
     Some (w, if TCP_HAS_BEEN_ESTABLISHED (tcp_state c) then RC_OK else RC_ERR EINVAL)) /\
  (u32 (ack - snd_seq c) = 0 -> 0 <= snd_sent c -> tcp_rx_ack tcp ack win w = Some (w, RC_OK)) /\
  (0 < u32 (ack - snd_seq c) <= snd_sent c ->
     exists w' c', tcp_rx_ack tcp ack win w = Some (w', RC_OK) /\ ack_accepted c ack win c' /\
       conns w' = <[tcp := c']> (conns w) /\ net w' = net w /\
       timers_ok (tcp_timers w') /\ timer_of tcp ∉ timers (tcp_timers w')).
Proof.
  intros H Hok Hx. split_and!.
  - intros Hl. unfold tcp_rx_ack. mrun (get_conn_run _ _ _ H).
    destruct (Z.ltb_spec (snd_sent c) (u32 (ack - snd_seq c))); [|lia]. by destruct (TCP_HAS_BEEN_ESTABLISHED _).
  - intros Hl Hs. unfold tcp_rx_ack. mrun (get_conn_run _ _ _ H). rewrite Hl.
    destruct (Z.ltb_spec (snd_sent c) 0); [lia|done].
  - intros Hl. destruct (stop_timer_run (ticks w) _ _ _ Hok Hx) as (s1 & Es & Hok1 & Hni & _).
    destruct (rx_ack_accept tcp w c ack win s1 H Hl Es) as (w' & c' & E' & Ha & A).
    exists w', c'. destruct A. subst s1. by split_and!.
Qed.

(** ** Transmission.  What is to be sent, read off the bits of the state: the
    low byte has the flags that were sent, the next byte those of them that
    were acknowledged.  Data goes out once the SYN (bit 1) is acknowledged
    and until the FIN (bit 0) is sent; as much as the peer's window, the MTU
    of 1460 bytes and the unacknowledged data allow. *)
Definition may_send (s : Z) : bool := Z.testbit s 9 && negb (Z.testbit s 0).
Definition unacked_syn_fin (s : Z) : bool :=
  (Z.testbit s 1 && negb (Z.testbit s 9)) || (Z.testbit s 0 && negb (Z.testbit s 8)).
Definition xmit_len (c : tcp_connection) : Z :=
  if may_send (tcp_state c) then Z.min (Z.min (snd_win c) 1460) (zlen (unacked c)) else 0.
Definition xmit_seq_len (c : tcp_connection) : Z :=
  xmit_len c + (if unacked_syn_fin (tcp_state c) then 1 else 0).

Lemma may_send_model s : TCP_CAN_SEND_DATA s = may_send s.
Proof.
  unfold TCP_CAN_SEND_DATA, may_send. change (Z.lor (TCP_STATE_ACKED TCP_SYN) (TCP_STATE_SENT TCP_FIN)) with 513.
  change (TCP_STATE_ACKED TCP_SYN) with 512. apply eq_true_iff_eq. rewrite Z.eqb_eq, andb_true_iff, negb_true_iff. split.
  - intros H. pose proof (f_equal (fun x => Z.testbit x 9) H) as H9. pose proof (f_equal (fun x => Z.testbit x 0) H) as H0.
    cbn beta in H9, H0. rewrite Z.land_spec in H9, H0. change (Z.testbit 513 9) with true in H9. change (Z.testbit 513 0) with true in H0.
    rewrite andb_true_r in H9, H0. by rewrite H9, H0.
  - intros [H9 H0]. apply Z.bits_inj'. intros n Hn. rewrite Z.land_spec.
    destruct (decide (n = 9)) as [-> |]; [by rewrite H9|]. destruct (decide (n = 0)) as [-> |]; [by rewrite H0|].
    change 513 with (Z.lor (2 ^ 9) (2 ^ 0)). change 512 with (2 ^ 9). rewrite Z.lor_spec, !Z.pow2_bits_eqb by lia.
    by rewrite (proj2 (Z.eqb_neq 9 n)), (proj2 (Z.eqb_neq 0 n)), andb_false_r by lia.
Qed.

(** The flags that are sent: those sent before and not acknowledged. *)
Definition sending_flags (s : Z) : Z := Z.ldiff (s mod 256) (s / 256 mod 256).

Lemma sending_model s : TCP_FLAGS_SENDING s = sending_flags s.
Proof.
  unfold TCP_FLAGS_SENDING, TCP_FLAGS_SENT, TCP_FLAGS_ACKED, sending_flags. rewrite <- Z.ldiff_land, Z.shiftr_0_r.
  change 255 with (Z.ones 8). rewrite !Z.land_ones, Z.shiftr_div_pow2 by lia. done.
Qed.

Lemma sending_bit s n : 0 <= n < 8 -> Z.testbit (sending_flags s) n = Z.testbit s n && negb (Z.testbit s (n + 8)).
Proof.
  intros Hn. unfold sending_flags. rewrite Z.ldiff_spec. change 256 with (2 ^ 8). rewrite !Z.mod_pow2_bits_low by lia.
  by rewrite Z.div_pow2_bits by lia.
Qed.

Lemma land_small_bits x : Z.land x 3 = 0 <-> Z.testbit x 0 = false /\ Z.testbit x 1 = false.
Proof.
  split.
  - intros H. pose proof (f_equal (fun y => Z.testbit y 0) H) as H0. pose proof (f_equal (fun y => Z.testbit y 1) H) as H1.
    cbn beta in H0, H1. rewrite Z.land_spec, andb_true_r in H0, H1. done.
  - intros [H0 H1]. apply Z.bits_inj'. intros n Hn. rewrite Z.land_spec, Z.bits_0.
    destruct (decide (n = 0)) as [-> |]; [by rewrite H0|]. destruct (decide (n = 1)) as [-> |]; [by rewrite H1|].
    change 3 with (Z.ones 2). rewrite Z.ones_spec_high by lia. apply andb_false_r.
Qed.

Lemma syn_fin_model s : ctrue (Z.land (TCP_FLAGS_SENDING s) (Z.lor TCP_SYN TCP_FIN)) = unacked_syn_fin s.
Proof.
  rewrite sending_model. change (Z.lor TCP_SYN TCP_FIN) with 3. unfold ctrue, unacked_syn_fin.
  change 9 with (1 + 8). change 8 with (0 + 8) at 2. rewrite <- !sending_bit by lia. apply eq_true_iff_eq.
  rewrite negb_true_iff, Z.eqb_neq, land_small_bits, orb_true_iff. destruct (Z.testbit _ 0), (Z.testbit _ 1); intuition congruence.
Qed.

Lemma xmit_win_model c : may_send (tcp_state c) = true -> tcp_xmit_win c = Z.min (snd_win c) 1460.
Proof. intros H. unfold tcp_xmit_win, TCP_PATH_MTU. rewrite may_send_model, H. simpl. zcases. Qed.

Lemma xmit_len_range c : 0 <= snd_win c -> 0 <= xmit_len c <= 1460.
Proof. intros H. unfold xmit_len. destruct (may_send _); lia. Qed.

Lemma xmit_len_model c :
  0 <= snd_win c ->
  (if TCP_CAN_SEND_DATA (tcp_state c) then (process_tx (tx_queue c) (tcp_xmit_win c) false).1.2 else 0) = xmit_len c.
Proof.
  intros H. unfold xmit_len. rewrite may_send_model. destruct (may_send _) eqn:E; [|done]. rewrite xmit_win_model by done.
  by destruct (process_tx_spec (tx_queue c) (Z.min (snd_win c) 1460) false ltac:(lia)) as (q & n & -> & _).
Qed.

(** What [tcp_xmit] leaves of a connection alone. *)
Definition xmit_keeps (c c' : tcp_connection) : Prop :=
  snd_seq c' = snd_seq c /\ tcp_state c' = tcp_state c /\ tx_queue c' = tx_queue c /\
  rcv_ack c' = rcv_ack c /\ rx_queue c' = rx_queue c /\ peer c' = peer c /\ local_port c' = local_port c /\
  snd_win c' = snd_win c /\ rcv_win c <= rcv_win c'.


(** ** Segments. *)
Lemma with_csum_app a b :
  length a = 16%nat -> bytes_ok a -> bytes_ok b ->
  exists x y, with_csum (a ++ [0; 0] ++ b) = a ++ [x; y] ++ b /\ is_byte x /\ is_byte y /\
    tcpip_chksum (a ++ [x; y] ++ b) = 0.
Proof.
  intros Ha Hoa Hob. unfold with_csum. set (csum := tcpip_chksum _).
  exists (csum mod 256), (csum / 256). split_and!.
  - rewrite take_app_length' by done. f_equal. f_equal.
    replace 18%nat with (length (a ++ [0; 0])) by (rewrite length_app; simpl; lia).
    rewrite app_assoc. apply drop_app_length.
  - apply Z.mod_pos_bound. lia.
  - assert (0 <= csum < 65536) by apply (wrap_range 16 _ ltac:(lia)). unfold is_byte. zdm.
  - apply chksum_fill; [done..|by rewrite Ha].
Qed.

(** The options of a segment. *)
Definition segment_options (c : tcp_connection) (flags now : Z) : list Z :=
  (if Z.testbit flags 1 || Z.testbit (tcp_flags c) 1 then [1; 1; 8; 10] ++ be_bytes 4 now ++ be_bytes 4 (ts_recent c) else []) ++
  (if Z.testbit flags 1 then [1; 3; 3; 9] ++ [2; 4; 5; 180] else []).

Lemma ctrue_land_pow2 x n : 0 <= n -> ctrue (Z.land x (2 ^ n)) = Z.testbit x n.
Proof.
  intros Hn. unfold ctrue. destruct (Z.eqb_spec (Z.land x (2 ^ n)) 0) as [H|H]; cbn [negb].
  - pose proof (f_equal (fun y => Z.testbit y n) H) as Hb. cbn beta in Hb. rewrite Z.land_spec, Z.pow2_bits_true, Z.bits_0, andb_true_r in Hb by lia. done.
  - destruct (Z.testbit x n) eqn:E; [done|]. destruct H. apply Z.bits_inj'. intros m Hm. rewrite Z.land_spec, Z.pow2_bits_eqb, Z.bits_0 by lia.
    destruct (Z.eqb_spec n m) as [<-|]; [by rewrite E|apply andb_false_r].
Qed.

Lemma segment_options_model c flags now :
  (if ctrue (Z.land flags TCP_SYN) || ctrue (Z.land (tcp_flags c) TCP_TS_ENABLED) then ts_option now (ts_recent c) else []) ++
  (if ctrue (Z.land flags TCP_SYN) then ws_option ++ mss_option else []) = segment_options c flags now.
Proof.
  unfold segment_options, TCP_SYN, TCP_TS_ENABLED. change 2 with (2 ^ 1) at 1 2 3. by rewrite !ctrue_land_pow2 by lia.
Qed.

Lemma segment_options_spec c flags now :
  bytes_ok (segment_options c flags now) /\
  In (zlen (segment_options c flags now)) [0; 12; 20].
Proof.
  unfold segment_options. destruct (Z.testbit flags 1); cbn [orb]; cbn iota.
  - split; [|simpl; auto]. repeat apply Forall_app_2; try apply be_bytes_ok; by_decide.
  - rewrite app_nil_r. destruct (Z.testbit (tcp_flags c) 1); [|split; [constructor|by left]].
    split; [|by right; left]. repeat apply Forall_app_2; try apply be_bytes_ok. by_decide.
Qed.

(** A segment, byte by byte: the ports, SEQ, ACK, the length of the header
    in words, the flags (with PSH when there is data), the window, the
    checksum, no urgent pointer, the options and the data. *)
Definition segment_bytes (c : tcp_connection) (flags now win : Z) (csum payload : list Z) : list Z :=
  let options := segment_options c flags now in
  be_bytes 2 (local_port c) ++ be_bytes 2 (st_port (peer c)) ++ be_bytes 4 (snd_seq c) ++ be_bytes 4 (rcv_ack c) ++
  [16 * (5 + zlen options / 4); match payload with [] => flags | _ => Z.lor flags 8 end] ++ be_bytes 2 win ++ csum ++ [0; 0] ++ options ++ payload.

Lemma segment_model c flags now payload : 0 <= flags < 2 ^ 8 -> 0 <= rcv_win_scale c -> bytes_ok payload ->
  exists x y, let p := segment_bytes c flags now (rcv_win c / 2 ^ rcv_win_scale c) [x; y] payload in
    tcp_segment c flags now payload = p /\ tcpip_chksum p = 0.
Proof.
  intros Hfl Hsc Hpl. unfold tcp_segment, segment_bytes. rewrite segment_options_model, Z.shiftr_div_pow2 by done.
  set (fl := match payload with [] => flags | _ => Z.lor flags TCP_PSH end).
  assert (0 <= fl < 2 ^ 8) as Hf.
  { unfold fl. destruct payload; [done|]. apply lor_range; [lia|done|by unfold TCP_PSH]. }
  change (match payload with [] => flags | _ => Z.lor flags 8 end) with fl. clearbody fl.
  destruct (segment_options_spec c flags now) as [Hob Hol]. set (opts := segment_options c flags now) in *. clearbody opts.
  assert (u8 (Z.shiftl (TCP_HLEN + zlen opts) 2) = 16 * (5 + zlen opts / 4) /\ is_byte (16 * (5 + zlen opts / 4))) as [Eh Hh].
  { destruct Hol as [Hol|[Hol|[Hol|[]]]]; rewrite <- Hol; by_decide. }
  unfold tcp_header. rewrite Eh, (wrap_small 8 fl) by lia. set (hl := 16 * _) in *. clearbody hl.
  set (win := _ / _). clearbody win.
  destruct (with_csum_app (be_bytes 2 (local_port c) ++ be_bytes 2 (st_port (peer c)) ++ be_bytes 4 (snd_seq c) ++ be_bytes 4 (rcv_ack c) ++
    [hl; fl] ++ be_bytes 2 win) ([0; 0] ++ opts ++ payload)) as (x & y & E & _ & _ & Hc).
  - done.
  - repeat apply Forall_app_2; try apply be_bytes_ok. apply Forall_cons_2; [done|]. by apply Forall_cons_2.
  - repeat apply Forall_app_2; try done. by_decide.
  - exists x, y. rewrite <- !app_assoc in E, Hc. rewrite <- !app_assoc. exact (conj E Hc).
Qed.

(** The receive window that a segment announces: the larger one of the window
    so far and what the application, the limit of the connection and the
    window field allow, in whole words. *)
Definition advertised (c : tcp_connection) (app_win : Z) : Z :=
  Z.max (rcv_win c) (4 * (Z.min (Z.min app_win (max_rcv_win c)) ((65535 * 2 ^ rcv_win_scale c) mod 2 ^ 32) / 4)).

Lemma advertised_model c app_win : 0 <= rcv_win_scale c -> expand_window c app_win = advertised c app_win.
Proof.
  intros H. unfold expand_window, advertised, wrap. rewrite Z.shiftl_mul_pow2 by done. set (cap := _ mod _). clearbody cap.
  set (m := if cap <? _ then _ else _). assert (m = Z.min (Z.min app_win (max_rcv_win c)) cap) as -> by (unfold m; zcases).
  set (k := Z.min _ _). rewrite <- Z.ldiff_land. change 3 with (Z.ones 2).
  rewrite Z.ldiff_ones_r, Z.shiftl_mul_pow2, Z.shiftr_div_pow2 by lia. change (2 ^ 2) with 4. zcases.
Qed.

Section Xmit.
Context {E : Type} (env : tcp_env E).

(** The second half of [tcp_xmit]: building and sending the segment. *)
Lemma xmit_send_run tcp (w : tcp_world E) c flags len :
  conns w !! tcp = Some c -> 0 <= len ->
  exists w' c' r w1 rwin, (
      '(payload, _) ← tcp_process_tx_queue tcp len false;
      w ← get;
      let app_win := xfer_window env tcp w in
      _ ← update tcp (fun c => set_rcv_win (expand_window c app_win) c);
      c ← get_conn tcp;
      r ← tcpip_tx_op env (peer c) (tcp_segment c flags (ticks w) payload);
      match r with
      | RC_ERR e => mret (RC_ERR e)
      | RC_OK =>
          _ ← update tcp (fun c => set_tcp_flags (Z.land (tcp_flags c) (Z.lnot TCP_ACK_PENDING)) c);
          mret RC_OK
      end) w = Some (w', r) /\
    conns w' = <[tcp := c']> (conns w) /\ tcp_timers w' = tcp_timers w /\
    conns w1 = conns w /\ net w1 = net w /\ rwin = expand_window c (xfer_window env tcp w1) /\
    (net w', r) = net_tx env (peer c)
       (tcp_segment (set_rcv_win rwin c) flags (ticks w) (take (Z.to_nat len) (unacked c))) (net w) /\
    c' = set_tcp_flags (match r with RC_OK => Z.land (tcp_flags c) (Z.lnot TCP_ACK_PENDING) | _ => tcp_flags c end)
           (set_rcv_win rwin c).
Proof.
  intros H Hl. destruct (process_tx_queue_run tcp w c len false H Hl) as (w1 & q & n & E1 & A1 & -> & ->).
  replace (set_pending_data _ _) with c in A1 by by destruct c.
  mrun E1. mrun (get_run _). cbv zeta. mrun (update_run _ _ _ _ (acts_lookup _ _ _ _ _ A1)).
  set (rwin := expand_window c (xfer_window env tcp w1)).
  pose proof (acts_conn tcp w1 (set_rcv_win rwin c)) as A2. apply (acts_trans _ _ _ _ _ _ _ _ A1) in A2.
  mrun (get_conn_run _ _ _ (acts_lookup _ _ _ _ _ A2)). rewrite (act_ticks _ _ _ _ _ A1).
  set (c2 := set_rcv_win rwin c) in *. set (w2 := set_conns _ w1) in *.
  change (peer c2) with (peer c).
  destruct (net_tx env (peer c) (tcp_segment c2 flags (ticks w) (take (Z.to_nat len) (unacked c))) (net w)) as [n' r] eqn:En.
  assert (tcpip_tx_op env (peer c) (tcp_segment c2 flags (ticks w) (take (Z.to_nat len) (unacked c))) w2
    = Some (set_net n' w2, r)) as E3.
  { unfold tcpip_tx_op, call. rewrite (act_net _ _ _ _ _ A2). by rewrite En. }
  mrun E3. assert (conns w1 = conns w) as Hc1 by (rewrite (act_conns _ _ _ _ _ A1); by apply insert_id).
  assert (conns (set_net n' w2) !! tcp = Some c2) as H2 by apply (acts_lookup _ _ _ _ _ A2).
  destruct r as [|e].
  - mrun (update_run _ _ _ _ H2). eexists _, _, RC_OK, w1, rwin. split; [done|]. simpl. rewrite Hc1.
    rewrite !insert_insert_eq. split_and!; try done; [apply (act_timers _ _ _ _ _ A1)|apply (act_net _ _ _ _ _ A1)].
  - eexists _, c2, (RC_ERR e), w1, rwin. split; [done|]. simpl. rewrite Hc1.
    split_and!; try done; [apply (act_timers _ _ _ _ _ A1)|apply (act_net _ _ _ _ _ A1)].
Qed.

(** A segment at SEQ with the first unacknowledged bytes was handed to the
    network, which gave the result; [w1] is the world in which the application
    was asked for its window. *)
Definition segment_sent (tcp : loc) (w : tcp_world E) (c : tcp_connection) (w' : tcp_world E) (c' : tcp_connection) (r : rc) : Prop :=
  exists w1 x y, let win := advertised c (xfer_window env tcp w1) in
    let p := segment_bytes c (sending_flags (tcp_state c)) (ticks w) (win / 2 ^ rcv_win_scale c) [x; y]
               (take (Z.to_nat (xmit_len c)) (unacked c)) in
    net w1 = net w /\ conns w1 = <[tcp := set_snd_sent (xmit_seq_len c) c]> (conns w) /\
    tcpip_chksum p = 0 /\ (net w', r) = net_tx env (peer c) p (net w) /\ rcv_win c' = win /\
    tcp_flags c' = match r with RC_OK => Z.ldiff (tcp_flags c) 4 | _ => tcp_flags c end.

Lemma start_opt_run (b : bool) (w : tcp_world E) tcp c x :
  conns w !! tcp = Some c -> timers_ok (tcp_timers w) -> tmr (tcp_timers w) !! timer_of tcp = Some x ->
  (forall r, tm_refcnt x = Some r -> exists n, count (objects (tcp_timers w)) !! r = Some n /\ 0 <= n < 2 ^ 31 - 1) ->
  exists s, (if b then start_timer_op env (timer_of tcp) else mret tt) w = Some (set_tcp_timers s w, tt) /\
    timers_ok s /\ (b = true -> timer_of tcp ∈ timers s) /\ (b = false -> s = tcp_timers w).
Proof.
  intros H Hok Hx Href. destruct b; [|exists (tcp_timers w); by destruct w].
  destruct (start_timer_run (ticks_per_sec env) (ticks w) _ _ _ Hok Hx Href) as (s & Es & Hs & Hin & _).
  exists s. split; [|done]. unfold start_timer_op. mrun (get_run _). by apply timers_op_run.
Qed.

Lemma sending_flags_byte s : 0 <= sending_flags s < 2 ^ 8.
Proof.
  unfold sending_flags. set (k := s / 256 mod 256). clearbody k. change 256 with (2 ^ 8). rewrite <- Z.land_ones, Z.ldiff_land by lia.
  rewrite <- Z.land_assoc, (Z.land_comm (Z.ones 8)), Z.land_assoc, Z.land_ones by lia. by apply Z.mod_pos_bound.
Qed.

(** C24: [tcp_xmit] does nothing while the retransmission timer runs.
    Otherwise it records how much sequence space it has in flight: the data,
    limited by the peer's window and the MTU, and one for a SYN or FIN that
    is not acknowledged.  When there is any, it starts the retransmission
    timer, even if no buffer can be allocated or the network refuses the
    packet.  It sends nothing when there is nothing in flight and no
    acknowledgement is due.  Otherwise, if a buffer can be allocated, it hands
    the network one segment: ports, SEQ, ACK, the flags not yet acknowledged,
    the window that the application allows now, a checksum that verifies, the
    options, and the first unacknowledged bytes.  The acknowledgement is no
    longer due once the network took it.  The transmit queue, SEQ and the
    state are kept, so a retransmission sends the same bytes. *)
Theorem tcp_xmit_spec (w : tcp_world E) tcp c x :
  conns w !! tcp = Some c -> 0 <= snd_win c -> 0 <= rcv_win_scale c -> bytes_ok (unacked c) -> timers_ok (tcp_timers w) ->
  tmr (tcp_timers w) !! timer_of tcp = Some x ->
  (forall r, tm_refcnt x = Some r -> exists n, count (objects (tcp_timers w)) !! r = Some n /\ 0 <= n < 2 ^ 31 - 1) ->
  let idle := (xmit_seq_len c =? 0) && negb (Z.testbit (tcp_flags c) 2) in
  (running x = true -> tcp_xmit env tcp w = Some (w, RC_OK)) /\
  (running x = false ->
     exists w' c' r, tcp_xmit env tcp w = Some (w', r) /\ conns w' = <[tcp := c']> (conns w) /\
       xmit_keeps c c' /\ snd_sent c' = xmit_seq_len c /\ timers_ok (tcp_timers w') /\
       (0 < xmit_seq_len c -> timer_of tcp ∈ timers (tcp_timers w')) /\
       (xmit_seq_len c = 0 -> tcp_timers w' = tcp_timers w) /\
       (idle = true -> r = RC_OK /\ net w' = net w) /\
       (idle = false -> (forall p l, alloc_pool w <> Some p :: l) -> r = RC_ERR ENOMEM /\ net w' = net w) /\
       (idle = false -> forall p l, alloc_pool w = Some p :: l -> segment_sent tcp w c w' c' r)).
Proof.
  intros H Hw Hsc Hby Hok Hx Href idle. unfold tcp_xmit. mrun (get_run _). unfold timer_running at 1 2. rewrite Hx.
  cbn [mbind option_bind]. split; intros Hr; rewrite Hr; [done|]. mrun (get_conn_run _ _ _ H).
  cbv zeta. rewrite xmit_len_model, syn_fin_model by done. pose proof (xmit_len_range c Hw) as Hl.
  assert ((if unacked_syn_fin (tcp_state c) then u32 (xmit_len c + 1) else u32 (xmit_len c)) = xmit_seq_len c) as ->
    by (unfold xmit_seq_len; destruct (unacked_syn_fin _); rewrite wrap_small by lia; lia).
  change TCP_ACK_PENDING with (2 ^ 2) at 1. rewrite ctrue_land_pow2 by lia. fold idle.
  assert (0 <= xmit_seq_len c) as Hpos by (unfold xmit_seq_len; destruct (unacked_syn_fin _); lia).
  mrun (update_run _ _ _ _ H). set (c1 := set_snd_sent (xmit_seq_len c) c). set (w1 := set_conns _ w).
  assert (conns w1 !! tcp = Some c1) as H1 by apply lookup_insert_eq. assert (xmit_keeps c c1) as Hk1 by (by split_and!).
  destruct idle eqn:Ez.
  { apply andb_prop in Ez as [Ez%Z.eqb_eq _]. exists w1, c1, RC_OK. split_and!; try done; try lia. }
  destruct (start_opt_run (ctrue (xmit_seq_len c)) w1 tcp c1 x H1 Hok Hx Href) as (s & Es & Hs & Hin & Hout). mrun Es.
  assert (0 < xmit_seq_len c -> timer_of tcp ∈ timers s) as Hin'.
  { intros Hp. apply Hin. unfold ctrue. destruct (Z.eqb_spec (xmit_seq_len c) 0); [lia|done]. }
  assert (xmit_seq_len c = 0 -> s = tcp_timers w) as Hout' by (intros Hz; apply Hout; unfold ctrue; by rewrite Hz).
  destruct (alloc_pool w) as [|[p|] pool] eqn:Ea.
  - assert (alloc (set_tcp_timers s w1) = Some (set_tcp_timers s w1, None)) as E2 by (unfold alloc; simpl; by rewrite Ea).
    mrun E2. eexists _, c1, _. split; [done|]. split_and!; try done.
  - assert (alloc (set_tcp_timers s w1) = Some (set_alloc_pool pool (set_tcp_timers s w1), Some p)) as E2
      by (unfold alloc; simpl; by rewrite Ea).
    mrun E2. destruct (xmit_send_run tcp (set_alloc_pool pool (set_tcp_timers s w1)) c1
      (TCP_FLAGS_SENDING (tcp_state c)) (xmit_len c) H1 ltac:(lia)) as (w' & c' & r & w2 & rwin & E3 & Hc & Ht & Hc2 & Hn2 & Hrw & Hn & ->).
    cbv zeta in E3. rewrite E3. eexists _, _, _. split; [done|]. rewrite Hc. simpl. rewrite insert_insert_eq, Ht.
    rewrite advertised_model in Hrw by done. change (advertised c1) with (advertised c) in Hrw.
    split; [reflexivity|]. split; [unfold xmit_keeps; csimpl; rewrite Hrw; split_and!; try reflexivity; apply Z.le_max_l|].
    split; [reflexivity|]. split; [exact Hs|]. split; [exact Hin'|]. split; [exact Hout'|]. split; [discriminate|].
    split; [intros _ Hnb; by destruct (Hnb p pool)|]. intros _ _ _ _. clear E3. rewrite sending_model in Hn.
    destruct (segment_model (set_rcv_win rwin c1) (sending_flags (tcp_state c)) (ticks w) (take (Z.to_nat (xmit_len c)) (unacked c))) as (x1 & y & Eseg & Hcs);
      [apply sending_flags_byte|exact Hsc|by apply Forall_take|].
    change (unacked c1) with (unacked c) in Hn. cbn [ticks set_alloc_pool set_tcp_timers w1 set_conns net] in Hn. rewrite Eseg in Hn.
    exists w2, x1, y. cbv zeta. rewrite <- Hrw. split; [exact Hn2|]. split; [exact Hc2|]. split; [exact Hcs|]. split; [exact Hn|].
    split; [reflexivity|]. csimpl. destruct r; [by rewrite <- Z.ldiff_land|reflexivity].
  - assert (alloc (set_tcp_timers s w1) = Some (set_alloc_pool pool (set_tcp_timers s w1), None)) as E2
      by (unfold alloc; simpl; by rewrite Ea).
    mrun E2. eexists _, c1, _. split; [done|]. split_and!; try done.
Qed.
End Xmit.

(** ** Reading segments back. *)
(** Reading the fields of a packet laid out as the TCP header is. *)
Lemma header_fields (b0 b2 b4 b8 b14 rest : list Z) (hl fl : Z) :
  length b0 = 2%nat -> length b2 = 2%nat -> length b4 = 4%nat -> length b8 = 4%nat -> length b14 = 2%nat ->
  let p := (b0 ++ b2 ++ b4 ++ b8 ++ [hl; fl] ++ b14) ++ rest in
  take 2 p = b0 /\ take 2 (drop 2 p) = b2 /\ take 4 (drop 4 p) = b4 /\ take 4 (drop 8 p) = b8 /\
  p !! 12%nat = Some hl /\ p !! 13%nat = Some fl /\ take 2 (drop 14 p) = b14 /\ drop 16 p = rest.
Proof.
  intros H0 H2 H4 H8 H14 p.
  destruct b0 as [|? [|? []]]; try discriminate. destruct b2 as [|? [|? []]]; try discriminate.
  destruct b4 as [|? [|? [|? [|? []]]]]; try discriminate. destruct b8 as [|? [|? [|? [|? []]]]]; try discriminate.
  destruct b14 as [|? [|? []]]; try discriminate. by split_and!.
Qed.

Lemma be_val_field n x : 0 <= x < 2 ^ (8 * Z.of_nat n) -> be_val (be_bytes n x) = x.
Proof. intros. rewrite be_val_bytes. by apply Z.mod_small. Qed.

(** Every segment TCP builds passes the sanity checks of the receive
    path (length, header length, checksum), and the receiver's reading of
    its header gives back the ports, SEQ, ACK, flags and window it was
    built from, and its payload. *)
Theorem tcp_segment_parses c flags now payload :
  0 <= local_port c < 2 ^ 16 -> 0 <= st_port (peer c) < 2 ^ 16 -> 0 <= snd_seq c < 2 ^ 32 ->
  0 <= rcv_ack c < 2 ^ 32 -> 0 <= flags < 2 ^ 8 -> 0 <= Z.shiftr (rcv_win c) (rcv_win_scale c) < 2 ^ 16 ->
  bytes_ok payload ->
  let p := tcp_segment c flags now payload in
  exists hl, p !! 12%nat = Some hl /\
    let hlen := Z.land hl TCP_MASK_HLEN / 16 * 4 in
    TCP_HLEN <= hlen <= zlen p /\ tcpip_chksum p = 0 /\
    be_val (take 2 p) = local_port c /\ be_val (take 2 (drop 2 p)) = st_port (peer c) /\
    be_val (take 4 (drop 4 p)) = snd_seq c /\ be_val (take 4 (drop 8 p)) = rcv_ack c /\
    p !! 13%nat = Some (match payload with [] => flags | _ => Z.lor flags TCP_PSH end) /\
    be_val (take 2 (drop 14 p)) = Z.shiftr (rcv_win c) (rcv_win_scale c) /\
    drop (Z.to_nat hlen) p = payload.
Proof.
  intros Hlp Hpp Hsq Hak Hfl Hwn Hpl p. unfold p, tcp_segment. clear p. rewrite segment_options_model.
  set (fl := match payload with [] => flags | _ => Z.lor flags TCP_PSH end).
  assert (0 <= fl < 2 ^ 8) as Hf.
  { unfold fl. destruct payload; [done|]. apply lor_range; [lia|done|by unfold TCP_PSH]. }
  clearbody fl. destruct (segment_options_spec c flags now) as [Hob Hol].
  set (opts := segment_options c flags now) in *. clearbody opts.
  set (hl := Z.shiftl (TCP_HLEN + zlen opts) 2).
  assert (is_byte hl /\ Z.land hl TCP_MASK_HLEN / 16 * 4 = 20 + zlen opts) as [Hh1 Hh2].
  { unfold hl. destruct Hol as [Hol|[Hol|[Hol|[]]]]; rewrite <- Hol; by_decide. }
  unfold tcp_header. rewrite (wrap_small 8 hl), (wrap_small 8 fl) by (unfold is_byte in *; lia).
  pose proof (header_fields (be_bytes 2 (local_port c)) (be_bytes 2 (st_port (peer c))) (be_bytes 4 (snd_seq c))
    (be_bytes 4 (rcv_ack c)) (be_bytes 2 (Z.shiftr (rcv_win c) (rcv_win_scale c)))) as Hfields.
  pose proof (be_val_field 2 _ Hlp) as V0. pose proof (be_val_field 2 _ Hpp) as V2. pose proof (be_val_field 4 _ Hsq) as V4.
  pose proof (be_val_field 4 _ Hak) as V8. pose proof (be_val_field 2 _ Hwn) as V14.
  set (b0 := be_bytes 2 (local_port c)) in *. set (b2 := be_bytes 2 (st_port (peer c))) in *.
  set (b4 := be_bytes 4 (snd_seq c)) in *. set (b8 := be_bytes 4 (rcv_ack c)) in *.
  set (b14 := be_bytes 2 (Z.shiftr _ _)) in *.
  assert (bytes_ok (b0 ++ b2 ++ b4 ++ b8 ++ [hl; fl] ++ b14) /\ length (b0 ++ b2 ++ b4 ++ b8 ++ [hl; fl] ++ b14) = 16%nat)
    as [Hb16 Hl16].
  { split; [|done]. repeat apply Forall_app_2; try apply be_bytes_ok.
    apply Forall_cons_2; [done|]. by apply Forall_cons_2. }
  specialize (fun rest => Hfields rest hl fl eq_refl eq_refl eq_refl eq_refl eq_refl). clearbody b0 b2 b4 b8 b14 hl.
  replace ((b0 ++ _) ++ opts ++ payload) with ((b0 ++ b2 ++ b4 ++ b8 ++ [hl; fl] ++ b14) ++ [0; 0] ++ ([0; 0] ++ opts ++ payload))
    by (rewrite <- !app_assoc; reflexivity).
  destruct (with_csum_app _ ([0; 0] ++ opts ++ payload) Hl16 Hb16) as (x & y & -> & Hx & Hy & Hc).
  { repeat apply Forall_app_2; try done. by_decide. }
  destruct (Hfields ([x; y] ++ [0; 0] ++ opts ++ payload)) as (F0 & F2 & F4 & F8 & F12 & F13 & F14 & F16).
  exists hl. split; [exact F12|]. cbv zeta. rewrite Hh2, F0, F2, F4, F8, F14.
  split; [|split_and!; [exact Hc|exact V0|exact V2|exact V4|exact V8|exact F13|exact V14|]].
  - unfold TCP_HLEN. rewrite length_app, Hl16, !length_app. simpl length. lia.
  - replace (Z.to_nat (20 + zlen opts)) with (16 + (4 + length opts))%nat by lia.
    rewrite <- drop_drop, F16. simpl. apply drop_app_length.
Qed.

(** ** Instances. *)
Lemma tcp_rx_ack_spec_witness :
  exists w' c', tcp_rx_ack 1 1002 4096 (established_world true) = Some (w', RC_OK) /\
    ack_accepted established 1002 4096 c'.
Proof.
  destruct (tcp_rx_ack_spec (established_world true) 1 established (Timer true 40 18 0 100 0 (Some 1%positive)) 1002 4096
    eq_refl (established_timers_ok true) eq_refl) as (_ & _ & H).
  destruct H as (w' & c' & ? & ? & _); [by vm_compute|]. by exists w', c'.
Defined.

Lemma tcp_xmit_spec_witness :
  exists w' c' r, tcp_xmit quiet_env 1 (established_world false) = Some (w', r) /\
    snd_sent c' = xmit_seq_len established /\ segment_sent quiet_env 1 (established_world false) established w' c' r.
Proof.
  destruct (tcp_xmit_spec quiet_env (established_world false) 1 established (Timer false 40 18 0 100 0 (Some 1%positive))
    eq_refl) as [_ H]; [done|done|by_decide|apply established_timers_ok|done|intros r [= <-]; by exists 3|].
  destruct (H eq_refl) as (w' & c' & r & ? & _ & _ & ? & _ & _ & _ & _ & _ & Hs). exists w', c', r. split_and!; [done..|].
  by eapply Hs.
Defined.

Lemma tcp_segment_parses_witness :
  let p := tcp_segment established TCP_ACK 120 [1; 2] in
  exists hl, p !! 12%nat = Some hl /\ TCP_HLEN <= Z.land hl TCP_MASK_HLEN / 16 * 4 <= zlen p.
Proof.
  destruct (tcp_segment_parses established TCP_ACK 120 [1; 2]) as (hl & ? & ? & _); try (simpl; unfold TCP_ACK; lia);
    [by vm_compute|by_decide|]. by exists hl.
Defined.
