(* ===== verification/TcpRx.v ===== *)
(** * The receive side of TCP: theorems on the model of [Tcp].

    The peer sends a byte stream, which may end with a FIN; sequence numbers
    are offsets into it modulo 2^32.  The receive queue, in whatever order
    segments arrive and overlap, is delivered to the application as that
    stream, in order, without gaps or repetitions, whatever the application
    does to its connections meanwhile. *)
From S2P Require Import Prelude LinkedList Malloc Checksum Retry Tcp TcpLemmas TcpView TcpApp.
From Stdlib Require Import Sorting.Sorted.

(** ** Offsets.  A sequence number at an offset of the stream, and offsets
    close enough to be compared modulo 2^32. *)
Definition seq_at (irs o : Z) : Z := u32 (irs + o).
Definition near (a o : Z) : Prop := - 2 ^ 29 < o - a < 2 ^ 29.

Lemma tcp_cmp_offsets irs o a : - 2 ^ 31 <= o - a < 2 ^ 31 -> tcp_cmp (seq_at irs o) (seq_at irs a) = o - a.
Proof.
  intros H. unfold tcp_cmp, seq_at, signed. autorewrite with wrap. fold (signed 32 (irs + o - (irs + a))).
  replace (irs + o - (irs + a)) with (o - a) by lia. by apply s32_id.
Qed.

Lemma seq_distance irs a o : 0 <= a - o < 2 ^ 32 -> u32 (seq_at irs a - seq_at irs o) = a - o.
Proof.
  intros H. unfold seq_at. autorewrite with wrap.
  replace (irs + a - (irs + o)) with (a - o) by lia. by apply wrap_small.
Qed.

Lemma seq_advance irs a n : u32 (seq_at irs a + n) = seq_at irs (a + n).
Proof. unfold seq_at. autorewrite with wrap. f_equal. lia. Qed.

(** The bytes of a stream from an offset up to another. *)
Definition stream_slice (S : Z -> Z) (from to : Z) : list Z := S <$> seqZ from (to - from).

Lemma slice_empty S a : stream_slice S a a = [].
Proof. unfold stream_slice. by rewrite Z.sub_diag. Qed.

Lemma slice_app S a b d : a <= b <= d -> stream_slice S a b ++ stream_slice S b d = stream_slice S a d.
Proof.
  intros H. unfold stream_slice. rewrite <- fmap_app. f_equal.
  replace (d - a) with ((b - a) + (d - b)) by lia. rewrite seqZ_app by lia. f_equal. f_equal. lia.
Qed.

Lemma slice_length S a b : a <= b -> zlen (stream_slice S a b) = b - a.
Proof. intros. unfold stream_slice. rewrite length_fmap, length_seqZ. lia. Qed.

Lemma slice_drop S a b n : 0 <= n <= b - a -> drop (Z.to_nat n) (stream_slice S a b) = stream_slice S (a + n) b.
Proof.
  intros H. rewrite <- (slice_app S a (a + n) b) by lia. apply drop_app_length'.
  pose proof (slice_length S a (a + n)). lia.
Qed.

(** ** What the application cannot change of an established connection: the
    acknowledgement number, the receive queue, and that the SYNs have been
    exchanged and whether a FIN was received. *)
Definition rx_bits (s : Z) : Z := Z.land s (Z.lor (TCP_STATE_ACKED TCP_SYN) (TCP_STATE_RCVD (Z.lor TCP_SYN TCP_FIN))).
Definition rx_part (c : tcp_connection) : Z * list rx_queued * Z := (rcv_ack c, rx_queue c, rx_bits (tcp_state c)).

#[export] Instance rx_part_inert : Inert rx_part.
Proof. by split. Qed.

Lemma established_bits s : TCP_HAS_BEEN_ESTABLISHED (rx_bits s) = TCP_HAS_BEEN_ESTABLISHED s.
Proof. unfold TCP_HAS_BEEN_ESTABLISHED, rx_bits. by rewrite <- Z.land_assoc. Qed.

Lemma established_has s m : Z.land (Z.lor (TCP_STATE_ACKED TCP_SYN) (TCP_STATE_RCVD TCP_SYN)) m = m -> m <> 0 ->
  TCP_HAS_BEEN_ESTABLISHED s = true -> ctrue (Z.land s m) = true.
Proof.
  unfold TCP_HAS_BEEN_ESTABLISHED. intros Hm Hn H%Z.eqb_eq. rewrite <- Hm, Z.land_assoc, H, Hm. unfold ctrue.
  by rewrite (proj2 (Z.eqb_neq _ _) Hn).
Qed.

(** Whether a FIN was received. *)
Definition fin_bit (s : Z) : bool := ctrue (Z.land s (TCP_STATE_RCVD TCP_FIN)).

Lemma fin_bit_bits s s' : rx_bits s = rx_bits s' -> fin_bit s = fin_bit s'.
Proof.
  unfold fin_bit, rx_bits. intros H. apply (f_equal (fun x => Z.land x (TCP_STATE_RCVD TCP_FIN))) in H.
  cbn beta in H. rewrite <- !Z.land_assoc in H. f_equal. exact H.
Qed.

Lemma lor_has s m : m <> 0 -> ctrue (Z.land (Z.lor s m) m) = true.
Proof.
  intros Hm. unfold ctrue. destruct (Z.eqb_spec (Z.land (Z.lor s m) m) 0) as [H|]; [|done].
  rewrite Z.land_lor_distr_l, Z.land_diag in H. by apply Z.lor_eq_0_iff in H as [_ ?].
Qed.

(** The connection is in the list and established, with this receive part. *)
Record live {E} (tcp : loc) (w : tcp_world E) (v : Z * list rx_queued * Z) : Prop := Live {
  live_listed : tcp ∈ tcp_conns w;
  live_conn : exists c, conns w !! tcp = Some c /\ rx_part c = v;
  live_established : TCP_HAS_BEEN_ESTABLISHED v.2 = true }.

Definition keeps_rx {E} (tcp : loc) (w w' : tcp_world E) : Prop := forall v, live tcp w v -> live tcp w' v.

(** A handler that leaves the connection so. *)
Definition aside {E A} (tcp : loc) (m : M E A) : Prop := forall w w' x, m w = Some (w', x) -> keeps_rx tcp w w'.

Section Aside.
Context {E : Type} (tcp : loc).

Lemma live_view (w w' : tcp_world E) v : view_of rx_part w' = view_of rx_part w -> live tcp w v -> live tcp w' v.
Proof.
  intros H [Hl (c & Hc & Hv) He]. injection H as Hl' Hc'. split; [by rewrite Hl'| |done].
  apply (f_equal (fun m => m !! tcp)) in Hc'. rewrite !lookup_fmap, Hc in Hc'.
  destruct (conns w' !! tcp) as [c'|]; [|done]. apply (inj Some) in Hc'. exists c'. split; [done|]. by rewrite <- Hv.
Qed.

Lemma aside_same {A} (m : M E A) : same rx_part m -> aside tcp m.
Proof. intros Hs w w' x Hm v. apply live_view, (Hs _ _ _ Hm). Qed.

Lemma aside_bind {A B} (m : M E A) (k : A -> M E B) : aside tcp m -> (forall x, aside tcp (k x)) -> aside tcp (m ≫= k).
Proof. intros Hm Hk w w' x (w1 & y & H1 & H2)%bind_inv v Hv. by apply (Hk _ _ _ _ H2), (Hm _ _ _ H1). Qed.

Lemma live_other (w : tcp_world E) t c v : t <> tcp -> live tcp w v -> live tcp (set_conns (<[t := c]> (conns w)) w) v.
Proof. intros Ht [Hl Hc He]. split; [done| |done]. simpl. by rewrite lookup_insert_ne. Qed.

Lemma aside_update t f : t <> tcp -> aside tcp (update t f : M E unit).
Proof.
  intros Ht w w' x. unfold update, get_conn, mbind, M_bind. destruct (conns w !! t) as [c|]; [|done]. simpl.
  intros [= <- _] v. by apply live_other.
Qed.

Lemma aside_init t c : t <> tcp -> aside tcp (init_conn t c : M E unit).
Proof.
  intros Ht w w' x. unfold init_conn, mbind, M_bind. simpl. intros [= <- _] v [Hl Hc He]. split; [done| |done].
  simpl. by rewrite lookup_insert_ne.
Qed.

Lemma aside_unlink t : t <> tcp -> aside tcp (modify (fun w => set_tcp_conns (unlink t (tcp_conns w)) w) : M E unit).
Proof. intros Ht w w' x [= <- _] v [Hl Hc He]. split; [|done|done]. simpl. apply unlink_elem. by split. Qed.
End Aside.

Ltac keep_aside := repeat first
  [ solve [apply aside_same; keep]
  | solve [apply aside_update; done]
  | solve [apply aside_unlink; done]
  | apply aside_bind; [|intros ?]
  | match goal with |- aside _ (match ?x with _ => _ end) => destruct x end ].

Section Client.
Context {E : Type} (tcp : loc) (env : tcp_env E) (Happ : methods_by (keeps_rx tcp) env).

Lemma aside_open st_peer st_local (w w' : tcp_world E) r :
  (forall p l, alloc_pool w = Some p :: l -> p ∉ tcp_conns w) -> tcp_open env st_peer st_local w = Some (w', r) -> keeps_rx tcp w w'.
Proof.
  intros Hfresh H v Hv. unfold tcp_open in H. minv H as w1 p H1.
  assert (live tcp w1 v) as Hv1 by (revert Hv; apply live_view, (same_alloc rx_part _ _ _ H1)).
  destruct p as [p|]; [|by injection H as <- _]. assert (p <> tcp) as Hp.
  { unfold alloc in H1. destruct (alloc_pool w) as [|q l] eqn:Ea; [done|]. injection H1 as _ ->. intros ->.
    by apply (Hfresh tcp l eq_refl), (live_listed _ _ _ Hv). }
  minv H as w2 y2 H2. assert (live tcp w2 v) as Hv2 by (by apply (aside_init tcp p _ Hp _ _ _ H2)).
  destruct st_peer as [sp|]; [|done]. clear Hv Hv1. revert v Hv2. clear H1 H2 y2 w1 Hfresh w. revert w2 w' r H.
  change (aside tcp (_ ← (if ctrue (st_port sp) then update p (set_tcp_state (TCP_STATE_SENT TCP_SYN))
      else _ ← update p (set_tcp_state TCP_LISTEN); modify (set_listener (Some p)));
    _ ← update p tcp_dump_state;
    r ← random;
    _ ← update p (set_snd_seq (u32 r));
    _ ← update p (set_max_rcv_win TCP_MAX_WINDOW_SIZE);
    _ ← (if ctrue (st_port sp) then update p (set_peer sp) else mret tt);
    let bind_port := match st_local with Some sl => st_port sl | None => 0 end in
    let bind_port := if ctrue (st_port sp) then bind_port else LISTEN_PORT in
    r ← tcp_bind p bind_port;
    match r with
    | RC_ERR e => _ ← ref_put_op p; mret (RC_ERR e)
    | RC_OK =>
        _ ← (if ctrue (st_port sp) then _ ← start_timer_fixed_op env (timer_of p) 0; pending_flags_op pending_get p else mret tt);
        _ ← modify (plug_parent env p);
        _ ← modify (fun w => set_tcp_conns (p :: tcp_conns w) w);
        mret RC_OK
    end)).
  keep_aside.
  - intros w w' x9 [= <- _] v [Hl Hc He]. destruct (by_plug _ _ Happ p w) as [E1 E2]. split; [by rewrite E2|by rewrite E1|done].
  - intros w w' x9 [= <- _] v [Hl Hc He]. split; [by right|done|done].
Qed.

(** Closing another connection. *)
Lemma aside_close_other t r : t <> tcp -> aside tcp (tcp_close env t r).
Proof.
  intros Ht. unfold tcp_close. apply aside_bind; [intros w w' x [= <- _]; apply (by_shutdown _ _ Happ)|intros _].
  apply aside_bind; [keep_aside|intros _]. apply aside_bind; [keep_aside|intros c]. destruct (negb _).
  - keep_aside.
  - apply aside_bind; [|intros _; keep_aside]. destruct (negb _); [|keep_aside]. apply aside_bind; [|intros ?; keep_aside].
    unfold tcp_rx_ack. keep_aside.
Qed.

Lemma bits_sent_fin s : rx_bits (Z.lor s (TCP_STATE_SENT TCP_FIN)) = rx_bits s.
Proof. unfold rx_bits. rewrite Z.land_lor_distr_l. apply Z.lor_0_r. Qed.

(** Closing this one: it stays in the list, to send what is left. *)
Lemma close_live r (w : tcp_world E) v : live tcp w v ->
  exists w', tcp_close env tcp r w = Some (w', tt) /\ live tcp w' v /\ net w' = net (intf_shutdown env tcp r w).
Proof.
  intros Hv%(by_shutdown _ _ Happ tcp r). unfold tcp_close. mrun (modify_run _ _). set (w1 := intf_shutdown env tcp r w) in *.
  destruct Hv as [Hl (c & Hc & Hp) He]. mrun (update_run _ _ _ _ Hc). set (c2 := set_tcp_flags _ c). set (w2 := set_conns _ w1).
  assert (conns w2 !! tcp = Some c2) as Hc2 by apply lookup_insert_eq. mrun (get_conn_run _ _ _ Hc2).
  assert (TCP_HAS_BEEN_ESTABLISHED (tcp_state c) = true) as Hest by (by rewrite <- Hp in He; simpl in He; rewrite established_bits in He).
  change (tcp_state c2) with (tcp_state c).
  rewrite (established_has _ (TCP_STATE_RCVD TCP_SYN) eq_refl ltac:(done) Hest), (established_has _ (TCP_STATE_ACKED TCP_SYN) eq_refl ltac:(done) Hest).
  cbn [negb]. mrun (ret_run _ _). mrun (get_conn_run _ _ _ Hc2).
  destruct (update_pending_run (match tx_queue c2 with [] => true | _ => false end && negb (ctrue (Z.land (tcp_state c2) (TCP_STATE_SENT TCP_FIN))))
    (fun c => tcp_dump_state (set_tcp_state (Z.lor (tcp_state c) (TCP_STATE_SENT TCP_FIN)) c)) tcp w2 c2 Hc2) as (w3 & n & E3 & A3).
  exists w3. split; [exact E3|]. split; [|by rewrite (act_net _ _ _ _ _ A3)]. split; [by rewrite (act_list _ _ _ _ _ A3)| |done].
  eexists. split; [apply (acts_lookup _ _ _ _ _ A3)|]. rewrite <- Hp. unfold rx_part. destruct (_ && _); [|done]. simpl. by rewrite bits_sent_fin.
Qed.

Lemma api_keeps_rx (w w' : tcp_world E) : api_call False env w w' -> keeps_rx tcp w w'.
Proof.
  intros [sp sl w1 w2 r Hf H|t r w1 w2 H|t d w1 w2 r H|]; [by apply (aside_open _ _ _ _ _ Hf H)| | |done].
  - unfold tcp_xfer_close in H. minv H as w3 y3 H3. intros v Hv. assert (live tcp w3 v) as Hv3.
    { destruct (decide (t = tcp)) as [->|Ht]; [|by apply (aside_close_other t r Ht _ _ _ H3)].
      destruct (close_live r w1 v Hv) as (w4 & E4 & Hv4 & _). rewrite E4 in H3. by injection H3 as <- _. }
    assert (aside tcp (_ ← tcp_xmit env t; mret tt)) as Ha by keep_aside. by apply (Ha _ _ _ H).
  - revert w1 w2 r H. change (aside tcp (tcp_xfer_deliver env t d)). unfold tcp_xfer_deliver. apply aside_bind; [|intros _; keep_aside].
    apply aside_same, same_update. intros c. apply inert_tx_queue.
Qed.
End Client.

Lemma client_keeps_rx {E} tcp (env : tcp_env E) : client False env -> methods_by (keeps_rx tcp) env.
Proof.
  apply client_methods.
  - intros w w' [H1 H2] v [Hl Hc He]. split; [by rewrite H2|by rewrite H1|done].
  - intros w1 w2 w3 H1 H2 v Hv. by apply H2, H1.
  - intros env' w w' Hm. by apply api_keeps_rx.
Qed.

(** ** Packets as pieces of the stream, which may end at [fin]. *)
Section Stream.
Context (irs : Z) (S : Z -> Z) (fin : option Z).

Definition has_fin (q : rx_queued) : bool := ctrue (Z.land (q_flags q) TCP_FIN).
(** The sequence space of a packet. *)
Definition seq_len (q : rx_queued) : Z := zlen (q_data q) + (if has_fin q then 1 else 0).
(** The bytes among the first [a] of the sequence space. *)
Definition bytes_to (a : Z) : Z := match fin with Some F => Z.min a F | None => a end.

Record piece_of (q : rx_queued) (o : Z) : Prop := PieceOf {
  piece_seq : q_seq q = seq_at irs o;
  piece_data : q_data q = stream_slice S o (o + zlen (q_data q));
  piece_end F : fin = Some F -> o + zlen (q_data q) <= F;
  piece_fin : has_fin q = true -> fin = Some (o + zlen (q_data q)) }.

(** The queue and the offsets of its packets, around a reference offset. *)
Record queue_ok (a0 : Z) (queue : list rx_queued) (os : list Z) : Prop := QueueOk {
  queue_pieces : Forall2 piece_of queue os;
  queue_near : Forall (near a0) os;
  queue_end : Forall2 (fun q o => o + zlen (q_data q) <= a0 + 2 ^ 30) queue os;
  queue_sorted : StronglySorted Z.le os }.

Lemma queue_ok_tail a0 q queue o os : queue_ok a0 (q :: queue) (o :: os) -> queue_ok a0 queue os.
Proof.
  intros [H1 H2 H3 H4]. apply Forall2_cons in H1 as [_ ?], H3 as [_ ?]. apply Forall_cons in H2 as [_ ?].
  apply StronglySorted_inv in H4 as [? _]. by split.
Qed.

(** ** Insertion into the queue, on offsets. *)
Fixpoint insert_offset (o : Z) (os : list Z) : list Z :=
  match os with
  | [] => [o]
  | x :: os => if o <? x then o :: x :: os else x :: insert_offset o os
  end.

Lemma insert_offset_forall (P : Z -> Prop) o os : P o -> Forall P os -> Forall P (insert_offset o os).
Proof. intros Ho. induction 1; simpl; [auto|]. destruct (o <? x); auto. Qed.

Lemma insert_offset_sorted o os : StronglySorted Z.le os -> StronglySorted Z.le (insert_offset o os).
Proof.
  induction 1 as [|x os Hs IH Hx]; simpl; [by repeat constructor|].
  destruct (Z.ltb_spec o x).
  - constructor; [by constructor|]. constructor; [lia|]. eapply Forall_impl; [exact Hx|]. simpl. lia.
  - constructor; [done|]. apply insert_offset_forall; [lia|done].
Qed.

Lemma rx_insert_offsets (P : rx_queued -> Z -> Prop) a0 q o queue os :
  (forall q o, P q o -> q_seq q = seq_at irs o) -> near a0 o -> Forall (near a0) os ->
  P q o -> Forall2 P queue os -> Forall2 P (rx_insert q queue) (insert_offset o os).
Proof.
  intros HP Ho Hos Hq H. induction H as [|x ox queue os Hx H IH]; simpl; [by repeat constructor|].
  apply Forall_cons in Hos as [Hox Hos]. unfold near in *. rewrite (HP q o Hq), (HP x ox Hx), tcp_cmp_offsets by lia.
  destruct (Z.ltb_spec (o - ox) 0), (Z.ltb_spec o ox); try lia; repeat constructor; auto.
Qed.

Lemma queue_ok_insert a0 queue os q o :
  queue_ok a0 queue os -> piece_of q o -> near a0 o -> o + zlen (q_data q) <= a0 + 2 ^ 30 ->
  queue_ok a0 (rx_insert q queue) (insert_offset o os).
Proof.
  intros [H1 H2 H3 H4] Hp Hn He.
  assert (Forall2 (fun q o => piece_of q o /\ o + zlen (q_data q) <= a0 + 2 ^ 30) (rx_insert q queue) (insert_offset o os)) as H.
  { eapply rx_insert_offsets; [|exact Hn|exact H2|done|].
    - intros ? ? [[] _]. done.
    - clear -H1 H3. induction H1; inversion H3; subst; constructor; auto. }
  split.
  - eapply Forall2_impl; [exact H|]. by intros ? ? [? _].
  - by apply insert_offset_forall.
  - eapply Forall2_impl; [exact H|]. by intros ? ? [_ ?].
  - by apply insert_offset_sorted.
Qed.

Lemma rx_insert_length q queue : length (rx_insert q queue) = Datatypes.S (length queue).
Proof. induction queue as [|x queue IH]; simpl; [done|]. destruct (_ <? 0); simpl; congruence. Qed.

Lemma rx_insert_pos a0 q o queue os :
  near a0 o -> q_seq q = seq_at irs o -> queue_ok a0 queue os ->
  exists i, rx_insert q queue !! i = Some q /\ insert_offset o os !! i = Some o.
Proof.
  intros Hn Hq [Hp Hos _ _]. induction Hp as [|x ox queue os Hx Hp IH]; simpl; [by exists O|].
  apply Forall_cons in Hos as [Hox Hos]. unfold near in *.
  rewrite Hq, (piece_seq _ _ Hx), tcp_cmp_offsets by lia.
  destruct (Z.ltb_spec (o - ox) 0), (Z.ltb_spec o ox); try lia; [by exists O|].
  destruct (IH Hos) as (i & ? & ?). by exists (Datatypes.S i).
Qed.

Lemma rx_enqueue_ok a os c seq flags data o :
  let q := RxQueued seq (Z.land flags TCP_FIN) data in
  rcv_ack c = seq_at irs a -> queue_ok a (rx_queue c) os ->
  piece_of q o -> near a o -> o + zlen data <= a + 2 ^ 30 ->
  let c' := rx_enqueue seq flags data c in
  exists os1, queue_ok a (rx_queue c') os1 /\ (length (rx_queue c') <= Datatypes.S (length (rx_queue c)))%nat /\
    rcv_ack c' = rcv_ack c /\ tcp_state c' = tcp_state c /\
    (ctrue (Z.land (tcp_state c) (TCP_STATE_RCVD TCP_SYN)) = true -> 0 < rcv_win c < 2 ^ 29 ->
       0 < seq_len q -> o <= a <= o + seq_len q -> exists i, rx_queue c' !! i = Some q /\ os1 !! i = Some o).
Proof.
  intros q Ha Hok Hp Hn He. cbv zeta. unfold rx_enqueue. fold q. pose proof (piece_seq _ _ Hp) as Hs. simpl in Hs.
  assert (zlen data + (if ctrue (Z.land flags TCP_FIN) then 1 else 0) = seq_len q) as ->.
  { unfold seq_len, has_fin. simpl. by rewrite <- Z.land_assoc, Z.land_diag. }
  assert (seq_len q <= zlen data + 1) as Hsl by (unfold seq_len; simpl; destruct (has_fin q); lia).
  assert (0 <= seq_len q) as Hsl0 by (unfold seq_len; destruct (has_fin q); lia).
  match goal with |- context [if ?b then c else _] => destruct b eqn:Eb end.
  - exists os. split_and!; try done; [lia|]. intros Hsyn Hwin Hlen Hoa. exfalso. unfold near in Hn.
    rewrite Hsyn, Ha, Hs in Eb. simpl in Eb.
    assert (tcp_cmp (seq_at irs o) (seq_at irs a + rcv_win c) = o - (a + rcv_win c)) as E1.
    { rewrite <- (tcp_cmp_offsets irs o (a + rcv_win c)) by lia. rewrite <- seq_advance.
      unfold tcp_cmp, signed. by rewrite wrap_sub_r by lia. }
    assert (tcp_cmp (seq_at irs o + seq_len q) (seq_at irs a) = o + seq_len q - a) as E2.
    { rewrite <- (tcp_cmp_offsets irs (o + seq_len q) a) by lia. rewrite <- seq_advance.
      unfold tcp_cmp, signed. by rewrite wrap_sub_l by lia. }
    rewrite E1, E2 in Eb. revert Eb. zcases; simpl; lia.
  - exists (insert_offset o os). simpl. rewrite rx_insert_length. split_and!; try done; [by apply queue_ok_insert|].
    intros _ _ _ _. by apply (rx_insert_pos a).
Qed.
End Stream.

(** What was handed to the application: every delivery adds the data, and
    closing the interface adds nothing. *)
Class Logs {E} (env : tcp_env E) (tcp : loc) (received : E -> list Z) : Prop := {
  log_deliver d w : received (net (xfer_deliver_iob env tcp d w).1) = received (net w) ++ d;
  log_shutdown r w : received (net (intf_shutdown env tcp r w)) = received (net w) }.

Section Deliver.
Context {E : Type} (env : tcp_env E) (tcp : loc) (received : E -> list Z) `{!Logs env tcp received}.
Context (Happ : methods_by (keeps_rx tcp) env) (irs : Z) (S : Z -> Z) (fin : option Z).

(** The connection with its acknowledgement number at an offset. *)
Record at_offset (w : tcp_world E) (c : tcp_connection) (a : Z) : Prop := AtOffset {
  at_conn : conns w !! tcp = Some c;
  at_listed : tcp ∈ tcp_conns w;
  at_established : TCP_HAS_BEEN_ESTABLISHED (tcp_state c) = true;
  at_ack : rcv_ack c = seq_at irs a;
  at_end F : fin = Some F -> a <= F + 1 }.

Lemma at_live w c a : at_offset w c a -> live tcp w (rx_part c).
Proof. intros [Hc Hl He _ _]. split; [done|by exists c|]. simpl. by rewrite established_bits. Qed.

Lemma live_at_offset w v a : live tcp w v -> v.1.1 = seq_at irs a -> (forall F, fin = Some F -> a <= F + 1) ->
  exists c, at_offset w c a /\ rx_part c = v.
Proof. intros [Hl (c & Hc & <-) He] Ha Hf. exists c. split; [|done]. split; try done. simpl in He. by rewrite established_bits in He. Qed.

Lemma rx_data_run (w : tcp_world E) c q o a :
  at_offset w c a -> piece_of irs S fin q o -> o <= a -> a - o < 2 ^ 31 ->
  exists w' c' r, tcp_rx_data env tcp (q_seq q) (q_data q) w = Some (w', r) /\
    at_offset w' c' (Z.max a (o + zlen (q_data q))) /\ rx_queue c' = rx_queue c /\ rx_bits (tcp_state c') = rx_bits (tcp_state c) /\
    received (net w') = received (net w) ++ stream_slice S (bytes_to fin a) (bytes_to fin (Z.max a (o + zlen (q_data q)))).
Proof.
  intros Hat [Hs Hd Hend _] Hoa Hr. pose proof Hat as [Hc Hl He Ha Hf]. unfold tcp_rx_data. mrun (get_conn_run _ _ _ Hc).
  rewrite Ha, Hs, seq_distance by lia. destruct (Z.leb_spec (zlen (q_data q)) (a - o)).
  - exists w, c, RC_OK. rewrite Z.max_l, slice_empty, app_nil_r by lia. done.
  - rewrite Z.max_r by lia. assert (bytes_to fin a = a /\ bytes_to fin (o + zlen (q_data q)) = o + zlen (q_data q)) as [-> ->].
    { unfold bytes_to. destruct fin as [F|]; [|done]. specialize (Hend F eq_refl). lia. }
    unfold tcp_rx_seq. mrun (update_run _ _ _ _ Hc). unfold call.
    set (w1 := set_conns _ w). set (d := drop _ (q_data q)). set (c1 := rx_seq _ c) in *.
    assert (at_offset w1 c1 (o + zlen (q_data q))) as Hat1.
    { split; [apply lookup_insert_eq|done|done| |].
      - unfold c1. cbn [rx_seq rcv_ack set_rcv_ack]. simpl. rewrite Ha, seq_advance. f_equal. lia.
      - intros F HF. specialize (Hend F HF). lia. }
    pose proof (by_deliver _ _ Happ tcp d w1 _ (at_live _ _ _ Hat1)) as Hv. pose proof (log_deliver d w1) as Hlog.
    destruct (xfer_deliver_iob env tcp d w1) as [w2 r]. simpl in Hv, Hlog.
    destruct (live_at_offset w2 _ _ Hv (at_ack _ _ _ Hat1) (at_end _ _ _ Hat1)) as (c2 & Hat2 & Hp). injection Hp as _ Hq Hb.
    exists w2, c2, r. split_and!; try done. rewrite Hlog. f_equal. unfold d. rewrite Hd at 1. rewrite slice_drop by lia. f_equal; lia.
Qed.

Lemma rx_fin_run (w : tcp_world E) c q o a :
  at_offset w c a -> piece_of irs S fin q o -> has_fin q = true -> o + zlen (q_data q) <= a ->
  exists w' c' r, tcp_rx_fin env tcp (u32 (q_seq q + zlen (q_data q))) w = Some (w', r) /\
    at_offset w' c' (o + zlen (q_data q) + 1) /\ rx_queue c' = rx_queue c /\
    (a = o + zlen (q_data q) -> fin_bit (tcp_state c') = true) /\
    (a <> o + zlen (q_data q) -> rx_bits (tcp_state c') = rx_bits (tcp_state c)) /\
    received (net w') = received (net w).
Proof.
  intros Hat [Hs Hd _ Hfin] Hq Hle. specialize (Hfin Hq). pose proof Hat as [Hc Hl He Ha Hf]. specialize (Hf _ Hfin).
  rewrite Hs, seq_advance. set (F := o + zlen (q_data q)) in *. unfold tcp_rx_fin. mrun (get_conn_run _ _ _ Hc). rewrite Ha.
  destruct (Z.eqb_spec (seq_at irs F) (seq_at irs a)) as [Heq|Hne]; cbn [negb].
  2: { assert (a = F + 1) as -> by (destruct (decide (a = F)) as [->|]; [done|lia]).
       exists w, c, RC_OK. split_and!; try done. lia. }
  assert (a = F) as ->.
  { destruct (decide (a = F)) as [->|]; [done|]. assert (a = F + 1) as -> by lia. exfalso.
    apply (f_equal (fun x => u32 (x - seq_at irs F))) in Heq. rewrite !seq_distance in Heq by lia. lia. }
  unfold tcp_rx_seq. mrun (update_run _ _ _ _ Hc). set (w1 := set_conns _ w).
  assert (conns w1 !! tcp = Some (rx_seq 1 c)) as Hc1 by apply lookup_insert_eq. mrun (update_run _ _ _ _ Hc1).
  set (c2 := set_tcp_state _ (rx_seq 1 c)). set (w2 := set_conns _ w1).
  assert (at_offset w2 c2 (F + 1)) as Hat2.
  { split; [apply lookup_insert_eq|done| | |intros F' HF'; simplify_eq; lia].
    - change (tcp_state c2) with (Z.lor (tcp_state c) (TCP_STATE_RCVD TCP_FIN)). unfold TCP_HAS_BEEN_ESTABLISHED in *.
      apply Z.eqb_eq in He. apply Z.eqb_eq. by rewrite Z.land_lor_distr_l, He.
    - unfold c2. simpl. by rewrite Ha, seq_advance. }
  destruct (close_live tcp env Happ RC_OK w2 _ (at_live _ _ _ Hat2)) as (w3 & E3 & Hv & Hn). mrun E3.
  destruct (live_at_offset w3 _ _ Hv (at_ack _ _ _ Hat2) (at_end _ _ _ Hat2)) as (c3 & Hat3 & Hp). injection Hp as _ Hq3 Hb3.
  exists w3, c3, RC_OK. split; [done|]. split; [done|]. split; [done|]. split; [|split; [done|by rewrite Hn, log_shutdown]].
  intros _. rewrite (fin_bit_bits _ _ Hb3). by apply lor_has.
Qed.

(** The FIN was taken between two offsets, or nothing of the receive state
    but the queue and the acknowledgement number has changed. *)
Definition fin_taken (a a' : Z) (st st' : Z) : Prop :=
  match fin with
  | Some F => if decide (a <= F < a') then fin_bit st' = true else rx_bits st' = rx_bits st
  | None => rx_bits st' = rx_bits st
  end.

Lemma fin_taken_refl a st st' : rx_bits st' = rx_bits st -> fin_taken a a st st'.
Proof. intros H. unfold fin_taken. destruct fin; [|done]. rewrite decide_False by lia. done. Qed.

Lemma fin_taken_trans a1 a2 a3 s1 s2 s3 : a1 <= a2 <= a3 -> fin_taken a1 a2 s1 s2 -> fin_taken a2 a3 s2 s3 -> fin_taken a1 a3 s1 s3.
Proof.
  intros Hr. unfold fin_taken. destruct fin as [F|]; [|congruence].
  destruct (decide (a1 <= F < a2)), (decide (a2 <= F < a3)), (decide (a1 <= F < a3)); try lia; try congruence.
  intros H1 H2%fin_bit_bits. congruence.
Qed.

(** One packet of the queue. *)
Lemma rx_packet_run (w : tcp_world E) c q o a :
  at_offset w c a -> piece_of irs S fin q o -> o <= a -> a - o < 2 ^ 31 ->
  let a' := Z.max a (o + seq_len q) in
  exists w' c', (_ ← tcp_rx_data env tcp (q_seq q) (q_data q);
      let seq := u32 (q_seq q + zlen (q_data q)) in
      if ctrue (Z.land (q_flags q) TCP_FIN) then _ ← tcp_rx_fin env tcp seq; mret tt else mret tt) w = Some (w', tt) /\
    at_offset w' c' a' /\ rx_queue c' = rx_queue c /\ fin_taken a a' (tcp_state c) (tcp_state c') /\
    received (net w') = received (net w) ++ stream_slice S (bytes_to fin a) (bytes_to fin a').
Proof.
  intros Hat Hp Hoa Hr a'. destruct (rx_data_run w c q o a Hat Hp Hoa Hr) as (w1 & c1 & r & E1 & Hat1 & Hq1 & Hb1 & Hl1). mrun E1.
  cbv zeta. fold (has_fin q). unfold a', seq_len in *. clear a'. set (e := o + zlen (q_data q)) in *. rewrite Z.add_assoc. fold e.
  pose proof (piece_end _ _ _ _ _ Hp) as Hend. pose proof (piece_fin _ _ _ _ _ Hp) as Hpf. fold e in Hend, Hpf.
  pose proof (at_end _ _ _ Hat) as Hae. destruct (has_fin q) eqn:Hf.
  2: { rewrite Z.add_0_r. exists w1, c1. split_and!; try done. unfold fin_taken. destruct fin as [F|]; [|done].
       specialize (Hend F eq_refl). specialize (Hae F eq_refl). rewrite decide_False by lia. done. }
  specialize (Hpf eq_refl). specialize (Hae e Hpf).
  destruct (rx_fin_run w1 c1 q o (Z.max a e) Hat1 Hp Hf ltac:(lia)) as (w2 & c2 & r2 & E2 & Hat2 & Hq2 & Hy2 & Hn2 & Hl2). fold e in Hat2, Hy2, Hn2.
  mrun E2. exists w2, c2. replace (Z.max a (e + 1)) with (e + 1) by lia. split_and!; try done; [congruence| |].
  - unfold fin_taken. rewrite Hpf. destruct (decide (a <= e < e + 1)); [apply Hy2; lia|]. rewrite Hn2 by lia. done.
  - rewrite Hl2, Hl1. do 2 f_equal. unfold bytes_to. rewrite Hpf. lia.
Qed.

Lemma process_rx_run a0 fuel queue : forall os (w : tcp_world E) c a,
  at_offset w c a -> rx_queue c = queue -> a0 <= a <= a0 + 2 ^ 30 + 1 -> (length queue < fuel)%nat -> queue_ok irs S fin a0 queue os ->
  exists w' c' a' k, tcp_process_rx_queue env fuel tcp w = Some (w', tt) /\
    at_offset w' c' a' /\ a <= a' <= a0 + 2 ^ 30 + 1 /\ fin_taken a a' (tcp_state c) (tcp_state c') /\
    received (net w') = received (net w) ++ stream_slice S (bytes_to fin a) (bytes_to fin a') /\
    rx_queue c' = drop k queue /\ Forall (fun o => a' < o) (drop k os) /\
    Forall2 (fun q o => o + seq_len q <= a') (take k queue) (take k os).
Proof.
  revert queue. induction fuel as [|fuel IH]; intros queue os w c a Hat Hq Hr Hf Hok; [lia|].
  cbn [tcp_process_rx_queue]. mrun (get_conn_run _ _ _ (at_conn _ _ _ Hat)). rewrite Hq.
  destruct queue as [|q queue].
  { exists w, c, a, O. rewrite slice_empty, app_nil_r. destruct Hok as [Hp%Forall2_nil_inv_l _ _ _]. subst os.
    split_and!; try (done || lia). by apply fin_taken_refl. }
  destruct os as [|o os]; [by destruct Hok as [?%Forall2_nil_inv_r _ _ _]|].
  pose proof (queue_ok_tail _ _ _ _ _ _ _ _ Hok) as Hok'. destruct Hok as [Hp Hn He Hso].
  apply Forall2_cons in Hp as [Hp _], He as [He _]. apply Forall_cons in Hn as [Hn _].
  apply StronglySorted_inv in Hso as [_ Hle]. unfold near in Hn.
  assert (tcp_cmp (q_seq q) (rcv_ack c) = o - a) as ->
    by (rewrite (piece_seq _ _ _ _ _ Hp), (at_ack _ _ _ Hat); apply tcp_cmp_offsets; lia).
  destruct (Z.ltb_spec 0 (o - a)).
  { exists w, c, a, O. rewrite slice_empty, app_nil_r. split_and!; try (done || lia); [by apply fin_taken_refl|].
    constructor; [lia|]. eapply Forall_impl; [exact Hle|]. simpl. lia. }
  mrun (put_conn_run _ _ _). set (w1 := set_conns _ w).
  assert (at_offset w1 (set_rx_queue queue c) a) as Hat1 by (destruct Hat; split; try done; apply lookup_insert_eq).
  destruct (rx_packet_run w1 _ q o a Hat1 Hp ltac:(lia) ltac:(lia)) as (w2 & c2 & E2 & Hat2 & Hq2 & Hft2 & Hrec2).
  assert (seq_len q <= zlen (q_data q) + 1 /\ 0 <= seq_len q) as [Hsl Hs0] by (unfold seq_len; destruct (has_fin q); lia).
  destruct (IH queue os w2 c2 _ Hat2 Hq2) as (w3 & c3 & a3 & k & E3 & Hat3 & Hr3 & Hft3 & Hrec3 & Hq3 & Hgap & Hdone);
    [lia|simpl in Hf; lia|done|].
  apply bind_inv in E2 as (w1' & r1 & E1 & E2). mrun E1. cbv zeta in E2. mrun E2.
  exists w3, c3, a3, (Datatypes.S k). split; [exact E3|]. split; [done|]. split; [lia|].
  split; [by apply (fin_taken_trans a (Z.max a (o + seq_len q)) a3 _ (tcp_state c2)); [lia|..]|].
  split; [|split; [done|split; [done|constructor; [lia|done]]]].
  rewrite Hrec3, Hrec2, <- app_assoc, slice_app; [done|].
  pose proof (at_end _ _ _ Hat3). unfold bytes_to. destruct fin; lia.
Qed.
End Deliver.

(** C4: receiving on an established connection.  Whatever segment of the
    peer's stream arrives next, in or out of order, overlapping or repeated,
    with or without the FIN that ends the stream, enqueueing it and processing
    the queue terminates; the application receives exactly the next bytes of
    the stream, from the old acknowledgement number up to the new one, which
    counts the FIN; the FIN is recorded in the state when the acknowledgement
    number passes it; every packet left in the queue starts beyond the new
    acknowledgement number, and a segment within the window that starts at or
    before the acknowledgement number is taken to its end.  Meanwhile the
    application may, from within its methods, send, open and close
    connections, this one among them; TCP's discarder does not run. *)
Theorem tcp_rx_in_order {E} (env : tcp_env E) tcp (received : E -> list Z) `{!Logs env tcp received} irs S fin
    (w : tcp_world E) c os a seq flags data o fuel :
  client False env ->
  at_offset tcp irs fin w c a -> queue_ok irs S fin a (rx_queue c) os ->
  let q := RxQueued seq (Z.land flags TCP_FIN) data in
  piece_of irs S fin q o -> near a o -> o + zlen data <= a + 2 ^ 30 ->
  (Datatypes.S (length (rx_queue c)) < fuel)%nat ->
  exists w' c' a' os', (_ ← tcp_rx_enqueue tcp seq flags data; tcp_process_rx_queue env fuel tcp) w = Some (w', tt) /\
    at_offset tcp irs fin w' c' a' /\ a <= a' /\
    received (net w') = received (net w) ++ stream_slice S (bytes_to fin a) (bytes_to fin a') /\
    fin_taken fin a a' (tcp_state c) (tcp_state c') /\
    Forall2 (piece_of irs S fin) (rx_queue c') os' /\ Forall (fun o => a' < o) os' /\
    (0 < rcv_win c < 2 ^ 29 -> 0 < seq_len q -> o <= a <= o + seq_len q -> o + seq_len q <= a').
Proof.
  intros Happ%(client_keeps_rx tcp) Hat Hok q Hp Hn He Hf. pose proof Hat as [Hc Hl Hest Ha Hend]. unfold tcp_rx_enqueue. mrun (update_run _ _ _ _ Hc).
  set (w1 := set_conns _ w).
  destruct (rx_enqueue_ok irs S fin a os c seq flags data o) as (os1 & Hok1 & Hl1 & Ha1 & Hst1 & Hin); [done..|].
  assert (at_offset tcp irs fin w1 (rx_enqueue seq flags data c) a) as Hat1.
  { split; [apply lookup_insert_eq|done|by rewrite Hst1|congruence|done]. }
  destruct (process_rx_run env tcp received Happ irs S fin a fuel (rx_queue (rx_enqueue seq flags data c)) os1 w1 _ a Hat1 eq_refl)
    as (w' & c' & a' & k & E' & Hat' & Hr & Hft & Hrec & Hq & Hgap & Hdone); [lia|lia|done|].
  exists w', c', a', (drop k os1). split; [exact E'|]. rewrite Hq. rewrite Hst1 in Hft.
  split_and!; try (done || lia); [apply Forall2_drop, Hok1|].
  intros Hwin Hlen Hoa. destruct (Hin (established_has _ (TCP_STATE_RCVD TCP_SYN) eq_refl ltac:(done) Hest) Hwin Hlen Hoa) as (i & Hi1 & Hi2).
  destruct (decide (i < k)%nat).
  - assert (o + seq_len q <= a') as Hd; [|done]. eapply (Forall2_lookup_lr _ _ _ i _ _ Hdone); by rewrite lookup_take_lt.
  - eapply (Forall_lookup_1 _ _ (i - k)) in Hgap; [|rewrite lookup_drop; rewrite <- Hi2; f_equal; lia]. lia.
Qed.

(** ** Instances: an application that keeps what it receives, answers each
    delivery and closes the connection. *)
Definition keeping_env : tcp_env (list Z) :=
  TcpEnv 18 (fun _ _ => 65536) (fun _ d w => (set_net (net w ++ d) w, RC_OK)) (fun _ _ w => w) (fun _ _ w => w)
    (fun _ w => w) (fun _ w => w) (fun _ _ n => (n, RC_OK)).

Lemma keeping_client P : client P keeping_env.
Proof. split; intros; first [by apply runs_end|by split]. Qed.

Definition answering_env : tcp_env (list Z) :=
  TcpEnv 18 (fun _ _ => 65536)
    (fun tcp d w =>
       match '(w1, _) ← tcp_xfer_deliver keeping_env tcp [42] w; tcp_xfer_close keeping_env tcp RC_OK w1 with
       | Some (w2, _) => (set_net (net w ++ d) w2, RC_OK)
       | None => (set_net (net w ++ d) w, RC_ERR EINVAL)
       end) (fun _ _ w => w) (fun _ _ w => w) (fun _ w => w) (fun _ w => w) (fun _ _ n => (n, RC_OK)).

Lemma answering_client P : client P answering_env.
Proof.
  split; intros; try first [by apply runs_end|by split]. cbn [xfer_deliver_iob answering_env].
  destruct (tcp_xfer_deliver _ _ _ _) as [[w1 r]|] eqn:E1; cbn [mbind option_bind]; [|by apply runs_end].
  destruct (tcp_xfer_close _ _ _ _) as [[w2 []]|] eqn:E2; [|by apply runs_end].
  apply (runs_call _ keeping_env w w w1); [done|apply keeping_client|by eapply call_deliver|].
  apply (runs_call _ keeping_env w1 w1 w2); [done|apply keeping_client|by eapply call_close|by apply runs_end].
Qed.

#[export] Instance answering_logs tcp : Logs answering_env tcp (fun l => l).
Proof. split; [|done]. intros d w. cbn [xfer_deliver_iob answering_env]. by destruct (_ ≫= _) as [[w2 ?]|]. Qed.

Definition keeping_world : tcp_world (list Z) :=
  World {[1%positive := established]} [1%positive] None (established_timers true) 2 [] [] 120 [].

Lemma tcp_rx_in_order_witness :
  exists w' c', (_ ← tcp_rx_enqueue 1 5000 (Z.lor TCP_ACK TCP_FIN) [7; 8; 9]; tcp_process_rx_queue answering_env 3 1) keeping_world
      = Some (w', tt) /\ conns w' !! 1%positive = Some c' /\ rcv_ack c' = 5004 /\ net w' = [7; 8; 9] /\
    fin_bit (tcp_state c') = true.
Proof.
  destruct (tcp_rx_in_order answering_env 1 (fun l => l) 5000 (fun i => 7 + i) (Some 3) keeping_world established [] 0 5000 (Z.lor TCP_ACK TCP_FIN)
    [7; 8; 9] 0 3) as (w' & c' & a' & os' & Hrun & [Hc _ _ Hack Hend] & Hle & Hlog & Hfin & _ & _ & Hw);
    [apply answering_client| |split; constructor| |done|simpl; lia|simpl; lia|].
  { split; [done|by_decide|done|done|]. intros F [= <-]. lia. }
  { split; [done|done|intros F [= <-]; done|done]. }
  assert (a' = 4) as ->.
  { specialize (Hend 3 eq_refl). assert (seq_len (RxQueued 5000 (Z.land (Z.lor TCP_ACK TCP_FIN) TCP_FIN) [7; 8; 9]) = 4) as El by done.
    rewrite El in Hw. specialize (Hw ltac:(simpl; lia) ltac:(lia) ltac:(lia)). lia. }
  exists w', c'. split_and!; try done.
Defined.
