(* ===== verification/TcpConn.v ===== *)
(** * TCP connections: binding, demultiplexing, discarding, and what
    the listening support does with unexpected packets.  Theorems on the
    model of [Tcp]. *)
From S2P Require Import Prelude LinkedList Malloc Checksum Retry Tcp TcpLemmas TcpTx.

(** ** Binding. *)
Lemma bind_port_run {E} tcp port (w : tcp_world E) c :
  conns w !! tcp = Some c ->
  tcp_bind_port tcp port w =
    if port_in_use w port then Some (w, RC_ERR EADDRINUSE)
    else Some (set_conns (<[tcp := set_local_port port c]> (conns w)) w, RC_OK).
Proof.
  intros H. unfold tcp_bind_port. mrun (get_run _). destruct (port_in_use w port); [done|].
  by mrun (update_run _ _ _ _ H).
Qed.

Lemma bind_loop_run {E} n tcp (w : tcp_world E) c port :
  conns w !! tcp = Some c ->
  (exists p, bind_loop n tcp port w = Some (set_conns (<[tcp := set_local_port p c]> (conns w)) w, RC_OK) /\
     1024 <= p < 2 ^ 16 /\ port_in_use w p = false) \/
  (bind_loop n tcp port w = Some (w, RC_ERR EADDRINUSE) /\
   forall i, (1 <= i <= n)%nat -> 1024 <= u16 (port + Z.of_nat i) -> port_in_use w (u16 (port + Z.of_nat i)) = true).
Proof.
  intros H. revert port. induction n as [|n IH]; intros port; cbn [bind_loop].
  { right. split; [done|]. lia. }
  pose proof (wrap_range 16 (port + 1) ltac:(lia)) as Hr.
  assert (forall i, (1 <= i)%nat -> u16 (u16 (port + 1) + Z.of_nat i) = u16 (port + Z.of_nat (S i))) as Hi.
  { intros i _. rewrite wrap_add_l by lia. f_equal. lia. }
  destruct (Z.ltb_spec (u16 (port + 1)) 1024).
  - destruct (IH (u16 (port + 1))) as [?|[E1 Hn]]; [by left|]. right. split; [done|].
    intros [|[|i]] Hin; [lia|change (Z.of_nat 1) with 1; lia|]. rewrite <- Hi by lia. apply Hn. lia.
  - destruct (port_in_use w (u16 (port + 1))) eqn:Eu; pose proof (bind_port_run tcp (u16 (port + 1)) w c H) as Eb;
      rewrite Eu in Eb; mrun Eb.
    + destruct (IH (u16 (port + 1))) as [?|[E1 Hn]]; [by left|]. right. split; [done|].
      intros [|[|i]] Hin; [lia|done|]. rewrite <- Hi by lia. apply Hn. lia.
    + left. exists (u16 (port + 1)). split_and!; try (done || lia). 
Qed.

(** Binding to a given port succeeds exactly when no connection uses
    it.  Binding to port zero terminates for every random starting point:
    it either gives the connection an unused port between 1024 and 65535,
    or fails with all of those ports in use. *)
Theorem tcp_bind_spec {E} tcp port (w : tcp_world E) c r pool :
  conns w !! tcp = Some c -> random_pool w = r :: pool ->
  (port <> 0 -> tcp_bind tcp port w =
     if port_in_use w port then Some (w, RC_ERR EADDRINUSE)
     else Some (set_conns (<[tcp := set_local_port port c]> (conns w)) w, RC_OK)) /\
  ((exists p, tcp_bind tcp 0 w =
      Some (set_random_pool pool (set_conns (<[tcp := set_local_port p c]> (conns w)) w), RC_OK) /\
      1024 <= p < 2 ^ 16 /\ port_in_use w p = false) \/
   (tcp_bind tcp 0 w = Some (set_random_pool pool w, RC_ERR EADDRINUSE) /\
    forall p, 1024 <= p < 2 ^ 16 -> port_in_use w p = true)).
Proof.
  intros H Hp. unfold tcp_bind. split.
  - intros Hne. unfold ctrue. destruct (Z.eqb_spec port 0); [done|]. by apply bind_port_run.
  - change (ctrue 0) with false. cbn iota.
    assert (random w = Some (set_random_pool pool w, r)) as Er by (unfold random; by rewrite Hp). mrun Er.
    destruct (bind_loop_run (Z.to_nat 65536) tcp (set_random_pool pool w) c (u16 r) H) as [(p & -> & Hr & Hu)|[-> Hn]].
    + left. by exists p.
    + right. split; [done|]. intros p Hpr. pose proof (wrap_range 16 r ltac:(lia)).
      set (d := (p - u16 r - 1) mod 65536). assert (0 <= d < 65536) by (apply Z.mod_pos_bound; lia).
      specialize (Hn (Z.to_nat (d + 1))). replace (Z.of_nat (Z.to_nat (d + 1))) with (d + 1) in Hn by lia.
      assert (u16 (u16 r + (d + 1)) = p) as Ed by (unfold d, wrap in *; zdm).
      rewrite Ed in Hn. apply Hn; lia.
Qed.

(** ** Demultiplexing. *)
Definition matches (c : tcp_connection) (lport pport : Z) : bool :=
  (local_port c =? lport) && (st_port (peer c) =? pport) && ctrue pport.

Lemma demux_loop_spec {E} (w : tcp_world E) l lst lport pport :
  (forall t, t ∈ l -> exists c, conns w !! t = Some c) ->
  (exists t c, demux_loop w l lst lport pport = Some (Some t) /\ t ∈ l /\ conns w !! t = Some c /\
     matches c lport pport = true) \/
  ((forall t c, t ∈ l -> conns w !! t = Some c -> matches c lport pport = false) /\
   exists lst', demux_loop w l lst lport pport =
     (tcp ← lst'; c ← conns w !! tcp; Some (if local_port c =? lport then Some tcp else None)) /\
     ((lst' = lst /\ forall t c, t ∈ l -> conns w !! t = Some c -> tcp_state c <> TCP_LISTEN) \/
      exists t c, lst' = Some t /\ t ∈ l /\ conns w !! t = Some c /\ tcp_state c = TCP_LISTEN)).
Proof.
  revert lst. induction l as [|t l IH]; intros lst Hin.
  { right. split; [by intros ? ? ?%not_elem_of_nil|]. exists lst. split; [done|]. left. split; [done|].
    by intros ? ? ?%not_elem_of_nil. }
  destruct (Hin t) as [c Hc]; [set_solver|]. cbn [demux_loop]. rewrite Hc. cbn [mbind option_bind].
  fold (matches c lport pport). destruct (matches c lport pport) eqn:Em.
  { left. exists t, c. split_and!; try done. set_solver. }
  set (lst1 := if tcp_state c =? TCP_LISTEN then Some t else lst).
  destruct (IH lst1) as [(t' & c' & -> & ? & ? & ?)|(Hno & lst' & -> & Hl)]; [set_solver|left; exists t', c'; split_and!; try done; set_solver|].
  right. split; [intros t' c' [->|?]%elem_of_cons ?; [congruence|by eapply Hno]|]. exists lst'. split; [done|].
  destruct Hl as [[-> Hl]|(t' & c' & -> & ? & ? & ?)].
  - unfold lst1. destruct (Z.eqb_spec (tcp_state c) TCP_LISTEN).
    + right. exists t, c. split_and!; try done. set_solver.
    + left. split; [done|]. intros t' c' [->|?]%elem_of_cons ?; [congruence|by eapply Hl].
  - right. exists t', c'. split_and!; try done. set_solver.
Qed.

(** Demultiplexing finds a connection with both ports if there is one;
    otherwise a listening connection on the local port, or nothing; and if
    no connection is listening at all it dereferences a null pointer, so
    that a packet for no connection is not answered with a reset. *)
Theorem tcp_demux_spec {E} (w : tcp_world E) lport pport :
  (forall t, t ∈ tcp_conns w -> exists c, conns w !! t = Some c) ->
  (forall t, tcp_demux lport pport w = Some (w, Some t) ->
     exists c, t ∈ tcp_conns w /\ conns w !! t = Some c /\
       (matches c lport pport = true \/ (tcp_state c = TCP_LISTEN /\ local_port c = lport))) /\
  (tcp_demux lport pport w = Some (w, None) ->
     forall t c, t ∈ tcp_conns w -> conns w !! t = Some c -> matches c lport pport = false) /\
  (tcp_demux lport pport w = None <->
     forall t c, t ∈ tcp_conns w -> conns w !! t = Some c ->
       matches c lport pport = false /\ tcp_state c <> TCP_LISTEN).
Proof.
  intros Hin. unfold tcp_demux.
  destruct (demux_loop_spec w (tcp_conns w) None lport pport Hin)
    as [(t & c & -> & Ht & Hc & Hm)|(Hno & lst' & -> & [[-> Hl]|(t & c & -> & Ht & Hc & Hs)])]; cbn [mbind option_bind].
  - split_and!; [intros ? [= <-]; eauto|done|]. split; [done|]. intros Hall. destruct (Hall t c Ht Hc). congruence.
  - split_and!; [done|done|]. split; [|done]. intros _ t c Ht Hc. split; eauto.
  - rewrite Hc. cbn [mbind option_bind]. destruct (Z.eqb_spec (local_port c) lport); split_and!; try done.
    + intros ? [= <-]. exists c. split_and!; auto.
    + split; [done|]. intros Hall. by destruct (Hall t c Ht Hc).
    + split; [done|]. intros Hall. by destruct (Hall t c Ht Hc).
Qed.

(** ** Discarding queued packets. *)
Definition queued_packets {E} (w : tcp_world E) : nat :=
  sum_list_with (fun t => match conns w !! t with Some c => length (rx_queue c) | None => O end) (tcp_conns w).

Lemma discard_conn_spec c :
  let '(c', n) := discard_conn c in
  (rx_queue c = [] /\ c' = c /\ n = 0) \/
  (rx_queue c <> [] /\ n = 1 /\ rx_queue c' = removelast (rx_queue c) /\ rcv_ack c' = rcv_ack c /\
   tx_queue c' = tx_queue c /\ tcp_state c' = tcp_state c /\ max_rcv_win c' <= max_rcv_win c).
Proof.
  unfold discard_conn. destruct (last (rx_queue c)) as [q|] eqn:El.
  - right. split; [intros E; by rewrite E in El|]. destruct (Z.ltb_spec (u32 (q_seq q - rcv_ack c)) (max_rcv_win c)); simpl; split_and!; done || lia.
  - left. apply last_None in El. by rewrite El.
Qed.

Definition discarded_at {E} (w : tcp_world E) (t : loc) : nat :=
  match conns w !! t with Some c => match rx_queue c with [] => O | _ => 1%nat end | None => O end.

Lemma discard_conn_count c :
  (discard_conn c).2 = Z.of_nat (match rx_queue c with [] => O | _ => 1%nat end) /\
  (length (rx_queue (discard_conn c).1) + match rx_queue c with [] => O | _ => 1%nat end = length (rx_queue c))%nat /\
  (rx_queue c = [] -> (discard_conn c).1 = c).
Proof.
  pose proof (discard_conn_spec c) as H. destruct (discard_conn c) as [c' n]. simpl.
  destruct H as [(Hq & -> & ->)|(Hq & -> & -> & _)].
  - by rewrite Hq.
  - destruct (rx_queue c) as [|x l] eqn:E; [done|]. rewrite removelast_firstn_len, length_take. simpl. split_and!; [done|lia|done].
Qed.

Lemma sum_add {A} (f g h : A -> nat) l :
  (forall x, x ∈ l -> (f x + g x = h x)%nat) -> (sum_list_with f l + sum_list_with g l = sum_list_with h l)%nat.
Proof.
  induction l as [|x l IH]; intros H; [done|]. simpl. rewrite <- (H x), <- IH by set_solver. lia.
Qed.

Lemma sum_ext {A} (f g : A -> nat) l :
  (forall x, x ∈ l -> f x = g x) -> sum_list_with f l = sum_list_with g l.
Proof. induction l as [|x l IH]; intros H; [done|]. simpl. rewrite (H x), IH by set_solver. done. Qed.

Lemma discard_loop_run {E} l : forall (w : tcp_world E),
  NoDup l -> (forall t, t ∈ l -> exists c, conns w !! t = Some c) ->
  exists m, discard_loop l w = Some (set_conns m w, Z.of_nat (sum_list_with (discarded_at w) l)) /\
    forall t, m !! t = if decide (t ∈ l) then (fun c => (discard_conn c).1) <$> conns w !! t else conns w !! t.
Proof.
  induction l as [|t l IH]; intros w Hnd Hin.
  { exists (conns w). split; [by rewrite set_conns_id|]. intros t. rewrite decide_False by apply not_elem_of_nil. done. }
  apply NoDup_cons in Hnd as [Hni Hnd]. destruct (Hin t) as [c Hc]; [set_solver|].
  cbn [discard_loop]. rewrite Hc. cbn [mbind option_bind]. pose proof (discard_conn_count c) as (Hn & _ & _).
  destruct (discard_conn c) as [c' n] eqn:Ed. simpl in Hn.
  destruct (IH (set_conns (<[t := c']> (conns w)) w) Hnd) as (m & -> & Hm).
  { intros t' Ht'. simpl. rewrite lookup_insert_ne by congruence. apply Hin. set_solver. }
  cbn [mbind option_bind]. exists m. split.
  - do 2 f_equal. cbn [sum_list_with]. unfold discarded_at at 2. rewrite Hc, Nat2Z.inj_add, <- Hn. f_equal. f_equal.
    apply sum_ext. intros x Hx. unfold discarded_at. simpl. by rewrite lookup_insert_ne by congruence.
  - intros x. rewrite Hm. simpl. destruct (decide (x = t)) as [->|].
    + rewrite decide_False, decide_True by (done || set_solver). rewrite lookup_insert_eq, Hc. simpl. by rewrite Ed.
    + rewrite lookup_insert_ne by congruence. repeat case_decide; set_solver.
Qed.

(** Discarding drops the last queued packet of every connection that
    has one and reports how many it dropped; when it reports none it has
    changed nothing, otherwise there is strictly less left to discard, so
    repeated discarding ends.  It never touches the acknowledgement number,
    the transmit queue or the state of a connection. *)
Theorem tcp_discard_spec {E} (w : tcp_world E) :
  NoDup (tcp_conns w) -> (forall t, t ∈ tcp_conns w -> exists c, conns w !! t = Some c) ->
  exists w' n, tcp_discard w = Some (w', n) /\ tcp_conns w' = tcp_conns w /\ 0 <= n /\
    Z.of_nat (queued_packets w') + n = Z.of_nat (queued_packets w) /\ (n = 0 -> w' = w) /\
    forall t c', conns w' !! t = Some c' -> exists c, conns w !! t = Some c /\
      rcv_ack c' = rcv_ack c /\ tx_queue c' = tx_queue c /\ tcp_state c' = tcp_state c.
Proof.
  intros Hnd Hin. unfold tcp_discard. destruct (discard_loop_run _ w Hnd Hin) as (m & -> & Hm).
  eexists _, _. split; [done|]. split_and!; [done|lia| |..].
  - rewrite <- Nat2Z.inj_add. f_equal. unfold queued_packets. cbn [tcp_conns conns set_conns].
    apply sum_add. intros t Ht. rewrite Hm, decide_True by done. destruct (Hin t Ht) as [c Hc].
    unfold discarded_at. rewrite Hc. simpl. apply discard_conn_count.
  - intros Hz. replace m with (conns w); [apply set_conns_id|]. apply map_eq. intros t. rewrite Hm.
    case_decide as Ht; [|done]. destruct (Hin t Ht) as [c Hc]. rewrite Hc. simpl. f_equal. symmetry.
    apply discard_conn_count. pose proof (sum_list_with_in t (discarded_at w) _ Ht) as Hle.
    unfold discarded_at at 1 in Hle. rewrite Hc in Hle. destruct (rx_queue c); [done|lia].
  - simpl. intros t c'. rewrite Hm. case_decide as Ht; [|by eauto]. destruct (Hin t Ht) as [c Hc]. rewrite Hc. simpl. intros [= <-].
    exists c. split; [done|]. pose proof (discard_conn_spec c) as H. destruct (discard_conn c) as [c' n]. simpl.
    destruct H as [(_ & -> & _)|(_ & _ & _ & ? & ? & ? & _)]; done.
Qed.

(** ** Packets to a listening connection.  A world with one connection, at
    1, listening on port 45501. *)
Definition listening : tcp_connection :=
  set_max_rcv_win TCP_MAX_WINDOW_SIZE (set_snd_seq 1000 (set_local_port LISTEN_PORT tcp_zero)).

Definition listening_world : tcp_world (list (list Z)) :=
  World {[1%positive := listening]} [1%positive] (Some 1%positive)
    (Timers [] (<[timer_of 1 := Timer false 0 0 0 0 0 (Some 1%positive)]>
                {[wait_of 1 := Timer false 0 0 0 0 0 (Some 1%positive)]}) (Refs {[1%positive := 1]} []))
    0 [77; 78; 79] [Some 2%positive; Some 3%positive; Some 4%positive; Some 5%positive] 1000 [].

Definition peer_host : sockaddr_tcpip := Sockaddr [10; 0; 0; 2] 0.

(** A packet from port 6881 of the peer to the listening port. *)
Definition to_listener (flags : Z) : list Z :=
  with_csum (tcp_header 6881 LISTEN_PORT 5000 4242 80 flags 1000).

(** A stray acknowledgement to the listening port is answered with a
    reset, but the connection made for it stays in the list of connections,
    in state LISTEN, and becomes the listener of later packets. *)
Theorem stray_ack_leaks_connection :
  exists w c, tcp_rx quiet_env 4 (to_listener TCP_ACK) peer_host TCPIP_EMPTY_CSUM listening_world
      = Some (w, RC_ERR EINVAL) /\ tcp_conns w = [1%positive; 2%positive] /\
    conns w !! 2%positive = Some c /\ tcp_state c = TCP_LISTEN /\
    tcp_demux LISTEN_PORT 9999 w = Some (w, Some 2%positive).
Proof. eexists _, _. split; [vm_compute; reflexivity|]. by split_and!. Qed.

(** ** Options. *)
(** An option of length zero, other than the end and padding options,
    makes the option parser loop forever: no number of iterations is
    enough. *)
Theorem zero_length_option_hangs packet data end_ options kind fuel :
  data < end_ -> byte_at packet data = Some kind -> kind <> TCP_OPTION_END -> kind <> TCP_OPTION_NOP ->
  byte_at packet (data + 1) = Some 0 ->
  tcp_rx_opts fuel packet data end_ options = None.
Proof.
  intros Hd Hk He Hn Hl. revert options. induction fuel as [|fuel IH]; intros options; [done|].
  cbn [tcp_rx_opts]. destruct (Z.ltb_spec data end_); [|lia]. cbn [negb]. rewrite Hk. cbn [mbind option_bind].
  destruct (Z.eqb_spec kind TCP_OPTION_END), (Z.eqb_spec kind TCP_OPTION_NOP); try done.
  rewrite Hl. cbn [mbind option_bind]. rewrite Z.add_0_r. apply IH.
Qed.

(** ** Instances. *)
Lemma listening_conns t : t ∈ tcp_conns listening_world -> exists c, conns listening_world !! t = Some c.
Proof. intros ->%list_elem_of_singleton. by eexists. Qed.

Lemma tcp_bind_spec_witness :
  tcp_bind 1 80 listening_world =
    Some (set_conns (<[1%positive := set_local_port 80 listening]> (conns listening_world)) listening_world, RC_OK).
Proof. apply (tcp_bind_spec 1 80 listening_world listening 77 [78; 79]); done. Defined.

Lemma tcp_demux_spec_witness :
  exists c, 1%positive ∈ tcp_conns listening_world /\ conns listening_world !! 1%positive = Some c /\
    (matches c LISTEN_PORT 9999 = true \/ (tcp_state c = TCP_LISTEN /\ local_port c = LISTEN_PORT)).
Proof. apply (tcp_demux_spec listening_world LISTEN_PORT 9999 listening_conns). vm_compute. reflexivity. Defined.

Lemma tcp_discard_spec_witness :
  exists w' n, tcp_discard listening_world = Some (w', n) /\ tcp_conns w' = tcp_conns listening_world /\ 0 <= n.
Proof.
  destruct (tcp_discard_spec listening_world) as (w' & n & ? & ? & ? & _); [by_decide|apply listening_conns|].
  by exists w', n.
Defined.

Lemma zero_length_option_hangs_witness :
  tcp_rx_opts 1000 [5; 0; 0; 0] 0 4 (Options None None None) = None.
Proof. apply (zero_length_option_hangs [5; 0; 0; 0] 0 4 (Options None None None) 5 1000); done. Defined.
