(* ===== verification/TcpState.v ===== *)
(** * The TCP state machine: every handler of [Tcp] keeps each connection of
    the list in one of a fixed set of states.  The argument is about what
    the handlers do to the list of connections, the states and the
    TCP_XFER_CLOSED flags; everything else is shown not to matter. *)
From S2P Require Import Prelude LinkedList Malloc Checksum Retry Tcp TcpLemmas TcpView TcpApp.

(** ** States.  Besides the states of the diagram there is one in which our
    SYN is acknowledged before the peer's SYN has arrived, and three in
    which the connection is being closed with our SYN still
    unacknowledged: with a FIN sent, with a FIN received, and with both. *)
Definition TCP_SYN_ACKED : Z := Z.lor (TCP_STATE_SENT TCP_SYN) (TCP_STATE_ACKED TCP_SYN).
Definition SYN_RCVD_FIN_SENT : Z := Z.lor TCP_SYN_RCVD (TCP_STATE_SENT TCP_FIN).
Definition SYN_RCVD_FIN_RCVD : Z := Z.lor TCP_SYN_RCVD (TCP_STATE_RCVD TCP_FIN).
Definition SYN_RCVD_CLOSING : Z := Z.lor SYN_RCVD_FIN_SENT (TCP_STATE_RCVD TCP_FIN).

Definition known_states : list Z :=
  [TCP_LISTEN; TCP_SYN_SENT; TCP_SYN_ACKED; TCP_SYN_RCVD; TCP_ESTABLISHED; TCP_FIN_WAIT_1; TCP_FIN_WAIT_2;
   TCP_CLOSING_OR_LAST_ACK; TCP_TIME_WAIT; TCP_CLOSE_WAIT; SYN_RCVD_FIN_SENT; SYN_RCVD_FIN_RCVD;
   SYN_RCVD_CLOSING].

Definition rcvd_syn (s : Z) : bool := ctrue (Z.land s (TCP_STATE_RCVD TCP_SYN)).

(** A state and whether the application's side is closed. *)
Definition good (sb : Z * bool) : Prop := sb.1 ∈ known_states /\ (sb.2 = true -> rcvd_syn sb.1 = true).

#[export] Instance good_dec sb : Decision (good sb).
Proof. unfold good. apply _. Defined.

(** What the argument looks at. *)
Definition xfer_closed (c : tcp_connection) : bool := ctrue (Z.land (tcp_flags c) TCP_XFER_CLOSED).
Definition conn_view (c : tcp_connection) : Z * bool := (tcp_state c, xfer_closed c).
Abbreviation view := (view_of conn_view).
Abbreviation update_view := (update_shows conn_view).
Abbreviation conn_at := (conn_shows conn_view).
Abbreviation get_conn_view := (get_conn_shows conn_view).
Abbreviation init_conn_view := (init_conn_shows conn_view).

(** The events a world of connections goes through, for any connections. *)
Inductive handler_step {E} (env : tcp_env E) : tcp_world E -> tcp_world E -> Prop :=
| do_open st_peer st_local w w' r :
    tcp_open env st_peer st_local w = Some (w', r) -> handler_step env w w'
| do_rx fuel packet st_src csum w w' r :
    tcp_rx env fuel packet st_src csum w = Some (w', r) -> handler_step env w w'
| do_expired tcp over w w' :
    tcp_expired env tcp over w = Some (w', tt) -> handler_step env w w'
| do_wait_expired tcp w w' :
    tcp_wait_expired env tcp w = Some (w', tt) -> handler_step env w w'
| do_xfer_close tcp r w w' :
    tcp_xfer_close env tcp r w = Some (w', tt) -> handler_step env w w'
| do_xfer_deliver tcp data w w' r :
    tcp_xfer_deliver env tcp data w = Some (w', r) -> handler_step env w w'
| do_discard w w' n : tcp_discard w = Some (w', n) -> handler_step env w w'
| do_shutdown fuel w w' : tcp_shutdown env fuel w = Some (w', tt) -> handler_step env w w'
| do_tick now pool allocs w :
    handler_step env w (set_ticks now (set_random_pool pool (set_alloc_pool allocs w))).

(** The other bits of [tcp_flags] are not looked at. *)
Lemma closed_lor c f : Z.land f TCP_XFER_CLOSED = 0 ->
  xfer_closed (set_tcp_flags (Z.lor (tcp_flags c) f) c) = xfer_closed c.
Proof. intros Hf. unfold xfer_closed. simpl. by rewrite Z.land_lor_distr_l, Hf, Z.lor_0_r. Qed.

Lemma closed_clear_ack c :
  xfer_closed (set_tcp_flags (Z.land (tcp_flags c) (Z.lnot TCP_ACK_PENDING)) c) = xfer_closed c.
Proof. unfold xfer_closed. simpl. by rewrite <- Z.land_assoc. Qed.

#[export] Instance conn_view_inert : Inert conn_view.
Proof. split; try done. intros c. unfold conn_view. by rewrite closed_clear_ack. Qed.

Section Same.
Context {E : Type}.

Lemma same_rx_seq tcp n : same conn_view (tcp_rx_seq tcp n : M E unit).
Proof. apply same_update. intros c. unfold conn_view, rx_seq. f_equal. by rewrite closed_lor. Qed.

Lemma same_rx_enqueue tcp seq flags data : same conn_view (tcp_rx_enqueue tcp seq flags data : M E unit).
Proof. apply same_update. intros c. unfold rx_enqueue. by destruct (_ || _). Qed.

Lemma same_discard_loop l (w w' : tcp_world E) n : discard_loop l w = Some (w', n) -> view w' = view w.
Proof.
  revert w n. induction l as [|tcp l IH]; intros w n; cbn [discard_loop]; [by intros [= <- _]|].
  destruct (conns w !! tcp) as [c|] eqn:Hc; [|done]. cbn [mbind option_bind].
  destruct (discard_conn c) as [c' k] eqn:Hd.
  destruct (discard_loop l _) as [[w1 m]|] eqn:Hl; [|done]. intros [= <- _]. rewrite (IH _ _ Hl).
  apply (put_same _ c); [done|]. revert Hd. unfold discard_conn. destruct (last _); [|by intros [= <- _]].
  destruct (_ <? _); by intros [= <- _].
Qed.
End Same.

(** ** The states stay good. *)
Definition acked (s : Z) : Z :=
  let f := Z.land (TCP_FLAGS_SENDING s) (Z.lor TCP_SYN TCP_FIN) in
  if ctrue f then Z.lor s (TCP_STATE_ACKED f) else s.

(** Every known state is tried. *)
Ltac each_state H := unfold known_states in H;
  repeat (apply elem_of_cons in H as [->|H]; [|]); [..|by apply not_elem_of_nil in H].

Lemma good_acked s b : good (s, b) -> good (acked s, b).
Proof. intros [Hs Hb]. simpl in *. destruct b; each_state Hs; first [by_decide | by specialize (Hb eq_refl)]. Qed.

Lemma good_sent_fin s b : good (s, b) -> rcvd_syn s = true -> good (Z.lor s (TCP_STATE_SENT TCP_FIN), b).
Proof. intros [Hs _] Hr. simpl in *. destruct b; each_state Hs; first [by_decide | done]. Qed.

Lemma good_rcvd_fin s b : good (s, b) -> rcvd_syn s = true -> good (Z.lor s (TCP_STATE_RCVD TCP_FIN), b).
Proof. intros [Hs _] Hr. simpl in *. destruct b; each_state Hs; first [by_decide | done]. Qed.

Lemma good_rcvd_syn s b : good (s, b) ->
  good (Z.lor s (Z.lor (TCP_STATE_SENT (if s =? TCP_LISTEN then Z.lor TCP_SYN TCP_ACK else TCP_ACK)) (TCP_STATE_RCVD TCP_SYN)), b).
Proof. intros [Hs _]. simpl in *. destruct b; each_state Hs; by_decide. Qed.

Lemma rcvd_lor s f : rcvd_syn (Z.lor s f) = rcvd_syn s || rcvd_syn f.
Proof.
  unfold rcvd_syn, ctrue. rewrite Z.land_lor_distr_l.
  destruct (Z.eqb_spec (Z.land s (TCP_STATE_RCVD TCP_SYN)) 0) as [->|Hs]; [by rewrite Z.lor_0_l|].
  destruct (Z.eqb_spec (Z.lor (Z.land s (TCP_STATE_RCVD TCP_SYN)) (Z.land f (TCP_STATE_RCVD TCP_SYN))) 0) as [H|]; [|done].
  by apply Z.lor_eq_0_iff in H as [? _].
Qed.

(** Every connection of the list is good; one of [C], which a caller is about
    to close, need only be good once the peer's SYN was received. *)
Definition ok_view (C : gset loc) (v : list loc * gmap loc (Z * bool)) : Prop :=
  forall t, t ∈ v.1 -> exists sb, v.2 !! t = Some sb /\ (t ∉ C \/ rcvd_syn sb.1 = true -> good sb).

Lemma ok_weaken tcp C v : ok_view C v -> ok_view ({[tcp]} ∪ C) v.
Proof. intros H t Ht. destruct (H t Ht) as (sb & Hsb & Hg). exists sb. split; [done|]. intros [Hn|Hr]; apply Hg; [set_solver|by right]. Qed.

Lemma ok_insert C tcp l m sb : ok_view C (l, m) -> (tcp ∈ l -> tcp ∉ C \/ rcvd_syn sb.1 = true -> good sb) ->
  ok_view C (l, <[tcp := sb]> m).
Proof.
  intros H Hg t Ht. simpl in *. destruct (decide (t = tcp)) as [->|Hne].
  - exists sb. rewrite lookup_insert_eq. split; [done|]. by apply Hg.
  - destruct (H t Ht) as (sb' & ? & ?). exists sb'. by rewrite lookup_insert_ne.
Qed.

Lemma ok_unlink tcp C l m : ok_view ({[tcp]} ∪ C) (l, m) -> ok_view C (unlink tcp l, m).
Proof.
  intros H t [Hne Ht]%unlink_elem. destruct (H t Ht) as (sb & Hsb & Hg). exists sb. split; [done|].
  intros [Hn|Hr]; apply Hg; [set_solver|by right].
Qed.

(** The exception for a connection that is good is not needed. *)
Lemma ok_strengthen tcp C v : ok_view ({[tcp]} ∪ C) v -> (forall sb, tcp ∈ v.1 -> v.2 !! tcp = Some sb -> good sb) -> ok_view C v.
Proof.
  intros H Hg t Ht. destruct (H t Ht) as (sb & Hsb & Hg'). exists sb. split; [done|]. intros Ho.
  destruct (decide (t = tcp)) as [->|]; [by apply Hg|]. apply Hg'. destruct Ho; [set_solver|by right].
Qed.

Lemma ok_good v tcp sb : ok_view ∅ v -> tcp ∈ v.1 -> v.2 !! tcp = Some sb -> good sb.
Proof. intros H Ht Hsb. destruct (H _ Ht) as (sb' & ? & Hg). simplify_eq. apply Hg. left. set_solver. Qed.

(** The connection moved to a state that is good if the old one was. *)
Definition moved {E} (tcp : loc) (w w' : tcp_world E) : Prop :=
  exists s b s', (view w).2 !! tcp = Some (s, b) /\
    view w' = ((view w).1, <[tcp := (s', b)]> (view w).2) /\ (good (s, b) -> good (s', b)).

Lemma moved_same {E} tcp (w w' : tcp_world E) sb : (view w).2 !! tcp = Some sb -> view w' = view w -> moved tcp w w'.
Proof.
  intros H Hv. destruct sb as [s b]. exists s, b, s. split_and!; try done. rewrite insert_id by done. rewrite Hv.
  by destruct (view w).
Qed.

Lemma moved_trans {E} tcp (w1 w2 w3 : tcp_world E) : moved tcp w1 w2 -> moved tcp w2 w3 -> moved tcp w1 w3.
Proof.
  intros (s & b & s' & H1 & Hv1 & Hg1) (s2 & b2 & s3 & H2 & Hv2 & Hg2). rewrite Hv1 in H2, Hv2. simpl in *.
  rewrite lookup_insert_eq in H2. injection H2 as <- <-. exists s, b, s3. split_and!; try done; [|tauto].
  rewrite Hv2. f_equal. apply insert_insert_eq.
Qed.

Lemma moved_update {E} tcp f (w w' : tcp_world E) x :
  update tcp f w = Some (w', x) ->
  (forall c, conns w !! tcp = Some c -> xfer_closed (f c) = xfer_closed c /\ (good (conn_view c) -> good (tcp_state (f c), xfer_closed c))) ->
  moved tcp w w'.
Proof.
  intros (c & Hc & Hv)%update_view Hf. destruct (Hf c Hc) as [Hx Hg].
  exists (tcp_state c), (xfer_closed c), (tcp_state (f c)). split_and!; [by apply conn_at| |done].
  rewrite Hv. unfold conn_view. by rewrite Hx.
Qed.

Lemma moved_ok {E} C tcp (w w' : tcp_world E) : moved tcp w w' -> ok_view C (view w) ->
  (forall sb, tcp ∈ (view w).1 -> (view w).2 !! tcp = Some sb -> good sb) ->
  ok_view C (view w') /\ (forall sb, tcp ∈ (view w').1 -> (view w').2 !! tcp = Some sb -> good sb).
Proof.
  intros (s & b & s' & H & -> & Hg) Hok Ht. split.
  - apply ok_insert; [by destruct (view w)|]. intros Hin _. eauto.
  - intros sb Hin. simpl. rewrite lookup_insert_eq. intros [= <-]. eauto.
Qed.

Lemma moved_ok_all {E} tcp (w w' : tcp_world E) : moved tcp w w' -> ok_view ∅ (view w) -> ok_view ∅ (view w').
Proof. intros Hm Hok. apply (moved_ok ∅ tcp w w' Hm Hok). intros sb. by apply ok_good. Qed.

(** Methods of the application that keep the connections in these states. *)
Definition keeps_ok {E} (w w' : tcp_world E) : Prop := forall C, ok_view C (view w) -> ok_view C (view w').

Lemma outside_view {E} (w w' : tcp_world E) : outside w w' -> view w' = view w.
Proof. intros [H1 H2]. unfold view_of. by rewrite H1, H2. Qed.

Lemma same_exists {E A} tcp (m : M E A) w w' x sb :
  same conn_view m -> m w = Some (w', x) -> (view w).2 !! tcp = Some sb -> moved tcp w w' /\ (view w').2 !! tcp = Some sb.
Proof. intros Hs Hm Ha. apply Hs in Hm. split; [by apply (moved_same _ _ _ sb)|]. by rewrite Hm. Qed.

#[export] Hint Resolve same_rx_seq same_rx_enqueue : same.

(** The command of [H] keeps the view, in which the connection is as [A]
    says. *)
Tactic Notation "msame" hyp(H) hyp(A) "as" ident(M1) ident(A1) :=
  match type of H with
  | ?m ?w = Some (?w1, ?x) =>
      let S := fresh "S" in assert (same conn_view m) as S by keep;
      destruct (same_exists _ m w w1 x _ S H A) as [M1 A1]; clear S H
  end.

Section States.
Context {E : Type} (env : tcp_env E) (Happ : methods_by keeps_ok env).

(** The parts of [tcp_rx_ack] that change the state. *)
Lemma rx_ack_flags tcp (w w' : tcp_world E) s b x :
  (view w).2 !! tcp = Some (s, b) ->
  (let f := Z.land (TCP_FLAGS_SENDING s) (Z.lor TCP_SYN TCP_FIN) in
   if ctrue f then update tcp (fun c => set_tcp_state (Z.lor (tcp_state c) (TCP_STATE_ACKED f)) c) else mret tt) w = Some (w', x) ->
  moved tcp w w'.
Proof.
  intros Ha. cbv zeta. destruct (ctrue _) eqn:Hf; [|intros [= <- _]; by apply (moved_same _ _ _ (s, b))].
  intros Hu. apply (moved_update _ _ _ _ _ Hu). intros c Hc%conn_at. split; [done|]. rewrite Ha in Hc.
  injection Hc as -> ->. intros Hg%good_acked. unfold acked in Hg. cbv zeta in Hg. by rewrite Hf in Hg.
Qed.

Lemma rx_ack_fin tcp (w w' : tcp_world E) c x :
  conns w !! tcp = Some c ->
  (if match tx_queue c with [] => true | _ => false end && ctrue (Z.land (tcp_flags c) TCP_XFER_CLOSED) &&
      negb (ctrue (Z.land (tcp_state c) (TCP_STATE_SENT TCP_FIN)))
   then _ ← update tcp (fun c => set_tcp_state (Z.lor (tcp_state c) (TCP_STATE_SENT TCP_FIN)) c);
        pending_flags_op pending_get tcp
   else mret tt) w = Some (w', x) ->
  moved tcp w w'.
Proof.
  intros Hc. destruct (_ && _) eqn:Hf; [|intros [= <- _]; by apply (moved_same _ _ _ (conn_view c)); [apply conn_at|]].
  apply andb_true_iff in Hf as [[_ Hx]%andb_true_iff _]. intros H. minv H as w1 y Hu.
  apply (moved_trans _ _ w1).
  - apply (moved_update _ _ _ _ _ Hu). intros c' Hc'. simplify_eq. split; [done|]. intros Hg. apply good_sent_fin; [done|].
    by apply (proj2 Hg).
  - destruct (update_view _ _ _ _ _ Hu) as (c' & _ & Hv). apply (same_pending_flags conn_view) in H.
    eapply moved_same; [|done]. rewrite Hv. apply lookup_insert_eq.
Qed.

Lemma rx_ack_moved tcp ack win (w w' : tcp_world E) r : tcp_rx_ack tcp ack win w = Some (w', r) -> moved tcp w w'.
Proof.
  unfold tcp_rx_ack. intros H. minv H as w1 c H1. apply get_conn_view in H1 as (-> & Hc & Ha).
  assert (view w' = view w -> moved tcp w w') as Hsame by by apply (moved_same _ _ _ (conn_view c)).
  destruct (_ <? _).
  { apply Hsame. destruct (TCP_HAS_BEEN_ESTABLISHED _); by injection H as <- _. }
  destruct (_ =? 0); [apply Hsame; by injection H as <- _|]. clear Hsame.
  set (f := Z.land (TCP_FLAGS_SENDING (tcp_state c)) (Z.lor TCP_SYN TCP_FIN)) in *.
  minv H as w1 y H1. msame H1 Ha as M1 A1. minv H as w2 y2 H2. msame H2 A1 as M2 A2.
  minv H as w3 y3 H3. msame H3 A2 as M3 A3. minv H as w4 y4 H4. msame H4 A3 as M4 A4.
  minv H as w5 y5 H5. apply (rx_ack_flags tcp w4 w5 (tcp_state c) (xfer_closed c)) in H5; [|done].
  minv H as w6 c6 H6. apply get_conn_view in H6 as (-> & Hc6 & _).
  minv H as w7 y7 H7. apply (rx_ack_fin tcp w5 w7 c6) in H7; [|done]. injection H as <- _.
  eauto 10 using moved_trans.
Qed.

(** [tcp_close] either takes the connection off the list or leaves it in a
    good state. *)
Lemma close_remove C tcp (w w' : tcp_world E) n x :
  (_ ← update tcp (fun c => tcp_dump_state (set_tcp_state TCP_CLOSED c));
   _ ← update tcp (set_rx_queue []);
   _ ← update tcp (set_tx_queue []);
   _ ← repeat_op n (pending_data_op pending_put tcp);
   _ ← pending_flags_op pending_put tcp;
   _ ← pending_flags_op pending_put tcp;
   _ ← stop_timer_op (timer_of tcp);
   _ ← stop_timer_op (wait_of tcp);
   _ ← modify (fun w => set_tcp_conns (unlink tcp (tcp_conns w)) w);
   ref_put_op tcp) w = Some (w', x) ->
  ok_view ({[tcp]} ∪ C) (view w) -> ok_view C (view w').
Proof.
  intros H Hok. minv H as w1 y1 H1. apply update_view in H1 as (c & _ & Hv1).
  assert (ok_view ({[tcp]} ∪ C) (view w1)) as Hok1.
  { rewrite Hv1. apply ok_insert; [by destruct (view w)|]. intros _ [Hn|Hr]; [set_solver|done]. }
  clear Hok Hv1. do 7 mskip H Hok1. minv H as w9 y9 H9. injection H9 as <- _.
  apply (same_ref_put conn_view) in H. rewrite H. by apply ok_unlink.
Qed.

Lemma closed_set c : xfer_closed (set_tcp_flags (Z.lor (tcp_flags c) TCP_XFER_CLOSED) c) = true.
Proof.
  unfold xfer_closed. simpl. rewrite Z.land_lor_distr_l. change (Z.land TCP_XFER_CLOSED TCP_XFER_CLOSED) with 1.
  unfold ctrue. destruct (Z.eqb_spec (Z.lor (Z.land (tcp_flags c) TCP_XFER_CLOSED) 1) 0) as [He|]; [|done].
  by apply Z.lor_eq_0_iff in He as [_ ?].
Qed.

(** The second half of [tcp_close], for a connection that got a SYN. *)
Lemma close_fin C tcp (w w' : tcp_world E) c x : ok_view C (view w) ->
  (forall sb, tcp ∈ (view w).1 -> (view w).2 !! tcp = Some sb -> good sb) -> (view w).2 !! tcp = Some (tcp_state c, true) -> rcvd_syn (tcp_state c) = true ->
  (_ ← (if negb (ctrue (Z.land (tcp_state c) (TCP_STATE_ACKED TCP_SYN)))
        then _ ← tcp_rx_ack tcp (u32 (snd_seq c + 1)) 0; mret tt else mret tt);
   c ← get_conn tcp;
   if match tx_queue c with [] => true | _ => false end && negb (ctrue (Z.land (tcp_state c) (TCP_STATE_SENT TCP_FIN)))
   then _ ← update tcp (fun c => tcp_dump_state (set_tcp_state (Z.lor (tcp_state c) (TCP_STATE_SENT TCP_FIN)) c));
        pending_flags_op pending_get tcp
   else mret tt) w = Some (w', x) -> ok_view C (view w').
Proof.
  intros Hok Hg Ha Hr H. minv H as w4 y4 H4. assert (moved tcp w w4) as M4.
  { destruct (negb _); [|injection H4 as <- _; by eapply moved_same].
    minv H4 as w4' r4 H5. injection H4 as <- _. by apply rx_ack_moved in H5. }
  destruct (moved_ok C _ _ _ M4 Hok Hg) as [Hok4 Hg4].
  minv H as w5 c5 H5. apply get_conn_view in H5 as (-> & Hc5 & Ha5).
  destruct (_ && _); [|by injection H as <- _]. minv H as w6 y6 H6. apply update_view in H6 as (c6 & Hc6 & Hv6).
  simplify_eq. apply (same_pending_flags conn_view) in H. rewrite H, Hv6. apply ok_insert; [by destruct (view w4)|]. intros Hin _.
  destruct M4 as (s & b & s' & Hs4 & Hv & _). rewrite Ha in Hs4. injection Hs4 as <- <-.
  rewrite Hv in Ha5. simpl in Ha5. rewrite lookup_insert_eq in Ha5. unfold conn_view in Ha5 |- *. injection Ha5 as -> Hb.
  change (xfer_closed _) with (xfer_closed c5). assert (good (tcp_state c5, xfer_closed c5)) as Hg5.
  { apply Hg4; [done|]. rewrite Hv. simpl. rewrite lookup_insert_eq. by rewrite <- Hb. }
  apply good_sent_fin; [done|]. apply Hg5. done.
Qed.

Lemma close_ok C tcp r (w w' : tcp_world E) x :
  tcp_close env tcp r w = Some (w', x) -> ok_view ({[tcp]} ∪ C) (view w) -> ok_view C (view w').
Proof.
  intros H Hok. unfold tcp_close in H. minv H as w1 y1 H1. injection H1 as <- _.
  apply (by_shutdown _ _ Happ tcp r) in Hok. set (w1 := intf_shutdown env tcp r w) in *. clearbody w1. clear w.
  minv H as w2 y2 H2. apply update_view in H2 as (c1 & Hc1%conn_at & Hv2).
  assert ((view w2).2 !! tcp = Some (tcp_state c1, true)) as Ha.
  { rewrite Hv2. simpl. rewrite lookup_insert_eq. unfold conn_view. by rewrite closed_set. }
  assert (tcp ∈ (view w1).1 -> rcvd_syn (tcp_state c1) = true -> good (tcp_state c1, true)) as Hg.
  { intros Hin Hr. destruct (Hok _ Hin) as (sb & Hsb & Hg). rewrite Hc1 in Hsb. injection Hsb as <-.
    split; [apply Hg; by right|done]. }
  assert (ok_view ({[tcp]} ∪ C) (view w2)) as Hok2.
  { rewrite Hv2. apply ok_insert; [by destruct (view w1)|]. unfold conn_view. rewrite closed_set.
    intros Hin [Hn|Hr]; [set_solver|by apply Hg]. }
  assert ((view w2).1 = (view w1).1) as El by by rewrite Hv2. rewrite <- El in Hg. clear Hok Hv2 Hc1 El w1.
  minv H as w3 c3 H3. apply get_conn_view in H3 as (-> & Hc3 & Ha3). rewrite Ha in Ha3. injection Ha3 as Hs Hx.
  rewrite Hs in Ha, Hg. fold (rcvd_syn (tcp_state c3)) in H. destruct (rcvd_syn (tcp_state c3)) eqn:Hr; cbn [negb] in H.
  2: { by apply close_remove with (C := C) in H. }
  assert (forall sb, tcp ∈ (view w2).1 -> (view w2).2 !! tcp = Some sb -> good sb) as Hg2.
  { intros sb Hin. rewrite Ha. intros [= <-]. by apply Hg. }
  by apply (close_fin C tcp w2 w' c3 x (ok_strengthen _ _ _ Hok2 Hg2) Hg2 Ha Hr).
Qed.

(** Forcing a connection to CLOSED and closing it takes it off the list. *)
Lemma closing_ok C tcp r (w w' : tcp_world E) x :
  (_ ← update tcp (fun c => tcp_dump_state (set_tcp_state TCP_CLOSED c)); tcp_close env tcp r) w = Some (w', x) ->
  ok_view C (view w) -> ok_view C (view w').
Proof.
  intros H Hok%(ok_weaken tcp). minv H as w1 y1 H1. pose proof (update_view _ _ _ _ _ H1) as (c & Hc & Hv).
  apply (close_ok C _ _ _ _ _ H). rewrite Hv. apply ok_insert; [by destruct (view w)|]. intros _ [Hn|Hr]; [set_solver|done].
Qed.

Lemma rx_fin_ok tcp seq (w w' : tcp_world E) r :
  tcp_rx_fin env tcp seq w = Some (w', r) -> ok_view ∅ (view w) -> ok_view ∅ (view w').
Proof.
  intros H Hok. unfold tcp_rx_fin in H. minv H as w1 c H1. apply get_conn_view in H1 as (-> & _ & _).
  destruct (negb _); [by injection H as <- _|]. mskip H Hok.
  minv H as w2 y2 H2. pose proof (update_view _ _ _ _ _ H2) as (c2 & Hc2%conn_at & Hv).
  minv H as w3 y3 H3. injection H as <- _. apply (close_ok ∅ _ _ _ _ _ H3). rewrite Hv.
  apply ok_insert; [apply ok_weaken; by destruct (view w0)|]. unfold conn_view. simpl. rewrite rcvd_lor, orb_false_r.
  intros Hin [Hn|Hr]; [set_solver|]. apply good_rcvd_fin; [|done]. by apply (ok_good _ _ _ Hok Hin).
Qed.

Lemma xfer_close_ok C tcp r (w w' : tcp_world E) x :
  tcp_close env tcp r w = Some (w', x) -> ok_view C (view w) -> ok_view C (view w').
Proof. intros H Hok. by apply (close_ok C _ _ _ _ _ H), ok_weaken. Qed.

Lemma rx_data_ok tcp seq data (w w' : tcp_world E) r :
  tcp_rx_data env tcp seq data w = Some (w', r) -> ok_view ∅ (view w) -> ok_view ∅ (view w').
Proof.
  unfold tcp_rx_data. intros H Hok. minv H as w1 c H1. apply get_conn_view in H1 as (-> & _ & _).
  destruct (_ <=? _); [by injection H as <- _|]. mskip H Hok. unfold call in H. injection H as H.
  apply (by_deliver _ _ Happ tcp (drop (Z.to_nat (u32 (rcv_ack c - seq))) data)) in Hok. by rewrite H in Hok.
Qed.

Lemma open_child_ok tcp (w w' : tcp_world E) x :
  open_child env tcp w = Some (w', x) -> ok_view ∅ (view w) -> ok_view ∅ (view w').
Proof.
  unfold open_child. intros H Hok. minv H as w1 c H1. apply get_conn_view in H1 as (-> & _ & _). mskip H Hok.
  destruct (_ && _), (listener y) as [l|]; try by injection H as <- _. minv H as w2 y2 H2. injection H2 as <- _.
  apply (by_child _ _ Happ l tcp) in Hok. apply (same_update (V := conn_view)) in H; [|done]. by rewrite H.
Qed.

Lemma rx_syn_view seq has_ts scale c :
  xfer_closed (rx_syn seq has_ts scale c) = xfer_closed c /\
  (tcp_state (rx_syn seq has_ts scale c) = tcp_state c \/
   tcp_state (rx_syn seq has_ts scale c) = Z.lor (tcp_state c)
    (Z.lor (TCP_STATE_SENT (if tcp_state c =? TCP_LISTEN then Z.lor TCP_SYN TCP_ACK else TCP_ACK)) (TCP_STATE_RCVD TCP_SYN))).
Proof.
  unfold rx_syn. match goal with |- context [rcv_ack ?x] => set (c1 := x) end.
  assert (conn_view c1 = conn_view c) as Hv.
  { unfold c1, conn_view. destruct (negb _), has_ts, scale; f_equal; try done; apply (closed_lor c TCP_TS_ENABLED); done. }
  injection Hv as Hs Hx. destruct (negb (seq =? rcv_ack c1)); [by split; [|left]|].
  assert (conn_view (rx_seq 1 c1) = conn_view c) as Hv2.
  { unfold conn_view, rx_seq. rewrite closed_lor by done. rewrite <- Hx, <- Hs. done. }
  pose proof (f_equal fst Hv2 : tcp_state (rx_seq 1 c1) = tcp_state c) as Hs2.
  pose proof (f_equal snd Hv2 : xfer_closed (rx_seq 1 c1) = xfer_closed c) as Hx2.
  rewrite Hs2, <- Hx2. split; [by destruct (_ =? _)|].
  right. by destruct (tcp_state c =? TCP_LISTEN).
Qed.

Lemma rx_syn_moved tcp seq packet options (w w' : tcp_world E) r :
  tcp_rx_syn tcp seq packet options w = Some (w', r) -> moved tcp w w'.
Proof.
  unfold tcp_rx_syn. intros H. minv H as w1 c H1. apply get_conn_view in H1 as (-> & Hc & _).
  minv H as w2 scale H2. assert (w2 = w) as ->.
  { destruct (wsopt options); [|by injection H2]. destruct (ctrue _); [by injection H2|].
    destruct (byte_at packet _); [|done]. by injection H2. }
  minv H as w3 y3 H3. injection H as <- _. apply (moved_update _ _ _ _ _ H3). intros c' _.
  destruct (rx_syn_view seq (match tsopt options with Some _ => true | None => false end) scale c') as [Hx Hs].
  split; [done|]. destruct Hs as [-> | ->]; [done|]. apply good_rcvd_syn.
Qed.

Lemma rx_rst_ok tcp seq (w w' : tcp_world E) r :
  tcp_rx_rst env tcp seq w = Some (w', r) -> ok_view ∅ (view w) -> ok_view ∅ (view w').
Proof.
  intros H Hok. unfold tcp_rx_rst in H. minv H as w1 c H1. apply get_conn_view in H1 as (-> & _ & _).
  destruct (if ctrue _ then _ else _); [by injection H as <- _|].
  minv H as w2 y2 H2. minv H as w3 y3 H3. injection H as <- _. eapply closing_ok; [|exact Hok].
  unfold mbind, M_bind. rewrite H2. exact H3.
Qed.

Lemma rx_queue_ok fuel tcp (w w' : tcp_world E) x :
  tcp_process_rx_queue env fuel tcp w = Some (w', x) -> ok_view ∅ (view w) -> ok_view ∅ (view w').
Proof.
  revert w. induction fuel as [|fuel IH]; intros w; cbn [tcp_process_rx_queue]; [done|]. intros H Hok.
  minv H as w1 c H1. apply get_conn_view in H1 as (-> & Hc & _). destruct (rx_queue c) as [|q queue]; [by injection H as <- _|].
  destruct (_ <? _); [by injection H as <- _|]. minv H as w2 y2 H2. injection H2 as <- _.
  assert (ok_view ∅ (view (set_conns (<[tcp := set_rx_queue queue c]> (conns w)) w))) as Hok2 by by rewrite (put_same _ c).
  minv H as w4 y4 H4. apply rx_data_ok in H4; [|done]. minv H as w3 y3 H3. apply (IH _ H). destruct (ctrue _); [|by injection H3 as <- _].
  minv H3 as w5 r5 H5. injection H3 as <- _. by apply rx_fin_ok in H5.
Qed.

Lemma accept_ok tcp src port (w w' : tcp_world E) t :
  accept tcp src port w = Some (w', t) -> ok_view ∅ (view w) -> ok_view ∅ (view w').
Proof.
  intros H Hok. unfold accept in H. minv H as w1 c H1. apply get_conn_view in H1 as (-> & Hc & Ha).
  destruct (Z.eqb_spec (tcp_state c) TCP_LISTEN) as [Hs|]; cbn [negb] in H; [|by injection H as <- _].
  minv H as w1 p H1. apply (same_alloc conn_view) in H1. rewrite <- H1 in Hok, Ha. clear H1.
  destruct p as [new|]; [|by injection H as <- _]. minv H as w2 y2 H2. apply init_conn_view in H2 as Hv2.
  minv H as w3 y3 H3. injection H3 as <- _. set (w3 := set_tcp_conns _ w2) in H.
  assert (ok_view ∅ (view w3)) as Hok3.
  { intros t0 [Ht0| ->%list_elem_of_singleton]%elem_of_app.
    - assert (ok_view ∅ (view w2)) as Hok2; [|by apply Hok2].
      rewrite Hv2. apply ok_insert; [by destruct (view w1)|]. intros _ _. unfold conn_view. simpl. rewrite Hs. by_decide.
    - exists (conn_view (clone_conn c src port)). split; [change (view w3).2 with (view w2).2; rewrite Hv2; apply lookup_insert_eq|].
      intros _. unfold conn_view. simpl. rewrite Hs. by_decide. }
  assert (exists b, (view w3).2 !! tcp = Some (TCP_LISTEN, b)) as [b Hb].
  { change (view w3).2 with (view w2).2. rewrite Hv2. cbn [snd]. destruct (decide (tcp = new)) as [->|].
    - exists false. rewrite lookup_insert_eq. unfold conn_view. simpl. by rewrite Hs.
    - exists (xfer_closed c). rewrite lookup_insert_ne by done. rewrite Ha. unfold conn_view. by rewrite Hs. }
  clearbody w3. clear Hok Ha Hv2 H2 w1 w2 y2 Hc w. minv H as w4 r H4. apply (same_random conn_view) in H4. rewrite <- H4 in Hok3, Hb. clear H4.
  minv H as w5 y5 H5. injection H as <- _. apply (moved_ok_all tcp w4); [|done]. apply (moved_update _ _ _ _ _ H5).
  intros c' Hc'. split; [done|]. apply conn_at in Hc'. rewrite Hb in Hc'. unfold conn_view in *. injection Hc' as <- _. done.
Qed.

Lemma rx_segment_ok fuel tcp packet options seq flags data win (w w' : tcp_world E) r :
  tcp_rx_segment env fuel tcp packet options seq flags data win w = Some (w', r) -> ok_view ∅ (view w) -> ok_view ∅ (view w').
Proof.
  intros H Hok. unfold tcp_rx_segment in H. minv H as w1 c H1. apply get_conn_view in H1 as (-> & _ & _).
  minv H as w2 y2 H2. assert (ok_view ∅ (view w2)) as Hok2.
  { destruct (_ && _); [|by injection H2 as <- _]. apply (same_update (V := conn_view)) in H2; [by rewrite H2|].
    intros c'. unfold conn_view. by rewrite closed_lor. }
  clear H2 Hok. minv H as w3 y3 H3. assert (ok_view ∅ (view w3)) as Hok3.
  { destruct (ctrue _); [|by injection H3 as <- _]. minv H3 as w4 r4 H4. injection H3 as <- _.
    apply rx_syn_moved in H4. by apply (moved_ok_all _ _ _ H4). }
  clear H3 Hok2. minv H as w4 r4 H4. assert (ok_view ∅ (view w4)) as Hok4.
  { destruct (ctrue (Z.land flags TCP_RST)); [|by injection H4 as <- _]. by apply (rx_rst_ok _ _ _ _ _ H4). }
  clear H4 Hok3. destruct r4; [|by injection H as <- _]. mskip H Hok4. minv H as w5 y5 H5.
  apply rx_queue_ok in H5; [|done]. do 2 mskip H H5. minv H as w8 c8 H8. apply get_conn_view in H8 as (-> & _ & _).
  mskip H H5. minv H as w9 c9 H9. apply get_conn_view in H9 as (-> & _ & _). minv H as w10 y10 H10. injection H as <- _.
  destruct (negb _); [|by injection H10 as <- _]. injection H10 as <- _. by apply (by_changed _ _ Happ).
Qed.

Lemma rx_ok fuel packet src csum (w w' : tcp_world E) r :
  tcp_rx env fuel packet src csum w = Some (w', r) -> ok_view ∅ (view w) -> ok_view ∅ (view w').
Proof.
  intros H Hok. unfold tcp_rx in H. destruct (_ <? _); [by injection H as <- _|].
  destruct (packet !! 12%nat) as [hl|], (packet !! 13%nat) as [flags|]; try done.
  destruct (_ <? _); [by injection H as <- _|]. destruct (_ <? _); [by injection H as <- _|].
  destruct (ctrue _); [by injection H as <- _|]. minv H as w1 t H1. apply (same_demux conn_view) in H1. rewrite <- H1 in Hok. clear H1.
  destruct (tcp_rx_opts _ _ _ _ _) as [options|]; [|done]. minv H as w2 y2 H2. assert (ok_view ∅ (view w2)) as Hok2.
  { destruct t, (tsopt options); try by injection H2 as <- _. destruct (be_at _ _ _); [|done].
    by apply (same_update (V := conn_view)) in H2 as ->. }
  clear H2 Hok. destruct t as [tcp|]; [|mskip H Hok2; by injection H as <- _].
  minv H as w3 t H3. apply accept_ok in H3; [|done]. destruct t as [new|]; [|by injection H as <- _].
  minv H as w4 c4 H4. apply get_conn_view in H4 as (-> & _ & _). minv H as w4 r4 H4. assert (ok_view ∅ (view w4)) as Hok4.
  { destruct (ctrue _); [|by injection H4 as <- _]. apply rx_ack_moved in H4. by apply (moved_ok_all _ _ _ H4). }
  destruct r4; [|mskip H Hok4; by injection H as <- _]. minv H as w5 y5 H5. apply rx_segment_ok in H; [done|].
  destruct (ctrue _); [by apply open_child_ok in H5|by injection H5 as <- _].
Qed.

Lemma open_state s s0 tcp (w0 w1 w2 : tcp_world E) x :
  view w1 = ((view w0).1, <[tcp := (s0, false)]> (view w0).2) -> update tcp (set_tcp_state s) w1 = Some (w2, x) ->
  view w2 = ((view w0).1, <[tcp := (s, false)]> (view w0).2).
Proof.
  intros H1 (c & Hc%conn_at & Hv)%update_view. rewrite H1 in Hc, Hv. cbn [fst snd] in *. rewrite lookup_insert_eq in Hc.
  injection Hc as _ Hc. rewrite Hv, insert_insert_eq. unfold conn_view. change (xfer_closed (set_tcp_state s c)) with (xfer_closed c).
  by rewrite <- Hc.
Qed.

Lemma open_ok C st_peer st_local (w w' : tcp_world E) r :
  tcp_open env st_peer st_local w = Some (w', r) -> ok_view C (view w) -> ok_view C (view w').
Proof.
  intros H Hok. unfold tcp_open in H. mskip H Hok. destruct y as [tcp|]; [|by injection H as <- _].
  minv H as w1 y1 H1. apply init_conn_view in H1. destruct st_peer as [sp|]; [|done].
  minv H as w2 y2 H2. assert (exists s, view w2 = ((view w0).1, <[tcp := (s, false)]> (view w0).2) /\ good (s, false)) as (s & Hv & Hg).
  { destruct (ctrue (st_port sp)).
    - eexists. split; [by apply (open_state _ _ _ _ _ _ _ H1 H2)|by_decide].
    - minv H2 as w3 y3 H3. injection H2 as <- _. eexists. split; [by apply (open_state _ _ _ _ _ _ _ H1 H3)|by_decide]. }
  assert (ok_view C (view w2) /\ (view w2).2 !! tcp = Some (s, false)) as Hok2.
  { rewrite Hv. split; [|apply lookup_insert_eq]. apply ok_insert; [by destruct (view w0)|done]. }
  clear H1 H2 Hok Hv. do 5 mskip H Hok2.
  minv H as w9 rb H9. apply (same_tcp_bind conn_view) in H9. rewrite <- H9 in Hok2. clear H9. destruct rb; [|mskip H Hok2; injection H as <- _; apply Hok2].
  mskip H Hok2. minv H as w10 y10 H10. injection H10 as <- _. rewrite <- (outside_view _ _ (by_plug _ _ Happ tcp _)) in Hok2.
  minv H as w11 y11 H11. injection H11 as <- _. injection H as <- _. destruct Hok2 as [Hok2 Ha].
  intros t [->|Ht]%elem_of_cons; [by exists (s, false)|by apply Hok2].
Qed.

Lemma shutdown_ok fuel (w w' : tcp_world E) x :
  tcp_shutdown env fuel w = Some (w', x) -> ok_view ∅ (view w) -> ok_view ∅ (view w').
Proof.
  revert w. induction fuel as [|fuel IH]; intros w; cbn [tcp_shutdown]; [done|]. intros H Hok. minv H as w1 w2 H1.
  injection H1 as <- <-. destruct (tcp_conns w) as [|tcp l]; [by injection H as <- _|].
  minv H as w2 y2 H2. minv H as w3 y3 H3. apply (IH _ H). eapply closing_ok; [|exact Hok].
  unfold mbind, M_bind. rewrite H2. exact H3.
Qed.

(** The calls that the application may make from within its methods. *)
Lemma api_ok (w w' : tcp_world E) : api_call True env w w' -> keeps_ok w w'.
Proof.
  intros [sp sl w1 w2 r _ H|tcp r w1 w2 H|tcp d w1 w2 r H|w1 w2 n _ H] C Hok.
  - by apply (open_ok C) in H.
  - unfold tcp_xfer_close in H. minv H as w3 y3 H3. apply (xfer_close_ok C) in H3; [|done]. mskip H H3. by injection H as <-.
  - unfold tcp_xfer_deliver in H. do 3 mskip H Hok. by injection H as <- _.
  - by apply same_discard_loop in H as ->.
Qed.

Lemma step_ok (w w' : tcp_world E) : handler_step env w w' -> ok_view ∅ (view w) -> ok_view ∅ (view w').
Proof.
  intros [sp sl w1 w2 r H|fuel pk src cs w1 w2 r H|tcp over w1 w2 H|tcp w1 w2 H|tcp r w1 w2 H|tcp d w1 w2 r H|w1 w2 n H|fuel w1 w2 H|] Hok.
  - by apply (open_ok ∅) in H.
  - by apply rx_ok in H.
  - unfold tcp_expired in H. destruct over; [by apply (closing_ok ∅) in H|]. mskip H Hok. by injection H as <-.
  - by apply (closing_ok ∅) in H.
  - unfold tcp_xfer_close in H. minv H as w3 y3 H3. apply (xfer_close_ok ∅) in H3; [|done]. mskip H H3. by injection H as <-.
  - unfold tcp_xfer_deliver in H. do 3 mskip H Hok. by injection H as <- _.
  - by apply same_discard_loop in H as ->.
  - by apply shutdown_ok in H.
  - done.
Qed.

End States.

Lemma client_keeps_ok {E} (env : tcp_env E) : client True env -> methods_by keeps_ok env.
Proof.
  apply client_methods.
  - intros w w' Ho C. by rewrite (outside_view _ _ Ho).
  - intros w1 w2 w3 H1 H2 C HC. by apply H2, H1.
  - intros env' w w' Hm. by apply api_ok.
Qed.

(** C23: whatever the network, the timers and the application do, every
    connection in the list is in one of the known states.  The application
    may, from within its methods, open, send on and close any connections,
    the one it is called for among them, and these calls may lead to its
    methods again, to any finite depth.  Each is a state of the diagram with a name, or the
    one with our SYN acknowledged first, or one of the three in which the
    connection is closed while our SYN is unacknowledged; a SYN and a FIN
    are sent together, against the assertion of [tcp_xmit], only in two of
    these three. *)
Theorem tcp_states_reachable {E} (env : tcp_env E) (w0 w : tcp_world E) tcp :
  client True env ->
  tcp_conns w0 = [] -> rtc (handler_step env) w0 w -> tcp ∈ tcp_conns w ->
  exists c, conns w !! tcp = Some c /\ tcp_state c ∈ known_states /\
    (tcp_state_name (tcp_state c) = INVALID ->
       tcp_state c ∈ [TCP_SYN_ACKED; SYN_RCVD_FIN_SENT; SYN_RCVD_FIN_RCVD; SYN_RCVD_CLOSING]) /\
    (Z.land (TCP_FLAGS_SENDING (tcp_state c)) (Z.lor TCP_SYN TCP_FIN) = Z.lor TCP_SYN TCP_FIN ->
       tcp_state c ∈ [SYN_RCVD_FIN_SENT; SYN_RCVD_CLOSING]).
Proof.
  intros Happ%client_keeps_ok H0 Hr Hin. assert (ok_view ∅ (view w)) as Hok.
  { assert (ok_view ∅ (view w0)) as H by (intros t; simpl; rewrite H0; by intros ?%not_elem_of_nil). clear H0 Hin.
    induction Hr as [|w1 w2 w3 Hst _ IH]; [done|]. apply IH. by apply (step_ok env Happ w1). }
  destruct (Hok tcp Hin) as (sb & Hsb & Hg). destruct Hg as [Hg _]; [left; set_solver|]. unfold view_of in Hsb. simpl in Hsb. rewrite lookup_fmap in Hsb.
  destruct (conns w !! tcp) as [c|]; [|done]. simplify_eq/=. exists c. split; [done|]. split; [done|].
  clear Hok Hin. revert Hg. generalize (tcp_state c). intros s Hg. each_state Hg; by_decide.
Qed.


(** ** Instances.  A connection opened to port 6881 gets the SYN of the peer
    before it has sent its own, and is closed by the application. *)
Lemma quiet_client P : client P quiet_env.
Proof. by split; intros; try apply runs_end. Qed.

Definition no_connections : tcp_world (list (list Z)) :=
  World ∅ [] None (Timers [] ∅ (Refs ∅ [])) 0 [77; 2000] [Some 1%positive; Some 2%positive] 1000 [].

Definition early_syn : list Z := with_csum (tcp_header 6881 2001 5000 0 80 TCP_SYN 1000).

Definition run_early_syn : option (tcp_world (list (list Z))) :=
  '(w1, _) ← tcp_open quiet_env (Some (Sockaddr [10; 0; 0; 2] 6881)) None no_connections;
  '(w2, _) ← tcp_rx quiet_env 4 early_syn (Sockaddr [10; 0; 0; 2] 0) TCPIP_EMPTY_CSUM w1;
  '(w3, _) ← tcp_xfer_close quiet_env 1 RC_OK w2;
  Some w3.

Lemma early_syn_steps w : run_early_syn = Some w -> rtc (handler_step quiet_env) no_connections w.
Proof.
  unfold run_early_syn. intros H.
  destruct (tcp_open _ _ _ _) as [[w1 r1]|] eqn:H1; [|done]. cbn [mbind option_bind] in H.
  destruct (tcp_rx _ _ _ _ _ _) as [[w2 r2]|] eqn:H2; [|done]. cbn [mbind option_bind] in H.
  destruct (tcp_xfer_close _ _ _ _) as [[w3 []]|] eqn:H3; [|done]. injection H as <-.
  eapply rtc_l; [by eapply do_open|]. eapply rtc_l; [by eapply do_rx|]. eapply rtc_l; [by eapply do_xfer_close|]. apply rtc_refl.
Qed.

Definition early_world : tcp_world (list (list Z)) :=
  Eval vm_compute in match run_early_syn with Some w => w | None => no_connections end.

Lemma early_world_run : run_early_syn = Some early_world.
Proof. vm_compute. reflexivity. Qed.

Lemma early_world_listed : 1%positive ∈ tcp_conns early_world.
Proof. by_decide. Qed.

(** The assertion of [tcp_xmit] that a SYN and a FIN are never sent
    together can fail: a SYN of the peer that arrives before our own was
    sent, and a close of the application, lead to a listed connection that
    is to send both. *)
Theorem syn_and_fin_together :
  exists w c, rtc (handler_step quiet_env) no_connections w /\ 1%positive ∈ tcp_conns w /\ conns w !! 1%positive = Some c /\
    Z.land (TCP_FLAGS_SENDING (tcp_state c)) (Z.lor TCP_SYN TCP_FIN) = Z.lor TCP_SYN TCP_FIN.
Proof.
  exists early_world. eexists. split; [apply early_syn_steps, early_world_run|]. split; [apply early_world_listed|].
  split; [vm_compute; reflexivity|]. by vm_compute.
Qed.

(** An application that closes the connection when data arrives on it. *)
Definition hanging_up_env : tcp_env (list (list Z)) :=
  TcpEnv 18 (fun _ _ => 65536)
    (fun tcp _ w => match tcp_xfer_close quiet_env tcp RC_OK w with Some (w', tt) => (w', RC_OK) | None => (w, RC_OK) end)
    (fun _ _ w => w) (fun _ _ w => w) (fun _ w => w) (fun _ w => w) (fun _ p n => (p :: n, RC_OK)).

Lemma hanging_up_client P : client P hanging_up_env.
Proof.
  split; intros; try first [by apply runs_end|by split]. cbn. destruct (tcp_xfer_close _ _ _ _) as [[w' []]|] eqn:Ec; [|by apply runs_end].
  apply (runs_call _ quiet_env w w w'); [done|apply quiet_client|by eapply call_close|by apply runs_end].
Qed.

Definition early_data : list Z := with_csum (tcp_header 6881 2001 5000 0 80 0 1000 ++ [1; 2]).

Definition run_hang_up : option (tcp_world (list (list Z))) :=
  '(w1, _) ← tcp_open hanging_up_env (Some (Sockaddr [10; 0; 0; 2] 6881)) None no_connections;
  '(w2, _) ← tcp_rx hanging_up_env 4 early_syn (Sockaddr [10; 0; 0; 2] 0) TCPIP_EMPTY_CSUM w1;
  '(w3, _) ← tcp_rx hanging_up_env 4 early_data (Sockaddr [10; 0; 0; 2] 0) TCPIP_EMPTY_CSUM w2;
  Some w3.

Lemma hang_up_steps w : run_hang_up = Some w -> rtc (handler_step hanging_up_env) no_connections w.
Proof.
  unfold run_hang_up. intros H.
  destruct (tcp_open _ _ _ _) as [[w1 r1]|] eqn:H1; [|done]. cbn [mbind option_bind] in H.
  destruct (tcp_rx _ _ early_syn _ _ _) as [[w2 r2]|] eqn:H2; [|done]. cbn [mbind option_bind] in H.
  destruct (tcp_rx _ _ early_data _ _ _) as [[w3 r3]|] eqn:H3; [|done]. injection H as <-.
  eapply rtc_l; [by eapply do_open|]. eapply rtc_l; [by eapply do_rx|]. eapply rtc_l; [by eapply do_rx|]. apply rtc_refl.
Qed.

Definition hung_up_world : tcp_world (list (list Z)) :=
  Eval vm_compute in match run_hang_up with Some w => w | None => no_connections end.

Lemma hung_up_run : run_hang_up = Some hung_up_world.
Proof. vm_compute. reflexivity. Qed.

Lemma tcp_states_reachable_witness :
  exists c, conns hung_up_world !! 1%positive = Some c /\ tcp_state c = SYN_RCVD_FIN_SENT /\ tcp_state c ∈ known_states.
Proof.
  destruct (tcp_states_reachable hanging_up_env no_connections hung_up_world 1) as (c & Hc & Hk & _);
    [apply hanging_up_client|done|apply hang_up_steps, hung_up_run|by_decide|].
  exists c. split; [done|]. split; [|done]. vm_compute in Hc. injection Hc as <-. reflexivity.
Defined.
