(* ===== verification/Strings.v ===== *)
(** * C strings: core/string.c, core/stringextra.c, core/basename.c, ctype.h,
    core/ctype.c, and the numeric parsing of stdlib.h, core/misc.c and
    core/strtoull.c.

    A string is the list of its characters, as unsigned bytes, without the
    terminating NUL; a pointer into it is the suffix from there on, or an
    index.  Plain [char] is signed. *)
From S2P Require Import Prelude.
From stdpp Require Export strings.
#[global] Open Scope Z_scope.

(** A string constant. *)
Definition cstr (s : string) : list Z := (fun a => Z.of_N (Ascii.N_of_ascii a)) <$> String.list_ascii_of_string s.

(** What a string pointer points at. *)
Definition deref (s : list Z) : Z :=
  match s with
  | [] => 0
  | c :: _ => c
  end.

Abbreviation s8 := (signed 8).

(** A list of characters that is a string. *)
Definition is_char (c : Z) : Prop := 0 < c < 256.
Definition cstring (s : list Z) : Prop := Forall is_char s.

(** ** Character types. *)
Definition isdigit (c : Z) : bool := (48 <=? c) && (c <=? 57).
Definition islower (c : Z) : bool := (97 <=? c) && (c <=? 122).
Definition isupper (c : Z) : bool := (65 <=? c) && (c <=? 90).
Definition isxdigit (c : Z) : bool := isdigit c || ((65 <=? c) && (c <=? 70)) || ((97 <=? c) && (c <=? 102)).
Definition tolower (c : Z) : Z := if isupper c then u8 (c - (65 - 97)) else c.
Definition toupper (c : Z) : Z := if islower c then u8 (c - (97 - 65)) else c.
Definition isspace (c : Z) : bool :=
  (c =? 32) || (c =? 12) || (c =? 10) || (c =? 13) || (c =? 9) || (c =? 11).

(** ** Numeric parsing.  The digit loop is shared by [strtoul] and
    [strtoull], which differ in the width of the result. *)
Definition strtoul_base (p : list Z) (base : Z) : Z * list Z :=
  if base =? 0 then
    if deref p =? 48 then
      let p := tail p in
      if Z.lor (deref p) 32 =? 120 then (16, tail p) else (8, p)
    else (10, p)
  else (base, p).

Definition strtoul_charval (charval : Z) : Z :=
  if 97 <=? charval then u32 (charval - 97 + 10) else
  if 65 <=? charval then u32 (charval - 65 + 10) else
  if charval <=? 57 then u32 (charval - 48) else charval.

Fixpoint skip_spaces (p : list Z) : list Z :=
  match p with
  | c :: p' => if isspace (s8 c) then skip_spaces p' else p
  | [] => []
  end.

Fixpoint digits_loop (w base : Z) (ret : Z) (p : list Z) : Z * list Z :=
  match p with
  | [] => (ret, [])
  | c :: p' =>
      let charval := strtoul_charval (u32 (s8 c)) in
      if u32 base <=? charval then (ret, p) else digits_loop w base (wrap w (ret * base + charval)) p'
  end.

Definition strtou (w : Z) (p : list Z) (base : Z) : Z * list Z :=
  let p := skip_spaces p in
  let negative := deref p =? 45 in
  let p := if negative then tail p else p in
  let '(base, p) := strtoul_base p base in
  let '(ret, p) := digits_loop w base 0 p in
  (if negative then wrap w (- ret) else ret, p).

Definition strtoul (p : list Z) (base : Z) : Z * list Z := strtou 32 p base.
Definition strtoull (p : list Z) (base : Z) : Z * list Z := strtou 64 p base.

(** The address in host byte order; [None] for the result 0. *)
Fixpoint aton_loop (n : nat) (p : list Z) (ip : Z) : option (list Z * Z) :=
  match n with
  | O => Some (p, ip)
  | S n =>
      let '(val, p') := strtoul p 10 in
      if (length p' =? length p)%nat || (255 <? val) then None else
      if (match n with O => false | _ => true end) && negb (deref p' =? 46) then None else
      aton_loop n (match n with O => p' | _ => tail p' end) (u32 (Z.lor (Z.shiftl ip 8) val))
  end.

Definition inet_aton (cp : list Z) : option Z :=
  '(p, ip) ← aton_loop 4 cp 0;
  if deref p =? 0 then Some ip else None.

(** ** Comparison. *)
Fixpoint strcmp (cs ct : list Z) : Z :=
  let res := s8 (s8 (deref cs) - s8 (deref ct)) in
  match cs with
  | [] => res
  | _ :: cs' => if ctrue res then res else strcmp cs' (tail ct)
  end.

(** [c & ~0x20]. *)
Definition nocase (c : Z) : Z := Z.land (s8 c) (Z.lnot 32).

Fixpoint strcasecmp (a b : list Z) : Z :=
  match a, b with
  | x :: a', y :: b' => if nocase x =? nocase y then strcasecmp a' b' else nocase x - nocase y
  | _, _ => nocase (deref a) - nocase (deref b)
  end.

Fixpoint strnicmp (s1 s2 : list Z) (len : nat) : Z :=
  match len with
  | O => 0
  | S len =>
      match s1, s2 with
      | c1 :: s1', c2 :: s2' =>
          if c1 =? c2 then
            match len with O => c1 - c2 | _ => strnicmp s1' s2' len end
          else if tolower c1 =? tolower c2 then
            match len with O => tolower c1 - tolower c2 | _ => strnicmp s1' s2' len end
          else tolower c1 - tolower c2
      | _, _ => deref s1 - deref s2
      end
  end.

(** Memory compared and searched up to the given number of bytes. *)
Fixpoint memcmp (su1 su2 : list Z) (count : nat) : option Z :=
  match count with
  | O => Some 0
  | S count =>
      match su1, su2 with
      | a :: su1, b :: su2 => if ctrue (a - b) then Some (a - b) else memcmp su1 su2 count
      | _, _ => None
      end
  end.

Fixpoint memchr (s : list Z) (c : Z) (n : nat) : option nat :=
  match n, s with
  | S n, x :: s => if u8 c =? x then Some O else S <$> memchr s c n
  | _, _ => None
  end.

(** ** Searching.  The result is the index of the match. *)
Fixpoint strchr (s : list Z) (c : Z) : option nat :=
  match s with
  | [] => if 0 =? s8 c then Some O else None
  | x :: s' => if s8 x =? s8 c then Some O else S <$> strchr s' c
  end.

Fixpoint strrchr_loop (s : list Z) (c : Z) (n : nat) : option nat :=
  if s8 (default 0 (s !! n)) =? s8 c then Some n else
  match n with
  | O => None
  | S n => strrchr_loop s c n
  end.
Definition strrchr (s : list Z) (c : Z) : option nat := strrchr_loop s c (length s).

Fixpoint strnlen (s : list Z) (count : nat) : nat :=
  match count, s with
  | S count, _ :: s => S (strnlen s count)
  | _, _ => O
  end.

Fixpoint strstr_loop (n : nat) (s1 s2 : list Z) : option nat :=
  match n with
  | O => None
  | S n =>
      match memcmp s1 s2 (length s2) with
      | Some 0 => Some O
      | _ => S <$> strstr_loop n (tail s1) s2
      end
  end.
Definition strstr (s1 s2 : list Z) : option nat :=
  match s2 with
  | [] => Some O
  | _ => strstr_loop (S (length s1) - length s2) s1 s2
  end.

Definition in_set (set : list Z) (c : Z) : bool := existsb (Z.eqb c) set.

Fixpoint strspn (s accept : list Z) : nat :=
  match s with
  | [] => O
  | c :: s => if in_set accept c then S (strspn s accept) else O
  end.

Fixpoint strcspn (s reject : list Z) : nat :=
  match s with
  | [] => O
  | c :: s => if in_set reject c then O else S (strcspn s reject)
  end.

Fixpoint strpbrk (cs ct : list Z) : option nat :=
  match cs with
  | [] => None
  | c :: cs => if in_set ct c then Some O else S <$> strpbrk cs ct
  end.

(** ** Tokens.  The second component of the results is the pointer that is
    kept for the next call. *)
Definition strtok (s : option (list Z)) (ct : list Z) (saved : option (list Z))
    : option (list Z) * option (list Z) :=
  match (match s with Some s => Some s | None => saved end) with
  | None => (None, saved)
  | Some sbegin =>
      let sbegin := drop (strspn sbegin ct) sbegin in
      match sbegin with
      | [] => (None, None)
      | _ =>
          match strpbrk sbegin ct with
          | Some i => (Some (take i sbegin), Some (drop (S i) sbegin))
          | None => (Some sbegin, None)
          end
      end
  end.

Definition strsep (s : option (list Z)) (ct : list Z) : option (list Z) * option (list Z) :=
  match s with
  | None => (None, None)
  | Some sbegin =>
      match strpbrk sbegin ct with
      | Some i => (Some (take i sbegin), Some (drop (S i) sbegin))
      | None => (Some sbegin, None)
      end
  end.

(** ** Path names. *)
Definition basename (path : list Z) : list Z :=
  match strrchr path 47 with
  | Some i => drop (S i) path
  | None => path
  end.

Definition dirname (path : list Z) : list Z :=
  match strrchr path 47 with
  | Some O => [47]
  | Some i => take i path
  | None => [46]
  end.

(** ** Characters. *)
Lemma s8_inj a b : 0 <= a < 256 -> 0 <= b < 256 -> s8 a = s8 b -> a = b.
Proof.
  unfold signed, wrap. intros. rewrite !(Z.mod_small _ (2 ^ 8)) in * by (change (2 ^ 8) with 256; lia).
  change (2 ^ (8 - 1)) with 128 in *. change (2 ^ 8) with 256 in *. zcases.
Qed.

Lemma s8_eqb a b : 0 <= a < 256 -> 0 <= b < 256 -> (s8 a =? s8 b) = (a =? b).
Proof.
  intros. destruct (Z.eqb_spec (s8 a) (s8 b)) as [H1|H1], (Z.eqb_spec a b) as [->|H2]; try done.
  by apply s8_inj in H1.
Qed.

Lemma s8_range c : -128 <= s8 c < 128.
Proof. apply (signed_range 8). lia. Qed.

(** A difference of two characters survives the truncation to a byte. *)
Lemma s8_diff a b : 0 <= a < 256 -> 0 <= b < 256 -> s8 (s8 a - s8 b) = 0 -> a = b.
Proof.
  intros Ha Hb H. apply s8_inj; [done..|]. pose proof (s8_range a). pose proof (s8_range b). revert H.
  generalize dependent (s8 b). generalize dependent (s8 a). intros x Hx y Hy. unfold signed, wrap.
  change (2 ^ (8 - 1)) with 128. change (2 ^ 8) with 256. zcases; zdm.
Qed.

(** ** Searching. *)
Lemma strchr_None s c : 0 < c < 256 -> cstring s -> c ∉ s -> strchr s c = None.
Proof.
  intros Hc Hs Hn. induction Hs as [|x s Hx Hs IH]; cbn [strchr].
  - change 0 with (s8 0). rewrite s8_eqb by lia. by destruct (Z.eqb_spec 0 c); [lia|].
  - unfold is_char in Hx. rewrite s8_eqb by lia. destruct (Z.eqb_spec x c); [set_solver|]. rewrite IH by set_solver. done.
Qed.

Lemma strchr_Some a b c : 0 < c < 256 -> cstring a -> c ∉ a -> strchr (a ++ c :: b) c = Some (length a).
Proof.
  intros Hc Ha Hn. induction Ha as [|x a Hx Ha IH]; cbn [app strchr length].
  - by rewrite Z.eqb_refl.
  - unfold is_char in Hx. rewrite s8_eqb by lia. destruct (Z.eqb_spec x c); [set_solver|]. by rewrite IH by set_solver.
Qed.

(** The first occurrence, or none. *)
Lemma strchr_spec s c : 0 < c < 256 -> cstring s ->
  match strchr s c with
  | Some i => s = take i s ++ c :: drop (S i) s /\ c ∉ take i s
  | None => c ∉ s
  end.
Proof.
  intros Hc Hs. induction Hs as [|x s Hx Hs IH]; cbn [strchr].
  - change 0 with (s8 0). rewrite s8_eqb by lia. destruct (Z.eqb_spec 0 c); [lia|]. set_solver.
  - unfold is_char in Hx. rewrite s8_eqb by lia. destruct (Z.eqb_spec x c) as [->|Hne].
    + split; [done|]. set_solver.
    + destruct (strchr s c) as [i|]; simpl in *; [|set_solver]. destruct IH as [E Hn]. split; [by f_equal|set_solver].
Qed.

Lemma strrchr_loop_spec s c n :
  0 < c < 256 -> cstring s -> (n <= length s)%nat ->
  match strrchr_loop s c n with
  | Some i => (i <= n)%nat /\ s !! i = Some c /\ forall j, (i < j <= n)%nat -> s !! j <> Some c
  | None => forall j, (j <= n)%nat -> s !! j <> Some c
  end.
Proof.
  intros Hc Hs. assert (forall j, s8 (default 0 (s !! j)) = s8 c <-> s !! j = Some c) as Hj.
  { intros j. destruct (s !! j) as [x|] eqn:Hx; simpl.
    - pose proof (Forall_lookup_1 _ _ _ _ Hs Hx) as Hr. unfold is_char in Hr. split; [|by intros [= ->]].
      intros ->%s8_inj; [done|lia..].
    - split; [|done]. intros ?%s8_inj; lia. }
  induction n as [|n IH]; intros Hn; cbn [strrchr_loop].
  - destruct (Z.eqb_spec (s8 (default 0 (s !! 0%nat))) (s8 c)) as [E|E]; rewrite Hj in E.
    + split_and!; [lia|done|lia].
    + intros j ?. by assert (j = 0%nat) as -> by lia.
  - destruct (Z.eqb_spec (s8 (default 0 (s !! S n))) (s8 c)) as [E|E]; rewrite Hj in E.
    + split_and!; [lia|done|lia].
    + specialize (IH ltac:(lia)). destruct (strrchr_loop s c n) as [i|].
      * destruct IH as (? & ? & Ha). split_and!; [lia|done|]. intros j ?. destruct (decide (j = S n)) as [->|]; [done|apply Ha; lia].
      * intros j ?. destruct (decide (j = S n)) as [->|]; [done|apply IH; lia].
Qed.

Lemma strrchr_spec s c : 0 < c < 256 -> cstring s ->
  match strrchr s c with
  | Some i => s = take i s ++ c :: drop (S i) s /\ c ∉ drop (S i) s
  | None => c ∉ s
  end.
Proof.
  intros Hc Hs. pose proof (strrchr_loop_spec s c (length s) Hc Hs ltac:(lia)) as H.
  unfold strrchr. destruct (strrchr_loop s c (length s)) as [i|].
  - destruct H as (_ & Hi & Hn). split; [symmetry; by apply take_drop_middle|].
    intros (j & Hj)%list_elem_of_lookup. rewrite lookup_drop in Hj. apply lookup_lt_Some in Hj as Hl. apply (Hn (S i + j)%nat); [lia|done].
  - intros (j & Hj)%list_elem_of_lookup. apply lookup_lt_Some in Hj as Hl. apply (H j); [lia|done].
Qed.

(** ** Comparison. *)

(** Two strings compare as equal with [strcmp] exactly
    when they are equal, although the difference is kept in a signed
    character. *)
Theorem strcmp_eq a b : cstring a -> cstring b -> strcmp a b = 0 <-> a = b.
Proof.
  intros Ha. revert b. induction Ha as [|x a Hx Ha IH]; intros b Hb; cbn [strcmp].
  - destruct Hb as [|y b Hy Hb]; [done|]. unfold is_char in Hy. split; [|done].
    intros H. apply (s8_diff 0 y) in H; simpl in *; lia.
  - unfold is_char in *. destruct Hb as [|y b Hy Hb]; cbn [deref tail].
    + split; [|done]. unfold ctrue. destruct (Z.eqb_spec (s8 (s8 x - s8 0)) 0) as [E|E]; simpl; [|done].
      apply s8_diff in E; lia.
    + unfold ctrue. destruct (Z.eqb_spec (s8 (s8 x - s8 y)) 0) as [E|E]; simpl.
      * unfold is_char in Hy. apply s8_diff in E; [|lia..]. subst y. rewrite IH by done. split; congruence.
      * split; [done|]. intros [= -> _]. by rewrite Z.sub_diag in E.
Qed.

Lemma strcasecmp_common a b c : strcasecmp (a ++ b) (a ++ c) = strcasecmp b c.
Proof. induction a as [|x a IH]; [done|]. cbn [app strcasecmp]. by rewrite Z.eqb_refl. Qed.

(** [strcasecmp] masks bit five of the terminating NUL too: a string
    compares as equal to every continuation of it that starts with a
    space. *)
Theorem strcasecmp_ignores_rest a b : strcasecmp a (a ++ 32 :: b) = 0.
Proof. rewrite <- (app_nil_r a) at 1. rewrite strcasecmp_common. done. Qed.

(** ** Tokens.  The tokens [strsep] returns one after the other. *)
Fixpoint strsep_all (fuel : nat) (s : option (list Z)) (ct : list Z) : list (list Z) :=
  match fuel with
  | O => []
  | S fuel =>
      match strsep s ct with
      | (Some t, s) => t :: strsep_all fuel s ct
      | (None, _) => []
      end
  end.

Lemma strpbrk_spec s ct :
  match strpbrk s ct with
  | Some i => exists c, s = take i s ++ c :: drop (S i) s /\ in_set ct c = true /\ Forall (fun x => in_set ct x = false) (take i s)
  | None => Forall (fun x => in_set ct x = false) s
  end.
Proof.
  induction s as [|x s IH]; cbn [strpbrk]; [done|]. destruct (in_set ct x) eqn:Hx.
  - exists x. by split_and!.
  - destruct (strpbrk s ct) as [i|]; simpl.
    + destruct IH as (c & E & Hc & Hf). exists c. split; [by f_equal|]. split; [done|by constructor].
    + by constructor.
Qed.

(** Tokens put together again with the characters that separated them. *)
Fixpoint joined (tokens : list (list Z)) (seps : list Z) : option (list Z) :=
  match tokens, seps with
  | [t], [] => Some t
  | t :: tokens, c :: seps => (fun s => t ++ c :: s) <$> joined tokens seps
  | _, _ => None
  end.

(** Calling [strsep] until it returns NULL ends, after at most one call
    more than the string has characters; the tokens contain none of the
    separators and are, with the separators between them, the string. *)
Theorem strsep_tokens s ct fuel :
  (length s < fuel)%nat ->
  exists seps, joined (strsep_all fuel (Some s) ct) seps = Some s /\
    Forall (fun c => in_set ct c = true) seps /\
    Forall (Forall (fun c => in_set ct c = false)) (strsep_all fuel (Some s) ct).
Proof.
  revert s. induction fuel as [|fuel IH]; intros s Hf; [lia|]. cbn [strsep_all strsep].
  pose proof (strpbrk_spec s ct) as Hp. destruct (strpbrk s ct) as [i|].
  - destruct Hp as (c & Hs & Hc & Ht). destruct (IH (drop (S i) s)) as (seps & Hj & Hsep & Htok).
    { apply (f_equal length) in Hs. rewrite length_app in Hs. simpl in Hs. lia. }
    exists (c :: seps). split_and!; [|by constructor..].
    destruct (strsep_all fuel (Some (drop (S i) s)) ct) as [|t toks]; [by destruct seps|].
    change (joined (take i s :: t :: toks) (c :: seps)) with ((fun u => take i s ++ c :: u) <$> joined (t :: toks) seps).
    rewrite Hj. simpl. by rewrite <- Hs.
  - exists []. assert (strsep_all fuel None ct = []) as -> by by destruct fuel. split; [done|]. split; [constructor|].
    by repeat constructor.
Qed.

(** ** Path names. *)
Lemma dirname_basename path :
  cstring path -> 47 ∉ basename path /\ dirname path <> [] /\
  (47 ∈ path -> path = dirname path ++ 47 :: basename path \/ path = 47 :: basename path /\ dirname path = [47]).
Proof.
  intros Hp. unfold basename, dirname. pose proof (strrchr_spec path 47 ltac:(lia) Hp) as H.
  destruct (strrchr path 47) as [[|i]|].
  - destruct H as [Hs Hn]. split_and!; try done. intros _. by right.
  - destruct H as [Hs Hn]. split_and!; try done.
    + intros E%(f_equal length). rewrite length_take in E. apply (f_equal length) in Hs. rewrite length_app, length_take, length_cons in Hs.
      cbn [length] in E. lia.
    + intros _. by left.
  - by split_and!.
Qed.

(** ** Numeric parsing.  The value of a character as a digit. *)
Definition charval (c : Z) : Z := strtoul_charval (u32 (s8 c)).

Definition digits_val (base ret : Z) (l : list Z) : Z := fold_left (fun r c => r * base + charval c) l ret.

Lemma charval_nonneg c : 0 <= charval c.
Proof.
  unfold charval, strtoul_charval. pose proof (wrap_range 32 (s8 c) ltac:(lia)).
  repeat case_match; try (apply wrap_range; lia).
Qed.

Lemma digits_val_nonneg base ret l : 0 <= base -> 0 <= ret -> 0 <= digits_val base ret l.
Proof.
  intros Hb. unfold digits_val. revert ret. induction l as [|c l IH]; intros ret Hr; [done|]. simpl. apply IH.
  pose proof (charval_nonneg c). nia.
Qed.

Lemma digits_val_wrap w base ret l :
  0 <= w -> wrap w (digits_val base (wrap w ret) l) = wrap w (digits_val base ret l).
Proof.
  intros Hw. unfold digits_val. revert ret. induction l as [|c l IH]; intros ret; simpl; [by apply wrap_wrap|].
  rewrite <- IH, <- (IH (ret * base + charval c)). do 2 f_equal.
  unfold wrap. rewrite <- (Zplus_mod_idemp_l (ret mod _ * base)), Zmult_mod_idemp_l, Zplus_mod_idemp_l. done.
Qed.

(** A run of digits followed by something that is no digit. *)
Lemma digits_loop_run w base ret l rest :
  0 <= w -> 0 < base < 2 ^ 31 -> Forall (fun c => charval c < base) l -> base <= charval (deref rest) ->
  0 <= ret < 2 ^ w -> digits_loop w base ret (l ++ rest) = (wrap w (digits_val base ret l), rest).
Proof.
  intros Hw Hb Hl Hr. assert (u32 base = base) as Hbase by (apply wrap_small; lia).
  revert ret. induction Hl as [|c l Hc Hl IH]; intros ret Hret; cbn [app].
  - unfold digits_val. simpl. rewrite wrap_small by done. destruct rest as [|c rest]; [done|]. cbn [digits_loop].
    fold (charval c). rewrite Hbase. simpl in Hr. by destruct (Z.leb_spec base (charval c)); [|lia].
  - cbn [digits_loop]. fold (charval c). rewrite Hbase. destruct (Z.leb_spec base (charval c)); [lia|].
    rewrite IH by by apply wrap_range. f_equal. by rewrite digits_val_wrap by lia.
Qed.

(** A number is read to its first character that is not a digit. *)
Lemma strtou_run w base c l rest :
  0 <= w -> 2 <= base <= 36 -> Forall (fun c => charval c < base) (c :: l) -> base <= charval (deref rest) ->
  isspace (s8 c) = false -> c <> 45 ->
  strtou w ((c :: l) ++ rest) base = (wrap w (digits_val base 0 (c :: l)), rest).
Proof.
  intros Hw Hb Hl Hr Hs H45. unfold strtou. cbn [app skip_spaces]. rewrite Hs. cbn [deref].
  destruct (Z.eqb_spec c 45); [done|]. unfold strtoul_base. destruct (Z.eqb_spec base 0); [lia|].
  change (c :: l ++ rest) with ((c :: l) ++ rest).
  rewrite digits_loop_run; [done|lia|lia|done|done|]. split; [done|]. lia.
Qed.

Lemma charval_nul base : base < 2 ^ 31 -> base <= charval 0.
Proof. intros. change (charval 0) with (2 ^ 32 - 48). lia. Qed.

(** ** Instances. *)
Lemma strcmp_eq_witness : strcmp (cstr "gpxe") (cstr "gpxe") = 0.
Proof. apply strcmp_eq; [by_decide|by_decide|done]. Defined.

Lemma strsep_tokens_witness :
  exists seps, joined (strsep_all 20 (Some (cstr "a,b;c")) (cstr ",;")) seps = Some (cstr "a,b;c").
Proof. destruct (strsep_tokens (cstr "a,b;c") (cstr ",;") 20) as (seps & H & _); [simpl; lia|by exists seps]. Defined.
