(* ===== verification/Printf.v ===== *)
(** * Formatted output: core/vsprintf.c.

    The numeric formatters fill a buffer backwards from its end; here they
    return the characters between the returned pointer and the end.  A
    printf context's handler is given the characters one by one; here
    [vcprintf] returns them all, with [None] for a read or write outside
    the temporary buffer, the format string or the argument list. *)
From S2P Require Import Prelude Strings.

Definition CHAR_LEN : Z := 0.
Definition SHORT_LEN : Z := 1.
Definition INT_LEN : Z := 2.
Definition LONG_LEN : Z := 3.
Definition LONGLONG_LEN : Z := 4.
Definition SIZE_T_LEN : Z := 5.

Definition type_sizes : list Z := [1; 2; 4; 4; 8; 4].

Definition LCASE : Z := 32.
Definition ALT_FORM : Z := 2.
Definition ZPAD : Z := 16.

(** A 64-bit number has at most sixteen hexadecimal digits. *)
Fixpoint hex_loop (fuel : nat) (num case_mod : Z) (ptr : list Z) : list Z :=
  match fuel with
  | O => ptr
  | S fuel =>
      let ptr := Z.lor (default 0 (cstr "0123456789ABCDEF" !! Z.to_nat (Z.land num 15))) case_mod :: ptr in
      let num := Z.shiftr num 4 in
      if ctrue num then hex_loop fuel num case_mod ptr else ptr
  end.

(** Padding to a field width. *)
Definition pad_to (width pad : Z) (ptr : list Z) : list Z :=
  replicate (Z.to_nat (width - zlen ptr)) pad ++ ptr.

Definition format_hex (num width flags : Z) : list Z :=
  let case_mod := Z.land flags LCASE in
  let pad := Z.lor (Z.land flags ZPAD) 32 in
  let ptr := pad_to width pad (hex_loop 16 num case_mod []) in
  if ctrue (Z.land flags ALT_FORM) then 48 :: Z.lor 88 case_mod :: ptr else ptr.

(** C division truncates; a 32-bit number has at most ten digits. *)
Fixpoint decimal_loop (fuel : nat) (num : Z) (ptr : list Z) : list Z :=
  match fuel with
  | O => ptr
  | S fuel =>
      let ptr := u8 (48 + Z.rem num 10) :: ptr in
      let num := Z.quot num 10 in
      if ctrue num then decimal_loop fuel num ptr else ptr
  end.

Definition format_decimal (num width flags : Z) : list Z :=
  let zpad := Z.land flags ZPAD in
  let pad := Z.lor zpad 32 in
  let negative := num <? 0 in
  let ptr := decimal_loop 10 (if negative then s32 (- num) else num) [] in
  let ptr := if negative && negb (ctrue zpad) then 45 :: ptr else ptr in
  let ptr := pad_to width pad ptr in
  if negative && ctrue zpad then 45 :: tail ptr else ptr.

(** ** Arguments, by the type they are fetched with. *)
Inductive va_arg :=
| ArgInt (x : Z)
| ArgLongLong (x : Z)
| ArgStr (s : option (list Z))
| ArgWStr (s : option (list Z)).

(** The state of a conversion: flags, width and the length modifier as an
    index into [type_sizes]. *)
Fixpoint parse_flags (fmt : list Z) (flags : Z) : list Z * Z :=
  match fmt with
  | 35 :: fmt' => parse_flags fmt' (Z.lor flags ALT_FORM)
  | 48 :: fmt' => parse_flags fmt' (Z.lor flags ZPAD)
  | _ => (fmt, flags)
  end.

Fixpoint parse_width (fmt : list Z) (width : Z) : list Z * Z :=
  match fmt with
  | c :: fmt' => if isdigit c then parse_width fmt' (s32 (width * 10 + (c - 48))) else (fmt, width)
  | [] => ([], width)
  end.

Fixpoint parse_length (fmt : list Z) (length : Z) : list Z * Z :=
  match fmt with
  | 104 :: fmt' => parse_length fmt' (length - 1)
  | 108 :: fmt' => parse_length fmt' (length + 1)
  | 122 :: fmt' => parse_length fmt' SIZE_T_LEN
  | _ => (fmt, length)
  end.

(** The room in the temporary buffer before its terminating NUL. *)
Definition TMP_ROOM : Z := 31.
Definition in_tmp (s : list Z) : option (list Z) := if zlen s <=? TMP_ROOM then Some s else None.

(** The part of a buffer before the first NUL. *)
Fixpoint until_nul (s : list Z) : list Z :=
  match s with
  | [] => []
  | c :: s => if c =? 0 then [] else c :: until_nul s
  end.

(** One conversion: the characters it puts out and the arguments left. *)
Definition convert (spec flags width len : Z) (args : list va_arg) : option (list Z * list va_arg) :=
  if spec =? 99 then
    if len <? LONG_LEN then
      match args with ArgInt x :: args => Some ([u8 x], args) | _ => None end
    else
      match args with ArgInt x :: args => Some (until_nul [u8 x], args) | _ => None end
  else if spec =? 115 then
    if len <? LONG_LEN then
      match args with ArgStr s :: args => Some (default (cstr "<NULL>") s, args) | _ => None end
    else
      match args with
      | ArgWStr (Some s) :: args => Some (u8 <$> s, args)
      | ArgWStr None :: args => Some ([], args)
      | _ => None
      end
  else if spec =? 112 then
    match args with
    | ArgInt x :: args => s ← in_tmp (format_hex (wrap 64 (s32 x)) width (Z.lor ALT_FORM LCASE)); Some (s, args)
    | _ => None
    end
  else if Z.land spec (Z.lnot 32) =? 88 then
    let flags := Z.lor flags (Z.land spec 32) in
    size ← type_sizes !! Z.to_nat len;
    if len <? 0 then None else
    match args with
    | ArgLongLong x :: args => if 8 <=? size then s ← in_tmp (format_hex x width flags); Some (s, args) else None
    | ArgInt x :: args => if 8 <=? size then None else s ← in_tmp (format_hex x width flags); Some (s, args)
    | _ => None
    end
  else if (spec =? 100) || (spec =? 105) then
    match args with
    | ArgInt x :: args => s ← in_tmp (format_decimal (s32 x) width flags); Some (s, args)
    | _ => None
    end
  else Some (until_nul [spec], args).

Fixpoint vcprintf (fuel : nat) (fmt : list Z) (args : list va_arg) : option (list Z) :=
  match fuel with
  | O => None
  | S fuel =>
      match fmt with
      | [] => Some []
      | c :: fmt =>
          if negb (c =? 37) then (cons c) <$> vcprintf fuel fmt args else
          let '(fmt, flags) := parse_flags fmt 0 in
          let '(fmt, width) := parse_width fmt 0 in
          let '(fmt, len) := parse_length fmt INT_LEN in
          '(out, args) ← convert (deref fmt) flags width len args;
          match fmt with
          | [] => None
          | _ :: fmt => app out <$> vcprintf fuel fmt args
          end
      end
  end.

(** The buffer after the characters of [out] are written to it. *)
Definition vsnprintf (buf : list Z) (size : Z) (fmt : list Z) (args : list va_arg) : option (list Z * Z) :=
  out ← vcprintf (S (length fmt)) fmt args;
  let len := zlen out in
  let n := Z.to_nat (Z.min size len) in
  let buf := take n out ++ drop n buf in
  let buf := if ctrue size then <[Z.to_nat (if len <? size - 1 then len else size - 1) := 0]> buf else buf in
  Some (buf, len).

Definition vssnprintf (buf : list Z) (ssize : Z) (fmt : list Z) (args : list va_arg) : option (list Z * Z) :=
  vsnprintf buf (if ssize <? 0 then 0 else ssize) fmt args.

(** ** Numbers read back. *)
Lemma digits_val_snoc base ret l c : digits_val base ret (l ++ [c]) = digits_val base ret l * base + charval c.
Proof. unfold digits_val. by rewrite fold_left_app. Qed.

(** A property of all small numbers, by trying them. *)
Lemma small_forall (P : Z -> Prop) `{forall x, Decision (P x)} n x :
  bool_decide (Forall P (seqZ 0 n)) = true -> 0 <= x < n -> P x.
Proof. intros Hall%bool_decide_eq_true Hx. rewrite Forall_forall in Hall. apply Hall. apply elem_of_seqZ. lia. Qed.

Lemma decimal_digit d : 0 <= d < 10 -> is_char (48 + d) /\ charval (48 + d) = d /\ isspace (s8 (48 + d)) = false /\ 48 + d <> 45.
Proof.
  apply (small_forall (fun d => (0 < 48 + d < 256) /\ charval (48 + d) = d /\ isspace (s8 (48 + d)) = false /\ 48 + d <> 45)).
  vm_compute. reflexivity.
Qed.

Definition hex_char (d case_mod : Z) : Z := Z.lor (default 0 (cstr "0123456789ABCDEF" !! Z.to_nat d)) case_mod.

Lemma hex_digit d case_mod : 0 <= d < 16 -> case_mod = 0 \/ case_mod = 32 ->
  is_char (hex_char d case_mod) /\ charval (hex_char d case_mod) = d /\ isspace (s8 (hex_char d case_mod)) = false /\
  hex_char d case_mod <> 45.
Proof.
  intros Hd [-> | ->]; revert Hd;
    [apply (small_forall (fun d => (0 < hex_char d 0 < 256) /\ charval (hex_char d 0) = d /\ isspace (s8 (hex_char d 0)) = false /\ hex_char d 0 <> 45))
    |apply (small_forall (fun d => (0 < hex_char d 32 < 256) /\ charval (hex_char d 32) = d /\ isspace (s8 (hex_char d 32)) = false /\ hex_char d 32 <> 45))];
    vm_compute; reflexivity.
Qed.

(** A non-empty run of digits with the given value. *)
Definition numeral (base num : Z) (l : list Z) : Prop :=
  l <> [] /\ digits_val base 0 l = num /\
  Forall (fun c => is_char c /\ charval c < base /\ isspace (s8 c) = false /\ c <> 45) l.

Lemma numeral_snoc base num l c :
  digits_val base 0 l = num -> Forall (fun c => is_char c /\ charval c < base /\ isspace (s8 c) = false /\ c <> 45) l ->
  is_char c /\ charval c < base /\ isspace (s8 c) = false /\ c <> 45 -> numeral base (num * base + charval c) (l ++ [c]).
Proof.
  intros Hn Hl Hc. split_and!; [by destruct l| |].
  - by rewrite digits_val_snoc, Hn.
  - apply Forall_app_2; [done|by constructor].
Qed.

Lemma decimal_loop_numeral fuel num ptr :
  (0 < fuel)%nat -> 0 <= num < 10 ^ Z.of_nat fuel ->
  exists l, decimal_loop fuel num ptr = l ++ ptr /\ numeral 10 num l.
Proof.
  revert num ptr. induction fuel as [|fuel IH]; intros num ptr Hf Hn; [lia|]. cbn [decimal_loop].
  rewrite Z.rem_mod_nonneg, Z.quot_div_nonneg by lia. pose proof (Z.mod_pos_bound num 10 ltac:(lia)).
  assert (u8 (48 + num mod 10) = 48 + num mod 10) as -> by (apply wrap_small; change (2 ^ 8) with 256; lia).
  destruct (decimal_digit (num mod 10)) as (Hc & Hv & Hs & H45); [lia|].
  assert (Hd : is_char (48 + num mod 10) /\ charval (48 + num mod 10) < 10 /\ isspace (s8 (48 + num mod 10)) = false /\ 48 + num mod 10 <> 45)
    by (rewrite Hv; split_and!; done || lia).
  unfold ctrue. destruct (Z.eqb_spec (num / 10) 0) as [E|E]; simpl.
  - exists [48 + num mod 10]. split; [done|]. apply (numeral_snoc 10 0 []) in Hd; [|done|constructor].
    rewrite Hv in Hd. simpl in Hd. by replace (num mod 10) with num in * by zdm.
  - assert (0 < Z.of_nat fuel). { destruct fuel; [|lia]. simpl in Hn. zdm. }
    destruct (IH (num / 10) (48 + num mod 10 :: ptr)) as (l & E1 & (_ & Hl & Hfa)); [lia| |].
    { replace (Z.of_nat (S fuel)) with (Z.of_nat fuel + 1) in Hn by lia. rewrite Z.pow_add_r in Hn by lia. zdm. }
    exists (l ++ [48 + num mod 10]). split; [rewrite E1, <- app_assoc; done|].
    replace num with (num / 10 * 10 + charval (48 + num mod 10)) at 1 by (rewrite Hv; zdm). by apply numeral_snoc.
Qed.

Lemma hex_loop_numeral fuel num case_mod ptr :
  (0 < fuel)%nat -> 0 <= num < 16 ^ Z.of_nat fuel -> case_mod = 0 \/ case_mod = 32 ->
  exists l, hex_loop fuel num case_mod ptr = l ++ ptr /\ numeral 16 num l.
Proof.
  intros Hf Hn Hm. revert num ptr Hf Hn. induction fuel as [|fuel IH]; intros num ptr Hf Hn; [lia|]. cbn [hex_loop].
  change 15 with (Z.ones 4). rewrite Z.land_ones, Z.shiftr_div_pow2 by lia. change (2 ^ 4) with 16.
  fold (hex_char (num mod 16) case_mod). pose proof (Z.mod_pos_bound num 16 ltac:(lia)).
  destruct (hex_digit (num mod 16) case_mod) as (Hc & Hv & Hs & H45); [lia|done|].
  assert (Hd : is_char (hex_char (num mod 16) case_mod) /\ charval (hex_char (num mod 16) case_mod) < 16 /\
    isspace (s8 (hex_char (num mod 16) case_mod)) = false /\ hex_char (num mod 16) case_mod <> 45)
    by (rewrite Hv; split_and!; done || lia).
  unfold ctrue. destruct (Z.eqb_spec (num / 16) 0) as [E|E]; cbn [negb].
  - exists [hex_char (num mod 16) case_mod]. split; [done|]. apply (numeral_snoc 16 0 []) in Hd; [|done|constructor].
    rewrite Hv in Hd. simpl app in Hd. by replace (0 * 16 + num mod 16) with num in Hd by zdm.
  - assert (0 < Z.of_nat fuel). { destruct fuel; [|lia]. simpl in Hn. zdm. }
    destruct (IH (num / 16) (hex_char (num mod 16) case_mod :: ptr)) as (l & E1 & (_ & Hl & Hfa)); [lia| |].
    { replace (Z.of_nat (S fuel)) with (Z.of_nat fuel + 1) in Hn by lia. rewrite Z.pow_add_r in Hn by lia. zdm. }
    exists (l ++ [hex_char (num mod 16) case_mod]). split; [rewrite E1, <- app_assoc; done|].
    replace num with (num / 16 * 16 + charval (hex_char (num mod 16) case_mod)) at 1 by (rewrite Hv; zdm). by apply numeral_snoc.
Qed.

Lemma numeral_read w base num l rest :
  0 <= w -> 2 <= base <= 36 -> numeral base num l -> base <= charval (deref rest) ->
  strtou w (l ++ rest) base = (wrap w num, rest).
Proof.
  intros Hw Hb (Hne & Hv & Hl) Hr. destruct l as [|c l]; [done|].
  rewrite strtou_run; try done.
  - by rewrite Hv.
  - eapply Forall_impl; [exact Hl|]. by intros x (_ & ? & _).
  - by apply Forall_inv in Hl as (_ & _ & ? & _).
  - by apply Forall_inv in Hl as (_ & _ & _ & ?).
Qed.

Lemma numeral_minus w base num l rest :
  0 <= w -> 2 <= base <= 36 -> numeral base num l -> base <= charval (deref rest) ->
  strtou w (45 :: l ++ rest) base = (wrap w (- wrap w num), rest).
Proof.
  intros Hw Hb (Hne & Hv & Hl) Hr. unfold strtou. cbn [skip_spaces]. change (isspace (s8 45)) with false. cbn [deref tail].
  change (45 =? 45) with true. cbn iota. unfold strtoul_base. destruct (Z.eqb_spec base 0); [lia|].
  rewrite digits_loop_run; [by rewrite Hv|done|lia| |done|lia]. eapply Forall_impl; [exact Hl|]. by intros x (_ & ? & _).
Qed.

Lemma skip_pad w base n s : strtou w (replicate n 32 ++ s) base = strtou w s base.
Proof. induction n as [|n IH]; [done|]. rewrite <- IH. reflexivity. Qed.

Lemma numeral_zeroes base num n l : 2 <= base -> numeral base num l -> numeral base num (replicate n 48 ++ l).
Proof.
  intros Hb H. induction n as [|n IH]; [done|]. cbn [replicate app]. destruct IH as (_ & Hv & Hl). split_and!; [done| |].
  - unfold digits_val in *. cbn [fold_left]. change (charval 48) with 0. by rewrite Z.mul_0_l.
  - constructor; [|done]. split_and!; [unfold is_char; lia|change (charval 48) with 0; lia|done|lia].
Qed.

Lemma land_case flags : Z.land flags LCASE = 0 \/ Z.land flags LCASE = 32.
Proof.
  destruct (Z.testbit flags 5) eqn:H; [right|left]; apply Z.bits_inj'; intros i Hi; rewrite Z.land_spec;
    change LCASE with (2 ^ 5); change 32 with (2 ^ 5); rewrite Z.pow2_bits_eqb by lia;
    destruct (Z.eqb_spec 5 i) as [<-|]; rewrite ?H, ?andb_true_r, ?andb_false_r, ?Z.bits_0; done.
Qed.

Lemma land_zpad flags : Z.land flags ZPAD = 0 \/ Z.land flags ZPAD = 16.
Proof.
  destruct (Z.testbit flags 4) eqn:H; [right|left]; apply Z.bits_inj'; intros i Hi; rewrite Z.land_spec;
    change ZPAD with (2 ^ 4); change 16 with (2 ^ 4); rewrite Z.pow2_bits_eqb by lia;
    destruct (Z.eqb_spec 4 i) as [<-|]; rewrite ?H, ?andb_true_r, ?andb_false_r, ?Z.bits_0; done.
Qed.

(** What is printed is read back.  A decimal number other than the most
    negative one, printed to any width without zero padding, is read back
    by [strtoul] with base ten, and a hexadecimal number, printed in either
    case to any width with zeroes or spaces, with base sixteen. *)
Theorem format_strtoul num width flags :
  (Z.land flags ZPAD = 0 -> - 2 ^ 31 < num < 2 ^ 31 -> strtoul (format_decimal num width flags) 10 = (u32 num, [])) /\
  (Z.land flags ALT_FORM = 0 -> 0 <= num < 2 ^ 32 -> strtoul (format_hex num width flags) 16 = (num, [])).
Proof.
  split; intros Hf Hn.
  - unfold format_decimal, strtoul, pad_to. rewrite Hf. change (Z.lor 0 32) with 32. change (ctrue 0) with false.
    rewrite andb_false_r, andb_true_r. rewrite skip_pad. change (2 ^ 31) with 2147483648 in Hn.
    destruct (Z.ltb_spec num 0).
    + rewrite s32_id by (change (2 ^ 31) with 2147483648; lia).
      destruct (decimal_loop_numeral 10 (- num) []) as (l & -> & Hl); [lia|change (10 ^ _) with 10000000000; lia|].
      rewrite (numeral_minus 32 10 (- num)); [|lia|lia|done|by apply charval_nul]. f_equal.
      unfold wrap. change (2 ^ 32) with 4294967296. zdm.
    + destruct (decimal_loop_numeral 10 num []) as (l & -> & Hl); [lia|change (10 ^ _) with 10000000000; lia|].
      rewrite (numeral_read 32 10 num); [done|lia|lia|done|by apply charval_nul].
  - unfold format_hex, strtoul. rewrite Hf. change (ctrue 0) with false. cbn iota. unfold pad_to.
    destruct (hex_loop_numeral 16 num (Z.land flags LCASE) []) as (l & -> & Hl);
      [lia|change (16 ^ _) with (2 ^ 64); lia|apply land_case|].
    assert (u32 num = num) as Hw by by apply wrap_small.
    destruct (land_zpad flags) as [-> | ->]; [change (Z.lor 0 32) with 32|change (Z.lor 16 32) with 48].
    + rewrite skip_pad, (numeral_read 32 16 num); [by rewrite Hw|lia|lia|done|by apply charval_nul].
    + rewrite app_assoc, (numeral_read 32 16 num); [by rewrite Hw|lia|lia|by apply numeral_zeroes; [lia|]|by apply charval_nul].
Qed.

(** A negative number with zero padding loses its first digit when the
    digits already fill the width: the sign is written over it. *)
Theorem zero_padded_negative num width :
  - 2 ^ 31 < num < 0 -> width <= zlen (format_decimal (- num) 0 0) ->
  format_decimal num width ZPAD = 45 :: tail (format_decimal (- num) 0 0).
Proof.
  intros Hn Hw. change (2 ^ 31) with 2147483648 in Hn. unfold format_decimal in *. change (Z.land 0 ZPAD) with 0 in *.
  change (ctrue 0) with false in *. change (Z.land ZPAD ZPAD) with 16. change (ctrue 16) with true.
  rewrite !andb_false_r, !andb_true_r in *. destruct (Z.ltb_spec num 0), (Z.ltb_spec (- num) 0); try lia. cbn [negb andb] in *.
  rewrite s32_id by (change (2 ^ 31) with 2147483648; lia). unfold pad_to in *.
  set (ds := decimal_loop 10 (- num) []) in *. rewrite (Z2Nat.nonpos (0 - zlen ds)) in * by lia. cbn [replicate app] in *.
  by rewrite Z2Nat.nonpos by lia.
Qed.

(** [vsnprintf] writes at most [size] bytes: as much of the output as
    fits, then a NUL, and leaves the rest of the buffer alone.  It returns
    the length of the whole output. *)
Theorem vsnprintf_truncates buf size fmt args out :
  vcprintf (S (length fmt)) fmt args = Some out -> 0 < size <= zlen buf ->
  exists buf', vsnprintf buf size fmt args = Some (buf', zlen out) /\ length buf' = length buf /\
    take (Z.to_nat (Z.min (zlen out) (size - 1))) buf' = take (Z.to_nat (size - 1)) out /\
    buf' !! Z.to_nat (Z.min (zlen out) (size - 1)) = Some 0 /\
    drop (Z.to_nat size) buf' = drop (Z.to_nat size) buf.
Proof.
  intros Ho Hs. unfold vsnprintf. rewrite Ho. cbn [mbind option_bind]. eexists. split; [done|].
  unfold ctrue. destruct (Z.eqb_spec size 0) as [|_]; [lia|]. cbn [negb].
  assert (Z.to_nat (if zlen out <? size - 1 then zlen out else size - 1) = Z.to_nat (Z.min (zlen out) (size - 1))) as ->
    by (zcases; f_equal; lia).
  set (n := Z.to_nat (Z.min size (zlen out))). set (e := Z.to_nat (Z.min (zlen out) (size - 1))).
  assert (length (take n out ++ drop n buf) = length buf) as Hl by (rewrite length_app, length_take, length_drop; lia).
  split_and!.
  - by rewrite length_insert.
  - rewrite take_insert_ge by lia. rewrite take_app, length_take. replace (e - (n `min` length out))%nat with 0%nat by lia.
    rewrite take_0, app_nil_r, take_take. destruct (Z.leb_spec (zlen out) (size - 1)).
    + rewrite !take_ge by lia. done.
    + f_equal. lia.
  - apply list_lookup_insert_eq. lia.
  - rewrite drop_insert_lt by lia. rewrite drop_app, length_take, drop_drop. rewrite drop_ge by (rewrite length_take; lia). simpl.
    f_equal. lia.
Qed.

Lemma format_strtoul_witness : strtoul (format_decimal (-17) 6 0) 10 = (u32 (-17), []).
Proof. by apply (format_strtoul (-17) 6 0). Defined.

Lemma zero_padded_negative_witness : format_decimal (-12) 2 ZPAD = 45 :: tail (format_decimal 12 0 0).
Proof. apply (zero_padded_negative (-12) 2); [lia|vm_compute; congruence]. Defined.

Lemma vsnprintf_truncates_witness :
  exists buf', vsnprintf [7; 7; 7; 7; 7; 7] 4 (cstr "id=%d") [ArgInt 42] = Some (buf', 5) /\ length buf' = 6%nat.
Proof.
  destruct (vsnprintf_truncates [7; 7; 7; 7; 7; 7] 4 (cstr "id=%d") [ArgInt 42] (cstr "id=42")) as (buf' & ? & ? & _);
    [by vm_compute|simpl; lia|by exists buf'].
Defined.
