(* ===== verification/Uri.v ===== *)
(** * Uniform resource identifiers: core/uri.c and include/ipxe/uri.h.

    [parse_uri] cuts a copy of the string into pieces by overwriting
    separators with NULs; here the pieces are strings of their own.  A
    field is [None] for a null pointer.  The buffers the unparsed string
    is written to are taken to be large enough, as [uri_dup] makes them. *)
From S2P Require Import Prelude Strings Printf.

Record uri := Uri {
  scheme : option (list Z);
  opaque : option (list Z);
  user : option (list Z);
  password : option (list Z);
  host : option (list Z);
  port : option (list Z);
  path : option (list Z);
  query : option (list Z);
  fragment : option (list Z) }.

#[export] Instance uri_eq_dec : EqDecision uri.
Proof. solve_decision. Defined.

Definition URI_SCHEME : Z := 0.
Definition URI_OPAQUE : Z := 1.
Definition URI_USER : Z := 2.
Definition URI_PASSWORD : Z := 3.
Definition URI_HOST : Z := 4.
Definition URI_PORT : Z := 5.
Definition URI_PATH : Z := 6.
Definition URI_QUERY : Z := 7.
Definition URI_FRAGMENT : Z := 8.

Definition URI_BIT (field : Z) : Z := Z.shiftl 1 field.

(** The fields in the order of the structure. *)
Definition uri_fields (u : uri) : list (option (list Z)) :=
  [scheme u; opaque u; user u; password u; host u; port u; path u; query u; fragment u].
Definition uri_get_field (u : uri) (field : Z) : option (list Z) := mjoin (uri_fields u !! Z.to_nat field).

Definition URI_ALL : Z := 511.
Definition URI_ENCODED : Z :=
  Z.lor (URI_BIT URI_USER) (Z.lor (URI_BIT URI_PASSWORD) (Z.lor (URI_BIT URI_HOST)
    (Z.lor (URI_BIT URI_PATH) (Z.lor (URI_BIT URI_QUERY) (URI_BIT URI_FRAGMENT))))).

Definition uri_is_absolute (u : uri) : bool := match scheme u with Some _ => true | None => false end.
Definition uri_has_path (u : uri) : bool :=
  match path u with Some p => negb (deref p =? 0) | None => false end.
Definition uri_has_absolute_path (u : uri) : bool :=
  match path u with Some p => deref p =? 47 | None => false end.
Definition uri_has_relative_path (u : uri) : bool :=
  match path u with Some p => negb (deref p =? 47) | None => false end.

(** ** Encoding of fields. *)
Definition is_unreserved_uri_char (c field : Z) : bool :=
  let ok := isupper c || islower c || isdigit c || (c =? 45) || (c =? 95) || (c =? 46) || (c =? 126) in
  let ok := if field =? URI_QUERY then ok || (c =? 59) || (c =? 38) || (c =? 61) else ok in
  let ok := if field =? URI_PATH then ok || (c =? 47) else ok in
  if field =? URI_OPAQUE then true else ok.

Fixpoint uri_encode (raw_string : list Z) (field : Z) : list Z :=
  match raw_string with
  | [] => []
  | c :: raw_string =>
      (if is_unreserved_uri_char c field then [c] else 37 :: format_hex c 2 ZPAD) ++ uri_encode raw_string field
  end.

(** The decoded bytes; every round consumes a character. *)
Fixpoint decode_loop (fuel : nat) (encoded_string : list Z) : list Z :=
  match fuel, encoded_string with
  | S fuel, x :: rest =>
      if x =? 37 then
        let hexbuf := take 2 rest in
        let '(c, hexbuf_end) := strtoul hexbuf 16 in
        u8 c :: decode_loop fuel (drop (length hexbuf - length hexbuf_end) rest)
      else x :: decode_loop fuel rest
  | _, _ => []
  end.

(** What ends up in a buffer of the given length, and the returned length. *)
Definition uri_decode (encoded_string : list Z) (len : Z) : list Z * Z :=
  let d := decode_loop (length encoded_string) encoded_string in
  (take (Z.to_nat (len - 1)) d, zlen d).

(** The string a field is after decoding in place. *)
Definition decode_field (field : list Z) : list Z := until_nul (uri_decode field (zlen field + 1)).1.

(** ** Parsing. *)
Definition chop (s : list Z) (c : Z) : list Z * option (list Z) :=
  match strchr s c with
  | Some i => (take i s, Some (drop (S i) s))
  | None => (s, None)
  end.

Definition parse_authority (scheme path query fragment : option (list Z)) (authority : list Z) : uri :=
  let '(user, password, host) :=
    match chop authority 64 with
    | (authority, Some host) =>
        let '(user, password) := chop authority 58 in (Some user, password, host)
    | (authority, None) => (None, None, authority)
    end in
  let '(host, port) := chop host 58 in
  Uri scheme None (decode_field <$> user) (decode_field <$> password) (Some (decode_field host)) port
    (decode_field <$> path) (decode_field <$> query) (decode_field <$> fragment).

Definition parse_path (scheme fragment : option (list Z)) (path : list Z) : uri :=
  let '(path, query) := chop path 63 in
  if (deref path =? 47) && (deref (tail path) =? 47) then
    let authority := drop 2 path in
    match strchr authority 47 with
    | Some i => parse_authority scheme (Some (drop i authority)) query fragment (take i authority)
    | None => parse_authority scheme None query fragment authority
    end
  else Uri scheme None None None None None (Some path) query fragment.

Definition parse_uri (uri_string : list Z) : uri :=
  let '(raw, fragment) := chop uri_string 35 in
  match strchr raw 58 with
  | Some i =>
      if (1 <? i)%nat then
        let tmp := drop (S i) raw in
        if deref tmp =? 47 then parse_path (Some (take i raw)) fragment tmp
        else Uri (Some (take i raw)) (Some tmp) None None None None None None fragment
      else parse_path None fragment raw
  | None => parse_path None fragment raw
  end.

Definition uri_port (u : option uri) (default_port : Z) : Z :=
  match u with
  | Some u => match port u with Some p => (strtoul p 0).1 | None => default_port end
  | None => default_port
  end.

(** ** Unparsing. *)
Definition separators : list Z := [0; 58; 0; 58; 64; 58; 0; 63; 35].

Fixpoint unparse_loop (fs : list (option (list Z))) (seps : list Z) (i fields : Z) : list Z :=
  match fs, seps with
  | field :: fs, sep :: seps =>
      match field with
      | None => unparse_loop fs seps (i + 1) (Z.land fields (Z.lnot (URI_BIT i)))
      | Some field =>
          if ctrue (Z.land fields (URI_BIT i)) then
            let print_scheme := ctrue (Z.land fields (URI_BIT URI_SCHEME)) && (URI_OPAQUE <? i) in
            let fields := if print_scheme then Z.land fields (Z.lnot (URI_BIT URI_SCHEME)) else fields in
            (if print_scheme then cstr "://" else []) ++
            (if ctrue sep && ctrue (Z.land fields (URI_BIT i - 1)) then [sep] else []) ++
            (if ctrue (Z.land URI_ENCODED (URI_BIT i)) then uri_encode field i else field) ++
            unparse_loop fs seps (i + 1) fields
          else unparse_loop fs seps (i + 1) fields
      end
  | _, _ => []
  end.

Definition unparse_uri (u : option uri) (fields : Z) : list Z :=
  match u with
  | None => []
  | Some u => unparse_loop (uri_fields u) separators URI_SCHEME fields
  end.

Definition uri_dup (u : uri) : uri := parse_uri (unparse_uri (Some u) URI_ALL).

(** ** Resolution. *)
Fixpoint dots_loop (fuel : nat) (base_tmp relative_path : list Z) : option (list Z * list Z) :=
  match fuel with
  | O => None
  | S fuel =>
      match relative_path with
      | 46 :: [] => Some (base_tmp, [])
      | 46 :: 47 :: rest => dots_loop fuel base_tmp rest
      | 46 :: 46 :: [] => Some (dirname base_tmp, [])
      | 46 :: 46 :: 47 :: rest => dots_loop fuel (dirname base_tmp) rest
      | _ => Some (base_tmp, relative_path)
      end
  end.

Definition resolve_path (base_path relative_path : list Z) : option (list Z) :=
  if deref relative_path =? 47 then Some relative_path else
  '(base_tmp, relative_path) ← dots_loop (S (length relative_path)) (dirname base_path) relative_path;
  last_char ← last base_tmp;
  Some (base_tmp ++ (if last_char =? 47 then [] else [47]) ++ relative_path).

Definition resolve_uri (base_uri : option uri) (relative_uri : uri) : option uri :=
  match base_uri with
  | Some b =>
      if uri_is_absolute relative_uri then Some relative_uri else
      match path relative_uri with
      | Some p =>
          tmp_path ← resolve_path (default [47] (path b)) p;
          Some (uri_dup (Uri (scheme b) (opaque b) (user b) (password b) (host b) (port b)
                  (Some tmp_path) (query relative_uri) (fragment relative_uri)))
      | None =>
          match query relative_uri, fragment relative_uri with
          | Some q, f => Some (uri_dup (Uri (scheme b) (opaque b) (user b) (password b) (host b) (port b) (path b) (Some q) f))
          | None, Some f => Some (uri_dup (Uri (scheme b) (opaque b) (user b) (password b) (host b) (port b) (path b) (query b) (Some f)))
          | None, None => Some (uri_dup b)
          end
      end
  | None => Some relative_uri
  end.

(** ** Encoding and decoding. *)
Lemma hex_byte c : 0 <= c < 256 ->
  length (format_hex c 2 ZPAD) = 2%nat /\ strtoul (format_hex c 2 ZPAD) 16 = (c, []) /\
  Forall (fun x => isxdigit x = true /\ 0 < x < 256) (format_hex c 2 ZPAD).
Proof.
  apply (small_forall (fun c => length (format_hex c 2 ZPAD) = 2%nat /\ strtoul (format_hex c 2 ZPAD) 16 = (c, []) /\
    Forall (fun x => isxdigit x = true /\ 0 < x < 256) (format_hex c 2 ZPAD))).
  vm_compute. reflexivity.
Qed.

Lemma percent_reserved field : field <> URI_OPAQUE -> is_unreserved_uri_char 37 field = false.
Proof.
  intros H. unfold is_unreserved_uri_char. destruct (Z.eqb_spec field URI_QUERY), (Z.eqb_spec field URI_PATH), (Z.eqb_spec field URI_OPAQUE); done.
Qed.

Lemma decode_loop_encode field s fuel :
  field <> URI_OPAQUE -> cstring s -> (length (uri_encode s field) <= fuel)%nat -> decode_loop fuel (uri_encode s field) = s.
Proof.
  intros Hf Hs. revert fuel. induction Hs as [|c s Hc Hs IH]; intros fuel Hl; cbn [uri_encode] in *; [by destruct fuel|].
  unfold is_char in Hc. destruct (is_unreserved_uri_char c field) eqn:Hu; simpl in Hl.
  - destruct fuel as [|fuel]; [lia|]. cbn [app decode_loop]. destruct (Z.eqb_spec c 37) as [->|].
    { by rewrite percent_reserved in Hu. }
    f_equal. apply IH. lia.
  - destruct (hex_byte c ltac:(lia)) as (H2 & Hx & _). rewrite length_app, H2 in Hl.
    destruct fuel as [|fuel]; [lia|]. cbn [app decode_loop]. change (37 =? 37) with true. cbn iota.
    rewrite take_app_length' by lia. rewrite Hx, H2. simpl Nat.sub. rewrite drop_app_length' by lia. f_equal; [|apply IH; lia].
    apply wrap_small. change (2 ^ 8) with 256. lia.
Qed.

Lemma encode_length field s : (length s <= length (uri_encode s field))%nat.
Proof.
  induction s as [|c s IH]; cbn [uri_encode]; [done|]. destruct (is_unreserved_uri_char c field); simpl; [lia|].
  rewrite length_app. lia.
Qed.

Lemma until_nul_cstring s : cstring s -> until_nul s = s.
Proof. induction 1 as [|c s Hc Hs IH]; [done|]. cbn [until_nul]. unfold is_char in Hc. destruct (Z.eqb_spec c 0); [lia|]. by rewrite IH. Qed.

Lemma decode_field_encode field s : field <> URI_OPAQUE -> cstring s -> decode_field (uri_encode s field) = s.
Proof.
  intros Hf Hs. unfold decode_field, uri_decode. cbn [fst]. rewrite decode_loop_encode by done.
  rewrite take_ge by (pose proof (encode_length field s); lia). by apply until_nul_cstring.
Qed.

(** Decoding undoes encoding.  What [uri_encode] writes for any string,
    in any field but the opaque part, is decoded by [uri_decode] into a
    buffer of the encoded length to the same string and its length. *)
Theorem uri_decode_encode field s :
  field <> URI_OPAQUE -> cstring s ->
  uri_decode (uri_encode s field) (zlen (uri_encode s field) + 1) = (s, zlen s).
Proof.
  intros Hf Hs. unfold uri_decode. rewrite decode_loop_encode by done.
  rewrite take_ge by (pose proof (encode_length field s); lia). done.
Qed.

(** Encoded fields contain no separators. *)
Lemma encode_notin field s c :
  cstring s -> is_unreserved_uri_char c field = false -> isxdigit c = false -> c <> 37 -> c ∉ uri_encode s field.
Proof.
  intros Hs Hu Hx Hp. induction Hs as [|x s Hc Hs IH]; cbn [uri_encode]; [set_solver|].
  rewrite elem_of_app. intros [H|H]; [|done]. destruct (is_unreserved_uri_char x field) eqn:Hxu.
  - apply list_elem_of_singleton in H as ->. congruence.
  - apply elem_of_cons in H as [->|H]; [done|]. unfold is_char in Hc. destruct (hex_byte x ltac:(lia)) as (_ & _ & Hall).
    rewrite Forall_forall in Hall. destruct (Hall _ H). congruence.
Qed.

Lemma encode_cstring field s : cstring s -> cstring (uri_encode s field).
Proof.
  induction 1 as [|x s Hc Hs IH]; cbn [uri_encode]; [constructor|]. apply Forall_app_2; [|done]. unfold is_char in Hc.
  destruct (is_unreserved_uri_char x field); [by repeat constructor; lia|]. destruct (hex_byte x ltac:(lia)) as (_ & _ & Hall).
  constructor; [unfold is_char; lia|]. eapply Forall_impl; [exact Hall|]. by intros y [_ ?].
Qed.

(** ** Parsing what was unparsed.  An optional part with its separator. *)
Definition opt_part (c : Z) (o : option (list Z)) : list Z :=
  match o with
  | Some s => c :: s
  | None => []
  end.

Lemma chop_part a c o : 0 < c < 256 -> cstring a -> c ∉ a -> chop (a ++ opt_part c o) c = (a, o).
Proof.
  intros Hc Ha Hn. unfold chop, opt_part. destruct o as [s|].
  - rewrite strchr_Some by done. by rewrite take_app_length, drop_app_ge, Nat.sub_succ_l, Nat.sub_diag by lia.
  - rewrite app_nil_r. by rewrite strchr_None.
Qed.

(** A hierarchical URI with scheme and host: the parts that are not encoded
    contain no separators, and the path is absolute. *)
Record uri_ok (u : uri) : Prop := UriOk {
  ok_scheme : exists s, scheme u = Some s /\ cstring s /\ (2 <= length s)%nat /\ 58 ∉ s /\ 35 ∉ s;
  ok_opaque : opaque u = None;
  ok_password : is_Some (password u) -> is_Some (user u);
  ok_host : is_Some (host u);
  ok_port : forall p, port u = Some p -> cstring p /\ 64 ∉ p /\ 47 ∉ p /\ 63 ∉ p /\ 35 ∉ p;
  ok_path : forall p, path u = Some p -> deref p = 47;
  ok_strings : Forall (fun o => forall s, o = Some s -> cstring s) [user u; password u; host u; path u; query u; fragment u] }.

Definition enc (field : Z) (o : option (list Z)) : option (list Z) := (fun s => uri_encode s field) <$> o.

(** The authority and the whole string. *)
Definition authority_of (u : uri) : list Z :=
  match user u with
  | Some s => uri_encode s URI_USER ++ opt_part 58 (enc URI_PASSWORD (password u)) ++ [64]
  | None => []
  end ++ default [] (enc URI_HOST (host u)) ++ opt_part 58 (port u).

Lemma unparse_form u s : uri_ok u -> scheme u = Some s ->
  unparse_uri (Some u) URI_ALL =
    s ++ cstr "://" ++ authority_of u ++ default [] (enc URI_PATH (path u)) ++
    opt_part 63 (enc URI_QUERY (query u)) ++ opt_part 35 (enc URI_FRAGMENT (fragment u)).
Proof.
  intros [_ Hop Hpw [h Hh] _ _ _] Hs. destruct u as [sc op us pw ho po pa qu fr]; cbn [scheme opaque user password host port path query fragment] in *.
  subst sc op ho. assert (us = None -> pw = None) as Hup by (intros ->; destruct pw; [by destruct Hpw|done]).
  unfold unparse_uri, authority_of, uri_fields, separators. cbn [scheme opaque user password host port path query fragment].
  destruct us as [us|]; [|rewrite Hup by done]; [destruct pw as [pw|]|]; destruct po as [po|], pa as [pa|], qu as [qu|], fr as [fr|];
    cbv -[uri_encode app]; cbn [app];
    repeat progress (rewrite ?app_nil_r, <- ?app_assoc; cbn [app]); reflexivity.
Qed.

Lemma opt_part_notin c x o : x <> c -> (forall s, o = Some s -> x ∉ s) -> x ∉ opt_part c o.
Proof. intros Hne Hn. destruct o as [s|]; simpl; [|set_solver]. specialize (Hn s eq_refl). set_solver. Qed.

Lemma opt_part_cstring c o : 0 < c < 256 -> (forall s, o = Some s -> cstring s) -> cstring (opt_part c o).
Proof. intros Hc Ho. destruct o as [s|]; simpl; [|constructor]. constructor; [done|by apply Ho]. Qed.

Lemma enc_cstring field o : (forall s, o = Some s -> cstring s) -> forall s, enc field o = Some s -> cstring s.
Proof. intros Ho s. unfold enc. destruct o as [x|]; [|done]. intros [= <-]. apply encode_cstring. by apply Ho. Qed.

Lemma enc_notin field o c :
  (forall s, o = Some s -> cstring s) -> is_unreserved_uri_char c field = false -> isxdigit c = false -> c <> 37 ->
  forall s, enc field o = Some s -> c ∉ s.
Proof. intros Ho Hu Hx Hp s. unfold enc. destruct o as [x|]; [|done]. intros [= <-]. apply encode_notin; try done. by apply Ho. Qed.

Lemma decode_enc field o : field <> URI_OPAQUE -> (forall s, o = Some s -> cstring s) -> decode_field <$> enc field o = o.
Proof. intros Hf Ho. unfold enc. destruct o as [x|]; [|done]. simpl. rewrite decode_field_encode by (try done; by apply Ho). done. Qed.

(** The strings of a URI, one by one. *)
Lemma ok_string u o : uri_ok u -> o ∈ [user u; password u; host u; path u; query u; fragment u] -> forall s, o = Some s -> cstring s.
Proof. intros H Ho. pose proof (ok_strings u H) as Hall. rewrite Forall_forall in Hall. by apply Hall. Qed.

Ltac ok_str := first [assumption | (eapply ok_string; [eassumption|set_solver])].

Lemma authority_chars u c :
  uri_ok u -> c ∈ [47; 63; 35] -> c ∉ authority_of u.
Proof.
  intros Hok Hc. unfold authority_of.
  assert (forall f, f ∈ [URI_USER; URI_PASSWORD; URI_HOST] -> is_unreserved_uri_char c f = false /\ isxdigit c = false /\ c <> 37 /\ c <> 58 /\ c <> 64) as Hu.
  { intros f Hf. repeat (apply elem_of_cons in Hc as [->|Hc]; [repeat (apply elem_of_cons in Hf as [->|Hf]; [by_decide|]); by apply not_elem_of_nil in Hf|]).
    by apply not_elem_of_nil in Hc. }
  destruct (ok_host u Hok) as [h Hh]. rewrite Hh. cbn [enc fmap option_fmap option_map default from_option id].
  pose proof (Hu URI_HOST ltac:(set_solver)) as (? & ? & ? & ? & ?).
  rewrite !elem_of_app. intros [Hin|[Hin|Hin]].
  - destruct (user u) as [s|] eqn:Eu; [|set_solver]. rewrite !elem_of_app in Hin. destruct Hin as [Hin|[Hin|Hin]].
    + revert Hin. destruct (Hu URI_USER ltac:(set_solver)) as (? & ? & ? & _). apply encode_notin; try done. eapply (ok_string u (user u)); [done|set_solver|done].
    + revert Hin. destruct (Hu URI_PASSWORD ltac:(set_solver)) as (? & ? & ? & ? & _). apply opt_part_notin; [done|]. apply enc_notin; try done.
      apply (ok_string u (password u)); [done|set_solver].
    + set_solver.
  - revert Hin. apply encode_notin; try done. eapply (ok_string u (host u)); [done|set_solver|done].
  - revert Hin. apply opt_part_notin; [done|]. intros p Hp. destruct (ok_port u Hok p Hp) as (_ & _ & ? & ? & ?). set_solver.
Qed.

Lemma authority_cstring u : uri_ok u -> cstring (authority_of u).
Proof.
  intros Hok. unfold authority_of. destruct (ok_host u Hok) as [h Hh]. apply Forall_app_2; [|apply Forall_app_2].
  - destruct (user u) as [s|] eqn:Eu; [|constructor]. apply Forall_app_2; [|apply Forall_app_2; [|by repeat constructor]].
    + apply encode_cstring. eapply (ok_string u (user u)); [done|set_solver|done].
    + apply opt_part_cstring; [lia|]. apply enc_cstring. apply (ok_string u (password u)); [done|set_solver].
  - rewrite Hh. apply encode_cstring. eapply (ok_string u (host u)); [done|set_solver|done].
  - apply opt_part_cstring; [lia|]. intros p Hp. by apply (ok_port u Hok p Hp).
Qed.

Lemma parse_authority_of u sc pa qu fr : uri_ok u ->
  parse_authority sc pa qu fr (authority_of u) =
    Uri sc None (user u) (password u) (host u) (port u) (decode_field <$> pa) (decode_field <$> qu) (decode_field <$> fr).
Proof.
  intros Hok. destruct (ok_host u Hok) as [h Hh].
  assert (cstring h) as Hch by (eapply (ok_string u (host u)); [done|set_solver|done]).
  assert (forall p, port u = Some p -> cstring p /\ 64 ∉ p) as Hp by (intros p Hp; by destruct (ok_port u Hok p Hp) as (? & ? & _)).
  assert (chop (uri_encode h URI_HOST ++ opt_part 58 (port u)) 58 = (uri_encode h URI_HOST, port u)) as Hhost.
  { apply chop_part; [lia|by apply encode_cstring|]. by apply encode_notin. }
  unfold parse_authority, authority_of. rewrite Hh. cbn [enc fmap option_fmap option_map default from_option id].
  destruct (user u) as [s|] eqn:Eu.
  - assert (cstring s) as Hcs by (eapply (ok_string u (user u)); [done|set_solver|done]).
    assert (forall x, password u = Some x -> cstring x) as Hpw by (apply (ok_string u (password u)); [done|set_solver]).
    pose proof (chop_part (uri_encode s URI_USER ++ opt_part 58 (enc URI_PASSWORD (password u))) 64
      (Some (uri_encode h URI_HOST ++ opt_part 58 (port u)))) as H64. cbn [opt_part] in H64. rewrite <- !app_assoc in *.
    cbn [app] in *. rewrite H64; [|lia| |].
    + rewrite (chop_part (uri_encode s URI_USER)) by (lia || by apply encode_cstring || by apply encode_notin). rewrite Hhost.
      simpl. rewrite !decode_field_encode by done. rewrite decode_enc by done. done.
    + apply Forall_app_2; [by apply encode_cstring|]. apply opt_part_cstring; [lia|]. by apply enc_cstring.
    + rewrite elem_of_app. intros [H|H]; revert H; [by apply encode_notin|]. apply opt_part_notin; [lia|]. by apply enc_notin.
  - cbn [app]. assert (password u = None) as ->.
    { destruct (password u) eqn:E; [|done]. destruct (ok_password u Hok) as [? Hx]; [by rewrite E|]. by rewrite Eu in Hx. }
    pose proof (chop_part (uri_encode h URI_HOST ++ opt_part 58 (port u)) 64 None) as H64. cbn [opt_part] in H64.
    rewrite app_nil_r in H64. rewrite H64; [|lia| |].
    + rewrite Hhost. simpl. rewrite decode_field_encode by done. done.
    + apply Forall_app_2; [by apply encode_cstring|]. apply opt_part_cstring; [lia|]. intros p E. by apply Hp.
    + rewrite elem_of_app. intros [H|H]; revert H; [by apply encode_notin|]. apply opt_part_notin; [lia|]. intros p E. by apply Hp.
Qed.

(** The path part, with what follows the authority cut off. *)
Lemma parse_path_of u sc fr : uri_ok u ->
  parse_path sc fr (47 :: 47 :: authority_of u ++ default [] (enc URI_PATH (path u)) ++ opt_part 63 (enc URI_QUERY (query u))) =
    Uri sc None (user u) (password u) (host u) (port u) (path u) (query u) (decode_field <$> fr).
Proof.
  intros Hok. assert (forall x, path u = Some x -> cstring x) as Hp by (apply (ok_string u (path u)); [done|set_solver]).
  assert (forall x, query u = Some x -> cstring x) as Hq by (apply (ok_string u (query u)); [done|set_solver]).
  assert (cstring (default [] (enc URI_PATH (path u)))) as Hcp.
  { destruct (path u) eqn:E; [|constructor]. apply encode_cstring. by apply Hp. }
  pose proof (authority_cstring u Hok) as Hca. unfold parse_path.
  pose proof (chop_part (47 :: 47 :: authority_of u ++ default [] (enc URI_PATH (path u))) 63 (enc URI_QUERY (query u))) as H63.
  cbn [app] in H63. rewrite <- app_assoc in H63. rewrite H63; [|lia| |].
  - cbn [deref tail]. change (47 =? 47) with true. cbn [andb drop]. rewrite !drop_0.
    assert (decode_field <$> enc URI_QUERY (query u) = query u) as Hdq by by apply decode_enc.
    destruct (path u) as [p|] eqn:Ep; cbn [enc fmap option_fmap option_map default from_option id].
    + pose proof (ok_path u Hok p Ep) as H47. destruct p as [|x p]; [done|]. simpl in H47. subst x. cbn [uri_encode app].
      change (is_unreserved_uri_char 47 URI_PATH) with true. cbn iota. cbn [app].
      rewrite strchr_Some; [|lia|done|by apply authority_chars; [|set_solver]].
      rewrite take_app_length, drop_app_length, parse_authority_of by done. rewrite Hdq. f_equal. cbn [fmap option_fmap option_map].
      f_equal. apply (decode_field_encode URI_PATH (47 :: p)); [done|]. by apply Hp.
    + rewrite app_nil_r. rewrite strchr_None; [|lia|done|by apply authority_chars; [|set_solver]].
      rewrite parse_authority_of by done. by rewrite Hdq.
  - constructor; [done|]. constructor; [done|]. by apply Forall_app_2.
  - rewrite !elem_of_cons, elem_of_app. intros [H|[H|[H|H]]]; [done..| |].
    + revert H. by apply authority_chars; [|set_solver].
    + destruct (path u) as [p|] eqn:Ep; [|set_solver]. revert H. apply encode_notin; try done. by apply Hp.
Qed.

(** [uri_dup] is the identity on hierarchical URIs with a scheme and a
    host: unparsing a URI with any user, password, host, port, absolute
    path, query and fragment and parsing the result gives back every
    field, whatever characters the encoded fields contain. *)
Theorem uri_dup_id u : uri_ok u -> uri_dup u = u.
Proof.
  intros Hok. destruct (ok_scheme u Hok) as (s & Hs & Hcs & Hlen & H58 & H35).
  assert (forall x, path u = Some x -> cstring x) as Hp by (apply (ok_string u (path u)); [done|set_solver]).
  assert (forall x, query u = Some x -> cstring x) as Hq by (apply (ok_string u (query u)); [done|set_solver]).
  assert (forall x, fragment u = Some x -> cstring x) as Hf by (apply (ok_string u (fragment u)); [done|set_solver]).
  unfold uri_dup. rewrite (unparse_form u s) by done. unfold parse_uri.
  set (rest := 47 :: 47 :: authority_of u ++ default [] (enc URI_PATH (path u)) ++ opt_part 63 (enc URI_QUERY (query u))).
  assert (s ++ cstr "://" ++ authority_of u ++ default [] (enc URI_PATH (path u)) ++
    opt_part 63 (enc URI_QUERY (query u)) ++ opt_part 35 (enc URI_FRAGMENT (fragment u)) =
    (s ++ 58 :: rest) ++ opt_part 35 (enc URI_FRAGMENT (fragment u))) as ->.
  { unfold rest. change (cstr "://") with [58; 47; 47]. rewrite <- !app_assoc. cbn [app]. by rewrite <- !app_assoc. }
  rewrite chop_part; [|lia| |].
  - rewrite strchr_Some by done. destruct (Nat.ltb_spec 1 (length s)); [|lia].
    rewrite take_app_length, drop_app_ge, Nat.sub_succ_l, Nat.sub_diag by lia. cbn [drop]. rewrite !drop_0. subst rest.
    cbn [deref]. change (47 =? 47) with true. cbn iota. rewrite parse_path_of by done. rewrite decode_enc by done.
    pose proof (ok_opaque u Hok) as Ho. destruct u; simpl in *. by subst.
  - apply Forall_app_2; [done|]. do 3 (constructor; [done|]). apply Forall_app_2; [by apply authority_cstring|]. apply Forall_app_2.
    + destruct (path u) eqn:E; [|constructor]. apply encode_cstring. by apply Hp.
    + apply opt_part_cstring; [lia|]. by apply enc_cstring.
  - unfold rest. rewrite elem_of_app, !elem_of_cons, !elem_of_app. intros [H|[H|[H|[H|[H|[H|H]]]]]]; [done..| | |].
    + revert H. by apply authority_chars; [|set_solver].
    + destruct (path u) as [p|] eqn:Ep; [|set_solver]. revert H. apply encode_notin; try done. by apply Hp.
    + revert H. apply opt_part_notin; [lia|]. by apply enc_notin.
Qed.

(** [parse_uri] decodes nothing in a URI without an authority, although
    [unparse_uri] encodes the path: duplicating such a URI encodes its
    percent signs again, and resolving a relative URI against a base leaves
    them encoded in the result. *)
Theorem relative_not_decoded :
  path (parse_uri (cstr "/a%20b")) = Some (cstr "/a%20b") /\
  path (uri_dup (parse_uri (cstr "/a%20b"))) = Some (cstr "/a%2520b") /\
  path (parse_uri (cstr "http://h/a%20b")) = Some (cstr "/a b") /\
  (path <$> resolve_uri (Some (parse_uri (cstr "http://h/x"))) (parse_uri (cstr "a%20b"))) = Some (Some (cstr "/a%20b")).
Proof. vm_compute. done. Qed.

(** ** Relative paths. *)
Definition up (k : nat) : list Z := mjoin (replicate k [46; 46; 47]).

Lemma dirname_cstring p : cstring p -> cstring (dirname p).
Proof.
  intros Hp. unfold dirname. destruct (strrchr p 47) as [[|i]|]; [by repeat constructor| |by repeat constructor].
  by apply Forall_take.
Qed.

Lemma dirnames_ok k p : cstring p -> cstring (Nat.iter k dirname (dirname p)) /\ Nat.iter k dirname (dirname p) <> [].
Proof.
  intros Hp. induction k as [|k [IHc IHn]]; simpl.
  - split; [by apply dirname_cstring|by apply dirname_basename].
  - split; [by apply dirname_cstring|by apply dirname_basename].
Qed.

Lemma iter_dirname k p : Nat.iter k dirname (dirname p) = dirname (Nat.iter k dirname p).
Proof. induction k as [|k IH]; [done|]. simpl. by rewrite IH. Qed.

Lemma dots_loop_up fuel k d rel : deref rel <> 46 -> (k < fuel)%nat ->
  dots_loop fuel d (up k ++ rel) = Some (Nat.iter k dirname d, rel).
Proof.
  intros Hr. revert fuel d. induction k as [|k IH]; intros fuel d Hf; (destruct fuel as [|fuel]; [lia|]).
  - cbn [up replicate mjoin list_join app dots_loop Nat.iter nat_rect]. destruct rel as [|c rel]; [done|]. simpl in Hr.
    destruct (Z.eq_dec c 46); [done|]. repeat case_match; done || congruence.
  - change (up (S k) ++ rel) with (46 :: 46 :: 47 :: up k ++ rel). cbn [dots_loop]. rewrite IH by lia.
    by rewrite iter_dirname.
Qed.

(** Resolving a relative path always succeeds.  Every leading "../" takes
    one more component off the base, of which the last component is taken
    off in any case, and the rest is appended with a single slash. *)
Theorem resolve_path_up base k rel :
  cstring base -> deref rel <> 46 -> (k = O -> deref rel <> 47) ->
  exists dir c, dir ++ [c] = Nat.iter (S k) dirname base /\
    resolve_path base (up k ++ rel) = Some ((dir ++ [c]) ++ (if c =? 47 then [] else [47]) ++ rel).
Proof.
  intros Hb Hr H0. unfold resolve_path. destruct (Z.eqb_spec (deref (up k ++ rel)) 47) as [E|_].
  { destruct k; [by specialize (H0 eq_refl)|done]. }
  rewrite dots_loop_up; [|done|].
  2: { unfold up. rewrite length_app. clear. induction k; simpl in *; lia. }
  cbn [mbind option_bind]. destruct (dirnames_ok k base Hb) as [_ Hne]. change (Nat.iter (S k) dirname base) with (dirname (Nat.iter k dirname base)).
  rewrite <- (iter_dirname k base).
  destruct (Nat.iter k dirname (dirname base)) as [|x l] using rev_ind; [done|]. exists l, x. split; [done|].
  by rewrite last_snoc.
Qed.

(** ** Instances. *)
Definition example_uri : uri :=
  Uri (Some (cstr "ftp")) None (Some (cstr "joe@home")) (Some (cstr "s:c/t")) (Some (cstr "insecure.org")) (Some (cstr "8081"))
    (Some (cstr "/hidden path/to")) (Some (cstr "what=is?")) (Some (cstr "th#is")).

Lemma example_uri_ok : uri_ok example_uri.
Proof.
  split; try done.
  - exists (cstr "ftp"). split_and!; try done; by_decide.
  - intros p [= <-]. split_and!; by_decide.
  - intros p [= <-]. done.
  - repeat constructor; intros s [= <-]; by_decide.
Qed.

Lemma uri_dup_id_witness : parse_uri (unparse_uri (Some example_uri) URI_ALL) = example_uri.
Proof. apply (uri_dup_id example_uri), example_uri_ok. Defined.

Lemma uri_decode_encode_witness :
  uri_decode (uri_encode (cstr "a b/c") URI_USER) (zlen (uri_encode (cstr "a b/c") URI_USER) + 1) = (cstr "a b/c", 5).
Proof. apply (uri_decode_encode URI_USER (cstr "a b/c")); [done|by_decide]. Defined.

Lemma resolve_path_up_witness :
  exists dir c, dir ++ [c] = Nat.iter 2 dirname (cstr "/var/lib/tftpboot/vmlinuz") /\
    resolve_path (cstr "/var/lib/tftpboot/vmlinuz") (up 1 ++ cstr "initrd.gz") =
      Some ((dir ++ [c]) ++ (if c =? 47 then [] else [47]) ++ cstr "initrd.gz").
Proof. apply (resolve_path_up (cstr "/var/lib/tftpboot/vmlinuz") 1 (cstr "initrd.gz")); [by_decide|done|done]. Defined.
