(* ===== verification/BitTorrent.v ===== *)
(** * The BitTorrent client: net/tcp/bittorrent.c and
    include/ipxe/bittorrent.h.

    One request and its peers, found by their addresses.  The sockets, what
    is sent on them and the flow control windows are an environment, as are
    the contents of memory the code sends without having written it.  An
    I/O buffer is the list of the bytes it holds.  The outcome of a handler
    is [Done], [Fault] for an access to memory the code has no claim to (a
    null pointer, a freed peer, bytes outside a buffer or array), or [Hang]
    when the fuel of the delivery loop runs out.  Debug output, the packet
    counters and the clock are left out. *)
From S2P Require Import Prelude LinkedList Bitmap Retry Strings Uri.

(** ** Parameters. *)
Definition BT_MAXRETRIES : Z := 5.
Definition BT_NUMOFNODES : Z := 3.
Definition BT_MAXNUMOFPEERS : Z := 1.
Definition BT_PIECE_SIZE : Z := 1024.
Definition BT_NUMOFPIECES : Z := 1024 * 100.
Definition BT_PREFIXLEN : Z := 4.
Definition BT_HANDSHAKELEN : Z := 1 + 19 + 8 + 20 + 20.

Definition BT_CHOKE : Z := 0.
Definition BT_UNCHOKE : Z := 1.
Definition BT_INTERESTED : Z := 2.
Definition BT_NOTINTERESTED : Z := 3.
Definition BT_HAVE : Z := 4.
Definition BT_BITFIELD : Z := 5.
Definition BT_REQUEST : Z := 6.
Definition BT_PIECE : Z := 7.
Definition BT_CANCEL : Z := 8.
Definition BT_PORT : Z := 9.

Definition BT_TEST_HASH : list Z := cstr "0bfd2e8c7b603aec481d6b32296f29aee524207c".

(** [enum bt_peer_state] and [enum bt_state]. *)
Definition BT_PEER_CREATED : Z := 0.
Definition BT_PEER_HANDSHAKE_SENT : Z := 1.
Definition BT_PEER_HANDSHAKE_RCVD : Z := 2.
Definition BT_PEER_LEECHING : Z := 3.
Definition BT_PEER_SEEDING : Z := 4.
Definition BT_PEER_HANDSHAKE_EXPECTED : Z := 5.

Definition BT_CONNECTING_TO_PEERS : Z := 0.
Definition BT_SENDING_HANDSHAKE : Z := 1.
Definition BT_DOWNLOADING : Z := 2.
Definition BT_SEEDING : Z := 3.
Definition BT_COMPLETE : Z := 4.

(** The room of the receive buffer: what [alloc_iob] makes of the requested
    length. *)
Definition RX_ROOM : Z := Z.land (BT_PIECE_SIZE + 9 + 3) (Z.lnot 3).

(** ** Data. *)
Record bt_record := BtRecord {
  record_id : Z;
  retries : Z;
  connected : Z }.

Record bt_request := Bt {
  bt_id : Z;
  bt_state : Z;
  bt_records : list bt_record;
  bt_peers : list loc;
  rem_pieces : list Z;
  pieces_left : Z;
  bt_bitmap : bitmap;
  info_hash : list Z;
  bt_peerid : list Z;
  bt_process : bool }.

Definition set_bt_id (v : Z) (b : bt_request) : bt_request :=
  Bt v (bt_state b) (bt_records b) (bt_peers b) (rem_pieces b) (pieces_left b) (bt_bitmap b)
    (info_hash b) (bt_peerid b) (bt_process b).
Definition set_bt_state (v : Z) (b : bt_request) : bt_request :=
  Bt (bt_id b) v (bt_records b) (bt_peers b) (rem_pieces b) (pieces_left b) (bt_bitmap b)
    (info_hash b) (bt_peerid b) (bt_process b).
Definition set_bt_records (v : list bt_record) (b : bt_request) : bt_request :=
  Bt (bt_id b) (bt_state b) v (bt_peers b) (rem_pieces b) (pieces_left b) (bt_bitmap b)
    (info_hash b) (bt_peerid b) (bt_process b).
Definition set_bt_peers (v : list loc) (b : bt_request) : bt_request :=
  Bt (bt_id b) (bt_state b) (bt_records b) v (rem_pieces b) (pieces_left b) (bt_bitmap b)
    (info_hash b) (bt_peerid b) (bt_process b).
Definition set_rem_pieces (v : list Z) (b : bt_request) : bt_request :=
  Bt (bt_id b) (bt_state b) (bt_records b) (bt_peers b) v (pieces_left b) (bt_bitmap b)
    (info_hash b) (bt_peerid b) (bt_process b).
Definition set_pieces_left (v : Z) (b : bt_request) : bt_request :=
  Bt (bt_id b) (bt_state b) (bt_records b) (bt_peers b) (rem_pieces b) v (bt_bitmap b)
    (info_hash b) (bt_peerid b) (bt_process b).
Definition set_bt_bitmap (v : bitmap) (b : bt_request) : bt_request :=
  Bt (bt_id b) (bt_state b) (bt_records b) (bt_peers b) (rem_pieces b) (pieces_left b) v
    (info_hash b) (bt_peerid b) (bt_process b).
Definition set_info_hash (v : list Z) (b : bt_request) : bt_request :=
  Bt (bt_id b) (bt_state b) (bt_records b) (bt_peers b) (rem_pieces b) (pieces_left b)
    (bt_bitmap b) v (bt_peerid b) (bt_process b).
Definition set_bt_peerid (v : list Z) (b : bt_request) : bt_request :=
  Bt (bt_id b) (bt_state b) (bt_records b) (bt_peers b) (rem_pieces b) (pieces_left b)
    (bt_bitmap b) (info_hash b) v (bt_process b).
Definition set_bt_process (v : bool) (b : bt_request) : bt_request :=
  Bt (bt_id b) (bt_state b) (bt_records b) (bt_peers b) (rem_pieces b) (pieces_left b)
    (bt_bitmap b) (info_hash b) (bt_peerid b) v.

Record bt_peer := Peer {
  peer_state : Z;
  peer_id : Z;
  rx_len : Z;
  rx_id : Z;
  rx_buffer : option (list Z);
  remaining : Z;
  pieces_received : Z;
  next_piece : Z;
  pending_requests : Z;
  peer_bitmap : bitmap;
  queue : list (list Z);
  peer_uri : option uri }.

Definition set_peer_state (v : Z) (p : bt_peer) : bt_peer :=
  Peer v (peer_id p) (rx_len p) (rx_id p) (rx_buffer p) (remaining p) (pieces_received p)
    (next_piece p) (pending_requests p) (peer_bitmap p) (queue p) (peer_uri p).
Definition set_peer_id (v : Z) (p : bt_peer) : bt_peer :=
  Peer (peer_state p) v (rx_len p) (rx_id p) (rx_buffer p) (remaining p) (pieces_received p)
    (next_piece p) (pending_requests p) (peer_bitmap p) (queue p) (peer_uri p).
Definition set_rx_len (v : Z) (p : bt_peer) : bt_peer :=
  Peer (peer_state p) (peer_id p) v (rx_id p) (rx_buffer p) (remaining p) (pieces_received p)
    (next_piece p) (pending_requests p) (peer_bitmap p) (queue p) (peer_uri p).
Definition set_rx_id (v : Z) (p : bt_peer) : bt_peer :=
  Peer (peer_state p) (peer_id p) (rx_len p) v (rx_buffer p) (remaining p) (pieces_received p)
    (next_piece p) (pending_requests p) (peer_bitmap p) (queue p) (peer_uri p).
Definition set_rx_buffer (v : option (list Z)) (p : bt_peer) : bt_peer :=
  Peer (peer_state p) (peer_id p) (rx_len p) (rx_id p) v (remaining p) (pieces_received p)
    (next_piece p) (pending_requests p) (peer_bitmap p) (queue p) (peer_uri p).
Definition set_remaining (v : Z) (p : bt_peer) : bt_peer :=
  Peer (peer_state p) (peer_id p) (rx_len p) (rx_id p) (rx_buffer p) v (pieces_received p)
    (next_piece p) (pending_requests p) (peer_bitmap p) (queue p) (peer_uri p).
Definition set_pieces_received (v : Z) (p : bt_peer) : bt_peer :=
  Peer (peer_state p) (peer_id p) (rx_len p) (rx_id p) (rx_buffer p) (remaining p) v (next_piece
    p) (pending_requests p) (peer_bitmap p) (queue p) (peer_uri p).
Definition set_next_piece (v : Z) (p : bt_peer) : bt_peer :=
  Peer (peer_state p) (peer_id p) (rx_len p) (rx_id p) (rx_buffer p) (remaining p)
    (pieces_received p) v (pending_requests p) (peer_bitmap p) (queue p) (peer_uri p).
Definition set_pending_requests (v : Z) (p : bt_peer) : bt_peer :=
  Peer (peer_state p) (peer_id p) (rx_len p) (rx_id p) (rx_buffer p) (remaining p)
    (pieces_received p) (next_piece p) v (peer_bitmap p) (queue p) (peer_uri p).
Definition set_peer_bitmap (v : bitmap) (p : bt_peer) : bt_peer :=
  Peer (peer_state p) (peer_id p) (rx_len p) (rx_id p) (rx_buffer p) (remaining p)
    (pieces_received p) (next_piece p) (pending_requests p) v (queue p) (peer_uri p).
Definition set_queue (v : list (list Z)) (p : bt_peer) : bt_peer :=
  Peer (peer_state p) (peer_id p) (rx_len p) (rx_id p) (rx_buffer p) (remaining p)
    (pieces_received p) (next_piece p) (pending_requests p) (peer_bitmap p) v (peer_uri p).
Definition set_peer_uri (v : option uri) (p : bt_peer) : bt_peer :=
  Peer (peer_state p) (peer_id p) (rx_len p) (rx_id p) (rx_buffer p) (remaining p)
    (pieces_received p) (next_piece p) (pending_requests p) (peer_bitmap p) (queue p) v.

(** A peer as [zalloc] leaves it. *)
Definition peer_zero : bt_peer := Peer 0 0 0 0 None 0 0 0 0 bitmap_zero [] None.

Record bt_world (N : Type) := BtWorld {
  bt : bt_request;
  peers : gmap loc bt_peer;
  bt_refs : refs;
  bt_allocs : list (option loc);
  bt_randoms : list Z;
  sock : N }.
Arguments BtWorld {N}.
Arguments bt {N}.
Arguments peers {N}.
Arguments bt_refs {N}.
Arguments bt_allocs {N}.
Arguments bt_randoms {N}.
Arguments sock {N}.

Definition set_bt {N} (v : bt_request) (w : bt_world N) : bt_world N :=
  BtWorld v (peers w) (bt_refs w) (bt_allocs w) (bt_randoms w) (sock w).
Definition set_peers {N} (v : gmap loc bt_peer) (w : bt_world N) : bt_world N :=
  BtWorld (bt w) v (bt_refs w) (bt_allocs w) (bt_randoms w) (sock w).
Definition set_bt_refs {N} (v : refs) (w : bt_world N) : bt_world N :=
  BtWorld (bt w) (peers w) v (bt_allocs w) (bt_randoms w) (sock w).
Definition set_bt_allocs {N} (v : list (option loc)) (w : bt_world N) : bt_world N :=
  BtWorld (bt w) (peers w) (bt_refs w) v (bt_randoms w) (sock w).
Definition set_bt_randoms {N} (v : list Z) (w : bt_world N) : bt_world N :=
  BtWorld (bt w) (peers w) (bt_refs w) (bt_allocs w) v (sock w).
Definition set_sock {N} (v : N) (w : bt_world N) : bt_world N :=
  BtWorld (bt w) (peers w) (bt_refs w) (bt_allocs w) (bt_randoms w) v.

(** The address of the request's reference counter. *)
Definition BT_REF : loc := 1%positive.

(** ** The environment: the sockets, and memory that was not written.
    Plugging and closing interfaces changes reference counts, so that these
    calls act on the whole world. *)
Record bt_env (N : Type) := BtEnv {
  xfer_window : loc -> N -> Z;
  xfer_deliver : loc -> list Z -> N -> N * rc;
  intf_shutdown : loc -> rc -> bt_world N -> bt_world N;
  open_named_socket : loc -> Z -> list Z -> bt_world N -> bt_world N * rc;
  plug_child : loc -> loc -> bt_world N -> bt_world N;
  open_listener : list Z -> bt_world N -> bt_world N * rc;
  plug_parent : bt_world N -> bt_world N;
  close_interfaces : rc -> bt_world N -> bt_world N;
  bitmap_realloc : list Z -> Z -> option (list Z);
  unwritten : nat -> list Z }.
Arguments BtEnv {N}.
Arguments xfer_window {N}.
Arguments xfer_deliver {N}.
Arguments intf_shutdown {N}.
Arguments open_named_socket {N}.
Arguments plug_child {N}.
Arguments open_listener {N}.
Arguments plug_parent {N}.
Arguments close_interfaces {N}.
Arguments bitmap_realloc {N}.
Arguments unwritten {N}.

(** ** The monad of the handlers. *)
Inductive outcome (A : Type) :=
| Done (a : A)
| Fault
| Hang.
Arguments Done {A}.
Arguments Fault {A}.
Arguments Hang {A}.

Definition B (N A : Type) : Type := bt_world N -> outcome (bt_world N * A).

#[export] Instance B_ret N : MRet (B N) := fun A x w => Done (w, x).
#[export] Instance B_bind N : MBind (B N) := fun A C k m w =>
  match m w with
  | Done (w, x) => k x w
  | Fault => Fault
  | Hang => Hang
  end.

Section Client.
Context {N : Type}.
Variable env : bt_env N.
Abbreviation BT := (B N).

Definition fault {A} : BT A := fun _ => Fault.
(** An access that may be out of bounds. *)
Definition valid {A} (o : option A) : BT A :=
  match o with
  | Some x => mret x
  | None => fault
  end.
Definition getw : BT (bt_world N) := fun w => Done (w, w).
Definition modifyw (f : bt_world N -> bt_world N) : BT unit := fun w => Done (f w, tt).
Definition update_bt (f : bt_request -> bt_request) : BT unit := modifyw (fun w => set_bt (f (bt w)) w).
Definition get_peer (p : loc) : BT bt_peer := fun w =>
  match peers w !! p with
  | Some x => Done (w, x)
  | None => Fault
  end.
Definition update_peer (p : loc) (f : bt_peer -> bt_peer) : BT unit :=
  x ← get_peer p; modifyw (fun w => set_peers (<[p := f x]> (peers w)) w).
Definition on_sock {A} (f : N -> N * A) : BT A := fun w =>
  let '(n, a) := f (sock w) in Done (set_sock n w, a).
Definition callw {A} (f : bt_world N -> bt_world N * A) : BT A := fun w => Done (f w).
Definition ref_get_bt : BT unit := modifyw (fun w => set_bt_refs (ref_get (Some BT_REF) (bt_refs w)) w).
Definition ref_put_bt : BT unit := modifyw (fun w => set_bt_refs (ref_put (Some BT_REF) (bt_refs w)) w).
Definition window (p : loc) : BT Z := w ← getw; mret (xfer_window env p (sock w)).

(** A memory allocation: the address, or [None] for NULL. *)
Definition bt_alloc : BT (option loc) := fun w =>
  match bt_allocs w with
  | [] => Done (w, None)
  | a :: l => Done (set_bt_allocs l w, a)
  end.
(** An allocation whose result is used unchecked. *)
Definition bt_alloc_unchecked : BT loc := a ← bt_alloc; valid a.

Definition bt_random : BT Z := fun w =>
  match bt_randoms w with
  | [] => Fault
  | r :: l => Done (set_bt_randoms l w, r)
  end.

(** ** Messages sent. *)
Definition xfer_deliver_raw (p : loc) (data : list Z) : BT rc := on_sock (xfer_deliver env p data).

Definition handshake_message (reserved info_hash peerid : list Z) : list Z :=
  19 :: cstr "BitTorrent protocol" ++ reserved ++ info_hash ++ peerid.

Definition bt_tx_handshake (p : loc) : BT rc :=
  w ← getw;
  xfer_deliver_raw p (handshake_message (unwritten env 8) (info_hash (bt w)) (bt_peerid (bt w))).

Definition bt_tx_keep_alive (p : loc) : BT rc := xfer_deliver_raw p [0; 0; 0; 0].

Definition bt_tx_interested (p : loc) : BT rc := xfer_deliver_raw p [0; 0; 0; 1; BT_INTERESTED].

Definition have_message (index : Z) : list Z := [0; 0; 0; 5; BT_HAVE] ++ be_bytes 4 index.
Definition bt_tx_have (p : loc) (index : Z) : BT rc := xfer_deliver_raw p (have_message index).

Fixpoint have_loop (ps : list loc) (index : Z) : BT unit :=
  match ps with
  | [] => mret tt
  | p :: ps => _ ← bt_tx_have p index; have_loop ps index
  end.
Definition bt_tx_have_to_peers (index : Z) : BT unit := w ← getw; have_loop (bt_peers (bt w)) index.

Definition request_message (index begin length : Z) : list Z :=
  [0; 0; 0; 13; 6] ++ be_bytes 4 index ++ be_bytes 4 begin ++ be_bytes 4 length.
Definition bt_tx_request (p : loc) (index begin length : Z) : BT rc :=
  xfer_deliver_raw p (request_message index begin length).

Definition bt_peer_xmit (p : loc) : BT rc :=
  x ← get_peer p;
  win ← window p;
  match queue x with
  | iobuf :: q =>
      if ctrue win then
        _ ← update_peer p (set_queue q);
        xfer_deliver_raw p iobuf
      else mret RC_OK
  | [] => mret RC_OK
  end.

(** The block itself is never written. *)
Definition piece_message (index : Z) (block : list Z) : list Z :=
  be_bytes 4 (9 + BT_PIECE_SIZE) ++ [7] ++ be_bytes 4 index ++ [0; 0; 0; 0] ++ block.

Definition bt_tx_piece (p : loc) (index begin : Z) : BT rc :=
  a ← bt_alloc;
  match a with
  | None => mret (RC_ERR ENOMEM)
  | Some _ =>
      _ ← update_peer p (fun x => set_queue (queue x ++ [piece_message index (unwritten env (Z.to_nat BT_PIECE_SIZE))]) x);
      bt_peer_xmit p
  end.

(** ** Pieces. *)
Definition bt_next_piece : BT Z :=
  w ← getw;
  match rem_pieces (bt w) with
  | [] => fault
  | index :: l =>
      _ ← update_bt (fun b => set_pieces_left (s32 (pieces_left b - 1)) (set_rem_pieces l b));
      mret index
  end.

Definition add_rem_piece (index : Z) : BT unit :=
  _ ← bt_alloc_unchecked;
  update_bt (fun b => set_rem_pieces (rem_pieces b ++ [index]) b).

(** ** Peers. *)
Definition bt_create_peer : BT (option loc) :=
  a ← bt_alloc;
  match a with
  | None => mret None
  | Some p =>
      buf ← bt_alloc;
      match buf with
      | None => mret None
      | Some _ =>
          _ ← ref_get_bt;
          let '(bm, r) := bitmap_resize (bitmap_realloc env) bitmap_zero BT_NUMOFPIECES in
          match r with
          | RC_ERR _ => mret None
          | RC_OK =>
              _ ← modifyw (fun w => set_peers (<[p := set_peer_bitmap bm (set_rx_buffer (Some []) peer_zero)]> (peers w)) w);
              mret (Some p)
          end
      end
  end.

(** A peer that is in no list has null links, through which [list_del]
    writes. *)
Definition bt_peer_close (p : loc) (r : rc) : BT unit :=
  _ ← get_peer p;
  w ← getw;
  if decide (p ∈ bt_peers (bt w)) then
    _ ← update_bt (fun b => set_bt_peers (unlink p (bt_peers b)) b);
    _ ← modifyw (intf_shutdown env p r);
    _ ← ref_put_bt;
    modifyw (fun w => set_peers (delete p (peers w)) w)
  else fault.

Definition bt_count_peers : BT Z := w ← getw; mret (zlen (bt_peers (bt w))).

Definition bt_socket_open (p : loc) (u : uri) : BT rc :=
  h ← valid (host u);
  r ← callw (open_named_socket env p (u16 (uri_port (Some u) 80)) h);
  match r with
  | RC_OK => mret RC_OK
  | RC_ERR e => _ ← bt_peer_close p r; mret r
  end.

Definition bt_xfer_open_child (child : loc) : BT rc :=
  p ← bt_create_peer;
  match p with
  | None => mret (RC_ERR ENOMEM)
  | Some p =>
      _ ← update_peer p (set_peer_state BT_PEER_HANDSHAKE_EXPECTED);
      _ ← modifyw (plug_child env p child);
      _ ← update_bt (fun b => set_bt_peers (p :: bt_peers b) b);
      mret RC_OK
  end.

Definition bt_xfer_window : Z := 1.
Definition bt_peer_socket_window : Z := 2 ^ 32 - 1.

(** ** Messages received.  The first [n] bytes of a buffer, and the rest. *)
Definition pull (n : Z) (data : list Z) : BT (list Z * list Z) :=
  if n <=? zlen data then mret (take (Z.to_nat n) data, drop (Z.to_nat n) data) else fault.

(** The comparison stops at the first difference. *)
Fixpoint hash_loop (info_hash handshake : list Z) (n : nat) : option bool :=
  match n with
  | O => Some true
  | S n =>
      match info_hash, handshake with
      | a :: info_hash, b :: handshake => if a =? b then hash_loop info_hash handshake n else Some false
      | _, _ => None
      end
  end.

Definition bt_rx_handshake (p : loc) (handshake : list Z) : BT rc :=
  w ← getw;
  same ← valid (hash_loop (info_hash (bt w)) (drop 28 handshake) 20);
  if (same : bool) then
    d1 ← valid (handshake !! 48%nat);
    d2 ← valid (handshake !! 49%nat);
    _ ← update_peer p (set_peer_id ((d1 - 48) * 10 + (d2 - 48)));
    mret RC_OK
  else mret (RC_ERR EBTHM).

(** A HAVE message: the rest of the buffer. *)
Definition rx_have (p : loc) (data : list Z) : BT (list Z) :=
  '(_, data) ← pull 1 data;
  '(b, data) ← pull 4 data;
  let index := be_val b in
  x ← get_peer p;
  w ← getw;
  if bt_id (bt w) <? peer_id x then mret data else
  bm ← valid (bitmap_set (peer_bitmap x) index);
  _ ← update_peer p (set_peer_bitmap bm);
  t ← valid (bitmap_test (bt_bitmap (bt w)) index);
  _ ← (if (t : bool) then mret tt else
       _ ← add_rem_piece index;
       next ← bt_next_piece;
       _ ← bt_tx_request p next 0 BT_PIECE_SIZE;
       mret tt);
  mret data.

Definition rx_request (p : loc) (data : list Z) : BT (list Z) :=
  '(_, data) ← pull 1 data;
  '(index, data) ← pull 4 data;
  '(begin, data) ← pull 4 data;
  '(_, data) ← pull 4 data;
  _ ← bt_tx_piece p (be_val index) (be_val begin);
  mret data.

(** Data appended to the receive buffer of a peer. *)
Definition rx_append (p : loc) (data : list Z) : BT unit :=
  x ← get_peer p;
  b ← valid (rx_buffer x);
  if zlen b + zlen data <=? RX_ROOM then update_peer p (set_rx_buffer (Some (b ++ data))) else fault.

(** After a piece: the end of the download, or the next request. *)
Definition piece_follow_up (p : loc) : BT unit :=
  w ← getw;
  if bitmap_full (bt_bitmap (bt w)) then update_bt (set_bt_state BT_SEEDING)
  else if bt_id (bt w) =? 11 then
    next ← bt_next_piece;
    _ ← bt_tx_request p next 0 BT_PIECE_SIZE;
    mret tt
  else mret tt.

(** The piece [index] is in the receive buffer; whether a new buffer could
    be allocated. *)
Definition piece_received (p : loc) (index : Z) : BT bool :=
  _ ← update_peer p (fun x => set_pieces_received (s32 (pieces_received x + 1)) x);
  w ← getw;
  bm ← valid (bitmap_set (bt_bitmap (bt w)) index);
  _ ← update_bt (set_bt_bitmap bm);
  a ← bt_alloc;
  match a with
  | None => _ ← update_peer p (set_rx_buffer None); mret false
  | Some _ =>
      _ ← update_peer p (set_rx_buffer (Some []));
      _ ← bt_tx_have_to_peers index;
      _ ← piece_follow_up p;
      mret true
  end.

(** A complete PIECE: the rest of the buffer, or [None] after an error that
    ends the delivery. *)
Definition rx_piece (p : loc) (data : list Z) : BT (option (list Z)) :=
  _ ← update_peer p (fun x => set_pending_requests (u32 (pending_requests x - 1)) x);
  x ← get_peer p;
  '(d, data) ← pull (remaining x) data;
  _ ← rx_append p d;
  x ← get_peer p;
  b ← valid (rx_buffer x);
  '(_, b) ← pull 1 b;
  '(index, b) ← pull 4 b;
  '(_, _) ← pull 4 b;
  ok ← piece_received p (be_val index);
  mret (if (ok : bool) then Some data else None).

Definition message_done (p : loc) : BT unit :=
  update_peer p (fun x => set_rx_id 0 (set_rx_len 0 (set_remaining 0 x))).

(** A complete message.  For all but three of them the whole message is
    dropped. *)
Definition rx_message (p : loc) (data : list Z) : BT (option (list Z)) :=
  x ← get_peer p;
  r ← (if rx_id x =? BT_HAVE then d ← rx_have p data; mret (Some d)
       else if rx_id x =? BT_REQUEST then d ← rx_request p data; mret (Some d)
       else if rx_id x =? BT_PIECE then rx_piece p data
       else '(_, d) ← pull (rx_len x) data; mret (Some d));
  match r with
  | None => mret None
  | Some d => _ ← message_done p; mret (Some d)
  end.

(** The length prefix and the message identifier behind it; [None] when
    there are too few bytes.  The length that is left to process is kept
    apart from the buffer, as in the code. *)
Definition rx_prefix (p : loc) (data : list Z) : BT (option (list Z * Z)) :=
  x ← get_peer p;
  let data_len := zlen data in
  if negb (rx_len x =? 0) then mret (Some (data, data_len)) else
  if data_len <? BT_PREFIXLEN then mret None else
  '(prefix, rest) ← pull BT_PREFIXLEN data;
  let len := be_val prefix in
  _ ← update_peer p (set_rx_len len);
  if len =? 0 then
    _ ← update_peer p (set_rx_id 0);
    mret (Some (rest, data_len))
  else
    id ← valid (data !! 4%nat);
    _ ← update_peer p (fun x => set_remaining len (set_rx_id id x));
    mret (Some (rest, data_len - BT_PREFIXLEN)).

(** The state after the handshake: one round of the loop.  [inr freed] ends
    the delivery, with the buffer freed or not. *)
Definition rx_default (p : loc) (data : list Z) : BT (list Z + rc * bool) :=
  r ← rx_prefix p data;
  match r with
  | None => mret (inr (RC_OK, false))
  | Some (data, data_len) =>
      x ← get_peer p;
      if remaining x =? 0 then mret (inl data) else
      if remaining x <=? data_len then
        r ← rx_message p data;
        match r with
        | Some data => mret (inl data)
        | None => mret (inr (RC_ERR ENOMEM, true))
        end
      else
        _ ← update_peer p (set_remaining (remaining x - data_len));
        '(d, data) ← pull data_len data;
        _ ← rx_append p d;
        mret (inl data)
  end.

Definition rx_handshake_sent (p : loc) (handshake data : list Z) : BT (list Z) :=
  b ← valid (head handshake);
  if negb (b =? 19) then mret data else
  r ← bt_rx_handshake p handshake;
  match r with
  | RC_ERR _ => mret data
  | RC_OK =>
      _ ← update_peer p (set_peer_state BT_PEER_HANDSHAKE_RCVD);
      '(_, data) ← pull BT_HANDSHAKELEN data;
      _ ← bt_tx_interested p;
      _ ← bt_tx_keep_alive p;
      mret data
  end.

Definition rx_handshake_expected (p : loc) (handshake data : list Z) : BT (list Z) :=
  b ← valid (head handshake);
  if negb (b =? 19) then mret data else
  r ← bt_rx_handshake p handshake;
  match r with
  | RC_ERR _ => mret data
  | RC_OK =>
      win ← window p;
      _ ← (if ctrue win then bt_tx_handshake p else mret RC_OK);
      _ ← update_peer p (set_peer_state BT_PEER_HANDSHAKE_RCVD);
      '(_, data) ← pull BT_HANDSHAKELEN data;
      _ ← bt_tx_interested p;
      w ← getw;
      _ ← (if bt_id (bt w) =? 11 then update_bt (set_bt_state BT_DOWNLOADING) else mret tt);
      mret data
  end.

(** The loop.  The pointer to the handshake stays at the start of the
    buffer.  The result says whether the buffer was freed. *)
Fixpoint deliver_loop (fuel : nat) (p : loc) (handshake data : list Z) : BT (rc * bool) :=
  match fuel with
  | O => fun _ => Hang
  | S fuel =>
      match data with
      | [] => mret (RC_OK, true)
      | _ =>
          x ← get_peer p;
          if peer_state x =? BT_PEER_HANDSHAKE_SENT then
            d ← rx_handshake_sent p handshake data; deliver_loop fuel p handshake d
          else if peer_state x =? BT_PEER_HANDSHAKE_EXPECTED then
            d ← rx_handshake_expected p handshake data; deliver_loop fuel p handshake d
          else
            r ← rx_default p data;
            match r with
            | inl d => deliver_loop fuel p handshake d
            | inr res => mret res
            end
      end
  end.

Definition bt_peer_socket_deliver (fuel : nat) (p : loc) (iobuf : list Z) : BT (rc * bool) :=
  deliver_loop fuel p iobuf iobuf.

(** ** The process.  The first record that is to be connected. *)
Definition wants_connection (r : bt_record) : bool :=
  (0 <? record_id r) && (connected r =? 0) && (retries r <? BT_MAXRETRIES).

Fixpoint find_record (i : nat) (rs : list bt_record) : option (nat * bt_record) :=
  match rs with
  | [] => None
  | r :: rs => if wants_connection r then Some (i, r) else find_record (S i) rs
  end.

Definition peer_address (id : Z) : list Z :=
  cstr "tcp://192.168.4." ++ [u8 (Z.quot id 10 + 48); u8 (Z.rem id 10 + 48)] ++ cstr ":45501".

Definition connected_to_all (rs : list bt_record) : bool :=
  forallb (fun r => (0 <? record_id r) && (connected r =? 1)) rs.

Definition step_connect : BT unit :=
  w ← getw;
  match find_record 0 (bt_records (bt w)) with
  | None => mret tt
  | Some (i, r) =>
      p ← bt_create_peer;
      p ← valid p;
      _ ← bt_alloc_unchecked;
      let u := parse_uri (peer_address (record_id r)) in
      _ ← update_peer p (set_peer_uri (Some u));
      rc ← bt_socket_open p u;
      _ ← (match rc with
           | RC_ERR _ => bt_peer_close p rc
           | RC_OK =>
               update_bt (fun b => set_bt_records (<[i := BtRecord (record_id r) (retries r) 1]> (bt_records b))
                 (set_bt_peers (bt_peers b ++ [p]) b))
           end);
      w ← getw;
      if connected_to_all (bt_records (bt w)) then update_bt (set_bt_state BT_SENDING_HANDSHAKE) else mret tt
  end.

Fixpoint handshake_loop (ps : list loc) : BT unit :=
  match ps with
  | [] => mret tt
  | p :: ps =>
      x ← get_peer p;
      win ← window p;
      _ ← (if (peer_state x =? BT_PEER_CREATED) && ctrue win then
             _ ← bt_tx_handshake p; update_peer p (set_peer_state BT_PEER_HANDSHAKE_SENT)
           else mret tt);
      handshake_loop ps
  end.

Fixpoint handshook_all (ps : list loc) : BT bool :=
  match ps with
  | [] => mret true
  | p :: ps =>
      x ← get_peer p;
      if peer_state x =? BT_PEER_HANDSHAKE_SENT then handshook_all ps else mret false
  end.

Definition step_handshake : BT unit :=
  w ← getw;
  _ ← handshake_loop (bt_peers (bt w));
  all ← handshook_all (bt_peers (bt w));
  if (all : bool) then update_bt (set_bt_state BT_DOWNLOADING) else mret tt.

(** The last peer with the given identifier. *)
Fixpoint find_peer (ps : list loc) (id : Z) (found : option loc) : BT (option loc) :=
  match ps with
  | [] => mret found
  | p :: ps => x ← get_peer p; find_peer ps id (if peer_id x =? id then Some p else found)
  end.

Fixpoint populate (n : nat) (i : Z) : BT unit :=
  match n with
  | O => mret tt
  | S n => _ ← add_rem_piece i; populate n (i + 1)
  end.

Fixpoint xmit_loop (ps : list loc) : BT unit :=
  match ps with
  | [] => mret tt
  | p :: ps => _ ← bt_peer_xmit p; xmit_loop ps
  end.

(** The test of [xfer_window] is of the address of the function. *)
Definition step_download : BT unit :=
  w ← getw;
  if bt_id (bt w) =? 11 then
    n ← bt_count_peers;
    if negb (n =? 2) then mret tt else
    found ← find_peer (bt_peers (bt w)) (bt_id (bt w) - 1) None;
    match found with
    | None => mret tt
    | Some p =>
        _ ← populate (Z.to_nat BT_NUMOFPIECES) 0;
        next ← bt_next_piece;
        _ ← bt_tx_request p next 0 BT_PIECE_SIZE;
        update_bt (set_bt_state BT_SEEDING)
    end
  else if bt_id (bt w) =? 10 then xmit_loop (bt_peers (bt w))
  else mret tt.

Definition bt_step : BT unit :=
  w ← getw;
  if bt_state (bt w) =? BT_CONNECTING_TO_PEERS then step_connect
  else if bt_state (bt w) =? BT_SENDING_HANDSHAKE then step_handshake
  else if bt_state (bt w) =? BT_DOWNLOADING then step_download
  else if bt_state (bt w) =? BT_SEEDING then xmit_loop (bt_peers (bt w))
  else mret tt.

(** ** Opening and closing. *)
Definition process_add : BT unit :=
  w ← getw;
  if bt_process (bt w) then mret tt else _ ← ref_get_bt; update_bt (set_bt_process true).
Definition process_del : BT unit :=
  w ← getw;
  if bt_process (bt w) then _ ← update_bt (set_bt_process false); ref_put_bt else mret tt.

Definition bt_close (r : rc) : BT unit :=
  _ ← process_del;
  modifyw (close_interfaces env r).

Definition bt_compute_records (id : Z) : list bt_record :=
  (fun i => BtRecord (if BT_NUMOFNODES + 10 <=? id + i + 1 then 0 else id + i + 1) 0 0) <$> seqZ 0 BT_MAXNUMOFPEERS.

(** The value of a hexadecimal digit, lower case letters assumed. *)
Definition hash_digit (c : Z) : Z := if (48 <=? c) && (c <=? 57) then c - 48 else c - 87.

Fixpoint str_info_hash (n : nat) (str : list Z) : option (list Z) :=
  match n with
  | O => Some []
  | S n =>
      match str with
      | h :: l :: str =>
          rest ← str_info_hash n str;
          Some (u8 (u8 (hash_digit (s8 h) * 16) + hash_digit (s8 l)) :: rest)
      | _ => None
      end
  end.
Definition bt_str_info_hash (str : list Z) : BT (list Z) :=
  _ ← bt_alloc_unchecked; valid (str_info_hash 20 str).

Fixpoint random_digits (n : nat) : BT (list Z) :=
  match n with
  | O => mret []
  | S n => r ← bt_random; rest ← random_digits n; mret (u8 (Z.rem r 10 + 48) :: rest)
  end.
Definition bt_generate_peerid (id : Z) : BT (list Z) :=
  _ ← bt_alloc_unchecked;
  digits ← random_digits 12;
  mret ([u8 (Z.quot id 10 + 48); u8 (Z.rem id 10 + 48); 80; 49; 48; 48; 48] ++ digits ++ [45]).

(** The first two characters of the host are read whether it has them or
    not. *)
Definition listen_address (h : list Z) : option (list Z) :=
  match h with
  | [] => None
  | a :: h => Some (cstr "192.168.4." ++ [a; deref h])
  end.

Definition bt_fail (r : rc) : BT rc :=
  _ ← bt_close r;
  _ ← ref_put_bt;
  mret r.

Definition bt_open (u : uri) : BT rc :=
  h ← valid (host u);
  new_uri ← valid (listen_address h);
  a ← bt_alloc;
  match a with
  | None => mret (RC_ERR ENOMEM)
  | Some _ =>
      let id := s32 (strtoul h 10).1 in
      _ ← modifyw (fun w => set_bt_refs (Refs (<[BT_REF := 0]> (count (bt_refs w))) (freed (bt_refs w))) w);
      _ ← update_bt (fun _ => Bt id BT_CONNECTING_TO_PEERS (bt_compute_records id) [] [] BT_NUMOFPIECES bitmap_zero [] [] false);
      _ ← process_add;
      hash ← bt_str_info_hash BT_TEST_HASH;
      _ ← update_bt (set_info_hash hash);
      peerid ← bt_generate_peerid id;
      _ ← update_bt (set_bt_peerid peerid);
      let '(bm, r) := bitmap_resize (bitmap_realloc env) bitmap_zero BT_NUMOFPIECES in
      match r with
      | RC_ERR _ => bt_fail r
      | RC_OK =>
          _ ← update_bt (set_bt_bitmap bm);
          r ← callw (open_listener env new_uri);
          match r with
          | RC_ERR _ => bt_fail r
          | RC_OK =>
              _ ← modifyw (plug_parent env);
              _ ← ref_put_bt;
              mret RC_OK
          end
      end
  end.
End Client.
