(* ===== verification/BtLemmas.v ===== *)
(** * Running the BitTorrent client: the lemmas with which the theorems on
    [BitTorrent] execute the monadic code, and the reference description of
    a piece received. *)
From S2P Require Import Prelude LinkedList Bitmap Retry Strings Uri BitTorrent.

Lemma bind_done {N A C} (m : B N A) (k : A -> B N C) w w' x :
  m w = Done (w', x) -> (m ≫= k) w = k x w'.
Proof. intros H. unfold mbind, B_bind. by rewrite H. Qed.

Tactic Notation "brun" uconstr(H) := rewrite (bind_done _ _ _ _ _ H).

Lemma bind_ret {N A C} (x : A) (k : A -> B N C) w : (mret x ≫= k) w = k x w.
Proof. done. Qed.

Lemma bind_assoc {N A C D} (m : B N A) (k : A -> B N C) (k' : C -> B N D) w :
  ((m ≫= k) ≫= k') w = (m ≫= fun y => k y ≫= k') w.
Proof. unfold mbind, B_bind. by destruct (m w) as [[]| |]. Qed.

(** Execution of the first command of a nested sequence. *)
Tactic Notation "abrun" uconstr(H) := rewrite bind_assoc; brun H.

Lemma bind_fault {N A C} (m : B N A) (k : A -> B N C) w : m w = Fault -> (m ≫= k) w = Fault.
Proof. intros H. unfold mbind, B_bind. by rewrite H. Qed.

Section Run.
Context {N : Type} (env : bt_env N).
Implicit Types (w : bt_world N) (p : loc) (x : bt_peer).

Lemma getw_run w : getw w = Done (w, w).
Proof. done. Qed.

Lemma modifyw_run f w : modifyw f w = Done (f w, tt).
Proof. done. Qed.

Lemma update_bt_run f w : update_bt f w = Done (set_bt (f (bt w)) w, tt).
Proof. done. Qed.

Lemma get_peer_run p w x : peers w !! p = Some x -> get_peer p w = Done (w, x).
Proof. intros H. unfold get_peer. by rewrite H. Qed.

Lemma update_peer_run p f w x :
  peers w !! p = Some x -> update_peer p f w = Done (set_peers (<[p := f x]> (peers w)) w, tt).
Proof. intros H. unfold update_peer. by brun (get_peer_run _ _ _ H). Qed.

Lemma valid_run {A} (o : option A) a w : o = Some a -> valid o w = Done (w, a).
Proof. by intros ->. Qed.

Lemma pull_run n a b w : zlen a = n -> pull n (a ++ b) w = Done (w, (a, b)).
Proof.
  intros <-. unfold pull. destruct (Z.leb_spec (zlen a) (zlen (a ++ b))) as [_|H]; [|rewrite length_app in H; lia].
  by rewrite Nat2Z.id, take_app_length, drop_app_length.
Qed.

Lemma pull_all d w : pull (zlen d) d w = Done (w, (d, [])).
Proof. rewrite <- (app_nil_r d) at 2. by apply pull_run. Qed.

Lemma pull_one c l w : pull 1 (c :: l) w = Done (w, ([c], l)).
Proof. apply (pull_run 1 [c] l w eq_refl). Qed.

(** A message sent to every peer of a list. *)
Definition sends (ps : list loc) (msg : list Z) (n : N) : N := fold_left (fun n p => (xfer_deliver env p msg n).1) ps n.

Lemma deliver_raw_run p data w :
  xfer_deliver_raw env p data w =
    Done (set_sock (xfer_deliver env p data (sock w)).1 w, (xfer_deliver env p data (sock w)).2).
Proof. unfold xfer_deliver_raw, on_sock. by destruct (xfer_deliver env p data (sock w)). Qed.

Lemma set_sock_id w : set_sock (sock w) w = w.
Proof. by destruct w. Qed.

Lemma have_loop_run ps index w :
  have_loop env ps index w = Done (set_sock (sends ps (have_message index) (sock w)) w, tt).
Proof.
  revert w. induction ps as [|p ps IH]; intros w; cbn [have_loop].
  { change (sends [] (have_message index) (sock w)) with (sock w). by rewrite set_sock_id. }
  unfold bt_tx_have. brun (deliver_raw_run _ _ _). by rewrite IH.
Qed.

Lemma have_to_peers_run index w :
  bt_tx_have_to_peers env index w = Done (set_sock (sends (bt_peers (bt w)) (have_message index) (sock w)) w, tt).
Proof. unfold bt_tx_have_to_peers. brun (getw_run _). apply have_loop_run. Qed.

Lemma next_piece_run w i l :
  rem_pieces (bt w) = i :: l ->
  bt_next_piece w = Done (set_bt (set_pieces_left (s32 (pieces_left (bt w) - 1)) (set_rem_pieces l (bt w))) w, i).
Proof. intros H. unfold bt_next_piece. brun (getw_run _). by rewrite H. Qed.

(** ** A piece received.  The peer afterwards. *)
Definition piece_peer x : bt_peer :=
  Peer (peer_state x) (peer_id x) 0 0 (Some []) 0 (s32 (pieces_received x + 1)) (next_piece x)
    (u32 (pending_requests x - 1)) (peer_bitmap x) (queue x) (peer_uri x).

(** What the client does with the piece [index] of a peer, however it
    arrives. *)
Definition piece_effect p x (index : Z) : B N (rc * bool) :=
  w ← getw;
  bm ← valid (bitmap_set (bt_bitmap (bt w)) index);
  _ ← modifyw (fun w => set_bt_allocs (tail (bt_allocs w)) (set_bt (set_bt_bitmap bm (bt w)) w));
  _ ← modifyw (fun w => set_peers (<[p := piece_peer x]> (peers w)) w);
  _ ← bt_tx_have_to_peers env index;
  _ ← piece_follow_up env p;
  mret (RC_OK, true).

(** Commands that look only at the request and the sockets commute with
    changes of the peers. *)
Lemma follow_up_peers p P w :
  piece_follow_up env p (set_peers P w) =
    match piece_follow_up env p w with
    | Done (w', u) => Done (set_peers P w', u)
    | Fault => Fault
    | Hang => Hang
    end.
Proof.
  unfold piece_follow_up. brun (getw_run _). brun (getw_run _). cbn [bt set_peers].
  destruct (bitmap_full _); [done|]. destruct (_ =? 11); [|done].
  unfold bt_next_piece. unfold mbind, B_bind. cbn. destruct (rem_pieces (bt w)); [done|]. cbn.
  unfold bt_tx_request. by rewrite !deliver_raw_run.
Qed.

Lemma follow_up_done p w : (exists w', piece_follow_up env p w = Done (w', tt) /\ peers w' = peers w) \/ piece_follow_up env p w = Fault.
Proof.
  unfold piece_follow_up. brun (getw_run _). destruct (bitmap_full _); [left; by eexists|].
  destruct (_ =? 11); [|left; by eexists]. unfold bt_next_piece, mbind, B_bind. cbn.
  destruct (rem_pieces (bt w)); [by right|]. left. cbn. unfold bt_tx_request. rewrite deliver_raw_run. by eexists.
Qed.

Lemma set_peers_twice P Q w : set_peers P (set_peers Q w) = set_peers P w.
Proof. done. Qed.

(** An update of a peer that was the last one updated. *)
Lemma update_again p f x P w :
  update_peer p f (set_peers (<[p := x]> P) w) = Done (set_peers (<[p := f x]> P) w, tt).
Proof.
  rewrite (update_peer_run p f _ x) by apply lookup_insert_eq. simpl. by rewrite insert_insert_eq.
Qed.

Lemma get_again p x P w : get_peer p (set_peers (<[p := x]> P) w) = Done (set_peers (<[p := x]> P) w, x).
Proof. apply get_peer_run, lookup_insert_eq. Qed.

Lemma bt_alloc_run w a l : bt_allocs w = a :: l -> bt_alloc w = Done (set_bt_allocs l w, a).
Proof. intros H. unfold bt_alloc. by rewrite H. Qed.

(** The messages of a completed piece, with the bookkeeping that ends it. *)
Lemma piece_received_run p x w index a l rest :
  bt_allocs w = Some a :: l ->
  (ok ← piece_received env p index;
   match (if (ok : bool) then Some rest else None) with
   | None => mret None
   | Some d => _ ← message_done p; mret (Some d)
   end) (set_peers (<[p := set_pending_requests (u32 (pending_requests x - 1)) x]> (peers w)) w) =
  match piece_effect p x index w with
  | Done (w', _) => Done (w', Some rest : option (list Z))
  | Fault => Fault
  | Hang => Hang
  end.
Proof.
  intros Ha. unfold piece_received, piece_effect. unfold mbind at 1, B_bind at 1. brun (update_again _ _ _ _ _).
  brun (getw_run _). brun (getw_run _). change (bt (set_peers _ w)) with (bt w).
  destruct (bitmap_set (bt_bitmap (bt w)) index) as [bm|]; [|done]. brun (valid_run (Some bm) bm _ eq_refl). brun (valid_run (Some bm) bm _ eq_refl).
  brun (update_bt_run _ _). brun (modifyw_run _ _). brun (modifyw_run _ _).
  match goal with |- context [(bt_alloc ≫= ?k) ?v] => rewrite (bind_done bt_alloc k v _ _ (bt_alloc_run v (Some a) l Ha)) end.
  set (w1 := set_bt_allocs l (set_bt (set_bt_bitmap bm (bt w)) w)).
  change (set_bt_allocs l _) with (set_peers (<[p := set_pieces_received (s32 (pieces_received x + 1)) (set_pending_requests (u32 (pending_requests x - 1)) x)]> (peers w)) w1).
  assert (set_bt_allocs (tail (bt_allocs w)) (set_bt (set_bt_bitmap bm (bt w)) w) = w1) as -> by by rewrite Ha.
  brun (update_again _ _ _ _ _). brun (have_to_peers_run _ _). brun (have_to_peers_run _ _).
  set (w2 := set_sock (sends (bt_peers (bt w1)) (have_message index) (sock w1)) w1).
  change (set_sock _ (set_peers ?P w1)) with (set_peers P w2).
  unfold mbind, B_bind. rewrite !follow_up_peers.
  destruct (follow_up_done p w2) as [(w3 & -> & _)| ->]; [|done]. cbn -[set_peers message_done].
  unfold message_done. rewrite update_again. done.
Qed.

(** A complete PIECE message whose bytes are in the receive buffer and the
    data just received. *)
Lemma rx_piece_run p x w b d rest id index begin block a l :
  peers w !! p = Some x -> rx_id x = BT_PIECE -> rx_buffer x = Some b -> remaining x = zlen d ->
  b ++ d = id :: be_bytes 4 index ++ be_bytes 4 begin ++ block -> zlen (b ++ d) <= RX_ROOM ->
  0 <= index < 2 ^ 32 -> bt_allocs w = Some a :: l ->
  rx_message env p (d ++ rest) w =
    match piece_effect p x index w with
    | Done (w', _) => Done (w', Some rest)
    | Fault => Fault
    | Hang => Hang
    end.
Proof.
  intros Hx Hid Hb Hr Hbd Hroom Hi Ha. unfold rx_message. brun (get_peer_run _ _ _ Hx). rewrite Hid.
  change (BT_PIECE =? BT_HAVE) with false. change (BT_PIECE =? BT_REQUEST) with false. change (BT_PIECE =? BT_PIECE) with true. cbn iota.
  unfold rx_piece. abrun (update_peer_run _ _ _ _ Hx). abrun (get_again _ _ _ _).
  change (remaining (set_pending_requests _ x)) with (remaining x). rewrite Hr. abrun (pull_run _ d rest _ eq_refl).
  rewrite bind_assoc. unfold rx_append at 1. abrun (get_again _ _ _ _). abrun (valid_run _ b _ Hb).
  rewrite length_app, Nat2Z.inj_add in Hroom. destruct (Z.leb_spec (zlen b + zlen d) RX_ROOM); [|lia].
  brun (update_again _ _ _ _ _). abrun (get_again _ _ _ _). abrun (valid_run _ (b ++ d) _ eq_refl). rewrite Hbd.
  abrun (pull_one _ _ _). abrun (pull_run 4 (be_bytes 4 index) _ _ eq_refl). abrun (pull_run 4 (be_bytes 4 begin) _ _ eq_refl).
  rewrite be_val_bytes. change (2 ^ (8 * Z.of_nat 4)) with (2 ^ 32). rewrite Z.mod_small by done. rewrite bind_assoc.
  change (set_rx_buffer (Some (id :: be_bytes 4 index ++ be_bytes 4 begin ++ block)) (set_pending_requests ?v x))
    with (set_pending_requests v (set_rx_buffer (Some (id :: be_bytes 4 index ++ be_bytes 4 begin ++ block)) x)).
  exact (piece_received_run p (set_rx_buffer (Some (id :: be_bytes 4 index ++ be_bytes 4 begin ++ block)) x) w index a l rest Ha).
Qed.
End Run.

(** ** Instances: sockets that record what is sent, with a window of one
    byte and allocators that fill memory with zeros, and a node 11 with two
    peers, one of them node 10. *)
Definition log_env : bt_env (list (loc * list Z)) :=
  BtEnv (fun _ _ => 1) (fun p msg log => (log ++ [(p, msg)], RC_OK)) (fun _ _ w => w) (fun _ _ _ w => (w, RC_OK))
    (fun _ _ w => w) (fun _ w => (w, RC_OK)) (fun w => w) (fun _ w => w)
    (fun _ n => Some (replicate (Z.to_nat n) 0)) (fun n => replicate n 0).

Definition peer_in (state id : Z) : bt_peer := Peer state id 0 0 (Some []) 0 0 0 0 bitmap_zero [] None.

Definition node_11 (state n : Z) : bt_request :=
  Bt 11 state [] [2; 3]%positive [] 0 (bitmap_clear n) (replicate 20 7) (replicate 20 48) true.

Definition two_peers (state n : Z) (allocs : nat) (peer_state : Z) : bt_world (list (loc * list Z)) :=
  BtWorld (node_11 state n) {[2%positive := peer_in BT_PEER_HANDSHAKE_RCVD 12; 3%positive := peer_in peer_state 10]}
    (Refs {[BT_REF := 3]} []) (replicate allocs (Some 9%positive)) [] [].
