(* ===== verification/BtRx.v ===== *)
(** * Messages received by the BitTorrent client: pieces and how they are
    segmented, messages of other kinds, handshakes, and the download. *)
From S2P Require Import Prelude LinkedList Bitmap Retry Strings Uri BitTorrent BtLemmas.

Section Rx.
Context {N : Type} (env : bt_env N).
Implicit Types (w : bt_world N) (p : loc) (x : bt_peer).

(** A peer past the handshake, and one that is between two messages. *)
Definition ready x : Prop :=
  peer_state x <> BT_PEER_HANDSHAKE_SENT /\ peer_state x <> BT_PEER_HANDSHAKE_EXPECTED.
Definition idle x : Prop := ready x /\ rx_len x = 0 /\ remaining x = 0 /\ rx_buffer x = Some [].

(** Buffers delivered one after the other. *)
Fixpoint deliver_all (fuel : nat) p (iobufs : list (list Z)) : B N (list (rc * bool)) :=
  match iobufs with
  | [] => mret []
  | d :: iobufs =>
      r ← bt_peer_socket_deliver env fuel p d;
      rs ← deliver_all fuel p iobufs;
      mret (r :: rs)
  end.

(** One round of the loop past the handshake. *)
Lemma deliver_round fuel p handshake data w x :
  peers w !! p = Some x -> ready x -> data <> [] ->
  deliver_loop env (S fuel) p handshake data w =
    (r ← rx_default env p data;
     match r with
     | inl d => deliver_loop env fuel p handshake d
     | inr res => mret res
     end) w.
Proof.
  intros Hx [H1 H2] Hd. cbn [deliver_loop]. destruct data as [|c data]; [done|]. brun (get_peer_run _ _ _ Hx).
  by destruct (Z.eqb_spec (peer_state x) BT_PEER_HANDSHAKE_SENT), (Z.eqb_spec (peer_state x) BT_PEER_HANDSHAKE_EXPECTED).
Qed.

Lemma deliver_end fuel p handshake w : deliver_loop env (S fuel) p handshake [] w = Done (w, (RC_OK, true)).
Proof. done. Qed.

(** A piece replaces the state of its peer, whatever it was. *)
Lemma piece_effect_peers p x y index w : piece_peer y = piece_peer x ->
  piece_effect env p y index (set_peers (<[p := y]> (peers w)) w) = piece_effect env p x index w.
Proof.
  intros Hy. unfold piece_effect. brun (getw_run _). brun (getw_run _). change (bt (set_peers _ w)) with (bt w).
  destruct (bitmap_set (bt_bitmap (bt w)) index) as [bm|]; [|done].
  brun (valid_run (Some bm) bm _ eq_refl). brun (valid_run (Some bm) bm _ eq_refl). do 4 brun (modifyw_run _ _).
  cbn [peers set_peers set_bt set_bt_allocs bt bt_allocs sock bt_refs bt_randoms]. by rewrite insert_insert_eq, Hy.
Qed.

(** More of a message that is not complete yet. *)
Lemma rx_more p x w b d :
  peers w !! p = Some x -> rx_len x <> 0 -> zlen d < remaining x -> rx_buffer x = Some b ->
  zlen b + zlen d <= RX_ROOM ->
  rx_default env p d w =
    Done (set_peers (<[p := set_rx_buffer (Some (b ++ d)) (set_remaining (remaining x - zlen d) x)]> (peers w)) w, inl []).
Proof.
  intros Hx Hl Hr Hb Hroom. unfold rx_default, rx_prefix. rewrite bind_assoc. brun (get_peer_run _ _ _ Hx).
  destruct (Z.eqb_spec (rx_len x) 0); [done|]. cbn [negb]. rewrite bind_ret.
  brun (get_peer_run _ _ _ Hx). destruct (Z.eqb_spec (remaining x) 0); [lia|]. destruct (Z.leb_spec (remaining x) (zlen d)); [lia|].
  brun (update_peer_run _ _ _ _ Hx). brun (pull_all _ _).
  unfold rx_append. abrun (get_again _ _ _ _). abrun (valid_run _ b _ Hb).
  destruct (Z.leb_spec (zlen b + zlen d) RX_ROOM); [|lia]. brun (update_again _ _ _ _ _). done.
Qed.

(** The length prefix of a message, and its identifier. *)
Lemma prefix_run p x w len id d :
  peers w !! p = Some x -> rx_len x = 0 -> 0 < len < 2 ^ 32 ->
  rx_prefix p (be_bytes 4 len ++ id :: d) w =
    Done (set_peers (<[p := set_remaining len (set_rx_id id (set_rx_len len x))]> (peers w)) w, Some (id :: d, zlen (id :: d))).
Proof.
  intros Hx Hl Hlen. unfold rx_prefix. brun (get_peer_run _ _ _ Hx). rewrite Hl. change (negb (0 =? 0)) with false. cbn iota.
  assert (zlen (be_bytes 4 len ++ id :: d) = 4 + zlen (id :: d)) as Hz by (rewrite length_app; simpl; lia).
  destruct (Z.ltb_spec (zlen (be_bytes 4 len ++ id :: d)) BT_PREFIXLEN); [change BT_PREFIXLEN with 4 in *; lia|].
  brun (pull_run BT_PREFIXLEN (be_bytes 4 len) _ _ eq_refl). rewrite be_val_bytes. change (2 ^ (8 * Z.of_nat 4)) with (2 ^ 32).
  rewrite Z.mod_small by lia. brun (update_peer_run _ _ _ _ Hx). destruct (Z.eqb_spec len 0); [lia|].
  assert ((be_bytes 4 len ++ id :: d) !! 4%nat = Some id) as Hid by by rewrite lookup_app_r.
  brun (valid_run _ id _ Hid). brun (update_again _ _ _ _ _). rewrite Hz.
  by replace (4 + zlen (id :: d) - BT_PREFIXLEN) with (zlen (id :: d)) by (unfold BT_PREFIXLEN; lia).
Qed.

(** The start of a message that is not complete. *)
Lemma rx_start p x w len id d :
  peers w !! p = Some x -> rx_len x = 0 -> rx_buffer x = Some [] -> 0 < len < 2 ^ 32 ->
  zlen (id :: d) < len -> zlen (id :: d) <= RX_ROOM ->
  rx_default env p (be_bytes 4 len ++ id :: d) w =
    Done (set_peers (<[p := set_rx_buffer (Some (id :: d)) (set_remaining (len - zlen (id :: d))
           (set_remaining len (set_rx_id id (set_rx_len len x))))]> (peers w)) w, inl []).
Proof.
  intros Hx Hl Hb Hlen Hd Hroom. unfold rx_default. brun (prefix_run _ _ _ _ _ _ Hx Hl Hlen). brun (get_again _ _ _ _).
  change (remaining _) with len. destruct (Z.eqb_spec len 0); [lia|]. destruct (Z.leb_spec len (zlen (id :: d))); [lia|].
  brun (update_again _ _ _ _ _). brun (pull_all _ _).
  unfold rx_append. abrun (get_again _ _ _ _). abrun (valid_run _ [] _ Hb). destruct (Z.leb_spec (zlen (@nil Z) + zlen (id :: d)) RX_ROOM); [|cbn [length] in *; lia].
  brun (update_again _ _ _ _ _). done.
Qed.

(** What the round returns once a piece is complete. *)
Definition piece_round p x (index : Z) (rest : list Z) w : outcome (bt_world N * (list Z + rc * bool)) :=
  match piece_effect env p x index w with
  | Done (w', _) => Done (w', inl rest)
  | Fault => Fault
  | Hang => Hang
  end.

(** The body of a PIECE message. *)
Definition piece_body (index begin : Z) (block : list Z) : list Z :=
  BT_PIECE :: be_bytes 4 index ++ be_bytes 4 begin ++ block.

(** The last part of a piece. *)
Lemma rx_last p x w b d rest index begin block a l :
  peers w !! p = Some x -> rx_len x <> 0 -> rx_id x = BT_PIECE -> rx_buffer x = Some b -> d <> [] -> remaining x = zlen d ->
  b ++ d = piece_body index begin block -> zlen (b ++ d) <= RX_ROOM -> 0 <= index < 2 ^ 32 -> bt_allocs w = Some a :: l ->
  rx_default env p (d ++ rest) w = piece_round p x index rest w.
Proof.
  intros Hx Hl Hid Hb Hne Hr Hbd Hroom Hi Ha. unfold rx_default, rx_prefix. rewrite bind_assoc. brun (get_peer_run _ _ _ Hx).
  destruct (Z.eqb_spec (rx_len x) 0); [done|]. cbn [negb]. rewrite bind_ret. brun (get_peer_run _ _ _ Hx).
  assert (0 < zlen d) by (destruct d; [done|simpl; lia]). destruct (Z.eqb_spec (remaining x) 0); [lia|].
  destruct (Z.leb_spec (remaining x) (zlen (d ++ rest))) as [_|Hn]; [|rewrite length_app in Hn; lia].
  unfold mbind, B_bind, piece_round.
  rewrite (rx_piece_run env p x w b d rest BT_PIECE index begin block a l); try done.
  by destruct (piece_effect env p x index w) as [[w' r]| |].
Qed.

(** A piece in one part. *)
Lemma rx_whole p x w rest index begin block a l :
  peers w !! p = Some x -> rx_len x = 0 -> rx_buffer x = Some [] -> zlen block = BT_PIECE_SIZE ->
  0 <= index < 2 ^ 32 -> bt_allocs w = Some a :: l ->
  rx_default env p (be_bytes 4 (9 + BT_PIECE_SIZE) ++ piece_body index begin block ++ rest) w = piece_round p x index rest w.
Proof.
  intros Hx Hl Hb Hblk Hi Ha. set (len := 9 + BT_PIECE_SIZE). set (body := piece_body index begin block).
  assert (zlen body = len) as Hbody by (unfold body, piece_body; rewrite length_cons, !length_app, !be_bytes_length; unfold len; lia).
  assert (0 < len < 2 ^ 32) as Hlen by done. unfold rx_default. change (body ++ rest) with (BT_PIECE :: tail body ++ rest).
  brun (prefix_run _ _ _ _ _ _ Hx Hl Hlen). brun (get_again _ _ _ _).
  change (BT_PIECE :: tail body ++ rest) with (body ++ rest). rewrite length_app, Nat2Z.inj_add, Hbody. change len with 1033.
  change (remaining _) with 1033. change (1033 =? 0) with false. cbn iota.
  destruct (Z.leb_spec 1033 (1033 + zlen rest)) as [_|Hn]; [|lia].
  unfold mbind, B_bind, piece_round.
  rewrite (rx_piece_run env p (set_remaining 1033 (set_rx_id BT_PIECE (set_rx_len 1033 x))) _ [] body rest BT_PIECE index begin block a l);
    try done; [|apply lookup_insert_eq|rewrite app_nil_l, Hbody; done].
  rewrite piece_effect_peers with (x := x) by done. by destruct (piece_effect env p x index w) as [[w' r]| |].
Qed.

(** A buffer that one round of the loop uses up. *)
Lemma deliver_one fuel p d w x w' :
  peers w !! p = Some x -> ready x -> d <> [] -> rx_default env p d w = Done (w', inl []) ->
  bt_peer_socket_deliver env (S (S fuel)) p d w = Done (w', (RC_OK, true)).
Proof. intros Hx Hr Hd H. unfold bt_peer_socket_deliver. rewrite (deliver_round _ _ _ _ _ x) by done. by brun H. Qed.

(** The results of [n] deliveries that end with a piece. *)
Definition piece_results p x (index : Z) (n : nat) w : outcome (bt_world N * list (rc * bool)) :=
  match piece_effect env p x index w with
  | Done (w', _) => Done (w', replicate n (RC_OK, true))
  | Fault => Fault
  | Hang => Hang
  end.

Lemma deliver_last fuel p d w x index :
  peers w !! p = Some x -> ready x -> d <> [] -> rx_default env p d w = piece_round p x index [] w ->
  deliver_all (S (S fuel)) p [d] w = piece_results p x index 1 w.
Proof.
  intros Hx Hr Hd H. cbn [deliver_all]. unfold bt_peer_socket_deliver, mbind, B_bind. rewrite (deliver_round _ _ _ _ _ x) by done.
  unfold mbind, B_bind, piece_results. rewrite H. unfold piece_round. by destruct (piece_effect env p x index w) as [[]| |].
Qed.

(** The parts of a piece after the first. *)
Lemma deliver_segments fuel p index begin block a l ds : forall w x b,
  peers w !! p = Some x -> ready x -> rx_len x <> 0 -> rx_id x = BT_PIECE -> rx_buffer x = Some b ->
  remaining x = zlen (mjoin ds) -> ds <> [] -> Forall (fun d => d <> []) ds ->
  b ++ mjoin ds = piece_body index begin block -> zlen (b ++ mjoin ds) <= RX_ROOM ->
  0 <= index < 2 ^ 32 -> bt_allocs w = Some a :: l ->
  deliver_all (S (S fuel)) p ds w = piece_results p x index (length ds) w.
Proof.
  induction ds as [|d ds IH]; intros w x b Hx Hr Hl Hid Hb Hrem Hne Hall Hbd Hroom Hi Ha; [done|].
  apply Forall_cons in Hall as [Hd Hall]. destruct ds as [|d2 ds].
  - cbn [mjoin list_join] in Hbd, Hrem, Hroom. rewrite app_nil_r in Hbd, Hrem, Hroom.
    apply (deliver_last fuel p d w x index); try done.
    rewrite <- (app_nil_r d). by apply (rx_last p x w b d [] index begin block a l).
  - change (mjoin (d :: d2 :: ds)) with (d ++ mjoin (d2 :: ds)) in *.
    assert (0 < zlen (mjoin (d2 :: ds))) as Hpos.
    { change (mjoin (d2 :: ds)) with (d2 ++ mjoin ds). apply Forall_cons in Hall as [? _]. destruct d2; [done|]. simpl. lia. }
    rewrite length_app in Hrem. rewrite !length_app in Hroom.
    assert (rx_default env p d w = Done (set_peers (<[p := set_rx_buffer (Some (b ++ d)) (set_remaining (remaining x - zlen d) x)]> (peers w)) w, inl [])) as Hm
      by (apply (rx_more p x w b d); done || lia).
    set (x1 := set_rx_buffer (Some (b ++ d)) (set_remaining (remaining x - zlen d) x)) in *.
    change (deliver_all (S (S fuel)) p (d :: d2 :: ds)) with
      (r ← bt_peer_socket_deliver env (S (S fuel)) p d; rs ← deliver_all (S (S fuel)) p (d2 :: ds); mret (r :: rs)).
    brun (deliver_one fuel p d w x _ Hx Hr Hd Hm).
    unfold mbind, B_bind. rewrite (IH _ x1 (b ++ d)); try done.
    + unfold piece_results. rewrite (piece_effect_peers p x x1) by done. by destruct (piece_effect env p x index w) as [[]| |].
    + apply lookup_insert_eq.
    + change (remaining x1) with (remaining x - zlen d). lia.
    + by rewrite <- app_assoc.
    + rewrite !length_app. lia.
Qed.

(** A message cut into non-empty parts, of which the first has at least
    the length prefix and the message identifier. *)
Definition parts (d : list Z) (ds : list (list Z)) (msg : list Z) : Prop :=
  d ++ mjoin ds = msg /\ (5 <= length d)%nat /\ Forall (fun d => d <> []) ds.

Lemma deliver_piece fuel p w x index begin block a l d ds :
  peers w !! p = Some x -> idle x -> bt_allocs w = Some a :: l -> 0 <= index < 2 ^ 32 -> zlen block = BT_PIECE_SIZE ->
  parts d ds (be_bytes 4 (9 + BT_PIECE_SIZE) ++ piece_body index begin block) ->
  deliver_all (S (S fuel)) p (d :: ds) w = piece_results p x index (S (length ds)) w.
Proof.
  intros Hx (Hr & Hl & Hrem & Hb) Ha Hi Hblk (Hd & H5 & Hall). set (body := piece_body index begin block) in *.
  assert (zlen body = 1033) as Hbody
    by (unfold body, piece_body; rewrite length_cons, !length_app, !be_bytes_length; unfold BT_PIECE_SIZE in *; lia).
  assert (d <> []) as Hdne by (intros ->; simpl in H5; lia). destruct ds as [|d2 ds].
  - simpl mjoin in Hd. rewrite app_nil_r in Hd. subst d. apply (deliver_last fuel p _ w x index); try done.
    rewrite <- (app_nil_r body). by apply (rx_whole p x w [] index begin block a l).
  - pose proof (f_equal (take 4) Hd) as Ht. pose proof (f_equal (drop 4) Hd) as Hdr.
    rewrite take_app_le in Ht by lia. rewrite drop_app_le in Hdr by lia. rewrite take_app_length' in Ht by done. rewrite drop_app_length' in Hdr by done.
    destruct (drop 4 d) as [|id d'] eqn:Ed; [apply (f_equal length) in Ed; rewrite length_drop in Ed; simpl in Ed; lia|].
    assert (id = BT_PIECE) as -> by (unfold body, piece_body in Hdr; by injection Hdr).
    assert (d = be_bytes 4 1033 ++ BT_PIECE :: d') as -> by (rewrite <- (take_drop 4 d), Ht, Ed; done).
    assert (0 < zlen (mjoin (d2 :: ds))) as Hpos.
    { change (mjoin (d2 :: ds)) with (d2 ++ mjoin ds). apply Forall_cons in Hall as [? _]. destruct d2; [done|]. simpl. lia. }
    pose proof (f_equal length Hdr) as Hlen. rewrite length_app in Hlen.
    assert (zlen (BT_PIECE :: d') < 1033 /\ 1033 - zlen (BT_PIECE :: d') = zlen (mjoin (d2 :: ds))) as [Hlt Heq] by lia.
    pose proof (rx_start p x w 1033 BT_PIECE d' Hx Hl Hb ltac:(lia) Hlt ltac:(change RX_ROOM with 1036; lia)) as Hs.
    set (x1 := set_rx_buffer (Some (BT_PIECE :: d')) _) in Hs.
    change (deliver_all (S (S fuel)) p ((be_bytes 4 1033 ++ BT_PIECE :: d') :: d2 :: ds)) with
      (r ← bt_peer_socket_deliver env (S (S fuel)) p (be_bytes 4 1033 ++ BT_PIECE :: d'); rs ← deliver_all (S (S fuel)) p (d2 :: ds); mret (r :: rs)).
    brun (deliver_one fuel p _ w x _ Hx Hr Hdne Hs). unfold mbind, B_bind.
    rewrite (deliver_segments fuel p index begin block a l (d2 :: ds) _ x1 (BT_PIECE :: d')); try done.
    + unfold piece_results. rewrite (piece_effect_peers p x x1) by done. by destruct (piece_effect env p x index w) as [[]| |].
    + apply lookup_insert_eq.
    + rewrite Hdr. rewrite Hbody. change RX_ROOM with 1036. lia.
Qed.
(** C2: the client treats a PIECE message the same however TCP segments it.
    Delivering it in any number of non-empty parts, of which the first has
    at least the length prefix and the message identifier, has the effect
    of the piece and the outcome of delivering it at once; every buffer is
    freed and reported as success. *)
Theorem piece_segmentation fuel p w x index begin block a l d ds :
  peers w !! p = Some x -> idle x -> bt_allocs w = Some a :: l -> 0 <= index < 2 ^ 32 -> zlen block = BT_PIECE_SIZE ->
  parts d ds (be_bytes 4 (9 + BT_PIECE_SIZE) ++ piece_body index begin block) ->
  deliver_all (S (S fuel)) p (d :: ds) w =
    match piece_effect env p x index w with
    | Done (w', _) => Done (w', replicate (S (length ds)) (RC_OK, true))
    | Fault => Fault
    | Hang => Hang
    end.
Proof. apply deliver_piece. Qed.
End Rx.

(** ** Instances: the first piece in two parts. *)
Lemma piece_segmentation_witness :
  let msg := piece_message 0 (replicate 1024 5) in let w := two_peers BT_SEEDING 40 1 BT_PEER_HANDSHAKE_RCVD in
  deliver_all log_env 2 3%positive [take 500 msg; drop 500 msg] w =
    match piece_effect log_env 3%positive (peer_in BT_PEER_HANDSHAKE_RCVD 10) 0 w with
    | Done (w', _) => Done (w', [(RC_OK, true); (RC_OK, true)])
    | Fault => Fault
    | Hang => Hang
    end.
Proof.
  intros msg w. apply (piece_segmentation log_env 0 3%positive w (peer_in BT_PEER_HANDSHAKE_RCVD 10) 0 0 (replicate 1024 5) 9%positive []);
    try done. split_and!; [|vm_compute; lia|by repeat constructor].
  change (mjoin [drop 500 msg]) with (drop 500 msg ++ []). by rewrite app_nil_r, take_drop.
Defined.
