(* ===== verification/BtPeers.v ===== *)
(** * Peers of the BitTorrent client: handshakes, requests, and the inputs
    that the client does not survive. *)
From S2P Require Import Prelude LinkedList Bitmap Retry Strings Uri BitTorrent BtLemmas BtRx.

(** The address of a node. *)
Definition node_address (id : Z) : list Z := cstr "192.168.4." ++ [48 + id / 10; 48 + id mod 10].

Lemma peer_address_parsed id : 10 <= id <= 99 ->
  host (parse_uri (peer_address id)) = Some (node_address id) /\ u16 (uri_port (Some (parse_uri (peer_address id))) 80) = 45501.
Proof.
  intros Hid.
  assert (Forall (fun id => host (parse_uri (peer_address id)) = Some (node_address id) /\
    u16 (uri_port (Some (parse_uri (peer_address id))) 80) = 45501) (seqZ 10 90)) as H by (apply (bool_decide_unpack _); vm_compute; exact I).
  rewrite Forall_forall in H. apply H, elem_of_seqZ. lia.
Qed.

Section Peers.
Context {N : Type} (env : bt_env N).
Implicit Types (w : bt_world N) (p : loc) (x : bt_peer).

(** ** Handshakes.  One round of the loop. *)
Lemma deliver_sent fuel p handshake data w x :
  peers w !! p = Some x -> peer_state x = BT_PEER_HANDSHAKE_SENT -> data <> [] ->
  deliver_loop env (S fuel) p handshake data w =
    (d ← rx_handshake_sent env p handshake data; deliver_loop env fuel p handshake d) w.
Proof. intros Hx Hs Hd. cbn [deliver_loop]. destruct data as [|c l]; [done|]. brun (get_peer_run _ _ _ Hx). by rewrite Hs. Qed.

Lemma deliver_expected fuel p handshake data w x :
  peers w !! p = Some x -> peer_state x = BT_PEER_HANDSHAKE_EXPECTED -> data <> [] ->
  deliver_loop env (S fuel) p handshake data w =
    (d ← rx_handshake_expected env p handshake data; deliver_loop env fuel p handshake d) w.
Proof. intros Hx Hs Hd. cbn [deliver_loop]. destruct data as [|c l]; [done|]. brun (get_peer_run _ _ _ Hx). by rewrite Hs. Qed.

Lemma hash_loop_eq h h' n :
  length h = n -> (n <= length h')%nat -> hash_loop h h' n = Some (bool_decide (h = take n h')).
Proof.
  revert h h'. induction n as [|n IH]; intros [|a h] [|b h'] Hl Hl'; simpl in *; try lia; [done..|].
  destruct (Z.eqb_spec a b) as [->|Hne].
  - rewrite IH by lia. f_equal. apply bool_decide_ext. split; [by intros ->|by intros [= ->]].
  - symmetry. f_equal. apply bool_decide_eq_false_2. congruence.
Qed.

Lemma handshake_length reserved hash peerid :
  length reserved = 8%nat -> length hash = 20%nat -> length peerid = 20%nat ->
  length (handshake_message reserved hash peerid) = 68%nat.
Proof. intros H1 H2 H3. unfold handshake_message. simpl. rewrite !length_app, H1, H2, H3. done. Qed.

(** The identifier of a node is in the first two characters of its peer
    identifier. *)
Definition peerid_id (peerid : list Z) : Z := (peerid !!! 0%nat - 48) * 10 + (peerid !!! 1%nat - 48).

Lemma rx_handshake_run p w x reserved hash peerid rest :
  length reserved = 8%nat -> length hash = 20%nat -> length peerid = 20%nat -> length (info_hash (bt w)) = 20%nat ->
  peers w !! p = Some x ->
  bt_rx_handshake p (handshake_message reserved hash peerid ++ rest) w =
    if bool_decide (info_hash (bt w) = hash)
    then Done (set_peers (<[p := set_peer_id (peerid_id peerid) x]> (peers w)) w, RC_OK)
    else Done (w, RC_ERR EBTHM).
Proof.
  intros H1 H2 H3 H4 Hx. unfold bt_rx_handshake, handshake_message. brun (getw_run _).
  change (19 :: cstr "BitTorrent protocol" ++ ?l) with ((19 :: cstr "BitTorrent protocol") ++ l).
  set (msg := (19 :: cstr "BitTorrent protocol") ++ reserved) in *.
  assert (length msg = 28%nat) as Hm by (unfold msg; rewrite length_app, H1; done).
  rewrite <- !app_assoc, (app_assoc (19 :: _) reserved). fold msg. rewrite drop_app_length' by done.
  rewrite hash_loop_eq by (done || rewrite length_app; lia). rewrite take_app_length' by done.
  brun (valid_run _ _ _ eq_refl). destruct (bool_decide_reflect (info_hash (bt w) = hash)); [|done].
  destruct peerid as [|c1 [|c2 peerid]]; [done..|].
  assert (forall i c, ((c1 :: c2 :: peerid) ++ rest) !! i = Some c -> (msg ++ hash ++ (c1 :: c2 :: peerid) ++ rest) !! (48 + i)%nat = Some c) as Hl.
  { intros i c Hc. rewrite lookup_app_r, Hm, lookup_app_r, H2 by lia. rewrite <- Hc. f_equal. lia. }
  brun (valid_run _ c1 _ (Hl 0%nat c1 eq_refl)). brun (valid_run _ c2 _ (Hl 1%nat c2 eq_refl)).
  brun (update_peer_run _ _ _ _ Hx). done.
Qed.

(** What both states do with a handshake that has the right hash, before
    they answer it. *)
Lemma handshake_taken p w x reserved peerid rest :
  peers w !! p = Some x -> length reserved = 8%nat -> length peerid = 20%nat -> length (info_hash (bt w)) = 20%nat ->
  bt_rx_handshake p (handshake_message reserved (info_hash (bt w)) peerid ++ rest) w =
    Done (set_peers (<[p := set_peer_id (peerid_id peerid) x]> (peers w)) w, RC_OK) /\
  zlen (handshake_message reserved (info_hash (bt w)) peerid) = BT_HANDSHAKELEN.
Proof.
  intros Hx H1 H2 H3. rewrite (handshake_length _ _ _ H1 H3 H2), (rx_handshake_run p w x) by done. by rewrite bool_decide_eq_true_2.
Qed.

(** The client's own handshake is sent when the connection has a window. *)
Lemma own_handshake p w : exists win r, window env p w = Done (w, win) /\
  (if ctrue win then bt_tx_handshake env p else mret RC_OK) w =
    Done (set_sock (if decide (xfer_window env p (sock w) = 0) then sock w
      else sends env [p] (handshake_message (unwritten env 8) (info_hash (bt w)) (bt_peerid (bt w))) (sock w)) w, r).
Proof.
  eexists _. unfold window, ctrue. destruct (Z.eqb_spec (xfer_window env p (sock w)) 0) as [E|E].
  - exists RC_OK. rewrite decide_True by done. split; [brun (getw_run _); reflexivity|]. rewrite E. cbn. by rewrite set_sock_id.
  - eexists. rewrite decide_False by done. split; [brun (getw_run _); reflexivity|].
    apply Z.eqb_neq in E. rewrite E. cbn [negb]. unfold bt_tx_handshake. brun (getw_run _). apply deliver_raw_run.
Qed.

(** C34: a handshake with the right hash is accepted, from a peer the client
    connected to (BT_PEER_HANDSHAKE_SENT) and from one that connected to it
    (BT_PEER_HANDSHAKE_EXPECTED): the peer becomes ready, its node number is
    read from its peer identifier, and the client goes on with what follows
    the handshake in the buffer.  In the first case it sends INTERESTED and
    a keep-alive.  In the second it sends its own handshake, if the
    connection has a window, and INTERESTED, and node 11 starts to download. *)
Theorem handshake_accepted fuel p w x reserved peerid rest :
  peers w !! p = Some x ->
  length reserved = 8%nat -> length peerid = 20%nat -> length (info_hash (bt w)) = 20%nat ->
  let data := handshake_message reserved (info_hash (bt w)) peerid ++ rest in
  let own := handshake_message (unwritten env 8) (info_hash (bt w)) (bt_peerid (bt w)) in
  let ready := set_peers (<[p := set_peer_state BT_PEER_HANDSHAKE_RCVD (set_peer_id (peerid_id peerid) x)]> (peers w)) w in
  (peer_state x = BT_PEER_HANDSHAKE_SENT ->
    bt_peer_socket_deliver env (S fuel) p data w =
      deliver_loop env fuel p data rest
        (set_sock (sends env [p] [0; 0; 0; 0] (sends env [p] [0; 0; 0; 1; BT_INTERESTED] (sock w))) ready)) /\
  (peer_state x = BT_PEER_HANDSHAKE_EXPECTED ->
    bt_peer_socket_deliver env (S fuel) p data w =
      deliver_loop env fuel p data rest
        (set_bt (if decide (bt_id (bt w) = 11) then set_bt_state BT_DOWNLOADING (bt w) else bt w)
          (set_sock (sends env [p] [0; 0; 0; 1; BT_INTERESTED]
            (if decide (xfer_window env p (sock w) = 0) then sock w else sends env [p] own (sock w))) ready))).
Proof.
  intros Hx H1 H2 H3 data own ready. destruct (handshake_taken p w x reserved peerid rest Hx H1 H2 H3) as [Hr Hl].
  unfold bt_peer_socket_deliver. split; intros Hs.
  - rewrite (deliver_sent _ _ _ _ _ x) by done.
    unfold rx_handshake_sent at 1. abrun (valid_run _ 19 _ eq_refl). change (negb (19 =? 19)) with false. cbn iota.
    rewrite bind_assoc. unfold data at 2. brun Hr. abrun (update_again _ _ _ _ _). abrun (pull_run BT_HANDSHAKELEN _ rest _ Hl).
    unfold bt_tx_interested, bt_tx_keep_alive. abrun (deliver_raw_run _ _ _ _). abrun (deliver_raw_run _ _ _ _). done.
  - rewrite (deliver_expected _ _ _ _ _ x) by done.
    unfold rx_handshake_expected at 1. abrun (valid_run _ 19 _ eq_refl). change (negb (19 =? 19)) with false. cbn iota.
    rewrite bind_assoc. unfold data at 2. brun Hr. rewrite bind_assoc.
    destruct (own_handshake p (set_peers (<[p := set_peer_id (peerid_id peerid) x]> (peers w)) w)) as (win & r & Ew & Eo).
    brun Ew. abrun Eo. cbn [sock set_peers bt].
    change (set_sock ?n (set_peers ?P w)) with (set_peers P (set_sock n w)).
    abrun (update_again _ _ _ _ _). abrun (pull_run BT_HANDSHAKELEN _ rest _ Hl). unfold bt_tx_interested. abrun (deliver_raw_run _ _ _ _).
    abrun (getw_run _). cbn [bt set_sock set_peers]. rewrite bind_assoc.
    destruct (Z.eqb_spec (bt_id (bt w)) 11) as [E|E]; [rewrite (decide_True (P := bt_id (bt w) = 11)) by done; brun (update_bt_run _ _)|rewrite (decide_False (P := bt_id (bt w) = 11)), bind_ret by done];
      rewrite bind_ret; [reflexivity|].
    by destruct w.
Qed.

(** A buffer that the client does not take for a handshake. *)
Definition rejected (hash : list Z) (data : list Z) : Prop :=
  (exists c l, data = c :: l /\ c <> 19) \/
  (exists reserved hash' peerid rest, data = handshake_message reserved hash' peerid ++ rest /\
     length reserved = 8%nat /\ length hash' = 20%nat /\ length peerid = 20%nat /\ hash <> hash').

Lemma rejected_rx p w x data :
  peers w !! p = Some x -> length (info_hash (bt w)) = 20%nat -> rejected (info_hash (bt w)) data ->
  rx_handshake_sent env p data data w = Done (w, data) /\ rx_handshake_expected env p data data w = Done (w, data).
Proof.
  intros Hx Hh. unfold rx_handshake_sent, rx_handshake_expected.
  intros [(c & l & -> & Hc)|(reserved & hash' & peerid & rest & -> & H1 & H2 & H3 & Hne)].
  - apply Z.eqb_neq in Hc. do 2 brun (valid_run _ c _ eq_refl). by rewrite Hc.
  - pose proof (rx_handshake_run p w x reserved hash' peerid rest H1 H2 H3 Hh Hx) as Hr.
    rewrite bool_decide_eq_false_2 in Hr by done.
    brun (valid_run _ 19 _ eq_refl). change (negb (19 =? 19)) with false. cbn iota. brun Hr.
    brun (valid_run _ 19 _ eq_refl). change (negb (19 =? 19)) with false. cbn iota. by brun Hr.
Qed.

(** C40: the client does not survive a handshake it rejects.  A buffer that
    does not start with the protocol name's length, or has another hash,
    is never consumed: the delivery loop runs for ever, for a connection
    the client opened as for one it accepted. *)
Theorem rejected_handshake_hangs fuel p w x data :
  peers w !! p = Some x -> peer_state x = BT_PEER_HANDSHAKE_SENT \/ peer_state x = BT_PEER_HANDSHAKE_EXPECTED ->
  length (info_hash (bt w)) = 20%nat -> rejected (info_hash (bt w)) data ->
  bt_peer_socket_deliver env fuel p data w = Hang.
Proof.
  intros Hx Hs Hh Hr. unfold bt_peer_socket_deliver. destruct (rejected_rx p w x data Hx Hh Hr) as [E1 E2].
  assert (data <> []) by (destruct Hr as [(? & ? & -> & _)|(? & ? & ? & ? & -> & _)]; done).
  induction fuel as [|fuel IH]; [done|].
  destruct Hs; [rewrite (deliver_sent _ _ _ _ _ x) by done; by brun E1|rewrite (deliver_expected _ _ _ _ _ x) by done; by brun E2].
Qed.

(** ** Requests. *)
Lemma tx_piece_run p y P w index begin a l :
  queue y = [] -> bt_allocs w = Some a :: l -> xfer_window env p (sock w) <> 0 ->
  let msg := piece_message index (unwritten env (Z.to_nat BT_PIECE_SIZE)) in
  bt_tx_piece env p index begin (set_peers (<[p := y]> P) w) =
    Done (set_sock (sends env [p] msg (sock w)) (set_bt_allocs l (set_peers (<[p := y]> P) w)), (xfer_deliver env p msg (sock w)).2).
Proof.
  intros Hq Ha Hwin msg. unfold bt_tx_piece. fold msg. generalize msg. clear msg. intros msg.
  match goal with |- context [(bt_alloc ≫= ?k) ?v] => rewrite (bind_done bt_alloc k v _ _ (bt_alloc_run v _ l Ha)) end.
  change (set_bt_allocs l (set_peers ?Q w)) with (set_peers Q (set_bt_allocs l w)). brun (update_again _ _ _ _ _).
  unfold bt_peer_xmit. brun (get_again _ _ _ _). unfold window. abrun (getw_run _). rewrite bind_ret, Hq.
  cbn [queue set_queue app]. unfold ctrue. destruct (Z.eqb_spec (xfer_window env p (sock (set_peers (<[p := set_queue [msg] y]> P) (set_bt_allocs l w)))) 0); [done|].
  cbn [negb]. brun (update_again _ _ _ _ _). rewrite deliver_raw_run.
  assert (set_queue [] (set_queue [msg] y) = y) as -> by (destruct y; simpl in *; by subst). done.
Qed.

(** A REQUEST that arrives in one buffer, for a peer with a free window
    and nothing queued, is answered with the PIECE of that index, and the
    client goes on with the rest of the buffer.  What the piece holds is
    memory that was never written. *)
Theorem request_answered p w x index begin len rest a l :
  peers w !! p = Some x -> idle x -> queue x = [] -> bt_allocs w = Some a :: l -> xfer_window env p (sock w) <> 0 ->
  0 <= index < 2 ^ 32 ->
  rx_default env p (request_message index begin len ++ rest) w =
    Done (set_sock (sends env [p] (piece_message index (unwritten env (Z.to_nat BT_PIECE_SIZE))) (sock w))
            (set_bt_allocs l (set_peers (<[p := set_rx_id 0 x]> (peers w)) w)), inl rest).
Proof.
  intros Hx (_ & Hl & Hr & Hb) Hq Ha Hwin Hi. set (body := be_bytes 4 index ++ be_bytes 4 begin ++ be_bytes 4 len).
  change (request_message index begin len ++ rest) with (be_bytes 4 13 ++ 6 :: body ++ rest).
  unfold rx_default. brun (prefix_run p x w 13 6 (body ++ rest) Hx Hl ltac:(done)). brun (get_again _ _ _ _).
  change (remaining _) with 13. change (13 =? 0) with false. cbn iota. change (zlen (6 :: body ++ rest)) with (Z.of_nat (13 + length rest)).
  destruct (Z.leb_spec 13 (Z.of_nat (13 + length rest))); [|lia].
  unfold rx_message. abrun (get_again _ _ _ _). change (rx_id _) with 6. change (6 =? BT_HAVE) with false. change (6 =? BT_REQUEST) with true. cbn iota.
  unfold rx_request. rewrite !bind_assoc. brun (pull_one _ _ _). rewrite !bind_assoc. unfold body. rewrite <- !app_assoc.
  brun (pull_run 4 (be_bytes 4 index) _ _ eq_refl). rewrite !bind_assoc. brun (pull_run 4 (be_bytes 4 begin) _ _ eq_refl).
  rewrite !bind_assoc. brun (pull_run 4 (be_bytes 4 len) _ _ eq_refl). rewrite !bind_assoc, be_val_bytes, Z.mod_small by done.
  brun (tx_piece_run p (set_remaining 13 (set_rx_id 6 (set_rx_len 13 x))) _ _ _ _ a l Hq Ha Hwin). rewrite !bind_ret, bind_assoc. unfold message_done.
  match goal with |- context [set_sock ?s (set_bt_allocs l (set_peers ?Q w))] =>
    change (set_sock s (set_bt_allocs l (set_peers Q w))) with (set_peers Q (set_sock s (set_bt_allocs l w))) end.
  brun (update_again _ _ _ _ _). rewrite bind_ret.
  assert (set_rx_id 0 (set_rx_len 0 (set_remaining 0 (set_remaining 13 (set_rx_id 6 (set_rx_len 13 x))))) = set_rx_id 0 x) as ->
    by (destruct x; simpl in *; by subst). done.
Qed.

(** ** Faults. *)

(** The receive buffer is never compared with the length of a message.
    A message longer than the buffer, of which the received part does not
    fit into it, is written past its end. *)
Theorem oversize_message_overflows fuel p w x len id d :
  peers w !! p = Some x -> idle x -> 0 < len < 2 ^ 32 -> RX_ROOM < zlen (id :: d) < len ->
  bt_peer_socket_deliver env (S fuel) p (be_bytes 4 len ++ id :: d) w = Fault.
Proof.
  intros Hx (Hrd & Hl & Hr & Hb) Hlen Hd. unfold bt_peer_socket_deliver. rewrite (deliver_round _ _ _ _ _ _ x) by done.
  apply bind_fault. unfold rx_default. brun (prefix_run _ _ _ _ _ _ Hx Hl Hlen). brun (get_again _ _ _ _).
  change (remaining _) with len. destruct (Z.eqb_spec len 0); [lia|]. destruct (Z.leb_spec len (zlen (id :: d))); [lia|].
  brun (update_again _ _ _ _ _). brun (pull_all _ _).
  apply bind_fault. unfold rx_append. brun (get_again _ _ _ _). brun (valid_run _ [] _ Hb).
  by destruct (Z.leb_spec (zlen (@nil Z) + zlen (id :: d)) RX_ROOM); [cbn [length] in *; lia|].
Qed.

(** ** Connections. *)
Lemma create_peer_run w p b l bm :
  bt_allocs w = Some p :: Some b :: l -> bitmap_resize (bitmap_realloc env) bitmap_zero BT_NUMOFPIECES = (bm, RC_OK) ->
  bt_create_peer env w =
    Done (set_peers (<[p := set_peer_bitmap bm (set_rx_buffer (Some []) peer_zero)]> (peers w))
      (set_bt_refs (ref_get (Some BT_REF) (bt_refs w)) (set_bt_allocs l w)), Some p).
Proof.
  intros Ha Hbm. unfold bt_create_peer. brun (bt_alloc_run _ _ _ Ha).
  match goal with |- context [(bt_alloc ≫= ?k) ?v] => rewrite (bind_done bt_alloc k v _ _ (bt_alloc_run v (Some b) l eq_refl)) end.
  unfold ref_get_bt. brun (modifyw_run _ _). rewrite Hbm. by brun (modifyw_run _ _).
Qed.

(** The peer of a node that is to be connected. *)
Definition new_peer (bm : bitmap) (id : Z) : bt_peer :=
  set_peer_uri (Some (parse_uri (peer_address id))) (set_peer_bitmap bm (set_rx_buffer (Some []) peer_zero)).

(** The request once the record [i] is connected to [p]. *)
Definition connected_request (i : nat) (r : bt_record) p (b : bt_request) : bt_request :=
  let b := set_bt_records (<[i := BtRecord (record_id r) (retries r) 1]> (bt_records b)) (set_bt_peers (bt_peers b ++ [p]) b) in
  if connected_to_all (bt_records b) then set_bt_state BT_SENDING_HANDSHAKE b else b.

End Peers.

(** ** Instances. *)
Lemma handshake_accepted_witness :
  let data := handshake_message (replicate 8 0) (replicate 20 7) (replicate 20 49) ++ [] in
  let w := two_peers BT_SENDING_HANDSHAKE 40 0 BT_PEER_HANDSHAKE_SENT in
  let v := two_peers BT_SENDING_HANDSHAKE 40 0 BT_PEER_HANDSHAKE_EXPECTED in
  bt_peer_socket_deliver log_env 2 3%positive data w =
    deliver_loop log_env 1 3%positive data [] (set_sock [(3%positive, [0; 0; 0; 1; 2]); (3%positive, [0; 0; 0; 0])]
      (set_peers (<[3%positive := peer_in BT_PEER_HANDSHAKE_RCVD 11]> (peers w)) w)) /\
  exists v', bt_peer_socket_deliver log_env 2 3%positive data v = deliver_loop log_env 1 3%positive data [] v' /\
    length (sock v') = 2%nat.
Proof.
  intros data w v. split.
  - exact (proj1 (handshake_accepted log_env 1 3%positive w
      (peer_in BT_PEER_HANDSHAKE_SENT 10) (replicate 8 0) (replicate 20 49) [] eq_refl eq_refl eq_refl eq_refl) eq_refl).
  - eexists. split; [exact (proj2 (handshake_accepted log_env 1 3%positive v
      (peer_in BT_PEER_HANDSHAKE_EXPECTED 10) (replicate 8 0) (replicate 20 49) [] eq_refl eq_refl eq_refl eq_refl) eq_refl)|reflexivity].
Defined.

Lemma rejected_handshake_hangs_witness :
  bt_peer_socket_deliver log_env 1000 3%positive [0] (two_peers BT_SENDING_HANDSHAKE 40 0 BT_PEER_HANDSHAKE_SENT) = Hang.
Proof.
  apply (rejected_handshake_hangs log_env 1000 3%positive (two_peers BT_SENDING_HANDSHAKE 40 0 BT_PEER_HANDSHAKE_SENT)
    (peer_in BT_PEER_HANDSHAKE_SENT 10) [0]); [done|by left|done|]. left. by exists 0, [].
Defined.

Lemma request_answered_witness :
  exists w', rx_default log_env 3%positive (request_message 2 0 1024 ++ []) (two_peers BT_SEEDING 40 1 BT_PEER_HANDSHAKE_RCVD) =
    Done (w', inl []) /\ sock w' = [(3%positive, piece_message 2 (replicate 1024 0))].
Proof.
  eexists. split; [apply (request_answered log_env 3%positive (two_peers BT_SEEDING 40 1 BT_PEER_HANDSHAKE_RCVD)
    (peer_in BT_PEER_HANDSHAKE_RCVD 10) 2 0 1024 [] 9%positive []); done || by split_and!|done].
Defined.

Lemma oversize_message_overflows_witness :
  bt_peer_socket_deliver log_env 5 3%positive (be_bytes 4 2000 ++ BT_BITFIELD :: replicate 1100 255)
    (two_peers BT_SEEDING 40 1 BT_PEER_HANDSHAKE_RCVD) = Fault.
Proof.
  apply (oversize_message_overflows log_env 4 3%positive (two_peers BT_SEEDING 40 1 BT_PEER_HANDSHAKE_RCVD)
    (peer_in BT_PEER_HANDSHAKE_RCVD 10) 2000 BT_BITFIELD (replicate 1100 255)); [done|by split_and!|lia|by vm_compute].
Defined.

(** Node 10, about to connect to node 11. *)
Definition connecting : bt_world (list (loc * list Z)) :=
  BtWorld (Bt 10 BT_CONNECTING_TO_PEERS [BtRecord 11 0 0] [] [] 0 bitmap_zero [] [] true) ∅ (Refs {[BT_REF := 1]} [])
    [Some 2; Some 3; Some 4]%positive [] [].

