(* ===== verification/BtDownload.v ===== *)
(** * A download: the requests of the BitTorrent client and the pieces that
    answer them, from the first request to the last piece. *)
From S2P Require Import Prelude LinkedList Bitmap Retry Strings Uri BitTorrent BtLemmas BtRx.

Section Download.
Context {N : Type} (env : bt_env N).
Implicit Types (w : bt_world N) (p q : loc) (x : bt_peer) (n k : Z).

(** [k] of the [n] pieces have arrived, the next one was requested from
    [p]. *)
Record downloading p n k w x : Prop := Downloading {
  dl_id : bt_id (bt w) = 11;
  dl_wf : bm_wf (bt_bitmap (bt w));
  dl_length : bm_length (bt_bitmap (bt w)) = n;
  dl_bits i : 0 <= i -> bm_bit (bt_bitmap (bt w)) i = (i <? k);
  dl_rem : rem_pieces (bt w) = seqZ (k + 1) (n - k - 1);
  dl_peer : peers w !! p = Some x;
  dl_idle : idle x;
  dl_allocs : Forall is_Some (bt_allocs w);
  dl_room : n - k <= zlen (bt_allocs w) }.

(** The last piece has arrived. *)
Record downloaded n w : Prop := Downloaded {
  dd_full : bitmap_full (bt_bitmap (bt w)) = true;
  dd_length : bm_length (bt_bitmap (bt w)) = n;
  dd_bits i : 0 <= i < n -> bitmap_test (bt_bitmap (bt w)) i = Some true;
  dd_rem : rem_pieces (bt w) = [];
  dd_state : bt_state (bt w) = BT_SEEDING }.

(** What the client sends after the piece [k]: its HAVE to all peers, and
    the request of the next one. *)
Definition answers p (ps : list loc) n k (s : N) : N :=
  let s := sends env ps (have_message k) s in
  if k + 1 <? n then (xfer_deliver env p (request_message (k + 1) 0 BT_PIECE_SIZE) s).1 else s.

Lemma piece_idle x : idle x -> idle (piece_peer x).
Proof. by intros ([] & _). Qed.

Lemma piece_step p n k w x :
  downloading p n k w x -> 0 <= k < n ->
  exists w', piece_effect env p x k w = Done (w', (RC_OK, true)) /\
    sock w' = answers p (bt_peers (bt w)) n k (sock w) /\ bt_peers (bt w') = bt_peers (bt w) /\
    if k + 1 <? n then downloading p n (k + 1) w' (piece_peer x) else downloaded n w'.
Proof.
  intros [Hid Hwf Hlen Hbits Hrem Hx Hidle Hall Hroom] Hk.
  destruct (bitmap_set_bits _ k Hwf ltac:(lia)) as (bm & Hset & Hwf' & Hlen' & Hbits').
  assert (forall i, 0 <= i -> bm_bit bm i = (i <? k + 1)) as Hb.
  { intros i Hi. rewrite Hbits', Hbits by done. destruct (Z.eqb_spec i k), (Z.ltb_spec i k), (Z.ltb_spec i (k + 1)); simpl; done || lia. }
  unfold piece_effect. brun (getw_run _). rewrite Hset. brun (valid_run _ bm _ eq_refl). do 2 brun (modifyw_run _ _).
  brun (have_to_peers_run _ _ _). unfold piece_follow_up. rewrite bind_assoc. brun (getw_run _).
  cbn [bt set_sock set_peers set_bt_allocs set_bt bt_bitmap set_bt_bitmap bt_id]. rewrite Hid. change (11 =? 11) with true. cbn iota.
  unfold answers. destruct (Z.ltb_spec (k + 1) n) as [Hlt|Hge].
  - assert (bitmap_full bm = false) as ->.
    { apply not_true_is_false. rewrite (bitmap_full_bits _ Hwf'). intros H. specialize (H (k + 1) ltac:(lia)). rewrite Hb in H by lia. lia. }
    rewrite (seqZ_cons (k + 1)) in Hrem by lia. rewrite bind_assoc.
    match goal with |- context [(bt_next_piece ≫= ?K) ?v] => rewrite (bind_done _ K v _ _ (next_piece_run v (k + 1) _ Hrem)) end.
    rewrite bind_assoc. unfold bt_tx_request.
    brun (deliver_raw_run _ _ _ _). eexists. split_and!; [done..|].
    split; try done.
    + by rewrite <- Hlen.
    + simpl. f_equal; lia.
    + apply lookup_insert_eq.
    + by apply piece_idle.
    + simpl. by apply Forall_tail.
    + simpl. destruct (bt_allocs w); simpl in *; lia.
  - assert (k + 1 = n) as <- by lia.
    assert (bitmap_full bm = true) as ->.
    { apply (bitmap_full_bits _ Hwf'). intros i Hi. rewrite Hb by lia. lia. }
    brun (update_bt_run _ _). eexists. split_and!; [done..|]. split; try done.
    + apply (bitmap_full_bits _ Hwf'). intros i Hi. cbn. rewrite Hb by lia. lia.
    + by rewrite <- Hlen.
    + intros i Hi. cbn. rewrite bitmap_test_shape by (apply Hwf' || lia). rewrite Hb by lia. f_equal. lia.
    + cbn. rewrite Hrem. by replace (k + 1 - k - 1) with 0 by lia.
Qed.

(** ** The pieces, each cut into parts. *)
Context (chunks : Z -> list Z * list (list Z)) (block : Z -> list Z).

Definition stream (js : list Z) : list (list Z) := mjoin ((fun i => (chunks i).1 :: (chunks i).2) <$> js).

(** What the client sends while the pieces [js] arrive. *)
Definition replies p (ps : list loc) n (js : list Z) (s : N) : N := fold_left (fun s i => answers p ps n i s) js s.

Definition served n : Prop := forall i, 0 <= i < n ->
  zlen (block i) = BT_PIECE_SIZE /\ parts (chunks i).1 (chunks i).2 (piece_message i (block i)).

Lemma deliver_all_app fuel p ds1 ds2 w :
  deliver_all env fuel p (ds1 ++ ds2) w =
    (rs1 ← deliver_all env fuel p ds1; rs2 ← deliver_all env fuel p ds2; mret (rs1 ++ rs2)) w.
Proof.
  revert w. induction ds1 as [|d ds1 IH]; intros w; simpl app; cbn [deliver_all].
  - rewrite bind_ret. unfold mbind, B_bind. by destruct (deliver_all env fuel p ds2 w) as [[]| |].
  - rewrite bind_assoc. unfold mbind at 1 3, B_bind at 1 3. destruct (bt_peer_socket_deliver env fuel p d w) as [[w1 r]| |]; [|done..].
    rewrite bind_assoc. unfold mbind at 1, B_bind at 1. rewrite IH.
    unfold mbind, B_bind. destruct (deliver_all env fuel p ds1 w1) as [[w2 rs1]| |]; [|done..]. simpl.
    by destruct (deliver_all env fuel p ds2 w2) as [[]| |].
Qed.

(** One piece more. *)
Lemma deliver_next fuel p n k w x :
  downloading p n k w x -> 0 <= k < n -> n < 2 ^ 32 -> served n ->
  exists w' rs, deliver_all env (S (S fuel)) p ((chunks k).1 :: (chunks k).2) w = Done (w', rs) /\
    Forall (eq (RC_OK, true)) rs /\
    sock w' = answers p (bt_peers (bt w)) n k (sock w) /\ bt_peers (bt w') = bt_peers (bt w) /\
    if k + 1 <? n then downloading p n (k + 1) w' (piece_peer x) else downloaded n w'.
Proof.
  intros Hd Hk Hn Hs. destruct (Hs k Hk) as [Hb Hp]. destruct (piece_step _ _ _ _ _ Hd Hk) as (w' & E & H).
  destruct (bt_allocs w) as [|[a|] l] eqn:Ea.
  - pose proof (dl_room _ _ _ _ _ Hd) as Hr. rewrite Ea in Hr. simpl in Hr. lia.
  - exists w', (replicate (S (length (chunks k).2)) (RC_OK, true)). split_and!; [|by apply Forall_replicate|apply H..].
    rewrite (deliver_piece env fuel p w x k 0 (block k) a l); [|apply Hd|apply Hd|done|lia|done|done].
    unfold piece_results. by rewrite E.
  - pose proof (dl_allocs _ _ _ _ _ Hd) as Hr. rewrite Ea in Hr. apply Forall_cons in Hr as [[] _]. done.
Qed.

Lemma deliver_rest fuel p n : n < 2 ^ 32 -> served n -> forall m k w x,
  downloading p n k w x -> 0 <= k -> n - k = Z.of_nat (S m) ->
  exists w' rs, deliver_all env (S (S fuel)) p (stream (seqZ k (n - k))) w = Done (w', rs) /\
    Forall (eq (RC_OK, true)) rs /\ downloaded n w' /\
    sock w' = replies p (bt_peers (bt w)) n (seqZ k (n - k)) (sock w).
Proof.
  intros Hn Hs. induction m as [|m IH]; intros k w x Hd Hk Hm;
    destruct (deliver_next fuel p n k w x Hd ltac:(lia) Hn Hs) as (w1 & rs1 & E1 & Hrs1 & Hsock & Hps & Hnext).
  - rewrite Hm. cbn [seqZ Z.of_nat]. rewrite seqZ_cons by lia. unfold stream. cbn [fmap list_fmap mjoin list_join].
    change (Z.pred (Z.of_nat 1)) with 0. cbn [fmap list_fmap mjoin list_join]. rewrite app_nil_r.
    destruct (Z.ltb_spec (k + 1) n); [lia|]. by exists w1, rs1.
  - rewrite seqZ_cons by lia. replace (Z.pred (n - k)) with (n - (k + 1)) by lia. rewrite <- Z.add_1_r.
    unfold stream. cbn [fmap list_fmap mjoin list_join]. fold (stream (seqZ (k + 1) (n - (k + 1)))).
    rewrite deliver_all_app. brun E1. destruct (Z.ltb_spec (k + 1) n); [|lia].
    destruct (IH (k + 1) w1 _ Hnext ltac:(lia) ltac:(lia)) as (w2 & rs2 & E2 & Hrs2 & Hdone & Hsock2).
    brun E2. exists w2, (rs1 ++ rs2). split_and!; [done|by apply Forall_app_2|done|].
    rewrite Hsock2, Hsock, Hps. done.
Qed.

(** ** The first request. *)
Lemma populate_run m : forall i w,
  Forall is_Some (bt_allocs w) -> (m <= length (bt_allocs w))%nat ->
  populate m i w = Done (set_bt_allocs (drop m (bt_allocs w))
    (set_bt (set_rem_pieces (rem_pieces (bt w) ++ seqZ i (Z.of_nat m)) (bt w)) w), tt).
Proof.
  induction m as [|m IH]; intros i w Ha Hm; cbn [populate].
  - rewrite app_nil_r. by destruct w as [[] ? ? [] ? ?].
  - destruct (bt_allocs w) as [|a l] eqn:E; [simpl in Hm; lia|]. apply Forall_cons in Ha as [[a' ->] Ha].
    unfold add_rem_piece, bt_alloc_unchecked. rewrite !bind_assoc. brun (bt_alloc_run _ _ _ E).
    brun (valid_run _ a' _ eq_refl). brun (update_bt_run _ _). rewrite IH by (simpl in *; done || lia).
    rewrite (seqZ_cons i), Nat2Z.inj_succ, Z.pred_succ, <- Z.add_1_r by lia.
    change (i :: seqZ ?a ?b) with ([i] ++ seqZ a b). by rewrite (app_assoc (rem_pieces (bt w))).
Qed.

(** The client asks for the first piece. *)
Lemma first_request q p w x y n :
  n = BT_NUMOFPIECES -> bt_state (bt w) = BT_DOWNLOADING -> bt_id (bt w) = 11 -> rem_pieces (bt w) = [] -> bt_peers (bt w) = [q; p] ->
  peers w !! q = Some y -> peers w !! p = Some x -> peer_id x = 10 -> idle x ->
  bm_wf (bt_bitmap (bt w)) -> bm_length (bt_bitmap (bt w)) = n -> (forall i, 0 <= i -> bm_bit (bt_bitmap (bt w)) i = false) ->
  Forall is_Some (bt_allocs w) -> 2 * n <= zlen (bt_allocs w) ->
  exists w', bt_step env w = Done (w', tt) /\ downloading p n 0 w' x /\ bt_peers (bt w') = [q; p] /\
    sock w' = (xfer_deliver env p (request_message 0 0 BT_PIECE_SIZE) (sock w)).1.
Proof.
  intros Hn Hst Hid Hrem Hps Hy Hx Hpid Hidle Hwf Hlen Hclear Hall Hroom. assert (0 < n) by by rewrite Hn.
  unfold bt_step. brun (getw_run _). rewrite Hst. change (BT_DOWNLOADING =? _) with false at 1 2. change (BT_DOWNLOADING =? BT_DOWNLOADING) with true. cbn iota.
  unfold step_download. brun (getw_run _). rewrite Hid. change (11 =? 11) with true. cbn iota.
  unfold bt_count_peers. abrun (getw_run _). rewrite bind_ret, Hps. change (negb (zlen [q; p] =? 2)) with false. cbn iota.
  cbn [find_peer]. abrun (get_peer_run _ _ _ Hy). abrun (get_peer_run _ _ _ Hx). rewrite bind_ret, Hpid. change (10 =? 11 - 1) with true. cbn iota.
  rewrite <- Hn. brun (populate_run (Z.to_nat n) 0 w Hall ltac:(lia)). rewrite Z2Nat.id by lia.
  rewrite Hrem, (seqZ_cons 0) by done.
  match goal with |- context [(bt_next_piece ≫= ?K) ?v] => rewrite (bind_done _ K v _ _ (next_piece_run v 0 _ eq_refl)) end.
  unfold bt_tx_request. brun (deliver_raw_run _ _ _ _). eexists. split_and!; [done| |done|done].
  split; try done.
  - intros i Hi. simpl. rewrite Hclear by done. symmetry. by apply Z.ltb_ge.
  - simpl. f_equal; lia.
  - simpl. by apply Forall_drop.
  - simpl. rewrite length_drop. lia.
Qed.

(** C1: a download completes.  Node 11 is in the downloading state, has no
    piece yet and nothing in its list of pieces to ask for; exactly two
    peers are connected, the second of them is its neighbour, node 10,
    between two messages; two allocations for each piece succeed.  The
    neighbour answers every request in order with a PIECE message of a full
    block, in segments of which none is empty, none spans two messages and
    the first of each message has at least five bytes, for the length and
    the identifier: of a shorter one the client loses bytes.  Then the
    client asks for every piece once, announces each of them to both peers,
    and ends with all pieces, nothing left to ask for and as a seeder. *)
Theorem download_completes fuel q p w x y :
  bt_state (bt w) = BT_DOWNLOADING -> bt_id (bt w) = 11 -> rem_pieces (bt w) = [] -> bt_peers (bt w) = [q; p] ->
  peers w !! q = Some y -> peers w !! p = Some x -> peer_id x = 10 -> idle x ->
  bm_wf (bt_bitmap (bt w)) -> bm_length (bt_bitmap (bt w)) = BT_NUMOFPIECES ->
  (forall i, 0 <= i -> bm_bit (bt_bitmap (bt w)) i = false) ->
  Forall is_Some (bt_allocs w) -> 2 * BT_NUMOFPIECES <= zlen (bt_allocs w) -> served BT_NUMOFPIECES ->
  exists w' rs,
    (_ ← bt_step env; deliver_all env (S (S fuel)) p (stream (seqZ 0 BT_NUMOFPIECES))) w = Done (w', rs) /\
    Forall (eq (RC_OK, true)) rs /\ downloaded BT_NUMOFPIECES w' /\
    sock w' = replies p [q; p] BT_NUMOFPIECES (seqZ 0 BT_NUMOFPIECES)
      (xfer_deliver env p (request_message 0 0 BT_PIECE_SIZE) (sock w)).1.
Proof.
  remember BT_NUMOFPIECES as n eqn:Hn. intros Hst Hid Hrem Hps Hy Hx Hpid Hidle Hwf Hlen Hclear Hall Hroom Hs.
  destruct (first_request q p w x y n) as (w1 & E & Hd & Hps1 & Hsock); [done..|].
  brun E. destruct (deliver_rest fuel p n ltac:(by rewrite Hn) Hs (Z.to_nat (n - 1)) 0 w1 x Hd) as (w2 & rs & E2 & H);
    [done|assert (0 < n) by (by rewrite Hn); lia|].
  rewrite Z.sub_0_r, Hps1, Hsock in *. by exists w2, rs.
Qed.
End Download.

(** ** Instances: pieces of zeros, the length prefix and the identifier
    apart from the rest. *)
Definition zero_piece (i : Z) : list Z := piece_message i (replicate 1024 0).

Lemma download_completes_witness :
  exists w' rs,
    (_ ← bt_step log_env; deliver_all log_env 2 3%positive (stream (fun i => (take 5 (zero_piece i), [drop 5 (zero_piece i)])) (seqZ 0 BT_NUMOFPIECES)))
      (two_peers BT_DOWNLOADING BT_NUMOFPIECES (Z.to_nat 204800) BT_PEER_HANDSHAKE_RCVD) = Done (w', rs) /\
    downloaded BT_NUMOFPIECES w'.
Proof.
  destruct (download_completes log_env (fun i => (take 5 (zero_piece i), [drop 5 (zero_piece i)])) (fun _ => replicate 1024 0) 0
    2%positive 3%positive (two_peers BT_DOWNLOADING BT_NUMOFPIECES (Z.to_nat 204800) BT_PEER_HANDSHAKE_RCVD)
    (peer_in BT_PEER_HANDSHAKE_RCVD 10) (peer_in BT_PEER_HANDSHAKE_RCVD 12)) as (w' & rs & E & _ & H & _).
  - reflexivity.
  - reflexivity.
  - reflexivity.
  - reflexivity.
  - reflexivity.
  - reflexivity.
  - reflexivity.
  - by split_and!.
  - by apply bitmap_clear_wf.
  - reflexivity.
  - intros i _. apply bitmap_clear_bit.
  - by apply Forall_replicate.
  - cbn [bt_allocs two_peers]. rewrite length_replicate, Z2Nat.id; done.
  - intros i Hi. split; [done|]. split_and!; [|simpl; lia|by repeat constructor].
    cbn [fst snd]. change (mjoin [drop 5 (zero_piece i)]) with (drop 5 (zero_piece i) ++ []). by rewrite app_nil_r, take_drop.
  - exists w', rs. split; [exact E|exact H].
Defined.
