(* ===== verification/Ipv4.v ===== *)
(** * IPv4: src/src/net/ipv4.c and src/src/include/ipxe/ip.h.

    An address is the number whose big-endian bytes are stored in memory.
    The code only compares addresses and combines them bit by bit, so that
    the byte order in which it loads them does not matter.  An I/O buffer is
    the list of the bytes it holds.  The network devices, the link layer,
    ARP, the transport protocols and the settings are an environment.  A
    result [None] stands for an access outside of a buffer or to a timer
    that does not exist; debug output is left out. *)
From S2P Require Import Prelude LinkedList Checksum Retry Strings Printf.

Definition IP_VER : Z := 64.
Definition IP_MASK_VER : Z := 240.
Definition IP_MASK_HLEN : Z := 15.
Definition IP_MASK_OFFSET : Z := 8191.
Definition IP_MASK_MOREFRAGS : Z := 8192.
Definition IP_TOS : Z := 0.
Definition IP_TTL : Z := 64.
(** [sizeof ( struct iphdr )]. *)
Definition IPHDR_LEN : Z := 20.

Definition INADDR_BROADCAST : Z := 4294967295.
Definition IN_CLASSA (addr : Z) : bool := Z.land addr 2147483648 =? 0.
Definition IN_CLASSA_NET : Z := 4278190080.
Definition IN_CLASSB (addr : Z) : bool := Z.land addr 3221225472 =? 2147483648.
Definition IN_CLASSB_NET : Z := 4294901760.
Definition IN_CLASSC (addr : Z) : bool := Z.land addr 3758096384 =? 3221225472.
Definition IN_CLASSC_NET : Z := 4294967040.
Definition IN_MULTICAST (addr : Z) : bool := Z.land addr 4026531840 =? 3758096384.

Definition LL_MULTICAST : Z := 1.

(** ** Data.  The fields of a header in host byte order; the checksum is
    stored as it is computed. *)
Record iphdr := Iphdr {
  verhdrlen : Z;
  service : Z;
  ip_len : Z;
  ident : Z;
  frags : Z;
  ttl : Z;
  protocol : Z;
  chksum : Z;
  ip_src : Z;
  ip_dest : Z }.

Definition iphdr_bytes (h : iphdr) : list Z :=
  [verhdrlen h; service h] ++ be_bytes 2 (ip_len h) ++ be_bytes 2 (ident h) ++ be_bytes 2 (frags h) ++
  [ttl h; protocol h] ++ [chksum h mod 256; chksum h / 256] ++ be_bytes 4 (ip_src h) ++ be_bytes 4 (ip_dest h).

(** The header at the start of a buffer. *)
Definition iphdr_at (d : list Z) : option iphdr :=
  match d with
  | v :: s :: l1 :: l0 :: i1 :: i0 :: f1 :: f0 :: t :: p :: c0 :: c1 ::
    s3 :: s2 :: s1 :: s0 :: d3 :: d2 :: d1 :: d0 :: _ =>
      Some (Iphdr v s (be_val [l1; l0]) (be_val [i1; i0]) (be_val [f1; f0]) t p (c0 + 256 * c1)
        (be_val [s3; s2; s1; s0]) (be_val [d3; d2; d1; d0]))
  | _ => None
  end.

Definition header_len (h : iphdr) : Z := Z.land (verhdrlen h) IP_MASK_HLEN * 4.

Record ipv4_miniroute := Miniroute {
  mr_at : loc;
  mr_netdev : loc;
  mr_address : Z;
  mr_netmask : Z;
  mr_gateway : Z }.

(** A reassembly buffer; its timer has its address. *)
Record ipv4_fragment := Fragment {
  frag_at : loc;
  frag_iobuf : list Z;
  frag_offset : Z }.

Record ip_world (N : Type) := IpWorld {
  next_ident_high : Z;
  ipv4_miniroutes : list ipv4_miniroute;
  ipv4_fragments : list ipv4_fragment;
  ip_timers : timer_state;
  ip_now : Z;
  ip_allocs : list (option loc);
  ip_net : N }.
Arguments IpWorld {N}.
Arguments next_ident_high {N}.
Arguments ipv4_miniroutes {N}.
Arguments ipv4_fragments {N}.
Arguments ip_timers {N}.
Arguments ip_now {N}.
Arguments ip_allocs {N}.
Arguments ip_net {N}.

Section World.
Context {N : Type}.
Implicit Type w : ip_world N.

Definition set_next_ident_high (v : Z) w : ip_world N :=
  IpWorld v (ipv4_miniroutes w) (ipv4_fragments w) (ip_timers w) (ip_now w) (ip_allocs w) (ip_net w).
Definition set_miniroutes (v : list ipv4_miniroute) w : ip_world N :=
  IpWorld (next_ident_high w) v (ipv4_fragments w) (ip_timers w) (ip_now w) (ip_allocs w) (ip_net w).
Definition set_fragments (v : list ipv4_fragment) w : ip_world N :=
  IpWorld (next_ident_high w) (ipv4_miniroutes w) v (ip_timers w) (ip_now w) (ip_allocs w) (ip_net w).
Definition set_ip_timers (v : timer_state) w : ip_world N :=
  IpWorld (next_ident_high w) (ipv4_miniroutes w) (ipv4_fragments w) v (ip_now w) (ip_allocs w) (ip_net w).
Definition set_ip_allocs (v : list (option loc)) w : ip_world N :=
  IpWorld (next_ident_high w) (ipv4_miniroutes w) (ipv4_fragments w) (ip_timers w) (ip_now w) v (ip_net w).
Definition set_ip_net (v : N) w : ip_world N :=
  IpWorld (next_ident_high w) (ipv4_miniroutes w) (ipv4_fragments w) (ip_timers w) (ip_now w) (ip_allocs w) v.

(** A memory allocation: the address, or [None] for NULL. *)
Definition ip_alloc w : ip_world N * option loc :=
  match ip_allocs w with
  | [] => (w, None)
  | a :: l => (set_ip_allocs l w, a)
  end.
End World.

(** A received datagram as it is handed to the transport layer. *)
Record datagram := Datagram {
  dg_data : list Z;
  dg_src : Z;
  dg_dest : Z;
  dg_pshdr_csum : Z }.

(** The settings of a network device that make a route. *)
Record ipv4_settings := Settings {
  set_ip : Z;
  set_netmask : Z;
  set_gateway : Z }.

Record ip_env (N : Type) := IpEnv {
  ip_ticks_per_sec : Z;
  netdev_is_open : loc -> N -> bool;
  (** The counters of bad and of good packets received. *)
  rx_stats : loc -> N -> Z * Z;
  ll_broadcast : loc -> list Z;
  mc_hash : loc -> Z -> list Z + errno;
  ll_net_tx : list Z -> loc -> list Z -> N -> N * rc;
  arp_tx : list Z -> loc -> Z -> Z -> N -> N * rc;
  tcpip_protocols : list (Z * (datagram -> ip_world N -> ip_world N * rc));
  netdevs : N -> list loc;
  netdev_settings : loc -> N -> ipv4_settings }.
Arguments IpEnv {N}.
Arguments ip_ticks_per_sec {N}.
Arguments netdev_is_open {N}.
Arguments rx_stats {N}.
Arguments ll_broadcast {N}.
Arguments mc_hash {N}.
Arguments ll_net_tx {N}.
Arguments arp_tx {N}.
Arguments tcpip_protocols {N}.
Arguments netdevs {N}.
Arguments netdev_settings {N}.

Section Ipv4.
Context {N : Type}.
Variable env : ip_env N.
Implicit Type w : ip_world N.

(** ** Routes. *)
Definition on_refs (f : refs -> refs) w : ip_world N :=
  set_ip_timers (Timers (timers (ip_timers w)) (tmr (ip_timers w)) (f (objects (ip_timers w)))) w.
Definition netdev_get (netdev : loc) w : ip_world N := on_refs (ref_get (Some netdev)) w.
Definition netdev_put (netdev : loc) w : ip_world N := on_refs (ref_put (Some netdev)) w.

Definition add_ipv4_miniroute (netdev : loc) (address netmask gateway : Z) w : ip_world N * option ipv4_miniroute :=
  match ip_alloc w with
  | (w, None) => (w, None)
  | (w, Some p) =>
      let w := netdev_get netdev w in
      let miniroute := Miniroute p netdev address netmask gateway in
      (set_miniroutes (if ctrue gateway then ipv4_miniroutes w ++ [miniroute]
                       else miniroute :: ipv4_miniroutes w) w, Some miniroute)
  end.

Definition del_ipv4_miniroute (miniroute : ipv4_miniroute) w : ip_world N :=
  let w := netdev_put (mr_netdev miniroute) w in
  set_miniroutes (filter (fun r => mr_at r <> mr_at miniroute) (ipv4_miniroutes w)) w.

(** The route, and the next hop. *)
Fixpoint route_loop (n : N) (routes : list ipv4_miniroute) (dest : Z) : option (ipv4_miniroute * Z) :=
  match routes with
  | [] => None
  | miniroute :: routes =>
      if negb (netdev_is_open env (mr_netdev miniroute) n) then route_loop n routes dest else
      let local := Z.land (Z.lxor dest (mr_address miniroute)) (mr_netmask miniroute) =? 0 in
      let has_gw := ctrue (mr_gateway miniroute) in
      if local || has_gw then Some (miniroute, if local then dest else mr_gateway miniroute)
      else route_loop n routes dest
  end.
Definition ipv4_route (dest : Z) w : option (ipv4_miniroute * Z) := route_loop (ip_net w) (ipv4_miniroutes w) dest.

Definition ipv4_has_any_addr (netdev : loc) w : bool :=
  existsb (fun r => bool_decide (mr_netdev r = netdev)) (ipv4_miniroutes w).
Definition ipv4_has_addr (netdev : loc) (addr : Z) w : bool :=
  existsb (fun r => bool_decide (mr_netdev r = netdev) && (mr_address r =? addr)) (ipv4_miniroutes w).

Definition ipv4_arp_check (netdev : loc) (address : Z) w : rc :=
  if ipv4_has_addr netdev address w then RC_OK else RC_ERR ENOENT.

(** The default netmask of the class of an address. *)
Definition class_netmask (address : Z) : Z :=
  if IN_CLASSA address then IN_CLASSA_NET
  else if IN_CLASSB address then IN_CLASSB_NET
  else if IN_CLASSC address then IN_CLASSC_NET
  else 0.

Fixpoint create_loop (devs : list loc) w : ip_world N * rc :=
  match devs with
  | [] => (w, RC_OK)
  | netdev :: devs =>
      let s := netdev_settings env netdev (ip_net w) in
      if set_ip s =? 0 then create_loop devs w else
      let netmask := if set_netmask s =? 0 then class_netmask (set_ip s) else set_netmask s in
      match add_ipv4_miniroute netdev (set_ip s) netmask (set_gateway s) w with
      | (w, None) => (w, RC_ERR ENOMEM)
      | (w, Some _) => create_loop devs w
      end
  end.
Definition ipv4_create_routes w : ip_world N * rc :=
  let w := fold_left (fun w r => del_ipv4_miniroute r w) (ipv4_miniroutes w) w in
  create_loop (netdevs env (ip_net w)) w.

(** ** Fragments. *)
Definition IP_FRAG_TIMEOUT : Z := ip_ticks_per_sec env / 2.

(** Unlinking and freeing of a reassembly buffer. *)
Definition del_fragment (p : loc) w : ip_world N :=
  let s := ip_timers w in
  set_ip_timers (Timers (timers s) (delete p (tmr s)) (objects s))
    (set_fragments (filter (fun f => frag_at f <> p) (ipv4_fragments w)) w).

Definition ipv4_fragment_expired (p : loc) w : ip_world N := del_fragment p w.

Fixpoint fragment_loop (h : iphdr) (fs : list ipv4_fragment) : option (option ipv4_fragment) :=
  match fs with
  | [] => Some None
  | f :: fs =>
      frag_iphdr ← iphdr_at (frag_iobuf f);
      if (ip_src h =? ip_src frag_iphdr) && (ident h =? ident frag_iphdr) then Some (Some f) else fragment_loop h fs
  end.

Definition set_buffer_len (d : list Z) : list Z := take 2 d ++ be_bytes 2 (zlen d) ++ drop 4 d.

(** (Re)start of the timer. *)
Definition restart_fragment (p : loc) w : option (ip_world N) :=
  s ← start_timer_fixed (ip_ticks_per_sec env) (ip_now w) p IP_FRAG_TIMEOUT (ip_timers w);
  Some (set_ip_timers s w).

Definition new_fragment (iobuf : list Z) (hdrlen : Z) w : option (ip_world N) :=
  match ip_alloc w with
  | (w, None) => Some w
  | (w, Some p) =>
      let s := ip_timers w in
      let w := set_fragments (Fragment p iobuf (u32 (zlen iobuf - hdrlen)) :: ipv4_fragments w) w in
      s ← timer_init p None (set_timer p (Timer false 0 0 0 0 0 None) s);
      restart_fragment p (set_ip_timers s w)
  end.

(** The reassembly buffer with the data of one more fragment. *)
Definition extend_fragment (f : ipv4_fragment) (data : list Z) : ipv4_fragment :=
  Fragment (frag_at f) (set_buffer_len (frag_iobuf f ++ data)) (u32 (frag_offset f + zlen data)).

Definition ipv4_reassemble (iobuf : list Z) w : option (ip_world N * option (list Z)) :=
  h ← iphdr_at iobuf;
  let offset := Z.shiftl (Z.land (frags h) IP_MASK_OFFSET) 3 in
  let more_frags := Z.land (frags h) IP_MASK_MOREFRAGS in
  let hdrlen := header_len h in
  frag ← fragment_loop h (ipv4_fragments w);
  let expected_offset := match frag with Some f => frag_offset f | None => 0 end in
  if negb (offset =? expected_offset) then Some (w, None) else
  match frag with
  | None => w ← new_fragment iobuf hdrlen w; Some (w, None)
  | Some f =>
      if zlen iobuf <? hdrlen then None else
      let data := drop (Z.to_nat hdrlen) iobuf in
      match ip_alloc w with
      | (w, None) => Some (w, None)
      | (w, Some _) =>
          let f := extend_fragment f data in
          let w := set_fragments ((fun g => if decide (frag_at g = frag_at f) then f else g) <$> ipv4_fragments w) w in
          s ← stop_timer (ip_now w) (frag_at f) (ip_timers w);
          let w := set_ip_timers s w in
          if more_frags =? 0 then Some (del_fragment (frag_at f) w, Some (frag_iobuf f))
          else w ← restart_fragment (frag_at f) w; Some (w, None)
      end
  end.

(** ** Transmission. *)
Definition pseudo_header (src dest proto len : Z) : list Z :=
  be_bytes 4 src ++ be_bytes 4 dest ++ [0; proto] ++ be_bytes 2 len.

Definition ipv4_pshdr_chksum (iobuf : list Z) (csum : Z) : option Z :=
  h ← iphdr_at iobuf;
  Some (generic_tcpip_continue_chksum csum
    (pseudo_header (ip_src h) (ip_dest h) (protocol h) (zlen iobuf - header_len h))).

(** A 16-bit value in memory, low byte first. *)
Definition load16 (d : list Z) (off : nat) : option Z :=
  b0 ← d !! off; b1 ← d !! S off; Some (b0 + 256 * b1).
Definition store16 (d : list Z) (off : nat) (v : Z) : list Z := <[S off := v / 256]> (<[off := v mod 256]> d).

(** The transport checksum is in the segment, at [trans_csum]. *)
Definition fix_trans_csum (iobuf segment : list Z) (trans_csum : option nat) : option (list Z) :=
  match trans_csum with
  | None => Some segment
  | Some off =>
      csum ← load16 segment off;
      csum ← ipv4_pshdr_chksum iobuf csum;
      Some (store16 segment off csum)
  end.

Definition set_chksum (c : Z) (h : iphdr) : iphdr :=
  Iphdr (verhdrlen h) (service h) (ip_len h) (ident h) (frags h) (ttl h) (protocol h) c (ip_src h) (ip_dest h).

Definition on_net (f : N -> N * rc) w : ip_world N * rc :=
  let '(n, r) := f (ip_net w) in (set_ip_net n w, r).

(** Choice of the link-layer address and hand-over to the link layer. *)
Definition ipv4_hand_off (packet : list Z) (netdev : loc) (next_hop netmask src : Z) w : ip_world N * rc :=
  if Z.land (Z.lxor next_hop INADDR_BROADCAST) (u32 (Z.lnot netmask)) =? 0 then
    on_net (ll_net_tx env packet netdev (ll_broadcast env netdev)) w
  else if IN_MULTICAST next_hop then
    match mc_hash env netdev next_hop with
    | inr e => (w, RC_ERR e)
    | inl ll_dest => on_net (ll_net_tx env packet netdev ll_dest) w
    end
  else on_net (arp_tx env packet netdev next_hop src) w.

(** The packet that is sent, and the identification of the next one. *)
Definition ipv4_packet (ident_high : Z) (stats : Z * Z) (segment : list Z) (tcpip_proto src dest : Z)
    (trans_csum : option nat) : option (list Z) :=
  let ident := Z.lor (Z.lor (Z.shiftl ident_high 8) (Z.shiftl (Z.land stats.1 15) 4)) (Z.land stats.2 15) in
  let h := Iphdr (Z.lor IP_VER (IPHDR_LEN / 4)) IP_TOS (u16 (IPHDR_LEN + zlen segment)) (u16 ident) 0 IP_TTL
             tcpip_proto 0 src dest in
  segment ← fix_trans_csum (iphdr_bytes h ++ segment) segment trans_csum;
  Some (iphdr_bytes (set_chksum (tcpip_chksum (iphdr_bytes h)) h) ++ segment).

Definition ipv4_tx (segment : list Z) (tcpip_proto : Z) (st_src : option Z) (st_dest : Z)
    (netdev : option loc) (trans_csum : option nat) w : option (ip_world N * rc) :=
  let route := if negb (st_dest =? INADDR_BROADCAST) && negb (IN_MULTICAST st_dest)
               then ipv4_route st_dest w else None in
  let '(src, netmask, netdev, next_hop) :=
    match route with
    | Some (r, hop) => (mr_address r, mr_netmask r, Some (mr_netdev r), hop)
    | None => (default 0 st_src, 0, netdev, st_dest)
    end in
  match netdev with
  | None => Some (w, RC_ERR ENETUNREACH)
  | Some netdev =>
      let w := set_next_ident_high (u8 (next_ident_high w + 1)) w in
      packet ← ipv4_packet (next_ident_high w) (rx_stats env netdev (ip_net w)) segment tcpip_proto src st_dest trans_csum;
      Some (ipv4_hand_off packet netdev next_hop netmask src w)
  end.

(** ** Reception.  The checks of the header, and the packet without what
    follows it in the buffer. *)
Definition check_header (iobuf : list Z) : option (option (list Z)) :=
  if zlen iobuf <? IPHDR_LEN then Some None else
  h ← iphdr_at iobuf;
  let hdrlen := header_len h in
  if negb (Z.land (verhdrlen h) IP_MASK_VER =? IP_VER) then Some None else
  if hdrlen <? IPHDR_LEN then Some None else
  if zlen iobuf <? hdrlen then Some None else
  if ctrue (tcpip_chksum (take (Z.to_nat hdrlen) iobuf)) then Some None else
  if ip_len h <? hdrlen then Some None else
  if zlen iobuf <? ip_len h then Some None else
  Some (Some (take (Z.to_nat (ip_len h)) iobuf)).

(** A complete datagram for the transport layer. *)
Definition ipv4_deliver (iobuf : list Z) w : option (ip_world N * rc) :=
  h ← iphdr_at iobuf;
  pshdr_csum ← ipv4_pshdr_chksum iobuf TCPIP_EMPTY_CSUM;
  if zlen iobuf <? header_len h then None else
  Some (tcpip_rx (fun _ w => w) (tcpip_protocols env)
    (Datagram (drop (Z.to_nat (header_len h)) iobuf) (ip_src h) (ip_dest h) pshdr_csum) (protocol h) w).

Definition ipv4_rx (iobuf : list Z) (netdev : loc) (flags : Z) w : option (ip_world N * rc) :=
  checked ← check_header iobuf;
  match checked with
  | None => Some (w, RC_ERR EINVAL)
  | Some iobuf =>
      h ← iphdr_at iobuf;
      if negb (ctrue (Z.land flags LL_MULTICAST)) && ipv4_has_any_addr netdev w && negb (ipv4_has_addr netdev (ip_dest h) w)
      then Some (w, RC_ERR EINVAL) else
      if ctrue (Z.land (frags h) (Z.lor IP_MASK_OFFSET IP_MASK_MOREFRAGS)) then
        '(w, r) ← ipv4_reassemble iobuf w;
        match r with
        | None => Some (w, RC_OK)
        | Some iobuf => ipv4_deliver iobuf w
        end
      else ipv4_deliver iobuf w
  end.
End Ipv4.

(** ** Dotted-quad notation. *)
Definition inet_ntoa (addr : Z) : option (list Z) :=
  let fmt := cstr "%d.%d.%d.%d" in
  vcprintf (S (length fmt)) fmt (ArgInt <$> be_bytes 4 addr).
Definition ipv4_ntoa := inet_ntoa.

(** ** Instances: devices that are all open and record what is sent, no
    transport protocol, and a host without state. *)
Definition log_ip_env : ip_env (list (list Z * loc)) :=
  IpEnv 18 (fun _ _ => true) (fun _ _ => (0, 0)) (fun _ => replicate 6 255) (fun _ _ => inl (replicate 6 1))
    (fun packet netdev _ log => (log ++ [(packet, netdev)], RC_OK)) (fun packet netdev _ _ log => (log ++ [(packet, netdev)], RC_OK))
    [] (fun _ => []) (fun _ _ => Settings 0 0 0).

Definition quiet_host (allocs : list loc) : ip_world (list (list Z * loc)) :=
  IpWorld 0 [] [] (Timers [] ∅ (Refs ∅ [])) 100 (Some <$> allocs) [].
