(* ===== verification/IpReassembly.v ===== *)
(** * Reassembly of IPv4 fragments: the code refines a table of partial
    datagrams, and datagrams whose fragments arrive in order are put
    together, whatever arrives in between. *)
From S2P Require Import Prelude LinkedList Checksum Retry Strings Printf Ipv4.

(** ** Headers in buffers. *)
Lemma iphdr_at_app d e h : iphdr_at d = Some h -> iphdr_at (d ++ e) = Some h.
Proof. intros H. do 20 (destruct d as [|? d]; [done|]). done. Qed.

Lemma iphdr_at_length d h : iphdr_at d = Some h -> (20 <= length d)%nat.
Proof. intros H. do 20 (destruct d as [|? d]; [done|]). simpl. lia. Qed.

(** Setting the length changes nothing else. *)
Lemma iphdr_set_len d h :
  iphdr_at d = Some h ->
  iphdr_at (set_buffer_len d) = Some (Iphdr (verhdrlen h) (service h) (u16 (zlen d)) (ident h) (frags h) (ttl h)
    (protocol h) (chksum h) (ip_src h) (ip_dest h)).
Proof.
  intros H. do 20 (destruct d as [|? d]; [done|]). injection H as <-. unfold set_buffer_len.
  generalize (zlen (z :: z0 :: z1 :: z2 :: z3 :: z4 :: z5 :: z6 :: z7 :: z8 :: z9 :: z10 :: z11 :: z12 :: z13 :: z14 :: z15 :: z16 :: z17 :: z18 :: d)).
  intros n. pose proof (be_val_bytes 2 n) as E. cbn [be_bytes be_val] in E. cbn [take drop app be_bytes iphdr_at].
  do 2 f_equal. exact E.
Qed.

Lemma set_buffer_len_length d : (4 <= length d)%nat -> length (set_buffer_len d) = length d.
Proof. intros H. unfold set_buffer_len. rewrite !length_app, length_take, length_drop, be_bytes_length. lia. Qed.

Lemma set_buffer_len_app d e :
  (4 <= length d)%nat -> set_buffer_len (set_buffer_len d ++ e) = set_buffer_len (d ++ e).
Proof.
  intros H. do 4 (destruct d as [|? d]; [simpl in H; lia|]). unfold set_buffer_len at 1 3.
  rewrite !(length_app _ e), set_buffer_len_length by (simpl; lia). done.
Qed.

Lemma set_buffer_len_id d h : iphdr_at d = Some h -> bytes_ok d -> ip_len h = zlen d -> set_buffer_len d = d.
Proof.
  intros H Hb Hl. do 20 (destruct d as [|? d]; [done|]). apply (inj Some) in H. subst h. cbn [ip_len] in Hl.
  unfold set_buffer_len. rewrite <- Hl. cbn [take drop app].
  do 2 apply Forall_inv_tail in Hb. apply Forall_cons in Hb as [H1 Hb]. apply Forall_cons in Hb as [H2 _].
  pose proof (be_bytes_val [z1; z2]) as E. change (length [z1; z2]) with 2%nat in E. rewrite E; [done|by apply Forall_cons; split; [|apply Forall_singleton]].
Qed.

Lemma fragment_offset h : 0 <= Z.shiftl (Z.land (frags h) IP_MASK_OFFSET) 3 < 65536.
Proof.
  change IP_MASK_OFFSET with (Z.ones 13). rewrite Z.land_ones, Z.shiftl_mul_pow2 by lia.
  pose proof (Z.mod_pos_bound (frags h) (2 ^ 13)). lia.
Qed.

(** ** The specification: the partial datagrams by source and
    identification, each with the header of its first fragment. *)
Abbreviation dg_key := (Z * Z)%type.
Abbreviation table := (gmap dg_key (list Z * list Z)).

Record fragment := Frag {
  fr_key : dg_key;
  fr_offset : Z;
  fr_more : bool;
  fr_header : list Z;
  fr_data : list Z }.

Definition spec_step (f : fragment) (m : table) : table * option (list Z * list Z) :=
  match m !! fr_key f with
  | None => if fr_offset f =? 0 then (<[fr_key f := (fr_header f, fr_data f)]> m, None) else (m, None)
  | Some (hdr, data) =>
      if negb (fr_offset f =? zlen data) then (m, None)
      else if fr_more f then (<[fr_key f := (hdr, data ++ fr_data f)]> m, None)
      else (delete (fr_key f) m, Some (hdr, data ++ fr_data f))
  end.

(** A packet that is such a fragment. *)
Record is_fragment (f : fragment) (h : iphdr) : Prop := IsFragment {
  if_header : iphdr_at (fr_header f) = Some h;
  if_hdrlen : header_len h = zlen (fr_header f);
  if_key : fr_key f = (ip_src h, ident h);
  if_offset : fr_offset f = Z.shiftl (Z.land (frags h) IP_MASK_OFFSET) 3;
  if_more : fr_more f = negb (Z.land (frags h) IP_MASK_MOREFRAGS =? 0);
  if_len : ip_len h = zlen (fr_header f ++ fr_data f);
  if_bytes : bytes_ok (fr_header f ++ fr_data f);
  if_short : zlen (fr_header f ++ fr_data f) < 65536 }.

Definition fr_packet (f : fragment) : list Z := fr_header f ++ fr_data f.

(** The datagram put together. *)
Definition assembled (hdr data : list Z) : list Z := set_buffer_len (hdr ++ data).

(** ** The refinement relation. *)
Abbreviation entry := (loc * (dg_key * (list Z * list Z)))%type.
Definition frag_of (e : entry) : ipv4_fragment :=
  Fragment e.1 (assembled e.2.2.1 e.2.2.2) (zlen e.2.2.2).

Lemma frag_locs (es : list entry) : frag_at <$> (frag_of <$> es) = fst <$> es.
Proof. by rewrite <- list_fmap_compose. Qed.

Section Reassembly.
Context {N : Type} (env : ip_env N).
Implicit Types (w : ip_world N) (m : table) (f : fragment).

Definition entry_ok w (e : entry) : Prop :=
  (exists h, iphdr_at e.2.2.1 = Some h /\ e.2.1 = (ip_src h, ident h)) /\
  zlen e.2.2.2 < 2 ^ 18 /\ is_Some (tmr (ip_timers w) !! e.1).

Record entries w m (es : list entry) : Prop := Entries {
  en_frags : ipv4_fragments w = frag_of <$> es;
  en_table : m = list_to_map (snd <$> es);
  en_keys : NoDup ((snd <$> es).*1);
  en_locs : NoDup (fst <$> es);
  en_ok : Forall (entry_ok w) es }.

Definition reassembles w m : Prop := exists es, entries w m es.

(** The search finds the entry of the table. *)
Lemma fragment_loop_find w h es :
  Forall (entry_ok w) es ->
  fragment_loop h (frag_of <$> es) =
    Some (frag_of <$> List.find (fun e => bool_decide (e.2.1 = (ip_src h, ident h))) es).
Proof.
  intros Hok. induction Hok as [|e es [(h0 & Hh & Hk) _] Hok IH]; [done|].
  cbn [fmap list_fmap fragment_loop List.find]. change (frag_iobuf (frag_of e)) with (set_buffer_len (e.2.2.1 ++ e.2.2.2)).
  rewrite (iphdr_set_len _ h0) by by apply iphdr_at_app. cbn [mbind option_bind ip_src ident].
  rewrite Hk. destruct (Z.eqb_spec (ip_src h) (ip_src h0)), (Z.eqb_spec (ident h) (ident h0)); cbn [andb].
  - rewrite bool_decide_eq_true_2 by congruence. done.
  - rewrite bool_decide_eq_false_2 by congruence. done.
  - rewrite bool_decide_eq_false_2 by congruence. done.
  - rewrite bool_decide_eq_false_2 by congruence. done.
Qed.

Lemma fragment_search w m h es :
  entries w m es ->
  fragment_loop h (ipv4_fragments w) =
    Some (frag_of <$> List.find (fun e => bool_decide (e.2.1 = (ip_src h, ident h))) es).
Proof. intros He. rewrite (en_frags _ _ _ He). apply (fragment_loop_find w), He. Qed.

(** What the search finds is in the table. *)
Lemma find_entry w m es k :
  entries w m es ->
  match List.find (fun e => bool_decide (e.2.1 = k)) es with
  | None => m !! k = None
  | Some e => exists es1 es2, es = es1 ++ e :: es2 /\ e.2.1 = k /\ m !! k = Some e.2.2
  end.
Proof.
  intros [_ -> Hk _ _]. destruct (List.find _ es) as [e|] eqn:E.
  - apply List.find_some in E as [Hin Hb]. apply bool_decide_eq_true in Hb. apply list_elem_of_In in Hin.
    apply list_elem_of_split in Hin as (es1 & es2 & ->). exists es1, es2. split_and!; [done..|].
    rewrite <- Hb. apply elem_of_list_to_map; [done|]. rewrite fmap_app, fmap_cons. rewrite <- (surjective_pairing e.2). set_solver.
  - apply not_elem_of_list_to_map. rewrite <- list_fmap_compose. intros (e & -> & He)%list_elem_of_fmap.
    eapply List.find_none in E; [|by apply list_elem_of_In]. apply bool_decide_eq_false in E. done.
Qed.

(** Replacing the contents of an entry. *)
Lemma table_update (es1 es2 : list (dg_key * (list Z * list Z))) k v v' :
  NoDup (es1 ++ (k, v) :: es2).*1 ->
  list_to_map (M := table) (es1 ++ (k, v') :: es2) = <[k := v']> (list_to_map (es1 ++ (k, v) :: es2)).
Proof.
  intros Hnd. rewrite !list_to_map_app. cbn [list_to_map foldr uncurry].
  rewrite fmap_app, fmap_cons in Hnd. apply NoDup_app in Hnd as (_ & Hd & _).
  assert (list_to_map (M := table) es1 !! k = None) as Hn.
  { apply not_elem_of_list_to_map. intros Hin. apply (Hd k Hin). by left. }
  rewrite insert_union_r by done. cbn [fst snd]. by rewrite insert_insert_eq.
Qed.

Lemma table_delete (es1 es2 : list (dg_key * (list Z * list Z))) k v :
  NoDup (es1 ++ (k, v) :: es2).*1 ->
  list_to_map (M := table) (es1 ++ es2) = delete k (list_to_map (es1 ++ (k, v) :: es2)).
Proof.
  intros Hnd. rewrite !list_to_map_app. cbn [list_to_map foldr uncurry fst snd].
  rewrite fmap_app, fmap_cons in Hnd. apply NoDup_app in Hnd as (_ & Hd & [Hk _]%NoDup_cons).
  rewrite delete_union, delete_insert_id by by apply not_elem_of_list_to_map.
  rewrite delete_id; [done|]. apply not_elem_of_list_to_map. intros Hin. apply (Hd k Hin). by left.
Qed.

(** Timers of reassembly buffers. *)
Lemma set_timer_some t x s q : is_Some (tmr s !! q) -> is_Some (tmr (set_timer t x s) !! q).
Proof. intros H. simpl. destruct (decide (q = t)) as [->|]; [rewrite lookup_insert_eq|rewrite lookup_insert_ne]; done. Qed.

Lemma start_fixed_some tps now t tmo s :
  is_Some (tmr s !! t) ->
  exists s', start_timer_fixed tps now t tmo s = Some s' /\ forall q, is_Some (tmr s !! q) -> is_Some (tmr s' !! q).
Proof.
  intros [x Hx]. unfold start_timer_fixed, start_timer. rewrite Hx. cbn [mbind option_bind].
  destruct (running x); cbn [tmr set_timer]; rewrite lookup_insert_eq; cbn [mbind option_bind];
    (eexists; split; [done|]; intros q Hq; by repeat apply set_timer_some).
Qed.

Lemma stop_some now t s :
  is_Some (tmr s !! t) ->
  exists s', stop_timer now t s = Some s' /\ forall q, is_Some (tmr s !! q) -> is_Some (tmr s' !! q).
Proof.
  intros [x Hx]. unfold stop_timer. rewrite Hx. cbn [mbind option_bind]. destruct (negb (running x)); [by eexists|].
  destruct (ctrue (tm_count x)); (eexists; split; [done|]; intros q Hq; by apply set_timer_some).
Qed.

Lemma restart_run w p :
  is_Some (tmr (ip_timers w) !! p) ->
  exists s, restart_fragment env p w = Some (set_ip_timers s w) /\
    forall q, is_Some (tmr (ip_timers w) !! q) -> is_Some (tmr s !! q).
Proof.
  intros H. unfold restart_fragment. destruct (start_fixed_some (ip_ticks_per_sec env) (ip_now w) p (IP_FRAG_TIMEOUT env) (ip_timers w) H) as (s & -> & Hs).
  by exists s.
Qed.

Lemma entries_timers w w' m es :
  entries w m es -> ipv4_fragments w' = ipv4_fragments w ->
  (forall q, is_Some (tmr (ip_timers w) !! q) -> is_Some (tmr (ip_timers w') !! q)) -> entries w' m es.
Proof.
  intros [Hf Ht Hk Hl Hok] Ef Hq. split; [by rewrite Ef|done..|]. eapply Forall_impl; [exact Hok|].
  intros e (H1 & H2 & H3). split_and!; [done..|]. by apply Hq.
Qed.

(** ** The three things a fragment can do.  Start a datagram. *)
Lemma new_fragment_run w m es f h p l :
  entries w m es -> is_fragment f h -> m !! fr_key f = None -> ip_allocs w = Some p :: l -> p ∉ frag_at <$> ipv4_fragments w ->
  exists w', new_fragment env (fr_packet f) (header_len h) w = Some w' /\
    reassembles w' (<[fr_key f := (fr_header f, fr_data f)]> m) /\ ip_allocs w' = l /\
    frag_at <$> ipv4_fragments w' = p :: (frag_at <$> ipv4_fragments w).
Proof.
  intros He [Hh Hlen Hk Ho Hm Hl Hb Hs] Hnone Ha Hp. unfold new_fragment, ip_alloc. rewrite Ha.
  set (s0 := set_timer p (Timer false 0 0 0 0 0 None) (ip_timers (set_ip_allocs l w))).
  unfold timer_init. change (tmr s0 !! p) with (<[p := Timer false 0 0 0 0 0 None]> (tmr (ip_timers w)) !! p). rewrite lookup_insert_eq.
  cbn [mbind option_bind]. set (s1 := set_timer p _ s0).
  set (w1 := set_ip_timers s1 _). destruct (restart_run w1 p) as (s2 & -> & Hs2).
  { simpl. rewrite lookup_insert_eq. done. }
  eexists. split; [done|]. split; [|done]. exists ((p, (fr_key f, (fr_header f, fr_data f))) :: es).
  destruct He as [Hf Ht Hkeys Hlocs Hok]. split.
  - cbn [ipv4_fragments set_ip_timers]. simpl. rewrite Hf. f_equal. unfold frag_of, assembled. cbn [fst snd].
    rewrite (set_buffer_len_id _ h); [|by apply iphdr_at_app|done|done]. rewrite Hlen. unfold fr_packet. rewrite length_app. f_equal.
    rewrite wrap_small; [lia|]. rewrite length_app in Hs. lia.
  - simpl. by rewrite Ht.
  - rewrite !fmap_cons. apply NoDup_cons. split; [|done]. apply (not_elem_of_list_to_map (M := gmap dg_key)). by rewrite <- Ht.
  - rewrite !fmap_cons. apply NoDup_cons. split; [|done]. rewrite Hf, <- list_fmap_compose in Hp. exact Hp.
  - apply Forall_cons. split.
    + split_and!; [by exists h|simpl; rewrite length_app in Hs; lia|]. simpl. apply Hs2. simpl. by rewrite lookup_insert_eq.
    + eapply Forall_impl; [exact Hok|]. intros e (H1 & H2 & H3). split_and!; [done..|]. apply Hs2.
      by do 2 apply (set_timer_some p _ _ e.1).
Qed.

(** Continue one. *)
Lemma extend_frag_of p k hdr data d h :
  iphdr_at hdr = Some h -> zlen data + zlen d < 2 ^ 18 ->
  extend_fragment (frag_of (p, (k, (hdr, data)))) d = frag_of (p, (k, (hdr, data ++ d))).
Proof.
  intros Hh Hd. pose proof (iphdr_at_length _ _ Hh). unfold extend_fragment, frag_of, assembled. cbn [fst snd frag_iobuf frag_offset frag_at].
  rewrite set_buffer_len_app, <- app_assoc, length_app, wrap_small by (rewrite ?length_app; lia). f_equal. lia.
Qed.

Lemma replace_fragment es1 es2 p v v' :
  NoDup (fst <$> (es1 ++ (p, v) :: es2 : list entry)) ->
  (fun g => if decide (frag_at g = p) then frag_of (p, v') else g) <$> (frag_of <$> (es1 ++ (p, v) :: es2)) =
    frag_of <$> (es1 ++ (p, v') :: es2).
Proof.
  rewrite fmap_app, fmap_cons. intros (_ & Hd & [Hp _]%NoDup_cons)%NoDup_app.
  assert (forall es : list entry, p ∉ fst <$> es -> (fun g => if decide (frag_at g = p) then frag_of (p, v') else g) <$> (frag_of <$> es) = frag_of <$> es) as Hid.
  { intros es Hes. induction es as [|e es IH]; [done|]. rewrite fmap_cons in Hes. apply not_elem_of_cons in Hes as [Hne Hes].
    rewrite !fmap_cons, IH by done. rewrite decide_False; [done|]. by apply not_eq_sym. }
  rewrite !fmap_app, !fmap_cons, !Hid; [|done|].
  - rewrite decide_True; done.
  - intros Hin. apply (Hd p Hin). by left.
Qed.

Lemma remove_fragment es1 es2 p v :
  NoDup (fst <$> (es1 ++ (p, v) :: es2 : list entry)) ->
  filter (fun g => frag_at g <> p) (frag_of <$> (es1 ++ (p, v) :: es2)) = frag_of <$> (es1 ++ es2).
Proof.
  rewrite fmap_app, fmap_cons. intros (_ & Hd & [Hp _]%NoDup_cons)%NoDup_app.
  assert (forall es : list entry, p ∉ fst <$> es -> filter (fun g => frag_at g <> p) (frag_of <$> es) = frag_of <$> es) as Hid.
  { intros es Hes. induction es as [|e es IH]; [done|]. rewrite fmap_cons in Hes. apply not_elem_of_cons in Hes as [Hne Hes].
    rewrite !fmap_cons, filter_cons_True, IH; [done|done|]. by apply not_eq_sym. }
  rewrite !fmap_app, fmap_cons, filter_app, filter_cons_False, !Hid; [done|done| |by intros H].
  intros Hin. apply (Hd p Hin). by left.
Qed.

(** The table after a fragment was appended. *)
Lemma extend_entries w m es1 es2 p k hdr data d h :
  entries w m (es1 ++ (p, (k, (hdr, data))) :: es2) -> iphdr_at hdr = Some h -> zlen data + zlen d < 2 ^ 18 ->
  forall s, (forall q, is_Some (tmr (ip_timers w) !! q) -> is_Some (tmr s !! q)) ->
  entries (set_ip_timers s (set_fragments (frag_of <$> (es1 ++ (p, (k, (hdr, data ++ d))) :: es2)) w))
    (<[k := (hdr, data ++ d)]> m) (es1 ++ (p, (k, (hdr, data ++ d))) :: es2).
Proof.
  intros [Hf Ht Hk Hl Hok] Hh Hd s Hs. split; [done| | | |].
  - rewrite Ht, !fmap_app, !fmap_cons. cbn [snd]. symmetry. apply table_update with (v := (hdr, data)). by rewrite fmap_app, fmap_cons in Hk.
  - by rewrite !fmap_app, !fmap_cons in Hk |- *.
  - by rewrite !fmap_app, !fmap_cons in Hl |- *.
  - assert (forall e : entry, entry_ok w e -> entry_ok (set_ip_timers s (set_fragments (frag_of <$> (es1 ++ (p, (k, (hdr, data ++ d))) :: es2)) w)) e) as Hup.
    { intros e (H1 & H2 & H3). split_and!; [done..|]. by apply Hs. }
    apply Forall_app in Hok as [Hok1 [(H1 & H2 & H3) Hok2]%Forall_cons].
    apply Forall_app. split; [by eapply Forall_impl|]. apply Forall_cons. split; [|by eapply Forall_impl].
    split_and!; [done|simpl; rewrite length_app; lia|by apply Hs].
Qed.

Lemma delete_entries w m es1 es2 p k v :
  entries w m (es1 ++ (p, (k, v)) :: es2) -> entries (del_fragment p w) (delete k m) (es1 ++ es2).
Proof.
  intros [Hf Ht Hk Hl Hok]. split.
  - unfold del_fragment. cbn [ipv4_fragments set_ip_timers set_fragments]. rewrite Hf. by apply remove_fragment.
  - rewrite Ht, !fmap_app, fmap_cons. cbn [snd]. symmetry. apply (table_delete _ _ _ v). by rewrite fmap_app, fmap_cons in Hk.
  - rewrite !fmap_app, !fmap_cons in Hk. rewrite !fmap_app. eapply sublist_NoDup; [exact Hk|]. by apply sublist_app, sublist_cons.
  - rewrite !fmap_app, !fmap_cons in Hl. rewrite !fmap_app. eapply sublist_NoDup; [exact Hl|]. by apply sublist_app, sublist_cons.
  - rewrite fmap_app, fmap_cons in Hl. apply NoDup_app in Hl as (_ & Hd & [Hp _]%NoDup_cons).
    assert (forall es : list entry, p ∉ fst <$> es -> Forall (entry_ok w) es -> Forall (entry_ok (del_fragment p w)) es) as Hup.
    { intros es Hes Hall. rewrite Forall_forall in Hall |- *. intros e He. destruct (Hall e He) as (H1 & H2 & H3).
      split_and!; [done..|]. simpl. rewrite lookup_delete_ne; [done|]. intros ->. apply Hes. by apply list_elem_of_fmap_2. }
    apply Forall_app in Hok as [Hok1 [_ Hok2]%Forall_cons]. apply Forall_app. split; [|by apply Hup].
    apply Hup; [|done]. intros Hin. apply (Hd p Hin). by left.
Qed.

(** The state in which a fragment arrives: the table is represented, and
    an allocation yields a new address. *)
Definition allocates w (p : loc) (l : list (option loc)) : Prop :=
  ip_allocs w = Some p :: l /\ p ∉ frag_at <$> ipv4_fragments w.

Lemma reassemble_step w m f h p l :
  reassembles w m -> is_fragment f h -> allocates w p l ->
  exists w', ipv4_reassemble env (fr_packet f) w = Some (w', (fun d => assembled d.1 d.2) <$> (spec_step f m).2) /\
    reassembles w' (spec_step f m).1 /\
    (w' = w \/ ip_allocs w' = l /\ frag_at <$> ipv4_fragments w' ⊆ p :: (frag_at <$> ipv4_fragments w)).
Proof.
  intros [es He] Hf [Ha Hp]. pose proof Hf as [Hh Hlen Hk Ho Hm Hl Hb Hs]. unfold ipv4_reassemble, fr_packet.
  rewrite (iphdr_at_app _ _ _ Hh). cbn [mbind option_bind].
  rewrite (fragment_search w m h es He). cbn [mbind option_bind]. rewrite <- Hk, <- Ho.
  pose proof (find_entry w m es (fr_key f) He) as Hfind. unfold spec_step.
  destruct (List.find _ es) as [[q [k [hdr data]]]|]; cbn [fmap option_fmap option_map]; cbn [snd fst] in Hfind.
  - destruct Hfind as (es1 & es2 & -> & Hkey & ->). subst k. change (frag_offset (frag_of _)) with (zlen data).
    destruct (Z.eqb_spec (fr_offset f) (zlen data)) as [Eo|]; cbn [negb];
      [|exists w; split_and!; [done|by exists (es1 ++ (q, (fr_key f, (hdr, data))) :: es2)|by left]].
    destruct (Z.ltb_spec (zlen (fr_header f ++ fr_data f)) (header_len h)) as [Hlt|_]; [rewrite length_app in Hlt; lia|].
    rewrite Hlen, Nat2Z.id, drop_app_length. unfold ip_alloc. rewrite Ha. cbn iota.
    pose proof (en_ok _ _ _ He) as Hok. apply Forall_app in Hok as [_ [((h0 & Hh0 & _) & _ & Ht0) _]%Forall_cons]. cbn [fst snd] in Hh0, Ht0.
    assert (zlen data + zlen (fr_data f) < 2 ^ 18) as Hd.
    { rewrite length_app in Hs. pose proof (fragment_offset h). rewrite <- Eo, Ho. change (2 ^ 18) with 262144. lia. }
    rewrite (en_frags _ _ _ He), frag_locs. rewrite (extend_frag_of _ _ _ _ _ h0 Hh0 Hd). change (frag_at (frag_of _)) with q.
    change (ipv4_fragments (set_ip_allocs l w)) with (ipv4_fragments w). rewrite (en_frags _ _ _ He), replace_fragment by apply He.
    set (w1 := set_fragments _ (set_ip_allocs l w)).
    destruct (stop_some (ip_now w1) q (ip_timers w1) Ht0) as (s & -> & Hst). cbn [mbind option_bind].
    pose proof (extend_entries (set_ip_allocs l w) m es1 es2 q (fr_key f) hdr data (fr_data f) h0) as Hext.
    specialize (Hext ltac:(by apply (entries_timers w)) Hh0 Hd). fold w1 in Hext. rewrite Hm. destruct (Z.land (frags h) IP_MASK_MOREFRAGS =? 0); cbn [negb].
    + pose proof (delete_entries _ _ _ _ _ _ _ (Hext s Hst)) as Hdel. rewrite delete_insert_eq in Hdel.
      eexists. split; [done|]. split; [by exists (es1 ++ es2)|]. right. split; [done|].
      rewrite (en_frags _ _ _ Hdel), frag_locs, fmap_app, fmap_app, fmap_cons. set_solver.
    + destruct (restart_run (set_ip_timers s w1) q) as (s2 & -> & Hs2); [by apply Hst|]. cbn [mbind option_bind].
      assert (forall q, is_Some (tmr (ip_timers w) !! q) -> is_Some (tmr s2 !! q)) as Hs3 by (intros q' Hq'; by apply Hs2, Hst).
      eexists. split; [done|]. split; [eexists; by apply (Hext s2)|]. right. split; [done|].
      change (ipv4_fragments (set_ip_timers s2 _)) with (ipv4_fragments (set_ip_timers s2 w1)).
      rewrite (en_frags _ _ _ (Hext s2 Hs3)), frag_locs, !fmap_app, !fmap_cons. set_solver.
  - rewrite Hfind. destruct (Z.eqb_spec (fr_offset f) 0); cbn [negb];
      [|exists w; split_and!; [done|by exists es|by left]].
    destruct (new_fragment_run w m es f h p l He Hf Hfind Ha Hp) as (w' & E & Hr & Ha' & Hl'). unfold fr_packet in E. rewrite E.
    exists w'. split_and!; [done..|]. right. by rewrite Hl'.
Qed.

(** C20: reassembly refines the table of partial datagrams: a fragment that
    continues its datagram, or starts one, is appended, any other is
    dropped, and the last fragment removes the datagram from the table and
    returns it, with the header of its first fragment and its own length.
    Without memory a fragment is dropped. *)
Theorem reassemble_refines w m f h :
  reassembles w m -> is_fragment f h ->
  (forall p l, allocates w p l ->
    exists w', ipv4_reassemble env (fr_packet f) w = Some (w', (fun d => assembled d.1 d.2) <$> (spec_step f m).2) /\
      reassembles w' (spec_step f m).1) /\
  (head (ip_allocs w) = Some None ->
    exists w', ipv4_reassemble env (fr_packet f) w = Some (w', None) /\ reassembles w' m).
Proof.
  intros Hr Hf. split.
  - intros p l Ha. destruct (reassemble_step w m f h p l Hr Hf Ha) as (w' & H1 & H2 & _). by exists w'.
  - intros Hn. destruct (ip_allocs w) as [|[|] l] eqn:Ha; [done..|]. destruct Hr as [es He].
    pose proof Hf as [Hh Hlen Hk Ho Hm Hl Hb Hs]. unfold ipv4_reassemble, fr_packet.
    rewrite (iphdr_at_app _ _ _ Hh). cbn [mbind option_bind].
    rewrite (fragment_search w m h es He). cbn [mbind option_bind]. rewrite <- Ho.
    assert (reassembles (set_ip_allocs l w) m) by (exists es; by apply (entries_timers w)).
    destruct (frag_of <$> List.find _ es) as [g|]; destruct (fr_offset f =? _); cbn [negb]; try (exists w; split; [done|by exists es]);
      unfold new_fragment, ip_alloc; rewrite Ha; [|by eexists].
    destruct (Z.ltb_spec (zlen (fr_header f ++ fr_data f)) (header_len h)) as [Hlt|_]; [rewrite length_app in Hlt; lia|]. by eexists.
Qed.

(** ** Datagrams that arrive in order, between other fragments. *)
Fixpoint reassemble_all (fs : list fragment) w : option (ip_world N * list (list Z)) :=
  match fs with
  | [] => Some (w, [])
  | f :: fs =>
      '(w, r) ← ipv4_reassemble env (fr_packet f) w;
      '(w, rs) ← reassemble_all fs w;
      Some (w, match r with Some d => d :: rs | None => rs end)
  end.

(** The fragments complete the datagram [k], of which [data] is there. *)
Inductive completes (k : dg_key) : list Z -> list fragment -> list Z -> Prop :=
| completes_other f data fs payload :
    fr_key f <> k -> completes k data fs payload -> completes k data (f :: fs) payload
| completes_more f data fs payload :
    fr_key f = k -> fr_offset f = zlen data -> fr_more f = true ->
    completes k (data ++ fr_data f) fs payload -> completes k data (f :: fs) payload
| completes_last f data :
    fr_key f = k -> fr_offset f = zlen data -> fr_more f = false -> completes k data [f] (data ++ fr_data f).

(** Allocations that yield new addresses. *)
Record supply w (ps : list loc) : Prop := Supply {
  su_allocs : ip_allocs w = Some <$> ps;
  su_nodup : NoDup ps;
  su_fresh p : p ∈ ps -> p ∉ frag_at <$> ipv4_fragments w }.

Lemma supplied_step w m f h ps n :
  reassembles w m -> is_fragment f h -> supply w ps -> (S n <= length ps)%nat ->
  exists w' ps', ipv4_reassemble env (fr_packet f) w = Some (w', (fun d => assembled d.1 d.2) <$> (spec_step f m).2) /\
    reassembles w' (spec_step f m).1 /\ supply w' ps' /\ (n <= length ps')%nat.
Proof.
  intros Hr Hf [Ha Hnd Hfr] Hlen. destruct ps as [|p ps]; [simpl in Hlen; lia|]. apply NoDup_cons in Hnd as [Hp Hnd].
  destruct (reassemble_step w m f h p (Some <$> ps) Hr Hf) as (w' & E & Hr' & [->|[Ha' Hsub]]).
  - split; [done|]. apply Hfr. by left.
  - exists w, (p :: ps). split_and!; [done|done| |simpl in *; lia]. split; [done|by apply NoDup_cons|done].
  - exists w', ps. split_and!; [done|done| |simpl in *; lia]. split; [done|done|].
    intros q Hq Hin. apply Hsub in Hin. apply elem_of_cons in Hin as [->|Hin]; [done|]. apply (Hfr q); [by right|done].
Qed.

Lemma spec_step_other f m k : fr_key f <> k -> (spec_step f m).1 !! k = m !! k.
Proof.
  intros Hk. unfold spec_step. destruct (m !! fr_key f) as [[hdr data]|].
  - destruct (negb _); [done|]. destruct (fr_more f); cbn [fst]; [by rewrite lookup_insert_ne|by rewrite lookup_delete_ne].
  - destruct (_ =? 0); [|done]. cbn [fst]. by rewrite lookup_insert_ne.
Qed.

Lemma completes_run k hdr data fs payload :
  completes k data fs payload -> forall w m ps,
  reassembles w m -> Forall (fun f => exists h, is_fragment f h) fs -> supply w ps -> (length fs <= length ps)%nat ->
  m !! k = Some (hdr, data) ->
  exists w' rs, reassemble_all fs w = Some (w', rs) /\ last rs = Some (assembled hdr payload).
Proof.
  induction 1 as [f data fs payload Hne _ IH|f data fs payload Hk Ho Hm _ IH|f data Hk Ho Hm];
    intros w m ps Hr Hall Hs Hlen Hd; apply Forall_cons in Hall as [[h Hf] Hall];
    destruct (supplied_step w m f h ps (length fs) Hr Hf Hs Hlen) as (w' & ps' & E & Hr' & Hs' & Hlen') || 
    destruct (supplied_step w m f h ps 0 Hr Hf Hs Hlen) as (w' & ps' & E & Hr' & Hs' & Hlen');
    cbn [reassemble_all]; rewrite E; cbn [mbind option_bind].
  - destruct (IH w' _ ps' Hr' Hall Hs' Hlen') as (w2 & rs & -> & Hlast); [by rewrite spec_step_other|]. cbn [mbind option_bind].
    destruct (_ <$> _) as [d|]; eexists _, _; (split; [done|]); [|done]. rewrite last_cons. by rewrite Hlast.
  - unfold spec_step in *. subst k. rewrite Hd, Ho, Z.eqb_refl, Hm in *. cbn [negb fst snd fmap option_fmap option_map] in *.
    destruct (IH w' _ ps' Hr' Hall Hs' Hlen') as (w2 & rs & -> & Hlast); [apply lookup_insert_eq|]. by eexists _, _.
  - unfold spec_step in *. subst k. rewrite Hd, Ho, Z.eqb_refl, Hm. by eexists _, _.
Qed.

(** C28: a datagram whose fragments arrive in order is put together from
    them, whatever fragments of other datagrams arrive in between. *)
Theorem datagram_reassembled w m ps f fs payload :
  reassembles w m -> supply w ps -> (length (f :: fs) <= length ps)%nat ->
  Forall (fun f => exists h, is_fragment f h) (f :: fs) ->
  m !! fr_key f = None -> fr_offset f = 0 -> completes (fr_key f) (fr_data f) fs payload ->
  exists w' rs, reassemble_all (f :: fs) w = Some (w', rs) /\ last rs = Some (assembled (fr_header f) payload).
Proof.
  intros Hr Hs Hlen Hall Hn Ho Hc. apply Forall_cons in Hall as [[h Hf] Hall]. cbn [reassemble_all].
  destruct (supplied_step w m f h ps (length fs) Hr Hf Hs Hlen) as (w' & ps' & E & Hr' & Hs' & Hlen'). rewrite E. cbn [mbind option_bind].
  unfold spec_step in *. rewrite Hn, Ho in *. cbn [Z.eqb fst snd fmap option_fmap option_map] in *.
  destruct (completes_run _ (fr_header f) _ _ _ Hc w' _ ps' Hr' Hall Hs' Hlen') as (w2 & rs & -> & Hlast); [apply lookup_insert_eq|].
  by eexists _, _.
Qed.
End Reassembly.

(** ** Instances: a datagram in two fragments, and a fragment of another
    one in between. *)
Definition sample_header (id len frags : Z) : list Z := iphdr_bytes (Iphdr 69 0 len id frags 64 17 0 167772161 167772162).

Definition sample_fragment (id : Z) (n : nat) (off : Z) (more : bool) : fragment :=
  Frag (167772161, id) (8 * off) more (sample_header id (20 + Z.of_nat n) (off + (if more then 8192 else 0))) (replicate n id).

Lemma sample_first : is_fragment (sample_fragment 7 8 0 true) (Iphdr 69 0 28 7 8192 64 17 0 167772161 167772162).
Proof. split; [reflexivity..|by_decide|reflexivity]. Qed.

Lemma sample_other : is_fragment (sample_fragment 9 16 0 true) (Iphdr 69 0 36 9 8192 64 17 0 167772161 167772162).
Proof. split; [reflexivity..|by_decide|reflexivity]. Qed.

Lemma sample_last : is_fragment (sample_fragment 7 3 1 false) (Iphdr 69 0 23 7 1 64 17 0 167772161 167772162).
Proof. split; [reflexivity..|by_decide|reflexivity]. Qed.

Lemma quiet_reassembles l : reassembles (quiet_host l) ∅.
Proof. exists []. split; [done|done|apply NoDup_nil_2|apply NoDup_nil_2|done]. Qed.

Lemma reassemble_refines_witness :
  exists w', ipv4_reassemble log_ip_env (fr_packet (sample_fragment 7 8 0 true)) (quiet_host [3%positive]) = Some (w', None) /\
    reassembles w' (<[(167772161, 7) := (sample_header 7 28 8192, replicate 8 7)]> ∅).
Proof.
  destruct (reassemble_refines log_ip_env (quiet_host [3%positive]) ∅ _ _ (quiet_reassembles _) sample_first) as [H _].
  apply (H 3%positive []). split; [done|apply not_elem_of_nil].
Defined.

Lemma datagram_reassembled_witness :
  exists w' rs,
    reassemble_all log_ip_env [sample_fragment 7 8 0 true; sample_fragment 9 16 0 true; sample_fragment 7 3 1 false]
      (quiet_host [3; 4; 5]%positive) = Some (w', rs) /\
    last rs = Some (assembled (sample_header 7 28 8192) (replicate 8 7 ++ replicate 3 7)).
Proof.
  apply (datagram_reassembled log_ip_env (quiet_host [3; 4; 5]%positive) ∅ [3; 4; 5]%positive (sample_fragment 7 8 0 true)
    [sample_fragment 9 16 0 true; sample_fragment 7 3 1 false] (replicate 8 7 ++ replicate 3 7)).
  - apply quiet_reassembles.
  - split; [done|by_decide|intros; apply not_elem_of_nil].
  - simpl; lia.
  - repeat apply Forall_cons_2; [eexists; apply sample_first|eexists; apply sample_other|eexists; apply sample_last|apply Forall_nil_2].
  - done.
  - done.
  - apply completes_other; [done|]. by apply (completes_last _ (sample_fragment 7 3 1 false)).
Defined.
