(* ===== verification/IpPath.v ===== *)
(** * The path of a datagram: what IPv4 sends is what it receives, the
    choice of routes, and addresses in dotted-quad notation. *)
From S2P Require Import Prelude LinkedList Checksum Retry Strings Printf Ipv4.

(** ** Headers. *)
Record hdr_ok (h : iphdr) : Prop := HdrOk {
  ho_verhdrlen : is_byte (verhdrlen h);
  ho_service : is_byte (service h);
  ho_len : 0 <= ip_len h < 2 ^ 16;
  ho_ident : 0 <= ident h < 2 ^ 16;
  ho_frags : 0 <= frags h < 2 ^ 16;
  ho_ttl : is_byte (ttl h);
  ho_protocol : is_byte (protocol h);
  ho_chksum : 0 <= chksum h < 2 ^ 16;
  ho_src : 0 <= ip_src h < 2 ^ 32;
  ho_dest : 0 <= ip_dest h < 2 ^ 32 }.

Lemma iphdr_at_bytes h rest : hdr_ok h -> iphdr_at (iphdr_bytes h ++ rest) = Some h.
Proof.
  intros [_ _ Hl Hi Hf _ _ Hc Hs Hd]. destruct h as [v s len id fr t p c src dest]. cbn [ip_len ident frags chksum ip_src ip_dest] in *.
  unfold iphdr_bytes. cbn [verhdrlen service ip_len ident frags ttl protocol chksum ip_src ip_dest].
  pose proof (be_val_bytes 2 len) as E1. pose proof (be_val_bytes 2 id) as E2. pose proof (be_val_bytes 2 fr) as E3.
  pose proof (be_val_bytes 4 src) as E4. pose proof (be_val_bytes 4 dest) as E5.
  rewrite Z.mod_small in E1, E2, E3, E4, E5 by done.
  cbn [be_bytes] in E1, E2, E3, E4, E5. cbn [be_bytes app iphdr_at]. rewrite E1, E2, E3, E4, E5. do 2 f_equal. zdm.
Qed.

Lemma iphdr_bytes_ok h : hdr_ok h -> bytes_ok (iphdr_bytes h).
Proof.
  intros [Hv Hs Hl Hi Hf Ht Hp Hc Hsrc Hd]. unfold iphdr_bytes. repeat apply Forall_app_2; auto with wpxe;
    repeat apply Forall_cons_2; try done; try apply Forall_nil_2; unfold is_byte; zdm.
Qed.

Lemma iphdr_bytes_length h : length (iphdr_bytes h) = 20%nat.
Proof. done. Qed.

Lemma chksum_range d : bytes_ok d -> 0 <= tcpip_chksum d < 2 ^ 16.
Proof.
  intros Hd. unfold tcpip_chksum. rewrite continue_spec by (done || unfold TCPIP_EMPTY_CSUM; lia).
  pose proof (word_sum_nonneg _ Hd). pose proof (carry_range (65535 - TCPIP_EMPTY_CSUM + word_sum d)). unfold TCPIP_EMPTY_CSUM in *. lia.
Qed.

(** The checksum makes the sum over the header zero. *)
Lemma header_chksum h : hdr_ok h -> chksum h = 0 ->
  tcpip_chksum (iphdr_bytes (set_chksum (tcpip_chksum (iphdr_bytes h)) h)) = 0.
Proof.
  intros Hh Hc. pose proof (iphdr_bytes_ok h Hh) as Hb.
  set (a := [verhdrlen h; service h] ++ be_bytes 2 (ip_len h) ++ be_bytes 2 (ident h) ++ be_bytes 2 (frags h) ++ [ttl h; protocol h]).
  set (b := be_bytes 4 (ip_src h) ++ be_bytes 4 (ip_dest h)).
  assert (iphdr_bytes h = a ++ [0; 0] ++ b) as E by (unfold iphdr_bytes; by rewrite Hc).
  assert (iphdr_bytes (set_chksum (tcpip_chksum (iphdr_bytes h)) h) =
    a ++ [tcpip_chksum (iphdr_bytes h) mod 256; tcpip_chksum (iphdr_bytes h) / 256] ++ b) as -> by done.
  rewrite E in *. apply Forall_app in Hb as [Ha [_ Hb]%Forall_app]. by apply (chksum_fill a b).
Qed.

(** ** The transport checksum: filled in for the segment, completed with
    the pseudo header, and verified on the other side. *)
Lemma trans_csum_verifies a b ps :
  bytes_ok a -> bytes_ok b -> bytes_ok ps -> Z.even (zlen a) = true ->
  let csum := generic_tcpip_continue_chksum (tcpip_chksum (a ++ [0; 0] ++ b)) ps in
  generic_tcpip_continue_chksum (tcpip_chksum ps) (a ++ [csum mod 256; csum / 256] ++ b) = 0 /\ 0 <= csum < 2 ^ 16.
Proof.
  intros Ha Hb Hps He csum. assert (forall x y, is_byte x -> is_byte y -> bytes_ok (a ++ [x; y] ++ b)) as Hok.
  { intros. apply Forall_app_2; [done|]. simpl. by repeat (apply Forall_cons_2; [done|]). }
  assert (bytes_ok (a ++ [0; 0] ++ b)) as H0 by (apply Hok; unfold is_byte; lia).
  pose proof (word_sum_nonneg _ Ha). pose proof (word_sum_nonneg _ Hb). pose proof (word_sum_nonneg _ Hps).
  assert (tcpip_chksum (a ++ [0; 0] ++ b) = 65535 - carry (word_sum a + word_sum b)) as E0.
  { unfold tcpip_chksum, TCPIP_EMPTY_CSUM. rewrite continue_spec by (done || lia). rewrite word_sum_app by done. done. }
  assert (tcpip_chksum ps = 65535 - carry (word_sum ps)) as E1
    by (unfold tcpip_chksum, TCPIP_EMPTY_CSUM; rewrite continue_spec by (done || lia); done).
  pose proof (carry_range (word_sum a + word_sum b) ltac:(lia)). pose proof (carry_range (word_sum ps) ltac:(lia)).
  assert (csum = 65535 - carry (word_sum a + word_sum b + word_sum ps)) as Hc.
  { unfold csum. rewrite continue_spec, E0 by (done || rewrite E0; lia).
    replace (65535 - (65535 - carry (word_sum a + word_sum b))) with (carry (word_sum a + word_sum b)) by lia. rewrite carry_add by lia. done. }
  pose proof (carry_range (word_sum a + word_sum b + word_sum ps) ltac:(lia)). clearbody csum. split; [|lia].
  rewrite continue_spec, E1 by (apply Hok || rewrite ?E1; unfold is_byte; zdm).
  rewrite word_sum_app by done. cbn [app word_sum]. replace (csum mod 256 + 256 * (csum / 256)) with csum by zdm.
  replace (65535 - (65535 - carry (word_sum ps))) with (carry (word_sum ps)) by lia. rewrite carry_add by lia. subst csum.
  unfold carry in *. zcases; zdm.
Qed.

Lemma load16_at a b x : 0 <= x -> load16 (a ++ [x mod 256; x / 256] ++ b) (length a) = Some x.
Proof.
  intros Hx. unfold load16. rewrite (lookup_app_r a _ (length a)), Nat.sub_diag by lia.
  rewrite (lookup_app_r a _ (S (length a))), Nat.sub_succ_l, Nat.sub_diag by lia. simpl. f_equal. zdm.
Qed.

Lemma store16_at a b x y v : store16 (a ++ [x; y] ++ b) (length a) v = a ++ [v mod 256; v / 256] ++ b.
Proof.
  unfold store16. rewrite (insert_app_r_alt a _ (length a)), Nat.sub_diag by lia.
  by rewrite (insert_app_r_alt a _ (S (length a))), Nat.sub_succ_l, Nat.sub_diag by lia.
Qed.

(** ** Reception of a header that is in order. *)
Lemma check_header_ok h rest pad :
  hdr_ok h -> verhdrlen h = 69 -> tcpip_chksum (iphdr_bytes h) = 0 -> ip_len h = 20 + zlen rest ->
  check_header ((iphdr_bytes h ++ rest) ++ pad) = Some (Some (iphdr_bytes h ++ rest)).
Proof.
  intros Hh Hv Hc Hl. unfold check_header. rewrite <- (app_assoc _ rest).
  destruct (Z.ltb_spec (zlen (iphdr_bytes h ++ rest ++ pad)) IPHDR_LEN) as [Hlt|_];
    [rewrite length_app, iphdr_bytes_length in Hlt; unfold IPHDR_LEN in Hlt; lia|].
  rewrite (obind_some _ _ _ (iphdr_at_bytes h (rest ++ pad) Hh)). unfold header_len. rewrite Hv.
  change (Z.land 69 IP_MASK_HLEN * 4) with 20. change (negb (Z.land 69 IP_MASK_VER =? IP_VER)) with false. change (20 <? IPHDR_LEN) with false. cbn iota.
  rewrite (length_app (iphdr_bytes h)), iphdr_bytes_length. destruct (Z.ltb_spec (Z.of_nat (20 + length (rest ++ pad))) 20); [lia|].
  rewrite take_app_length' by done. rewrite Hc. change (ctrue 0) with false. cbn iota.
  destruct (Z.ltb_spec (ip_len h) 20); [lia|]. rewrite length_app. destruct (Z.ltb_spec (Z.of_nat (20 + (length rest + length pad))) (ip_len h)); [lia|].
  rewrite app_assoc, take_app_length'; [done|]. rewrite length_app, iphdr_bytes_length. lia.
Qed.

Section Path.
Context {N N' : Type} (env : ip_env N) (env' : ip_env N').

(** Whether a packet is for this host. *)
Definition accepts (netdev : loc) (flags dest : Z) (w : ip_world N') : bool :=
  ctrue (Z.land flags LL_MULTICAST) || negb (ipv4_has_any_addr netdev w) || ipv4_has_addr netdev dest w.

(** The header [ipv4_tx] makes, before its checksum. *)
Definition tx_header (ident_high : Z) (stats : Z * Z) (len proto src dest : Z) : iphdr :=
  Iphdr (Z.lor IP_VER (IPHDR_LEN / 4)) IP_TOS (IPHDR_LEN + len)
    (u16 (Z.lor (Z.lor (Z.shiftl ident_high 8) (Z.shiftl (Z.land stats.1 15) 4)) (Z.land stats.2 15))) 0 IP_TTL proto 0 src dest.

Lemma tx_header_ok ident_high stats len proto src dest :
  0 <= len -> 20 + len < 2 ^ 16 -> is_byte proto -> 0 <= src < 2 ^ 32 -> 0 <= dest < 2 ^ 32 -> hdr_ok (tx_header ident_high stats len proto src dest).
Proof. intros. split; cbn -[IPHDR_LEN]; try done; try (unfold is_byte, IPHDR_LEN; lia). apply wrap_range. lia. Qed.

Lemma set_chksum_ok h c : hdr_ok h -> 0 <= c < 2 ^ 16 -> hdr_ok (set_chksum c h).
Proof. intros [] ?. by split. Qed.

Lemma pshdr_chksum_run h rest csum :
  hdr_ok h -> verhdrlen h = 69 ->
  ipv4_pshdr_chksum (iphdr_bytes h ++ rest) csum =
    Some (generic_tcpip_continue_chksum csum (pseudo_header (ip_src h) (ip_dest h) (protocol h) (zlen rest))).
Proof.
  intros Hh Hv. unfold ipv4_pshdr_chksum. rewrite (obind_some _ _ _ (iphdr_at_bytes h rest Hh)).
  unfold header_len. rewrite Hv. change (Z.land 69 IP_MASK_HLEN * 4) with 20.
  assert (zlen (iphdr_bytes h ++ rest) - 20 = zlen rest) as -> by (rewrite length_app, iphdr_bytes_length; lia). reflexivity.
Qed.

(** The packet made of a segment. *)
Lemma fix_trans_run h a b csum :
  hdr_ok h -> verhdrlen h = 69 -> 0 <= csum ->
  let segment := a ++ [csum mod 256; csum / 256] ++ b in
  let csum' := generic_tcpip_continue_chksum csum (pseudo_header (ip_src h) (ip_dest h) (protocol h) (zlen segment)) in
  fix_trans_csum (iphdr_bytes h ++ segment) segment (Some (length a)) = Some (a ++ [csum' mod 256; csum' / 256] ++ b).
Proof.
  intros Hh Hv Hc segment csum'. unfold fix_trans_csum.
  rewrite (obind_some _ _ _ (load16_at a b csum Hc)), (obind_some _ _ _ (pshdr_chksum_run h segment csum Hh Hv)).
  f_equal. apply store16_at.
Qed.

Lemma packet_run ident_high stats a b csum proto src dest :
  0 <= csum -> 20 + (zlen a + 2 + zlen b) < 2 ^ 16 -> is_byte proto -> 0 <= src < 2 ^ 32 -> 0 <= dest < 2 ^ 32 ->
  let h := tx_header ident_high stats (zlen a + 2 + zlen b) proto src dest in
  let csum' := generic_tcpip_continue_chksum csum (pseudo_header src dest proto (zlen a + 2 + zlen b)) in
  ipv4_packet ident_high stats (a ++ [csum mod 256; csum / 256] ++ b) proto src dest (Some (length a)) =
    Some (iphdr_bytes (set_chksum (tcpip_chksum (iphdr_bytes h)) h) ++ a ++ [csum' mod 256; csum' / 256] ++ b).
Proof.
  intros Hc Hlen Hp Hs Hd h csum'.
  assert (zlen (a ++ [csum mod 256; csum / 256] ++ b) = zlen a + 2 + zlen b) as Hseg by (rewrite !length_app; simpl; lia).
  assert (hdr_ok h) as Hh by (apply tx_header_ok; done || lia).
  pose proof (fix_trans_run h a b csum Hh eq_refl Hc) as Hfix. cbn zeta in Hfix. rewrite Hseg in Hfix.
  change (pseudo_header (ip_src h) (ip_dest h) (protocol h)) with (pseudo_header src dest proto) in Hfix. fold csum' in Hfix.
  unfold ipv4_packet. rewrite Hseg, (wrap_small 16 (IPHDR_LEN + _)) by (unfold IPHDR_LEN; lia).
  fold (tx_header ident_high stats (zlen a + 2 + zlen b) proto src dest). fold h. by rewrite (obind_some _ _ _ Hfix).
Qed.

(** Reception of a datagram that is not a fragment. *)
Lemma rx_run h rest pad netdev flags (w : ip_world N') :
  hdr_ok h -> verhdrlen h = 69 -> tcpip_chksum (iphdr_bytes h) = 0 -> ip_len h = 20 + zlen rest -> frags h = 0 ->
  accepts netdev flags (ip_dest h) w = true ->
  ipv4_rx env' ((iphdr_bytes h ++ rest) ++ pad) netdev flags w =
    Some (tcpip_rx (fun _ w => w) (tcpip_protocols env')
      (Datagram rest (ip_src h) (ip_dest h) (tcpip_chksum (pseudo_header (ip_src h) (ip_dest h) (protocol h) (zlen rest)))) (protocol h) w).
Proof.
  intros Hh Hv Hc Hl Hf Hacc. unfold ipv4_rx. rewrite (obind_some _ _ _ (check_header_ok h rest pad Hh Hv Hc Hl)).
  rewrite (obind_some _ _ _ (iphdr_at_bytes h rest Hh)), Hf. change (ctrue (Z.land 0 _)) with false.
  unfold accepts in Hacc. assert (negb (ctrue (Z.land flags LL_MULTICAST)) && ipv4_has_any_addr netdev w && negb (ipv4_has_addr netdev (ip_dest h) w) = false) as ->
    by (destruct (ctrue _), (ipv4_has_any_addr netdev w), (ipv4_has_addr netdev (ip_dest h) w); done).
  cbn iota. unfold ipv4_deliver.
  rewrite (obind_some _ _ _ (iphdr_at_bytes h rest Hh)), (obind_some _ _ _ (pshdr_chksum_run h rest _ Hh Hv)). unfold header_len. rewrite Hv. change (Z.land 69 IP_MASK_HLEN * 4) with 20.
  rewrite length_app, iphdr_bytes_length. destruct (Z.ltb_spec (Z.of_nat (20 + length rest)) 20); [lia|].
  rewrite (drop_app_length' (iphdr_bytes h) rest (Z.to_nat 20) eq_refl). unfold tcpip_chksum. reflexivity.
Qed.

(** The path of a segment. *)
Lemma datagram_path a b proto src dest nd r hop w :
  bytes_ok a -> bytes_ok b -> Z.even (zlen a) = true -> 20 + (zlen a + 2 + zlen b) < 2 ^ 16 -> is_byte proto ->
  0 <= dest < INADDR_BROADCAST -> IN_MULTICAST dest = false ->
  ipv4_route env dest w = Some (r, hop) -> 0 <= mr_address r < 2 ^ 32 ->
  let csum := tcpip_chksum (a ++ [0; 0] ++ b) in
  exists packet csum' pshdr_csum,
    ipv4_tx env (a ++ [csum mod 256; csum / 256] ++ b) proto src dest nd (Some (length a)) w =
      Some (ipv4_hand_off env packet (mr_netdev r) hop (mr_netmask r) (mr_address r)
        (set_next_ident_high (u8 (next_ident_high w + 1)) w)) /\
    (forall netdev flags pad w', accepts netdev flags dest w' = true ->
      ipv4_rx env' (packet ++ pad) netdev flags w' =
      Some (tcpip_rx (fun _ w => w) (tcpip_protocols env')
        (Datagram (a ++ [csum' mod 256; csum' / 256] ++ b) (mr_address r) dest pshdr_csum) proto w')) /\
    generic_tcpip_continue_chksum pshdr_csum (a ++ [csum' mod 256; csum' / 256] ++ b) = 0.
Proof.
  intros Ha Hb He Hlen Hp Hd Hmc Hroute Hsrc csum. assert (is_byte 0) as Hz by (unfold is_byte; lia).
  set (len := zlen a + 2 + zlen b) in *. set (ps := pseudo_header (mr_address r) dest proto len).
  assert (bytes_ok ps) as Hps by (unfold ps, pseudo_header; repeat apply Forall_app_2; first [apply be_bytes_ok|by repeat apply Forall_cons_2]).
  assert (Hc0 : 0 <= csum < 2 ^ 16) by (apply chksum_range, Forall_app_2; [done|]; by repeat apply Forall_cons_2).
  destruct (trans_csum_verifies a b ps Ha Hb Hps He) as [Hver Hcsum']. fold csum in Hver, Hcsum'.
  set (csum' := generic_tcpip_continue_chksum csum ps) in *. set (segment' := a ++ [csum' mod 256; csum' / 256] ++ b) in *.
  assert (zlen segment' = len) as Hseg' by (unfold segment', len; rewrite !length_app; simpl; lia).
  set (h := tx_header (u8 (next_ident_high w + 1)) (rx_stats env (mr_netdev r) (ip_net w)) len proto (mr_address r) dest).
  assert (hdr_ok h) as Hh by (apply tx_header_ok; unfold INADDR_BROADCAST, len in *; lia || done).
  pose proof (chksum_range _ (iphdr_bytes_ok _ Hh)) as Hhc.
  exists (iphdr_bytes (set_chksum (tcpip_chksum (iphdr_bytes h)) h) ++ segment'), csum', (tcpip_chksum ps). split_and!; [| |done].
  - unfold ipv4_tx. destruct (Z.eqb_spec dest INADDR_BROADCAST); [lia|]. rewrite Hmc, Hroute. cbn [negb andb].
    rewrite packet_run by (done || lia || unfold INADDR_BROADCAST in *; lia). reflexivity.
  - intros netdev flags pad w' Hacc. pose proof (rx_run (set_chksum (tcpip_chksum (iphdr_bytes h)) h) segment' pad netdev flags w') as Hrx.
    rewrite Hrx; [|by apply set_chksum_ok|done|by apply header_chksum|by rewrite Hseg'|done|done].
    rewrite Hseg'. reflexivity.
Qed.

(** C19: a transport segment arrives as it was sent.  What [ipv4_tx] hands to
    the link layer for a destination it has a route to is accepted by
    [ipv4_rx] of a host with that address, whatever the link layer pads it
    with.  The transport layer there gets the segment, the protocol, the
    address of the route as the source and the destination, and its
    checksum test with the pseudo header succeeds. *)
Theorem datagram_arrives a b proto dest nd r hop w netdev flags pad w' :
  bytes_ok a -> bytes_ok b -> Z.even (zlen a) = true -> 20 + (zlen a + 2 + zlen b) < 2 ^ 16 -> is_byte proto ->
  0 <= dest < INADDR_BROADCAST -> IN_MULTICAST dest = false ->
  ipv4_route env dest w = Some (r, hop) -> 0 <= mr_address r < 2 ^ 32 ->
  accepts netdev flags dest w' = true ->
  let csum := tcpip_chksum (a ++ [0; 0] ++ b) in
  exists packet csum' pshdr_csum,
    ipv4_tx env (a ++ [csum mod 256; csum / 256] ++ b) proto None dest nd (Some (length a)) w =
      Some (ipv4_hand_off env packet (mr_netdev r) hop (mr_netmask r) (mr_address r)
        (set_next_ident_high (u8 (next_ident_high w + 1)) w)) /\
    ipv4_rx env' (packet ++ pad) netdev flags w' =
      Some (tcpip_rx (fun _ w => w) (tcpip_protocols env')
        (Datagram (a ++ [csum' mod 256; csum' / 256] ++ b) (mr_address r) dest pshdr_csum) proto w') /\
    generic_tcpip_continue_chksum pshdr_csum (a ++ [csum' mod 256; csum' / 256] ++ b) = 0.
Proof.
  intros Ha Hb He Hlen Hp Hd Hmc Hroute Hsrc Hacc csum.
  destruct (datagram_path a b proto None dest nd r hop w Ha Hb He Hlen Hp Hd Hmc Hroute Hsrc) as (packet & csum' & ps & Etx & Erx & Ever).
  exists packet, csum', ps. split_and!; [exact Etx|by apply Erx|exact Ever].
Qed.
End Path.

(** ** Dotted-quad notation. *)
Definition decimal (b : Z) : list Z := format_decimal b 0 0.

Lemma decimal_byte b : is_byte b -> numeral 10 b (decimal b) /\ (length (decimal b) <= 3)%nat.
Proof.
  intros Hb. split.
  - unfold decimal, format_decimal. destruct (Z.ltb_spec b 0); [unfold is_byte in Hb; lia|]. cbn [andb].
    destruct (decimal_loop_numeral 10 b []) as (l & E & Hl); [lia|unfold is_byte in Hb; change (10 ^ Z.of_nat 10) with 10000000000; lia|].
    rewrite E, app_nil_r. unfold pad_to. by replace (Z.to_nat (0 - zlen l)) with 0%nat by lia.
  - apply (small_forall (fun b => (length (decimal b) <= 3)%nat) 256); [vm_compute; reflexivity|exact Hb].
Qed.

Lemma vcprintf_decimal fuel fmt b args :
  is_byte b -> vcprintf (S fuel) (37 :: 100 :: fmt) (ArgInt b :: args) = app (decimal b) <$> vcprintf fuel fmt args.
Proof.
  intros Hb. destruct (decimal_byte b Hb) as [_ Hl].
  assert (convert 100 0 0 INT_LEN (ArgInt b :: args) = Some (decimal b, args)) as Hc.
  { change (convert 100 0 0 INT_LEN (ArgInt b :: args)) with (s ← in_tmp (format_decimal (s32 b) 0 0); Some (s, args)).
    unfold is_byte in Hb. rewrite s32_id by lia. fold (decimal b). unfold in_tmp, TMP_ROOM.
    destruct (Z.leb_spec (zlen (decimal b)) 31); [done|lia]. }
  change (vcprintf (S fuel) (37 :: 100 :: fmt) (ArgInt b :: args)) with
    ('(out, args) ← convert 100 0 0 INT_LEN (ArgInt b :: args); app out <$> vcprintf fuel fmt args).
  by rewrite (obind_some _ _ _ Hc).
Qed.

Lemma vcprintf_char fuel c fmt args : c <> 37 -> vcprintf (S fuel) (c :: fmt) args = cons c <$> vcprintf fuel fmt args.
Proof. intros Hc. cbn [vcprintf]. by destruct (Z.eqb_spec c 37). Qed.

Definition dotted (b0 b1 b2 b3 : Z) : list Z := decimal b0 ++ 46 :: decimal b1 ++ 46 :: decimal b2 ++ 46 :: decimal b3.

Lemma inet_ntoa_run addr : exists b0 b1 b2 b3,
  be_bytes 4 addr = [b0; b1; b2; b3] /\ is_byte b0 /\ is_byte b1 /\ is_byte b2 /\ is_byte b3 /\
  inet_ntoa addr = Some (dotted b0 b1 b2 b3).
Proof.
  pose proof (be_bytes_ok 4 addr) as Hb. unfold inet_ntoa. destruct (be_bytes 4 addr) as [|b0 [|b1 [|b2 [|b3 [|]]]]] eqn:E;
    try (apply (f_equal length) in E; rewrite be_bytes_length in E; discriminate).
  unfold bytes_ok in Hb. repeat match goal with H : Forall is_byte (_ :: _) |- _ => apply Forall_cons in H as [? H] end.
  exists b0, b1, b2, b3. do 5 (split; [done|]).
  change (cstr "%d.%d.%d.%d") with [37; 100; 46; 37; 100; 46; 37; 100; 46; 37; 100]. cbn [fmap list_fmap length].
  repeat first [rewrite vcprintf_decimal by done|rewrite vcprintf_char by done].
  cbn [vcprintf fmap option_fmap option_map]. by rewrite app_nil_r.
Qed.

(** ** Reading it back. *)
Lemma aton_step n b rest ip :
  is_byte b -> (match n with O => rest = [] | _ => exists l, rest = 46 :: l end) ->
  aton_loop (S n) (decimal b ++ rest) ip =
    aton_loop n (match n with O => rest | _ => tail rest end) (u32 (Z.lor (Z.shiftl ip 8) b)).
Proof.
  intros Hb Hr. destruct (decimal_byte b Hb) as [Hn _]. cbn [aton_loop]. unfold strtoul.
  assert (10 <= charval (deref rest)) as Hd by (destruct n; [subst rest|destruct Hr as [l ->]]; vm_compute; discriminate).
  rewrite (numeral_read 32 10 b (decimal b) rest) by (done || lia). unfold is_byte in Hb. rewrite wrap_small by lia.
  destruct (Nat.eqb_spec (length rest) (length (decimal b ++ rest))) as [E|_].
  { rewrite length_app in E. destruct Hn as [Hne _]. destruct (decimal b); [done|simpl in E; lia]. }
  destruct (Z.ltb_spec 255 b); [lia|]. cbn [orb]. destruct n; [done|]. destruct Hr as [l ->]. done.
Qed.

Lemma aton_acc ip b : 0 <= ip < 2 ^ 24 -> is_byte b -> u32 (Z.lor (Z.shiftl ip 8) b) = ip * 256 + b.
Proof. intros Hi Hb. rewrite lor_byte by (done || lia). unfold is_byte in Hb. apply wrap_small. lia. Qed.

(** An address printed in dotted-quad notation is read back as the same
    address, and fits into the buffer of [inet_ntoa]. *)
Theorem inet_aton_ntoa addr :
  0 <= addr < 2 ^ 32 -> exists s, inet_ntoa addr = Some s /\ inet_aton s = Some addr /\ zlen s <= 15.
Proof.
  intros Ha. destruct (inet_ntoa_run addr) as (b0 & b1 & b2 & b3 & E & H0 & H1 & H2 & H3 & ->).
  exists (dotted b0 b1 b2 b3). split_and!; [done| |].
  - unfold inet_aton, dotted. rewrite aton_step by (done || by eexists). cbn [tail]. rewrite aton_step by (done || by eexists). cbn [tail].
    rewrite aton_step by (done || by eexists). cbn [tail]. rewrite <- (app_nil_r (decimal b3)), aton_step by done.
    cbn [aton_loop mbind option_bind deref Z.eqb]. f_equal. pose proof (be_val_bytes 4 addr) as Hv. rewrite E in Hv.
    change (8 * Z.of_nat 4) with 32 in Hv. rewrite Z.mod_small in Hv by done. rewrite <- Hv. cbn [be_val length].
    rewrite (aton_acc 0 b0) by (done || lia). unfold is_byte in *.
    rewrite (aton_acc (0 * 256 + b0) b1), (aton_acc ((0 * 256 + b0) * 256 + b1) b2), (aton_acc (((0 * 256 + b0) * 256 + b1) * 256 + b2) b3) by (unfold is_byte; lia).
    lia.
  - unfold dotted. rewrite !length_app, !length_cons, !length_app, !length_cons.
    destruct (decimal_byte b0 H0), (decimal_byte b1 H1), (decimal_byte b2 H2), (decimal_byte b3 H3).
    rewrite !length_app, !length_cons. lia.
Qed.

(** ** Routes.  Routes without a gateway come before those with one. *)
Definition direct_first (rs : list ipv4_miniroute) : Prop :=
  exists l1 l2, rs = l1 ++ l2 /\ Forall (fun r => mr_gateway r = 0) l1 /\ Forall (fun r => mr_gateway r <> 0) l2.

Section Routes.
Context {N : Type} (env : ip_env N).
Implicit Type w : ip_world N.

Lemma add_route_run nd a m g w w' r :
  add_ipv4_miniroute nd a m g w = (w', Some r) ->
  ip_net w' = ip_net w /\ r = Miniroute (mr_at r) nd a m g /\
  (ipv4_miniroutes w' = r :: ipv4_miniroutes w /\ g = 0 \/ ipv4_miniroutes w' = ipv4_miniroutes w ++ [r] /\ g <> 0).
Proof.
  unfold add_ipv4_miniroute, ip_alloc. destruct (ip_allocs w) as [|[p|] l]; [done| |done].
  unfold ctrue. destruct (Z.eqb_spec g 0); intros [= <- <-]; (split_and!; [done|done|]); [by left|by right].
Qed.

Lemma add_route_none nd a m g w w' :
  add_ipv4_miniroute nd a m g w = (w', None) -> ipv4_miniroutes w' = ipv4_miniroutes w /\ ip_net w' = ip_net w.
Proof. unfold add_ipv4_miniroute, ip_alloc. by destruct (ip_allocs w) as [|[p|] l]; intros [= <-]. Qed.

Lemma add_direct_first nd a m g w w' r :
  add_ipv4_miniroute nd a m g w = (w', Some r) -> direct_first (ipv4_miniroutes w) -> direct_first (ipv4_miniroutes w').
Proof.
  intros (_ & Hr & H)%add_route_run (l1 & l2 & E & H1 & H2). rewrite E in H. destruct H as [[-> Hg]|[-> Hg]].
  - exists (r :: l1), l2. split_and!; [done| |done]. constructor; [by rewrite Hr|done].
  - exists l1, (l2 ++ [r]). split_and!; [by rewrite app_assoc|done|]. apply Forall_app_2; [done|]. constructor; [by rewrite Hr|done].
Qed.

(** A route that belongs to a device with these settings. *)
Definition configured (n : N) (r : ipv4_miniroute) : Prop :=
  let s := netdev_settings env (mr_netdev r) n in
  mr_netdev r ∈ netdevs env n /\ mr_address r = set_ip s /\ set_ip s <> 0 /\ mr_gateway r = set_gateway s /\
  mr_netmask r = if set_netmask s =? 0 then class_netmask (set_ip s) else set_netmask s.

Lemma create_loop_run devs w w' rc :
  create_loop env devs w = (w', rc) -> devs ⊆ netdevs env (ip_net w) ->
  direct_first (ipv4_miniroutes w) -> Forall (configured (ip_net w)) (ipv4_miniroutes w) ->
  direct_first (ipv4_miniroutes w') /\ Forall (configured (ip_net w)) (ipv4_miniroutes w') /\ ip_net w' = ip_net w /\
  ipv4_miniroutes w ⊆ ipv4_miniroutes w' /\
  (rc = RC_OK -> forall nd, nd ∈ devs -> set_ip (netdev_settings env nd (ip_net w)) <> 0 ->
     exists r, r ∈ ipv4_miniroutes w' /\ mr_netdev r = nd).
Proof.
  revert w. induction devs as [|nd devs IH]; intros w; cbn [create_loop].
  { intros [= <- <-] _ ? ?. split_and!; [done..|]. intros _ nd ?%not_elem_of_nil. done. }
  intros E Hsub Hdf Hc. destruct (Z.eqb_spec (set_ip (netdev_settings env nd (ip_net w))) 0) as [Hz|Hz].
  - destruct (IH w E) as (H1 & H2 & H3 & H4 & H5); [set_solver|done..|]. split_and!; [done..|].
    intros Hrc nd' Hnd Hip. apply elem_of_cons in Hnd as [->|Hnd]; [done|]. by apply H5.
  - destruct (add_ipv4_miniroute _ _ _ _ w) as [w1 [r|]] eqn:Ea.
    + pose proof (add_direct_first _ _ _ _ _ _ _ Ea Hdf) as Hdf1. apply add_route_run in Ea as (Hn & Hr & Hrs).
      assert (configured (ip_net w) r) as Hcr by (rewrite Hr; unfold configured; cbn; split_and!; [set_solver|done..]).
      assert (forall q, q ∈ ipv4_miniroutes w1 <-> q = r \/ q ∈ ipv4_miniroutes w) as Hin by (destruct Hrs as [[-> _]|[-> _]]; set_solver).
      destruct (IH w1 E) as (H1 & H2 & H3 & H4 & H5); [rewrite Hn; set_solver|done| |].
      { rewrite Hn. rewrite Forall_forall in Hc |- *. intros q [->|Hq]%Hin; [done|by apply Hc]. }
      rewrite Hn in *. split_and!; [done..|intros q Hq; apply H4, Hin; by right|].
      intros Hrc nd' Hnd Hip. apply elem_of_cons in Hnd as [->|Hnd]; [|by apply H5].
      exists r. split; [apply H4, Hin; by left|]. by rewrite Hr.
    + injection E as <- <-. apply add_route_none in Ea as [-> ->]. by split_and!.
Qed.

Lemma del_routes_run l w :
  let w' := fold_left (fun w r => del_ipv4_miniroute r w) l w in
  ipv4_miniroutes w' = filter (fun r => mr_at r ∉ mr_at <$> l) (ipv4_miniroutes w) /\ ip_net w' = ip_net w.
Proof.
  revert w. induction l as [|r l IH]; intros w; cbn [fold_left].
  - split; [|done]. symmetry. apply filter_all, Forall_forall. intros q _. apply not_elem_of_nil.
  - destruct (IH (del_ipv4_miniroute r w)) as [-> ->]. split; [|done].
    change (ipv4_miniroutes (del_ipv4_miniroute r w)) with (filter (fun q => mr_at q <> mr_at r) (ipv4_miniroutes w)).
    rewrite list_filter_filter. apply list_filter_iff.
    intros q. rewrite fmap_cons, not_elem_of_cons. tauto.
Qed.

(** A subnet on a device is reached without a gateway. *)
Definition on_link (n : N) (dest : Z) (r : ipv4_miniroute) : Prop :=
  netdev_is_open env (mr_netdev r) n = true /\ mr_gateway r = 0 /\ Z.land (Z.lxor dest (mr_address r)) (mr_netmask r) = 0.

Lemma route_direct n dest rs r :
  direct_first rs -> r ∈ rs -> on_link n dest r -> exists r', route_loop env n rs dest = Some (r', dest) /\ on_link n dest r'.
Proof.
  intros (l1 & l2 & -> & H1 & H2) Hr (Ho & Hg & Hl). apply elem_of_app in Hr as [Hr|Hr];
    [|rewrite Forall_forall in H2; by apply H2 in Hr].
  induction H1 as [|q l1 Hq H1 IH]; [by apply not_elem_of_nil in Hr|]. cbn [app route_loop]. rewrite Hq. change (ctrue 0) with false.
  destruct (netdev_is_open env (mr_netdev q) n) eqn:Eo, (Z.eqb_spec (Z.land (Z.lxor dest (mr_address q)) (mr_netmask q)) 0) as [El|El]; cbn [negb orb];
    try (apply IH; apply elem_of_cons in Hr as [->|Hr]; congruence). by exists q.
Qed.

(** The routes made of the settings: every configured device gets one
    unless memory runs out, with the address, gateway and netmask of its
    settings or the netmask of its class; and a destination in the subnet
    of an open device without gateway is always reached directly. *)
Theorem routes_created w w' rc :
  ipv4_create_routes env w = (w', rc) ->
  Forall (configured (ip_net w)) (ipv4_miniroutes w') /\
  (rc = RC_OK -> forall nd, nd ∈ netdevs env (ip_net w) -> set_ip (netdev_settings env nd (ip_net w)) <> 0 ->
     exists r, r ∈ ipv4_miniroutes w' /\ mr_netdev r = nd) /\
  (forall r dest, r ∈ ipv4_miniroutes w' -> on_link (ip_net w') dest r ->
     exists r', ipv4_route env dest w' = Some (r', dest) /\ on_link (ip_net w') dest r').
Proof.
  unfold ipv4_create_routes. destruct (del_routes_run (ipv4_miniroutes w) w) as [Hd Hn].
  set (w0 := fold_left _ (ipv4_miniroutes w) w) in *. assert (ipv4_miniroutes w0 = []) as Hnil.
  { rewrite Hd. apply filter_none, Forall_forall. intros r Hr Hno. by apply Hno, list_elem_of_fmap_2. }
  intros E. rewrite <- Hn. apply create_loop_run in E as (H1 & H2 & _ & _ & H5); [|done|rewrite Hnil; by exists [], []|by rewrite Hnil].
  split_and!; [done|done|]. intros r dest Hr Hlink. by apply (route_direct _ _ _ r).
Qed.
End Routes.

(** ** Instances: a host 10.0.0.1/24 with one device. *)
Definition routed_host : ip_world (list (list Z * loc)) :=
  set_miniroutes [Miniroute 2 1 167772161 4294967040 0] (quiet_host []).

Lemma datagram_arrives_witness :
  let csum := tcpip_chksum ([1; 2] ++ [0; 0] ++ [3]) in
  exists packet csum' pshdr_csum,
    ipv4_tx log_ip_env ([1; 2] ++ [csum mod 256; csum / 256] ++ [3]) 17 None 167772162 None (Some 2%nat) routed_host =
      Some (ipv4_hand_off log_ip_env packet 1%positive 167772162 4294967040 167772161 (set_next_ident_high 1 routed_host)) /\
    ipv4_rx log_ip_env (packet ++ [0; 0; 0]) 1%positive 0 (quiet_host []) =
      Some (quiet_host [], RC_ERR EPROTONOSUPPORT) /\
    generic_tcpip_continue_chksum pshdr_csum ([1; 2] ++ [csum' mod 256; csum' / 256] ++ [3]) = 0.
Proof.
  apply (datagram_arrives log_ip_env log_ip_env [1; 2] [3] 17 167772162 None (Miniroute 2 1 167772161 4294967040 0) 167772162
    routed_host 1%positive 0 [0; 0; 0] (quiet_host [])); try reflexivity; try by_decide.
Defined.

Lemma inet_aton_ntoa_witness : exists s, inet_ntoa 3232236555 = Some s /\ inet_aton s = Some 3232236555 /\ zlen s <= 15.
Proof. apply (inet_aton_ntoa 3232236555). lia. Defined.

(** The device 1 with the address 10.0.0.1, and no netmask or gateway. *)
Definition one_device_env : ip_env unit :=
  IpEnv 18 (fun _ _ => true) (fun _ _ => (0, 0)) (fun _ => []) (fun _ _ => inl []) (fun _ _ _ n => (n, RC_OK)) (fun _ _ _ _ n => (n, RC_OK))
    [] (fun _ => [1%positive]) (fun _ _ => Settings 167772161 0 0).

Lemma routes_created_witness :
  let w := (ipv4_create_routes one_device_env (IpWorld 0 [] [] (Timers [] ∅ (Refs {[1%positive := 0]} [])) 0 [Some 2%positive] tt)).1 in
  exists r', ipv4_route one_device_env 167772162 w = Some (r', 167772162).
Proof.
  destruct (routes_created one_device_env (IpWorld 0 [] [] (Timers [] ∅ (Refs {[1%positive := 0]} [])) 0 [Some 2%positive] tt) _ _
    (surjective_pairing _)) as (_ & _ & H).
  destruct (H (Miniroute 2 1 167772161 4278190080 0) 167772162) as (r' & E & _); [by left|by split_and!|]. by exists r'.
Defined.
