(* ===== verification/Process.v ===== *)
(** * Processes: src/src/core/process.c, src/src/include/ipxe/process.h.

    The run queue is the abstract sequence that the theorems of [LinkedList]
    justify; a process is running when it is linked into it.  What the
    [step] method of an object does besides starting and stopping processes
    is an argument. *)
From S2P Require Import Prelude LinkedList Retry.

Record process := Proc {
  pr_refcnt : option loc;
  pr_reschedule : bool }.

Record sched (St : Type) := Sched {
  run_queue : list loc;
  pr_refs : refs;
  pr_state : St }.
Arguments Sched {St}.
Arguments run_queue {St}.
Arguments pr_refs {St}.
Arguments pr_state {St}.

(** What a method does to the run queue, in order. *)
Inductive sched_op :=
| Add (p : loc)
| Del (p : loc).

Section Process.
Context {St : Type}.
Variable desc : loc -> process.
Variable method : loc -> St -> St * list sched_op.
Implicit Types (s : sched St) (p q : loc).

Definition process_running p s : bool := bool_decide (p ∈ run_queue s).

Definition process_add p s : sched St :=
  if process_running p s then s
  else Sched (run_queue s ++ [p]) (ref_get (pr_refcnt (desc p)) (pr_refs s)) (pr_state s).

Definition process_del p s : sched St :=
  if process_running p s
  then Sched (unlink p (run_queue s)) (ref_put (pr_refcnt (desc p)) (pr_refs s)) (pr_state s)
  else s.

Definition sched_do (o : sched_op) s : sched St :=
  match o with
  | Add p => process_add p s
  | Del p => process_del p s
  end.

(** The first process of the queue is moved to its end, or taken out, and
    then executed. *)
Definition step s : sched St :=
  match run_queue s with
  | [] => s
  | p :: _ =>
      let s := Sched (run_queue s) (ref_get (pr_refcnt (desc p)) (pr_refs s)) (pr_state s) in
      let s := if pr_reschedule (desc p)
               then Sched (unlink p (run_queue s) ++ [p]) (pr_refs s) (pr_state s)
               else process_del p s in
      let '(st, ops) := method p (pr_state s) in
      let s := fold_left (fun s o => sched_do o s) ops (Sched (run_queue s) (pr_refs s) st) in
      Sched (run_queue s) (ref_put (pr_refcnt (desc p)) (pr_refs s)) (pr_state s)
  end.

(** [init_processes], with the table of permanent processes. *)
Definition init_processes (PERMANENT_PROCESSES : list loc) s : sched St :=
  fold_left (fun s p => process_add p s) PERMANENT_PROCESSES s.

(** ** The queue holds each process once. *)
Lemma unlink_head p l : NoDup (p :: l) -> unlink p (p :: l) = l.
Proof.
  intros [Hp _]%NoDup_cons. unfold unlink. rewrite filter_cons_False by (by intros H). by apply unlink_absent.
Qed.

Lemma do_nodup o s : NoDup (run_queue s) -> NoDup (run_queue (sched_do o s)).
Proof.
  intros H. destruct o as [p|p]; simpl; unfold process_add, process_del, process_running;
    destruct (bool_decide_reflect (p ∈ run_queue s)); simpl; [done| |by apply unlink_nodup|done].
  apply NoDup_app. split_and!; [done| |apply NoDup_singleton]. intros q Hq ->%list_elem_of_singleton. done.
Qed.

Lemma dos_nodup ops s : NoDup (run_queue s) -> NoDup (run_queue (fold_left (fun s o => sched_do o s) ops s)).
Proof. revert s. induction ops as [|o ops IH]; intros s H; simpl; [done|]. by apply IH, do_nodup. Qed.

(** The queue a step works on after the head is moved or removed. *)
Lemma step_queue s p l :
  run_queue s = p :: l -> NoDup (run_queue s) ->
  exists s0, run_queue s0 = (if pr_reschedule (desc p) then l ++ [p] else l) /\
    run_queue (step s) = run_queue (fold_left (fun s o => sched_do o s) (method p (pr_state s)).2 s0).
Proof.
  intros E Hnd. unfold step. rewrite E in *. cbn [pr_state run_queue].
  unfold process_del, process_running. cbn [run_queue]. rewrite bool_decide_eq_true_2 by by left. rewrite unlink_head by done.
  destruct (pr_reschedule (desc p)); cbn [pr_state run_queue pr_refs];
    destruct (method p (pr_state s)) as [st ops]; cbn [snd run_queue]; eexists; (split; [|reflexivity]); done.
Qed.

Lemma step_nodup s : NoDup (run_queue s) -> NoDup (run_queue (step s)).
Proof.
  intros H. destruct (run_queue s) as [|p l] eqn:E; [unfold step; rewrite E; by rewrite E|]. rewrite <- E in H.
  destruct (step_queue s p l E H) as (s0 & E0 & ->). apply dos_nodup. rewrite E0. rewrite E in H.
  destruct (pr_reschedule (desc p)); [|by apply NoDup_cons in H as []].
  apply NoDup_cons in H as [Hp Hl]. apply NoDup_app. split_and!; [done| |apply NoDup_singleton]. intros q Hq ->%list_elem_of_singleton. done.
Qed.

(** ** Fairness.  The processes in front of [p] are at most [n]. *)
Definition ahead (n : nat) p (l : list loc) : Prop := exists i, (i <= n)%nat /\ l !! i = Some p.

Lemma ahead_do n p o s : o <> Del p -> ahead n p (run_queue s) -> ahead n p (run_queue (sched_do o s)).
Proof.
  intros Ho (i & Hi & Hp). destruct o as [q|q]; simpl; unfold process_add, process_del, process_running;
    destruct (bool_decide_reflect (q ∈ run_queue s)); try (by exists i); simpl.
  - exists i. split; [done|]. by apply lookup_app_l_Some.
  - assert (q <> p) as Hne by congruence. clear Ho e. revert i n Hi Hp. induction (run_queue s) as [|x l IH]; intros i n Hi Hp; [done|].
    unfold unlink in *. destruct i as [|i]; simpl in Hp.
    + injection Hp as ->. rewrite filter_cons_True by congruence. by exists 0%nat.
    + destruct (IH i (Nat.pred n) ltac:(lia) Hp) as (j & Hj & Hl). destruct (decide (x = q)) as [->|Hx].
      * rewrite filter_cons_False by (by intros H). exists j. split; [lia|done].
      * rewrite filter_cons_True by done. exists (S j). split; [lia|done].
Qed.

Lemma ahead_dos n p ops s :
  Del p ∉ ops -> ahead n p (run_queue s) -> ahead n p (run_queue (fold_left (fun s o => sched_do o s) ops s)).
Proof.
  revert s. induction ops as [|o ops IH]; intros s Hops Ha; simpl; [done|].
  apply not_elem_of_cons in Hops as [Hne Hops]. apply IH; [done|]. by apply ahead_do.
Qed.

(** The scheduler is fair: a process that is in the run queue, and that
    no other process stops, is executed after no more steps than there are
    processes before it in the queue, whatever processes are started and
    stopped meanwhile. *)
Theorem process_runs p n s :
  NoDup (run_queue s) -> ahead n p (run_queue s) -> (forall q st, q <> p -> Del p ∉ (method q st).2) ->
  exists k, (k <= n)%nat /\ head (run_queue (Nat.iter k step s)) = Some p.
Proof.
  revert s. induction n as [|n IH]; intros s Hnd (i & Hi & Hp) Hdel.
  { exists 0%nat. split; [done|]. replace i with 0%nat in Hp by lia. simpl. by destruct (run_queue s). }
  destruct (run_queue s) as [|q l] eqn:E; [done|]. destruct (decide (q = p)) as [->|Hne].
  { exists 0%nat. split; [lia|]. simpl. by rewrite E. }
  destruct i as [|i]; [simpl in Hp; congruence|]. simpl in Hp. rewrite <- E in Hnd.
  destruct (IH (step s)) as (k & Hk & Hh); [by apply step_nodup| |done|].
  - destruct (step_queue s q l E Hnd) as (s0 & E0 & ->). apply ahead_dos; [by apply Hdel|]. rewrite E0. exists i. split; [lia|].
    destruct (pr_reschedule (desc q)); [by apply lookup_app_l_Some|done].
  - exists (S k). split; [lia|]. by rewrite Nat.iter_succ_r.
Qed.
End Process.

(** ** Instances: three processes, of which the first runs once and starts
    a fourth one. *)
Definition four_desc (p : loc) : process := Proc None (negb (bool_decide (p = 1%positive))).
Definition four_method (p : loc) (n : nat) : nat * list sched_op := (S n, if decide (p = 1%positive) then [Add 4%positive] else []).

Lemma process_runs_witness :
  exists k, (k <= 2)%nat /\
    head (run_queue (Nat.iter k (step four_desc four_method) (Sched [1; 2; 3]%positive (Refs ∅ []) 0%nat))) = Some 3%positive.
Proof.
  apply (process_runs four_desc four_method 3%positive 2 (Sched [1; 2; 3]%positive (Refs ∅ []) 0%nat)).
  - by_decide.
  - by exists 2%nat.
  - intros q st _. unfold four_method. destruct (decide (q = 1%positive)); simpl; [|apply not_elem_of_nil].
    intros [=]%list_elem_of_singleton.
Defined.
