(* ===== verification/LineBuffer.v ===== *)
(** * Line buffers: src/src/core/linebuf.c, src/src/include/ipxe/linebuf.h.

    The string of a buffer is the list of its characters before the NUL
    that ends it.  Whether memory could be allocated is an argument.  A
    result [None] stands for the access to the byte before the string with
    which the code looks for a carriage return in an empty line. *)
From S2P Require Import Prelude Strings.

Record line_buffer := LineBuf {
  lb_data : option (list Z);
  lb_len : Z;
  lb_ready : bool }.

Definition NL : Z := 10.
Definition CR : Z := 13.

Definition buffered_line (linebuf : line_buffer) : option (list Z) :=
  if lb_ready linebuf then lb_data linebuf else None.

Definition empty_line_buffer (linebuf : line_buffer) : line_buffer := LineBuf None 0 false.

(** The end of a line is trimmed. *)
Definition trim_line (data : list Z) : option (list Z) :=
  let len := zlen data - 1 in
  let data := take (Z.to_nat len) data in
  if len <? 1 then None else
  c ← data !! Z.to_nat (len - 1);
  Some (if c =? CR then take (Z.to_nat (len - 1)) data else data).

Definition buffer_line (alloc : bool) (linebuf : line_buffer) (data : list Z) : option (line_buffer * (Z + errno)) :=
  let linebuf := if lb_ready linebuf then empty_line_buffer linebuf else linebuf in
  let eol := memchr data NL (length data) in
  let consume := match eol with Some i => Z.of_nat i + 1 | None => zlen data end in
  let new_len := u32 (lb_len linebuf + consume) in
  if negb alloc then Some (linebuf, inr ENOMEM) else
  let new_data := take (Z.to_nat (lb_len linebuf)) (default [] (lb_data linebuf)) ++ take (Z.to_nat consume) data in
  match eol with
  | None => Some (LineBuf (Some new_data) new_len (lb_ready linebuf), inl consume)
  | Some _ =>
      line ← trim_line new_data;
      Some (LineBuf (Some line) (zlen line) true, inl consume)
  end.

(** The loop of a receiver: the data is buffered line by line, and each
    line is taken out. *)
Fixpoint receive (fuel : nat) (lb : line_buffer) (data : list Z) : option (line_buffer * list (list Z)) :=
  match fuel, data with
  | _, [] => Some (lb, [])
  | O, _ => None
  | S fuel, _ =>
      '(lb, r) ← buffer_line true lb data;
      match r with
      | inr _ => None
      | inl n =>
          '(lb', ls) ← receive fuel lb (drop (Z.to_nat n) data);
          Some (lb', match buffered_line lb with Some l => l :: ls | None => ls end)
      end
  end.

(** Data that arrives in parts. *)
Fixpoint receive_all (lb : line_buffer) (chunks : list (list Z)) : option (line_buffer * list (list Z)) :=
  match chunks with
  | [] => Some (lb, [])
  | d :: chunks =>
      '(lb, ls) ← receive (length d) lb d;
      '(lb, ls') ← receive_all lb chunks;
      Some (lb, ls ++ ls')
  end.

(** ** Specification: the lines of a stream, character by character, and
    the start of the line that is not complete. *)
Fixpoint lines_of (pending data : list Z) : option (list Z * list (list Z)) :=
  match data with
  | [] => Some (pending, [])
  | c :: data =>
      if c =? NL then
        line ← trim_line (pending ++ [c]);
        '(p, ls) ← lines_of [] data;
        Some (p, line :: ls)
      else lines_of (pending ++ [c]) data
  end.

Definition pending (lb : line_buffer) : list Z := if lb_ready lb then [] else default [] (lb_data lb).

Definition lb_ok (lb : line_buffer) : Prop := lb_ready lb = false -> lb_len lb = zlen (pending lb).

(** ** Lemmas. *)
Lemma lines_of_app p a b :
  lines_of p (a ++ b) = ('(p1, l1) ← lines_of p a; '(p2, l2) ← lines_of p1 b; Some (p2, l1 ++ l2)).
Proof.
  revert p. induction a as [|c a IH]; intros p; cbn [app lines_of].
  - cbn [mbind option_bind]. by destruct (lines_of p b) as [[]|].
  - destruct (c =? NL); [|by rewrite IH]. destruct (trim_line (p ++ [c])) as [line|]; [|done]. cbn [mbind option_bind].
    rewrite IH. destruct (lines_of [] a) as [[p1 l1]|]; [|done]. cbn [mbind option_bind].
    by destruct (lines_of p1 b) as [[]|].
Qed.

Lemma lines_of_none p a : NL ∉ a -> lines_of p a = Some (p ++ a, []).
Proof.
  revert p. induction a as [|c a IH]; intros p Ha; cbn [lines_of]; [by rewrite app_nil_r|].
  apply not_elem_of_cons in Ha as [Hc Ha]. destruct (Z.eqb_spec c NL); [congruence|]. rewrite IH by done. by rewrite <- app_assoc.
Qed.

Lemma memchr_spec data :
  match memchr data NL (length data) with
  | Some i => exists post, data = take i data ++ NL :: post /\ NL ∉ take i data /\ (i < length data)%nat /\ post = drop (S i) data
  | None => NL ∉ data
  end.
Proof.
  induction data as [|c data IH]; cbn [memchr length]; [apply not_elem_of_nil|]. change (u8 NL) with NL.
  destruct (Z.eqb_spec NL c) as [<-|Hc].
  - exists data. split_and!; [done|apply not_elem_of_nil|lia|done].
  - destruct (memchr data NL (length data)) as [i|]; cbn [fmap option_fmap option_map].
    + destruct IH as (post & E & Hn & Hi & Hp). exists post. cbn [take drop app]. split_and!; [by rewrite <- E|by apply not_elem_of_cons|lia|done].
    + by apply not_elem_of_cons.
Qed.

(** One call of [buffer_line], against the specification. *)
Lemma buffer_line_spec lb data :
  lb_ok lb -> data <> [] -> zlen (pending lb) + zlen data < 2 ^ 32 ->
  match buffer_line true lb data with
  | None => lines_of (pending lb) data = None
  | Some (lb', inr _) => False
  | Some (lb', inl n) =>
      0 < n <= zlen data /\ lb_ok lb' /\ zlen (pending lb') + zlen (drop (Z.to_nat n) data) <= zlen (pending lb) + zlen data /\
      lines_of (pending lb) data =
        ('(p, ls) ← lines_of (pending lb') (drop (Z.to_nat n) data);
         Some (p, match buffered_line lb' with Some l => l :: ls | None => ls end))
  end.
Proof.
  intros Hok Hne Hlen. unfold buffer_line. set (lb1 := if lb_ready lb then empty_line_buffer lb else lb).
  assert (take (Z.to_nat (lb_len lb1)) (default [] (lb_data lb1)) = pending lb /\ lb_ready lb1 = false /\ lb_len lb1 = zlen (pending lb)) as (E1 & E2 & E3).
  { unfold lb1, lb_ok, pending in *. destruct (lb_ready lb) eqn:Er; [done|]. rewrite Hok by done. split_and!; [|done|done].
    by rewrite Nat2Z.id, firstn_all. }
  rewrite E1, E2, E3. cbn [negb]. pose proof (memchr_spec data) as Hm. destruct (memchr data NL (length data)) as [i|].
  - destruct Hm as (post & E & Hn & Hi & ->). replace (Z.to_nat (Z.of_nat i + 1)) with (S i) by lia.
    assert (take (S i) data = take i data ++ [NL]) as ->.
    { apply take_S_r. rewrite E, lookup_app_r, length_take, Nat.min_l, Nat.sub_diag by (rewrite ?length_take; lia). done. }
    set (line := trim_line (pending lb ++ take i data ++ [NL])).
    assert (lines_of (pending lb) data = (line ← line; '(p, ls) ← lines_of [] (drop (S i) data); Some (p, line :: ls))) as Hl.
    { rewrite E at 1. rewrite lines_of_app, lines_of_none by done. cbn [mbind option_bind lines_of]. change (NL =? NL) with true. cbn iota.
      rewrite <- app_assoc. fold line. destruct line as [l|]; [|done]. cbn [mbind option_bind]. by destruct (lines_of [] (drop (S i) data)) as [[]|]. }
    destruct line as [l|]; cbn [mbind option_bind] in Hl |- *; [|done].
    split_and!; [lia|lia|by intros [=]| |].
    + unfold pending at 1. cbn [lb_ready length]. rewrite length_drop. lia.
    + by replace (Z.to_nat (Z.of_nat i + 1)) with (S i) by lia.
  - destruct data as [|c data]; [done|]. rewrite Nat2Z.id, firstn_all, drop_all. split_and!; [simpl; lia|lia| | |].
    + intros _. change (pending (LineBuf (Some ?x) _ false)) with x. cbn [lb_len]. rewrite length_app, wrap_small by lia. lia.
    + change (pending (LineBuf (Some ?x) _ false)) with x. rewrite length_app. simpl length. lia.
    + by rewrite lines_of_none.
Qed.

Lemma receive_spec fuel lb data :
  lb_ok lb -> (length data <= fuel)%nat -> zlen (pending lb) + zlen data < 2 ^ 32 ->
  match receive fuel lb data with
  | None => lines_of (pending lb) data = None
  | Some (lb', ls) => lb_ok lb' /\ zlen (pending lb') <= zlen (pending lb) + zlen data /\ lines_of (pending lb) data = Some (pending lb', ls)
  end.
Proof.
  revert lb data. induction fuel as [|fuel IH]; intros lb data Hok Hf Hlen.
  { destruct data; [|simpl in Hf; lia]. simpl. split_and!; [done|lia|done]. }
  destruct data as [|c data]; [simpl; split_and!; [done|lia|done]|]. remember (c :: data) as d eqn:Ed.
  assert (d <> []) as Hne by by subst. pose proof (buffer_line_spec lb d Hok Hne Hlen) as Hb.
  assert (receive (S fuel) lb d = ('(lb, r) ← buffer_line true lb d;
      match r with
      | inr _ => None
      | inl n => '(lb', ls) ← receive fuel lb (drop (Z.to_nat n) d);
                 Some (lb', match buffered_line lb with Some l => l :: ls | None => ls end)
      end)) as -> by by subst.
  destruct (buffer_line true lb d) as [[lb1 [n|e]]|]; [|done|done]. destruct Hb as (Hn & Hok1 & Hlen1 & ->). cbn [mbind option_bind].
  specialize (IH lb1 (drop (Z.to_nat n) d) Hok1). rewrite length_drop in IH. specialize (IH ltac:(lia)). rewrite <- length_drop in IH.
  specialize (IH ltac:(lia)). destruct (receive fuel lb1 (drop (Z.to_nat n) d)) as [[lb2 ls]|]; cbn [mbind option_bind]; [|by rewrite IH].
  destruct IH as (Hok2 & Hl2 & ->). split_and!; [done|lia|done].
Qed.

(** The lines a receiver gets do not depend on how the data is cut into
    parts: they are the lines of the whole stream, without the carriage
    returns that end them, and the buffer holds the start of the line that
    is not complete. *)
Theorem line_buffer_chunks lb chunks :
  lb_ok lb -> zlen (pending lb) + zlen (mjoin chunks) < 2 ^ 32 ->
  (fun '(lb', ls) => (pending lb', ls)) <$> receive_all lb chunks = lines_of (pending lb) (mjoin chunks).
Proof.
  revert lb. induction chunks as [|d chunks IH]; intros lb Hok Hlen; [done|]. change (mjoin (d :: chunks)) with (d ++ mjoin chunks) in *.
  rewrite length_app in Hlen. cbn [receive_all]. rewrite lines_of_app.
  pose proof (receive_spec (length d) lb d Hok ltac:(lia) ltac:(lia)) as Hr.
  destruct (receive (length d) lb d) as [[lb1 ls]|]; cbn [mbind option_bind]; [|by rewrite Hr].
  destruct Hr as (Hok1 & Hl1 & ->). cbn [mbind option_bind]. rewrite <- (IH lb1) by (done || lia).
  by destruct (receive_all lb1 chunks) as [[lb2 ls2]|].
Qed.

(** ** Instances. *)
Lemma line_buffer_chunks_witness :
  (fun '(lb', ls) => (pending lb', ls)) <$> receive_all (LineBuf None 0 false) [cstr "HTTP/1.1 2"; cstr "00 OK" ++ [13]; [10] ++ cstr "Len"] =
    Some (cstr "Len", [cstr "HTTP/1.1 200 OK"]).
Proof. apply (line_buffer_chunks (LineBuf None 0 false) [cstr "HTTP/1.1 2"; cstr "00 OK" ++ [13]; [10] ++ cstr "Len"]); [done|by vm_compute]. Defined.

(** An empty line that ends in a newline alone makes the code look at the
    byte before the string. *)
Theorem blank_line_reads_before lb data : lb_ready lb = true -> buffer_line true lb (NL :: data) = None.
Proof. intros H. unfold buffer_line. rewrite H. done. Qed.
