(* ===== verification/Codec.v ===== *)
(** * Base16 and Base64: src/src/core/base16.c, src/src/core/base64.c and
    their headers.

    A string is the list of its characters without the NUL.  An output
    buffer is the list of all its bytes, and every operation returns the
    buffer it leaves behind; a result [None] is an access outside of a
    buffer or of the table.  Debug output and assertions are left out. *)
From coqutil Require Import Z.bitblast.
From S2P Require Import Prelude Strings Printf.

(** Stores to consecutive bytes of a buffer. *)
Definition store (buf : list Z) (i : nat) (v : Z) : option (list Z) :=
  if (i <? length buf)%nat then Some (<[i := u8 v]> buf) else None.

Fixpoint stores (buf : list Z) (i : nat) (s : list Z) : option (list Z) :=
  match s with
  | [] => Some buf
  | c :: s => buf ← store buf i c; stores buf (S i) s
  end.

(** ** Base16. *)
Definition base16_encoded_len (raw_len : Z) : Z := 2 * raw_len.
Definition base16_decoded_max_len (encoded : list Z) : Z := (zlen encoded + 1) / 2.

(** [sprintf] writes the digits and a NUL, which the next byte's digits
    overwrite. *)
Fixpoint base16_encode_at (raw : list Z) (encoded : list Z) (i : nat) : option (list Z) :=
  match raw with
  | [] => Some encoded
  | b :: raw =>
      s ← vcprintf 5 (cstr "%02x") [ArgInt b];
      encoded ← stores encoded i (s ++ [0]);
      base16_encode_at raw encoded (i + 2)
  end.
Definition base16_encode (raw encoded : list Z) : option (list Z) := base16_encode_at raw encoded 0.

Fixpoint base16_decode_at (fuel : nat) (encoded raw : list Z) (i : nat) : option (list Z * (Z + errno)) :=
  match fuel, encoded with
  | _, [] => Some (raw, inl (Z.of_nat i))
  | _, [_] => Some (raw, inr EINVAL)
  | O, _ => None
  | S fuel, c0 :: c1 :: encoded =>
      let '(v, endp) := strtoul [c0; c1] 16 in
      raw ← store raw i v;
      if negb (deref endp =? 0) then Some (raw, inr EINVAL)
      else base16_decode_at fuel encoded raw (S i)
  end.
Definition base16_decode (encoded raw : list Z) : option (list Z * (Z + errno)) :=
  base16_decode_at (length encoded) encoded raw 0.

(** ** Base64.  The table has 64 characters and no terminating NUL. *)
Definition base64 : list Z := cstr "ABCDEFGHIJKLMNOPQRSTUVWXYZabcdefghijklmnopqrstuvwxyz0123456789+/".
Definition PAD : Z := 61.

Definition base64_encoded_len (raw_len : Z) : Z := (raw_len + 3 - 1) / 3 * 4.
Definition base64_decoded_max_len (encoded : list Z) : Z := (zlen encoded + 4 - 1) / 4 * 3.

(** The character for the six bits at [bit]. *)
Definition encode_char (raw : list Z) (bit : Z) : option Z :=
  let byte := bit / 8 in
  let shift := bit mod 8 in
  b ← raw !! Z.to_nat byte;
  let tmp := Z.shiftl b shift in
  tmp ← (if byte + 1 <? zlen raw then
           b ← raw !! Z.to_nat (byte + 1);
           Some (Z.lor tmp (Z.shiftr b (8 - shift)))
         else Some tmp);
  base64 !! Z.to_nat (Z.land (Z.shiftr tmp 2) 63).

(** The padding: at most three characters are added before the bit count is
    a multiple of eight. *)
Fixpoint pad_loop (fuel : nat) (bit : Z) : list Z :=
  match fuel with
  | O => []
  | S fuel => if bit mod 8 =? 0 then [] else PAD :: pad_loop fuel (u32 (bit + 6))
  end.

Fixpoint encode_loop (fuel : nat) (raw : list Z) (bit : Z) : option (list Z) :=
  match fuel with
  | O => None
  | S fuel =>
      if bit <? u32 (8 * zlen raw) then
        c ← encode_char raw bit;
        rest ← encode_loop fuel raw (u32 (bit + 6));
        Some (c :: rest)
      else Some (pad_loop 4 bit)
  end.
Definition base64_encode (raw encoded : list Z) : option (list Z) :=
  s ← encode_loop (S (2 * length raw)) raw 0;
  stores encoded 0 (s ++ [0]).

(** More bits set in a byte of the output buffer. *)
Definition or_byte (raw : list Z) (i v : Z) : option (list Z) :=
  b ← raw !! Z.to_nat i;
  store raw (Z.to_nat i) (Z.lor b v).

(** The loop of the decoder: the buffer with the number of bits or the
    error.  A character that is not in the table makes [strchr] read past
    its end. *)
Fixpoint decode_loop (encoded raw : list Z) (bit pad_count : Z) : option (list Z * (Z + errno)) :=
  match encoded with
  | [] => Some (raw, inl bit)
  | encoded_byte :: encoded =>
      if isspace encoded_byte then decode_loop encoded raw bit pad_count else
      if encoded_byte =? PAD then
        if 2 <=? pad_count then Some (raw, inr EINVAL)
        else decode_loop encoded raw (u32 (bit - 2)) (pad_count + 1)
      else
      if ctrue pad_count then Some (raw, inr EINVAL) else
      decoded ← strchr base64 encoded_byte;
      let decoded := Z.shiftl (Z.of_nat decoded) 2 in
      raw ← or_byte raw (bit / 8) (Z.shiftr decoded (bit mod 8));
      raw ← or_byte raw (bit / 8 + 1) (Z.shiftl decoded (8 - bit mod 8));
      decode_loop encoded raw (u32 (bit + 6)) pad_count
  end.

Definition base64_decode (encoded raw : list Z) : option (list Z * (Z + errno)) :=
  raw ← stores raw 0 (replicate (Z.to_nat (base64_decoded_max_len encoded)) 0);
  '(raw, r) ← decode_loop encoded raw 0 0;
  Some (raw, match r with
             | inr e => inr e
             | inl bit => if negb (bit mod 8 =? 0) then inr EINVAL else inl (bit / 8)
             end).

(** ** Stores. *)
Lemma store_app a x b v : store (a ++ x :: b) (length a) v = Some (a ++ u8 v :: b).
Proof.
  unfold store. rewrite length_app. destruct (Nat.ltb_spec (length a) (length a + length (x :: b))); [|simpl in *; lia].
  by rewrite insert_app_r_alt, Nat.sub_diag by lia.
Qed.

Lemma stores_app s : forall a mid b, bytes_ok s -> length mid = length s ->
  stores (a ++ mid ++ b) (length a) s = Some (a ++ s ++ b).
Proof.
  induction s as [|c s IH]; intros a [|x mid] b Hs Hl; try done. apply Forall_cons in Hs as [Hc Hs].
  cbn [stores app]. rewrite store_app. cbn [mbind option_bind].
  rewrite (wrap_small 8) by (unfold is_byte in Hc; lia).
  specialize (IH (a ++ [c]) mid b Hs ltac:(simpl in Hl; lia)). rewrite length_app, <- !app_assoc in IH. cbn [app length] in IH.
  by rewrite Nat.add_1_r in IH.
Qed.

(** ** Base16: what was encoded is decoded. *)
Definition hex_ok (b : Z) : Prop :=
  match vcprintf 5 (cstr "%02x") [ArgInt b] with
  | Some [c0; c1] => is_byte c0 /\ is_byte c1 /\ strtoul [c0; c1] 16 = (b, [])
  | _ => False
  end.
#[export] Instance hex_ok_dec b : Decision (hex_ok b).
Proof. unfold hex_ok, is_byte. destruct (vcprintf 5 _ _) as [[|c0 [|c1 [|]]]|]; apply _. Defined.

Lemma hex_digits b : is_byte b -> exists c0 c1,
  vcprintf 5 (cstr "%02x") [ArgInt b] = Some [c0; c1] /\ bytes_ok [c0; c1] /\ strtoul [c0; c1] 16 = (b, []).
Proof.
  intros Hb. assert (hex_ok b) as H by (revert Hb; apply (small_forall hex_ok 256); vm_compute; reflexivity).
  unfold hex_ok in H. destruct (vcprintf 5 _ _) as [[|c0 [|c1 [|]]]|]; try done.
  destruct H as (H0 & H1 & H). exists c0, c1. split; [done|]. split; [by unfold bytes_ok; rewrite !Forall_cons|done].
Qed.

Fixpoint hex_of (raw : list Z) : list Z :=
  match raw with
  | [] => []
  | b :: raw => default [] (vcprintf 5 (cstr "%02x") [ArgInt b]) ++ hex_of raw
  end.

Lemma hex_of_cons b raw : is_byte b -> exists c0 c1, hex_of (b :: raw) = c0 :: c1 :: hex_of raw /\
  vcprintf 5 (cstr "%02x") [ArgInt b] = Some [c0; c1] /\ bytes_ok [c0; c1] /\ strtoul [c0; c1] 16 = (b, []).
Proof.
  intros Hb. destruct (hex_digits b Hb) as (c0 & c1 & E & Hc & Hs). exists c0, c1. cbn [hex_of]. rewrite E.
  by split.
Qed.

Lemma hex_of_length raw : bytes_ok raw -> length (hex_of raw) = (2 * length raw)%nat.
Proof.
  induction 1 as [|b raw Hb _ IH]; [done|]. destruct (hex_of_cons b raw Hb) as (c0 & c1 & E & _).
  rewrite E. simpl. lia.
Qed.

Lemma base16_encode_at_spec raw : forall b a rest,
  bytes_ok (b :: raw) -> (2 * length raw + 2 < length rest)%nat ->
  base16_encode_at (b :: raw) (a ++ rest) (length a) =
    Some (a ++ hex_of (b :: raw) ++ 0 :: drop (2 * length raw + 3) rest).
Proof.
  induction raw as [|b' raw IH]; intros b a rest Hraw Hl; apply Forall_cons in Hraw as [Hb Hraw].
  all: destruct rest as [|m0 [|m1 [|m2 rest]]]; try (simpl in Hl; lia).
  all: destruct (hex_digits b Hb) as (c0 & c1 & E & Hc & _).
  all: assert (bytes_ok [c0; c1; 0]) as Hc' by (unfold bytes_ok in *; rewrite !Forall_cons in *; unfold is_byte in *; intuition lia).
  all: pose proof (stores_app [c0; c1; 0] a [m0; m1; m2] rest Hc' eq_refl) as Hst; cbn [app] in Hst.
  all: cbn [base16_encode_at]; rewrite E; cbn [mbind option_bind app]; rewrite Hst; cbn [mbind option_bind hex_of];
    rewrite E.
  { done. }
  specialize (IH b' (a ++ [c0; c1]) (0 :: rest) Hraw ltac:(clear -Hl; simpl in *; lia)).
  rewrite <- !app_assoc, length_app in IH. cbn [app length] in IH. cbn [base16_encode_at] in IH |- *. rewrite IH.
  replace (2 * length (b' :: raw) + 3)%nat with (3 + (2 * length raw + 2))%nat by (simpl; lia).
  by replace (2 * length raw + 3)%nat with (1 + (2 * length raw + 2))%nat by lia.
Qed.

Lemma base16_decode_at_spec raw : forall fuel a mid b,
  bytes_ok raw -> length mid = length raw -> (length raw <= fuel)%nat ->
  base16_decode_at fuel (hex_of raw) (a ++ mid ++ b) (length a) = Some (a ++ raw ++ b, inl (zlen a + zlen raw)).
Proof.
  induction raw as [|r raw IH]; intros fuel a [|x mid] b Hraw Hl Hf; try done.
  { destruct fuel; cbn [hex_of base16_decode_at app length]; by rewrite Z.add_0_r. }
  apply Forall_cons in Hraw as [Hr Hraw]. destruct fuel as [|fuel]; [simpl in Hf; lia|].
  destruct (hex_of_cons r raw Hr) as (c0 & c1 & -> & _ & _ & Hs). cbn [base16_decode_at]. rewrite Hs.
  cbn [app]. rewrite store_app. cbn [mbind option_bind deref Z.eqb negb].
  rewrite (wrap_small 8) by (unfold is_byte in Hr; lia).
  specialize (IH fuel (a ++ [r]) mid b Hraw ltac:(simpl in Hl; lia) ltac:(simpl in Hf; lia)).
  rewrite <- !app_assoc, length_app, Nat.add_1_r in IH. cbn [app] in IH. rewrite IH. do 3 f_equal. simpl length. lia.
Qed.

(** ** Base64: one character. *)
Definition table_ok (v : Z) : Prop :=
  match base64 !! Z.to_nat v with
  | Some c => 0 < c < 128 /\ isspace c = false /\ (c =? PAD) = false /\ strchr base64 c = Some (Z.to_nat v)
  | None => False
  end.
#[export] Instance table_ok_dec v : Decision (table_ok v).
Proof. unfold table_ok. destruct (base64 !! Z.to_nat v); apply _. Defined.

Lemma table_char v : 0 <= v < 64 -> exists c, base64 !! Z.to_nat v = Some c /\
  0 < c < 128 /\ isspace c = false /\ (c =? PAD) = false /\ strchr base64 c = Some (Z.to_nat v).
Proof.
  intros Hv. assert (table_ok v) as H by (revert Hv; apply (small_forall table_ok 64); vm_compute; reflexivity).
  unfold table_ok in H. destruct (base64 !! Z.to_nat v) as [c|]; [by exists c|done].
Qed.

(** A byte of the data, zero past its end, and what of it lies in the first
    [n] bits from its top. *)
Definition byte_at (raw : list Z) (i : Z) : Z := default 0 (raw !! Z.to_nat i).
Definition top (n x : Z) : Z := Z.land x (Z.lnot (Z.ones (Z.max 0 (8 - n)))).
(** The six bits at bit [s] of two bytes. *)
Definition window (s b0 b1 : Z) : Z := Z.land (Z.shiftr (Z.lor (Z.shiftl b0 s) (Z.shiftr b1 (8 - s))) 2) 63.

Lemma byte_ones b : is_byte b -> b = Z.land b (Z.ones 8).
Proof. intros H. rewrite Z.land_ones by lia. symmetry. apply Z.mod_small. exact H. Qed.

Lemma window_range s b0 b1 : 0 <= window s b0 b1 < 64.
Proof. unfold window. change 63 with (Z.ones 6). rewrite Z.land_ones by lia. apply Z.mod_pos_bound. lia. Qed.

Lemma window_first s b0 b1 : (s = 0 \/ s = 2 \/ s = 4 \/ s = 6) -> is_byte b0 -> is_byte b1 ->
  u8 (Z.lor (top s b0) (Z.shiftr (Z.shiftl (window s b0 b1) 2) s)) = top (s + 6) b0.
Proof.
  intros Hs H0 H1. rewrite (byte_ones b0 H0), (byte_ones b1 H1). unfold window, top, wrap. change 63 with (Z.ones 6).
  rewrite <- Z.land_ones by lia.
  destruct Hs as [-> | [-> | [-> | ->]]].
  all: rewrite ?Z.shiftl_0_r, ?Z.shiftr_0_r; Z.bitblast; Z.bitblast_core.
Qed.

Lemma window_second s b0 b1 : (s = 0 \/ s = 2 \/ s = 4 \/ s = 6) -> is_byte b0 -> is_byte b1 ->
  u8 (Z.lor 0 (Z.shiftl (Z.shiftl (window s b0 b1) 2) (8 - s))) = top (s + 6 - 8) b1.
Proof.
  intros Hs H0 H1. rewrite (byte_ones b0 H0), (byte_ones b1 H1). unfold window, top, wrap. change 63 with (Z.ones 6).
  rewrite <- Z.land_ones by lia.
  destruct Hs as [-> | [-> | [-> | ->]]].
  all: rewrite ?Z.shiftl_0_r, ?Z.shiftr_0_r; Z.bitblast; Z.bitblast_core.
Qed.

Lemma top_none n x : is_byte x -> n <= 0 -> top n x = 0.
Proof.
  intros Hx Hn. unfold top. rewrite (byte_ones x Hx), <- Z.land_assoc.
  replace (Z.land (Z.ones 8) _) with 0; [by rewrite Z.land_0_r|].
  symmetry. rewrite <- Z.ldiff_land. apply Z.bits_inj'. intros i Hi.
  rewrite Z.ldiff_spec, Z.bits_0, !Z.testbit_ones_nonneg by lia.
  destruct (Z.ltb_spec i 8), (Z.ltb_spec i (Z.max 0 (8 - n))); (done || lia).
Qed.

Lemma top_all n x : 8 <= n -> top n x = x.
Proof. intros Hn. unfold top. rewrite Z.max_l by lia. apply Z.land_m1_r. Qed.

Lemma byte_at_byte raw i : bytes_ok raw -> is_byte (byte_at raw i).
Proof.
  intros H. unfold byte_at. destruct (raw !! Z.to_nat i) eqn:E; [|unfold is_byte; simpl; lia].
  exact (Forall_lookup_1 _ _ _ _ H E).
Qed.

Lemma byte_at_past raw i : zlen raw <= i -> byte_at raw i = 0.
Proof. intros H. unfold byte_at. by rewrite lookup_ge_None_2 by lia. Qed.

(** The character the encoder writes is the one of the window. *)
Lemma encode_char_spec raw bit : bytes_ok raw -> 0 <= bit < 8 * zlen raw ->
  encode_char raw bit = base64 !! Z.to_nat (window (bit mod 8) (byte_at raw (bit / 8)) (byte_at raw (bit / 8 + 1))).
Proof.
  intros Hraw Hb. unfold encode_char, window.
  assert (raw !! Z.to_nat (bit / 8) = Some (byte_at raw (bit / 8))) as ->.
  { unfold byte_at. destruct (raw !! Z.to_nat (bit / 8)) eqn:E; [done|]. apply lookup_ge_None_1 in E. zdm. }
  cbn [mbind option_bind]. destruct (Z.ltb_spec (bit / 8 + 1) (zlen raw)) as [Hlt|Hge].
  - assert (raw !! Z.to_nat (bit / 8 + 1) = Some (byte_at raw (bit / 8 + 1))) as ->; [|done].
    unfold byte_at. destruct (raw !! Z.to_nat (bit / 8 + 1)) eqn:E; [done|]. apply lookup_ge_None_1 in E. zdm.
  - rewrite (byte_at_past raw (bit / 8 + 1)) by lia. by rewrite Z.shiftr_0_l, Z.lor_0_r.
Qed.

(** Where the data goes, the output buffer holds its first [bit] bits and
    zeros. *)
Definition filled (raw : list Z) (bit : Z) (buf : list Z) : Prop :=
  forall i, 0 <= i < zlen raw -> buf !! Z.to_nat i = Some (top (bit - 8 * i) (byte_at raw i)).

Lemma or_byte_spec buf i v b : buf !! Z.to_nat i = Some b ->
  or_byte buf i v = Some (<[Z.to_nat i := u8 (Z.lor b v)]> buf).
Proof.
  intros E. unfold or_byte, store. rewrite E. cbn [mbind option_bind]. pose proof (lookup_lt_Some _ _ _ E).
  by destruct (Nat.ltb_spec (Z.to_nat i) (length buf)); [|lia].
Qed.

(** One character read back adds its six bits. *)
Lemma filled_step raw bit buf :
  bytes_ok raw -> 0 <= bit < 8 * zlen raw -> bit mod 2 = 0 -> zlen raw < zlen buf -> filled raw bit buf ->
  let w := Z.shiftl (window (bit mod 8) (byte_at raw (bit / 8)) (byte_at raw (bit / 8 + 1))) 2 in
  exists buf', (raw' ← or_byte buf (bit / 8) (Z.shiftr w (bit mod 8));
                or_byte raw' (bit / 8 + 1) (Z.shiftl w (8 - bit mod 8))) = Some buf' /\
    length buf' = length buf /\ filled raw (bit + 6) buf'.
Proof.
  intros Hraw Hb He Hl Hf w. set (q := bit / 8) in *. set (s := bit mod 8) in *.
  assert (bit = 8 * q + s /\ 0 <= q < zlen raw /\ (s = 0 \/ s = 2 \/ s = 4 \/ s = 6)) as (E & Hq & Hs) by (subst q s; zdm).
  rewrite (or_byte_spec _ _ _ _ (Hf q ltac:(lia))). cbn [mbind option_bind].
  destruct (lookup_lt_is_Some_2 buf (Z.to_nat (q + 1)) ltac:(lia)) as [x Hx].
  erewrite or_byte_spec; [|rewrite list_lookup_insert_ne by lia; exact Hx].
  eexists. split; [reflexivity|]. split; [by rewrite !length_insert|].
  replace (bit - 8 * q) with s by lia. subst w. rewrite window_first by auto using byte_at_byte.
  intros i Hi. destruct (decide (i = q + 1)) as [-> | H1].
  { rewrite list_lookup_insert_eq by (rewrite length_insert; lia).
    rewrite Hf, top_none in Hx by (try apply byte_at_byte; auto; lia). injection Hx as <-.
    rewrite window_second by auto using byte_at_byte. do 2 f_equal. lia. }
  rewrite list_lookup_insert_ne by lia. destruct (decide (i = q)) as [-> | H2].
  { rewrite list_lookup_insert_eq by lia. do 2 f_equal. lia. }
  rewrite list_lookup_insert_ne, Hf by lia. f_equal.
  destruct (decide (i < q)); [by rewrite !top_all by lia|].
  by rewrite !top_none by (try apply byte_at_byte; auto; lia).
Qed.

(** Each padding character stands for two bits past the data. *)
Lemma pad_loop_spec n k : 0 <= n -> 8 * n + 24 < 2 ^ 32 -> k = O \/ k = 1%nat \/ k = 2%nat ->
  pad_loop 4 (8 * n + 2 * Z.of_nat k) = replicate k PAD.
Proof.
  intros Hn Hw Hk. cbn [pad_loop].
  destruct Hk as [-> | [-> | ->]]; rewrite ?(wrap_small 32) by lia; repeat case_match; try done; zdm.
Qed.

(** It brings the bit count back to the length of the data. *)
Lemma padding (raw : list Z) bit buf : 0 <= bit -> bit mod 6 = 0 -> 8 * zlen raw <= bit < 8 * zlen raw + 6 ->
  8 * zlen raw + 24 < 2 ^ 32 ->
  cstring (pad_loop 4 bit) /\ (bit + 6 * zlen (pad_loop 4 bit)) mod 24 = 0 /\
    bit + 6 * zlen (pad_loop 4 bit) <= 8 * zlen raw + 16 /\
    decode_loop (pad_loop 4 bit) buf bit 0 = Some (buf, inl (8 * zlen raw)).
Proof.
  intros Hb H6 Hr Hw.
  assert (exists k, bit = 8 * zlen raw + 2 * Z.of_nat k /\ (k = O \/ k = 1%nat \/ k = 2%nat)) as (k & -> & Hk).
  { exists (Z.to_nat (bit / 2) - 4 * length raw)%nat. zdm. }
  rewrite pad_loop_spec, length_replicate by (auto; lia). split; [by apply Forall_replicate|].
  remember (8 * zlen raw) as m eqn:Em. split; [zdm|]. split; [lia|].
  destruct Hk as [-> | [-> | ->]]; cbn; do 3 f_equal.
  - lia.
  - rewrite wrap_small; lia.
  - rewrite (wrap_small 32 (m + 2 * Z.of_nat 2 - 2)), wrap_small; lia.
Qed.

Lemma decode_encode_loop raw : forall fuel bit buf,
  bytes_ok raw -> 8 * zlen raw + 24 < 2 ^ 32 -> 0 <= bit < 8 * zlen raw + 6 -> bit mod 6 = 0 ->
  zlen raw < zlen buf -> filled raw bit buf -> 8 * zlen raw <= bit + 6 * (Z.of_nat fuel - 1) ->
  exists s buf', encode_loop fuel raw bit = Some s /\ cstring s /\ (bit + 6 * zlen s) mod 24 = 0 /\
    8 * zlen raw <= bit + 6 * zlen s <= 8 * zlen raw + 16 /\
    decode_loop s buf bit 0 = Some (buf', inl (8 * zlen raw)) /\ length buf' = length buf /\ filled raw (8 * zlen raw) buf'.
Proof.
  induction fuel as [|fuel IH]; intros bit buf Hraw Hw Hb H6 Hl Hf Hfuel; [lia|].
  cbn [encode_loop]. rewrite (wrap_small 32 (8 * zlen raw)) by lia.
  destruct (Z.ltb_spec bit (8 * zlen raw)) as [Hlt|Hge].
  - rewrite encode_char_spec by (auto; lia).
    set (v := window _ _ _). destruct (table_char v (window_range _ _ _)) as (c & Ec & Hc & Hsp & Hp & Hch).
    rewrite Ec, (wrap_small 32) by lia. cbn [mbind option_bind].
    destruct (filled_step raw bit buf) as (buf1 & E1 & Hl1 & Hf1); [done|lia|zdm|lia|done|].
    destruct (IH (bit + 6) buf1) as (s & buf' & E & Hs & Hm & Hr & Hd & Hl' & Hf'); [done|done|lia|zdm|lia|done|lia|].
    rewrite E. cbn [mbind option_bind]. exists (c :: s), buf'. split; [done|].
    split; [apply Forall_cons; split; [unfold is_char; lia|done]|].
    replace (bit + 6 * zlen (c :: s)) with (bit + 6 + 6 * zlen s) by (simpl length; lia).
    do 2 (split; [done|]). split; [|split; [congruence|done]].
    cbn [decode_loop]. rewrite Hsp, Hp, Hch. cbn [ctrue Z.eqb negb mbind option_bind]. rewrite Z2Nat.id by apply window_range.
    fold v in E1. revert E1. destruct (or_byte buf _ _) as [x|]; cbn [mbind option_bind]; [|done]. intros ->.
    cbn [mbind option_bind]. by rewrite (wrap_small 32) by lia.
  - destruct (padding raw bit buf) as (Hs & Hm & Hle & Hd); [lia|done|lia|done|].
    exists (pad_loop 4 bit), buf. do 3 (split; [done|]). split; [lia|]. split; [done|]. split; [done|].
    intros i Hi. rewrite (Hf i Hi). f_equal. by rewrite !top_all by lia.
Qed.

Lemma filled_zeros raw n rest : bytes_ok raw -> (length raw <= n)%nat -> filled raw 0 (replicate n 0 ++ rest).
Proof.
  intros Hraw Hn i Hi. rewrite lookup_app_l by (rewrite length_replicate; lia).
  rewrite lookup_replicate_2 by lia. by rewrite top_none by (try apply byte_at_byte; auto; lia).
Qed.

Lemma filled_all raw buf : zlen raw < zlen buf -> filled raw (8 * zlen raw) buf -> take (length raw) buf = raw.
Proof.
  intros Hl Hf. apply list_eq. intros i. destruct (decide (i < length raw)%nat) as [Hi|Hi].
  - rewrite lookup_take_lt by lia. specialize (Hf (Z.of_nat i) ltac:(lia)). rewrite Nat2Z.id in Hf. rewrite Hf, top_all by lia.
    unfold byte_at. rewrite Nat2Z.id. by destruct (lookup_lt_is_Some_2 raw i Hi) as [x ->].
  - rewrite lookup_take_ge by lia. by rewrite lookup_ge_None_2 by lia.
Qed.

(** ** The round trips. *)

(** Base16 data written to a buffer of the documented size is a
    string that ends in a NUL, of the documented length, and decoding that
    string gives the data back. *)
Theorem base16_roundtrip b raw encoded buf :
  bytes_ok (b :: raw) -> zlen encoded = base16_encoded_len (zlen (b :: raw)) + 1 ->
  exists s, base16_encode (b :: raw) encoded = Some (s ++ [0]) /\ zlen s = base16_encoded_len (zlen (b :: raw)) /\
    (zlen buf = base16_decoded_max_len s -> base16_decode s buf = Some (b :: raw, inl (zlen (b :: raw)))).
Proof.
  intros Hraw Hl. unfold base16_encoded_len in *. exists (hex_of (b :: raw)).
  pose proof (hex_of_length _ Hraw) as Hlen. split; [|split; [lia|]].
  - pose proof (base16_encode_at_spec raw b [] encoded Hraw ltac:(simpl in Hl; lia)) as H.
    rewrite drop_ge in H by (simpl in Hl; lia). exact H.
  - unfold base16_decoded_max_len, base16_decode. rewrite Hlen. intros Hb.
    assert (length buf = length (b :: raw)) as Hb' by zdm.
    pose proof (base16_decode_at_spec (b :: raw) (2 * length (b :: raw)) [] buf [] Hraw Hb' ltac:(lia)) as H.
    by rewrite !app_nil_r in H.
Qed.

(** Base64 data written to a buffer of the documented size is a
    string that ends in a NUL, of the documented length, and decoding that
    string gives the data back, in a buffer with one byte more than the
    documented size. *)
Theorem base64_roundtrip raw encoded buf :
  bytes_ok raw -> 8 * zlen raw + 24 < 2 ^ 32 -> zlen encoded = base64_encoded_len (zlen raw) + 1 ->
  exists s, base64_encode raw encoded = Some (s ++ [0]) /\ zlen s = base64_encoded_len (zlen raw) /\ cstring s /\
    (base64_decoded_max_len s < zlen buf -> exists buf',
      base64_decode s buf = Some (buf', inl (zlen raw)) /\ take (length raw) buf' = raw).
Proof.
  intros Hraw Hw Hl. unfold base64_encoded_len in *.
  assert (forall buf, zlen raw < zlen buf -> filled raw 0 buf -> exists s buf', encode_loop (S (2 * length raw)) raw 0 = Some s /\
    cstring s /\ zlen s = (zlen raw + 3 - 1) / 3 * 4 /\ decode_loop s buf 0 0 = Some (buf', inl (8 * zlen raw)) /\
    take (length raw) buf' = raw) as Hrun.
  { intros buf0 H1 H2. destruct (decode_encode_loop raw (S (2 * length raw)) 0 buf0) as (s & buf' & E & Hs & Hm & Hr & Hd & Hl' & Hf);
      [done|done|lia|done|done|done|lia|].
    exists s, buf'. split; [done|]. split; [done|]. split; [zdm|]. split; [done|]. apply filled_all; [lia|done]. }
  destruct (Hrun (replicate (S (length raw)) 0 ++ [])) as (s & _ & E & Hs & Hlen & _);
    [rewrite app_nil_r, length_replicate; lia|by apply filled_zeros; [|lia]|].
  exists s. unfold base64_encode. rewrite E. cbn [mbind option_bind].
  assert (bytes_ok (s ++ [0])) as Hb.
  { apply Forall_app. split; [|by apply Forall_singleton]. eapply Forall_impl; [exact Hs|]. unfold is_char, is_byte. lia. }
  split; [|split; [done|split; [done|]]].
  - pose proof (stores_app (s ++ [0]) [] encoded [] Hb ltac:(rewrite length_app; simpl length; lia)) as H.
    by rewrite !app_nil_r in H.
  - unfold base64_decode, base64_decoded_max_len. intros Hbuf. set (m := Z.to_nat _).
    assert (length raw <= m)%nat as Hm by (subst m; rewrite Hlen; zdm).
    assert (m < length buf)%nat as Hmb by (subst m; zdm).
    pose proof (stores_app (replicate m 0) [] (take m buf) (drop m buf)
      ltac:(by apply Forall_replicate) ltac:(rewrite length_take, length_replicate; lia)) as H.
    cbn [app length] in H. rewrite take_drop in H. rewrite H. cbn [mbind option_bind].
    destruct (Hrun (replicate m 0 ++ drop m buf)) as (s' & buf' & E' & _ & _ & Hd & Ht).
    { rewrite length_app, length_replicate, length_drop. lia. }
    { by apply filled_zeros. }
    rewrite E in E'. injection E' as <-. rewrite Hd. cbn [mbind option_bind].
    exists buf'. split; [|done]. rewrite Z.mul_comm, Z.mod_mul, Z.div_mul by lia. done.
Qed.

Lemma base64_roundtrip_witness : exists s, base64_encode [77; 97; 110; 33] (replicate 9 0) = Some (s ++ [0]) /\
  zlen s = base64_encoded_len 4 /\ cstring s /\
    (base64_decoded_max_len s < zlen (replicate 9 7) -> exists buf',
      base64_decode s (replicate 9 7) = Some (buf', inl 4) /\ take 4 buf' = [77; 97; 110; 33]).
Proof. apply (base64_roundtrip [77; 97; 110; 33]); [by_decide|by_decide|reflexivity]. Defined.

Lemma base16_roundtrip_witness : exists s, base16_encode [77; 255] (replicate 5 7) = Some (s ++ [0]) /\
  zlen s = base16_encoded_len 2 /\
    (zlen (replicate 2 7) = base16_decoded_max_len s -> base16_decode s (replicate 2 7) = Some ([77; 255], inl 2)).
Proof. apply (base16_roundtrip 77 [255]); [by_decide|reflexivity]. Defined.

(** ** What the code does outside of the round trips. *)

(** In a buffer of the documented size, the decoder touches the byte after
    the end when the last group has no padding. *)
Theorem base64_exact_buffer_overruns : base64_decode (cstr "TWFu") (replicate (Z.to_nat (base64_decoded_max_len (cstr "TWFu"))) 0) = None.
Proof. vm_compute. reflexivity. Qed.

(** A character that is not of the alphabet makes the search leave the
    table. *)
Theorem base64_foreign_char c encoded raw bit : is_char c -> isspace c = false -> c <> PAD -> c ∉ base64 ->
  decode_loop (c :: encoded) raw bit 0 = None.
Proof.
  intros Hc Hs Hp Hn. cbn [decode_loop]. rewrite Hs. destruct (Z.eqb_spec c PAD); [done|]. cbn [ctrue Z.eqb negb].
  rewrite strchr_None; [done|exact Hc| |done]. by_decide.
Qed.

(** Nothing is written, not even a NUL, for no data. *)
Theorem base16_encode_nothing encoded : base16_encode [] encoded = Some encoded.
Proof. done. Qed.
