(* ===== verification/DhcpOpts.v ===== *)
(** * DHCP options: src/src/net/dhcpopts.c, src/src/include/ipxe/dhcpopts.h
    and the tags of src/src/include/ipxe/dhcp.h.

    A block of options is the memory from its first byte on, as far as it
    can be accessed: the first [alloc_len] bytes belong to the block, what
    follows is other memory.  The reallocator of a block is an argument.  A
    result [None] is an access outside of that memory; debug output is left
    out. *)
From S2P Require Import Prelude.

Definition DHCP_PAD : Z := 0.
Definition DHCP_END : Z := 255.
Definition DHCP_MAX_OPTION : Z := 254.
Definition DHCP_OPTION_HEADER_LEN : Z := 2.
Definition DHCP_MAX_LEN : Z := 255.
Definition DHCP_ENCAP_OPT (encapsulator encapsulated : Z) : Z := Z.lor (Z.shiftl encapsulator 8) encapsulated.
Definition DHCP_ENCAPSULATOR (encap_opt : Z) : Z := Z.shiftr encap_opt 8.
Definition DHCP_ENCAPSULATED (encap_opt : Z) : Z := Z.land encap_opt 255.
Definition DHCP_IS_ENCAP_OPT (opt : Z) : bool := ctrue (DHCP_ENCAPSULATOR opt).

Record dhcp_options := DhcpOptions {
  opt_data : list Z;
  used_len : Z;
  alloc_len : Z }.

Definition set_data (d : list Z) (o : dhcp_options) : dhcp_options := DhcpOptions d (used_len o) (alloc_len o).
Definition set_used (n : Z) (o : dhcp_options) : dhcp_options := DhcpOptions (opt_data o) n (alloc_len o).

(** Reads and writes of memory. *)
Definition byte (mem : list Z) (i : Z) : option Z := mem !! Z.to_nat i.
Definition peek (mem : list Z) (i n : Z) : option (list Z) :=
  if i + n <=? zlen mem then Some (take (Z.to_nat n) (drop (Z.to_nat i) mem)) else None.
Definition poke (mem : list Z) (i : Z) (s : list Z) : option (list Z) :=
  if i + zlen s <=? zlen mem then Some (take (Z.to_nat i) mem ++ s ++ drop (Z.to_nat i + length s) mem) else None.

(** The tag and the length of the option at an offset. *)
Definition dhcp_option_len (mem : list Z) (offset : Z) : option Z :=
  tag ← byte mem offset;
  if (tag =? DHCP_END) || (tag =? DHCP_PAD) then Some 1 else
  len ← byte mem (offset + 1);
  Some (len + DHCP_OPTION_HEADER_LEN).

(** The search; the offset of the encapsulator is returned with the
    result. *)
Fixpoint find_loop (fuel : nat) (mem : list Z) (tag encap_offset offset remaining : Z) : option ((Z + errno) * Z) :=
  match fuel with
  | O => None
  | S fuel =>
      if remaining =? 0 then Some (inr ENOENT, encap_offset) else
      option_len ← dhcp_option_len mem offset;
      let remaining := s32 (remaining - option_len) in
      if remaining <? 0 then Some (inr ENOENT, encap_offset) else
      option_tag ← byte mem offset;
      if option_tag =? DHCP_END then
        Some (if tag =? DHCP_END then inl offset else inr ENOENT, encap_offset)
      else if option_tag =? tag then Some (inl offset, encap_offset)
      else if DHCP_IS_ENCAP_OPT tag && (option_tag =? DHCP_ENCAPSULATOR tag) then
        find_loop fuel mem (DHCP_ENCAPSULATED tag) offset (offset + DHCP_OPTION_HEADER_LEN) option_len
      else find_loop fuel mem tag encap_offset (offset + option_len) remaining
  end.

(** Every round but one takes at least a byte off what remains, and that one
    starts again with the length of an option. *)
Definition find_fuel (o : dhcp_options) : nat := Z.to_nat (used_len o) + 260.

Definition find_dhcp_option_with_encap (o : dhcp_options) (tag encap_offset : Z) : option ((Z + errno) * Z) :=
  if tag =? DHCP_PAD then Some (inr ENOENT, encap_offset)
  else find_loop (find_fuel o) (opt_data o) tag encap_offset 0 (s32 (used_len o)).

Definition dhcpopt_no_realloc (o : dhcp_options) (len : Z) : dhcp_options + errno :=
  if len <=? alloc_len o then inl o else inr ENOSPC.

Section DhcpOpts.
Variable realloc : dhcp_options -> Z -> dhcp_options + errno.
Implicit Types (o : dhcp_options).

(** Expansion of the block, with the new bytes cleared. *)
Definition expand o (new_used_len : Z) : option (dhcp_options + errno) :=
  if alloc_len o <? new_used_len then
    match realloc o new_used_len with
    | inr e => Some (inr e)
    | inl o' =>
        mem ← poke (opt_data o') (alloc_len o) (replicate (Z.to_nat (u32 (alloc_len o' - alloc_len o))) 0);
        Some (inl (set_data mem o'))
    end
  else Some (inl o).

(** The new length of the encapsulator, if there is one. *)
Definition update_encapsulator o (encap_offset delta : Z) : option (dhcp_options + errno) :=
  if 0 <=? encap_offset then
    len ← byte (opt_data o) (encap_offset + 1);
    let new_encapsulator_len := u32 (len + delta) in
    if DHCP_MAX_LEN <? new_encapsulator_len then Some (inr ENOSPC) else
    mem ← poke (opt_data o) (encap_offset + 1) [u8 new_encapsulator_len];
    Some (inl (set_data mem o))
  else Some (inl o).

(** The rest of the block is moved up to the end of the block. *)
Definition move_options o (offset old_len new_len : Z) : option dhcp_options :=
  let dest := offset + new_len in
  s ← peek (opt_data o) (offset + old_len) (u32 (alloc_len o - dest));
  mem ← poke (opt_data o) dest s;
  Some (set_data mem o).

Definition resize_dhcp_option o (offset encap_offset old_len new_len : Z) : option (dhcp_options * option errno) :=
  let delta := s32 (new_len - old_len) in
  if DHCP_MAX_LEN <? new_len then Some (o, Some ENOSPC) else
  let new_used_len := u32 (used_len o + delta) in
  r ← expand o new_used_len;
  match r with
  | inr e => Some (o, Some e)
  | inl o =>
      r ← update_encapsulator o encap_offset delta;
      match r with
      | inr e => Some (o, Some e)
      | inl o =>
          o ← move_options (set_used new_used_len o) offset old_len new_len;
          if new_used_len <? alloc_len o then
            match realloc o new_used_len with
            | inr e => Some (o, Some e)
            | inl o => Some (o, None)
            end
          else Some (o, None)
      end
  end.

(** The contents of the option. *)
Definition write_option o (offset tag : Z) (data : list Z) : option dhcp_options :=
  mem ← poke (opt_data o) offset [u8 tag; u8 (zlen data)];
  mem ← poke mem (offset + 2) data;
  Some (set_data mem o).

Definition new_option_len (data : list Z) : Z :=
  if ctrue (zlen data) then u32 (zlen data + DHCP_OPTION_HEADER_LEN) else 0.

(** The option resized and filled in. *)
Definition put_option o (offset encap_offset old_len tag : Z) (data : list Z) : option (dhcp_options * option errno) :=
  '(o, rc) ← resize_dhcp_option o offset encap_offset old_len (new_option_len data);
  match rc with
  | Some e => Some (o, Some e)
  | None =>
      o ← (if ctrue (zlen data) then write_option o offset tag data else Some o);
      Some (o, None)
  end.

(** A call for the encapsulator has a tag of eight bits less, so that the
    recursion ends at a tag of eight bits. *)
Fixpoint set_dhcp_option (fuel : nat) o (tag : Z) (data : list Z) : option (dhcp_options * (Z + errno)) :=
  match fuel with
  | O => None
  | S fuel =>
      let encap_tag := DHCP_ENCAPSULATOR tag in
      if tag =? DHCP_PAD then Some (o, inr ENOTTY) else
      '(r, _) ← find_dhcp_option_with_encap o DHCP_END (-1);
      let creation_offset := match r with inl n => n | inr _ => used_len o end in
      '(found, encap_offset) ← find_dhcp_option_with_encap o tag (-1);
      old_len ← match found with inl n => dhcp_option_len (opt_data o) n | inr _ => Some 0 end;
      '(o, r) ←
        (if ctrue encap_tag then
           '(o, r) ← (if encap_offset <? 0 then set_dhcp_option fuel o encap_tag [DHCP_END] else Some (o, inl encap_offset));
           Some (o, match r with inl n => inl (n, n + DHCP_OPTION_HEADER_LEN) | inr e => inr e end)
         else Some (o, inl (encap_offset, creation_offset)));
      match r with
      | inr e => Some (o, inr e)
      | inl (encap_offset, creation_offset) =>
          let offset := match found with inl n => n | inr _ => creation_offset end in
          '(o, rc) ← put_option o offset encap_offset old_len tag data;
          match rc with
          | Some e => Some (o, inr e)
          | None =>
              o ← (if 0 <=? encap_offset then
                     len ← byte (opt_data o) (encap_offset + 1);
                     if len <=? 1 then fst <$> set_dhcp_option fuel o encap_tag [] else Some o
                   else Some o);
              Some (o, inl offset)
          end
      end
  end.

Definition dhcpopt_store o (tag : Z) (data : list Z) : option (dhcp_options * option errno) :=
  '(o, r) ← set_dhcp_option 5 o tag data;
  Some (o, match r with inl _ => None | inr e => Some e end).
End DhcpOpts.

Definition dhcpopt_applies (tag : Z) : bool :=
  ctrue tag && (tag <=? DHCP_ENCAP_OPT DHCP_MAX_OPTION DHCP_MAX_OPTION).

(** The bytes copied to a buffer of [len] bytes, and the length or error. *)
Definition dhcpopt_fetch (o : dhcp_options) (tag len : Z) : option (list Z * (Z + errno)) :=
  '(r, _) ← find_dhcp_option_with_encap o tag (-1);
  match r with
  | inr e => Some ([], inr e)
  | inl offset =>
      option_len ← byte (opt_data o) (offset + 1);
      s ← peek (opt_data o) (offset + 2) (Z.min len option_len);
      Some (s, inl option_len)
  end.

Fixpoint used_loop (fuel : nat) (mem : list Z) (offset remaining used : Z) : option Z :=
  match fuel with
  | O => None
  | S fuel =>
      if remaining =? 0 then Some used else
      option_len ← dhcp_option_len mem offset;
      let remaining := s32 (remaining - option_len) in
      if remaining <? 0 then Some used else
      tag ← byte mem offset;
      let offset' := offset + option_len in
      used_loop fuel mem offset' remaining (if negb (tag =? DHCP_PAD) then offset' else used)
  end.
Definition dhcpopt_update_used_len (o : dhcp_options) : option dhcp_options :=
  used ← used_loop (S (Z.to_nat (alloc_len o))) (opt_data o) 0 (s32 (alloc_len o)) 0;
  Some (set_used used o).

Definition dhcpopt_init (data : list Z) (alloc_len : Z) : option dhcp_options :=
  dhcpopt_update_used_len (DhcpOptions data 0 alloc_len).

(** ** Blocks.  The items of a block, their bytes, and the value of a
    tag. *)
Inductive item :=
| Pad
| Opt (tag : Z) (d : list Z).

Definition enc_item (it : item) : list Z :=
  match it with
  | Pad => [DHCP_PAD]
  | Opt t d => t :: zlen d :: d
  end.
Fixpoint enc (items : list item) : list Z :=
  match items with
  | [] => []
  | it :: items => enc_item it ++ enc items
  end.

Definition plain_tag (t : Z) : Prop := 1 <= t <= DHCP_MAX_OPTION.
Definition item_ok (it : item) : Prop :=
  match it with
  | Pad => True
  | Opt t d => plain_tag t /\ zlen d <= 255
  end.

#[export] Instance item_ok_dec it : Decision (item_ok it).
Proof. destruct it; unfold item_ok, plain_tag; apply _. Defined.

Fixpoint value (tag : Z) (items : list item) : option (list Z) :=
  match items with
  | [] => None
  | Pad :: items => value tag items
  | Opt t d :: items => if decide (t = tag) then Some d else value tag items
  end.

(** An option set to [d], or removed when [d] is empty. *)
Definition new_item (tag : Z) (d : list Z) : list item := match d with [] => [] | _ => [Opt tag d] end.
Fixpoint set_value (tag : Z) (d : list Z) (items : list item) : list item :=
  match items with
  | [] => new_item tag d
  | Opt t d' :: items => if decide (t = tag) then new_item tag d ++ items else Opt t d' :: set_value tag d items
  | it :: items => it :: set_value tag d items
  end.

(** The memory around a block: what moving the options reads behind it can
    be accessed, and lengths do not overflow. *)
Record mem_ok (o : dhcp_options) : Prop := {
  mem_alloc : 0 <= alloc_len o;
  mem_behind : alloc_len o + 257 <= zlen (opt_data o);
  mem_small : alloc_len o + 1024 < 2 ^ 31 }.

(** A block with items, then nothing or an end marker with anything after
    it. *)
Record block (o : dhcp_options) (items : list item) (tl : list Z) : Prop := {
  blk_mem : mem_ok o;
  blk_data : exists rest, opt_data o = enc items ++ tl ++ rest;
  blk_used : used_len o = zlen (enc items ++ tl);
  blk_room : used_len o <= alloc_len o;
  blk_items : Forall item_ok items;
  blk_tl : tl = [] \/ exists t, tl = DHCP_END :: t }.

(** What the code expects of a reallocator: it keeps the contents. *)
Class Reallocates (realloc : dhcp_options -> Z -> dhcp_options + errno) : Prop := {
  realloc_keeps o len o' : mem_ok o -> 0 <= len -> realloc o len = inl o' ->
    mem_ok o' /\ used_len o' = used_len o /\ len <= alloc_len o' /\
    forall n, Z.of_nat n <= Z.min len (alloc_len o) -> take n (opt_data o') = take n (opt_data o) }.

(** It does not refuse to shrink a block.  The reallocator of non-volatile
    options, nvo_realloc_dhcpopt(), may refuse; what happens then is shown by
    [failed_shrink_loses_value]. *)
Class Shrinks (realloc : dhcp_options -> Z -> dhcp_options + errno) : Prop :=
  realloc_fits o len : mem_ok o -> 0 <= len <= alloc_len o -> exists o', realloc o len = inl o'.

#[export] Instance no_realloc_reallocates : Reallocates dhcpopt_no_realloc.
Proof. unfold dhcpopt_no_realloc. split. intros o len o' Hm Hl. destruct (Z.leb_spec len (alloc_len o)); [|done]. by intros [= <-]. Qed.
#[export] Instance no_realloc_shrinks : Shrinks dhcpopt_no_realloc.
Proof. intros o len _ H. unfold dhcpopt_no_realloc. destruct (Z.leb_spec len (alloc_len o)); [by eexists|lia]. Qed.

(** ** Memory. *)
Lemma byte_app a x b i : i = zlen a -> byte (a ++ x :: b) i = Some x.
Proof. intros ->. unfold byte. rewrite Nat2Z.id. by rewrite lookup_app_r, Nat.sub_diag by lia. Qed.

Lemma peek_app a s b i n : i = zlen a -> n = zlen s -> peek (a ++ s ++ b) i n = Some s.
Proof.
  intros -> ->. unfold peek. rewrite !length_app. destruct (Z.leb_spec (zlen a + zlen s) (Z.of_nat (length a + (length s + length b)))); [|lia].
  by rewrite !Nat2Z.id, drop_app_length, take_app_length.
Qed.

Lemma poke_app a x b i s : i = zlen a -> length s = length x -> poke (a ++ x ++ b) i s = Some (a ++ s ++ b).
Proof.
  intros -> Hl. unfold poke. rewrite !length_app. destruct (Z.leb_spec (zlen a + zlen s) (Z.of_nat (length a + (length x + length b)))); [|lia].
  rewrite Nat2Z.id, take_app_length, Hl, drop_app_add, drop_app_length. done.
Qed.

Lemma enc_app a b : enc (a ++ b) = enc a ++ enc b.
Proof. induction a as [|it a IH]; [done|]. cbn [enc app]. by rewrite IH, app_assoc. Qed.

Lemma enc_length items : (length items <= length (enc items))%nat.
Proof. induction items as [|[|t d] items IH]; cbn [enc enc_item app length]; rewrite ?length_app; lia. Qed.

(** ** The search. *)
Definition misses (tag : Z) (it : item) : Prop :=
  match it with
  | Pad => tag <> DHCP_PAD
  | Opt t _ => t <> tag /\ (DHCP_IS_ENCAP_OPT tag = true -> t <> DHCP_ENCAPSULATOR tag)
  end.

Lemma option_fields a t l d b : let mem := a ++ (t :: l :: d) ++ b in
  byte mem (zlen a) = Some t /\ byte mem (zlen a + 1) = Some l /\
  forall n, 0 <= n <= zlen d -> peek mem (zlen a + 2) n = Some (take (Z.to_nat n) d).
Proof.
  intros mem. split; [by apply byte_app|]. split.
  - subst mem. change (a ++ (t :: l :: d) ++ b) with (a ++ [t] ++ l :: d ++ b). rewrite app_assoc.
    apply byte_app. rewrite length_app. simpl. lia.
  - intros n Hn. subst mem. change (a ++ (t :: l :: d) ++ b) with (a ++ [t; l] ++ d ++ b).
    rewrite <- (take_drop (Z.to_nat n) d) at 1. rewrite <- (app_assoc (take _ d)), app_assoc.
    apply peek_app; [rewrite length_app; simpl; lia|]. rewrite length_take. lia.
Qed.

Lemma item_len it a b i : item_ok it -> i = zlen a -> dhcp_option_len (a ++ enc_item it ++ b) i = Some (zlen (enc_item it)).
Proof.
  intros Hok ->. unfold dhcp_option_len. destruct it as [|t d]; cbn [enc_item app]; rewrite (byte_app a _ _ (zlen a)) by done; cbn [mbind option_bind].
  { done. }
  destruct Hok as [Ht Hd]. unfold plain_tag, DHCP_MAX_OPTION, DHCP_END, DHCP_PAD in *.
  destruct (Z.eqb_spec t 255); [lia|]. destruct (Z.eqb_spec t 0); [lia|]. cbn [orb].
  change (a ++ t :: zlen d :: d ++ b) with (a ++ [t] ++ zlen d :: d ++ b).
  rewrite app_assoc, byte_app by (rewrite length_app; simpl; lia). cbn [mbind option_bind length].
  unfold DHCP_OPTION_HEADER_LEN. f_equal. lia.
Qed.

Lemma find_skip mem tag e fuel items : forall a b remaining,
  Forall item_ok items -> Forall (misses tag) items -> mem = a ++ enc items ++ b ->
  zlen (enc items) <= remaining < 2 ^ 31 ->
  find_loop (length items + fuel) mem tag e (zlen a) remaining =
    find_loop fuel mem tag e (zlen (a ++ enc items)) (remaining - zlen (enc items)).
Proof.
  induction items as [|it items IH]; intros a b remaining Hok Hms Em Hr.
  { cbn [enc length Nat.add]. by rewrite app_nil_r, Z.sub_0_r. }
  apply Forall_cons in Hok as [Hit Hok]. apply Forall_cons in Hms as [Hm Hms]. cbn [enc length Nat.add find_loop] in *.
  rewrite <- app_assoc in Em. rewrite length_app in Hr.
  assert (1 <= zlen (enc_item it)) as H1 by (destruct it; simpl; lia).
  destruct (Z.eqb_spec remaining 0); [lia|]. rewrite Em at 1. rewrite item_len by done. cbn [mbind option_bind].
  rewrite s32_id by lia. destruct (Z.ltb_spec (remaining - zlen (enc_item it)) 0); [lia|].
  specialize (IH (a ++ enc_item it) b (remaining - zlen (enc_item it)) Hok Hms ltac:(by rewrite <- app_assoc) ltac:(lia)).
  rewrite <- !app_assoc, (length_app a (enc_item it)), Nat2Z.inj_add in IH.
  replace (remaining - zlen (enc_item it ++ enc items)) with (remaining - zlen (enc_item it) - zlen (enc items))
    by (rewrite length_app; lia).
  rewrite <- IH. rewrite Em at 1. clear Em IH.
  destruct it as [|t d]; cbn [enc_item app]; rewrite byte_app by done; cbn [mbind option_bind misses] in *.
  - unfold DHCP_END, DHCP_PAD in *. change (0 =? 255) with false. destruct (Z.eqb_spec 0 tag); [congruence|].
    destruct (DHCP_IS_ENCAP_OPT tag) eqn:E; [|done]. unfold DHCP_IS_ENCAP_OPT, ctrue in E. cbn [andb].
    by destruct (Z.eqb_spec 0 (DHCP_ENCAPSULATOR tag)) as [E0|]; [rewrite <- E0 in E|].
  - destruct Hit as [Ht _]. unfold plain_tag, DHCP_MAX_OPTION, DHCP_END in *.
    destruct (Z.eqb_spec t 255); [lia|]. destruct (Z.eqb_spec t tag); [tauto|].
    destruct (DHCP_IS_ENCAP_OPT tag) eqn:E; [|done]. cbn [andb].
    destruct (Z.eqb_spec t (DHCP_ENCAPSULATOR tag)); [tauto|done].
Qed.

(** What the search meets after the items it skips. *)
Lemma find_end mem tag e fuel a b remaining tl :
  mem = a ++ tl ++ b -> zlen tl <= remaining < 2 ^ 31 -> (tl = [] -> remaining = 0) -> (tl = [] \/ exists t, tl = DHCP_END :: t) ->
  find_loop (S fuel) mem tag e (zlen a) remaining =
    Some (if decide (tl <> [] /\ tag = DHCP_END) then inl (zlen a) else inr ENOENT, e).
Proof.
  intros -> Hr H0 [-> | [t ->]]; cbn [find_loop].
  - rewrite (H0 eq_refl). cbn. by rewrite decide_False by tauto.
  - simpl length in Hr. destruct (Z.eqb_spec remaining 0); [lia|]. unfold dhcp_option_len.
    cbn [app]. rewrite !(byte_app a _ _ (zlen a)) by done. cbn [mbind option_bind orb]. change (DHCP_END =? DHCP_END) with true. cbn [orb mbind option_bind].
    rewrite s32_id by lia. destruct (Z.ltb_spec (remaining - 1) 0); [lia|].
    destruct (Z.eqb_spec tag DHCP_END); [by rewrite decide_True|by rewrite decide_False by tauto].
Qed.

Lemma find_here mem tag e fuel a d b remaining :
  item_ok (Opt tag d) -> mem = a ++ enc_item (Opt tag d) ++ b -> zlen d + 2 <= remaining < 2 ^ 31 ->
  find_loop (S fuel) mem tag e (zlen a) remaining = Some (inl (zlen a), e).
Proof.
  intros Hok -> Hr. cbn [find_loop]. destruct (Z.eqb_spec remaining 0); [lia|]. rewrite item_len by done.
  cbn [mbind option_bind enc_item length]. rewrite s32_id by lia.
  destruct (Z.ltb_spec (remaining - Z.of_nat (S (S (length d)))) 0); [lia|]. cbn [app]. rewrite byte_app by done.
  cbn [mbind option_bind]. destruct Hok as [Ht _]. unfold plain_tag, DHCP_MAX_OPTION, DHCP_END in *.
  destruct (Z.eqb_spec tag 255); [lia|]. by rewrite Z.eqb_refl.
Qed.

Lemma plain_not_encap tag : plain_tag tag -> DHCP_ENCAPSULATOR tag = 0 /\ DHCP_IS_ENCAP_OPT tag = false.
Proof.
  intros H. assert (DHCP_ENCAPSULATOR tag = 0) as E.
  { unfold DHCP_ENCAPSULATOR, plain_tag, DHCP_MAX_OPTION in *. rewrite Z.shiftr_div_pow2 by lia. apply Z.div_small. lia. }
  split; [done|]. unfold DHCP_IS_ENCAP_OPT. by rewrite E.
Qed.

(** The first option of a tag. *)
Lemma value_split tag items : plain_tag tag ->
  match value tag items with
  | Some d => exists a b, items = a ++ Opt tag d :: b /\ Forall (misses tag) a /\
      forall d', set_value tag d' items = a ++ new_item tag d' ++ b
  | None => Forall (misses tag) items /\ forall d', set_value tag d' items = items ++ new_item tag d'
  end.
Proof.
  intros Ht. pose proof (plain_not_encap tag Ht) as [_ Hne]. assert (misses tag Pad) as Hp by (unfold plain_tag in Ht; simpl; unfold DHCP_PAD; lia).
  induction items as [|it items IH]; [by split|]. cbn [value].
  assert (forall it, misses tag it -> (forall d', set_value tag d' (it :: items) = it :: set_value tag d' items) ->
    match value tag items with
    | Some d => exists a b, it :: items = a ++ Opt tag d :: b /\ Forall (misses tag) a /\
        forall d', set_value tag d' (it :: items) = a ++ new_item tag d' ++ b
    | None => Forall (misses tag) (it :: items) /\ forall d', set_value tag d' (it :: items) = (it :: items) ++ new_item tag d'
    end) as Hcons.
  { intros it' Hm Hs. destruct (value tag items) as [d|].
    - destruct IH as (a & b & -> & Ha & Hd). exists (it' :: a), b. split; [done|]. split; [by constructor|].
      intros d'. by rewrite Hs, Hd.
    - destruct IH as [Ha Hd]. split; [by constructor|]. intros d'. by rewrite Hs, Hd. }
  destruct it as [|t d]; [by apply (Hcons Pad)|]. destruct (decide (t = tag)) as [-> | Hn].
  - exists [], items. split; [done|]. split; [by constructor|]. intros d'. cbn [set_value]. by rewrite decide_True.
  - apply (Hcons (Opt t d)); [by split; [|rewrite Hne]|]. intros d'. cbn [set_value]. by rewrite decide_False.
Qed.

(** ** The search in a block. *)
Lemma find_from o items tl tag e : block o items tl -> Forall (misses tag) items -> tag <> DHCP_PAD ->
  find_dhcp_option_with_encap o tag e =
    Some (if decide (tl <> [] /\ tag = DHCP_END) then inl (zlen (enc items)) else inr ENOENT, e).
Proof.
  intros [[Ha Hb Hs] [rest Hd] Hu Hr Hi Ht] Hm Hp. unfold find_dhcp_option_with_encap, find_fuel.
  destruct (Z.eqb_spec tag DHCP_PAD); [done|]. rewrite s32_id by lia. rewrite length_app in Hu.
  pose proof (enc_length items).
  replace (Z.to_nat (used_len o) + 260)%nat with (length items + S (Z.to_nat (used_len o) + 259 - length items))%nat by lia.
  change 0 with (zlen (@nil Z)). rewrite (find_skip _ tag e _ items [] (tl ++ rest)) by (auto; lia).
  change ([] ++ enc items) with (enc items). apply (find_end _ tag e _ (enc items) rest _ tl); [done|lia| |done].
  intros ->. simpl in Hu. lia.
Qed.

Lemma find_option o tl tag d a b e : block o (a ++ Opt tag d :: b) tl -> Forall (misses tag) a ->
  find_dhcp_option_with_encap o tag e = Some (inl (zlen (enc a)), e).
Proof.
  intros [[Ha Hb Hs] [rest Hd] Hu Hr Hi Ht] Hm. unfold find_dhcp_option_with_encap, find_fuel.
  apply Forall_app in Hi as [Hia Hi]. apply Forall_cons in Hi as [Hit Hib].
  destruct (Z.eqb_spec tag DHCP_PAD) as [-> |]; [destruct Hit as [[] _]; unfold DHCP_PAD in *; lia|].
  rewrite enc_app in *. cbn [enc] in *. rewrite !length_app in Hu. cbn [enc_item length] in Hu. rewrite s32_id by lia. pose proof (enc_length a).
  replace (Z.to_nat (used_len o) + 260)%nat with (length a + S (Z.to_nat (used_len o) + 259 - length a))%nat by lia.
  change 0 with (zlen (@nil Z)). rewrite <- !app_assoc in Hd.
  rewrite (find_skip _ tag e _ a [] _ _ Hia Hm Hd) by lia.
  change ([] ++ enc a) with (enc a). eapply (find_here _ tag e _ (enc a) d); [done|exact Hd|lia].
Qed.

Lemma end_misses items : Forall item_ok items -> Forall (misses DHCP_END) items.
Proof.
  intros H. eapply Forall_impl; [exact H|]. intros [|t d]; [done|]. intros [[Ht1 Ht2] _]. unfold DHCP_MAX_OPTION in Ht2. simpl.
  split; [unfold DHCP_END; lia|done].
Qed.

(** Where a new option goes. *)
Lemma creation_offset o items tl e : block o items tl ->
  exists r, find_dhcp_option_with_encap o DHCP_END e = Some (r, e) /\
    match r with inl n => n | inr _ => used_len o end = zlen (enc items).
Proof.
  intros Hb. eexists. split; [apply (find_from o items tl); [done|apply end_misses, Hb|done]|].
  pose proof (blk_used _ _ _ Hb) as Hu. destruct (blk_tl _ _ _ Hb) as [-> | [t ->]].
  - rewrite decide_False by tauto. by rewrite app_nil_r in Hu.
  - by rewrite decide_True.
Qed.

(** The option as a tag names it. *)
Lemma find_value o items tl tag e : block o items tl -> plain_tag tag ->
  match value tag items with
  | Some d => exists a b, items = a ++ Opt tag d :: b /\ Forall (misses tag) a /\
      (forall d', set_value tag d' items = a ++ new_item tag d' ++ b) /\
      find_dhcp_option_with_encap o tag e = Some (inl (zlen (enc a)), e)
  | None => Forall (misses tag) items /\ (forall d', set_value tag d' items = items ++ new_item tag d') /\
      find_dhcp_option_with_encap o tag e = Some (inr ENOENT, e)
  end.
Proof.
  intros Hb Ht. pose proof (value_split tag items Ht) as Hv. destruct (value tag items) as [d|].
  - destruct Hv as (a & b & -> & Hm & Hs). exists a, b. do 3 (split; [done|]). by apply (find_option o tl tag d a b).
  - destruct Hv as [Hm Hs]. do 2 (split; [done|]). unfold plain_tag, DHCP_MAX_OPTION in Ht.
    rewrite (find_from o items tl) by (try done; unfold DHCP_PAD; lia). rewrite decide_False; [done|]. unfold DHCP_END. lia.
Qed.

(** Reading a block is looking up its items. *)
Lemma fetch_value o items tl tag len : block o items tl -> plain_tag tag -> 0 <= len ->
  dhcpopt_fetch o tag len =
    Some (match value tag items with
          | Some d => (take (Z.to_nat len) d, inl (zlen d))
          | None => ([], inr ENOENT)
          end).
Proof.
  intros Hb Ht Hl. unfold dhcpopt_fetch. pose proof (find_value o items tl tag (-1) Hb Ht) as Hv. destruct (value tag items) as [d|].
  - destruct Hv as (a & b & -> & _ & _ & ->). cbn [mbind option_bind].
    destruct (blk_data _ _ _ Hb) as [rest Hd]. rewrite enc_app in Hd. cbn [enc enc_item] in Hd. rewrite <- !app_assoc in Hd.
    rewrite Hd. destruct (option_fields (enc a) tag (zlen d) d (enc b ++ tl ++ rest)) as (_ & E1 & E2).
    rewrite E1. cbn [mbind option_bind]. rewrite E2 by lia. cbn [mbind option_bind]. do 2 f_equal.
    destruct (decide (len <= zlen d)); [by rewrite Z.min_l by lia|]. by rewrite Z.min_r, !take_ge by lia.
  - destruct Hv as (_ & _ & ->). done.
Qed.

(** ** Resizing. *)
Section resize.
Context (realloc : dhcp_options -> Z -> dhcp_options + errno) `{!Reallocates realloc, !Shrinks realloc}.
Implicit Types (o : dhcp_options).

(** A reallocation that keeps what lies in front of its new length. *)
Lemma realloc_prefix o o' len p rest : mem_ok o -> realloc o len = inl o' -> opt_data o = p ++ rest ->
  zlen p <= len -> zlen p <= alloc_len o -> exists rest', opt_data o' = p ++ rest'.
Proof.
  intros Hm E Hd Hl Ha. destruct (realloc_keeps o len o' Hm ltac:(lia) E) as (_ & _ & _ & Ht).
  exists (drop (length p) (opt_data o')). rewrite <- (take_drop (length p) (opt_data o')) at 1. f_equal.
  rewrite (Ht (length p)) by lia. rewrite Hd. apply take_app_length.
Qed.

Lemma expand_run o n p rest : mem_ok o -> opt_data o = p ++ rest -> used_len o = zlen p -> used_len o <= alloc_len o -> 0 <= n ->
  exists r, expand realloc o n = Some r /\
    match r with
    | inr _ => alloc_len o < n
    | inl o1 => mem_ok o1 /\ (exists rest', opt_data o1 = p ++ rest') /\ used_len o1 = used_len o /\ used_len o1 <= alloc_len o1 /\
        n <= alloc_len o1
    end.
Proof.
  intros Hm Hd Hu Hr Hn. unfold expand. destruct (Z.ltb_spec (alloc_len o) n) as [Hlt|Hge].
  - destruct (realloc o n) as [o'|e] eqn:E; [|by eexists].
    destruct (realloc_keeps o n o' Hm Hn E) as (Hm' & Hu' & Hl & _).
    destruct (realloc_prefix o o' n p rest) as [rest' Hd']; [done..|lia|lia|].
    pose proof (mem_behind _ Hm'). pose proof (mem_small _ Hm'). pose proof (mem_alloc _ Hm).
    rewrite wrap_small by lia. set (k := Z.to_nat (alloc_len o' - alloc_len o)).
    unfold poke. rewrite length_replicate. destruct (Z.leb_spec (alloc_len o + Z.of_nat k) (zlen (opt_data o'))); [|lia].
    cbn [mbind option_bind]. eexists. split; [reflexivity|]. unfold set_data; cbn [opt_data used_len alloc_len].
    split; [split; cbn; [apply Hm'| |apply Hm']|].
    { rewrite !length_app, length_replicate, length_take, length_drop. lia. }
    split; [|lia]. rewrite Hd'. rewrite take_app_ge by lia. rewrite <- app_assoc. by eexists.
  - eexists. split; [done|]. split; [done|]. split; [by eexists|]. lia.
Qed.

Lemma move_run o a old b rest new : mem_ok o -> opt_data o = a ++ old ++ b ++ rest -> 0 <= new -> zlen old <= 257 ->
  zlen a + new + zlen b <= alloc_len o ->
  exists x rest', move_options o (zlen a) (zlen old) new = Some (set_data (a ++ x ++ b ++ rest') o) /\ zlen x = new /\
    length (a ++ x ++ b ++ rest') = length (opt_data o).
Proof.
  intros Hm Hd Hn Ho Hfit. unfold move_options. pose proof (mem_behind _ Hm). pose proof (mem_small _ Hm).
  rewrite wrap_small by lia. set (n := alloc_len o - (zlen a + new)).
  unfold peek. destruct (Z.leb_spec (zlen a + zlen old + n) (zlen (opt_data o))); [|lia]. cbn [mbind option_bind].
  set (s := take (Z.to_nat n) _). assert (zlen s = n) as Hls by (subst s; rewrite length_take, length_drop; lia).
  unfold poke. destruct (Z.leb_spec (zlen a + new + zlen s) (zlen (opt_data o))); [|lia]. cbn [mbind option_bind].
  assert (exists x, take (Z.to_nat (zlen a + new)) (opt_data o) = a ++ x /\ zlen x = new) as (x & Ex & Hx).
  { exists (take (Z.to_nat new) (old ++ b ++ rest)). rewrite Hd, take_app_ge by lia. split; [do 2 f_equal; lia|].
    rewrite length_take. rewrite Hd, length_app in H. lia. }
  assert (exists r, s = b ++ r) as [r Er].
  { subst s. rewrite Hd, app_assoc. replace (Z.to_nat (zlen a + zlen old)) with (length (a ++ old)) by (rewrite length_app; lia).
    rewrite drop_app_length, take_app_ge by lia. by eexists. }
  exists x, (r ++ drop (Z.to_nat (zlen a + new) + length s) (opt_data o)). rewrite Ex, Er, <- !app_assoc. split; [done|]. split; [done|].
  rewrite !length_app, length_drop. rewrite Er, !length_app in Hls. lia.
Qed.

(** The length of the encapsulator at [e], in the bytes [a] in front of the
    option, changed by [delta]; none if [e] is negative. *)
Inductive encap_at (delta : Z) : Z -> list Z -> list Z -> bool -> Prop :=
| no_encap e a : e < 0 -> encap_at delta e a a true
| encap_fits a1 t l a2 : 0 <= l + delta <= 255 ->
    encap_at delta (zlen a1) (a1 ++ t :: l :: a2) (a1 ++ t :: l + delta :: a2) true
| encap_over a1 t l a2 a' : 255 < l + delta < 2 ^ 32 -> encap_at delta (zlen a1) (a1 ++ t :: l :: a2) a' false.

Lemma encap_at_length delta e a a' : encap_at delta e a a' true -> length a' = length a.
Proof. intros H. inversion H; subst; [done|]. rewrite !length_app. done. Qed.

Lemma encapsulator_run o e delta a a' c fits : opt_data o = a ++ c -> encap_at delta e a a' fits ->
  update_encapsulator o e delta = Some (if fits then inl (set_data (a' ++ c) o) else inr ENOSPC).
Proof.
  intros Hd He. unfold update_encapsulator, DHCP_MAX_LEN.
  destruct He as [e a He|a1 t l a2 Hl|a1 t l a2 a' Hl].
  - destruct (Z.leb_spec 0 e); [lia|]. rewrite <- Hd. by destruct o.
  - destruct (Z.leb_spec 0 (zlen a1)); [|lia]. rewrite Hd, <- app_assoc. cbn [app].
    destruct (option_fields a1 t l a2 c) as (_ & E & _). cbn [app] in E. rewrite E. cbn [mbind option_bind].
    rewrite wrap_small by lia. destruct (Z.ltb_spec 255 (l + delta)); [lia|]. rewrite wrap_small by lia.
    change (a1 ++ t :: l :: a2 ++ c) with (a1 ++ [t] ++ [l] ++ a2 ++ c). rewrite app_assoc, poke_app by (rewrite ?length_app; simpl; lia).
    cbn [mbind option_bind]. by rewrite <- !app_assoc.
  - destruct (Z.leb_spec 0 (zlen a1)); [|lia]. rewrite Hd, <- app_assoc. cbn [app].
    destruct (option_fields a1 t l a2 c) as (_ & E & _). cbn [app] in E. rewrite E. cbn [mbind option_bind].
    rewrite wrap_small by lia. destruct (Z.ltb_spec 255 (l + delta)); [done|lia].
Qed.

(** Memory whose used part is [p]. *)
Record holds o (p : list Z) : Prop := {
  hold_mem : mem_ok o;
  hold_data : exists rest, opt_data o = p ++ rest;
  hold_used : used_len o = zlen p;
  hold_room : used_len o <= alloc_len o }.

Lemma shrink_run o p : holds o p ->
  exists o', (if used_len o <? alloc_len o then
                match realloc o (used_len o) with inr e => Some (o, Some e) | inl o => Some (o, None) end
              else Some (o, None)) = Some (o', @None errno) /\ holds o' p.
Proof.
  intros [Hm [rest Hd] Hu Hr]. destruct (Z.ltb_spec (used_len o) (alloc_len o)); [|by exists o; split; [|split; [|eexists| |]]].
  destruct (realloc_fits o (used_len o) Hm ltac:(lia)) as [o' E]. rewrite E. exists o'. split; [done|].
  destruct (realloc_keeps o (used_len o) o' Hm ltac:(lia) E) as (Hm' & Hu' & Hl & _).
  destruct (realloc_prefix o o' (used_len o) p rest) as [rest' Hd']; [done|done|done|lia|lia|]. split; [done|by eexists|congruence|lia].
Qed.

Lemma resize_run o e a a' old b new fits : holds o (a ++ old ++ b) -> 0 <= new -> zlen old <= 257 ->
  encap_at (new - zlen old) e a a' fits -> new < 2 ^ 31 ->
  exists o' r, resize_dhcp_option realloc o (zlen a) e (zlen old) new = Some (o', r) /\
    match r with
    | Some _ => holds o' (a ++ old ++ b) /\ (255 < new \/ fits = false \/ alloc_len o < used_len o + new - zlen old)
    | None => new <= 255 /\ fits = true /\ exists x, zlen x = new /\ holds o' (a' ++ x ++ b)
    end.
Proof.
  intros Hh Hn Ho He Hsm. destruct Hh as [Hm [rest Hd] Hu Hr]. unfold resize_dhcp_option, DHCP_MAX_LEN.
  pose proof (mem_small _ Hm). pose proof (mem_alloc _ Hm). rewrite s32_id by lia.
  destruct (Z.ltb_spec 255 new) as [Hbig|Hfit].
  { exists o, (Some ENOSPC). split; [done|]. split; [|by left]. split; [done|by eexists|done|done]. }
  rewrite !length_app in Hu. rewrite wrap_small by lia. set (n := used_len o + (new - zlen old)).
  destruct (expand_run o n (a ++ old ++ b) rest) as (r & -> & Hr1); [done..|rewrite !length_app; lia|done|lia|].
  cbn [mbind option_bind]. destruct r as [o1|er].
  2: { exists o, (Some er). split; [done|]. split; [|right; right; lia]. split; [done|by eexists|rewrite !length_app; lia|done]. }
  destruct Hr1 as (Hm1 & [rest1 Hd1] & Hu1 & Hr1 & Hn1). rewrite <- !app_assoc in Hd1.
  rewrite (encapsulator_run o1 e _ a a' (old ++ b ++ rest1) fits Hd1 He). cbn [mbind option_bind]. destruct fits.
  2: { exists o1, (Some ENOSPC). split; [done|]. split; [|right; by left].
       split; [done|exists rest1; by rewrite <- !app_assoc|rewrite !length_app; lia|done]. }
  pose proof (encap_at_length _ _ _ _ He) as Hla.
  set (o2 := set_used n _). assert (mem_ok o2) as Hm2.
  { destruct Hm1 as [H1 H2 H3]. split; [done| |done]. subst o2. cbn. rewrite Hd1 in H2. rewrite !length_app in *. lia. }
  destruct (move_run o2 a' old b rest1 new Hm2) as (x & rest2 & Em & Hx & Hlen); [done|done|done|subst o2 n; cbn; lia|].
  rewrite Hla in Em. rewrite Em. cbn [mbind option_bind].
  destruct (shrink_run (set_data (a' ++ x ++ b ++ rest2) o2) (a' ++ x ++ b)) as (o' & Es & Hh').
  { destruct Hm2 as [H1 H2 H3]. split; [split; [done|cbn in *; by rewrite Hlen|done]| | |].
    - exists rest2. by rewrite <- !app_assoc.
    - subst o2 n. cbn. rewrite !length_app. lia.
    - subst o2 n. cbn. lia. }
  exists o', None. split; [exact Es|]. split; [done|]. split; [done|]. by exists x.
Qed.
End resize.

(** ** Setting an option. *)
Lemma block_holds o items tl : block o items tl <-> holds o (enc items ++ tl) /\ Forall item_ok items /\ (tl = [] \/ exists t, tl = DHCP_END :: t).
Proof.
  split.
  - intros [Hm [rest Hd] Hu Hr Hi Ht]. split; [|done]. split; [done| |done|done]. exists rest. by rewrite <- app_assoc.
  - intros ([Hm [rest Hd] Hu Hr] & Hi & Ht). split; [done| |done..]. exists rest. by rewrite app_assoc.
Qed.

Lemma write_run o a x b tag d : holds o (a ++ x ++ b) -> zlen x = zlen d + 2 -> zlen d <= 255 ->
  exists o', write_option o (zlen a) tag d = Some o' /\ holds o' (a ++ (u8 tag :: zlen d :: d) ++ b).
Proof.
  intros [Hm [rest Hd] Hu Hr] Hx Hl. destruct x as [|x0 [|x1 x]]; [simpl in Hx; lia..|]. simpl length in Hx.
  unfold write_option. rewrite (wrap_small 8 (zlen d)) by lia. rewrite Hd, <- !app_assoc.
  change (a ++ (x0 :: x1 :: x) ++ b ++ rest) with (a ++ [x0; x1] ++ x ++ b ++ rest). rewrite poke_app by done. cbn [mbind option_bind].
  rewrite (app_assoc a), poke_app by (rewrite ?length_app; simpl; lia). cbn [mbind option_bind]. eexists. split; [reflexivity|].
  split; cbn [set_data opt_data used_len alloc_len]; [|exists rest; by rewrite <- !app_assoc| |done].
  - destruct Hm as [H1 H2 H3]. split; cbn; [done| |done]. rewrite Hd in H2. rewrite !length_app in *. simpl in *. lia.
  - rewrite Hu, !length_app. simpl. lia.
Qed.

(** The place of an option in a block, old or new. *)
Lemma option_place o items tl tag e c : block o items tl -> plain_tag tag -> c = zlen (enc items) ->
  exists a old b found, items = a ++ old ++ b /\ Forall (misses tag) a /\ (forall d, set_value tag d items = a ++ new_item tag d ++ b) /\
    find_dhcp_option_with_encap o tag e = Some (found, e) /\
    match found with inl n => dhcp_option_len (opt_data o) n | inr _ => Some 0 end = Some (zlen (enc old)) /\
    match found with inl n => n | inr _ => c end = zlen (enc a) /\ zlen (enc old) <= 257.
Proof.
  intros Hb Ht ->. pose proof (find_value o items tl tag e Hb Ht) as Hv. destruct (value tag items) as [d|].
  - destruct Hv as (a & b & E & Hm & Hs & Hf). exists a, [Opt tag d], b, (inl (zlen (enc a))). do 4 (split; [done|]).
    destruct (blk_data _ _ _ Hb) as [rest Hd]. pose proof (blk_items _ _ _ Hb) as Hi. rewrite E in Hd, Hi.
    apply Forall_app in Hi as [_ Hi]. apply Forall_cons in Hi as [Hi _].
    rewrite enc_app in Hd. cbn [enc] in *. rewrite <- !app_assoc in Hd. rewrite Hd, app_nil_r.
    split; [by apply item_len|]. split; [done|]. destruct Hi as [_ Hi]. simpl length. lia.
  - destruct Hv as (Hm & Hs & Hf). exists items, [], [], (inr ENOENT). rewrite !app_nil_r. do 2 (split; [done|]). split; [|done].
    intros d. by rewrite app_nil_r, Hs.
Qed.

Definition opt_len (d : list Z) : Z := if ctrue (zlen d) then zlen d + 2 else 0.

Lemma new_item_length tag d : zlen (enc (new_item tag d)) = opt_len d.
Proof.
  destruct d as [|z d]; [done|]. change (opt_len (z :: d)) with (zlen (z :: d) + 2). cbn [new_item enc enc_item].
  rewrite app_nil_r. simpl length. lia.
Qed.

(** ** Encapsulated options.  The contents of an encapsulator. *)
Record encap (e : Z) (items : list item) (inner : list item) (z c : list Z) (a b : list item) : Prop := {
  en_items : items = a ++ Opt e c :: b;
  en_front : Forall (misses e) a;
  en_cont : c = enc inner ++ DHCP_END :: z;
  en_inner : Forall item_ok inner }.

Lemma encap_tag e t : plain_tag e -> plain_tag t ->
  let tag := DHCP_ENCAP_OPT e t in
  DHCP_ENCAPSULATOR tag = e /\ DHCP_ENCAPSULATED tag = t /\ u8 tag = t /\ DHCP_IS_ENCAP_OPT tag = true /\ 255 < tag.
Proof.
  intros He Ht tag. unfold plain_tag, DHCP_MAX_OPTION in *.
  assert (tag = e * 256 + t) as E by (apply lor_byte; unfold is_byte; lia). clearbody tag.
  unfold DHCP_ENCAPSULATOR, DHCP_ENCAPSULATED, DHCP_IS_ENCAP_OPT, DHCP_ENCAPSULATOR, wrap, ctrue.
  rewrite Z.shiftr_div_pow2 by lia. change 255 with (Z.ones 8). rewrite Z.land_ones by lia. change (2 ^ 8) with 256.
  assert (tag / 256 = e) as -> by zdm. assert (tag mod 256 = t) as -> by zdm.
  split; [done|]. split; [done|]. split; [done|]. split; [by destruct (Z.eqb_spec e 0); [lia|]|]. change (Z.ones 8) with 255. lia.
Qed.

Lemma encap_misses e t items : plain_tag e -> plain_tag t -> Forall item_ok items -> Forall (misses e) items ->
  Forall (misses (DHCP_ENCAP_OPT e t)) items.
Proof.
  intros He Ht Hi Hm. destruct (encap_tag e t He Ht) as (E1 & _ & _ & _ & Hbig).
  induction Hm as [|it items Hit Hm IH]; [constructor|]. apply Forall_cons in Hi as [Hok Hi]. constructor; [|by apply IH].
  destruct it as [|t' d]; simpl in *; [unfold DHCP_PAD; lia|]. destruct Hok as [[_ Hok] _]. unfold DHCP_MAX_OPTION in Hok.
  split; [lia|]. intros _. rewrite E1. tauto.
Qed.

(** An encapsulated option set: a new one goes to the front. *)
Definition set_inner (t : Z) (d : list Z) (inner : list item) : list item :=
  match value t inner with
  | Some _ => set_value t d inner
  | None => new_item t d ++ inner
  end.

Lemma set_value_front e d a c b : Forall (misses e) a -> set_value e d (a ++ Opt e c :: b) = a ++ new_item e d ++ b.
Proof.
  induction 1 as [|[|t d'] a Hm Ha IH]; cbn [app set_value].
  - by rewrite decide_True.
  - by rewrite IH.
  - destruct Hm as [Hm _]. by rewrite decide_False, IH.
Qed.

(** The search goes on inside the encapsulator. *)
Lemma find_enter mem e t off fuel a c b remaining : plain_tag e -> plain_tag t -> zlen c <= 255 ->
  mem = a ++ enc_item (Opt e c) ++ b -> zlen c + 2 <= remaining < 2 ^ 31 ->
  find_loop (S fuel) mem (DHCP_ENCAP_OPT e t) off (zlen a) remaining =
    find_loop fuel mem t (zlen a) (zlen (a ++ [e; zlen c])) (zlen c + 2).
Proof.
  intros He Ht Hc Em Hr. destruct (encap_tag e t He Ht) as (E1 & E2 & _ & E4 & Hbig). cbn [find_loop].
  destruct (Z.eqb_spec remaining 0); [lia|]. rewrite Em at 1. rewrite item_len by done. cbn [mbind option_bind enc_item length].
  rewrite s32_id by lia. destruct (Z.ltb_spec (remaining - Z.of_nat (S (S (length c)))) 0); [lia|]. rewrite Em at 1.
  cbn [enc_item app]. rewrite byte_app by done. cbn [mbind option_bind]. rewrite E1, E2, E4.
  unfold plain_tag, DHCP_MAX_OPTION, DHCP_END in *. destruct (Z.eqb_spec e 255); [lia|].
  destruct (Z.eqb_spec e (DHCP_ENCAP_OPT e t)); [lia|]. rewrite Z.eqb_refl. cbn [andb]. f_equal; [|lia].
  rewrite length_app. unfold DHCP_OPTION_HEADER_LEN. simpl. lia.
Qed.

Lemma find_encap o items tl e t off inner z c a b : block o items tl -> plain_tag e -> plain_tag t -> encap e items inner z c a b ->
  match value t inner with
  | Some d => exists ia ib, inner = ia ++ Opt t d :: ib /\ (forall d', set_value t d' inner = ia ++ new_item t d' ++ ib) /\
      find_dhcp_option_with_encap o (DHCP_ENCAP_OPT e t) off = Some (inl (zlen (enc a ++ e :: zlen c :: enc ia)), zlen (enc a))
  | None => find_dhcp_option_with_encap o (DHCP_ENCAP_OPT e t) off = Some (inr ENOENT, zlen (enc a))
  end.
Proof.
  intros Hb He Ht [-> Hm Ec Hin]. destruct Hb as [[H1 H2 H3] [rest Hd] Hu Hr Hi Htl].
  apply Forall_app in Hi as [Hia Hi]. apply Forall_cons in Hi as [[_ Hlc] Hib].
  rewrite enc_app in *. cbn [enc] in *. rewrite !length_app in Hu. cbn [enc_item length] in Hu. rewrite <- !app_assoc in Hd.
  assert (zlen c = zlen (enc inner) + 1 + zlen z) as Hlen by (rewrite Ec, length_app; simpl length; lia).
  pose proof (enc_length a). pose proof (enc_length inner).
  set (k := (Z.to_nat (used_len o) + 258 - length a - length inner)%nat).
  assert (find_dhcp_option_with_encap o (DHCP_ENCAP_OPT e t) off =
    find_loop (length inner + S k) (opt_data o) t (zlen (enc a)) (zlen (enc a ++ [e; zlen c])) (zlen c + 2)) as ->.
  { unfold find_dhcp_option_with_encap, find_fuel. destruct (encap_tag e t He Ht) as (_ & _ & _ & _ & Hbig).
    destruct (Z.eqb_spec (DHCP_ENCAP_OPT e t) DHCP_PAD) as [E|_]; [rewrite E in Hbig; done|]. rewrite s32_id by lia.
    replace (Z.to_nat (used_len o) + 260)%nat with (length a + S (length inner + S k))%nat by lia. change 0 with (zlen (@nil Z)).
    rewrite (find_skip _ _ off _ a [] _ _ Hia (encap_misses e t a He Ht Hia Hm) Hd) by lia.
    change ([] ++ enc a) with (enc a). by apply (find_enter _ e t off _ (enc a) c _ _ He Ht Hlc Hd); lia. }
  assert (opt_data o = (enc a ++ [e; zlen c]) ++ enc inner ++ (DHCP_END :: z) ++ enc b ++ tl ++ rest) as Hd'.
  { rewrite Hd, <- app_assoc. cbn [enc_item app]. by rewrite Ec at 2; rewrite <- app_assoc. }
  assert (forall x : list Z, enc a ++ e :: zlen c :: x = (enc a ++ [e; zlen c]) ++ x) as Hp by (intros x; by rewrite <- app_assoc).
  pose proof (value_split t inner Ht) as Hv. destruct (value t inner) as [d|].
  - destruct Hv as (ia & ib & -> & Hmi & Hs). exists ia, ib. split; [done|]. split; [done|]. rewrite (Hp (enc ia)).
    set (p := enc a ++ [e; zlen c]) in *. clearbody p k.
    rewrite enc_app in Hd', Hlen. cbn [enc] in Hd', Hlen. rewrite !length_app in Hlen. cbn [enc_item length] in Hlen. rewrite <- !app_assoc in Hd'.
    apply Forall_app in Hin as [Hiia Hin]. apply Forall_cons in Hin as [Hit _].
    rewrite (length_app ia (Opt t d :: ib)), <- (Nat.add_assoc (length ia)). cbn [length Nat.add].
    rewrite (find_skip _ t _ _ ia p _ _ Hiia Hmi Hd') by lia.
    rewrite (app_assoc p) in Hd'. apply (find_here _ t _ _ (p ++ enc ia) d _ _ Hit Hd'). lia.
  - destruct Hv as [Hmi _]. set (p := enc a ++ [e; zlen c]) in *. clearbody p k.
    rewrite (find_skip _ t _ _ inner p _ _ Hin Hmi Hd') by lia. rewrite (app_assoc p) in Hd'.
    rewrite (find_end _ t _ _ (p ++ enc inner) _ _ (DHCP_END :: z) Hd'); [|simpl length; lia|done|right; by eexists].
    rewrite decide_False; [done|]. intros [_ E]. unfold plain_tag, DHCP_MAX_OPTION, DHCP_END in *. lia.
Qed.

Section set.
Context (realloc : dhcp_options -> Z -> dhcp_options + errno) `{!Reallocates realloc, !Shrinks realloc}.
Implicit Types (o : dhcp_options).

(** The contents are written into the place made for them. *)
Lemma fill_run o a x b tag d : holds o (a ++ x ++ b) -> zlen x = opt_len d -> opt_len d <= 255 -> plain_tag (u8 tag) ->
  exists o', (if ctrue (zlen d) then write_option o (zlen a) tag d else Some o) = Some o' /\
    holds o' (a ++ enc (new_item (u8 tag) d) ++ b).
Proof.
  intros Hh Hx Hl Ht. unfold opt_len in *. destruct d as [|z d].
  - exists o. split; [done|]. simpl in Hx. destruct x; [done|simpl in Hx; lia].
  - change (ctrue (zlen (z :: d))) with true in *. destruct (write_run o a x b tag (z :: d) Hh Hx ltac:(lia)) as (o' & E & Hh').
    exists o'. split; [done|]. cbn [new_item enc enc_item]. by rewrite app_nil_r.
Qed.

Lemma put_run o e a a' old b tag d fits : holds o (a ++ old ++ b) -> zlen old <= 257 -> zlen d + 2 < 2 ^ 31 ->
  encap_at (opt_len d - zlen old) e a a' fits -> plain_tag (u8 tag) ->
  exists o' r, put_option realloc o (zlen a) e (zlen old) tag d = Some (o', r) /\
    match r with
    | Some _ => holds o' (a ++ old ++ b) /\ (255 < opt_len d \/ fits = false \/ alloc_len o < used_len o + opt_len d - zlen old)
    | None => opt_len d <= 255 /\ fits = true /\ holds o' (a' ++ enc (new_item (u8 tag) d) ++ b)
    end.
Proof.
  intros Hh Ho Hd He Ht. unfold put_option.
  assert (new_option_len d = opt_len d) as ->.
  { unfold new_option_len, opt_len, DHCP_OPTION_HEADER_LEN. by rewrite (wrap_small 32) by lia. }
  assert (0 <= opt_len d < 2 ^ 31) as Hol by (unfold opt_len; destruct (ctrue (zlen d)); lia).
  destruct (resize_run realloc o e a a' old b (opt_len d) fits Hh ltac:(lia) Ho He ltac:(lia)) as (o1 & r1 & -> & Hr1).
  cbn [mbind option_bind]. destruct r1 as [er|]; [by eexists _, _|]. destruct Hr1 as (Hfit & -> & x & Hx & Hh1).
  destruct (fill_run o1 a' x b tag d Hh1 Hx Hfit Ht) as (o2 & Ew & Hh2). rewrite (encap_at_length _ _ _ _ He) in Ew. rewrite Ew.
  by eexists _, _.
Qed.

Lemma set_plain fuel o items tl tag d : block o items tl -> plain_tag tag -> zlen d + 2 < 2 ^ 31 ->
  exists o' r, set_dhcp_option realloc (S fuel) o tag d = Some (o', r) /\
    match r with
    | inr _ => block o' items tl /\ (255 < opt_len d \/ alloc_len o < zlen (enc (set_value tag d items) ++ tl))
    | inl n => block o' (set_value tag d items) tl /\ opt_len d <= 255 /\
        exists a b, Forall (misses tag) a /\ (forall d', set_value tag d' items = a ++ new_item tag d' ++ b) /\ n = zlen (enc a)
    end.
Proof.
  intros Hb Ht Hd. destruct (creation_offset o items tl (-1) Hb) as (r & Ec & Hc).
  destruct (option_place o items tl tag (-1) _ Hb Ht Hc) as (a & old & b & found & Ei & Hm & Hs & Ef & El & Eo & Ho).
  destruct (proj1 (block_holds _ _ _) Hb) as (Hh & Hi & Htl). rewrite Ei, !enc_app, <- !app_assoc in Hh.
  cbn [set_dhcp_option]. destruct (Z.eqb_spec tag DHCP_PAD) as [-> |_]; [destruct Ht; unfold DHCP_PAD in *; lia|].
  rewrite Ec. cbn [mbind option_bind]. rewrite Ef. cbn [mbind option_bind]. rewrite El. cbn [mbind option_bind].
  rewrite (proj1 (plain_not_encap tag Ht)). change (ctrue 0) with false. cbn [mbind option_bind]. rewrite Eo. cbn zeta.
  pose proof Ht as Ht'. unfold plain_tag, DHCP_MAX_OPTION in Ht'. assert (u8 tag = tag) as Eu by (apply wrap_small; lia).
  destruct (put_run o (-1) (enc a) (enc a) (enc old) (enc b ++ tl) tag d true) as (o1 & r1 & -> & Hr1);
    [done|done|done|by apply no_encap|by rewrite Eu|]. rewrite Eu in Hr1.
  cbn [mbind option_bind]. destruct r1 as [e|].
  { eexists _, _. split; [reflexivity|]. destruct Hr1 as [Hh1 Hwhy]. split.
    - apply block_holds. rewrite Ei, !enc_app, <- !app_assoc. by rewrite Ei in Hi.
    - destruct Hwhy as [? | [? | Hwhy]]; [by left|done|]. right. rewrite Hs, (hold_used _ _ Hh) in *.
      rewrite !enc_app, !length_app in *. pose proof (new_item_length tag d). lia. }
  destruct Hr1 as (Hfit & _ & Hh2). change (0 <=? -1) with false. cbn [mbind option_bind].
  eexists _, _. split; [reflexivity|]. split; [|split; [lia|by exists a, b]].
  apply block_holds. rewrite Hs, !enc_app, <- !app_assoc. split; [done|]. split; [|done].
  rewrite Ei in Hi. rewrite !Forall_app in *. split; [tauto|]. split; [|tauto].
  unfold opt_len in Hfit. destruct d as [|z d]; [by apply Forall_nil|]. apply Forall_singleton. split; [done|].
  change (ctrue (zlen (z :: d))) with true in Hfit. lia.
Qed.

(** The place of an encapsulated option. *)
Lemma encap_place o items tl e t off inner z c a b : block o items tl -> plain_tag e -> plain_tag t -> encap e items inner z c a b ->
  exists ia old ib found, inner = ia ++ old ++ ib /\ (forall d, set_inner t d inner = ia ++ new_item t d ++ ib) /\
    find_dhcp_option_with_encap o (DHCP_ENCAP_OPT e t) off = Some (found, zlen (enc a)) /\
    match found with inl n => dhcp_option_len (opt_data o) n | inr _ => Some 0 end = Some (zlen (enc old)) /\
    match found with inl n => n | inr _ => zlen (enc a) + DHCP_OPTION_HEADER_LEN end = zlen (enc a ++ e :: zlen c :: enc ia) /\
    zlen (enc old) <= 257.
Proof.
  intros Hb He Ht Hen. pose proof (find_encap o items tl e t off inner z c a b Hb He Ht Hen) as Hv. unfold set_inner.
  destruct (value t inner) as [d|].
  - destruct Hv as (ia & ib & E & Hs & Hf). exists ia, [Opt t d], ib, (inl (zlen (enc a ++ e :: zlen c :: enc ia))).
    do 3 (split; [done|]). destruct Hen as [Ei _ Ec Hin]. destruct (blk_data _ _ _ Hb) as [rest Hd].
    rewrite E in Ec, Hin. apply Forall_app in Hin as [_ Hin]. apply Forall_cons in Hin as [Hit _].
    assert (opt_data o = (enc a ++ e :: zlen c :: enc ia) ++ enc_item (Opt t d) ++ enc ib ++ DHCP_END :: z ++ enc b ++ tl ++ rest) as ->.
    { rewrite Hd, Ei, enc_app. cbn [enc enc_item]. rewrite <- !app_assoc. cbn [app]. rewrite Ec at 2. rewrite enc_app. cbn [enc enc_item].
      by rewrite <- !app_assoc. }
    cbn [enc]. rewrite app_nil_r. split; [by apply item_len|]. split; [done|]. destruct Hit as [_ Hit]. simpl length. lia.
  - exists [], [], inner, (inr ENOENT). do 4 (split; [done|]). split; [|done]. rewrite length_app. unfold DHCP_OPTION_HEADER_LEN. simpl. lia.
Qed.

Lemma put_encap o items tl e t d inner z c a b ia old ib : block o items tl -> plain_tag e -> plain_tag t -> encap e items inner z c a b ->
  inner = ia ++ old ++ ib -> zlen (enc old) <= 257 -> zlen d + 2 < 2 ^ 31 ->
  let c' := enc (ia ++ new_item t d ++ ib) ++ DHCP_END :: z in
  exists o' r, put_option realloc o (zlen (enc a ++ e :: zlen c :: enc ia)) (zlen (enc a)) (zlen (enc old)) (DHCP_ENCAP_OPT e t) d = Some (o', r) /\
    match r with
    | Some _ => block o' items tl /\
        (255 < opt_len d \/ 255 < zlen c' \/ alloc_len o < zlen (enc (a ++ Opt e c' :: b) ++ tl))
    | None => opt_len d <= 255 /\ block o' (a ++ Opt e c' :: b) tl
    end.
Proof.
  intros Hb He Ht [Ei Hm Ec Hin] E Ho Hd c'. destruct (proj1 (block_holds _ _ _) Hb) as (Hh & Hi & Htl).
  set (p := enc a ++ e :: zlen c :: enc ia) in *. set (q := enc ib ++ DHCP_END :: z ++ enc b ++ tl).
  assert (enc items ++ tl = p ++ enc old ++ q) as Eq.
  { subst p q. rewrite Ei, enc_app. cbn [enc enc_item]. rewrite <- !app_assoc. cbn [app]. rewrite Ec at 2. rewrite E, !enc_app.
    by rewrite <- !app_assoc. }
  assert (zlen c' = zlen c + (opt_len d - zlen (enc old))) as Hc'.
  { subst c'. rewrite Ec, E, !enc_app, !length_app. pose proof (new_item_length t d). lia. }
  rewrite Eq in Hh. destruct (encap_tag e t He Ht) as (_ & _ & E3 & _ & _).
  assert (encap_at (opt_len d - zlen (enc old)) (zlen (enc a)) p (enc a ++ e :: zlen c' :: enc ia) (bool_decide (zlen c' <= 255))) as Hea.
  { unfold p. case_bool_decide; rewrite Hc'; constructor; rewrite <- Hc'; [lia|].
    assert (zlen c <= 255) by (rewrite Ei in Hi; apply Forall_app in Hi as [_ Hi]; apply Forall_cons in Hi as [[_ Hi] _]; done).
    unfold opt_len in Hc'. destruct (ctrue (zlen d)); lia. }
  destruct (put_run o (zlen (enc a)) p _ (enc old) q (DHCP_ENCAP_OPT e t) d _ Hh Ho Hd Hea) as (o' & r & Ep & Hr); [by rewrite E3|].
  exists o', r. split; [exact Ep|]. rewrite E3 in Hr. destruct r as [er|].
  - destruct Hr as [Hh' Hwhy]. split; [apply block_holds; by rewrite Eq|].
    destruct Hwhy as [Hw | [Hw | Hw]]; [by left|right; left|right; right].
    + apply bool_decide_eq_false in Hw. lia.
    + rewrite (hold_used _ _ Hh), <- Eq, Ei in Hw. rewrite !enc_app in *. cbn [enc enc_item] in *. rewrite !length_app in *.
      cbn [length] in *. lia.
  - destruct Hr as (Hol & Hf & Hh'). split; [done|]. apply bool_decide_eq_true in Hf. apply block_holds. split.
    + replace (enc (a ++ Opt e c' :: b) ++ tl) with ((enc a ++ e :: zlen c' :: enc ia) ++ enc (new_item t d) ++ q); [done|].
      subst q. rewrite enc_app. cbn [enc enc_item]. rewrite <- !app_assoc. cbn [app]. unfold c' at 3. rewrite !enc_app. by rewrite <- !app_assoc.
    + split; [|done]. rewrite Ei in Hi. rewrite !Forall_app, !Forall_cons in *. split; [tauto|]. split; [|tauto]. split; [done|lia].
Qed.

(** The end of [set_dhcp_option]: the option is put into the encapsulator,
    which is removed when that leaves it empty. *)
Lemma encap_finish fuel o items tl e t d inner z c a b ia old ib :
  block o items tl -> plain_tag e -> plain_tag t -> encap e items inner z c a b ->
  inner = ia ++ old ++ ib -> zlen (enc old) <= 257 -> zlen d + 2 < 2 ^ 31 ->
  let c' := enc (ia ++ new_item t d ++ ib) ++ DHCP_END :: z in
  let offset := zlen (enc a ++ e :: zlen c :: enc ia) in
  exists o' r,
    ('(o, rc) ← put_option realloc o offset (zlen (enc a)) (zlen (enc old)) (DHCP_ENCAP_OPT e t) d;
     match rc with
     | Some e => Some (o, inr e)
     | None =>
         o ← (if 0 <=? zlen (enc a) then
                len ← byte (opt_data o) (zlen (enc a) + 1);
                if len <=? 1 then fst <$> set_dhcp_option realloc (S fuel) o e [] else Some o
              else Some o);
         Some (o, inl offset)
     end) = Some (o', r) /\
    match r with
    | inr _ => block o' items tl /\ (255 < opt_len d \/ 255 < zlen c' \/ alloc_len o < zlen (enc (a ++ Opt e c' :: b) ++ tl))
    | inl _ => opt_len d <= 255 /\ block o' (if decide (zlen c' <= 1) then a ++ b else a ++ Opt e c' :: b) tl
    end.
Proof.
  intros Hb He Ht Hen E Ho Hd c' offset.
  destruct (put_encap o items tl e t d inner z c a b ia old ib Hb He Ht Hen E Ho Hd) as (o1 & r & Ep & Hr). fold c' in Hr.
  subst offset. rewrite Ep. cbn [mbind option_bind]. destruct r as [er|]; [by eexists _, _|].
  destruct Hr as [Hol Hr]. destruct (Z.leb_spec 0 (zlen (enc a))); [|lia]. destruct (blk_data _ _ _ Hr) as [rest Hd1].
  assert (byte (opt_data o1) (zlen (enc a) + 1) = Some (zlen c')) as ->.
  { rewrite Hd1, enc_app. cbn [enc enc_item]. rewrite <- !app_assoc. by destruct (option_fields (enc a) e (zlen c') c' (enc b ++ tl ++ rest)) as (_ & -> & _). }
  cbn [mbind option_bind]. destruct (Z.leb_spec (zlen c') 1); [rewrite decide_True by done|rewrite decide_False by lia; by eexists _, _].
  destruct (set_plain fuel o1 _ tl e [] Hr He ltac:(done)) as (o2 & r2 & Es & Hr2). rewrite Es.
  rewrite set_value_front in Hr2 by apply Hen. cbn [new_item app] in Hr2. eexists _, _. split; [reflexivity|]. destruct r2 as [n|er].
  - split; [done|apply Hr2].
  - exfalso. destruct Hr2 as [_ [Hw|Hw]]; [done|]. pose proof (blk_used _ _ _ Hr) as Hu. pose proof (blk_room _ _ _ Hr) as Hro.
    rewrite !enc_app in *. cbn [enc] in *. rewrite !length_app in *. lia.
Qed.

(** The encapsulator [e] holds [inner] and then the marker and [z], or there
    is none. *)
Definition holds_inner (e : Z) (items inner : list item) (z : list Z) : Prop :=
  match value e items with
  | Some c => c = enc inner ++ DHCP_END :: z /\ Forall item_ok inner
  | None => inner = [] /\ z = []
  end.

Definition put_contents (e : Z) (c : list Z) (items : list item) : list item := set_value e (if decide (zlen c <= 1) then [] else c) items.

Lemma put_contents_eq e c items a b : c <> [] -> (forall d, set_value e d items = a ++ new_item e d ++ b) ->
  set_value e c items = a ++ Opt e c :: b /\ put_contents e c items = if decide (zlen c <= 1) then a ++ b else a ++ Opt e c :: b.
Proof. intros Hc Hs. unfold put_contents. rewrite !Hs. destruct c; [done|]. split; [done|]. by case_decide. Qed.

Lemma set_encap fuel o items tl e t d inner z : block o items tl -> plain_tag e -> plain_tag t -> holds_inner e items inner z ->
  zlen d + 2 < 2 ^ 31 ->
  let c' := enc (set_inner t d inner) ++ DHCP_END :: z in
  exists o' r, set_dhcp_option realloc (S (S fuel)) o (DHCP_ENCAP_OPT e t) d = Some (o', r) /\
    match r with
    | inl _ => opt_len d <= 255 /\ block o' (put_contents e c' items) tl
    | inr _ => (block o' items tl \/ value e items = None /\ block o' (set_value e [DHCP_END] items) tl) /\
        (255 < opt_len d \/ 255 < zlen c' \/ alloc_len o < zlen (enc (set_value e c' items) ++ tl) \/ value e items = None)
    end.
Proof.
  intros Hb He Ht Hin Hd c'. destruct (encap_tag e t He Ht) as (E1 & E2 & E3 & E4 & Hbig).
  destruct (creation_offset o items tl (-1) Hb) as (r0 & Ec & _).
  remember (S fuel) as f eqn:Ef. cbn [set_dhcp_option]. rewrite E1. subst f.
  destruct (Z.eqb_spec (DHCP_ENCAP_OPT e t) DHCP_PAD) as [E|_]; [rewrite E in Hbig; done|].
  rewrite Ec. cbn [mbind option_bind].
  assert (ctrue e = true) as He1 by (unfold ctrue, plain_tag in *; destruct (Z.eqb_spec e 0); [lia|done]).
  assert (c' <> []) as Hne by (subst c'; by destruct (enc (set_inner t d inner))).
  pose proof (value_split e items He) as Hv. unfold holds_inner in Hin. destruct (value e items) as [c|] eqn:Hval.
  - destruct Hv as (a & b & Ei & Hm & Hs). destruct Hin as [Hc Hok].
    assert (encap e items inner z c a b) as Hen by done.
    destruct (encap_place o items tl e t (-1) inner z c a b Hb He Ht Hen) as (ia & old & ib & found & Einn & Hsi & Ef & El & Eo & Ho).
    rewrite Ef. cbn [mbind option_bind]. rewrite El. cbn [mbind option_bind]. rewrite He1.
    destruct (Z.ltb_spec (zlen (enc a)) 0); [lia|]. cbn [mbind option_bind]. rewrite Eo.
    destruct (encap_finish fuel o items tl e t d inner z c a b ia old ib Hb He Ht Hen Einn Ho Hd) as (o' & r & Er & Hr).
    exists o', r. split; [exact Er|]. rewrite <- Hsi in Hr. fold c' in Hr. destruct (put_contents_eq e c' items a b Hne Hs) as [-> ->].
    destruct r as [n|er]; [exact Hr|]. split; [left; apply Hr|]. destruct Hr as [_ [Hw | [Hw | Hw]]]; auto.
  - destruct Hv as [Hm _]. destruct Hin as [-> ->].
    rewrite (find_from o items tl _ _ Hb (encap_misses e t items He Ht (blk_items _ _ _ Hb) Hm)) by (unfold DHCP_PAD; lia).
    rewrite decide_False by (unfold DHCP_END; lia). cbn [mbind option_bind]. rewrite He1. change (-1 <? 0) with true. cbn [mbind option_bind].
    destruct (set_plain fuel o items tl e [DHCP_END] Hb He ltac:(done)) as (o1 & r1 & -> & Hr1). cbn [mbind option_bind].
    destruct r1 as [n|er]; [|eexists _, _; split; [reflexivity|]; split; [left; apply Hr1|auto]].
    destruct Hr1 as (Hb1 & _ & a & b & Hma & Hs & ->).
    assert (encap e (set_value e [DHCP_END] items) [] [] [DHCP_END] a b) as Hen by (split; [apply Hs|done|done|done]).
    assert (zlen (enc a) + DHCP_OPTION_HEADER_LEN = zlen (enc a ++ e :: zlen [DHCP_END] :: enc [])) as ->
      by (rewrite length_app; unfold DHCP_OPTION_HEADER_LEN; simpl; lia).
    destruct (encap_finish fuel o1 _ tl e t d [] [] [DHCP_END] a b [] [] [] Hb1 He Ht Hen eq_refl ltac:(done) Hd) as (o' & r & Er & Hr).
    exists o', r. split; [exact Er|]. cbn [app] in Hr. change (new_item t d ++ []) with (set_inner t d []) in Hr. fold c' in Hr.
    destruct (put_contents_eq e c' items a b Hne Hs) as [_ ->]. destruct r as [n|er2]; [exact Hr|]. split; [right; split; [done|apply Hr]|auto].
Qed.
End set.

(** ** What is stored is what is fetched. *)
Lemma value_app tag a b : value tag (a ++ b) = match value tag a with Some d => Some d | None => value tag b end.
Proof. induction a as [|[|t d] a IH]; cbn [app value]; [done|done|]. by case_decide. Qed.

Lemma value_new tag d : value tag (new_item tag d) = if decide (d = []) then None else Some d.
Proof. destruct d; [done|]. simpl. by rewrite decide_True. Qed.

Lemma value_new_other tag tag' d : tag' <> tag -> value tag' (new_item tag d) = None.
Proof. intros H. destruct d; [done|]. simpl. by rewrite decide_False. Qed.

Lemma value_set_same tag d items : d <> [] -> value tag (set_value tag d items) = Some d.
Proof.
  intros Hd. induction items as [|[|t d'] items IH]; cbn [set_value value].
  - rewrite value_new. by rewrite decide_False.
  - done.
  - case_decide; [rewrite value_app, value_new; by rewrite decide_False|]. cbn [value]. by rewrite decide_False.
Qed.

Lemma value_set_other tag tag' d items : tag' <> tag -> value tag' (set_value tag d items) = value tag' items.
Proof.
  intros Ht. induction items as [|[|t d'] items IH]; cbn [set_value value].
  - by apply value_new_other.
  - done.
  - destruct (decide (t = tag)) as [-> |]; [rewrite value_app, value_new_other by done; by rewrite decide_False by congruence|].
    cbn [value]. by rewrite IH.
Qed.

Lemma value_inner_same t d inner : d <> [] -> value t (set_inner t d inner) = Some d.
Proof.
  intros Hd. unfold set_inner. destruct (value t inner) eqn:E; [by apply value_set_same|].
  rewrite value_app, value_new. by rewrite decide_False.
Qed.

Lemma value_inner_clear t inner : value t (set_value t [] inner) = None -> value t (set_inner t [] inner) = None.
Proof. intros H. unfold set_inner. by destruct (value t inner) eqn:E. Qed.

Lemma value_inner_other t t' d inner : t' <> t -> value t' (set_inner t d inner) = value t' inner.
Proof.
  intros Ht. unfold set_inner. destruct (value t inner) eqn:E; [by apply value_set_other|].
  by rewrite value_app, value_new_other.
Qed.

(** Reading an encapsulated option is looking it up in the contents of the
    encapsulator. *)
Lemma fetch_inner o items tl e t inner z len : block o items tl -> plain_tag e -> plain_tag t -> holds_inner e items inner z -> 0 <= len ->
  dhcpopt_fetch o (DHCP_ENCAP_OPT e t) len =
    Some (match value t inner with
          | Some d => (take (Z.to_nat len) d, inl (zlen d))
          | None => ([], inr ENOENT)
          end).
Proof.
  intros Hb He Ht Hin Hl. unfold dhcpopt_fetch, holds_inner in *. pose proof (value_split e items He) as Hv.
  destruct (value e items) as [c|].
  - destruct Hv as (a & b & Ei & Hm & _). destruct Hin as [Hc Hok]. assert (encap e items inner z c a b) as Hen by done.
    pose proof (find_encap o items tl e t (-1) inner z c a b Hb He Ht Hen) as Hf. destruct (value t inner) as [d|]; [|by rewrite Hf].
    destruct Hf as (ia & ib & E & _ & ->). cbn [mbind option_bind]. destruct (blk_data _ _ _ Hb) as [rest Hd].
    assert (opt_data o = (enc a ++ e :: zlen c :: enc ia) ++ (t :: zlen d :: d) ++ enc ib ++ DHCP_END :: z ++ enc b ++ tl ++ rest) as ->.
    { rewrite Hd, Ei, enc_app. cbn [enc enc_item]. rewrite <- !app_assoc. cbn [app]. rewrite Hc at 2. rewrite E, enc_app. cbn [enc enc_item].
      by rewrite <- !app_assoc. }
    set (p := enc a ++ e :: zlen c :: enc ia). destruct (option_fields p t (zlen d) d (enc ib ++ DHCP_END :: z ++ enc b ++ tl ++ rest)) as (_ & E1 & E2).
    rewrite E1. cbn [mbind option_bind]. rewrite E2 by lia. cbn [mbind option_bind]. do 2 f_equal.
    destruct (decide (len <= zlen d)); [by rewrite Z.min_l by lia|]. by rewrite Z.min_r, !take_ge by lia.
  - destruct Hv as [Hm _]. destruct Hin as [-> _]. destruct (encap_tag e t He Ht) as (_ & _ & _ & _ & Hbig).
    rewrite (find_from o items tl _ _ Hb (encap_misses e t items He Ht (blk_items _ _ _ Hb) Hm)) by (unfold DHCP_PAD; lia).
    by rewrite decide_False by (unfold DHCP_END; lia).
Qed.

(** The contents of the encapsulator after a store. *)
Lemma holds_put e t d items inner z : holds_inner e items inner z -> Forall item_ok (set_inner t d inner) ->
  value e (set_value e [] items) = None -> holds_inner e (put_contents e (enc (set_inner t d inner) ++ DHCP_END :: z) items) (set_inner t d inner) z.
Proof.
  intros Hin Hok H1. unfold holds_inner at 1, put_contents. case_decide as Hle.
  - rewrite H1. rewrite length_app in Hle. cbn [length] in Hle. pose proof (enc_length (set_inner t d inner)).
    split; apply length_zero_iff_nil; lia.
  - rewrite value_set_same; [done|]. by destruct (enc (set_inner t d inner)).
Qed.

Lemma set_inner_ok t d inner : Forall item_ok inner -> plain_tag t -> opt_len d <= 255 -> Forall item_ok (set_inner t d inner).
Proof.
  intros Hin Ht Hd. assert (Forall item_ok (new_item t d)) as Hn.
  { destruct d as [|x d]; [by apply Forall_nil|]. apply Forall_singleton. split; [done|].
    change (opt_len (x :: d)) with (zlen (x :: d) + 2) in Hd. lia. }
  unfold set_inner. pose proof (value_split t inner Ht) as Hv. destruct (value t inner).
  - destruct Hv as (a & b & -> & _ & ->). rewrite !Forall_app, Forall_cons in *. tauto.
  - by apply Forall_app.
Qed.

Section store.
Context (realloc : dhcp_options -> Z -> dhcp_options + errno) `{!Reallocates realloc, !Shrinks realloc}.
Implicit Types (o : dhcp_options).

(** Storing an option that is not encapsulated either fails, for want
    of room or because the value is too long, and changes no option, or it
    sets exactly this option: fetching it gives the value, in a buffer of any
    length, all other options are as before, and the block is still well
    formed. *)
Theorem dhcpopt_store_plain o items tl tag d :
  block o items tl -> plain_tag tag -> zlen d + 2 < 2 ^ 31 ->
  exists o' rc, dhcpopt_store realloc o tag d = Some (o', rc) /\
    match rc with
    | None => block o' (set_value tag d items) tl /\
        (d <> [] -> forall len, 0 <= len -> dhcpopt_fetch o' tag len = Some (take (Z.to_nat len) d, inl (zlen d)))
    | Some _ => block o' items tl /\ (253 < zlen d \/ alloc_len o < zlen (enc (set_value tag d items) ++ tl))
    end /\
    forall tag' len, plain_tag tag' -> tag' <> tag -> 0 <= len -> dhcpopt_fetch o' tag' len = dhcpopt_fetch o tag' len.
Proof.
  intros Hb Ht Hd. destruct (set_plain realloc 4 o items tl tag d Hb Ht Hd) as (o' & r & E & Hr).
  unfold dhcpopt_store. rewrite E. cbn [mbind option_bind]. eexists _, _. split; [reflexivity|]. destruct r as [n|er].
  - destruct Hr as (Hb' & _ & _). split; [split; [done|]|].
    + intros Hne len Hl. by rewrite (fetch_value o' _ tl tag len Hb' Ht Hl), value_set_same.
    + intros tag' len Ht' Hne Hl. by rewrite (fetch_value o' _ tl tag' len Hb' Ht' Hl), (fetch_value o items tl), value_set_other.
  - destruct Hr as [Hb' Hw]. split; [split; [done|]|].
    + destruct Hw as [Hw|Hw]; [left|by right]. unfold opt_len in Hw. destruct (ctrue (zlen d)); lia.
    + intros tag' len Ht' _ Hl. by rewrite (fetch_value o' items tl), (fetch_value o items tl).
Qed.

(** Storing an encapsulated option, on the items of the block. *)
Lemma store_encap_run o items tl e t d inner z :
  block o items tl -> plain_tag e -> plain_tag t -> holds_inner e items inner z -> value e (set_value e [] items) = None ->
  zlen d + 2 < 2 ^ 31 ->
  let inner' := set_inner t d inner in
  exists o' rc items', dhcpopt_store realloc o (DHCP_ENCAP_OPT e t) d = Some (o', rc) /\ block o' items' tl /\
    (forall tag, tag <> e -> value tag items' = value tag items) /\
    match rc with
    | None => items' = put_contents e (enc inner' ++ DHCP_END :: z) items /\ holds_inner e items' inner' z
    | Some _ => holds_inner e items' inner z /\
        (253 < zlen d \/ 255 < zlen (enc inner' ++ DHCP_END :: z) \/
         alloc_len o < zlen (enc (set_value e (enc inner' ++ DHCP_END :: z) items) ++ tl) \/ value e items = None)
    end.
Proof.
  intros Hb He Ht Hin H1 Hd inner'. destruct (set_encap realloc 3 o items tl e t d inner z Hb He Ht Hin Hd) as (o' & r & E & Hr).
  unfold dhcpopt_store. rewrite E. cbn [mbind option_bind]. fold inner' in Hr. destruct r as [n|er].
  - destruct Hr as [Hol Hb']. assert (Forall item_ok inner) as Hii.
    { unfold holds_inner in Hin. destruct (value e items); [apply Hin|]. by destruct Hin as [-> _]. }
    pose proof (holds_put e t d items inner z Hin (set_inner_ok t d inner Hii Ht Hol) H1) as Hin'. fold inner' in Hin'.
    eexists _, None, _. split; [reflexivity|]. split; [exact Hb'|]. split; [|done]. intros tag Htag. unfold put_contents. by apply value_set_other.
  - destruct Hr as [Hr Hw]. assert (exists items', block o' items' tl /\ holds_inner e items' inner z /\
      forall tag, tag <> e -> value tag items' = value tag items) as (items' & Hb' & Hin' & Hv).
    { destruct Hr as [Hb'|[Hn Hb']]; [by exists items|]. exists (set_value e [DHCP_END] items). split; [done|].
      split; [|intros tag Htag; by apply value_set_other]. unfold holds_inner in *. rewrite Hn in Hin. destruct Hin as [-> ->].
      by rewrite value_set_same. }
    eexists _, (Some er), items'. split; [reflexivity|]. do 2 (split; [done|]). split; [done|].
    destruct Hw as [Hw|[Hw|[Hw|Hw]]]; [left|right; by left|do 2 right; by left|do 3 right; done].
    unfold opt_len in Hw. destruct (ctrue (zlen d)); lia.
Qed.

End store.

(** ** Any option, encapsulated or not.  Options that occur once in a block
    with these items. *)
Inductive named (items : list item) : Z -> Prop :=
| named_plain tag : plain_tag tag -> value tag (set_value tag [] items) = None -> named items tag
| named_encap e t inner z : plain_tag e -> plain_tag t -> holds_inner e items inner z -> value e (set_value e [] items) = None ->
    value t (set_value t [] inner) = None -> named items (DHCP_ENCAP_OPT e t).

(** Options none of which contains the other. *)
Definition apart (tag' tag : Z) : Prop := tag' <> tag /\ DHCP_ENCAPSULATOR tag' <> tag /\ DHCP_ENCAPSULATOR tag <> tag'.

Lemma enc_replace_le tag d items : plain_tag tag -> (forall c, value tag items = Some c -> zlen d <= zlen c) -> (value tag items = None -> d = []) ->
  zlen (enc (set_value tag d items)) <= zlen (enc items).
Proof.
  intros Ht Hs Hn. pose proof (value_split tag items Ht) as Hv. destruct (value tag items) as [c|].
  - destruct Hv as (a & b & -> & _ & ->). specialize (Hs c eq_refl). rewrite !enc_app. cbn [enc]. rewrite !length_app.
    destruct d as [|x d]; cbn [new_item enc enc_item length app]; rewrite ?app_nil_r; cbn [length]; [lia|]. cbn [length] in Hs. lia.
  - destruct Hv as [_ ->]. rewrite (Hn eq_refl). cbn [new_item]. by rewrite app_nil_r.
Qed.

(** Removing an option cannot fail for want of room. *)
Lemma clear_fits e t items inner z o tl : block o items tl -> plain_tag e -> plain_tag t -> holds_inner e items inner z -> is_Some (value e items) ->
  let c' := enc (set_inner t [] inner) ++ DHCP_END :: z in
  zlen c' <= 255 /\ zlen (enc (set_value e c' items) ++ tl) <= alloc_len o.
Proof.
  intros Hb He Ht Hin [c Hc] c'. unfold holds_inner in Hin. rewrite Hc in Hin. destruct Hin as [Ec _].
  assert (zlen (enc (set_inner t [] inner)) <= zlen (enc inner)) as Hle.
  { unfold set_inner. destruct (value t inner) eqn:E; [|done]. apply enc_replace_le; [done|intros; simpl; lia|by rewrite E]. }
  assert (zlen c' <= zlen c) as Hcc by (unfold c'; rewrite Ec, !length_app; lia).
  pose proof (value_split e items He) as Hv. rewrite Hc in Hv. destruct Hv as (a & b & Ei & _ & _).
  pose proof (blk_items _ _ _ Hb) as Hi. rewrite Ei in Hi. apply Forall_app in Hi as [_ Hi]. apply Forall_cons in Hi as [[_ Hi] _]. split; [lia|].
  pose proof (blk_used _ _ _ Hb). pose proof (blk_room _ _ _ Hb).
  assert (zlen (enc (set_value e c' items)) <= zlen (enc items)); [|rewrite !length_app in *; lia].
  apply enc_replace_le; [done|intros c2 E2; rewrite Hc in E2; by injection E2 as <-|by rewrite Hc].
Qed.

Section any.
Context (realloc : dhcp_options -> Z -> dhcp_options + errno) `{!Reallocates realloc, !Shrinks realloc}.
Implicit Types (o : dhcp_options).

(** Options whose encapsulator, or which themselves, are as before. *)
Lemma fetch_kept o o' items items' tl tag' len : block o items tl -> block o' items' tl -> named items tag' -> 0 <= len ->
  (forall e, e = tag' \/ e = DHCP_ENCAPSULATOR tag' -> value e items' = value e items) -> dhcpopt_fetch o' tag' len = dhcpopt_fetch o tag' len.
Proof.
  intros Hb Hb' Hn Hl Hv. destruct Hn as [tag' Ht _|e t inner z He Ht Hin _ _].
  - by rewrite (fetch_value o' items' tl), (fetch_value o items tl), Hv by auto.
  - destruct (encap_tag e t He Ht) as (E1 & _). rewrite (fetch_inner o' items' tl e t inner z), (fetch_inner o items tl e t inner z); try done.
    unfold holds_inner in *. rewrite Hv by auto. done.
Qed.

Lemma store_any o items tl tag d : block o items tl -> named items tag -> zlen d + 2 < 2 ^ 31 ->
  exists o' rc items', dhcpopt_store realloc o tag d = Some (o', rc) /\ block o' items' tl /\
    (forall len, 0 <= len -> d <> [] -> dhcpopt_fetch o' tag len =
      match rc with None => Some (take (Z.to_nat len) d, inl (zlen d)) | Some _ => dhcpopt_fetch o tag len end) /\
    (forall len, 0 <= len -> d = [] -> dhcpopt_fetch o' tag len = Some ([], inr ENOENT)) /\
    (forall tag' len, named items tag' -> apart tag' tag -> 0 <= len -> dhcpopt_fetch o' tag' len = dhcpopt_fetch o tag' len).
Proof.
  intros Hb Hn Hd. destruct Hn as [tag Ht Hone|e t inner z He Ht Hin H1 H2].
  - destruct (dhcpopt_store_plain realloc o items tl tag d Hb Ht Hd) as (o' & rc & E & Hr & _). destruct rc as [er|]; destruct Hr as [Hb' Hr].
    + exists o', (Some er), items. split; [done|]. split; [done|]. split; [intros len Hl _; by rewrite (fetch_value o' items tl), (fetch_value o items tl)|].
      split; [|intros tag' len Hn' _ Hl; by apply (fetch_kept o o' items items tl)]. intros len Hl ->. exfalso. destruct Hr as [Hr|Hr]; [done|].
      pose proof (blk_used _ _ _ Hb). pose proof (blk_room _ _ _ Hb). pose proof (enc_replace_le tag [] items Ht ltac:(intros; simpl; lia) ltac:(done)).
      rewrite !length_app in *. lia.
    + exists o', None, (set_value tag d items). split; [done|]. split; [done|]. split; [auto|]. split.
      * intros len Hl ->. by rewrite (fetch_value o' _ tl tag len Hb' Ht Hl), Hone.
      * intros tag' len Hn' (A1 & A2 & _) Hl. apply (fetch_kept o o' items (set_value tag d items) tl); try done. intros e [-> | ->]; by apply value_set_other.
  - destruct (encap_tag e t He Ht) as (E1 & _). destruct (store_encap_run realloc o items tl e t d inner z Hb He Ht Hin H1 Hd) as (o' & rc & items' & E & Hb' & Hv & Hr).
    exists o', rc, items'. split; [done|]. split; [done|]. destruct rc as [er|].
    + destruct Hr as [Hin' Hw]. split; [intros len Hl _; by rewrite (fetch_inner o' items' tl e t inner z), (fetch_inner o items tl e t inner z)|]. split.
      * intros len Hl ->. rewrite (fetch_inner o' items' tl e t inner z) by done. destruct (value e items) as [c|] eqn:Ec.
        -- exfalso. destruct (clear_fits e t items inner z o tl Hb He Ht Hin ltac:(by eexists)) as [C1 C2]. destruct Hw as [Hw|[Hw|[Hw|Hw]]]; [done|lia|lia|done].
        -- unfold holds_inner in Hin. rewrite Ec in Hin. by destruct Hin as [-> _].
      * intros tag' len Hn' (A1 & A2 & A3) Hl. rewrite E1 in A3. destruct Hn' as [tag' Ht' _|e' t' inner2 z2 He' Ht' Hin2 _ _].
        -- by rewrite (fetch_value o' items' tl), (fetch_value o items tl), Hv.
        -- destruct (decide (e' = e)) as [-> |]; [by rewrite (fetch_inner o' items' tl e t' inner z), (fetch_inner o items tl e t' inner z)|].
           rewrite (fetch_inner o' items' tl e' t' inner2 z2), (fetch_inner o items tl e' t' inner2 z2); try done. unfold holds_inner in *. by rewrite Hv.
    + destruct Hr as [_ Hin']. split; [|split].
      * intros len Hl Hne. by rewrite (fetch_inner o' items' tl e t _ z len Hb' He Ht Hin' Hl), value_inner_same.
      * intros len Hl ->. by rewrite (fetch_inner o' items' tl e t _ z len Hb' He Ht Hin' Hl), value_inner_clear.
      * intros tag' len Hn' (A1 & A2 & A3) Hl. rewrite E1 in A3. destruct Hn' as [tag' Ht' _|e' t' inner2 z2 He' Ht' Hin2 _ _].
        -- by rewrite (fetch_value o' items' tl), (fetch_value o items tl), Hv.
        -- destruct (decide (e' = e)) as [-> |].
           ++ rewrite (fetch_inner o' items' tl e t' _ z len Hb' He Ht' Hin' Hl), (fetch_inner o items tl e t' inner z) by done.
              rewrite value_inner_other; [done|]. by intros ->.
           ++ rewrite (fetch_inner o' items' tl e' t' inner2 z2), (fetch_inner o items tl e' t' inner2 z2); try done. unfold holds_inner in *. by rewrite Hv.
Qed.
End any.

(** ** The used length of a block that was filled in elsewhere. *)
Lemma used_skip mem fuel items : forall a b remaining used,
  Forall item_ok items -> mem = a ++ enc items ++ b -> zlen (enc items) <= remaining < 2 ^ 31 ->
  exists used', used_loop (length items + fuel) mem (zlen a) remaining used =
      used_loop fuel mem (zlen (a ++ enc items)) (remaining - zlen (enc items)) used' /\
    match last items with
    | None => used' = used
    | Some (Opt _ _) => used' = zlen (a ++ enc items)
    | Some Pad => Forall (eq Pad) items -> used' = used
    end.
Proof.
  induction items as [|it items IH]; intros a b remaining used Hok Em Hr.
  { exists used. cbn [enc length Nat.add]. by rewrite app_nil_r, Z.sub_0_r. }
  apply Forall_cons in Hok as [Hit Hok]. cbn [enc length Nat.add used_loop] in *. rewrite <- app_assoc in Em. rewrite length_app in Hr.
  assert (1 <= zlen (enc_item it)) as H1 by (destruct it; simpl; lia).
  destruct (Z.eqb_spec remaining 0); [lia|]. assert (dhcp_option_len mem (zlen a) = Some (zlen (enc_item it))) as -> by (rewrite Em; by apply item_len). cbn [mbind option_bind].
  rewrite s32_id by lia. destruct (Z.ltb_spec (remaining - zlen (enc_item it)) 0); [lia|].
  assert (byte mem (zlen a) = Some (match it with Pad => DHCP_PAD | Opt t _ => t end)) as ->
    by (rewrite Em; destruct it; by apply byte_app).
  cbn [mbind option_bind]. set (u := if negb _ then _ else used).
  destruct (IH (a ++ enc_item it) b (remaining - zlen (enc_item it)) u Hok ltac:(by rewrite <- app_assoc) ltac:(lia)) as (used' & E & Hl).
  exists used'. rewrite <- !app_assoc, (length_app a (enc_item it)), Nat2Z.inj_add in E. rewrite E.
  split; [f_equal; rewrite length_app; lia|]. rewrite <- app_assoc in Hl. rewrite last_cons. destruct (last items) as [[|t d]|] eqn:El.
  - intros [E1 Hp]%Forall_cons. subst it. by apply Hl.
  - done.
  - rewrite Hl. apply last_None in El as ->. cbn [enc]. rewrite app_nil_r, length_app. destruct it as [|t d]; [done|].
    subst u. destruct Hit as [[Ht _] _]. unfold DHCP_PAD. destruct (Z.eqb_spec t 0); [lia|]. cbn [negb]. lia.
Qed.

(** A block of items, the last of which is not padding, that zeros fill up
    is recognised as these items. *)
Theorem dhcpopt_init_block items n rest : Forall item_ok items -> last items <> Some Pad ->
  257 <= zlen rest -> zlen (enc items) + Z.of_nat n + 1024 < 2 ^ 31 ->
  exists o, dhcpopt_init (enc items ++ replicate n 0 ++ rest) (zlen (enc items) + Z.of_nat n) = Some o /\ block o items [].
Proof.
  intros Hok Hlast Hrest Hsm. unfold dhcpopt_init, dhcpopt_update_used_len. cbn [opt_data alloc_len].
  set (mem := enc items ++ replicate n 0 ++ rest). rewrite s32_id by lia.
  assert (enc (replicate n Pad) = replicate n 0) as Ep by (clear; induction n as [|n IH]; [done|cbn [replicate enc]; by rewrite IH]).
  pose proof (enc_length items). set (k := (Z.to_nat (zlen (enc items) + Z.of_nat n) - length items - n)%nat).
  replace (S (Z.to_nat (zlen (enc items) + Z.of_nat n))) with (length items + (length (replicate n Pad) + S k))%nat
    by (rewrite length_replicate; lia).
  destruct (used_skip mem (length (replicate n Pad) + S k) items [] (replicate n 0 ++ rest) (zlen (enc items) + Z.of_nat n) 0)
    as (u & E & Hu); [done|done|lia|]. change (zlen []) with 0 in E. rewrite E. cbn [app].
  destruct (used_skip mem (S k) (replicate n Pad) (enc items) rest (zlen (enc items) + Z.of_nat n - zlen (enc items)) u)
    as (u' & E' & Hu'); [by apply Forall_replicate|by rewrite Ep|rewrite Ep, length_replicate; lia|]. rewrite E'.
  rewrite Ep, length_replicate. replace (_ - _ - _) with 0 by lia. cbn [used_loop Z.eqb mbind option_bind].
  assert (u' = u) as ->.
  { destruct (last (replicate n Pad)) as [[|t d]|] eqn:El; [by apply Hu', Forall_replicate| |done].
    apply last_Some_elem_of, elem_of_replicate in El as [? _]. done. }
  assert (u = zlen (enc items)) as ->.
  { destruct (last items) as [[|t d]|] eqn:El; [done|exact Hu|]. apply last_None in El as ->. exact Hu. }
  eexists. split; [reflexivity|]. split; cbn [opt_data used_len alloc_len set_used app]; [|by exists (replicate n 0 ++ rest)|by rewrite app_nil_r|lia|done|by left].
  split; cbn [opt_data used_len alloc_len set_used]; [lia| |lia]. subst mem. rewrite !length_app, length_replicate. lia.
Qed.

(** ** Where the code leaves its block. *)

(** Removing an option moves as many bytes as lie behind its new end, and so
    reads behind the block. *)
Theorem shrinking_reads_behind : dhcpopt_store dhcpopt_no_realloc (DhcpOptions [5; 3; 1; 2; 3; 255; 0; 0] 6 8) 5 [] = None.
Proof. vm_compute. reflexivity. Qed.

(** The length of an option whose tag is the last byte of the block is read
    behind the block. *)
Theorem truncated_option_reads_behind : dhcpopt_fetch (DhcpOptions [5] 1 1) 5 4 = None.
Proof. vm_compute. reflexivity. Qed.

(** The search inside an encapsulator without end marker goes on for two
    bytes after it: an option behind it is taken for an encapsulated one. *)
Theorem encapsulator_overrun tl :
  dhcpopt_fetch (DhcpOptions ([43; 3; 7; 1; 9] ++ [8; 0] ++ tl) 7 7) (DHCP_ENCAP_OPT 43 8) 4 = Some ([], inl 0).
Proof.
  set (o := DhcpOptions _ _ _). assert (find_dhcp_option_with_encap o (DHCP_ENCAP_OPT 43 8) (-1) = Some (inl 5, 0)) as E by done.
  unfold dhcpopt_fetch. rewrite E. cbn [mbind option_bind].
  destruct (option_fields [43; 3; 7; 1; 9] 8 0 [] tl) as (_ & E1 & E2). change (opt_data o) with ([43; 3; 7; 1; 9] ++ [8; 0] ++ tl).
  rewrite (E1 : byte _ (5 + 1) = _). cbn [mbind option_bind]. by rewrite (E2 0 ltac:(done) : peek _ (5 + 2) (Z.min 4 0) = _).
Qed.

(** ** Instances: a block of 64 bytes with two options and an end marker. *)
Definition sample_items : list item := [Opt 5 [1; 2; 3]; Opt 43 (enc [Opt 7 [9]] ++ [DHCP_END])].
Definition sample_block : dhcp_options := DhcpOptions (enc sample_items ++ [DHCP_END] ++ replicate 350 0) 12 64.

Lemma sample_block_ok : block sample_block sample_items [DHCP_END].
Proof. split; [split; vm_compute; congruence|by eexists|done|by vm_compute| |right; by eexists]. by_decide. Qed.

(** A reallocator that cannot shrink the block fails after the options were
    moved: the option has neither its old value nor the new one. *)
Theorem failed_shrink_loses_value : exists o', dhcpopt_store (fun _ _ => inr ENOMEM) sample_block 5 [9] = Some (o', Some ENOMEM) /\
  dhcpopt_fetch sample_block 5 8 = Some ([1; 2; 3], inl 3) /\ dhcpopt_fetch o' 5 8 = Some ([1; 43; 4], inl 3).
Proof. eexists. split; [vm_compute; reflexivity|]. split; vm_compute; reflexivity. Qed.

Lemma dhcpopt_store_plain_witness :
  exists o' rc, dhcpopt_store dhcpopt_no_realloc sample_block 6 [10; 11] = Some (o', rc) /\
    match rc with
    | None => block o' (set_value 6 [10; 11] sample_items) [DHCP_END] /\
        ([10; 11] <> [] -> forall len, 0 <= len -> dhcpopt_fetch o' 6 len = Some (take (Z.to_nat len) [10; 11], inl 2))
    | Some _ => block o' sample_items [DHCP_END] /\
        (253 < zlen [10; 11] \/ alloc_len sample_block < zlen (enc (set_value 6 [10; 11] sample_items) ++ [DHCP_END]))
    end /\
    forall tag' len, plain_tag tag' -> tag' <> 6 -> 0 <= len -> dhcpopt_fetch o' tag' len = dhcpopt_fetch sample_block tag' len.
Proof. apply (dhcpopt_store_plain dhcpopt_no_realloc); [apply sample_block_ok|split; done|done]. Defined.

