(* ===== verification/Digest.v ===== *)
(** * Digest algorithms: the contexts, accumulation and padding that
    src/src/crypto/md5.c, sha1.c and sha256.c share, and the interface of
    src/src/include/ipxe/crypto.h through which they are used.

    A context is the number of bytes accumulated, the memory of the digest
    and the memory of the data block.  The build is little-endian: the
    conversion of the words to host order, which is done in place, leaves
    the data block in that order.  Debug output and assertions are left
    out. *)
From S2P Require Import Prelude.

(** ** Words in memory, big-endian or little-endian. *)
Definition store_word (be : bool) (n : nat) (x : Z) : list Z := if be then be_bytes n x else reverse (be_bytes n x).
Definition load_word (be : bool) (l : list Z) : Z := be_val (if be then l else reverse l).

Fixpoint words (be : bool) (l : list Z) : list Z :=
  match l with
  | a :: b :: c :: d :: l => load_word be [a; b; c; d] :: words be l
  | _ => []
  end.
Fixpoint unwords (be : bool) (ws : list Z) : list Z :=
  match ws with
  | [] => []
  | w :: ws => store_word be 4 w ++ unwords be ws
  end.

(** Rotations. *)
Definition rol32 (data rotation : Z) : Z := Z.lor (u32 (Z.shiftl data rotation)) (Z.shiftr data (32 - rotation)).
Definition ror32 (data rotation : Z) : Z := Z.lor (Z.shiftr data rotation) (u32 (Z.shiftl data (32 - rotation))).
Definition not32 (x : Z) : Z := u32 (Z.lnot x).

(** ** The interface.  A context of any type, which [init] overwrites. *)
Record digest_algorithm := DigestAlgorithm {
  dg_ctx : Type;
  blocksize : Z;
  digestsize : Z;
  digest_init : dg_ctx -> dg_ctx;
  digest_update : dg_ctx -> list Z -> dg_ctx;
  digest_final : dg_ctx -> option (dg_ctx * list Z) }.

(** What its users rely on: whatever was in the context, and however the
    data is cut, the digest is a function of the data. *)
Class Digests (d : digest_algorithm) (ok : dg_ctx d -> Prop) (limit : Z) (hash : list Z -> list Z) : Prop := {
  digest_fresh c : ok c -> ok (digest_init d c);
  digest_more c data : ok c -> ok (digest_update d c data);
  digest_chunks c chunks : ok c -> zlen (concat chunks) < limit ->
    exists c', digest_final d (fold_left (digest_update d) chunks (digest_init d c)) = Some (c', hash (concat chunks)) /\ ok c';
  hash_length data : zlen (hash data) = digestsize d;
  hash_bytes data : bytes_ok (hash data);
  block_nonneg : 0 <= blocksize d;
  size_fits : digestsize d <= blocksize d }.

(** ** The three algorithms differ in the initial digest, the order of bytes
    and the function that digests a block of sixteen words. *)
Record md_algorithm := Md {
  md_h : list Z;
  md_be : bool;
  md_compress : list Z -> list Z -> list Z }.

Record md_context := MdCtx {
  ctx_len : Z;
  ctx_digest : list Z;
  ctx_data : list Z }.

Definition BLOCK : Z := 64.

Section Md.
Variable alg : md_algorithm.
Implicit Types (c : md_context) (h w : list Z).

Definition md_init c : md_context := MdCtx 0 (unwords (md_be alg) (md_h alg)) (ctx_data c).

Definition md_add h u : list Z := zip_with (fun x y => u32 (x + y)) h u.

Definition md_digest c : md_context :=
  let h := words (md_be alg) (ctx_digest c) in
  let w := words (md_be alg) (ctx_data c) in
  MdCtx (ctx_len c) (unwords (md_be alg) (md_add h (md_compress alg h w))) (unwords false w).

Definition update_byte c (b : Z) : md_context :=
  let offset := ctx_len c mod BLOCK in
  let c := MdCtx (u32 (ctx_len c + 1)) (ctx_digest c) (<[Z.to_nat offset := b]> (ctx_data c)) in
  if ctx_len c mod BLOCK =? 0 then md_digest c else c.

Definition md_update c (data : list Z) : md_context := fold_left update_byte data c.

(** The do-while loop of the padding after its first byte. *)
Fixpoint pad_bytes (fuel : nat) c : option md_context :=
  match fuel with
  | O => None
  | S fuel => if ctx_len c mod BLOCK =? 56 then Some c else pad_bytes fuel (md_update c [0])
  end.

Definition md_final c : option (md_context * list Z) :=
  let len_bits := store_word (md_be alg) 8 (wrap 64 (ctx_len c * 8)) in
  c ← pad_bytes 64 (md_update c [128]);
  let c := md_update c len_bits in
  Some (c, ctx_digest c).

(** ** The reference: the message padded, cut into blocks, and folded. *)
Definition md_pad (m : list Z) : list Z :=
  m ++ 128 :: replicate (Z.to_nat ((55 - zlen m) mod 64)) 0 ++ store_word (md_be alg) 8 (8 * zlen m).

Definition md_block h (block : list Z) : list Z := md_add h (md_compress alg h (words (md_be alg) block)).

Fixpoint md_blocks (n : nat) h (m : list Z) : list Z :=
  match n with
  | O => h
  | S n => md_blocks n (md_block h (take 64 m)) (drop 64 m)
  end.

Definition md_hash (m : list Z) : list Z :=
  unwords (md_be alg) (md_blocks (length (md_pad m) / 64) (md_h alg) (md_pad m)).
End Md.

(** ** Words. *)
Lemma store_word_length be n x : length (store_word be n x) = n.
Proof. unfold store_word. destruct be; rewrite ?length_reverse; apply be_bytes_length. Qed.

Lemma load_store be n x : 0 <= x < 2 ^ (8 * Z.of_nat n) -> load_word be (store_word be n x) = x.
Proof. intros H. unfold load_word, store_word. destruct be; rewrite ?reverse_involutive, be_val_bytes; by apply Z.mod_small. Qed.

Definition word32 (x : Z) : Prop := 0 <= x < 2 ^ 32.

Lemma words_unwords be ws : Forall word32 ws -> words be (unwords be ws) = ws.
Proof.
  induction 1 as [|w ws Hw _ IH]; [done|]. cbn [unwords]. pose proof (store_word_length be 4 w) as Hl.
  pose proof (load_store be 4 w Hw) as E. destruct (store_word be 4 w) as [|a [|b [|c [|d [|]]]]]; try done.
  cbn [app words]. by rewrite E, IH.
Qed.

Lemma unwords_length be ws : length (unwords be ws) = (4 * length ws)%nat.
Proof. induction ws as [|w ws IH]; [done|]. cbn [unwords]. rewrite length_app, store_word_length, IH. simpl. lia. Qed.

Lemma unwords_bytes be ws : bytes_ok (unwords be ws).
Proof.
  induction ws as [|w ws IH]; [constructor|]. cbn [unwords]. apply Forall_app_2; [|done].
  unfold store_word. destruct be; [|apply Forall_reverse]; apply be_bytes_ok.
Qed.

Lemma words_length be n : forall l, length l = (4 * n)%nat -> length (words be l) = n.
Proof.
  induction n as [|n IH]; intros l Hl; [by destruct l|]. destruct l as [|a [|b [|c [|d l]]]]; try (simpl in Hl; lia).
  cbn [words length]. f_equal. apply IH. simpl in Hl. lia.
Qed.

(** ** Accumulation. *)
Class MdOk (alg : md_algorithm) : Prop := {
  md_h_words : Forall word32 (md_h alg);
  md_compress_length h w : length h = length (md_h alg) -> length (md_compress alg h w) = length (md_h alg) }.

Section MdProofs.
Context (alg : md_algorithm) `{!MdOk alg}.
Implicit Types (c : md_context) (h w m : list Z).

Definition state_ok h : Prop := Forall word32 h /\ length h = length (md_h alg).

Lemma md_block_ok h block : state_ok h -> state_ok (md_block alg h block).
Proof.
  intros [Hw Hl]. unfold md_block, md_add. split.
  - generalize (md_compress alg h (words (md_be alg) block)). clear. induction h as [|x h IH]; intros [|y u]; simpl; try by apply Forall_nil.
    apply Forall_cons. split; [apply wrap_range; lia|apply IH].
  - rewrite length_zip_with_l_eq; [done|]. by rewrite md_compress_length.
Qed.

Lemma md_blocks_ok n : forall h m, state_ok h -> state_ok (md_blocks alg n h m).
Proof. induction n as [|n IH]; intros h m Hh; [done|]. cbn [md_blocks]. by apply IH, md_block_ok. Qed.

Lemma md_h_ok : state_ok (md_h alg).
Proof. split; [apply md_h_words|done]. Qed.

Lemma md_blocks_app n : forall k h a b, length a = (64 * n)%nat -> md_blocks alg (n + k) h (a ++ b) = md_blocks alg k (md_blocks alg n h a) b.
Proof.
  induction n as [|n IH]; intros k h a b Hl; [by destruct a|]. cbn [Nat.add md_blocks].
  rewrite take_app_le, drop_app_le by lia. apply IH. rewrite length_drop. lia.
Qed.

Lemma md_blocks_ext n : forall h a b, length a = (64 * n)%nat -> md_blocks alg n h (a ++ b) = md_blocks alg n h a.
Proof. intros h a b Hl. rewrite <- (Nat.add_0_r n) at 1. by rewrite md_blocks_app. Qed.

(** What a context holds after the message [m]. *)
Record ctx_holds c m : Prop := {
  ch_len : ctx_len c = zlen m;
  ch_digest : ctx_digest c = unwords (md_be alg) (md_blocks alg (length m / 64) (md_h alg) m);
  ch_room : length (ctx_data c) = 64%nat;
  ch_data : take (length m mod 64) (ctx_data c) = drop (64 * (length m / 64)) m }.

Lemma init_holds c : length (ctx_data c) = 64%nat -> ctx_holds (md_init alg c) [].
Proof. intros H. by split. Qed.

Lemma update_byte_holds c m b : ctx_holds c m -> zlen m + 1 < 2 ^ 32 -> ctx_holds (update_byte alg c b) (m ++ [b]).
Proof.
  intros [Hl Hd Hr Ht] Hm. unfold update_byte, BLOCK. rewrite Hl, (wrap_small 32) by lia. cbn [ctx_len].
  pose proof (Nat.div_mod_eq (length m) 64) as Edm. pose proof (Nat.mod_upper_bound (length m) 64 ltac:(lia)) as Hub.
  set (q := (length m / 64)%nat) in *. set (s := (length m mod 64)%nat) in *.
  replace (Z.to_nat (zlen m mod 64)) with s by (subst s; rewrite <- (Nat2Z.id (length m mod 64)), Nat2Z.inj_mod; done).
  assert (take (S s) (<[s:=b]> (ctx_data c)) = drop (64 * q) (m ++ [b])) as Htake.
  { rewrite (take_S_r _ _ b) by (apply list_lookup_insert_eq; lia). rewrite take_insert_ge, Ht by lia.
    by rewrite drop_app_le by lia. }
  destruct (Z.eqb_spec ((zlen m + 1) mod 64) 0) as [E|E].
  - assert (s = 63)%nat as Es by (clearbody q s; zdm).
    assert (length (m ++ [b]) = 64 * (q + 1))%nat as El by (rewrite length_app; simpl; lia).
    rewrite Es in Htake. rewrite take_ge in Htake by (rewrite length_insert; lia).
    pose proof (md_blocks_ok q (md_h alg) m md_h_ok) as [Hw Hlh].
    unfold md_digest. cbn [ctx_digest ctx_data ctx_len]. split; cbn [ctx_len ctx_digest ctx_data].
    + rewrite length_app. simpl. lia.
    + rewrite El. replace (64 * (q + 1) / 64)%nat with (q + 1)%nat by (rewrite Nat.mul_comm, Nat.div_mul; lia).
      rewrite Hd, words_unwords by done. f_equal.
      rewrite <- (take_drop (64 * q) (m ++ [b])), md_blocks_app by (rewrite length_take, El; lia).
      cbn [md_blocks]. unfold md_block. rewrite (take_ge (drop _ _)) by (rewrite length_drop, El; lia). rewrite Es, Htake.
      rewrite take_app_le by lia. rewrite <- (md_blocks_ext q (md_h alg) (take (64 * q) m) (drop (64 * q) m)) by (rewrite length_take; lia).
      by rewrite take_drop.
    + rewrite unwords_length, (words_length _ 16); [done|]. rewrite length_insert. lia.
    + rewrite El. replace ((64 * (q + 1)) mod 64)%nat with 0%nat by (rewrite Nat.mul_comm, Nat.Div0.mod_mul; done).
      rewrite take_0, drop_ge; [done|]. rewrite El. pose proof (Nat.div_mul (q + 1) 64). rewrite (Nat.mul_comm 64). lia.
  - assert (s <> 63)%nat as Es by (clearbody q s; zdm).
    assert (length (m ++ [b]) / 64 = q /\ length (m ++ [b]) mod 64 = S s)%nat as [Eq Em].
    { rewrite length_app. simpl length. pose proof (Nat.div_mod_eq (length m + 1) 64). pose proof (Nat.mod_upper_bound (length m + 1) 64 ltac:(lia)). lia. }
    split; cbn [ctx_len ctx_digest ctx_data].
    + rewrite length_app. simpl. lia.
    + rewrite Eq, Hd. f_equal. rewrite <- (take_drop (64 * q) m), <- app_assoc.
      by rewrite !md_blocks_ext by (rewrite length_take; lia).
    + by rewrite length_insert.
    + by rewrite Eq, Em.
Qed.

Lemma update_holds data : forall c m, ctx_holds c m -> zlen m + zlen data < 2 ^ 32 -> ctx_holds (md_update alg c data) (m ++ data).
Proof.
  induction data as [|b data IH]; intros c m Hc Hl; [by rewrite app_nil_r|]. unfold md_update in *. cbn [fold_left].
  replace (m ++ b :: data) with ((m ++ [b]) ++ data) by by rewrite <- app_assoc. apply IH.
  - apply update_byte_holds; [done|]. simpl length in Hl. lia.
  - rewrite length_app. simpl length in *. lia.
Qed.

Lemma updates_hold chunks : forall c m, ctx_holds c m -> zlen m + zlen (concat chunks) < 2 ^ 32 ->
  ctx_holds (fold_left (md_update alg) chunks c) (m ++ concat chunks).
Proof.
  induction chunks as [|d chunks IH]; intros c m Hc Hl; cbn [concat fold_left] in *; [by rewrite app_nil_r|].
  rewrite length_app in Hl. rewrite app_assoc. apply IH; [apply update_holds; [done|lia]|]. rewrite length_app. lia.
Qed.

(** The padding loop ends, after the least number of zeros. *)
Lemma pad_bytes_holds fuel : forall c m, ctx_holds c m -> zlen m + (56 - zlen m) mod 64 < 2 ^ 32 -> (56 - zlen m) mod 64 < Z.of_nat fuel ->
  exists c', pad_bytes alg fuel c = Some c' /\ ctx_holds c' (m ++ replicate (Z.to_nat ((56 - zlen m) mod 64)) 0).
Proof.
  induction fuel as [|fuel IH]; intros c m Hc Hm Hf; [zdm|]. cbn [pad_bytes]. unfold BLOCK. rewrite (ch_len _ _ Hc).
  destruct (Z.eqb_spec (zlen m mod 64) 56) as [E|E].
  - exists c. split; [done|]. replace ((56 - zlen m) mod 64) with 0 by zdm. by rewrite app_nil_r.
  - destruct (IH (md_update alg c [0]) (m ++ [0])) as (c' & Ec & Hc').
    + apply update_holds; [done|simpl length; zdm].
    + rewrite length_app. simpl length. zdm.
    + rewrite length_app. simpl length. zdm.
    + exists c'. split; [done|]. rewrite <- app_assoc in Hc'. replace (Z.to_nat ((56 - zlen m) mod 64)) with (S (Z.to_nat ((56 - zlen (m ++ [0])) mod 64))); [done|].
      rewrite length_app. simpl length. zdm.
Qed.

Lemma final_holds c m : ctx_holds c m -> zlen m + 73 < 2 ^ 32 ->
  exists c', md_final alg c = Some (c', md_hash alg m) /\ ctx_holds c' (md_pad alg m).
Proof.
  intros Hc Hm. unfold md_final. pose proof (update_holds [128] c m Hc ltac:(simpl length; lia)) as H1.
  pose proof (Z.mod_pos_bound (56 - zlen (m ++ [128])) 64 ltac:(lia)) as Hpad.
  destruct (pad_bytes_holds 64 _ _ H1) as (c2 & E2 & H2); [rewrite length_app in *; simpl length in *; lia|lia|].
  rewrite E2. cbn [mbind option_bind]. rewrite (ch_len _ _ Hc), (wrap_small 64) by lia.
  set (bits := store_word (md_be alg) 8 (zlen m * 8)).
  assert (length bits = 8%nat) as Hb by apply store_word_length.
  pose proof (update_holds bits c2 _ H2) as H3. rewrite !length_app, length_replicate, Hb in H3. simpl length in H3.
  specialize (H3 ltac:(zdm)).
  assert (((m ++ [128]) ++ replicate (Z.to_nat ((56 - Z.of_nat (length m + 1)) mod 64)) 0) ++ bits = md_pad alg m) as Ep.
  { unfold md_pad, bits. rewrite <- !app_assoc. cbn [app]. replace (zlen m * 8) with (8 * zlen m) by lia.
    by replace (56 - Z.of_nat (length m + 1)) with (55 - zlen m) by lia. }
  rewrite Ep in H3. eexists. split; [|exact H3]. do 2 f_equal. rewrite (ch_digest _ _ H3). done.
Qed.
End MdProofs.

(** ** An algorithm as the interface sees it. *)
Definition md_digest_algorithm (alg : md_algorithm) (size : Z) : digest_algorithm :=
  DigestAlgorithm md_context BLOCK size (md_init alg) (md_update alg) (md_final alg).

Definition md_ctx_ok (c : md_context) : Prop := length (ctx_data c) = 64%nat.
Definition MD_LIMIT : Z := 2 ^ 32 - 73.

Lemma update_ok alg c data : md_ctx_ok c -> md_ctx_ok (md_update alg c data).
Proof.
  unfold md_update. revert c. induction data as [|b data IH]; intros c Hc; [done|]. cbn [fold_left]. apply IH.
  unfold update_byte, md_digest, md_ctx_ok in *. case_match; cbn [ctx_data]; [|by rewrite length_insert].
  rewrite unwords_length, (words_length _ 16); [done|]. rewrite length_insert. lia.
Qed.

Lemma md_digests alg size `{!MdOk alg} (Hsize : size = 4 * zlen (md_h alg)) (Hfit : size <= BLOCK) :
  Digests (md_digest_algorithm alg size) md_ctx_ok MD_LIMIT (md_hash alg).
Proof.
  split; cbn [md_digest_algorithm digest_init digest_update digest_final dg_ctx blocksize digestsize].
  - done.
  - apply update_ok.
  - intros c chunks Hc Hl. unfold MD_LIMIT in Hl.
    destruct (final_holds alg (fold_left (md_update alg) chunks (md_init alg c)) (concat chunks)) as (c' & E & Hc').
    + apply (updates_hold alg chunks (md_init alg c) []); [by apply init_holds|simpl length; lia].
    + lia.
    + exists c'. split; [exact E|]. apply (ch_room _ _ _ Hc').
  - intros data. unfold md_hash. rewrite unwords_length. destruct (md_blocks_ok alg (length (md_pad alg data) / 64) (md_h alg) (md_pad alg data) (md_h_ok alg)) as [_ ->]. lia.
  - intros data. apply unwords_bytes.
  - done.
  - exact Hfit.
Qed.
