(* ===== verification/Sha.v ===== *)
(** * MD5, SHA-1 and SHA-256: src/src/crypto/md5.c, sha1.c and sha256.c.

    The functions that digest one block, and the three algorithms as
    instances of [Digest].  The variables of a function are a record or
    list of 32-bit words; an array is a list. *)
From S2P Require Import Prelude Digest.

(** ** MD5. *)
Module Md5.

Definition md5_k : list Z :=
  [0xd76aa478; 0xe8c7b756; 0x242070db; 0xc1bdceee; 0xf57c0faf; 0x4787c62a;
   0xa8304613; 0xfd469501; 0x698098d8; 0x8b44f7af; 0xffff5bb1; 0x895cd7be;
   0x6b901122; 0xfd987193; 0xa679438e; 0x49b40821; 0xf61e2562; 0xc040b340;
   0x265e5a51; 0xe9b6c7aa; 0xd62f105d; 0x02441453; 0xd8a1e681; 0xe7d3fbc8;
   0x21e1cde6; 0xc33707d6; 0xf4d50d87; 0x455a14ed; 0xa9e3e905; 0xfcefa3f8;
   0x676f02d9; 0x8d2a4c8a; 0xfffa3942; 0x8771f681; 0x6d9d6122; 0xfde5380c;
   0xa4beea44; 0x4bdecfa9; 0xf6bb4b60; 0xbebfbc70; 0x289b7ec6; 0xeaa127fa;
   0xd4ef3085; 0x04881d05; 0xd9d4d039; 0xe6db99e5; 0x1fa27cf8; 0xc4ac5665;
   0xf4292244; 0x432aff97; 0xab9423a7; 0xfc93a039; 0x655b59c3; 0x8f0ccc92;
   0xffeff47d; 0x85845dd1; 0x6fa87e4f; 0xfe2ce6e0; 0xa3014314; 0x4e0811a1;
   0xf7537e82; 0xbd3af235; 0x2ad7d2bb; 0xeb86d391].

Definition md5_r : list Z :=
  [7; 12; 17; 22; 7; 12; 17; 22; 7; 12; 17; 22; 7; 12; 17; 22;
   5; 9; 14; 20; 5; 9; 14; 20; 5; 9; 14; 20; 5; 9; 14; 20;
   4; 11; 16; 23; 4; 11; 16; 23; 4; 11; 16; 23; 4; 11; 16; 23;
   6; 10; 15; 21; 6; 10; 15; 21; 6; 10; 15; 21; 6; 10; 15; 21].

Record md5_variables := Vars { v_a : Z; v_b : Z; v_c : Z; v_d : Z }.

Definition md5_f_0_15 (v : md5_variables) : Z := Z.lxor (v_d v) (Z.land (v_b v) (Z.lxor (v_c v) (v_d v))).
Definition md5_f_16_31 (v : md5_variables) : Z := Z.lxor (v_c v) (Z.land (v_d v) (Z.lxor (v_b v) (v_c v))).
Definition md5_f_32_47 (v : md5_variables) : Z := Z.lxor (Z.lxor (v_b v) (v_c v)) (v_d v).
Definition md5_f_48_63 (v : md5_variables) : Z := Z.lxor (v_c v) (Z.lor (v_b v) (not32 (v_d v))).

(** The function, and the coefficients of the index into the block. *)
Definition md5_steps : list ((md5_variables -> Z) * (Z * Z)) :=
  [(md5_f_0_15, (1, 0)); (md5_f_16_31, (5, 1)); (md5_f_32_47, (3, 5)); (md5_f_48_63, (7, 0))].

Definition md5_step (w : list Z) (v : md5_variables) (i : nat) : md5_variables :=
  match md5_steps !! (i / 16)%nat with
  | Some (f, (coefficient, constant)) =>
      let f := f v in
      let g := (coefficient * Z.of_nat i + constant) mod 16 in
      Vars (v_d v)
        (u32 (v_b v + rol32 (u32 (v_a v + f + md5_k !!! i + w !!! Z.to_nat g)) (md5_r !!! i)))
        (v_b v) (v_c v)
  | None => v
  end.

Definition md5_digest (h w : list Z) : list Z :=
  let v := fold_left (md5_step w) (seq 0 64) (Vars (h !!! 0%nat) (h !!! 1%nat) (h !!! 2%nat) (h !!! 3%nat)) in
  [v_a v; v_b v; v_c v; v_d v].

Definition md5 : md_algorithm := Md [0x67452301; 0xefcdab89; 0x98badcfe; 0x10325476] false md5_digest.
Definition md5_init : md_context -> md_context := md_init md5.
Definition md5_update : md_context -> list Z -> md_context := md_update md5.
Definition md5_final : md_context -> option (md_context * list Z) := md_final md5.
Definition md5_algorithm : digest_algorithm := md_digest_algorithm md5 16.

End Md5.

(** ** SHA-1. *)
Module Sha1.

Record sha1_variables := Vars { v_a : Z; v_b : Z; v_c : Z; v_d : Z; v_e : Z }.

Definition sha1_f_0_19 (v : sha1_variables) : Z := Z.lor (Z.land (v_b v) (v_c v)) (Z.land (not32 (v_b v)) (v_d v)).
Definition sha1_f_20_39_60_79 (v : sha1_variables) : Z := Z.lxor (Z.lxor (v_b v) (v_c v)) (v_d v).
Definition sha1_f_40_59 (v : sha1_variables) : Z :=
  Z.lor (Z.lor (Z.land (v_b v) (v_c v)) (Z.land (v_b v) (v_d v))) (Z.land (v_c v) (v_d v)).

Definition sha1_steps : list ((sha1_variables -> Z) * Z) :=
  [(sha1_f_0_19, 0x5a827999); (sha1_f_20_39_60_79, 0x6ed9eba1); (sha1_f_40_59, 0x8f1bbcdc); (sha1_f_20_39_60_79, 0xca62c1d6)].

(** The words 16 to 79. *)
Definition sha1_extend_word (w : list Z) (i : nat) : list Z :=
  w ++ [rol32 (Z.lxor (Z.lxor (Z.lxor (w !!! (i - 3)%nat) (w !!! (i - 8)%nat)) (w !!! (i - 14)%nat)) (w !!! (i - 16)%nat)) 1].
Definition sha1_words (w : list Z) : list Z := fold_left sha1_extend_word (seq 16 64) w.

Definition sha1_step (w : list Z) (v : sha1_variables) (i : nat) : sha1_variables :=
  match sha1_steps !! (i / 20)%nat with
  | Some (f, k) =>
      let temp := u32 (rol32 (v_a v) 5 + f v + v_e v + k + w !!! i) in
      Vars temp (v_a v) (rol32 (v_b v) 30) (v_c v) (v_d v)
  | None => v
  end.

Definition sha1_digest (h w : list Z) : list Z :=
  let v := fold_left (sha1_step (sha1_words w)) (seq 0 80)
             (Vars (h !!! 0%nat) (h !!! 1%nat) (h !!! 2%nat) (h !!! 3%nat) (h !!! 4%nat)) in
  [v_a v; v_b v; v_c v; v_d v; v_e v].

Definition sha1 : md_algorithm := Md [0x67452301; 0xefcdab89; 0x98badcfe; 0x10325476; 0xc3d2e1f0] true sha1_digest.
Definition sha1_init : md_context -> md_context := md_init sha1.
Definition sha1_update : md_context -> list Z -> md_context := md_update sha1.
Definition sha1_final : md_context -> option (md_context * list Z) := md_final sha1.
Definition sha1_algorithm : digest_algorithm := md_digest_algorithm sha1 20.

End Sha1.

(** ** SHA-256. *)
Module Sha256.

(** The constants, in the rows of the source. *)
Definition row (k0 k1 k2 k3 k4 k5 : Z) : list Z := [k0; k1; k2; k3; k4; k5].
Definition sha256_k : list Z :=
  row 0x428a2f98 0x71374491 0xb5c0fbcf 0xe9b5dba5 0x3956c25b 0x59f111f1 ++
  row 0x923f82a4 0xab1c5ed5 0xd807aa98 0x12835b01 0x243185be 0x550c7dc3 ++
  row 0x72be5d74 0x80deb1fe 0x9bdc06a7 0xc19bf174 0xe49b69c1 0xefbe4786 ++
  row 0x0fc19dc6 0x240ca1cc 0x2de92c6f 0x4a7484aa 0x5cb0a9dc 0x76f988da ++
  row 0x983e5152 0xa831c66d 0xb00327c8 0xbf597fc7 0xc6e00bf3 0xd5a79147 ++
  row 0x06ca6351 0x14292967 0x27b70a85 0x2e1b2138 0x4d2c6dfc 0x53380d13 ++
  row 0x650a7354 0x766a0abb 0x81c2c92e 0x92722c85 0xa2bfe8a1 0xa81a664b ++
  row 0xc24b8b70 0xc76c51a3 0xd192e819 0xd6990624 0xf40e3585 0x106aa070 ++
  row 0x19a4c116 0x1e376c08 0x2748774c 0x34b0bcb5 0x391c0cb3 0x4ed8aa4a ++
  row 0x5b9cca4f 0x682e6ff3 0x748f82ee 0x78a5636f 0x84c87814 0x8cc70208 ++
  [0x90befffa; 0xa4506ceb; 0xbef9a3f7; 0xc67178f2].

Record sha256_variables := Vars { v_a : Z; v_b : Z; v_c : Z; v_d : Z; v_e : Z; v_f : Z; v_g : Z; v_h : Z }.

(** The words 16 to 63. *)
Definition sha256_extend_word (w : list Z) (i : nat) : list Z :=
  let w15 := w !!! (i - 15)%nat in
  let w2 := w !!! (i - 2)%nat in
  let s0 := Z.lxor (Z.lxor (ror32 w15 7) (ror32 w15 18)) (Z.shiftr w15 3) in
  let s1 := Z.lxor (Z.lxor (ror32 w2 17) (ror32 w2 19)) (Z.shiftr w2 10) in
  w ++ [u32 (w !!! (i - 16)%nat + s0 + w !!! (i - 7)%nat + s1)].
Definition sha256_words (w : list Z) : list Z := fold_left sha256_extend_word (seq 16 48) w.

Definition sha256_step (w : list Z) (v : sha256_variables) (i : nat) : sha256_variables :=
  let '(Vars a b c d e f g h) := v in
  let s0 := Z.lxor (Z.lxor (ror32 a 2) (ror32 a 13)) (ror32 a 22) in
  let maj := Z.lxor (Z.lxor (Z.land a b) (Z.land a c)) (Z.land b c) in
  let t2 := u32 (s0 + maj) in
  let s1 := Z.lxor (Z.lxor (ror32 e 6) (ror32 e 11)) (ror32 e 25) in
  let ch := Z.lxor (Z.land e f) (Z.land (not32 e) g) in
  let t1 := u32 (h + s1 + ch + sha256_k !!! i + w !!! i) in
  Vars (u32 (t1 + t2)) a b c (u32 (d + t1)) e f g.

Definition sha256_digest (h w : list Z) : list Z :=
  let v := fold_left (sha256_step (sha256_words w)) (seq 0 64)
             (Vars (h !!! 0%nat) (h !!! 1%nat) (h !!! 2%nat) (h !!! 3%nat)
                   (h !!! 4%nat) (h !!! 5%nat) (h !!! 6%nat) (h !!! 7%nat)) in
  [v_a v; v_b v; v_c v; v_d v; v_e v; v_f v; v_g v; v_h v].

Definition sha256 : md_algorithm :=
  Md [0x6a09e667; 0xbb67ae85; 0x3c6ef372; 0xa54ff53a; 0x510e527f; 0x9b05688c; 0x1f83d9ab; 0x5be0cd19] true sha256_digest.
Definition sha256_init : md_context -> md_context := md_init sha256.
Definition sha256_update : md_context -> list Z -> md_context := md_update sha256.
Definition sha256_final : md_context -> option (md_context * list Z) := md_final sha256.
Definition sha256_algorithm : digest_algorithm := md_digest_algorithm sha256 32.

End Sha256.

(** ** The algorithms are digests. *)
#[export] Instance md5_ok : MdOk Md5.md5.
Proof. split; [by_decide|done]. Qed.
#[export] Instance sha1_ok : MdOk Sha1.sha1.
Proof. split; [by_decide|done]. Qed.
#[export] Instance sha256_ok : MdOk Sha256.sha256.
Proof. split; [by_decide|done]. Qed.

#[export] Instance md5_digests : Digests Md5.md5_algorithm md_ctx_ok MD_LIMIT (md_hash Md5.md5).
Proof. apply md_digests; [apply _|done|vm_compute; congruence]. Qed.
#[export] Instance sha1_digests : Digests Sha1.sha1_algorithm md_ctx_ok MD_LIMIT (md_hash Sha1.sha1).
Proof. apply md_digests; [apply _|done|vm_compute; congruence]. Qed.
#[export] Instance sha256_digests : Digests Sha256.sha256_algorithm md_ctx_ok MD_LIMIT (md_hash Sha256.sha256).
Proof. apply md_digests; [apply _|done|vm_compute; congruence]. Qed.

(** C38: whatever a context held before, and however the data is cut into
    pieces, each of the three algorithms ends its padding loop and gives the
    digest that its standard defines for the whole data: the data padded,
    cut into blocks and folded. *)
Theorem digests_any_chunks c chunks :
  md_ctx_ok c -> zlen (concat chunks) < MD_LIMIT ->
  snd <$> Md5.md5_final (fold_left Md5.md5_update chunks (Md5.md5_init c)) = Some (md_hash Md5.md5 (concat chunks)) /\
  snd <$> Sha1.sha1_final (fold_left Sha1.sha1_update chunks (Sha1.sha1_init c)) = Some (md_hash Sha1.sha1 (concat chunks)) /\
  snd <$> Sha256.sha256_final (fold_left Sha256.sha256_update chunks (Sha256.sha256_init c)) = Some (md_hash Sha256.sha256 (concat chunks)).
Proof.
  intros Hc Hl.
  destruct (@digest_chunks _ _ _ _ md5_digests c chunks Hc Hl) as (c1 & E1 & _).
  destruct (@digest_chunks _ _ _ _ sha1_digests c chunks Hc Hl) as (c2 & E2 & _).
  destruct (@digest_chunks _ _ _ _ sha256_digests c chunks Hc Hl) as (c3 & E3 & _).
  split; [exact (f_equal (fmap snd) E1)|]. split; [exact (f_equal (fmap snd) E2)|exact (f_equal (fmap snd) E3)].
Qed.

(** The test vectors of the standards for the message abc. *)
Example md5_abc : md_hash Md5.md5 [97; 98; 99] = be_bytes 16 0x900150983cd24fb0d6963f7d28e17f72.
Proof. vm_compute. reflexivity. Qed.
Example sha1_abc : md_hash Sha1.sha1 [97; 98; 99] = be_bytes 20 0xa9993e364706816aba3e25717850c26c9cd0d89d.
Proof. vm_compute. reflexivity. Qed.
Example sha256_abc :
  md_hash Sha256.sha256 [97; 98; 99] = be_bytes 32 0xba7816bf8f01cfea414140de5dae2223b00361a396177a9cb410ff61f20015ad.
Proof. vm_compute. reflexivity. Qed.

Definition stale_context : md_context := MdCtx 17 [1; 2; 3] (replicate 64 9).

Lemma digests_any_chunks_witness :
  snd <$> Md5.md5_final (fold_left Md5.md5_update [[97]; []; [98; 99]] (Md5.md5_init stale_context)) = Some (md_hash Md5.md5 [97; 98; 99]) /\
  snd <$> Sha1.sha1_final (fold_left Sha1.sha1_update [[97]; []; [98; 99]] (Sha1.sha1_init stale_context)) =
    Some (md_hash Sha1.sha1 [97; 98; 99]) /\
  snd <$> Sha256.sha256_final (fold_left Sha256.sha256_update [[97]; []; [98; 99]] (Sha256.sha256_init stale_context)) =
    Some (md_hash Sha256.sha256 [97; 98; 99]).
Proof. apply (digests_any_chunks stale_context [[97]; []; [98; 99]]); [done|done]. Defined.
