(* ===== verification/Hmac.v ===== *)
(** * Keyed hashing and key derivation: src/src/crypto/hmac.c, hash_df.c and
    sha1extra.c, with hmac_update() of src/src/include/ipxe/hmac.h.

    A key is a buffer and the number of its bytes that are used, because a
    long key is replaced in place by its digest.  The contexts that are local
    variables start with arbitrary contents, [scratch].  The code is proved
    against the interface [Digests], whatever the algorithm. *)
From S2P Require Import Prelude Strings Digest Sha.

Section Hmac.
Variable d : digest_algorithm.
Variable scratch : dg_ctx d.
Implicit Types (c : dg_ctx d) (key : list Z).

Definition hmac_reduce_key key (key_len : Z) : option (list Z * Z) :=
  '(_, out) ← digest_final d (digest_update d (digest_init d scratch) (take (Z.to_nat key_len) key));
  Some (out ++ drop (length out) key, digestsize d).

Definition reduce_if_long key (key_len : Z) : option (list Z * Z) :=
  if blocksize d <? key_len then hmac_reduce_key key key_len else Some (key, key_len).

(** The key, filled up with zeros and combined with a constant. *)
Definition k_pad (x : Z) key (key_len : Z) : list Z :=
  Z.lxor x <$> take (Z.to_nat key_len) key ++ replicate (Z.to_nat (blocksize d - key_len)) 0.

Definition hmac_init c key (key_len : Z) : option (dg_ctx d * (list Z * Z)) :=
  '(key, key_len) ← reduce_if_long key key_len;
  Some (digest_update d (digest_init d c) (k_pad 0x36 key key_len), (key, key_len)).

Definition hmac_update c (data : list Z) : dg_ctx d := digest_update d c data.

Definition hmac_final c key (key_len : Z) : option (dg_ctx d * (list Z * Z) * list Z) :=
  '(key, key_len) ← reduce_if_long key key_len;
  let k_opad := k_pad 0x5c key key_len in
  '(c, hmac) ← digest_final d c;
  '(c, hmac) ← digest_final d (digest_update d (digest_update d (digest_init d c) k_opad) hmac);
  Some (c, (key, key_len), hmac).

(** A message in pieces, as the callers do it. *)
Definition hmac_message c key (key_len : Z) (chunks : list (list Z)) : option ((list Z * Z) * list Z) :=
  '(c, (key, key_len)) ← hmac_init c key key_len;
  '(_, k, hmac) ← hmac_final (fold_left hmac_update chunks c) key key_len;
  Some (k, hmac).

(** ** [hash_df]. *)
Fixpoint hash_df_loop (fuel : nat) (counter : Z) (input : list Z) (output_len remaining : Z) : option (list Z) :=
  if remaining =? 0 then Some [] else
  match fuel with
  | O => None
  | S fuel =>
      let prefix := counter :: be_bytes 4 (u32 (output_len * 8)) in
      '(_, digest) ← digest_final d (digest_update d (digest_update d (digest_init d scratch) prefix) input);
      let frag_len := if remaining <? digestsize d then remaining else digestsize d in
      rest ← hash_df_loop fuel (u8 (counter + 1)) input output_len (remaining - frag_len);
      Some (take (Z.to_nat frag_len) digest ++ rest)
  end.
Definition hash_df (input : list Z) (output_len : Z) : option (list Z) :=
  hash_df_loop (Z.to_nat output_len) 1 input output_len output_len.
End Hmac.

(** ** Key derivation with SHA-1. *)
Section Sha1Extra.
Variable scratch : md_context.
Implicit Types (key : list Z).

Definition SHA1_DIGEST_SIZE : Z := 20.

Fixpoint prf_loop (fuel : nat) (blk : Z) key (key_len : Z) (prefix : list Z) (prf_len : Z) : option (list Z) :=
  match fuel with
  | O => None
  | S fuel =>
      '((key, key_len), out) ← hmac_message Sha1.sha1_algorithm scratch scratch key key_len [prefix ++ [u8 blk]];
      if prf_len <=? SHA1_DIGEST_SIZE then Some (take (Z.to_nat prf_len) out) else
      rest ← prf_loop fuel (u32 (blk + 1)) key key_len prefix (prf_len - SHA1_DIGEST_SIZE);
      Some (out ++ rest)
  end.
Definition prf_sha1 key (label data : list Z) (prf_len : Z) : option (list Z) :=
  prf_loop (S (Z.to_nat prf_len)) 0 key (zlen key) (label ++ [0] ++ data) prf_len.

Fixpoint pbkdf2_rounds (n : nat) key (key_len : Z) (next_in block : list Z) : option (list Z) :=
  match n with
  | O => Some block
  | S n =>
      '((key, key_len), last) ← hmac_message Sha1.sha1_algorithm scratch scratch key key_len [next_in];
      pbkdf2_rounds n key key_len last (zip_with Z.lxor block last)
  end.
Definition pbkdf2_sha1_f (passphrase salt : list Z) (iterations blocknr : Z) : option (list Z) :=
  pbkdf2_rounds (Z.to_nat iterations) passphrase (zlen passphrase) (salt ++ be_bytes 4 blocknr)
    (replicate (Z.to_nat SHA1_DIGEST_SIZE) 0).

Fixpoint pbkdf2_loop (n : nat) (passphrase salt : list Z) (iterations blk key_len : Z) : option (list Z) :=
  match n with
  | O => Some []
  | S n =>
      buf ← pbkdf2_sha1_f passphrase salt iterations blk;
      if key_len <=? SHA1_DIGEST_SIZE then Some (take (Z.to_nat key_len) buf) else
      rest ← pbkdf2_loop n passphrase salt iterations (u32 (blk + 1)) (key_len - SHA1_DIGEST_SIZE);
      Some (buf ++ rest)
  end.
Definition pbkdf2_sha1 (passphrase salt : list Z) (iterations key_len : Z) : option (list Z) :=
  let blocks := u32 (key_len + SHA1_DIGEST_SIZE - 1) / SHA1_DIGEST_SIZE in
  pbkdf2_loop (Z.to_nat blocks) passphrase salt iterations 1 key_len.
End Sha1Extra.

(** ** References: RFC 2104, SP 800-90 and RFC 2898 over a hash function. *)
Section Reference.
Variable hash : list Z -> list Z.
Variable block : Z.

Definition hmac_key (key : list Z) : list Z := if block <? zlen key then hash key else key.
Definition hmac_block (x : Z) (key : list Z) : list Z :=
  Z.lxor x <$> hmac_key key ++ replicate (Z.to_nat block - length (hmac_key key)) 0.
Definition hmac_ref (key m : list Z) : list Z := hash (hmac_block 0x5c key ++ hash (hmac_block 0x36 key ++ m)).

Definition hash_df_ref (input : list Z) (output_len : Z) (n : nat) : list Z :=
  take (Z.to_nat output_len)
    (concat ((fun i => hash (Z.of_nat i :: be_bytes 4 (output_len * 8) ++ input)) <$> seq 1 n)).

(** The intermediate values of the iteration, and their combination. *)
Fixpoint pbkdf2_ref (n : nat) (key next block : list Z) : list Z :=
  match n with
  | O => block
  | S n => let u := hmac_ref key next in pbkdf2_ref n key u (zip_with Z.lxor block u)
  end.
Definition prf_ref (key prefix : list Z) (prf_len : Z) (n : nat) : list Z :=
  take (Z.to_nat prf_len) (concat ((fun i => hmac_ref key (prefix ++ [Z.of_nat i])) <$> seq 0 n)).
End Reference.

(** ** Proofs against the interface. *)
Section HmacProofs.
Context (d : digest_algorithm) (ok : dg_ctx d -> Prop) (limit : Z) (hash : list Z -> list Z) `{HD : !Digests d ok limit hash}.
Context (scratch : dg_ctx d) (Hscratch : ok scratch).
Context (Hlimit : blocksize d + digestsize d < limit).
Implicit Types (c : dg_ctx d) (key : list Z).

Abbreviation B := (blocksize d).

Lemma hash_size data : zlen (hash data) = digestsize d.
Proof. apply hash_length. Qed.
Lemma size_nonneg : 0 <= digestsize d.
Proof. rewrite <- (hash_size []). lia. Qed.
Lemma size_block : digestsize d <= B.
Proof. apply (size_fits (hash := hash) (ok := ok) (limit := limit)). Qed.

(** The pieces of a message of which the first was given already. *)
Lemma digest_run c x chunks : ok c -> zlen x + zlen (concat chunks) < limit ->
  exists c', digest_final d (fold_left (digest_update d) chunks (digest_update d (digest_init d c) x)) =
    Some (c', hash (x ++ concat chunks)) /\ ok c'.
Proof.
  intros Hc Hl. apply (digest_chunks (Digests := HD) c (x :: chunks) Hc). cbn [concat]. rewrite length_app. lia.
Qed.

(** A buffer that holds a key, or what it was replaced with. *)
Record key_state key (len : Z) (K : list Z) : Prop := {
  ks_len : 0 <= len <= zlen key;
  ks_key : hmac_key hash B (take (Z.to_nat len) key) = hmac_key hash B K;
  ks_limit : zlen key < limit }.

Lemma hmac_key_short K : zlen (hmac_key hash B K) <= B.
Proof.
  pose proof size_block. unfold hmac_key. destruct (Z.ltb_spec B (zlen K)) as [H1|H1]; [|lia]. rewrite hash_size. lia.
Qed.

Lemma hmac_key_id K : zlen K <= B -> hmac_key hash B K = K.
Proof. intros HK. unfold hmac_key. by destruct (Z.ltb_spec B (zlen K)); [lia|]. Qed.

Lemma hmac_ref_key K K' m : hmac_key hash B K = hmac_key hash B K' -> hmac_ref hash B K m = hmac_ref hash B K' m.
Proof. intros E. unfold hmac_ref, hmac_block. by rewrite E. Qed.

Lemma reduce_run key len K : key_state key len K ->
  exists key' len', reduce_if_long d scratch key len = Some (key', len') /\ key_state key' len' K /\
    take (Z.to_nat len') key' = hmac_key hash B K /\ len' <= B.
Proof.
  intros [Hl Hk Hlim]. unfold reduce_if_long. assert (zlen (take (Z.to_nat len) key) = len) as Ht by (rewrite length_take; lia).
  unfold hmac_key in Hk at 1. rewrite Ht in Hk. destruct (Z.ltb_spec B len) as [Hlong|Hshort].
  - unfold hmac_reduce_key.
    destruct (digest_run scratch (take (Z.to_nat len) key) [] Hscratch) as (c' & E & _); [cbn [concat length]; lia|].
    cbn [fold_left concat] in E. rewrite app_nil_r, Hk in E. rewrite E. cbn [mbind option_bind].
    set (h := hmac_key hash B K) in *. assert (zlen h = digestsize d) as Hh by (rewrite <- Hk; apply hash_size).
    pose proof size_block. pose proof size_nonneg. eexists _, _. split; [reflexivity|].
    assert (take (Z.to_nat (digestsize d)) (h ++ drop (length h) key) = h) as Eh.
    { rewrite <- Hh, Nat2Z.id. apply take_app_length. }
    split; [|split; [done|lia]]. split.
    + rewrite length_app, length_drop. lia.
    + rewrite Eh. apply (hmac_key_id h). lia.
    + rewrite length_app, length_drop. lia.
  - eexists _, _. split; [reflexivity|]. split; [|split; [done|lia]]. split; [done| |done]. rewrite Hk. rewrite hmac_key_id; [done|].
    apply hmac_key_short.
Qed.

Lemma k_pad_block x key len K : 0 <= len <= zlen key -> take (Z.to_nat len) key = hmac_key hash B K ->
  k_pad d x key len = hmac_block hash B x K /\ (len <= B -> zlen (k_pad d x key len) = B).
Proof.
  intros Hl E. unfold k_pad, hmac_block. rewrite <- E. rewrite length_take.
  replace (Z.to_nat (B - len)) with (Z.to_nat B - Z.to_nat len `min` length key)%nat by lia. split; [done|].
  intros Hb. rewrite length_fmap, length_app, length_take, length_replicate. lia.
Qed.

(** A keyed hash of a message in pieces. *)
Lemma hmac_message_run c key len K chunks : ok c -> key_state key len K -> B + zlen (concat chunks) < limit ->
  exists key' len', hmac_message d scratch c key len chunks = Some ((key', len'), hmac_ref hash B K (concat chunks)) /\
    key_state key' len' K.
Proof.
  intros Hc Hk Hl. unfold hmac_message, hmac_init, hmac_final.
  destruct (reduce_run key len K Hk) as (key1 & len1 & E1 & Hk1 & Et1 & Hl1). rewrite E1. cbn [mbind option_bind].
  destruct (reduce_run key1 len1 K Hk1) as (key2 & len2 & E2 & Hk2 & Et2 & Hl2). rewrite E2. cbn [mbind option_bind].
  destruct (k_pad_block 0x36 key1 len1 K (ks_len _ _ _ Hk1) Et1) as [Ei Hi]. specialize (Hi Hl1).
  destruct (k_pad_block 0x5c key2 len2 K (ks_len _ _ _ Hk2) Et2) as [Eo Ho]. specialize (Ho Hl2).
  destruct (digest_run c (k_pad d 0x36 key1 len1) chunks Hc ltac:(lia)) as (c1 & Ed1 & Hc1).
  unfold hmac_update. change (fun c data => digest_update d c data) with (digest_update d). rewrite Ed1. cbn [mbind option_bind].
  set (inner := hash _) in *. destruct (digest_run c1 (k_pad d 0x5c key2 len2) [inner] Hc1) as (c2 & Ed2 & _).
  { cbn [concat]. rewrite app_nil_r. unfold inner. rewrite hash_size, Ho. lia. }
  cbn [fold_left concat] in Ed2. rewrite app_nil_r in Ed2. rewrite Ed2. cbn [mbind option_bind].
  exists key2, len2. split; [|done]. unfold hmac_ref, inner. by rewrite Ei, Eo.
Qed.

Lemma fresh_key K : zlen K < limit -> key_state K (zlen K) K.
Proof. intros H. split; [lia|by rewrite Nat2Z.id, firstn_all|done]. Qed.

(** Hmac_init(), hmac_update() and hmac_final() compute the keyed hash of
    RFC 2104, for any digest algorithm, key and message, however the message
    is cut into pieces and whatever the contexts held before. *)
Theorem hmac_rfc2104 c key chunks : ok c -> zlen key < limit -> B + zlen (concat chunks) < limit ->
  snd <$> hmac_message d scratch c key (zlen key) chunks = Some (hmac_ref hash B key (concat chunks)).
Proof.
  intros Hc Hk Hl. destruct (hmac_message_run c key (zlen key) key chunks Hc (fresh_key key Hk) Hl) as (key' & len' & E & _).
  by rewrite E.
Qed.

(** The output of [hash_df] is filled block by block. *)
Lemma hash_df_run input output_len : 0 < digestsize d -> 5 + zlen input < limit -> 0 <= output_len * 8 < 2 ^ 32 ->
  forall fuel n counter remaining, 0 <= remaining <= Z.of_nat n * digestsize d -> remaining <= Z.of_nat fuel ->
    Z.of_nat counter + Z.of_nat n <= 256 ->
    hash_df_loop d scratch fuel (Z.of_nat counter) input output_len remaining =
      Some (take (Z.to_nat remaining) (concat ((fun i => hash (Z.of_nat i :: be_bytes 4 (output_len * 8) ++ input)) <$> seq counter n))).
Proof.
  intros Hd Hin Hout. induction fuel as [|fuel IH]; intros n counter remaining Hr Hf Hn; cbn [hash_df_loop];
    destruct (Z.eqb_spec remaining 0) as [-> |Hne]; [done|lia|done|].
  destruct n as [|n]; [lia|]. rewrite (wrap_small 32) by lia.
  destruct (digest_run scratch (Z.of_nat counter :: be_bytes 4 (output_len * 8)) [input] Hscratch) as (c' & E & _).
  { cbn [concat length]. rewrite app_nil_r, be_bytes_length. lia. }
  cbn [fold_left concat] in E. rewrite app_nil_r in E. rewrite E. cbn [mbind option_bind].
  set (h := hash _) in *. assert (zlen h = digestsize d) as Hh by apply hash_size.
  set (frag := if remaining <? digestsize d then remaining else digestsize d).
  assert (0 < frag <= digestsize d /\ frag <= remaining /\ (frag = remaining \/ frag = digestsize d)) as (H1 & H2 & H3)
    by (subst frag; destruct (Z.ltb_spec remaining (digestsize d)); lia).
  assert (hash_df_loop d scratch fuel (u8 (Z.of_nat counter + 1)) input output_len (remaining - frag) =
    Some (take (Z.to_nat (remaining - frag)) (concat ((fun i => hash (Z.of_nat i :: be_bytes 4 (output_len * 8) ++ input)) <$> seq (S counter) n)))) as ->.
  { clearbody frag. destruct (decide (remaining = frag)) as [-> |Hmore].
    - rewrite Z.sub_diag. by destruct fuel.
    - rewrite (wrap_small 8) by nia. replace (Z.of_nat counter + 1) with (Z.of_nat (S counter)) by lia. apply IH; nia. }
  cbn [mbind option_bind seq]. rewrite fmap_cons. cbn [concat]. f_equal.
  change (hash (Z.of_nat counter :: be_bytes 4 (output_len * 8) ++ input)) with h. clearbody frag h. destruct H3 as [-> | ->].
  - rewrite Z.sub_diag. cbn [Z.to_nat]. rewrite take_0, app_nil_r. by rewrite take_app_le by lia.
  - rewrite take_ge by lia. rewrite (take_app_ge h) by lia. f_equal. f_equal. lia.
Qed.

(** The function of SP 800-90, for as many blocks as the counter of eight
    bits can number. *)
Theorem hash_df_sp800 input output_len n : 0 < digestsize d -> 5 + zlen input < limit -> 0 <= output_len * 8 < 2 ^ 32 ->
  output_len <= Z.of_nat n * digestsize d -> Z.of_nat n <= 255 ->
  hash_df d scratch input output_len = Some (hash_df_ref hash input output_len n).
Proof.
  intros Hd Hin Hout Hn H255. apply (hash_df_run input output_len Hd Hin Hout (Z.to_nat output_len) n 1 output_len); lia.
Qed.
End HmacProofs.

(** ** Key derivation with SHA-1. *)
Section Sha1Proofs.
Context (scratch : md_context) (Hscratch : md_ctx_ok scratch).
Abbreviation sha1_hash := (md_hash Sha1.sha1).
Abbreviation sha1_hmac := (hmac_ref sha1_hash 64).
Abbreviation sha1_key := (key_state Sha1.sha1_algorithm MD_LIMIT sha1_hash).

Lemma sha1_message key len K m : sha1_key key len K -> 64 + zlen m < MD_LIMIT ->
  exists key' len', hmac_message Sha1.sha1_algorithm scratch scratch key len [m] = Some ((key', len'), sha1_hmac K m) /\ sha1_key key' len' K.
Proof.
  intros Hk Hm. pose proof (hmac_message_run Sha1.sha1_algorithm md_ctx_ok MD_LIMIT sha1_hash (HD := sha1_digests) scratch Hscratch
    ltac:(done) scratch key len K [m] Hscratch Hk) as H. cbn [concat] in H. rewrite app_nil_r in H. by apply H.
Qed.

Lemma sha1_hmac_length K m : length (sha1_hmac K m) = 20%nat.
Proof. apply Nat2Z.inj, (@hash_length _ _ _ _ sha1_digests). Qed.

Lemma pbkdf2_ref_length n K : forall next block, length block = 20%nat -> length (pbkdf2_ref sha1_hash 64 n K next block) = 20%nat.
Proof.
  induction n as [|n IH]; intros next block Hb; [done|]. cbn [pbkdf2_ref]. apply IH.
  rewrite length_zip_with, sha1_hmac_length, Hb. done.
Qed.

Lemma pbkdf2_rounds_run n : forall key len K next block, sha1_key key len K -> 64 + zlen next < MD_LIMIT ->
  pbkdf2_rounds scratch n key len next block = Some (pbkdf2_ref sha1_hash 64 n K next block).
Proof.
  induction n as [|n IH]; intros key len K next block Hk Hn; [done|]. cbn [pbkdf2_rounds pbkdf2_ref].
  destruct (sha1_message key len K next Hk Hn) as (key' & len' & E & Hk'). rewrite E. cbn [mbind option_bind].
  apply IH; [done|]. rewrite sha1_hmac_length. done.
Qed.

(** Output filled with blocks of twenty bytes, the last one cut. *)
Lemma take_blocks (b : list Z) rest (len : Z) : length b = 20%nat -> 0 <= len ->
  take (Z.to_nat len) (b ++ rest) = if len <=? 20 then take (Z.to_nat len) b else b ++ take (Z.to_nat (len - 20)) rest.
Proof.
  intros Hb Hlen. destruct (Z.leb_spec len 20).
  - by rewrite take_app_le by lia.
  - rewrite take_app_ge by lia. f_equal. f_equal. lia.
Qed.

Lemma prf_loop_run K prefix : 65 + zlen prefix < MD_LIMIT -> forall n fuel blk key len prf_len, sha1_key key len K ->
  0 <= prf_len <= Z.of_nat n * 20 -> (0 < n <= fuel)%nat -> Z.of_nat blk + Z.of_nat n <= 256 ->
  prf_loop scratch fuel (Z.of_nat blk) key len prefix prf_len =
    Some (take (Z.to_nat prf_len) (concat ((fun i => sha1_hmac K (prefix ++ [Z.of_nat i])) <$> seq blk n))).
Proof.
  intros Hp. induction n as [|n IH]; intros fuel blk key len prf_len Hk Hl Hf Hb; [lia|].
  destruct fuel as [|fuel]; [lia|]. cbn [prf_loop]. rewrite (wrap_small 8) by lia.
  destruct (sha1_message key len K (prefix ++ [Z.of_nat blk]) Hk) as (key' & len' & E & Hk').
  { rewrite length_app. cbn [length]. lia. }
  rewrite E. cbn [mbind option_bind seq]. rewrite fmap_cons. cbn [concat].
  rewrite take_blocks by (apply sha1_hmac_length || lia). unfold SHA1_DIGEST_SIZE. destruct (Z.leb_spec prf_len 20); [done|].
  rewrite (wrap_small 32) by lia. replace (Z.of_nat blk + 1) with (Z.of_nat (S blk)) by lia. rewrite IH; [done|done|lia..].
Qed.

Lemma pbkdf2_loop_run passphrase salt iterations : zlen passphrase < MD_LIMIT -> 68 + zlen salt < MD_LIMIT ->
  forall n blk key_len, Z.of_nat blk + Z.of_nat n <= 2 ^ 31 -> 0 <= key_len <= Z.of_nat n * 20 ->
  pbkdf2_loop scratch n passphrase salt iterations (Z.of_nat blk) key_len =
    Some (take (Z.to_nat key_len) (concat ((fun i =>
      pbkdf2_ref sha1_hash 64 (Z.to_nat iterations) passphrase (salt ++ be_bytes 4 (Z.of_nat i)) (replicate 20 0)) <$> seq blk n))).
Proof.
  intros Hp Hs. induction n as [|n IH]; intros blk key_len Hb Hl.
  { replace key_len with 0 by lia. done. }
  cbn [pbkdf2_loop]. unfold pbkdf2_sha1_f. rewrite (pbkdf2_rounds_run _ _ _ passphrase).
  2: { by apply fresh_key. }
  2: { rewrite length_app, be_bytes_length. lia. }
  cbn [mbind option_bind seq]. rewrite fmap_cons. cbn [concat].
  rewrite take_blocks by first [by apply pbkdf2_ref_length|lia]. unfold SHA1_DIGEST_SIZE. destruct (Z.leb_spec key_len 20); [done|].
  rewrite (wrap_small 32) by lia. replace (Z.of_nat blk + 1) with (Z.of_nat (S blk)) by lia. rewrite IH; [done|lia..].
Qed.

(** The pseudorandom function of 802.11: blocks numbered by one byte. *)
Theorem prf_sha1_80211 key label data prf_len n : zlen key < MD_LIMIT -> 66 + zlen label + zlen data < MD_LIMIT ->
  0 <= prf_len <= Z.of_nat n * 20 -> (0 < n <= 256)%nat -> Z.of_nat n <= 1 + prf_len ->
  prf_sha1 scratch key label data prf_len = Some (prf_ref sha1_hash 64 key (label ++ [0] ++ data) prf_len n).
Proof.
  intros Hk Hd Hl Hn Hs. unfold prf_sha1, prf_ref. apply (prf_loop_run key (label ++ [0] ++ data)) with (blk := 0%nat); [|by apply fresh_key|lia..].
  rewrite !length_app. cbn [length]. lia.
Qed.

(** The key derivation of RFC 2898. *)
Theorem pbkdf2_rfc2898 passphrase salt iterations key_len : zlen passphrase < MD_LIMIT -> 68 + zlen salt < MD_LIMIT ->
  0 <= key_len < 2 ^ 32 - 20 ->
  pbkdf2_sha1 scratch passphrase salt iterations key_len =
    Some (take (Z.to_nat key_len) (concat ((fun i =>
      pbkdf2_ref sha1_hash 64 (Z.to_nat iterations) passphrase (salt ++ be_bytes 4 (Z.of_nat i)) (replicate 20 0))
        <$> seq 1 (Z.to_nat ((key_len + 19) / 20))))).
Proof.
  intros Hp Hs Hl. unfold pbkdf2_sha1, SHA1_DIGEST_SIZE. rewrite (wrap_small 32) by lia.
  replace (key_len + 20 - 1) with (key_len + 19) by lia.
  apply (pbkdf2_loop_run passphrase salt iterations Hp Hs) with (blk := 1%nat); zdm.
Qed.
End Sha1Proofs.

(** The first vector of RFC 2202 and the first one of RFC 6070. *)
Example hmac_sha1_hi : hmac_ref (md_hash Sha1.sha1) 64 (replicate 20 11) [72; 105; 32; 84; 104; 101; 114; 101] =
  be_bytes 20 0xb617318655057264e28bc0b6fb378c8ef146be00.
Proof. vm_compute. reflexivity. Qed.
Example pbkdf2_one : pbkdf2_sha1 stale_context [112; 97; 115; 115; 119; 111; 114; 100] [115; 97; 108; 116] 1 20 =
  Some (be_bytes 20 0x0c60c80f961f0e71f3a9b524af6012062fe037a6).
Proof. vm_compute. reflexivity. Qed.

(** HMAC-SHA1 of a message in pieces, with a key longer than a block. *)
Lemma hmac_rfc2104_witness :
  snd <$> hmac_message Sha1.sha1_algorithm stale_context stale_context (replicate 80 170) 80 [[72; 105]; []; [32; 84; 104; 101; 114; 101]] =
    Some (hmac_ref (md_hash Sha1.sha1) 64 (replicate 80 170) (concat [[72; 105]; []; [32; 84; 104; 101; 114; 101]])).
Proof.
  apply (@hmac_rfc2104 Sha1.sha1_algorithm md_ctx_ok MD_LIMIT (md_hash Sha1.sha1) sha1_digests); by vm_compute.
Defined.

