(* ===== verification/Entropy.v ===== *)
(** * The entropy source: src/src/crypto/entropy.c, get_entropy_input() of
    src/src/include/ipxe/entropy.h and the null source of
    src/src/include/ipxe/null_entropy.h.

    The static variables of the functions are the fields of one state.  The
    device is an [entropy_source]; its entropy per sample, a constant of type
    double that the compiler evaluates, is an exact fraction.  A failed
    linker_assert() stops the build, so these conditions are hypotheses. *)
From S2P Require Import Prelude Digest Sha Hmac.

Record entropy_source := EntropySource {
  es_state : Type;
  entropy_enable : es_state -> es_state * rc;
  entropy_disable : es_state -> es_state;
  get_noise : es_state -> es_state * (errno + Z);
  (** [min_entropy_per_sample], numerator and denominator *)
  min_entropy : Z * Z }.

Section Entropy.
Variable src : entropy_source.
Variable scratch : md_context.

Record entropy_state := EntropyState {
  es_device : es_state src;
  (** repetition_count_test() *)
  most_recent_sample : Z;
  repetition_count : Z;
  (** adaptive_proportion_test() *)
  current_counted_sample : Z;
  sample_count : Z;
  ap_repetition_count : Z;
  (** get_entropy(), make_next_nonce() and get_entropy_input_tmp() *)
  entropy_rc : rc;
  nonce : Z;
  startup_tested : Z }.
Implicit Types (st : entropy_state).

Definition set_device st dev := EntropyState dev (most_recent_sample st) (repetition_count st) (current_counted_sample st)
  (sample_count st) (ap_repetition_count st) (entropy_rc st) (nonce st) (startup_tested st).
Definition set_repetition st sample count := EntropyState (es_device st) sample count (current_counted_sample st)
  (sample_count st) (ap_repetition_count st) (entropy_rc st) (nonce st) (startup_tested st).
Definition set_proportion st sample count reps := EntropyState (es_device st) (most_recent_sample st) (repetition_count st)
  sample count reps (entropy_rc st) (nonce st) (startup_tested st).
Definition set_rc st r := EntropyState (es_device st) (most_recent_sample st) (repetition_count st) (current_counted_sample st)
  (sample_count st) (ap_repetition_count st) r (nonce st) (startup_tested st).
Definition set_nonce st n := EntropyState (es_device st) (most_recent_sample st) (repetition_count st) (current_counted_sample st)
  (sample_count st) (ap_repetition_count st) (entropy_rc st) n (startup_tested st).
Definition set_startup st n := EntropyState (es_device st) (most_recent_sample st) (repetition_count st) (current_counted_sample st)
  (sample_count st) (ap_repetition_count st) (entropy_rc st) (nonce st) n.

(** A quotient rounded up by hand, as the code does it. *)
Definition round_up (num den : Z) : Z :=
  let whole := num / den in
  if whole * den <? num then whole + 1 else whole.

Definition repetition_count_cutoff : Z :=
  let '(num, den) := min_entropy src in round_up (num + 30 * den) num.

Definition repetition_count_test st (sample : Z) : entropy_state * rc :=
  if (sample =? most_recent_sample st) && (0 <? repetition_count st) then
    let st := set_repetition st (most_recent_sample st) (u32 (repetition_count st + 1)) in
    if repetition_count_cutoff <=? repetition_count st then (st, RC_ERR EPIPE_REPETITION_COUNT_TEST) else (st, RC_OK)
  else (set_repetition st sample 1, RC_OK).

Definition ADAPTIVE_PROPORTION_WINDOW_SIZE : Z := 64.
Definition APC_NA : Z := 0.
Definition APC_N_H (n h : Z) : Z := Z.lor (u32 (Z.shiftl n 8)) h.
Definition APC_TABLE_ROW (h c16 c64 c256 c4096 c65536 : Z) : list (Z * Z) :=
  [(APC_N_H 16 h, c16); (APC_N_H 64 h, c64); (APC_N_H 256 h, c256); (APC_N_H 4096 h, c4096); (APC_N_H 65536 h, c65536)].
Definition apc_table : list (Z * Z) :=
  APC_TABLE_ROW  1 APC_NA 51 168 2240 33537 ++
  APC_TABLE_ROW  2 APC_NA 35 100 1193 17053 ++
  APC_TABLE_ROW  3     10 24  61  643  8705 ++
  APC_TABLE_ROW  4      8 16  38  354  4473 ++
  APC_TABLE_ROW  5      6 12  25  200  2321 ++
  APC_TABLE_ROW  6      5  9  17  117  1220 ++
  APC_TABLE_ROW  7      4  7  15   71   653 ++
  APC_TABLE_ROW  8      4  5   9   45   358 ++
  APC_TABLE_ROW  9      3  4   7   30   202 ++
  APC_TABLE_ROW 10      3  4   5   21   118 ++
  APC_TABLE_ROW 11      2  3   4   15    71 ++
  APC_TABLE_ROW 12      2  3   4   11    45 ++
  APC_TABLE_ROW 13      2  2   3    9    30 ++
  APC_TABLE_ROW 14      2  2   3    7    21 ++
  APC_TABLE_ROW 15      1  2   2    6    15 ++
  APC_TABLE_ROW 16      1  2   2    5    11 ++
  APC_TABLE_ROW 17      1  1   2    4     9 ++
  APC_TABLE_ROW 18      1  1   2    4     7 ++
  APC_TABLE_ROW 19      1  1   1    3     6 ++
  APC_TABLE_ROW 20      1  1   1    3     5.
Definition adaptive_proportion_cutoff_lookup (n h : Z) : Z :=
  match list_find (fun row => row.1 = APC_N_H n h) apc_table with
  | Some (_, (_, cutoff)) => cutoff
  | None => APC_NA
  end.

Definition adaptive_proportion_cutoff : Z :=
  let '(num, den) := min_entropy src in adaptive_proportion_cutoff_lookup ADAPTIVE_PROPORTION_WINDOW_SIZE (num / den).

Definition adaptive_proportion_test st (sample : Z) : entropy_state * rc :=
  if sample_count st =? ADAPTIVE_PROPORTION_WINDOW_SIZE then (set_proportion st sample 0 0, RC_OK)
  else
    let st := set_proportion st (current_counted_sample st) (u32 (sample_count st + 1)) (ap_repetition_count st) in
    if sample =? current_counted_sample st then
      let st := set_proportion st (current_counted_sample st) (sample_count st) (u32 (ap_repetition_count st + 1)) in
      if adaptive_proportion_cutoff <? ap_repetition_count st then (st, RC_ERR EPIPE_ADAPTIVE_PROPORTION_TEST) else (st, RC_OK)
    else (st, RC_OK).

Definition get_entropy st : entropy_state * (errno + Z) :=
  match entropy_rc st with
  | RC_ERR e => (st, inl e)
  | RC_OK =>
      let '(dev, r) := get_noise src (es_device st) in
      let st := set_device st dev in
      match r with
      | inl e => (set_rc st (RC_ERR e), inl e)
      | inr noise =>
          let '(st, r) := repetition_count_test st noise in
          match r with
          | RC_ERR e => (set_rc st r, inl e)
          | RC_OK =>
              let '(st, r) := adaptive_proportion_test st noise in
              match r with
              | RC_ERR e => (set_rc st r, inl e)
              | RC_OK => (st, inr noise)
              end
          end
      end
  end.

Definition startup_test_count : Z :=
  if repetition_count_cutoff <? adaptive_proportion_cutoff then adaptive_proportion_cutoff else repetition_count_cutoff.

Definition make_next_nonce st : entropy_state * Z :=
  let n := u32 (nonce st + 1) in (set_nonce st n, n).

(** The rounds of the startup loop, [n] of them. *)
Fixpoint startup_tests (n : nat) st : entropy_state * rc :=
  match n with
  | O => (st, RC_OK)
  | S n =>
      let '(st, r) := get_entropy st in
      match r with
      | inl e => (st, RC_ERR e)
      | inr _ => startup_tests n (set_startup st (u32 (startup_tested st + 1)))
      end
  end.

(** The samples, each one condensed and combined with the buffer. *)
Fixpoint condense (num_samples : nat) st (tmp : list Z) : option (entropy_state * (errno + list Z)) :=
  match num_samples with
  | O => Some (st, inr tmp)
  | S num_samples =>
      let '(st, r) := get_entropy st in
      match r with
      | inl e => Some (st, inl e)
      | inr sample =>
          let '(st, n) := make_next_nonce st in
          df_buf ← hash_df Sha256.sha256_algorithm scratch (store_word false 4 n ++ [sample]) (zlen tmp);
          condense num_samples st (zip_with Z.lxor tmp df_buf)
      end
  end.

Definition get_entropy_input_tmp (num_samples : Z) (tmp_len : Z) st : option (entropy_state * (errno + list Z)) :=
  let '(dev, r) := entropy_enable src (es_device st) in
  let st := set_device st dev in
  let disable st := set_device st (entropy_disable src (es_device st)) in
  match r with
  | RC_ERR e => Some (st, inl e)
  | RC_OK =>
      let '(st, r) := startup_tests (Z.to_nat (startup_test_count - startup_tested st)) st in
      match r with
      | RC_ERR e => Some (disable st, inl e)
      | RC_OK =>
          '(st, r) ← condense (Z.to_nat num_samples) st (replicate (Z.to_nat tmp_len) 0);
          Some (disable st, r)
      end
  end.

(** The length of the temporary buffer and the number of samples. *)
Definition entropy_tmp_len (min_entropy_bits : Z) : Z := u32 (u32 (min_entropy_bits * 2) + 7) / 8.
Definition entropy_num_samples (min_entropy_bits : Z) : Z :=
  let bits := Z.land (u32 (min_entropy_bits + 7)) (2 ^ 32 - 8) in
  let '(num, den) := min_entropy src in round_up (bits * den) num.

Definition get_entropy_input (min_entropy_bits min_len max_len : Z) st : option (entropy_state * (errno + list Z)) :=
  let tmp_len := entropy_tmp_len min_entropy_bits in
  '(st, r) ← get_entropy_input_tmp (entropy_num_samples min_entropy_bits) tmp_len st;
  match r with
  | inl e => Some (st, inl e)
  | inr tmp =>
      if tmp_len <? min_len then Some (st, inr (tmp ++ replicate (Z.to_nat (min_len - tmp_len)) 0))
      else if max_len <? tmp_len then
        data ← hash_df Sha256.sha256_algorithm scratch tmp max_len;
        Some (st, inr data)
      else Some (st, inr tmp)
  end.
End Entropy.
Arguments es_device {src}.
Arguments most_recent_sample {src}.
Arguments repetition_count {src}.
Arguments current_counted_sample {src}.
Arguments sample_count {src}.
Arguments ap_repetition_count {src}.
Arguments entropy_rc {src}.
Arguments nonce {src}.
Arguments startup_tested {src}.
Arguments set_device {src}.
Arguments set_repetition {src}.
Arguments set_proportion {src}.
Arguments set_rc {src}.
Arguments set_nonce {src}.
Arguments set_startup {src}.
Arguments repetition_count_test {src}.
Arguments adaptive_proportion_test {src}.
Arguments get_entropy {src}.
Arguments make_next_nonce {src}.
Arguments startup_tests {src}.
Arguments condense {src}.
Arguments get_entropy_input_tmp {src}.
Arguments get_entropy_input {src}.

(** The static variables of the image as it is loaded. *)
Definition entropy_boot (src : entropy_source) (dev : es_state src) : entropy_state src :=
  EntropyState src dev 0 0 0 ADAPTIVE_PROPORTION_WINDOW_SIZE 0 RC_OK 0 0.

(** ** The null source: every sample is the same. *)
Definition null_entropy : entropy_source :=
  EntropySource unit (fun s => (s, RC_OK)) (fun s => s) (fun s => (s, inr 1)) (1, 1).

(** ** What the continuous tests accept. *)

(** No value occurs [c] times in a row. *)
Definition no_repeats (c : nat) (l : list Z) : Prop := forall a b x, l <> a ++ replicate c x ++ b.
(** In every window of 65 samples the first value occurs at most [c] times more. *)
Definition windows_ok (c : Z) (l : list Z) : Prop :=
  forall a x w, zlen a mod 65 = 0 -> zlen w <= 64 -> a ++ x :: w `prefix_of` l -> Z.of_nat (count_occ Z.eq_dec w x) <= c.

(** The length of the run of [x] that ends a list. *)
Fixpoint run_of (x : Z) (l : list Z) : nat :=
  match l with
  | [] => 0
  | y :: l => if decide (y = x) then S (run_of x l) else 0
  end.

Lemma run_of_prefix c x l : (c <= run_of x l)%nat <-> exists b, l = replicate c x ++ b.
Proof.
  revert l. induction c as [|c IH]; intros l; cbn [replicate app]; [split; [eauto|lia]|].
  destruct l as [|y l]; cbn [run_of]; [split; [lia|intros [? [=]]]|]. destruct (decide (y = x)) as [-> |Hne].
  - rewrite <- Nat.succ_le_mono, IH. split; intros [b E]; exists b; congruence.
  - split; [lia|intros [b [=]]; congruence].
Qed.

Lemma no_repeats_snoc c l x : (0 < c)%nat -> no_repeats c (l ++ [x]) <-> no_repeats c l /\ (S (run_of x (reverse l)) < c)%nat.
Proof.
  intros Hc. split.
  - intros H. split.
    + intros a b y ->. apply (H a (b ++ [x]) y). by rewrite <- !app_assoc.
    + destruct (decide (c <= S (run_of x (reverse l)))%nat) as [Hle|]; [|lia]. exfalso.
      assert (c <= run_of x (reverse (l ++ [x])))%nat as Hr.
      { rewrite reverse_app. cbn. by rewrite decide_True. }
      apply run_of_prefix in Hr as [b Eb]. apply (f_equal reverse) in Eb.
      rewrite reverse_involutive, reverse_app, reverse_replicate in Eb. apply (H (reverse b) [] x). by rewrite app_nil_r.
  - intros [H Hr] a b y E. destruct (decide (b = [])) as [-> |Hb].
    + rewrite app_nil_r in E. apply (f_equal reverse) in E. rewrite !reverse_app, reverse_replicate in E. cbn in E.
      destruct c as [|c]; [lia|]. cbn [replicate app] in E. injection E as -> E.
      assert (c <= run_of y (reverse l))%nat by (apply run_of_prefix; eauto). lia.
    + destruct (exists_last Hb) as (b' & z & ->). rewrite !app_assoc in E. apply app_inj_tail in E as [E _].
      apply (H a b' y). by rewrite E, <- app_assoc.
Qed.

Lemma prefix_of_snoc (l k : list Z) x : k `prefix_of` l ++ [x] -> k = l ++ [x] \/ k `prefix_of` l.
Proof.
  intros [s E]. destruct (decide (s = [])) as [-> |Hs]; [left; by rewrite app_nil_r in E|].
  destruct (exists_last Hs) as (s' & y & ->). rewrite app_assoc in E. apply app_inj_tail in E as [E _]. right. by exists s'.
Qed.

Lemma windows_more c a x w y : zlen a mod 65 = 0 -> zlen w < 64 ->
  windows_ok c ((a ++ x :: w) ++ [y]) <-> windows_ok c (a ++ x :: w) /\ Z.of_nat (count_occ Z.eq_dec (w ++ [y]) x) <= c.
Proof.
  intros Ha Hw. split.
  - intros H. split; [intros b z v Hb Hv Hp; apply (H b z v Hb Hv); by apply prefix_app_r|].
    apply (H a x (w ++ [y]) Ha); [rewrite length_app; cbn [length]; lia|]. by rewrite <- app_assoc.
  - intros [H Hc] b z v Hb Hv Hp. destruct (prefix_of_snoc _ _ _ Hp) as [E|Hp']; [|by apply (H b z v)].
    rewrite <- app_assoc in E. cbn [app] in E. pose proof (f_equal length E) as El. rewrite !length_app in El. cbn [length] in El.
    rewrite length_app in El. cbn [length] in El. apply app_inj_1 in E as [-> E]; [|zdm]. injection E as -> ->. done.
Qed.

Lemma windows_next c a x w y : 0 <= c -> zlen a mod 65 = 0 -> zlen w = 64 ->
  windows_ok c ((a ++ x :: w) ++ [y]) <-> windows_ok c (a ++ x :: w).
Proof.
  intros Hc Ha Hw. split.
  - intros H b z v Hb Hv Hp. apply (H b z v Hb Hv). by apply prefix_app_r.
  - intros H b z v Hb Hv Hp. destruct (prefix_of_snoc _ _ _ Hp) as [E|Hp']; [|by apply (H b z v)].
    pose proof (f_equal length E) as El. rewrite !length_app in El. cbn [length] in El.
    destruct v as [|? v]; [done|]. cbn [length] in *. exfalso. zdm.
Qed.

Lemma windows_nil c : windows_ok c [].
Proof. intros a x w _ _ H. apply prefix_nil_inv in H. by destruct a. Qed.
Lemma windows_one c x : 0 <= c -> windows_ok c [x].
Proof.
  intros Hc a y w _ _ [s E]. destruct a as [|? a]; [|by destruct a]. injection E as -> E. by destruct w.
Qed.

Section EntropyProofs.
Context (src : entropy_source) (scratch : md_context) (Hscratch : md_ctx_ok scratch).

(** What the build checks of the source, by linker_assert(). *)
Record source_ok : Prop := {
  so_positive : 0 < (min_entropy src).1 /\ 0 < (min_entropy src).2;
  so_possible : (min_entropy src).1 <= 8 * (min_entropy src).2;
  so_cutoff : adaptive_proportion_cutoff src <> APC_NA }.
Context (Hsrc : source_ok).

Implicit Types (st : entropy_state src).

Lemma round_up_spec num den : 0 < den -> (round_up num den - 1) * den < num <= round_up num den * den.
Proof. intros Hd. unfold round_up. destruct (Z.ltb_spec (num / den * den) num); zdm. Qed.

Lemma cutoffs : 5 <= repetition_count_cutoff src <= 31 /\ 5 <= adaptive_proportion_cutoff src <= 51.
Proof.
  destruct Hsrc as [[Hn Hd] Hp Hc]. unfold repetition_count_cutoff, adaptive_proportion_cutoff in *.
  destruct (min_entropy src) as [num den]; cbn [fst snd] in *.
  assert (0 <= num / den <= 8) as Hh by (split; [apply Z.div_pos; lia|apply Z.div_le_upper_bound; lia]).
  destruct (decide (num / den = 0)) as [E0|Hne]; [rewrite E0 in Hc; by vm_compute in Hc|].
  split; [|assert (num / den ∈ [1; 2; 3; 4; 5; 6; 7; 8]) as Hin by (rewrite !elem_of_cons; lia);
    clear -Hin; repeat (apply elem_of_cons in Hin as [-> |Hin]; [by vm_compute|]); by apply elem_of_nil in Hin].
  assert (den <= num) as Hone by (destruct (Z.lt_ge_cases num den); [rewrite Z.div_small in Hne by lia; lia|lia]). pose proof (round_up_spec (num + 30 * den) num Hn) as Hr.
  set (r := round_up _ _) in *. nia.
Qed.

Definition healthy (l : list Z) : Prop :=
  no_repeats (Z.to_nat (repetition_count_cutoff src)) l /\ windows_ok (adaptive_proportion_cutoff src) l.

(** The static variables after the samples [l]. *)
Definition repetition_state st (l : list Z) : Prop :=
  match reverse l with
  | [] => repetition_count st = 0
  | x :: r => most_recent_sample st = x /\ repetition_count st = Z.of_nat (S (run_of x r))
  end.
Definition proportion_state st (l : list Z) : Prop :=
  (l = [] /\ sample_count st = 64) \/
  exists a w, l = a ++ current_counted_sample st :: w /\ zlen a mod 65 = 0 /\ zlen w = sample_count st /\ sample_count st <= 64 /\
    ap_repetition_count st = Z.of_nat (count_occ Z.eq_dec w (current_counted_sample st)).
Record tested st (l : list Z) : Prop := {
  te_rc : entropy_rc st = RC_OK;
  te_rep : repetition_state st l;
  te_prop : proportion_state st l;
  te_healthy : healthy l }.

Lemma repetition_test_run st l x st' r : tested st l -> repetition_count_test st x = (st', r) ->
  (r = RC_OK /\ no_repeats (Z.to_nat (repetition_count_cutoff src)) (l ++ [x]) /\ repetition_state st' (l ++ [x]) \/
   r = RC_ERR EPIPE_REPETITION_COUNT_TEST /\ ~ no_repeats (Z.to_nat (repetition_count_cutoff src)) (l ++ [x])) /\
  st' = set_repetition st (most_recent_sample st') (repetition_count st').
Proof.
  intros [_ Hr _ [Hno _]]. destruct cutoffs as [Hc _]. unfold repetition_count_test, repetition_state in *.
  rewrite no_repeats_snoc by lia. rewrite reverse_app. cbn [reverse rev_append app]. destruct (reverse l) as [|y t] eqn:Er.
  - rewrite Hr. cbn. rewrite andb_false_r. intros [= <- <-]. split; [left|done]. split; [done|]. split; [split; [done|lia]|done].
  - destruct Hr as [Hy Hk].
    assert (S (run_of y t) < Z.to_nat (repetition_count_cutoff src))%nat as Hlt.
    { destruct l as [|z l' _] using rev_ind; [done|]. rewrite reverse_app in Er. injection Er as -> Er.
      apply no_repeats_snoc in Hno as [_ Hno]; [|lia]. by rewrite Er in Hno. }
    rewrite Hk, Hy. cbn [run_of]. destruct (Z.eqb_spec x y) as [-> |Hne]; cbn [andb].
    + rewrite (proj2 (Z.ltb_lt 0 _)) by lia. cbn [repetition_count set_repetition]. rewrite (wrap_small 32) by lia.
      rewrite decide_True by done. destruct (Z.leb_spec (repetition_count_cutoff src) (Z.of_nat (S (run_of y t)) + 1)).
      * intros [= <- <-]. split; [right|done]. split; [done|]. intros [_ ?]. lia.
      * intros [= <- <-]. split; [left|done]. split; [done|]. split; [split; [done|lia]|]. cbn. split; [done|lia].
    + rewrite decide_False by done. intros [= <- <-]. split; [left|done]. split; [done|]. split; [split; [done|lia]|done].
Qed.

Lemma proportion_test_run st l x st' r : proportion_state st l -> windows_ok (adaptive_proportion_cutoff src) l ->
  adaptive_proportion_test st x = (st', r) ->
  (r = RC_OK /\ windows_ok (adaptive_proportion_cutoff src) (l ++ [x]) /\ proportion_state st' (l ++ [x]) \/
   r = RC_ERR EPIPE_ADAPTIVE_PROPORTION_TEST /\ ~ windows_ok (adaptive_proportion_cutoff src) (l ++ [x])) /\
  st' = set_proportion st (current_counted_sample st') (sample_count st') (ap_repetition_count st').
Proof.
  intros Hp Hw. destruct cutoffs as [_ Hc]. unfold adaptive_proportion_test, ADAPTIVE_PROPORTION_WINDOW_SIZE.
  destruct Hp as [[-> E]|(a & w & -> & Ha & Hlen & Hmax & Hn)].
  { rewrite E. cbn. intros [= <- <-]. split; [left|done]. split; [done|]. split; [apply windows_one; lia|]. right. by exists [], []. }
  destruct (Z.eqb_spec (sample_count st) 64) as [E|Hne].
  { intros [= <- <-]. split; [left|done]. split; [done|]. rewrite windows_next by lia. split; [done|].
    right. exists (a ++ current_counted_sample st :: w), []. cbn. repeat split; [|lia]. rewrite length_app. cbn [length]. zdm. }
  rewrite windows_more by lia. rewrite count_occ_app. cbn [count_occ]. rewrite (wrap_small 32 (sample_count st + 1)) by lia.
  pose proof (count_occ_bound Z.eq_dec (current_counted_sample st) w) as Hb.
  assert (forall n, n = Z.of_nat (count_occ Z.eq_dec (w ++ [x]) (current_counted_sample st)) ->
    proportion_state (set_proportion st (current_counted_sample st) (sample_count st + 1) n) ((a ++ current_counted_sample st :: w) ++ [x])) as Hstate.
  { intros n ->. right. exists a, (w ++ [x]). cbn. rewrite <- app_assoc, length_app. cbn [length app]. repeat split; lia. }
  rewrite count_occ_app in Hstate. cbn [count_occ] in Hstate.
  cbn [current_counted_sample sample_count ap_repetition_count set_proportion].
  destruct (Z.eqb_spec x (current_counted_sample st)) as [Ex|Hx].
  - destruct (Z.eq_dec x (current_counted_sample st)); [|done]. rewrite Hn, (wrap_small 32) by lia.
    destruct (Z.ltb_spec (adaptive_proportion_cutoff src) (Z.of_nat (count_occ Z.eq_dec w (current_counted_sample st)) + 1)).
    + intros [= <- <-]. split; [right|done]. split; [done|]. intros [_ ?]. lia.
    + intros [= <- <-]. split; [left|done]. split; [done|]. split; [split; [done|lia]|]. apply Hstate. lia.
  - destruct (Z.eq_dec x (current_counted_sample st)); [done|]. intros [= <- <-]. split; [left|done]. split; [done|].
    split; [|apply Hstate; lia]. split; [done|].
    rewrite Nat.add_0_r. apply (Hw a (current_counted_sample st) w Ha ltac:(lia)). done.
Qed.

Lemma get_entropy_run st l dev x : tested st l -> get_noise src (es_device st) = (dev, inr x) ->
  (healthy (l ++ [x]) /\ exists st', get_entropy st = (st', inr x) /\ tested st' (l ++ [x]) /\ es_device st' = dev /\
     nonce st' = nonce st /\ startup_tested st' = startup_tested st) \/
  (~ healthy (l ++ [x]) /\ exists st' e, get_entropy st = (st', inl e) /\ entropy_rc st' = RC_ERR e /\ es_device st' = dev /\
     startup_tested st' = startup_tested st).
Proof.
  intros Ht Hx. pose proof Ht as [Hrc _ Hp [_ Hw]]. unfold get_entropy. rewrite Hrc, Hx.
  destruct (repetition_count_test (set_device st dev) x) as [st1 r1] eqn:E1.
  destruct (repetition_test_run (set_device st dev) l x st1 r1 ltac:(by destruct Ht) E1) as [[(-> & Hno & Hr)|(-> & Hbad)] ->].
  2: { right. split; [by intros [? _]|]. by eexists _, _. }
  set (st1' := set_repetition _ _ _) in *.
  destruct (adaptive_proportion_test st1' x) as [st2 r2] eqn:E2.
  destruct (proportion_test_run st1' l x st2 r2 Hp Hw E2) as [[(-> & Hok & Hpr)|(-> & Hbad)] Est].
  2: { right. split; [by intros [_ ?]|]. eexists _, _. split; [done|]. split; [done|]. by rewrite Est. }
  left. split; [done|]. exists st2. split; [done|]. rewrite Est in *. done.
Qed.

(** The results of [n] calls. *)
Fixpoint draws (n : nat) st : list (errno + Z) :=
  match n with
  | O => []
  | S n => let '(st, r) := get_entropy st in r :: draws n st
  end.

(** The device delivers the samples [l]. *)
Fixpoint noise (dev : es_state src) (l : list Z) : Prop :=
  match l with
  | [] => True
  | x :: l => exists dev', get_noise src dev = (dev', inr x) /\ noise dev' l
  end.

Lemma draws_failed n e : forall st, entropy_rc st = RC_ERR e -> draws n st = replicate n (inl e).
Proof. induction n as [|n IH]; intros st H; [done|]. cbn [draws]. unfold get_entropy. rewrite H. cbn. by rewrite IH. Qed.

Lemma healthy_prefix l k : healthy (l ++ k) -> healthy l.
Proof.
  intros [Hn Hw]. split.
  - intros a b x ->. apply (Hn a (b ++ k) x). by rewrite <- !app_assoc.
  - intros a x w Ha Hl Hp. apply (Hw a x w Ha Hl). by apply prefix_app_r.
Qed.

Lemma draws_run k : forall st l, tested st l -> noise (es_device st) k ->
  (healthy (l ++ k) -> draws (length k) st = inr <$> k) /\
  (forall p x s, k = p ++ x :: s -> healthy (l ++ p) -> ~ healthy (l ++ p ++ [x]) ->
     exists e, draws (length k) st = (inr <$> p) ++ replicate (S (length s)) (inl e)).
Proof.
  induction k as [|y k IH]; intros st l Ht Hk; [split; [done|by intros [|? ?] ? ?]|].
  destruct Hk as (dev & Ey & Hk). cbn [length draws].
  destruct (get_entropy_run st l dev y Ht Ey) as [(Hy & st' & E & Ht' & Hd & _)|(Hy & st' & e & E & Hrc & _)]; rewrite E.
  - destruct (IH st' (l ++ [y]) Ht' ltac:(by rewrite Hd)) as [IH1 IH2]. split.
    + intros H. rewrite IH1; [done|]. by rewrite <- app_assoc.
    + intros p x s Ep Hp Hbad. destruct p as [|z p]; [by injection Ep as -> ->|]. injection Ep as -> ->.
      destruct (IH2 p x s eq_refl) as [e Ee]; [by rewrite <- app_assoc|by rewrite <- app_assoc|].
      exists e. by rewrite Ee.
  - split.
    + intros H. destruct Hy. apply (healthy_prefix _ k). by rewrite <- app_assoc.
    + intros p x s Ep Hp Hbad. rewrite (draws_failed _ e) by done. destruct p as [|z p].
      * injection Ep as -> ->. by exists e.
      * injection Ep as -> ->. destruct Hy. apply (healthy_prefix _ p). by rewrite <- app_assoc.
Qed.

(** ** The condensed input. *)
Abbreviation sha256_hash := (md_hash Sha256.sha256).
Definition df (input : list Z) (len : Z) : list Z := hash_df_ref sha256_hash input len (Z.to_nat ((len + 31) / 32)).

Lemma hash_df_df input len : zlen input <= 1000 -> 0 <= len <= 8160 ->
  hash_df Sha256.sha256_algorithm scratch input len = Some (df input len) /\ zlen (df input len) = len.
Proof.
  intros Hi Hl. split.
  - unfold df. apply (@hash_df_sp800 Sha256.sha256_algorithm md_ctx_ok MD_LIMIT sha256_hash sha256_digests scratch Hscratch);
      change (digestsize Sha256.sha256_algorithm) with 32; change (blocksize Sha256.sha256_algorithm) with 64; unfold MD_LIMIT; zdm.
  - unfold df, hash_df_ref. rewrite length_take.
    assert (forall n c, length (concat ((fun i => sha256_hash (Z.of_nat i :: be_bytes 4 (len * 8) ++ input)) <$> seq c n)) = (32 * n)%nat) as Hc.
    { induction n as [|n IH]; intros c; [done|]. cbn [seq]. rewrite fmap_cons. cbn [concat]. rewrite length_app, IH.
      assert (length (sha256_hash (Z.of_nat c :: be_bytes 4 (len * 8) ++ input)) = 32%nat) as ->; [|lia].
      apply Nat2Z.inj, (@hash_length _ _ _ _ sha256_digests). }
    rewrite Hc. zdm.
Qed.

(** The samples [xs], numbered from the nonce [n] on. *)
Fixpoint mix (n : Z) (xs tmp : list Z) : list Z :=
  match xs with
  | [] => tmp
  | x :: xs => mix (u32 (n + 1)) xs (zip_with Z.lxor tmp (df (store_word false 4 (u32 (n + 1)) ++ [x]) (zlen tmp)))
  end.

Lemma mix_length xs : forall n tmp, zlen tmp <= 8160 -> zlen (mix n xs tmp) = zlen tmp.
Proof.
  induction xs as [|x xs IH]; intros n tmp Ht; [done|]. cbn [mix].
  destruct (hash_df_df (store_word false 4 (u32 (n + 1)) ++ [x]) (zlen tmp)) as [_ Hl]; [rewrite length_app, store_word_length; done|lia|].
  rewrite IH; rewrite length_zip_with; lia.
Qed.

(** Any call draws a sample that keeps the history healthy or fails for good. *)
Lemma get_entropy_any st l : tested st l ->
  (exists st' x, get_entropy st = (st', inr x) /\ tested st' (l ++ [x]) /\ nonce st' = nonce st /\ startup_tested st' = startup_tested st) \/
  (exists st' e, get_entropy st = (st', inl e) /\ entropy_rc st' = RC_ERR e /\ startup_tested st' = startup_tested st).
Proof.
  intros Ht. destruct (get_noise src (es_device st)) as [dev [e|x]] eqn:E.
  - right. unfold get_entropy. rewrite (te_rc _ _ Ht), E. by eexists _, _.
  - destruct (get_entropy_run st l dev x Ht E) as [(_ & st' & ? & ? & _ & ? & ?)|(_ & st' & e & ? & ? & _ & ?)]; [left|right]; eauto 10.
Qed.

Lemma startup_run n : forall st l, tested st l -> 0 <= startup_tested st -> startup_tested st + Z.of_nat n < 2 ^ 32 ->
  (exists st' xs, startup_tests n st = (st', RC_OK) /\ tested st' (l ++ xs) /\ length xs = n /\ nonce st' = nonce st /\
     startup_tested st' = startup_tested st + Z.of_nat n) \/
  (exists st' e, startup_tests n st = (st', RC_ERR e) /\ entropy_rc st' = RC_ERR e /\
     startup_tested st <= startup_tested st' <= startup_tested st + Z.of_nat n).
Proof.
  induction n as [|n IH]; intros st l Ht H0 Hn; cbn [startup_tests].
  { left. exists st, []. rewrite app_nil_r. repeat split; [apply Ht..|lia]. }
  destruct (get_entropy_any st l Ht) as [(st1 & x & E & Ht1 & En & Es)|(st1 & e & E & He & Es)]; rewrite E; [|right; exists st1, e; split; [done|split; [done|lia]]].
  rewrite Es, (wrap_small 32) by lia.
  destruct (IH (set_startup st1 (startup_tested st + 1)) (l ++ [x])) as [(st2 & xs & E2 & Ht2 & El & En2 & Es2)|H]; [by destruct Ht1|cbn; lia..| |].
  2: { right. destruct H as (st2 & e & E2 & He2 & Hs2). exists st2, e. cbn in Hs2. split; [done|split; [done|lia]]. }
  left. exists st2, (x :: xs). rewrite <- app_assoc in Ht2. cbn in *. split; [done|]. split; [done|]. split; [lia|]. split; [congruence|lia].
Qed.

Lemma condense_run n : forall st l tmp, tested st l -> zlen tmp <= 8160 ->
  (exists st' xs, condense scratch n st tmp = Some (st', inr (mix (nonce st) xs tmp)) /\ tested st' (l ++ xs) /\ length xs = n /\
     startup_tested st' = startup_tested st) \/
  (exists st' e, condense scratch n st tmp = Some (st', inl e) /\ entropy_rc st' = RC_ERR e /\
     startup_tested st' = startup_tested st).
Proof.
  induction n as [|n IH]; intros st l tmp Ht Hl; cbn [condense].
  { left. exists st, []. rewrite app_nil_r. done. }
  destruct (get_entropy_any st l Ht) as [(st1 & x & E & Ht1 & En & Es)|(st1 & e & E & He & Es)]; rewrite E; [|right; by exists st1, e].
  cbn [make_next_nonce]. rewrite En.
  destruct (hash_df_df (store_word false 4 (u32 (nonce st + 1)) ++ [x]) (zlen tmp)) as [-> Hd]; [rewrite length_app, store_word_length; done|lia|].
  cbn [mbind option_bind].
  destruct (IH (set_nonce st1 (u32 (nonce st + 1))) (l ++ [x]) (zip_with Z.lxor tmp (df (store_word false 4 (u32 (nonce st + 1)) ++ [x]) (zlen tmp))))
    as [(st2 & xs & E2 & Ht2 & El & Es2)|H]; [by destruct Ht1|rewrite length_zip_with; lia| |].
  2: { right. destruct H as (st2 & e & E2 & He2 & Hs2). exists st2, e. cbn in Hs2. split; [done|split; [done|congruence]]. }
  left. exists st2, (x :: xs). rewrite <- app_assoc in Ht2. cbn in *. split; [done|]. split; [done|]. split; [lia|congruence].
Qed.

Lemma boot_tested dev : tested (entropy_boot src dev) [].
Proof.
  split; [done|done|by left|]. split; [|apply windows_nil].
  destruct cutoffs as [Hc _]. intros a b x E. destruct a; [|done].
  by destruct (Z.to_nat (repetition_count_cutoff src)) eqn:En; [lia|].
Qed.

(** The continuous health tests are exact.  From the start on, the calls
    of get_entropy() return the samples of the device as long as no value
    occurs as many times in a row as the repetition cutoff and no value that
    starts a window of 65 samples occurs more often in the rest of it than
    the proportion cutoff allows.  The first sample that breaks one of these
    is not returned, and every call from then on fails with the same error. *)
Theorem continuous_tests dev k : noise dev k ->
  (healthy k -> draws (length k) (entropy_boot src dev) = inr <$> k) /\
  (forall p x s, k = p ++ x :: s -> healthy p -> ~ healthy (p ++ [x]) ->
     exists e, draws (length k) (entropy_boot src dev) = (inr <$> p) ++ replicate (S (length s)) (inl e)).
Proof. intros Hk. exact (draws_run k (entropy_boot src dev) [] (boot_tested dev) Hk). Qed.

(** The lengths that get_entropy_input() is built with. *)
Record lengths_ok (bits min_len max_len : Z) : Prop := {
  lo_bits : 0 <= bits <= 256;
  lo_tmp : 2 * Z.land (u32 (bits + 7)) (2 ^ 32 - 8) = 8 * entropy_tmp_len bits;
  lo_len : 0 <= min_len <= max_len;
  lo_max : max_len <= 8160 }.

(** How the input is made from the condensed samples. *)
Definition fit (tmp : list Z) (min_len max_len : Z) : list Z :=
  if zlen tmp <? min_len then tmp ++ replicate (Z.to_nat (min_len - zlen tmp)) 0
  else if max_len <? zlen tmp then df tmp max_len else tmp.

Lemma fit_length tmp min_len max_len : zlen tmp <= 1000 -> 0 <= min_len <= max_len -> max_len <= 8160 ->
  min_len <= zlen (fit tmp min_len max_len) <= max_len.
Proof.
  intros Ht Hm Hx. unfold fit. destruct (Z.ltb_spec (zlen tmp) min_len).
  - rewrite length_app, length_replicate. lia.
  - destruct (Z.ltb_spec max_len (zlen tmp)); [|lia]. destruct (hash_df_df tmp max_len) as [_ E]; lia.
Qed.

(** A state of the running program: the tests have passed so far, or failed
    for good. *)
Definition usable st : Prop :=
  0 <= startup_tested st <= startup_test_count src /\ ((exists l, tested st l) \/ exists e, entropy_rc st = RC_ERR e).

(** get_entropy_input() always returns.  An error of the device or of a test
    is passed on and nothing is returned. *)
Theorem entropy_input_condensed st l bits min_len max_len : tested st l -> 0 <= startup_tested st <= startup_test_count src ->
  lengths_ok bits min_len max_len ->
  (exists st' warm xs, get_entropy_input scratch bits min_len max_len st =
      Some (st', inr (fit (mix (nonce st) xs (replicate (Z.to_nat (entropy_tmp_len bits)) 0)) min_len max_len)) /\
      length xs = Z.to_nat (entropy_num_samples src bits) /\ zlen warm = startup_test_count src - startup_tested st /\
      tested st' (l ++ warm ++ xs) /\ startup_tested st' = startup_test_count src) \/
  (exists st' e, get_entropy_input scratch bits min_len max_len st = Some (st', inl e) /\ usable st').
Proof.
  intros Ht Hst [Hb Htmp Hm Hx]. unfold get_entropy_input, get_entropy_input_tmp.
  assert (0 <= entropy_tmp_len bits <= 65) as Hlen by (unfold entropy_tmp_len; rewrite (wrap_small 32 (bits * 2)), (wrap_small 32) by lia; zdm).
  assert (startup_test_count src <= 51) as Hcount.
  { destruct cutoffs as [H1 H2]. unfold startup_test_count. destruct (_ <? _); lia. }
  destruct (entropy_enable src (es_device st)) as [dev [|e]].
  2: { right. eexists _, _. split; [done|]. split; [done|]. left. exists l. by destruct Ht. }
  destruct (startup_run (Z.to_nat (startup_test_count src - startup_tested st)) (set_device st dev) l ltac:(by destruct Ht))
    as [(st1 & warm & E1 & Ht1 & Hw & En & Es)|(st1 & e & E1 & Hr1 & Es1)]; [cbn; lia..| |]; cbn [set_device startup_tested] in E1 |- *;
    rewrite E1; [|right; eexists _, _; split; [done|]; split; [cbn in *; lia|right; by eexists]].
  destruct (condense_run (Z.to_nat (entropy_num_samples src bits)) st1 (l ++ warm) (replicate (Z.to_nat (entropy_tmp_len bits)) 0) Ht1)
    as [(st2 & xs & E2 & Ht2 & Hl2 & Es2)|(st2 & e & E2 & Hr2 & Es2)]; [rewrite length_replicate; lia| |];
    rewrite E2; cbn [mbind option_bind]; [|right; eexists _, _; split; [done|]; split; [cbn in *; lia|right; by eexists]].
  left. rewrite En. cbn [set_device nonce] in *. set (tmp := mix _ _ _).
  assert (zlen tmp = entropy_tmp_len bits) as Etmp.
  { subst tmp. rewrite mix_length by (rewrite length_replicate; lia). rewrite length_replicate. lia. }
  exists (set_device st2 (entropy_disable src (es_device st2))), warm, xs. rewrite app_assoc.
  split; [|split; [done|]; split; [lia|]; split; [by destruct Ht2|]; cbn in *; lia].
  fold tmp. unfold fit. rewrite Etmp. destruct (_ <? min_len); [done|]. destruct (_ <? entropy_tmp_len bits); [|done].
  destruct (hash_df_df tmp max_len) as [-> _]; [lia..|]. done.
Qed.

Lemma failed_input st e bits min_len max_len : entropy_rc st = RC_ERR e -> 0 < entropy_num_samples src bits ->
  exists st' e', get_entropy_input scratch bits min_len max_len st = Some (st', inl e') /\
    entropy_rc st' = RC_ERR e /\ startup_tested st' = startup_tested st.
Proof.
  intros He Hn. unfold get_entropy_input, get_entropy_input_tmp.
  destruct (entropy_enable src (es_device st)) as [dev [|e']]; [|by eexists _, _].
  assert (forall n, startup_tests n (set_device st dev) = (set_device st dev, RC_ERR e) \/ n = 0%nat) as Hs.
  { intros [|n]; [by right|left]. cbn. unfold get_entropy. cbn. by rewrite He. }
  assert (forall n tmp, (0 < n)%nat -> condense scratch n (set_device st dev) tmp = Some (set_device st dev, inl e)) as Hc.
  { intros [|n] tmp H0; [lia|]. cbn. unfold get_entropy. cbn. by rewrite He. }
  destruct (Hs (Z.to_nat (startup_test_count src - startup_tested (set_device st dev)))) as [-> | ->].
  - by eexists _, _.
  - cbn [startup_tests]. rewrite Hc by lia. by eexists _, _.
Qed.

Lemma input_total st bits min_len max_len : usable st -> lengths_ok bits min_len max_len -> 0 < entropy_num_samples src bits ->
  exists st' r, get_entropy_input scratch bits min_len max_len st = Some (st', r) /\ usable st' /\
    match r with inl _ => True | inr data => min_len <= zlen data <= max_len end.
Proof.
  intros [Hs [[l Ht]|[e He]]] Hl Hn.
  - destruct (entropy_input_condensed st l bits min_len max_len Ht Hs Hl) as [(st' & warm & xs & E & _ & _ & Ht' & Hs')|(st' & e & E & Hu)].
    + eexists _, _. split; [exact E|]. split; [split; [|by left; eexists]|].
      * destruct cutoffs as [Hc _]. rewrite Hs'. lia.
      * destruct Hl as [Hb _ Hm Hx]. apply fit_length; [|done..].
        assert (0 <= entropy_tmp_len bits <= 65) by (unfold entropy_tmp_len; rewrite (wrap_small 32 (bits * 2)), (wrap_small 32) by lia; zdm).
        rewrite mix_length; rewrite length_replicate; lia.
    + eexists _, _. split; [exact E|]. done.
  - destruct (failed_input st e bits min_len max_len He Hn) as (st' & e' & E & He' & Hs').
    eexists _, _. split; [exact E|]. split; [|done]. split; [lia|right; by eexists].
Qed.

Lemma boot_usable dev : usable (entropy_boot src dev).
Proof.
  split; [|left; exists []; apply boot_tested]. destruct cutoffs as [H1 H2]. cbn. unfold startup_test_count. destruct (_ <? _); lia.
Qed.
End EntropyProofs.

(** A source that counts. *)
Definition counting_source : entropy_source :=
  EntropySource Z (fun s => (s, RC_OK)) (fun s => s) (fun s => ((s + 1) mod 256, inr s)) (13, 10).

Lemma counting_ok : source_ok counting_source.
Proof. split; [done|done|by vm_compute]. Qed.
Lemma null_ok : source_ok null_entropy.
Proof. split; [done|done|by vm_compute]. Qed.

(** The null source is stopped by its thirty-first sample: the startup tests
    take more samples than the repetition test lets it give, so that no
    entropy is ever returned. *)
Theorem null_entropy_refused scratch bits min_len max_len :
  exists st, get_entropy_input scratch bits min_len max_len (entropy_boot null_entropy tt) =
    Some (st, inl EPIPE_REPETITION_COUNT_TEST).
Proof. eexists. by vm_compute. Qed.

(** The startup tests end before the first window does. *)
Example startup_below_window : startup_test_count null_entropy = 51 /\ startup_test_count counting_source = 51.
Proof. done. Qed.

Lemma no_repeats_thirty : healthy null_entropy (replicate 30 1) /\ ~ healthy null_entropy (replicate 30 1 ++ [1]).
Proof.
  split.
  - split.
    + intros a b x E. apply (f_equal length) in E. rewrite !length_app, !length_replicate in E.
      change (Z.to_nat (repetition_count_cutoff null_entropy)) with 31%nat in E. lia.
    + intros a x w _ _ [s E]. apply (f_equal length) in E. rewrite !length_app, length_replicate in E. cbn [length] in E.
      pose proof (count_occ_bound Z.eq_dec x w). change (adaptive_proportion_cutoff null_entropy) with 51. lia.
  - intros [H _]. by apply (H [] [] 1).
Qed.

Lemma continuous_tests_witness :
  exists e, draws null_entropy 40 (entropy_boot null_entropy tt) = (inr <$> replicate 30 1) ++ replicate 10 (inl e).
Proof.
  refine (proj2 (continuous_tests null_entropy null_ok tt (replicate 40 1) _) (replicate 30 1) 1 (replicate 9 1) eq_refl _ _).
  - cbn. by repeat (eexists; split; [reflexivity|]).
  - apply no_repeats_thirty.
  - apply no_repeats_thirty.
Defined.
