(* ===== verification/Drbg.v ===== *)
(** * The random bit generator: src/src/crypto/hmac_drbg.c, drbg.c, rbg.c and
    random_nz.c, with the inline functions of src/src/include/ipxe/drbg.h and
    rbg.h.

    The generator is drawn from the entropy source of Entropy, whose state is
    threaded through the calls.  The algorithm is proved to be the one of
    SP 800-90, for any digest; the generator around it is proved to end after
    at most one more seeding. *)
From S2P Require Import Prelude Strings Digest Sha Hmac Entropy.

(** ** hmac_drbg.c *)
Definition HMAC_DRBG_RESEED_INTERVAL : Z := 1024.
Definition HMAC_DRBG_MAX_OUTLEN_BYTES : Z := 512 / 8.

Record hmac_drbg_state := HmacDrbg {
  value : list Z;
  key : list Z;
  reseed_counter : Z }.

Section HmacDrbg.
Variable hash : digest_algorithm.
Variable scratch : dg_ctx hash.
Implicit Types (state : hmac_drbg_state).

(** The result is written over the start of a buffer. *)
Definition write_over (buf out : list Z) : list Z := out ++ drop (length out) buf.

(** The key is the input and the output of hmac_final(), which reads it before
    it writes the output. *)
Definition hmac_drbg_update_key state (data : list Z) (single : Z) : option hmac_drbg_state :=
  '(context, (k, out_len)) ← hmac_init hash scratch scratch (key state) (digestsize hash);
  let context := hmac_update hash context (take (Z.to_nat out_len) (value state)) in
  let context := hmac_update hash context [single] in
  let context := hmac_update hash context data in
  '(_, (k, _), hmac) ← hmac_final hash scratch context k out_len;
  Some (HmacDrbg (value state) (write_over k hmac) (reseed_counter state)).

Definition hmac_drbg_update_value state : option hmac_drbg_state :=
  '(context, (k, out_len)) ← hmac_init hash scratch scratch (key state) (digestsize hash);
  let context := hmac_update hash context (take (Z.to_nat out_len) (value state)) in
  '(_, (k, _), hmac) ← hmac_final hash scratch context k out_len;
  Some (HmacDrbg (write_over (value state) hmac) k (reseed_counter state)).

Definition hmac_drbg_update state (data : list Z) : option hmac_drbg_state :=
  state ← hmac_drbg_update_key state data 0;
  state ← hmac_drbg_update_value state;
  if zlen data =? 0 then Some state else
  state ← hmac_drbg_update_key state data 1;
  hmac_drbg_update_value state.

Definition hmac_drbg_reseed state (entropy additional : list Z) : option hmac_drbg_state :=
  state ← hmac_drbg_update state (entropy ++ additional);
  Some (HmacDrbg (value state) (key state) 1).

Definition hmac_drbg_instantiate state (entropy personal : list Z) : option hmac_drbg_state :=
  let out_len := Z.to_nat (digestsize hash) in
  hmac_drbg_reseed (HmacDrbg (write_over (value state) (replicate out_len 1)) (write_over (key state) (replicate out_len 0))
    (reseed_counter state)) entropy personal.

Fixpoint hmac_drbg_fill (fuel : nat) state (len : Z) : option (hmac_drbg_state * list Z) :=
  if len =? 0 then Some (state, []) else
  match fuel with
  | O => None
  | S fuel =>
      state ← hmac_drbg_update_value state;
      let frag_len := if digestsize hash <? len then digestsize hash else len in
      '(state', rest) ← hmac_drbg_fill fuel state (len - frag_len);
      Some (state', take (Z.to_nat frag_len) (value state) ++ rest)
  end.

Definition hmac_drbg_generate state (additional : list Z) (len : Z) : option (hmac_drbg_state * (errno + list Z)) :=
  if HMAC_DRBG_RESEED_INTERVAL <? reseed_counter state then Some (state, inl ESTALE) else
  state ← (if zlen additional =? 0 then Some state else hmac_drbg_update state additional);
  '(state, data) ← hmac_drbg_fill (Z.to_nat len) state len;
  state ← hmac_drbg_update state additional;
  Some (HmacDrbg (value state) (key state) (u32 (reseed_counter state + 1)), inr data).
End HmacDrbg.

(** ** drbg.c *)
Definition DRBG_MAX_SECURITY_STRENGTH : Z := 256.
Definition DRBG_SECURITY_STRENGTH : Z := 128.
Definition DRBG_MIN_ENTROPY_LEN_BYTES : Z := DRBG_SECURITY_STRENGTH / 8.
Definition DRBG_MAX_ENTROPY_LEN_BYTES : Z := 32.
Definition DRBG_MAX_PERSONAL_LEN_BYTES : Z := 0xffffffff.
Definition DRBG_MAX_ADDITIONAL_LEN_BYTES : Z := 0xffffffff.
Definition DRBG_MAX_GENERATED_LEN_BYTES : Z := 0x0000ffff.

Record drbg_state := Drbg {
  internal : hmac_drbg_state;
  reseed_required : bool;
  valid : bool }.

Section Drbg.
Variable src : entropy_source.
Variable scratch : md_context.
Implicit Types (state : drbg_state) (est : entropy_state src).

Definition drbg_instantiate est state (personal : list Z) : option (entropy_state src * drbg_state * rc) :=
  if DRBG_MAX_SECURITY_STRENGTH <? DRBG_SECURITY_STRENGTH then Some (est, state, RC_ERR ENOTSUP) else
  if DRBG_MAX_PERSONAL_LEN_BYTES <? zlen personal then Some (est, state, RC_ERR ERANGE) else
  '(est, r) ← get_entropy_input scratch ((3 * DRBG_SECURITY_STRENGTH + 1) / 2) DRBG_MIN_ENTROPY_LEN_BYTES DRBG_MAX_ENTROPY_LEN_BYTES est;
  match r with
  | inl e => Some (est, state, RC_ERR e)
  | inr data =>
      i ← hmac_drbg_instantiate Sha256.sha256_algorithm scratch (internal state) data personal;
      Some (est, Drbg i false true, RC_OK)
  end.

Definition drbg_reseed est state (additional : list Z) : option (entropy_state src * drbg_state * rc) :=
  if negb (valid state) then Some (est, state, RC_ERR EINVAL) else
  if DRBG_MAX_ADDITIONAL_LEN_BYTES <? zlen additional then Some (est, state, RC_ERR ERANGE) else
  '(est, r) ← get_entropy_input scratch DRBG_SECURITY_STRENGTH DRBG_MIN_ENTROPY_LEN_BYTES DRBG_MAX_ENTROPY_LEN_BYTES est;
  match r with
  | inl e => Some (est, state, RC_ERR e)
  | inr data =>
      i ← hmac_drbg_reseed Sha256.sha256_algorithm scratch (internal state) data additional;
      Some (est, Drbg i (reseed_required state) (valid state), RC_OK)
  end.

(** The code from [step_7] on; [fuel] bounds the times it is reached. *)
Fixpoint drbg_step_7 (fuel : nat) est state (additional : list Z) (prediction_resist : bool) (len : Z) :
    option (entropy_state src * drbg_state * (errno + list Z)) :=
  match fuel with
  | O => None
  | S fuel =>
      let generate est state additional :=
        '(i, r) ← hmac_drbg_generate Sha256.sha256_algorithm scratch (internal state) additional len;
        match r with
        | inl _ => drbg_step_7 fuel est (Drbg i true (valid state)) additional true len
        | inr data => Some (est, Drbg i (reseed_required state) (valid state), inr data)
        end in
      if reseed_required state || prediction_resist then
        '(est, state, r) ← drbg_reseed est state additional;
        match r with
        | RC_ERR e => Some (est, state, inl e)
        | RC_OK => generate est (Drbg (internal state) false (valid state)) []
        end
      else generate est state additional
  end.

Definition drbg_generate (fuel : nat) est state (additional : list Z) (prediction_resist : bool) (len : Z) :
    option (entropy_state src * drbg_state * (errno + list Z)) :=
  if negb (valid state) then Some (est, state, inl EINVAL) else
  if DRBG_MAX_GENERATED_LEN_BYTES <? len then Some (est, state, inl ERANGE) else
  if DRBG_MAX_ADDITIONAL_LEN_BYTES <? zlen additional then Some (est, state, inl ERANGE) else
  drbg_step_7 fuel est (Drbg (internal state) false (valid state)) additional prediction_resist len.

Definition drbg_uninstantiate state : drbg_state :=
  let zeros := replicate (Z.to_nat HMAC_DRBG_MAX_OUTLEN_BYTES) 0 in
  Drbg (HmacDrbg zeros zeros 0) false false.

(** ** rbg.c: the system's UUID, when it is known, is the personalisation. *)
Definition rbg_startup est state (uuid : errno + list Z) : option (entropy_state src * drbg_state * rc) :=
  drbg_instantiate est state (match uuid with inl _ => [] | inr id => id end).
Definition rbg_shutdown state : drbg_state := drbg_uninstantiate state.
Definition rbg_generate := drbg_generate.

(** ** random_nz.c *)
Fixpoint get_random_nz (fuel : nat) est state (len : Z) : option (entropy_state src * drbg_state * (errno + list Z)) :=
  if len =? 0 then Some (est, state, inr []) else
  match fuel with
  | O => None
  | S fuel =>
      '(est, state, r) ← rbg_generate 2 est state [] false 1;
      match r with
      | inl e => Some (est, state, inl e)
      | inr bytes =>
          if bool_decide (bytes = [0]) then get_random_nz fuel est state len else
          '(est, state, r) ← get_random_nz fuel est state (len - 1);
          Some (est, state, match r with inl e => inl e | inr rest => inr (bytes ++ rest) end)
      end
  end.
End Drbg.

Arguments drbg_instantiate {src}.
Arguments drbg_reseed {src}.
Arguments drbg_step_7 {src}.
Arguments drbg_generate {src}.
Arguments rbg_startup {src}.
Arguments rbg_generate {src}.
Arguments get_random_nz {src}.

(** ** The algorithm of SP 800-90 over a keyed hash. *)
Section Reference.
Variable mac : list Z -> list Z -> list Z.

Definition sp_update (kv : list Z * list Z) (data : list Z) : list Z * list Z :=
  let '(K, V) := kv in
  let K := mac K (V ++ 0 :: data) in
  let V := mac K V in
  if zlen data =? 0 then (K, V) else
  let K := mac K (V ++ 1 :: data) in
  (K, mac K V).

(** [n] blocks of output. *)
Fixpoint sp_blocks (n : nat) (K V : list Z) : list Z * list Z :=
  match n with
  | O => (V, [])
  | S n => let V := mac K V in let '(V', rest) := sp_blocks n K V in (V', V ++ rest)
  end.

Definition sp_generate (kv : list Z * list Z) (additional : list Z) (n : nat) (len : Z) : (list Z * list Z) * list Z :=
  let '(K, V) := if zlen additional =? 0 then kv else sp_update kv additional in
  let '(V, temp) := sp_blocks n K V in
  (sp_update (K, V) additional, take (Z.to_nat len) temp).
End Reference.

Section HmacDrbgProofs.
Context (d : digest_algorithm) (ok : dg_ctx d -> Prop) (limit : Z) (hash : list Z -> list Z) `{HD : !Digests d ok limit hash}.
Context (scratch : dg_ctx d) (Hscratch : ok scratch).
Context (Hlimit : blocksize d + HMAC_DRBG_MAX_OUTLEN_BYTES + 1 < limit).
Context (Hsize : 0 < digestsize d <= HMAC_DRBG_MAX_OUTLEN_BYTES).
Implicit Types (state : hmac_drbg_state).

Abbreviation mac := (hmac_ref hash (blocksize d)).
Abbreviation out_len := (Z.to_nat (digestsize d)).

(** An array of bytes of the state. *)
Definition buffer_ok (buf : list Z) : Prop := zlen buf = HMAC_DRBG_MAX_OUTLEN_BYTES /\ bytes_ok buf.

(** The state holds a key and a value of the algorithm. *)
Record holds state (kv : list Z * list Z) : Prop := {
  ho_key : take out_len (key state) = kv.1;
  ho_value : take out_len (value state) = kv.2;
  ho_key_size : buffer_ok (key state);
  ho_value_size : buffer_ok (value state) }.

Lemma mac_length K m : zlen (mac K m) = digestsize d.
Proof. apply (hash_size d ok limit hash). Qed.

Lemma mac_bytes K m : bytes_ok (mac K m).
Proof. apply (hash_bytes (Digests := HD)). Qed.

Lemma write_over_ok buf out : buffer_ok buf -> zlen out = digestsize d -> bytes_ok out ->
  take out_len (write_over buf out) = out /\ buffer_ok (write_over buf out).
Proof.
  intros [Hb Hbb] Ho Hob. unfold write_over. split.
  2: { split; [rewrite length_app, length_drop; lia|]. apply Forall_app_2; [done|by apply Forall_drop]. }
  rewrite take_app_le by lia. apply take_ge. lia.
Qed.

(** A keyed hash with the key of the state. *)
Lemma keyed state K V chunks : holds state (K, V) -> zlen (concat chunks) + blocksize d < limit ->
  hmac_init d scratch scratch (key state) (digestsize d) =
    Some (digest_update d (digest_init d scratch) (k_pad d 0x36 (key state) (digestsize d)), (key state, digestsize d)) /\
  exists c, hmac_final d scratch (fold_left (hmac_update d) chunks
      (digest_update d (digest_init d scratch) (k_pad d 0x36 (key state) (digestsize d)))) (key state) (digestsize d) =
    Some (c, (key state, digestsize d), mac K (concat chunks)).
Proof.
  intros [Hk _ [Hks _] _] Hl. cbn [fst snd] in *. pose proof (size_block d ok limit hash) as Hb.
  assert (reduce_if_long d scratch (key state) (digestsize d) = Some (key state, digestsize d)) as Er.
  { unfold reduce_if_long. by destruct (Z.ltb_spec (blocksize d) (digestsize d)); [lia|]. }
  assert (hmac_init d scratch scratch (key state) (digestsize d) =
    Some (digest_update d (digest_init d scratch) (k_pad d 0x36 (key state) (digestsize d)), (key state, digestsize d))) as Ei
    by (unfold hmac_init; by rewrite Er).
  split; [done|].
  assert (key_state d limit hash (key state) (digestsize d) K) as HK.
  { pose proof (block_nonneg (Digests := HD)). split; [lia|by rewrite Hk|lia]. }
  destruct (hmac_message_run d ok limit hash scratch Hscratch ltac:(lia) scratch (key state) (digestsize d) K chunks Hscratch HK ltac:(lia)) as (k' & l' & E & _).
  unfold hmac_message in E. rewrite Ei in E. cbn [mbind option_bind] in E. revert E.
  unfold hmac_final. rewrite Er. cbn [mbind option_bind].
  destruct (digest_final d (fold_left _ _ _)) as [[c1 h1]|]; [|done]. cbn [mbind option_bind].
  destruct (digest_final d _) as [[c2 h2]|]; [|done]. cbn [mbind option_bind]. intros [= <- <- <-]. by exists c2.
Qed.
Lemma update_key_run state K V data single : holds state (K, V) -> zlen data + digestsize d + 1 + blocksize d < limit ->
  exists state', hmac_drbg_update_key d scratch state data single = Some state' /\
    holds state' (mac K (V ++ single :: data), V) /\ reseed_counter state' = reseed_counter state.
Proof.
  intros H Hl. pose proof H as [Hk Hv Hks Hvs]. pose proof (proj1 Hvs). cbn [fst snd] in *.
  destruct (keyed state K V [V; [single]; data] H) as (Ei & c & Ef).
  { rewrite <- Hv. cbn [concat]. rewrite !length_app, length_take. cbn [length]. lia. }
  unfold hmac_drbg_update_key. rewrite Ei. cbn [mbind option_bind]. rewrite Hv.
  cbn [fold_left] in Ef. rewrite Ef. cbn [mbind option_bind concat app]. rewrite app_nil_r.
  destruct (write_over_ok (key state) (mac K (V ++ single :: data)) Hks (mac_length _ _) (mac_bytes _ _)) as [E1 E2].
  eexists. split; [reflexivity|]. done.
Qed.

Lemma update_value_run state K V : holds state (K, V) ->
  exists state', hmac_drbg_update_value d scratch state = Some state' /\
    holds state' (K, mac K V) /\ reseed_counter state' = reseed_counter state.
Proof.
  intros H. pose proof H as [Hk Hv Hks Hvs]. pose proof (proj1 Hvs). cbn [fst snd] in *.
  destruct (keyed state K V [V] H) as (Ei & c & Ef).
  { rewrite <- Hv. cbn [concat]. rewrite app_nil_r, length_take. lia. }
  unfold hmac_drbg_update_value. rewrite Ei. cbn [mbind option_bind]. rewrite Hv.
  cbn [fold_left] in Ef. rewrite Ef. cbn [mbind option_bind concat]. rewrite app_nil_r.
  destruct (write_over_ok (value state) (mac K V) Hvs (mac_length _ _) (mac_bytes _ _)) as [E1 E2].
  eexists. split; [reflexivity|]. done.
Qed.

Definition fits (data : list Z) : Prop := zlen data + digestsize d + 1 + blocksize d < limit.

Lemma update_state_run state kv data : holds state kv -> fits data ->
  exists state', hmac_drbg_update d scratch state data = Some state' /\ holds state' (sp_update mac kv data) /\
    reseed_counter state' = reseed_counter state.
Proof.
  destruct kv as [K V]. intros H Hl. unfold hmac_drbg_update, sp_update.
  destruct (update_key_run state K V data 0 H Hl) as (s1 & -> & H1 & C1). cbn [mbind option_bind].
  destruct (update_value_run s1 _ _ H1) as (s2 & -> & H2 & C2). cbn [mbind option_bind].
  destruct (zlen data =? 0); [exists s2; split; [done|]; split; [done|congruence]|].
  destruct (update_key_run s2 _ _ data 1 H2 Hl) as (s3 & -> & H3 & C3). cbn [mbind option_bind].
  destruct (update_value_run s3 _ _ H3) as (s4 & -> & H4 & C4). exists s4. split; [done|]. split; [done|congruence].
Qed.

Lemma reseed_run state kv entropy additional : holds state kv -> fits (entropy ++ additional) ->
  exists state', hmac_drbg_reseed d scratch state entropy additional = Some state' /\
    holds state' (sp_update mac kv (entropy ++ additional)) /\ reseed_counter state' = 1.
Proof.
  intros H Hl. unfold hmac_drbg_reseed. destruct (update_state_run state kv _ H Hl) as (s & -> & Hs & _).
  eexists. split; [reflexivity|]. split; [by destruct Hs|done].
Qed.

Lemma instantiate_run state entropy personal : buffer_ok (key state) -> buffer_ok (value state) -> fits (entropy ++ personal) ->
  exists state', hmac_drbg_instantiate d scratch state entropy personal = Some state' /\
    holds state' (sp_update mac (replicate out_len 0, replicate out_len 1) (entropy ++ personal)) /\ reseed_counter state' = 1.
Proof.
  intros Hk Hv Hl. unfold hmac_drbg_instantiate. apply reseed_run; [|done].
  destruct (write_over_ok (key state) (replicate out_len 0) Hk) as [E1 E2]; [rewrite length_replicate; lia|by apply Forall_replicate|].
  destruct (write_over_ok (value state) (replicate out_len 1) Hv) as [E3 E4]; [rewrite length_replicate; lia|by apply Forall_replicate|].
  by split.
Qed.

Lemma drbg_fill_run fuel : forall n state K V len, holds state (K, V) -> 0 <= len <= Z.of_nat fuel ->
  (Z.of_nat n - 1) * digestsize d < len <= Z.of_nat n * digestsize d ->
  exists state', hmac_drbg_fill d scratch fuel state len = Some (state', take (Z.to_nat len) (sp_blocks mac n K V).2) /\
    holds state' (K, (sp_blocks mac n K V).1) /\ reseed_counter state' = reseed_counter state.
Proof.
  induction fuel as [|fuel IH]; intros n state K V len H Hf Hn; cbn [hmac_drbg_fill]; destruct (Z.eqb_spec len 0) as [-> |Hne].
  1, 3: assert (n = 0%nat) as -> by nia; by exists state.
  { lia. }
  destruct n as [|n]; [nia|]. cbn [sp_blocks]. destruct (update_value_run state K V H) as (s1 & -> & H1 & C1). cbn [mbind option_bind].
  set (frag := if digestsize d <? len then digestsize d else len).
  assert (frag <= digestsize d /\ 0 < frag <= len /\ (n = 0%nat /\ frag = len \/ frag = digestsize d)) as (Hfr & Hpos & Hcase).
  { subst frag. destruct (Z.ltb_spec (digestsize d) len).
    - split; [lia|]. split; [lia|by right].
    - split; [lia|]. split; [lia|]. left. split; [nia|done]. }
  clearbody frag. destruct (IH n s1 K (mac K V) (len - frag) H1) as (s2 & -> & H2 & C2); [lia|nia|].
  destruct (sp_blocks mac n K (mac K V)) as [V' rest] eqn:Eb. cbn [mbind option_bind fst snd] in *.
  exists s2. split; [|split; [done|congruence]]. f_equal. f_equal.
  pose proof (mac_length K V) as Hm. pose proof (ho_value _ _ H1) as Ev. cbn [snd] in Ev.
  assert (take (Z.to_nat frag) (value s1) = take (Z.to_nat frag) (mac K V)) as ->.
  { rewrite <- Ev, take_take. f_equal. lia. }
  destruct Hcase as [[-> ->] | ->].
  - cbn in Eb. injection Eb as <- <-. by rewrite Z.sub_diag, !app_nil_r.
  - rewrite (take_ge (mac K V)) by lia. rewrite (take_app_ge (mac K V)) by lia. f_equal. f_equal. lia.
Qed.
Definition blocks_for (len : Z) : nat := Z.to_nat ((len + digestsize d - 1) / digestsize d).

Lemma blocks_for_spec len : 0 <= len ->
  (Z.of_nat (blocks_for len) - 1) * digestsize d < len <= Z.of_nat (blocks_for len) * digestsize d.
Proof.
  intros Hl. unfold blocks_for. pose proof (Z.div_mod (len + digestsize d - 1) (digestsize d)).
  pose proof (Z.mod_pos_bound (len + digestsize d - 1) (digestsize d)).
  rewrite Z2Nat.id by (apply Z.div_pos; lia). nia.
Qed.

Lemma generate_run state kv additional len : holds state kv -> fits additional -> 0 <= len ->
  0 <= reseed_counter state <= HMAC_DRBG_RESEED_INTERVAL ->
  exists state', hmac_drbg_generate d scratch state additional len =
      Some (state', inr (sp_generate mac kv additional (blocks_for len) len).2) /\
    holds state' (sp_generate mac kv additional (blocks_for len) len).1 /\ reseed_counter state' = reseed_counter state + 1.
Proof.
  intros H Hf Hl Hc. unfold hmac_drbg_generate, sp_generate. destruct (Z.ltb_spec HMAC_DRBG_RESEED_INTERVAL (reseed_counter state)); [lia|].
  set (kv1 := if zlen additional =? 0 then kv else sp_update mac kv additional).
  assert (exists s1, (if zlen additional =? 0 then Some state else hmac_drbg_update d scratch state additional) = Some s1 /\
    holds s1 kv1 /\ reseed_counter s1 = reseed_counter state) as (s1 & -> & H1 & C1).
  { subst kv1. destruct (zlen additional =? 0); [by exists state|]. by apply update_state_run. }
  clearbody kv1. destruct kv1 as [K V]. cbn [mbind option_bind].
  destruct (drbg_fill_run (Z.to_nat len) (blocks_for len) s1 K V len H1 ltac:(lia) (blocks_for_spec len Hl)) as (s2 & -> & H2 & C2).
  cbn [mbind option_bind]. destruct (sp_blocks mac (blocks_for len) K V) as [V' temp]. cbn [fst snd] in *.
  destruct (update_state_run s2 _ additional H2 Hf) as (s3 & -> & H3 & C3). cbn [mbind option_bind].
  eexists. split; [reflexivity|]. split; [by destruct H3|]. cbn. unfold HMAC_DRBG_RESEED_INTERVAL in Hc. rewrite (wrap_small 32) by lia. lia.
Qed.

Lemma sp_blocks_length n : forall K V, zlen (sp_blocks mac n K V).2 = Z.of_nat n * digestsize d.
Proof.
  induction n as [|n IH]; intros K V; [done|]. cbn [sp_blocks]. specialize (IH K (mac K V)).
  destruct (sp_blocks mac n K (mac K V)) as [V' rest]. cbn [snd] in *. rewrite length_app. pose proof (mac_length K V). lia.
Qed.

Lemma sp_generate_length kv additional len : 0 <= len -> zlen (sp_generate mac kv additional (blocks_for len) len).2 = len.
Proof.
  intros Hl. unfold sp_generate. destruct (if zlen additional =? 0 then kv else _) as [K V].
  pose proof (sp_blocks_length (blocks_for len) K V) as Hb. destruct (sp_blocks mac (blocks_for len) K V) as [V' temp].
  cbn [snd] in *. pose proof (blocks_for_spec len Hl). rewrite length_take. lia.
Qed.

Lemma sp_blocks_bytes n : forall K V, bytes_ok (sp_blocks mac n K V).2.
Proof.
  induction n as [|n IH]; intros K V; [constructor|]. cbn [sp_blocks]. specialize (IH K (mac K V)).
  destruct (sp_blocks mac n K (mac K V)) as [V' rest]. apply Forall_app_2; [apply mac_bytes|done].
Qed.

Lemma sp_generate_bytes kv additional n len : bytes_ok (sp_generate mac kv additional n len).2.
Proof.
  unfold sp_generate. destruct (if zlen additional =? 0 then kv else _) as [K V].
  pose proof (sp_blocks_bytes n K V) as Hb. destruct (sp_blocks mac n K V) as [V' temp]. by apply Forall_take.
Qed.

(** C35: the generator of hmac_drbg.c is the HMAC_DRBG of SP 800-90 for any
    digest.  In a state that holds a key and a value it gives the bytes that
    the standard gives and goes over to the standard's next key and value,
    until the reseed interval is over; from then on it changes nothing and
    asks to be seeded. *)
Theorem hmac_drbg_sp800 state kv additional len : holds state kv -> fits additional -> 0 <= len -> 0 <= reseed_counter state ->
  (reseed_counter state <= HMAC_DRBG_RESEED_INTERVAL /\
     exists state', hmac_drbg_generate d scratch state additional len =
       Some (state', inr (sp_generate mac kv additional (blocks_for len) len).2) /\
     holds state' (sp_generate mac kv additional (blocks_for len) len).1 /\ reseed_counter state' = reseed_counter state + 1) \/
  (HMAC_DRBG_RESEED_INTERVAL < reseed_counter state /\ hmac_drbg_generate d scratch state additional len = Some (state, inl ESTALE)).
Proof.
  intros H Hf Hl H0. destruct (Z.le_gt_cases (reseed_counter state) HMAC_DRBG_RESEED_INTERVAL) as [Hc|Hc].
  - left. split; [done|]. by apply generate_run.
  - right. split; [done|]. unfold hmac_drbg_generate. by rewrite (proj2 (Z.ltb_lt _ _) Hc).
Qed.
End HmacDrbgProofs.

(** ** The generator and its entropy. *)
Section DrbgProofs.
Context (src : entropy_source) (Hsrc : source_ok src) (scratch : md_context) (Hscratch : md_ctx_ok scratch).
Implicit Types (state : drbg_state) (est : entropy_state src).

(** The arrays have their sizes and hold bytes, the counter stops one above
    the interval, and a generator that is marked as valid was seeded. *)
Record drbg_typed state : Prop := {
  dt_key : buffer_ok (key (internal state));
  dt_value : buffer_ok (value (internal state));
  dt_counter : 0 <= reseed_counter (internal state) <= HMAC_DRBG_RESEED_INTERVAL + 1;
  dt_seeded : valid state = true -> 1 <= reseed_counter (internal state) }.

(** Inputs that the digest can count. *)
Definition small (data : list Z) : Prop := zlen data < 2 ^ 32 - 202.

Abbreviation sha := Sha256.sha256_algorithm.
Abbreviation sha_holds := (holds sha).

Lemma sha_limit : blocksize sha + HMAC_DRBG_MAX_OUTLEN_BYTES + 1 < MD_LIMIT.
Proof. done. Qed.
Lemma sha_size : 0 < digestsize sha <= HMAC_DRBG_MAX_OUTLEN_BYTES.
Proof. done. Qed.

Lemma small_fits data : small data -> fits sha MD_LIMIT data.
Proof. unfold small, fits, MD_LIMIT. change (digestsize sha) with 32. change (blocksize sha) with 64. lia. Qed.
Lemma seed_fits seed data : zlen seed <= 32 -> small data -> fits sha MD_LIMIT (seed ++ data).
Proof. unfold small, fits, MD_LIMIT. change (digestsize sha) with 32. change (blocksize sha) with 64. rewrite length_app. lia. Qed.

Lemma typed_holds state : drbg_typed state -> exists kv, sha_holds (internal state) kv.
Proof. intros [Hk Hv _ _]. by exists (take 32 (key (internal state)), take 32 (value (internal state))). Qed.

Lemma seed_lengths bits : bits = 192 \/ bits = 128 -> lengths_ok bits 16 32 /\ 0 < entropy_num_samples src bits.
Proof.
  intros Hb. split; [by destruct Hb as [-> | ->]; split|]. destruct Hsrc as [[Hn Hd] _ _]. unfold entropy_num_samples.
  destruct (min_entropy src) as [num den]. cbn [fst snd] in *.
  assert (0 < Z.land (u32 (bits + 7)) (2 ^ 32 - 8)) as Hp by (by destruct Hb as [-> | ->]).
  set (b := Z.land _ _) in *. clearbody b. pose proof (round_up_spec (b * den) num Hn). set (r := round_up _ _) in *. nia.
Qed.

Lemma instantiate_total est state personal : usable src est -> drbg_typed state -> small personal ->
  exists est' state' r, drbg_instantiate scratch est state personal = Some (est', state', r) /\ usable src est' /\ drbg_typed state'.
Proof.
  intros Hu Ht Hp. unfold drbg_instantiate. cbn [DRBG_MAX_SECURITY_STRENGTH DRBG_SECURITY_STRENGTH].
  destruct (DRBG_MAX_SECURITY_STRENGTH <? DRBG_SECURITY_STRENGTH) eqn:E0; [done|].
  destruct (DRBG_MAX_PERSONAL_LEN_BYTES <? zlen personal) eqn:E1; [by eexists _, _, _|].
  destruct (seed_lengths 192 (or_introl eq_refl)) as [Hl Hn].
  destruct (input_total src scratch Hscratch Hsrc est 192 16 32 Hu Hl Hn) as (est1 & r & E & Hu1 & Hr).
  change ((3 * DRBG_SECURITY_STRENGTH + 1) / 2) with 192. change DRBG_MIN_ENTROPY_LEN_BYTES with 16. change DRBG_MAX_ENTROPY_LEN_BYTES with 32.
  rewrite E. cbn [mbind option_bind]. destruct r as [e|data]; [by eexists _, _, _|].
  destruct (instantiate_run sha md_ctx_ok MD_LIMIT (md_hash Sha256.sha256) (HD := sha256_digests) scratch Hscratch sha_limit sha_size
    (internal state) data personal (dt_key _ Ht) (dt_value _ Ht) (seed_fits data personal ltac:(lia) Hp)) as (i & -> & Hi & Hc).
  cbn [mbind option_bind]. eexists _, _, _. split; [done|]. split; [done|].
  destruct Hi. split; cbn [internal]; [done|done|rewrite Hc; done|rewrite Hc; done].
Qed.

Lemma reseed_total est state additional : usable src est -> drbg_typed state -> small additional ->
  exists est' state' r, drbg_reseed scratch est state additional = Some (est', state', r) /\ usable src est' /\ drbg_typed state' /\
    valid state' = valid state /\
    match r with
    | RC_OK => reseed_counter (internal state') = 1
    | RC_ERR e => valid state = false \/ exists est1, get_entropy_input scratch 128 16 32 est = Some (est1, inl e)
    end.
Proof.
  intros Hu Ht Hp. unfold drbg_reseed. destruct (valid state) eqn:Ev; cbn [negb]; [|eexists _, _, _; split; [done|]; auto].
  destruct (Z.ltb_spec DRBG_MAX_ADDITIONAL_LEN_BYTES (zlen additional)) as [E1|_].
  { unfold small, DRBG_MAX_ADDITIONAL_LEN_BYTES in *. lia. }
  destruct (seed_lengths 128 (or_intror eq_refl)) as [Hl Hn].
  destruct (input_total src scratch Hscratch Hsrc est 128 16 32 Hu Hl Hn) as (est1 & r & E & Hu1 & Hr).
  change DRBG_SECURITY_STRENGTH with 128. change DRBG_MIN_ENTROPY_LEN_BYTES with 16. change DRBG_MAX_ENTROPY_LEN_BYTES with 32.
  rewrite E. cbn [mbind option_bind]. destruct r as [e|data].
  { eexists _, _, _. split; [done|]. split; [done|]. split; [done|]. split; [done|]. right. by exists est1. }
  destruct (typed_holds state Ht) as [kv Hkv].
  destruct (reseed_run sha md_ctx_ok MD_LIMIT (md_hash Sha256.sha256) (HD := sha256_digests) scratch Hscratch sha_limit sha_size
    (internal state) kv data additional Hkv (seed_fits data additional ltac:(lia) Hp)) as (i & -> & Hi & Hc).
  cbn [mbind option_bind]. eexists _, _, _. split; [done|]. split; [done|].
  split; [|done]. destruct Hi. split; cbn [internal]; [done|done|rewrite Hc; done|rewrite Hc; done].
Qed.
Lemma generate_total state additional len : drbg_typed state -> small additional -> 0 <= len ->
  reseed_counter (internal state) <= HMAC_DRBG_RESEED_INTERVAL ->
  exists i data, hmac_drbg_generate sha scratch (internal state) additional len = Some (i, inr data) /\
    drbg_typed (Drbg i (reseed_required state) (valid state)) /\ zlen data = len /\ bytes_ok data.
Proof.
  intros Ht Hs Hl Hc. destruct (typed_holds state Ht) as [kv Hkv]. pose proof Ht as [_ _ Hcount Hseed].
  destruct (generate_run sha md_ctx_ok MD_LIMIT (md_hash Sha256.sha256) (HD := sha256_digests) scratch Hscratch sha_limit sha_size
    (internal state) kv additional len Hkv (small_fits _ Hs) Hl ltac:(lia)) as (i & E & Hi & Hci).
  eexists _, _. split; [exact E|]. split; [|split].
  - destruct Hi. split; cbn [internal valid]; [done|done|lia|]. intros Hv. specialize (Hseed Hv). lia.
  - apply (sp_generate_length sha md_ctx_ok MD_LIMIT (md_hash Sha256.sha256) (HD := sha256_digests)); [apply sha_size|done].
  - apply (sp_generate_bytes sha md_ctx_ok MD_LIMIT (md_hash Sha256.sha256) (HD := sha256_digests)).
Qed.

(** What a call of the generator leaves behind and returns. *)
Definition generated est state (len : Z) (res : entropy_state src * drbg_state * (errno + list Z)) : Prop :=
  let '(est', state', r) := res in
  usable src est' /\ drbg_typed state' /\ valid state' = valid state /\
  match r with
  | inr data => zlen data = len /\ bytes_ok data /\ valid state = true /\ len <= DRBG_MAX_GENERATED_LEN_BYTES
  | inl e => valid state = false \/ DRBG_MAX_GENERATED_LEN_BYTES < len \/
      exists est1, get_entropy_input scratch 128 16 32 est = Some (est1, inl e)
  end.

Lemma step_7_seeded fuel est state additional pr len : usable src est -> drbg_typed state -> small additional -> valid state = true ->
  0 <= len <= DRBG_MAX_GENERATED_LEN_BYTES -> reseed_required state || pr = true ->
  exists res, drbg_step_7 scratch (S fuel) est state additional pr len = Some res /\ generated est state len res.
Proof.
  intros Hu Ht Hs Hv Hl Hr. cbn [drbg_step_7]. rewrite Hr.
  destruct (reseed_total est state additional Hu Ht Hs) as (est1 & s1 & r & -> & Hu1 & Ht1 & Ev1 & Hrc). cbn [mbind option_bind].
  destruct r as [|e].
  - set (s2 := Drbg (internal s1) false (valid s1)). assert (drbg_typed s2) as Ht2 by (by destruct Ht1).
    destruct (generate_total s2 [] len Ht2 ltac:(by vm_compute) ltac:(lia)) as (i & data & E & Hti & Hlen & Hb).
    { cbn [s2 internal]. rewrite Hrc. done. }
    cbn [s2 internal reseed_required valid] in E, Hti |- *. rewrite E. cbn [mbind option_bind].
    eexists. split; [reflexivity|]. unfold generated. cbn [valid].
    split; [done|]. split; [done|]. split; [done|]. split; [done|]. split; [done|]. split; [done|lia].
  - eexists. split; [reflexivity|]. unfold generated. split; [done|]. split; [done|]. split; [done|].
    destruct Hrc as [?|?]; [by left|right; by right].
Qed.

Lemma drbg_generate_run est state additional prediction_resist len : usable src est -> drbg_typed state -> small additional -> 0 <= len ->
  exists res, drbg_generate scratch 2 est state additional prediction_resist len = Some res /\ generated est state len res.
Proof.
  intros Hu Ht Hs Hl. unfold drbg_generate. destruct (valid state) eqn:Ev; cbn [negb].
  2: { eexists. split; [reflexivity|]. unfold generated. rewrite Ev. auto. }
  destruct (Z.ltb_spec DRBG_MAX_GENERATED_LEN_BYTES len) as [Hlong|Hfit].
  { eexists. split; [reflexivity|]. unfold generated. auto 10. }
  destruct (Z.ltb_spec DRBG_MAX_ADDITIONAL_LEN_BYTES (zlen additional)) as [E1|_].
  { unfold small, DRBG_MAX_ADDITIONAL_LEN_BYTES in *. lia. }
  set (s0 := Drbg (internal state) false true). assert (drbg_typed s0) as Ht0 by (destruct Ht; by split; auto).
  assert (forall res, generated est s0 len res -> generated est state len res) as Hgen.
  { intros [[est' s'] r]. unfold generated. cbn [s0 valid]. by rewrite Ev. }
  destruct prediction_resist.
  { destruct (step_7_seeded 1 est s0 additional true len) as (res & E & H); [done..|lia|done|]. exists res. split; [exact E|by apply Hgen]. }
  destruct (Z.le_gt_cases (reseed_counter (internal s0)) HMAC_DRBG_RESEED_INTERVAL) as [Hc|Hc].
  - destruct (generate_total s0 additional len Ht0 Hs Hl Hc) as (i & data & E & Hti & Hlen & Hb).
    remember 1%nat as fuel. cbn [drbg_step_7 s0 reseed_required orb internal]. cbn [s0 internal] in E. rewrite E. cbn [mbind option_bind].
    eexists. split; [reflexivity|]. apply Hgen. unfold generated. cbn [valid s0]. auto 10.
  - destruct (step_7_seeded 0 est (Drbg (internal state) true true) additional true len) as (res & E & H);
      [done|by destruct Ht; split; auto|done..|lia|done|].
    remember 1%nat as fuel. cbn [drbg_step_7 s0 reseed_required orb internal valid] in *. unfold hmac_drbg_generate at 1.
    rewrite (proj2 (Z.ltb_lt _ _) Hc). cbn [mbind option_bind]. subst fuel. exists res. split; [exact E|].
    destruct res as [[est' s'] r]. unfold generated in *. cbn [valid] in H. by rewrite Ev.
Qed.
(** C31: drbg_generate() ends, after at most two passes of step 7, whatever
    the state, the inputs and the source of entropy: when the interval is over
    it seeds the generator once, and then the bytes can be generated.  It
    returns as many bytes as were asked for, unless the generator is not
    valid, the request is too long or no entropy can be had. *)
Theorem drbg_generate_ends est state additional prediction_resist len : usable src est -> drbg_typed state -> small additional -> 0 <= len ->
  exists res, drbg_generate scratch 2 est state additional prediction_resist len = Some res /\ generated est state len res.
Proof. apply drbg_generate_run. Qed.

(** The life of a generator. *)
Inductive drbg_op :=
| OpStartup (uuid : errno + list Z)
| OpReseed (additional : list Z)
| OpGenerate (additional : list Z) (prediction_resist : bool) (len : Z)
| OpShutdown.

Definition op_ok (op : drbg_op) : Prop :=
  match op with
  | OpStartup (inr uuid) => small uuid
  | OpStartup (inl _) | OpShutdown => True
  | OpReseed additional => small additional
  | OpGenerate additional _ len => small additional /\ 0 <= len
  end.

Definition drbg_apply (s : entropy_state src * drbg_state) (op : drbg_op) : option (entropy_state src * drbg_state) :=
  let '(est, state) := s in
  match op with
  | OpStartup uuid => fst <$> rbg_startup scratch est state uuid
  | OpReseed additional => fst <$> drbg_reseed scratch est state additional
  | OpGenerate additional prediction_resist len => fst <$> rbg_generate scratch 2 est state additional prediction_resist len
  | OpShutdown => Some (est, rbg_shutdown state)
  end.

Fixpoint drbg_life (ops : list drbg_op) (s : entropy_state src * drbg_state) : option (entropy_state src * drbg_state) :=
  match ops with
  | [] => Some s
  | op :: ops => s ← drbg_apply s op; drbg_life ops s
  end.

Lemma shutdown_typed state : drbg_typed (rbg_shutdown state).
Proof. split; try (split; [done|by apply Forall_replicate]); done. Qed.

Lemma apply_typed op est state : op_ok op -> usable src est -> drbg_typed state ->
  exists est' state', drbg_apply (est, state) op = Some (est', state') /\ usable src est' /\ drbg_typed state'.
Proof.
  intros Hop Hu Ht. destruct op as [uuid|additional|additional pr len|]; cbn [drbg_apply op_ok] in *.
  - destruct (instantiate_total est state (match uuid with inl _ => [] | inr id => id end) Hu Ht) as (est' & state' & r & E & ? & ?).
    { by destruct uuid. }
    exists est', state'. unfold rbg_startup. by rewrite E.
  - destruct (reseed_total est state additional Hu Ht Hop) as (est' & state' & r & -> & ? & ? & _). by exists est', state'.
  - destruct Hop as [Hs Hl]. destruct (drbg_generate_run est state additional pr len Hu Ht Hs Hl) as ([[est' state'] r] & E & ? & ? & _).
    exists est', state'. unfold rbg_generate. by rewrite E.
  - eexists _, _. split; [reflexivity|]. split; [done|]. apply shutdown_typed.
Qed.

(** The generator keeps its type.  After any sequence of startups,
    seedings, requests and shutdowns from the start of the program, failed
    ones included, the two arrays have 64 bytes, the counter is at most one
    above the reseed interval, and a generator marked as valid was seeded. *)
Theorem drbg_life_typed dev state ops : Forall op_ok ops ->
  exists est' state', drbg_life ops (entropy_boot src dev, drbg_uninstantiate state) = Some (est', state') /\
    usable src est' /\ drbg_typed state'.
Proof.
  intros Hops. assert (usable src (entropy_boot src dev)) as Hu by (by apply boot_usable).
  pose proof (shutdown_typed state) as Ht. revert Hu Ht. change (rbg_shutdown state) with (drbg_uninstantiate state).
  generalize (entropy_boot src dev) (drbg_uninstantiate state).
  induction Hops as [|op ops Hop _ IH]; intros est s Hu Ht; [by exists est, s|]. cbn [drbg_life].
  destruct (apply_typed op est s Hop Hu Ht) as (est1 & s1 & -> & Hu1 & Ht1). by apply IH.
Qed.

(** ** Bytes that are not zero. *)
(** The bytes that [n] requests for one byte give. *)
Fixpoint rbg_bytes (n : nat) est state : option (list Z) :=
  match n with
  | O => Some []
  | S n =>
      '(est, state, r) ← rbg_generate scratch 2 est state [] false 1;
      match r with
      | inl _ => None
      | inr b => rest ← rbg_bytes n est state; Some (b ++ rest)
      end
  end.

Lemma one_byte est state est' state' b : usable src est -> drbg_typed state ->
  rbg_generate scratch 2 est state [] false 1 = Some (est', state', inr b) ->
  usable src est' /\ drbg_typed state' /\ exists x, b = [x] /\ is_byte x.
Proof.
  intros Hu Ht E. destruct (drbg_generate_run est state [] false 1 Hu Ht ltac:(by vm_compute) ltac:(lia)) as (res & E' & H).
  unfold rbg_generate in E. rewrite E' in E. injection E as ->. destruct H as (Hu' & Ht' & _ & Hb & Hbytes & _).
  split; [done|]. split; [done|]. destruct b as [|x [|y b]]; cbn [length] in Hb; [lia| |lia]. exists x. split; [done|]. by apply Forall_inv in Hbytes.
Qed.

(** The bytes that are returned are the ones that are not zero, in order. *)
Theorem random_nz_discards n : forall est state len bytes, usable src est -> drbg_typed state -> rbg_bytes n est state = Some bytes ->
  0 <= len <= zlen (filter (fun x => x <> 0) bytes) ->
  exists est' state', get_random_nz scratch n est state len = Some (est', state', inr (take (Z.to_nat len) (filter (fun x => x <> 0) bytes))).
Proof.
  induction n as [|n IH]; intros est state len bytes Hu Ht E Hl; cbn [rbg_bytes get_random_nz] in *; destruct (Z.eqb_spec len 0) as [-> |Hne];
    try (by eexists _, _).
  { injection E as <-. cbn in Hl. lia. }
  destruct (rbg_generate scratch 2 est state [] false 1) as [[[est1 s1] [e|b]]|] eqn:Eg; try done. cbn [mbind option_bind] in *.
  destruct (one_byte est state est1 s1 b Hu Ht Eg) as (Hu1 & Ht1 & x & -> & _).
  destruct (rbg_bytes n est1 s1) as [rest|] eqn:Er; [|done]. cbn [mbind option_bind app] in E. injection E as <-.
  rewrite filter_cons in *. destruct (decide (x <> 0)) as [Hx|Hx].
  - rewrite bool_decide_eq_false_2 by congruence. cbn [length] in Hl.
    destruct (IH est1 s1 (len - 1) rest Hu1 Ht1 Er ltac:(lia)) as (est' & s' & ->). cbn [mbind option_bind app].
    eexists _, _. do 3 f_equal. replace (Z.to_nat len) with (S (Z.to_nat (len - 1))) by lia. done.
  - assert (x = 0) as -> by lia. rewrite bool_decide_eq_true_2 by done. by apply IH.
Qed.
End DrbgProofs.

(** ** Witnesses: the source that counts, from the start of the program. *)
Definition first_state : drbg_state := drbg_uninstantiate (Drbg (HmacDrbg [] [] 0) false false).

Lemma first_typed : drbg_typed first_state.
Proof. apply shutdown_typed. Qed.

Lemma drbg_generate_ends_witness :
  exists res, drbg_generate stale_context 2 (entropy_boot counting_source 0)
      (Drbg (HmacDrbg (replicate 64 1) (replicate 64 2) 1025) false true) [1; 2; 3] false 40 = Some res /\
    generated counting_source stale_context (entropy_boot counting_source 0)
      (Drbg (HmacDrbg (replicate 64 1) (replicate 64 2) 1025) false true) 40 res.
Proof.
  apply (drbg_generate_ends counting_source counting_ok stale_context); try done.
  - apply boot_usable, counting_ok.
  - split; try (split; [done|by apply Forall_replicate]); done.
Defined.

Lemma drbg_life_typed_witness :
  exists est' state', drbg_life counting_source stale_context [OpStartup (inr [7; 8]); OpGenerate [] false 16; OpShutdown]
      (entropy_boot counting_source 0, drbg_uninstantiate first_state) = Some (est', state') /\
    usable counting_source est' /\ drbg_typed state'.
Proof. apply (drbg_life_typed counting_source counting_ok stale_context); [done|]. by repeat constructor. Defined.

Lemma hmac_drbg_sp800_witness :
  exists state', hmac_drbg_generate Sha256.sha256_algorithm stale_context (HmacDrbg (replicate 64 1) (replicate 64 2) 1) [5] 40 =
    Some (state', inr (sp_generate (hmac_ref (md_hash Sha256.sha256) 64) (replicate 32 2, replicate 32 1) [5] 2 40).2).
Proof.
  destruct (@hmac_drbg_sp800 Sha256.sha256_algorithm md_ctx_ok MD_LIMIT (md_hash Sha256.sha256) sha256_digests stale_context eq_refl
    sha_limit sha_size (HmacDrbg (replicate 64 1) (replicate 64 2) 1) (replicate 32 2, replicate 32 1) [5] 40) as [(_ & state' & E & _)|[H _]].
  - split; try done; (split; [done|by apply Forall_replicate]).
  - by vm_compute.
  - done.
  - done.
  - exists state'. exact E.
  - by vm_compute in H.
Defined.
