(* ===== verification/Ethernet.v ===== *)
(** * Link layers: the interface of src/src/include/ipxe/netdevice.h and
    Ethernet, src/src/net/ethernet.c with ethernet.h and if_ether.h.

    An I/O buffer is the list of the bytes it holds; whoever allocates a
    packet reserves room for the longest link-layer header, so that one can
    be prepended.  A link-layer address is an array of at least as many bytes
    as its protocol copies.  Numbers that are kept in network byte order are
    given in host byte order. *)
From S2P Require Import Prelude Strings Printf.

Definition MAX_HW_ADDR_LEN : Z := 8.
Definition MAX_LL_ADDR_LEN : Z := 20.
Definition MAX_LL_HEADER_LEN : Z := 36.
Definition MAX_NET_ADDR_LEN : Z := 4.

Definition LL_MULTICAST : Z := 1.
Definition LL_BROADCAST : Z := 2.

(** A received packet without its link-layer header. *)
Record pulled := Pulled {
  pl_iobuf : list Z;
  pl_dest : list Z;
  pl_source : list Z;
  pl_proto : Z;
  pl_flags : Z }.

Record ll_protocol := LlProtocol {
  ll_push : list Z -> list Z -> list Z -> Z -> errno + list Z;
  ll_pull : list Z -> errno + pulled;
  ll_init_addr : list Z -> list Z -> list Z;
  ll_mc_hash : bool -> list Z -> errno + list Z;
  ll_proto : Z;
  hw_addr_len : Z;
  ll_addr_len : Z;
  ll_header_len : Z }.

(** Bytes copied over the start of an array. *)
Definition memcpy (dst src : list Z) (len : Z) : list Z := take (Z.to_nat len) src ++ drop (Z.to_nat len) dst.

(** ** Ethernet. *)
Definition ETH_ALEN : Z := 6.
Definition ETH_HLEN : Z := 14.
Definition ETH_FRAME_LEN : Z := 1514.
Definition ETH_P_IP : Z := 0x0800.
Definition ETH_P_ARP : Z := 0x0806.
Definition ARPHRD_ETHER : Z := 1.

Definition eth_broadcast : list Z := [0xff; 0xff; 0xff; 0xff; 0xff; 0xff].

Definition addr_byte (addr : list Z) (i : nat) : Z := default 0 (addr !! i).
Definition is_zero_ether_addr (addr : list Z) : bool := negb (ctrue (fold_left Z.lor (take 6 addr) 0)).
Definition is_multicast_ether_addr (addr : list Z) : bool := ctrue (Z.land (addr_byte addr 0) 0x01).
Definition is_local_ether_addr (addr : list Z) : bool := ctrue (Z.land (addr_byte addr 0) 0x02).
Definition is_broadcast_ether_addr (addr : list Z) : bool := fold_left Z.land (take 6 addr) 0xff =? 0xff.
Definition is_valid_ether_addr (addr : list Z) : bool := negb (is_multicast_ether_addr addr) && negb (is_zero_ether_addr addr).

(** [struct ethhdr] is the two addresses and the protocol. *)
Definition eth_push (iobuf ll_dest ll_source : list Z) (net_proto : Z) : errno + list Z :=
  inr (take 6 ll_dest ++ take 6 ll_source ++ be_bytes 2 net_proto ++ iobuf).

Definition eth_pull (iobuf : list Z) : errno + pulled :=
  if zlen iobuf <? ETH_HLEN then inl EINVAL else
  let h_dest := take 6 iobuf in
  let h_source := take 6 (drop 6 iobuf) in
  let h_protocol := be_val (take 2 (drop 12 iobuf)) in
  inr (Pulled (drop 14 iobuf) h_dest h_source h_protocol
    (Z.lor (if is_multicast_ether_addr h_dest then LL_MULTICAST else 0)
           (if is_broadcast_ether_addr h_dest then LL_BROADCAST else 0))).

Definition eth_init_addr (hw_addr ll_addr : list Z) : list Z := memcpy ll_addr hw_addr ETH_ALEN.

Definition eth_ntoa (ll_addr : list Z) : option (list Z) :=
  let fmt := cstr "%02x:%02x:%02x:%02x:%02x:%02x" in
  vcprintf (S (length fmt)) fmt (ArgInt <$> take 6 ll_addr).

(** Only the address family of IPv4, [inet], is known. *)
Definition eth_mc_hash (inet : bool) (net_addr : list Z) : errno + list Z :=
  if inet then
    inr [0x01; 0x00; 0x5e; Z.land (addr_byte net_addr 1) 0x7f; addr_byte net_addr 2; addr_byte net_addr 3]
  else inl ENOTSUP.

Definition eth_eth_addr (ll_addr : list Z) : list Z := take 6 ll_addr.

Definition ethernet_protocol : ll_protocol :=
  LlProtocol eth_push eth_pull eth_init_addr eth_mc_hash ARPHRD_ETHER ETH_ALEN ETH_ALEN ETH_HLEN.

(** ** Proofs. *)
Lemma eth_push_pull iobuf ll_dest ll_source net_proto : 6 <= zlen ll_dest -> 6 <= zlen ll_source -> 0 <= net_proto < 2 ^ 16 ->
  exists frame, eth_push iobuf ll_dest ll_source net_proto = inr frame /\
    eth_pull frame = inr (Pulled iobuf (take 6 ll_dest) (take 6 ll_source) net_proto
      (Z.lor (if is_multicast_ether_addr ll_dest then LL_MULTICAST else 0)
             (if is_broadcast_ether_addr ll_dest then LL_BROADCAST else 0))).
Proof.
  intros Hd Hs Hp. eexists. split; [reflexivity|]. unfold eth_pull.
  destruct ll_dest as [|d0 [|d1 [|d2 [|d3 [|d4 [|d5 dest]]]]]]; cbn [length] in Hd; try lia.
  destruct ll_source as [|s0 [|s1 [|s2 [|s3 [|s4 [|s5 source]]]]]]; cbn [length] in Hs; try lia.
  pose proof (be_bytes_length 2 net_proto) as Hl. pose proof (be_val_bytes 2 net_proto) as Hv.
  destruct (be_bytes 2 net_proto) as [|p1 [|p0 [|]]] eqn:Ep; try done. cbn [take app length]. rewrite !take_0. cbn [app].
  rewrite (proj2 (Z.ltb_ge _ _)) by (cbn [length]; unfold ETH_HLEN; lia).
  cbn [take drop]. rewrite !take_0, drop_0, Hv, Z.mod_small by (simpl; lia). unfold is_multicast_ether_addr, is_broadcast_ether_addr. cbn [take]. rewrite !take_0.
  done.
Qed.

Lemma land_le x y : 0 <= x -> 0 <= y -> 0 <= Z.land x y <= x /\ Z.land x y <= y.
Proof.
  intros Hx Hy. rewrite <- (Z2N.id x Hx), <- (Z2N.id y Hy), <- N2Z.inj_land.
  pose proof (N.land_le_l (Z.to_N x) (Z.to_N y)). pose proof (N.land_le_r (Z.to_N x) (Z.to_N y)). lia.
Qed.

Lemma land_bytes_255 l : forall x, is_byte x -> bytes_ok l -> fold_left Z.land l x = 255 <-> x = 255 /\ Forall (fun b => b = 255) l.
Proof.
  induction l as [|b l IH]; intros x Hx Hl; cbn [fold_left].
  { split; [intros ->; split; [done|constructor]|by intros [-> _]]. }
  apply Forall_cons in Hl as [Hb Hl].
  unfold is_byte in Hx, Hb. pose proof (land_le x b ltac:(lia) ltac:(lia)) as Hle.
  assert (is_byte (Z.land x b)) as Hxb by (unfold is_byte; lia).
  rewrite (IH _ Hxb Hl), Forall_cons. split.
  - intros [E HF]. assert (x = 255 /\ b = 255) as [-> ->] by lia. done.
  - intros (-> & -> & HF). done.
Qed.

(** The broadcast address is the one of six bytes 0xff. *)
Lemma broadcast_only addr : bytes_ok addr -> length addr = 6%nat -> is_broadcast_ether_addr addr = true <-> addr = eth_broadcast.
Proof.
  intros Ha Hl. unfold is_broadcast_ether_addr. rewrite take_ge by lia. rewrite Z.eqb_eq, land_bytes_255 by done. split.
  - intros [_ HF]. do 7 (destruct addr as [|? addr]; try done). by repeat (apply Forall_cons in HF as [-> HF]).
  - intros ->. split; [done|by repeat constructor].
Qed.

(** A frame to the hash of a multicast address is received as multicast. *)
Lemma mc_hash_multicast net_addr : exists ll_addr, eth_mc_hash true net_addr = inr ll_addr /\ is_multicast_ether_addr ll_addr = true.
Proof. by eexists. Qed.
