(* ===== verification/Netdev.v ===== *)
(** * Network devices: src/src/net/netdevice.c with
    src/src/include/ipxe/netdevice.h and alloc_etherdev() of ethernet.c.

    A device is an object of a store; [net_devices] and [open_net_devices]
    list the addresses of the linked ones.  A packet is the list of its
    bytes, and the one that a driver completes is given by its place in the
    transmit queue.  A driver is a set of functions that return the calls the
    driver makes to this code and its status; VLAN devices, whose methods open
    and close another device, are not among them.  The upper-layer drivers, the
    network protocols and the settings are functions on the whole state.  A
    result [None] stands for an access to an object that does not exist. *)
From S2P Require Import Prelude LinkedList Retry Strings Printf Ethernet.

(** ** Data. *)
Record net_device_error := DevError {
  er_rc : rc;
  er_count : Z }.
Record net_device_stats := DevStats {
  good : Z;
  bad : Z;
  errors : list net_device_error }.

Record net_device := NetDevice {
  nd_name : list Z;
  nd_ll : ll_protocol;
  hw_addr : list Z;
  ll_addr : list Z;
  ll_broadcast : list Z;
  nd_state : Z;
  link_rc : rc;
  max_pkt_len : Z;
  tx_queue : list (list Z);
  rx_queue : list (list Z);
  tx_stats : net_device_stats;
  rx_stats : net_device_stats }.

Definition NETDEV_OPEN : Z := 1.
Definition NETDEV_IRQ_ENABLED : Z := 2.
Definition NETDEV_RX_FROZEN : Z := 4.
Definition NETDEV_MAX_UNIQUE_ERRORS : nat := 4.

Record net_world (X : Type) := NetWorld {
  nw_store : gmap loc net_device;
  net_devices : list loc;
  open_net_devices : list loc;
  ifindex : Z;
  nw_refs : refs;
  (** the packets that were freed *)
  nw_freed : list (list Z);
  (** the drivers and the protocols *)
  nw_ext : X }.
Arguments NetWorld {X}.
Arguments nw_store {X}.
Arguments net_devices {X}.
Arguments open_net_devices {X}.
Arguments ifindex {X}.
Arguments nw_refs {X}.
Arguments nw_freed {X}.
Arguments nw_ext {X}.

(** What a driver calls, from its methods. *)
Inductive nic_call :=
| CallRx (iobuf : list Z)
| CallRxErr (iobuf : option (list Z)) (e : errno)
| CallTxComplete (i : nat) (r : rc)
| CallTxCompleteNext (r : rc)
| CallLink (r : rc)
| CallLinkDown.

Record nic (X : Type) := Nic {
  op_open : loc -> X -> X * (list nic_call * rc);
  op_close : loc -> X -> X * list nic_call;
  op_transmit : loc -> list Z -> X -> X * (list nic_call * rc);
  op_poll : loc -> X -> X * list nic_call;
  op_irq : option (loc -> bool -> X -> X) }.
Arguments op_open {X}.
Arguments op_close {X}.
Arguments op_transmit {X}.
Arguments op_poll {X}.
Arguments op_irq {X}.

Record net_driver (X : Type) := NetDriver {
  drv_probe : loc -> net_world X -> option (net_world X * rc);
  drv_notify : loc -> net_world X -> option (net_world X);
  drv_remove : loc -> net_world X -> option (net_world X) }.
Arguments drv_probe {X}.
Arguments drv_notify {X}.
Arguments drv_remove {X}.

Record net_protocol (X : Type) := NetProtocol {
  net_proto : Z;
  net_rx_method : list Z -> loc -> list Z -> list Z -> Z -> net_world X -> option (net_world X * rc) }.
Arguments net_proto {X}.
Arguments net_rx_method {X}.

Record net_env (X : Type) := NetEnv {
  netdev_op : nic X;
  net_drivers : list (net_driver X);
  net_protocols : list (net_protocol X);
  register_settings : loc -> net_world X -> option (net_world X * rc);
  (** clear_settings() and unregister_settings() *)
  drop_settings : loc -> net_world X -> option (net_world X);
  clear_settings : loc -> net_world X -> option (net_world X) }.
Arguments netdev_op {X}.
Arguments net_drivers {X}.
Arguments net_protocols {X}.
Arguments register_settings {X}.
Arguments drop_settings {X}.
Arguments clear_settings {X}.

(** ** Statistics. *)
(** The record of an error, or the least common one. *)
Fixpoint locate_error (r : rc) (l : list net_device_error) (i least : nat) (least_count : Z) : nat * bool :=
  match l with
  | [] => (least, false)
  | error :: l =>
      if decide (er_rc error = r) then (i, true)
      else if er_count error <? least_count then locate_error r l (S i) i (er_count error)
      else locate_error r l (S i) least least_count
  end.

Definition netdev_record_stat (stats : net_device_stats) (r : rc) : net_device_stats :=
  match r with
  | RC_OK => DevStats (u32 (good stats + 1)) (bad stats) (errors stats)
  | RC_ERR _ =>
      let '(i, found) := locate_error r (errors stats) 0 0 (default 0 (er_count <$> errors stats !! 0%nat)) in
      DevStats (good stats) (u32 (bad stats + 1))
        (alter (fun e => if found then DevError (er_rc e) (u32 (er_count e + 1)) else DevError r 1) i (errors stats))
  end.

(** ** Fields. *)
Definition set_tx_queue (q : list (list Z)) (d : net_device) : net_device :=
  NetDevice (nd_name d) (nd_ll d) (hw_addr d) (ll_addr d) (ll_broadcast d) (nd_state d) (link_rc d) (max_pkt_len d) q (rx_queue d)
    (tx_stats d) (rx_stats d).
Definition set_rx_queue (q : list (list Z)) (d : net_device) : net_device :=
  NetDevice (nd_name d) (nd_ll d) (hw_addr d) (ll_addr d) (ll_broadcast d) (nd_state d) (link_rc d) (max_pkt_len d) (tx_queue d) q
    (tx_stats d) (rx_stats d).
Definition record_tx (r : rc) (d : net_device) : net_device :=
  NetDevice (nd_name d) (nd_ll d) (hw_addr d) (ll_addr d) (ll_broadcast d) (nd_state d) (link_rc d) (max_pkt_len d) (tx_queue d) (rx_queue d)
    (netdev_record_stat (tx_stats d) r) (rx_stats d).
Definition record_rx (r : rc) (d : net_device) : net_device :=
  NetDevice (nd_name d) (nd_ll d) (hw_addr d) (ll_addr d) (ll_broadcast d) (nd_state d) (link_rc d) (max_pkt_len d) (tx_queue d) (rx_queue d)
    (tx_stats d) (netdev_record_stat (rx_stats d) r).
Definition set_state (s : Z) (d : net_device) : net_device :=
  NetDevice (nd_name d) (nd_ll d) (hw_addr d) (ll_addr d) (ll_broadcast d) s (link_rc d) (max_pkt_len d) (tx_queue d) (rx_queue d)
    (tx_stats d) (rx_stats d).
Definition set_link_rc (r : rc) (d : net_device) : net_device :=
  NetDevice (nd_name d) (nd_ll d) (hw_addr d) (ll_addr d) (ll_broadcast d) (nd_state d) r (max_pkt_len d) (tx_queue d) (rx_queue d)
    (tx_stats d) (rx_stats d).
Definition set_identity (name addr : list Z) (d : net_device) : net_device :=
  NetDevice name (nd_ll d) (hw_addr d) addr (ll_broadcast d) (nd_state d) (link_rc d) (max_pkt_len d) (tx_queue d) (rx_queue d)
    (tx_stats d) (rx_stats d).

Section Netdev.
Context {X : Type}.
Variable env : net_env X.
Implicit Type w : net_world X.

Definition set_store (s : gmap loc net_device) w : net_world X :=
  NetWorld s (net_devices w) (open_net_devices w) (ifindex w) (nw_refs w) (nw_freed w) (nw_ext w).
Definition set_lists (l o : list loc) w : net_world X :=
  NetWorld (nw_store w) l o (ifindex w) (nw_refs w) (nw_freed w) (nw_ext w).
Definition set_ifindex (i : Z) w : net_world X :=
  NetWorld (nw_store w) (net_devices w) (open_net_devices w) i (nw_refs w) (nw_freed w) (nw_ext w).
Definition set_refs (r : refs) w : net_world X :=
  NetWorld (nw_store w) (net_devices w) (open_net_devices w) (ifindex w) r (nw_freed w) (nw_ext w).
Definition set_ext (x : X) w : net_world X :=
  NetWorld (nw_store w) (net_devices w) (open_net_devices w) (ifindex w) (nw_refs w) (nw_freed w) x.
Definition free_iob (iobuf : list Z) w : net_world X :=
  NetWorld (nw_store w) (net_devices w) (open_net_devices w) (ifindex w) (nw_refs w) (nw_freed w ++ [iobuf]) (nw_ext w).

Definition with_dev (p : loc) (f : net_device -> net_device) w : option (net_world X) :=
  d ← nw_store w !! p;
  Some (set_store (<[p := f d]> (nw_store w)) w).

Definition netdev_is_open (d : net_device) : bool := ctrue (Z.land (nd_state d) NETDEV_OPEN).
Definition netdev_rx_frozen (d : net_device) : bool := ctrue (Z.land (nd_state d) NETDEV_RX_FROZEN).
Definition netdev_irq_enabled (d : net_device) : bool := ctrue (Z.land (nd_state d) NETDEV_IRQ_ENABLED).
Definition netdev_link_ok (d : net_device) : bool := bool_decide (link_rc d = RC_OK).

Definition netdev_rx_freeze (p : loc) w : option (net_world X) := with_dev p (fun d => set_state (Z.lor (nd_state d) NETDEV_RX_FROZEN) d) w.
Definition netdev_rx_unfreeze (p : loc) w : option (net_world X) :=
  with_dev p (fun d => set_state (Z.land (nd_state d) (u32 (Z.lnot NETDEV_RX_FROZEN))) d) w.

Definition netdev_has_ll_addr (d : net_device) : bool := existsb (fun b => negb (b =? 0)) (ll_addr d).

Fixpoint notify_loop (l : list (net_driver X)) (p : loc) w : option (net_world X) :=
  match l with
  | [] => Some w
  | driver :: l => w ← drv_notify driver p w; notify_loop l p w
  end.
Definition netdev_notify (p : loc) w : option (net_world X) := notify_loop (net_drivers env) p w.

Definition netdev_link_err (p : loc) (r : rc) w : option (net_world X) :=
  w ← with_dev p (set_link_rc r) w;
  netdev_notify p w.

Definition netdev_link_down (p : loc) w : option (net_world X) :=
  d ← nw_store w !! p;
  if bool_decide (link_rc d = RC_OK) || bool_decide (link_rc d = RC_ERR EUNKNOWN_LINK_STATUS)
  then netdev_link_err p (RC_ERR ENOTCONN_LINK_DOWN) w else Some w.

(** ** Transmission. *)
Definition netdev_tx_err (p : loc) (iobuf : list Z) (r : rc) w : option (net_world X) :=
  w ← with_dev p (record_tx r) w;
  Some (free_iob iobuf w).

(** The packet at place [i] of the transmit queue. *)
Definition netdev_tx_complete_err (p : loc) (i : nat) (r : rc) w : option (net_world X) :=
  d ← nw_store w !! p;
  iobuf ← tx_queue d !! i;
  w ← with_dev p (set_tx_queue (delete i (tx_queue d))) w;
  netdev_tx_err p iobuf r w.

Definition netdev_tx_complete_next_err (p : loc) (r : rc) w : option (net_world X) :=
  d ← nw_store w !! p;
  match tx_queue d with
  | [] => Some w
  | _ :: _ => netdev_tx_complete_err p 0 r w
  end.

Fixpoint tx_flush_loop (fuel : nat) (p : loc) w : option (net_world X) :=
  d ← nw_store w !! p;
  match tx_queue d with
  | [] => Some w
  | _ :: _ =>
      match fuel with
      | O => None
      | S fuel => w ← netdev_tx_complete_next_err p (RC_ERR ECANCELED) w; tx_flush_loop fuel p w
      end
  end.
Definition netdev_tx_flush (p : loc) w : option (net_world X) :=
  d ← nw_store w !! p;
  tx_flush_loop (length (tx_queue d)) p w.

(** ** Reception.  NETDEV_DISCARD_RATE is zero. *)
Definition netdev_rx (p : loc) (iobuf : list Z) w : option (net_world X) :=
  d ← nw_store w !! p;
  w ← with_dev p (set_rx_queue (rx_queue d ++ [iobuf])) w;
  with_dev p (record_rx RC_OK) w.

Definition netdev_rx_err (p : loc) (iobuf : option (list Z)) (r : rc) w : option (net_world X) :=
  let w := match iobuf with Some b => free_iob b w | None => w end in
  with_dev p (record_rx r) w.

Definition netdev_rx_dequeue (p : loc) w : option (net_world X * option (list Z)) :=
  d ← nw_store w !! p;
  match rx_queue d with
  | [] => Some (w, None)
  | iobuf :: q => w ← with_dev p (set_rx_queue q) w; Some (w, Some iobuf)
  end.

Fixpoint rx_flush_loop (fuel : nat) (p : loc) w : option (net_world X) :=
  '(w, iobuf) ← netdev_rx_dequeue p w;
  match iobuf with
  | None => Some w
  | Some b =>
      match fuel with
      | O => None
      | S fuel => w ← netdev_rx_err p (Some b) (RC_ERR ECANCELED) w; rx_flush_loop fuel p w
      end
  end.
Definition netdev_rx_flush (p : loc) w : option (net_world X) :=
  d ← nw_store w !! p;
  rx_flush_loop (length (rx_queue d)) p w.

(** ** Calls of the driver. *)
Definition nic_run (p : loc) (c : nic_call) w : option (net_world X) :=
  match c with
  | CallRx iobuf => netdev_rx p iobuf w
  | CallRxErr iobuf e => netdev_rx_err p iobuf (RC_ERR e) w
  | CallTxComplete i r => netdev_tx_complete_err p i r w
  | CallTxCompleteNext r => netdev_tx_complete_next_err p r w
  | CallLink r => netdev_link_err p r w
  | CallLinkDown => netdev_link_down p w
  end.
Fixpoint nic_runs (p : loc) (l : list nic_call) w : option (net_world X) :=
  match l with
  | [] => Some w
  | c :: l => w ← nic_run p c w; nic_runs p l w
  end.

Definition netdev_tx (p : loc) (iobuf : list Z) w : option (net_world X * rc) :=
  d ← nw_store w !! p;
  let i := length (tx_queue d) in
  w ← with_dev p (set_tx_queue (tx_queue d ++ [iobuf])) w;
  if negb (netdev_is_open d) then
    w ← netdev_tx_complete_err p i (RC_ERR ENETUNREACH) w;
    Some (w, RC_ERR ENETUNREACH)
  else
    let '(x, (calls, r)) := op_transmit (netdev_op env) p iobuf (nw_ext w) in
    w ← nic_runs p calls (set_ext x w);
    match r with
    | RC_OK => Some (w, RC_OK)
    | RC_ERR e =>
        (** the packet is still the last one: the driver has not completed it *)
        d ← nw_store w !! p;
        w ← netdev_tx_complete_err p (length (tx_queue d) - 1) r w;
        Some (w, r)
    end.

Definition netdev_poll (p : loc) w : option (net_world X) :=
  d ← nw_store w !! p;
  if netdev_is_open d then
    let '(x, calls) := op_poll (netdev_op env) p (nw_ext w) in
    nic_runs p calls (set_ext x w)
  else Some w.

(** ** Opening and closing. *)
Definition netdev_open (p : loc) w : option (net_world X * rc) :=
  d ← nw_store w !! p;
  if netdev_is_open d then Some (w, RC_OK) else
  let '(x, (calls, r)) := op_open (netdev_op env) p (nw_ext w) in
  w ← nic_runs p calls (set_ext x w);
  match r with
  | RC_ERR e => Some (w, r)
  | RC_OK =>
      w ← with_dev p (fun d => set_state (Z.lor (nd_state d) NETDEV_OPEN) d) w;
      let w := set_lists (net_devices w) (p :: open_net_devices w) w in
      w ← netdev_notify p w;
      Some (w, RC_OK)
  end.

Definition netdev_close (p : loc) w : option (net_world X) :=
  d ← nw_store w !! p;
  if negb (netdev_is_open d) then Some w else
  let w := set_lists (net_devices w) (unlink p (open_net_devices w)) w in
  w ← with_dev p (fun d => set_state (Z.land (nd_state d) (u32 (Z.lnot NETDEV_OPEN))) d) w;
  w ← netdev_notify p w;
  let '(x, calls) := op_close (netdev_op env) p (nw_ext w) in
  w ← nic_runs p calls (set_ext x w);
  w ← netdev_tx_flush p w;
  netdev_rx_flush p w.

Definition netdev_irq (p : loc) (enable : bool) w : option (net_world X) :=
  match op_irq (netdev_op env) with
  | None => Some w
  | Some irq =>
      let w := set_ext (irq p enable (nw_ext w)) w in
      with_dev p (fun d =>
        let s := Z.land (nd_state d) (u32 (Z.lnot NETDEV_IRQ_ENABLED)) in
        set_state (if enable then Z.lor s NETDEV_IRQ_ENABLED else s) d) w
  end.

(** ** Allocation and registration. *)
Definition no_stats : net_device_stats := DevStats 0 0 (replicate NETDEV_MAX_UNIQUE_ERRORS (DevError RC_OK 0)).

(** [p] is what zalloc() returns. *)
Definition alloc_netdev (p : option loc) (ll : ll_protocol) (broadcast : list Z) (pkt_len : Z) w : net_world X * option loc :=
  match p with
  | None => (w, None)
  | Some p =>
      (set_refs (Refs (<[p := 0]> (count (nw_refs w))) (freed (nw_refs w)))
        (set_store (<[p := NetDevice [] ll (replicate (Z.to_nat MAX_HW_ADDR_LEN) 0) (replicate (Z.to_nat MAX_LL_ADDR_LEN) 0) broadcast 0
           (RC_ERR EUNKNOWN_LINK_STATUS) pkt_len [] [] no_stats no_stats]> (nw_store w)) w), Some p)
  end.
Definition alloc_etherdev (p : option loc) w : net_world X * option loc :=
  alloc_netdev p ethernet_protocol eth_broadcast ETH_FRAME_LEN w.

Definition free_netdev (p : loc) w : option (net_world X) :=
  w ← netdev_tx_flush p w;
  w ← netdev_rx_flush p w;
  w ← clear_settings env p w;
  Some (set_store (delete p (nw_store w)) w).

Definition netdev_get (p : loc) w : net_world X := set_refs (ref_get (Some p) (nw_refs w)) w.
(** A device whose last reference is dropped is freed. *)
Definition netdev_put (p : loc) w : option (net_world X) :=
  let r := ref_put (Some p) (nw_refs w) in
  let w' := set_refs r w in
  if decide (length (freed r) = length (freed (nw_refs w))) then Some w' else free_netdev p w'.

(** The drivers before the one that failed, in reverse. *)
Fixpoint probe_loop (done l : list (net_driver X)) (p : loc) w : option (net_world X * rc) :=
  match l with
  | [] => Some (w, RC_OK)
  | driver :: l =>
      '(w, r) ← drv_probe driver p w;
      match r with
      | RC_OK => probe_loop (driver :: done) l p w
      | RC_ERR e =>
          w ← fold_left (fun ow driver => w ← ow; drv_remove driver p w) done (Some w);
          w ← drop_settings env p w;
          Some (w, r)
      end
  end.

Definition register_netdev (p : loc) w : option (net_world X * rc) :=
  d ← nw_store w !! p;
  '(w, name) ←
    (match nd_name d with
     | [] => text ← vcprintf 6 (cstr "net%d") [ArgInt (ifindex w)]; Some (set_ifindex (u32 (ifindex w + 1)) w, take 11 text)
     | name => Some (w, name)
     end);
  let addr := if netdev_has_ll_addr d then ll_addr d else ll_init_addr (nd_ll d) (hw_addr d) (ll_addr d) in
  w ← with_dev p (set_identity name addr) w;
  let w := netdev_get p w in
  let w := set_lists (net_devices w ++ [p]) (open_net_devices w) w in
  '(w, r) ← register_settings env p w;
  match r with
  | RC_ERR e => Some (w, r)
  | RC_OK => probe_loop [] (net_drivers env) p w
  end.

Definition unregister_netdev (p : loc) w : option (net_world X) :=
  w ← netdev_close p w;
  w ← fold_left (fun ow driver => w ← ow; drv_remove driver p w) (rev (net_drivers env)) (Some w);
  w ← drop_settings env p w;
  let w := set_lists (unlink p (net_devices w)) (open_net_devices w) w in
  netdev_put p w.

Definition find_netdev (name : list Z) w : option loc :=
  snd <$> list_find (fun p => (nd_name <$> nw_store w !! p) = Some name) (net_devices w).

Definition last_opened_netdev w : option loc := head (open_net_devices w).

(** ** The network layer. *)
Definition net_tx (iobuf : list Z) (p : loc) (proto : Z) (ll_dest ll_source : list Z) w : option (net_world X * rc) :=
  d ← nw_store w !! p;
  match ll_push (nd_ll d) iobuf ll_dest ll_source proto with
  | inl e => w ← netdev_tx_err p iobuf (RC_ERR e) w; Some (w, RC_ERR e)
  | inr frame => netdev_tx p frame w
  end.

Definition net_rx (iobuf : list Z) (p : loc) (proto : Z) (ll_dest ll_source : list Z) (flags : Z) w : option (net_world X * rc) :=
  match list_find (fun np => net_proto np = proto) (net_protocols env) with
  | Some (_, np) => net_rx_method np iobuf p ll_dest ll_source flags w
  | None => Some (free_iob iobuf w, RC_ERR ENOTSUP)
  end.

(** One received packet. *)
Definition process_packet (p : loc) (iobuf : list Z) w : option (net_world X) :=
  d ← nw_store w !! p;
  match ll_pull (nd_ll d) iobuf with
  | inl _ => Some (free_iob iobuf w)
  | inr pl =>
      '(w, r) ← net_rx (pl_iobuf pl) p (pl_proto pl) (pl_dest pl) (pl_source pl) (pl_flags pl) w;
      match r with
      | RC_OK => Some w
      | RC_ERR e => netdev_rx_err p None r w
      end
  end.

Fixpoint process_queue (fuel : nat) (p : loc) w : option (net_world X) :=
  '(w, iobuf) ← netdev_rx_dequeue p w;
  match iobuf with
  | None => Some w
  | Some b =>
      match fuel with
      | O => None
      | S fuel => w ← process_packet p b w; process_queue fuel p w
      end
  end.

(** [fuel] bounds the packets that are processed for one device. *)
Definition poll_device (fuel : nat) (p : loc) w : option (net_world X) :=
  w ← netdev_poll p w;
  d ← nw_store w !! p;
  if netdev_rx_frozen d then Some w else process_queue fuel p w.

Fixpoint poll_devices (fuel : nat) (l : list loc) w : option (net_world X) :=
  match l with
  | [] => Some w
  | p :: l => w ← poll_device fuel p w; poll_devices fuel l w
  end.
Definition net_poll (fuel : nat) w : option (net_world X) := poll_devices fuel (net_devices w) w.
End Netdev.

(** ** Which devices are open. *)
Section Opens.
Context {X : Type}.
Implicit Types (w : net_world X) (p q : loc).

Definition open_flag w q : option bool := netdev_is_open <$> nw_store w !! q.

(** The same devices are listed, open and in the list of open ones. *)
Record same_opens w w' : Prop := {
  so_open : open_net_devices w' = open_net_devices w;
  so_devices : net_devices w' = net_devices w;
  so_flags q : open_flag w' q = open_flag w q }.

#[global] Instance same_opens_preorder : PreOrder same_opens.
Proof. split; [done|]. intros w1 w2 w3 [E1 E2 E3] [F1 F2 F3]. split; [congruence..|intros q; by rewrite F3]. Qed.

Lemma with_dev_same p f w w' : (forall d, nd_state (f d) = nd_state d) -> with_dev p f w = Some w' -> same_opens w w'.
Proof.
  intros Hf E. apply bind_Some in E as (d & Ed & [= <-]). split; [done|done|]. intros q. unfold open_flag. cbn.
  destruct (decide (q = p)) as [-> |Hne]; [|by rewrite lookup_insert_ne].
  rewrite lookup_insert_eq, Ed. cbn. unfold netdev_is_open. by rewrite Hf.
Qed.

Lemma set_ext_same x w : same_opens w (set_ext x w).
Proof. by split. Qed.
Lemma free_iob_same b w : same_opens w (free_iob b w).
Proof. by split. Qed.

(** What an upper-layer driver may do when it is notified of a device: neither
    open nor close devices, which only that of VLAN devices does.  It does not
    fail for a device that exists. *)
Class QuietDrivers (env : net_env X) : Prop := {
  quiet_notify driver p w w' : driver ∈ net_drivers env -> drv_notify driver p w = Some w' -> same_opens w w';
  quiet_total driver p w : driver ∈ net_drivers env -> is_Some (nw_store w !! p) -> is_Some (drv_notify driver p w) }.

(** A driver completes only packets that are in the queue. *)
Class SoundNic (env : net_env X) : Prop := {
  sound_open p w : is_Some (nw_store w !! p) ->
    let '(x, (calls, _)) := op_open (netdev_op env) p (nw_ext w) in is_Some (nic_runs env p calls (set_ext x w));
  sound_close p w : is_Some (nw_store w !! p) ->
    let '(x, calls) := op_close (netdev_op env) p (nw_ext w) in is_Some (nic_runs env p calls (set_ext x w)) }.
End Opens.

(** Peels the binds of a hypothesis. *)
Ltac peel H :=
  repeat match type of H with
  | _ ≫= _ = Some _ => let x := fresh "x" in let E := fresh "E" in apply bind_Some in H as (x & E & H)
  | (let '(_, _) := ?p in _) = Some _ => destruct p
  | Some _ = Some _ => apply Some_inj in H
  end.

Section OpenProofs.
Context {X : Type} (env : net_env X) `{HQ : !QuietDrivers env}.
Implicit Types (w : net_world X) (p q : loc).

Lemma notify_same p w w' : netdev_notify env p w = Some w' -> same_opens w w'.
Proof.
  unfold netdev_notify. assert (forall l, l ⊆ net_drivers env -> forall w, notify_loop l p w = Some w' -> same_opens w w') as Hl; [|by apply Hl].
  induction l as [|driver l IH]; intros Hin v E; cbn [notify_loop] in E; [by injection E as ->|].
  peel E. transitivity x; [apply (quiet_notify driver p); [apply Hin; by left|done]|]. apply IH; [|done]. intros y Hy. apply Hin. by right.
Qed.

Lemma link_err_same p r w w' : netdev_link_err env p r w = Some w' -> same_opens w w'.
Proof. intros E. unfold netdev_link_err in E. peel E. transitivity x; [by apply (with_dev_same p (set_link_rc r))|by apply (notify_same p)]. Qed.

Lemma tx_err_same p b r w w' : netdev_tx_err p b r w = Some w' -> same_opens w w'.
Proof. intros E. unfold netdev_tx_err in E. peel E. subst w'. transitivity x; [by apply (with_dev_same p (record_tx r))|apply free_iob_same]. Qed.

Lemma complete_same p i r w w' : netdev_tx_complete_err p i r w = Some w' -> same_opens w w'.
Proof.
  intros E. unfold netdev_tx_complete_err in E. peel E.
  transitivity x1; [by apply (with_dev_same p (set_tx_queue (delete i (tx_queue x))))|by apply (tx_err_same p x0 r)].
Qed.
Lemma complete_next_same p r w w' : netdev_tx_complete_next_err p r w = Some w' -> same_opens w w'.
Proof. intros E. unfold netdev_tx_complete_next_err in E. peel E. destruct (tx_queue x); [by injection E as ->|by apply (complete_same p 0 r)]. Qed.

Lemma netdev_rx_same p b w w' : netdev_rx p b w = Some w' -> same_opens w w'.
Proof.
  intros E. unfold netdev_rx in E. peel E.
  transitivity x0; [by apply (with_dev_same p (set_rx_queue (rx_queue x ++ [b])))|by apply (with_dev_same p (record_rx RC_OK))].
Qed.
Lemma netdev_rx_err_same p b r w w' : netdev_rx_err p b r w = Some w' -> same_opens w w'.
Proof.
  intros E. unfold netdev_rx_err in E. apply with_dev_same in E; [|done]. destruct b as [b|]; [|done].
  transitivity (free_iob b w); [apply free_iob_same|done].
Qed.
Lemma dequeue_same p w w' b : netdev_rx_dequeue p w = Some (w', b) -> same_opens w w'.
Proof.
  intros E. unfold netdev_rx_dequeue in E. peel E. destruct (rx_queue x) as [|c q]; peel E; [by injection E as -> _|].
  injection E as -> _. by apply (with_dev_same p (set_rx_queue q)).
Qed.

Lemma nic_runs_same p l : forall w w', nic_runs env p l w = Some w' -> same_opens w w'.
Proof.
  induction l as [|c l IH]; intros w w' E; cbn [nic_runs] in E; [by injection E as ->|]. peel E.
  transitivity x; [|by apply IH]. destruct c; cbn [nic_run] in E0.
  - by eapply netdev_rx_same. - by eapply netdev_rx_err_same. - by eapply complete_same. - by eapply complete_next_same.
  - by eapply link_err_same.
  - unfold netdev_link_down in E0. peel E0. destruct (_ || _); [by eapply link_err_same|by injection E0 as ->].
Qed.

Lemma tx_flush_same p fuel : forall w w', tx_flush_loop fuel p w = Some w' -> same_opens w w'.
Proof.
  induction fuel as [|fuel IH]; intros w w' E; cbn [tx_flush_loop] in E; peel E; destruct (tx_queue x); try done; try (by injection E as ->).
  peel E. transitivity x0; [by eapply complete_next_same|by apply IH].
Qed.
Lemma rx_flush_same p fuel : forall w w', rx_flush_loop fuel p w = Some w' -> same_opens w w'.
Proof.
  induction fuel as [|fuel IH]; intros w w' E; cbn [rx_flush_loop] in E; peel E; destruct o; try done; apply dequeue_same in E0; try (injection E as ->; done).
  peel E. transitivity n; [done|]. transitivity x; [by eapply netdev_rx_err_same|by apply IH].
Qed.

Lemma opens_exist w w' q : same_opens w w' -> is_Some (nw_store w !! q) -> is_Some (nw_store w' !! q).
Proof. intros H [d Ed]. pose proof (so_flags _ _ H q) as E. unfold open_flag in E. rewrite Ed in E. by destruct (nw_store w' !! q). Qed.

Lemma notify_total p w : is_Some (nw_store w !! p) -> exists w', netdev_notify env p w = Some w' /\ same_opens w w'.
Proof.
  intros Hp. assert (exists w', netdev_notify env p w = Some w') as [w' E]; [|exists w'; split; [done|by apply notify_same in E]].
  unfold netdev_notify. assert (forall l, l ⊆ net_drivers env -> forall w, is_Some (nw_store w !! p) -> exists w', notify_loop l p w = Some w') as Hl; [|by apply Hl].
  induction l as [|driver l IH]; intros Hin v Hv; [by eexists|]. cbn [notify_loop].
  destruct (quiet_total driver p v ltac:(apply Hin; by left) Hv) as [v' E]. rewrite E. cbn [mbind option_bind]. apply IH; [intros y Hy; apply Hin; by right|].
  apply (opens_exist v); [|done]. apply (quiet_notify driver p); [apply Hin; by left|done].
Qed.

(** The flag and the list of open devices agree. *)
Definition opens_ok w : Prop := NoDup (open_net_devices w) /\ forall q, q ∈ open_net_devices w <-> open_flag w q = Some true.

Lemma same_opens_ok w w' : same_opens w w' -> opens_ok w -> opens_ok w'.
Proof. intros [E1 _ E3] [Hn Hf]. unfold opens_ok. rewrite E1. split; [done|]. intros q. by rewrite E3, Hf. Qed.

Lemma tx_flush_run p : forall n w d, length (tx_queue d) = n -> nw_store w !! p = Some d ->
  exists w' d', tx_flush_loop n p w = Some w' /\ nw_freed w' = nw_freed w ++ tx_queue d /\
    nw_store w' !! p = Some d' /\ tx_queue d' = [] /\ rx_queue d' = rx_queue d.
Proof.
  induction n as [|n IH]; intros w d Hn Hd; cbn [tx_flush_loop]; rewrite Hd; cbn [mbind option_bind].
  { destruct (tx_queue d) eqn:Eq; [|done]. exists w, d. by rewrite app_nil_r. }
  destruct (tx_queue d) as [|b q] eqn:Eq; [done|]. injection Hn as Hn.
  unfold netdev_tx_complete_next_err, netdev_tx_complete_err, netdev_tx_err, with_dev.
  rewrite Hd. cbn [mbind option_bind]. rewrite Eq. cbn. rewrite lookup_insert_eq. cbn.
  destruct (IH (free_iob b (set_store (<[p:=record_tx (RC_ERR ECANCELED) (set_tx_queue q d)]> (<[p:=set_tx_queue q d]> (nw_store w)))
    (set_store (<[p:=set_tx_queue q d]> (nw_store w)) w))) (record_tx (RC_ERR ECANCELED) (set_tx_queue q d))) as (w' & d' & E & Hf & Hd' & Ht & Hr);
    [done|cbn; by rewrite lookup_insert_eq|].
  exists w', d'. split; [exact E|]. cbn in Hf, Hr. rewrite Hf, <- app_assoc. done.
Qed.

Lemma rx_flush_run p : forall n w d, length (rx_queue d) = n -> nw_store w !! p = Some d ->
  exists w' d', rx_flush_loop n p w = Some w' /\ nw_freed w' = nw_freed w ++ rx_queue d /\
    nw_store w' !! p = Some d' /\ rx_queue d' = [] /\ tx_queue d' = tx_queue d.
Proof.
  induction n as [|n IH]; intros w d Hn Hd; cbn [rx_flush_loop]; unfold netdev_rx_dequeue at 1; rewrite Hd; cbn [mbind option_bind].
  { destruct (rx_queue d) eqn:Eq; [|done]. exists w, d. by rewrite app_nil_r. }
  destruct (rx_queue d) as [|b q] eqn:Eq; [done|]. injection Hn as Hn.
  unfold netdev_rx_err, with_dev. rewrite Hd. cbn. rewrite lookup_insert_eq. cbn.
  edestruct (IH (set_store (<[p:=record_rx (RC_ERR ECANCELED) (set_rx_queue q d)]> (<[p:=set_rx_queue q d]> (nw_store w)))
    (free_iob b (set_store (<[p:=set_rx_queue q d]> (nw_store w)) w))) (record_rx (RC_ERR ECANCELED) (set_rx_queue q d))) as (w' & d' & E & Hf & Hd' & Ht & Hr);
    [done|cbn; by rewrite lookup_insert_eq|].
  exists w', d'. split; [exact E|]. cbn in Hf, Hr. rewrite Hf, <- app_assoc. done.
Qed.

Lemma open_bit_set s : ctrue (Z.land (Z.lor s NETDEV_OPEN) NETDEV_OPEN) = true.
Proof.
  unfold NETDEV_OPEN. rewrite Z.land_lor_distr_l. change (Z.land 1 1) with 1. unfold ctrue.
  destruct (Z.eqb_spec (Z.lor (Z.land s 1) 1) 0) as [E|]; [|done]. by apply Z.lor_eq_0_iff in E as [_ ?].
Qed.
Lemma open_bit_clear s : ctrue (Z.land (Z.land s (u32 (Z.lnot NETDEV_OPEN))) NETDEV_OPEN) = false.
Proof. rewrite <- Z.land_assoc. change (Z.land (u32 (Z.lnot NETDEV_OPEN)) NETDEV_OPEN) with 0. by rewrite Z.land_0_r. Qed.

(** The state bit of one device and the list are changed together. *)
Lemma set_open_ok p w d : opens_ok w -> nw_store w !! p = Some d -> netdev_is_open d = false ->
  opens_ok (set_lists (net_devices w) (p :: open_net_devices w)
    (set_store (<[p := set_state (Z.lor (nd_state d) NETDEV_OPEN) d]> (nw_store w)) w)).
Proof.
  intros [Hn Hf] Hd Hc. assert (p ∉ open_net_devices w) as Hp.
  { rewrite Hf. unfold open_flag. rewrite Hd. cbn. by rewrite Hc. }
  split; cbn; [by apply NoDup_cons|]. intros q. rewrite elem_of_cons, Hf. unfold open_flag. cbn.
  destruct (decide (q = p)) as [-> |Hne].
  - rewrite lookup_insert_eq. cbn. unfold netdev_is_open at 2. cbn. rewrite open_bit_set. split; [done|by left].
  - rewrite lookup_insert_ne by done. split; [by intros [?|?]|by right].
Qed.

Lemma set_closed_ok p w d : opens_ok w -> nw_store w !! p = Some d ->
  opens_ok (set_store (<[p := set_state (Z.land (nd_state d) (u32 (Z.lnot NETDEV_OPEN))) d]> (nw_store w))
    (set_lists (net_devices w) (unlink p (open_net_devices w)) w)).
Proof.
  intros [Hn Hf] Hd. split; cbn; [by apply unlink_nodup|]. intros q. rewrite unlink_elem, Hf. unfold open_flag. cbn.
  destruct (decide (q = p)) as [-> |Hne].
  - rewrite lookup_insert_eq. cbn. unfold netdev_is_open at 2. cbn. rewrite open_bit_clear. split; [by intros [? _]|done].
  - rewrite lookup_insert_ne by done. split; [by intros [_ ?]|done].
Qed.

(** No device goes away. *)
Definition keeps w w' : Prop := forall q, is_Some (nw_store w !! q) -> is_Some (nw_store w' !! q).

Lemma keeps_same w w' : same_opens w w' -> keeps w w'.
Proof. intros H q. by apply opens_exist. Qed.
Lemma keeps_insert w p d l1 l2 : keeps w (set_lists l1 l2 (set_store (<[p := d]> (nw_store w)) w)).
Proof. intros q Hq. cbn. destruct (decide (q = p)) as [-> |]; [rewrite lookup_insert_eq; by eexists|by rewrite lookup_insert_ne]. Qed.

Lemma open_run p w `{!SoundNic env} : opens_ok w -> is_Some (nw_store w !! p) ->
  exists w' r, netdev_open env p w = Some (w', r) /\ opens_ok w' /\ keeps w w' /\
    open_net_devices w' = if bool_decide (open_flag w p = Some true) || bool_decide (r <> RC_OK) then open_net_devices w else p :: open_net_devices w.
Proof.
  intros Hok Hp. pose proof Hp as [d Hd]. unfold netdev_open. rewrite Hd. cbn [mbind option_bind].
  unfold open_flag. rewrite Hd. cbn [fmap option_fmap option_map]. destruct (netdev_is_open d) eqn:Eo; [eexists _, _; split; [done|]; split; [done|]; by split; [intros q|]|].
  rewrite bool_decide_eq_false_2 by done. cbn [orb].
  pose proof (sound_open p w Hp) as Hs. destruct (op_open (netdev_op env) p (nw_ext w)) as [x [calls r]].
  destruct Hs as [w1 E1]. rewrite E1. cbn [mbind option_bind]. apply nic_runs_same in E1.
  assert (same_opens w w1) as H1 by (transitivity (set_ext x w); [apply set_ext_same|done]).
  pose proof (same_opens_ok _ _ H1 Hok) as Hok1. destruct r as [|e].
  2: { exists w1, (RC_ERR e). split; [done|]. split; [done|]. split; [by apply keeps_same|]. rewrite bool_decide_eq_true_2 by done. apply (so_open _ _ H1). }
  destruct (opens_exist _ _ p H1 Hp) as [d1 Hd1]. unfold with_dev. rewrite Hd1. cbn [mbind option_bind].
  assert (netdev_is_open d1 = false) as Ho1.
  { pose proof (so_flags _ _ H1 p) as E. unfold open_flag in E. rewrite Hd, Hd1 in E. cbn in E. congruence. }
  pose proof (set_open_ok p w1 d1 Hok1 Hd1 Ho1) as Hok2.
  cbn [net_devices open_net_devices set_store]. set (w2 := set_lists _ _ _) in *. destruct (notify_total p w2) as (w3 & E3 & H3).
  { subst w2. cbn. rewrite lookup_insert_eq. by eexists. }
  rewrite E3. cbn [mbind option_bind].
  exists w3, RC_OK. split; [done|]. split; [by apply (same_opens_ok w2)|]. split.
  { intros q Hq. apply (keeps_same w2 w3 H3), keeps_insert, (keeps_same w w1 H1), Hq. }
  rewrite (so_open _ _ H3).
  rewrite bool_decide_eq_false_2 by (intros H; by apply H). cbn. by rewrite (so_open _ _ H1).
Qed.

Lemma close_run p w `{!SoundNic env} : opens_ok w -> is_Some (nw_store w !! p) ->
  exists w' d', netdev_close env p w = Some w' /\ opens_ok w' /\ keeps w w' /\ open_net_devices w' = unlink p (open_net_devices w) /\
    nw_store w' !! p = Some d' /\ netdev_is_open d' = false /\ (open_flag w p = Some true -> tx_queue d' = [] /\ rx_queue d' = []).
Proof.
  intros Hok Hp. pose proof Hp as [d Hd]. unfold netdev_close. rewrite Hd. cbn [mbind option_bind]. destruct (netdev_is_open d) eqn:Eo; cbn [negb].
  2: { exists w, d. split; [done|]. split; [done|]. split; [by intros q|]. split; [|split; [done|split; [done|unfold open_flag; rewrite Hd; cbn; by rewrite Eo]]].
       rewrite unlink_absent; [done|]. destruct Hok as [_ Hf]. rewrite Hf. unfold open_flag. rewrite Hd. cbn. by rewrite Eo. }
  pose proof (set_closed_ok p w d Hok Hd) as Hok1. unfold with_dev at 1. cbn [nw_store set_lists]. rewrite Hd. cbn [mbind option_bind].
  set (w1 := set_store _ _) in *.
  destruct (notify_total p w1) as (w2 & E2 & H2). { subst w1. cbn. rewrite lookup_insert_eq. by eexists. }
  rewrite E2. cbn [mbind option_bind].
  assert (is_Some (nw_store w2 !! p)) as Hp2. { apply (opens_exist w1); [done|]. subst w1. cbn. rewrite lookup_insert_eq. by eexists. }
  pose proof (sound_close p w2 Hp2) as Hs. destruct (op_close (netdev_op env) p (nw_ext w2)) as [x calls].
  destruct Hs as [w3 E3]. rewrite E3. cbn [mbind option_bind]. apply nic_runs_same in E3.
  assert (same_opens w1 w3) as H3 by (transitivity w2; [done|]; transitivity (set_ext x w2); [apply set_ext_same|done]).
  destruct (opens_exist _ _ p E3) as [d3 Hd3]; [by cbn|].
  unfold netdev_tx_flush. rewrite Hd3. cbn [mbind option_bind].
  destruct (tx_flush_run p _ w3 d3 eq_refl Hd3) as (w4 & d4 & E4 & _ & Hd4 & Ht4 & Hr4). rewrite E4. cbn [mbind option_bind]. apply tx_flush_same in E4.
  unfold netdev_rx_flush. rewrite Hd4. cbn [mbind option_bind].
  destruct (rx_flush_run p _ w4 d4 eq_refl Hd4) as (w5 & d5 & E5 & _ & Hd5 & Hr5 & Ht5). rewrite E5. apply rx_flush_same in E5.
  assert (same_opens w1 w5) as H5 by (transitivity w3; [done|]; by transitivity w4).
  exists w5, d5. split; [done|]. split; [by apply (same_opens_ok w1)|].
  split; [intros q Hq; apply (keeps_same w1 w5 H5); by apply (keeps_insert w p)|]. split; [by rewrite (so_open _ _ H5)|]. split; [done|].
  split; [|intros _; by rewrite Ht5, Ht4].
  pose proof (so_flags _ _ H5 p) as E. unfold open_flag in E. rewrite Hd5 in E. subst w1. cbn in E. rewrite lookup_insert_eq in E. cbn in E.
  injection E as ->. unfold netdev_is_open. cbn. apply open_bit_clear.
Qed.

(** ** Opening and closing in any order. *)
Inductive dev_op :=
| DevOpen (p : loc)
| DevClose (p : loc).
Definition op_dev (o : dev_op) : loc := match o with DevOpen p | DevClose p => p end.

Fixpoint dev_ops (l : list dev_op) w : option (net_world X * list rc) :=
  match l with
  | [] => Some (w, [])
  | DevOpen p :: l => '(w, r) ← netdev_open env p w; '(w, rs) ← dev_ops l w; Some (w, r :: rs)
  | DevClose p :: l => w ← netdev_close env p w; '(w, rs) ← dev_ops l w; Some (w, RC_OK :: rs)
  end.

(** The devices that are open, the most recently opened one first. *)
Fixpoint opened (l : list dev_op) (rs : list rc) (open : list loc) : list loc :=
  match l, rs with
  | DevOpen p :: l, r :: rs => opened l rs (if bool_decide (p ∈ open) || bool_decide (r <> RC_OK) then open else p :: open)
  | DevClose p :: l, _ :: rs => opened l rs (unlink p open)
  | _, _ => open
  end.

(** C29: opening and closing devices.  The device drivers may receive packets,
    complete queued packets and report the link, and the upper-layer drivers
    that are notified may do anything but open, close, add or remove devices.
    Then, in whatever order devices are opened and closed, netdev_open() and
    netdev_close() return, the list of open devices holds exactly the devices
    that are marked as open, each once and the most recently opened one first,
    which is the one last_opened_netdev() returns.  VLAN devices are excluded:
    vlan_open() opens the trunk, and vlan_sync(), when it is notified of the
    trunk, opens the VLAN device. *)
Theorem open_devices_refine ops `{!SoundNic env} : forall w, opens_ok w -> Forall (fun o => is_Some (nw_store w !! op_dev o)) ops ->
  exists w' rs, dev_ops ops w = Some (w', rs) /\ opens_ok w' /\ length rs = length ops /\
    open_net_devices w' = opened ops rs (open_net_devices w) /\ last_opened_netdev w' = head (opened ops rs (open_net_devices w)).
Proof.
  induction ops as [|o ops IH]; intros w Hok Hall; [by exists w, []|]. apply Forall_cons in Hall as [Ho Hall].
  destruct o as [p|p]; cbn [dev_ops op_dev] in *.
  - destruct (open_run p w Hok Ho) as (w1 & r & -> & Hok1 & Hk & E). cbn [mbind option_bind].
    destruct (IH w1 Hok1) as (w' & rs & -> & Hok' & Hl & Eo & Eh); [by eapply Forall_impl; [done|]; intros o; apply Hk|].
    cbn [mbind option_bind]. exists w', (r :: rs). split; [done|]. split; [done|]. split; [by cbn; rewrite Hl|]. cbn [opened].
    destruct Hok as [_ Hf]. rewrite Eh, Eo, E. by rewrite (bool_decide_ext _ _ (Hf p)).
  - destruct (close_run p w Hok Ho) as (w1 & d1 & -> & Hok1 & Hk & E & _). cbn [mbind option_bind].
    destruct (IH w1 Hok1) as (w' & rs & -> & Hok' & Hl & Eo & Eh); [by eapply Forall_impl; [done|]; intros o; apply Hk|].
    cbn [mbind option_bind]. exists w', (RC_OK :: rs). split; [done|]. split; [done|]. split; [by cbn; rewrite Hl|]. cbn [opened].
    by rewrite Eh, Eo, E.
Qed.
End OpenProofs.

(** ** Frames between two hosts. *)
Section Frames.
Context {X Y : Type} (envA : net_env X) (envB : net_env Y).

(** The state in which the network protocol is called. *)
Definition received (q : loc) (d : net_device) (x : Y) (w : net_world Y) : net_world Y :=
  set_store (<[q := record_rx RC_OK d]> (nw_store w)) (set_ext x w).

Lemma received_queued q d x w frame : nw_store w !! q = Some d -> rx_queue d = [] ->
  exists w1, netdev_rx q frame (set_ext x w) = Some w1 /\ nd_state <$> nw_store w1 !! q = Some (nd_state d) /\
    netdev_rx_dequeue q w1 = Some (received q d x w, Some frame).
Proof.
  intros Hd Hq. unfold netdev_rx, with_dev. cbn. rewrite Hd. cbn. rewrite lookup_insert_eq. cbn. rewrite Hq. cbn [app].
  eexists. split; [reflexivity|]. split; [cbn; by rewrite lookup_insert_eq|].
  unfold netdev_rx_dequeue, with_dev. cbn. rewrite lookup_insert_eq. cbn. do 2 f_equal. unfold received, set_store. cbn.
  f_equal. rewrite !insert_insert_eq. f_equal. destruct d. cbn in Hq. by rewrite Hq.
Qed.

(** A packet that one host gives to net_tx() of an Ethernet device becomes
    a frame which, received by another host whose device is idle, is handed by
    one round of net_poll() to the network protocol it was sent for, with the
    addresses and the flags of its destination; an error of the protocol is
    counted, and the receive queue is left empty. *)
Theorem frame_delivered iobuf p q proto ll_dest ll_source wA wB dA dB np i x w2 r :
  nw_store wA !! p = Some dA -> nd_ll dA = ethernet_protocol ->
  nw_store wB !! q = Some dB -> nd_ll dB = ethernet_protocol ->
  6 <= zlen ll_dest -> 6 <= zlen ll_source -> 0 <= proto < 2 ^ 16 ->
  netdev_is_open dB = true -> netdev_rx_frozen dB = false -> rx_queue dB = [] ->
  list_find (fun np => net_proto np = proto) (net_protocols envB) = Some (i, np) ->
  net_rx_method np iobuf q (take 6 ll_dest) (take 6 ll_source)
    (Z.lor (if is_multicast_ether_addr ll_dest then LL_MULTICAST else 0) (if is_broadcast_ether_addr ll_dest then LL_BROADCAST else 0))
    (received q dB x wB) = Some (w2, r) ->
  rx_queue <$> nw_store w2 !! q = Some [] ->
  exists frame, net_tx envA iobuf p proto ll_dest ll_source wA = netdev_tx envA p frame wA /\
    (op_poll (netdev_op envB) q (nw_ext wB) = (x, [CallRx frame]) ->
     poll_device envB 1 q wB = match r with RC_OK => Some w2 | RC_ERR _ => netdev_rx_err q None r w2 end).
Proof.
  intros HA EA HB EB Hd Hs Hp Ho Hz Hq Hnp Hrx Hempty.
  destruct (eth_push_pull iobuf ll_dest ll_source proto Hd Hs Hp) as (frame & Epush & Epull). exists frame. split.
  { unfold net_tx. rewrite HA. cbn [mbind option_bind]. rewrite EA. cbn [ll_push ethernet_protocol]. by rewrite Epush. }
  intros Epoll. destruct (received_queued q dB x wB frame HB Hq) as (w1 & E1 & Es & Edq).
  unfold poll_device, netdev_poll. rewrite HB. cbn [mbind option_bind]. rewrite Ho, Epoll. cbn [nic_runs nic_run]. rewrite E1. cbn [mbind option_bind].
  destruct (nw_store w1 !! q) as [d1|] eqn:Ed1; [|done]. cbn [mbind option_bind]. injection Es as Es.
  unfold netdev_rx_frozen in *. rewrite Es, Hz. cbn [process_queue]. rewrite Edq. cbn [mbind option_bind].
  unfold process_packet. cbn [received nw_store set_store]. rewrite lookup_insert_eq. cbn [mbind option_bind record_rx nd_ll]. rewrite EB.
  cbn [ll_pull ethernet_protocol]. rewrite Epull. cbn [pl_iobuf pl_proto pl_dest pl_source pl_flags]. unfold net_rx. rewrite Hnp, Hrx. cbn [mbind option_bind].
  destruct (nw_store w2 !! q) as [d2|] eqn:Ed2; [|done]. cbn in Hempty. injection Hempty as Hempty. destruct r as [|e]; cbn [mbind option_bind].
  - unfold netdev_rx_dequeue. rewrite Ed2. cbn [mbind option_bind]. by rewrite Hempty.
  - unfold netdev_rx_err, with_dev. rewrite Ed2. cbn [mbind option_bind]. unfold netdev_rx_dequeue. cbn. rewrite lookup_insert_eq. cbn. by rewrite Hempty.
Qed.
End Frames.

(** ** Statistics. *)
Lemma locate_found r l : forall i least c j, locate_error r l i least c = (j, true) ->
  exists k e, j = (i + k)%nat /\ l !! k = Some e /\ er_rc e = r.
Proof.
  induction l as [|a l IH]; intros i least c j E; cbn [locate_error] in E; [done|]. destruct (decide (er_rc a = r)).
  - injection E as <-. exists 0%nat, a. split; [lia|done].
  - destruct (_ <? _); apply IH in E as (k & e & -> & Hk & He); exists (S k), e; (split; [lia|done]).
Qed.

Lemma locate_least r l : forall i least c j, locate_error r l i least c = (j, false) ->
  Forall (fun e => er_rc e <> r) l /\
  (j = least /\ Forall (fun e => c <= er_count e) l \/
   exists k e, j = (i + k)%nat /\ l !! k = Some e /\ er_count e < c /\ Forall (fun e' => er_count e <= er_count e') l).
Proof.
  induction l as [|a l IH]; intros i least c j E; cbn [locate_error] in E.
  { injection E as <-. split; [constructor|left; split; [done|constructor]]. }
  destruct (decide (er_rc a = r)) as [|Hne]; [done|]. destruct (Z.ltb_spec (er_count a) c) as [Hlt|Hge].
  - apply IH in E as [Hr [[-> Hl]|(k & e & -> & Hk & Hc & Hl)]].
    + split; [by constructor|]. right. exists 0%nat, a. split; [lia|]. split; [done|]. split; [done|]. constructor; [lia|done].
    + split; [by constructor|]. right. exists (S k), e. split; [lia|]. split; [done|]. split; [lia|]. constructor; [lia|done].
  - apply IH in E as [Hr [[-> Hl]|(k & e & -> & Hk & Hc & Hl)]].
    + split; [by constructor|]. left. split; [done|by constructor].
    + split; [by constructor|]. right. exists (S k), e. split; [lia|]. split; [done|]. split; [lia|]. constructor; [lia|done].
Qed.

(** An error is counted in the record of its code; when it has none, it takes
    the place of an error that occurred least often. *)
Theorem record_stat_spec stats e : errors stats <> [] ->
  let stats' := netdev_record_stat stats (RC_ERR e) in
  good stats' = good stats /\ bad stats' = u32 (bad stats + 1) /\ length (errors stats') = length (errors stats) /\
  exists j old, errors stats !! j = Some old /\
    ((er_rc old = RC_ERR e /\ errors stats' = <[j := DevError (RC_ERR e) (u32 (er_count old + 1))]> (errors stats)) \/
     (Forall (fun x => er_rc x <> RC_ERR e /\ er_count old <= er_count x) (errors stats) /\
      errors stats' = <[j := DevError (RC_ERR e) 1]> (errors stats))).
Proof.
  intros Hne. cbv zeta. cbn [netdev_record_stat]. destruct (errors stats) as [|e0 es] eqn:Es; [done|]. rewrite <- Es in *.
  assert (errors stats !! 0%nat = Some e0) as E0 by (by rewrite Es). rewrite E0. cbn [fmap option_fmap option_map default from_option id].
  assert (forall f k old, errors stats !! k = Some old -> alter f k (errors stats) = <[k := f old]> (errors stats)) as Halter.
  { intros f k old Hk. rewrite list_insert_alter. apply list_alter_ext; [|done]. intros y Hy. congruence. }
  destruct (locate_error (RC_ERR e) (errors stats) 0 0 (er_count e0)) as [j []] eqn:El; cbn [good bad errors].
  all: split; [done|]; split; [done|]; split; [apply length_alter|].
  - apply locate_found in El as (k & old & -> & Hk & Hr). exists k, old. split; [done|]. left. split; [done|].
    cbn [Nat.add]. rewrite (Halter _ k old Hk). by rewrite Hr.
  - apply locate_least in El as [Hr [[-> Hl]|(k & old & -> & Hk & Hc & Hl)]].
    + exists 0%nat, e0. split; [done|]. right. split; [by apply Forall_and|by apply (Halter _ 0%nat e0)].
    + exists k, old. split; [done|]. right. split; [by apply Forall_and|by apply (Halter _ k old)].
Qed.

(** A registration that fails when its settings are registered leaves the
    device in the list, with the reference that the list holds. *)
Theorem register_failure_listed {X} (env : net_env X) p w d e : nw_store w !! p = Some d -> nd_name d <> [] ->
  (forall v, register_settings env p v = Some (v, RC_ERR e)) ->
  exists w', register_netdev env p w = Some (w', RC_ERR e) /\ net_devices w' = net_devices w ++ [p] /\
    nw_refs w' = ref_get (Some p) (nw_refs w).
Proof.
  intros Hd Hn Hs. unfold register_netdev. rewrite Hd. cbn [mbind option_bind].
  destruct (nd_name d) as [|c name] eqn:En; [done|]. cbn [mbind option_bind]. unfold with_dev. rewrite Hd. cbn [mbind option_bind].
  rewrite Hs. cbn [mbind option_bind]. by eexists.
Qed.

(** ** A device on a wire: what it sends is recorded and what is on the wire
    is received, one packet at a time. *)
Record wire := Wire {
  wire_sent : list (list Z);
  wire_incoming : list (list Z) }.
Definition wire_nic : nic wire :=
  Nic wire (fun _ x => (x, ([], RC_OK))) (fun _ x => (x, []))
    (fun _ frame x => (Wire (wire_sent x ++ [frame]) (wire_incoming x), ([], RC_OK)))
    (fun _ x => match wire_incoming x with
                | [] => (x, [])
                | frame :: l => (Wire (wire_sent x) l, [CallRx frame])
                end) None.
Definition wire_env (protocols : list (net_protocol wire)) : net_env wire :=
  NetEnv wire wire_nic [] protocols (fun _ w => Some (w, RC_OK)) (fun _ w => Some w) (fun _ w => Some w).
Definition ether_device (addr : list Z) : net_device :=
  NetDevice (cstr "net0") ethernet_protocol addr (addr ++ replicate 14 0) eth_broadcast NETDEV_OPEN RC_OK ETH_FRAME_LEN [] [] no_stats no_stats.
Definition wire_host (devs : list (loc * net_device)) (incoming : list (list Z)) : net_world wire :=
  NetWorld (list_to_map devs) (fst <$> devs) [] 0 (Refs ∅ []) [] (Wire [] incoming).

#[export] Instance wire_quiet protocols : QuietDrivers (wire_env protocols).
Proof. split; intros *; by intros ?%elem_of_nil. Qed.
#[export] Instance wire_sound protocols : SoundNic (wire_env protocols).
Proof. split; intros; by eexists. Qed.

Definition closed_device : net_device := set_state 0 (ether_device [2; 0; 0; 0; 0; 1]).

Lemma open_devices_refine_witness :
  exists w' rs, dev_ops (wire_env []) [DevOpen 1%positive; DevOpen 2%positive; DevOpen 1%positive; DevClose 2%positive]
      (wire_host [(1%positive, closed_device); (2%positive, closed_device)] []) = Some (w', rs) /\
    opens_ok w' /\ length rs = 4%nat /\
    open_net_devices w' = opened [DevOpen 1%positive; DevOpen 2%positive; DevOpen 1%positive; DevClose 2%positive] rs [] /\
    last_opened_netdev w' = head (opened [DevOpen 1%positive; DevOpen 2%positive; DevOpen 1%positive; DevClose 2%positive] rs []).
Proof.
  apply (open_devices_refine (wire_env []) [DevOpen 1%positive; DevOpen 2%positive; DevOpen 1%positive; DevClose 2%positive]
    (wire_host [(1%positive, closed_device); (2%positive, closed_device)] [])).
  - split; [constructor|]. intros q. split; [by intros ?%elem_of_nil|]. unfold open_flag, wire_host, list_to_map. cbn.
    intros H. apply fmap_Some in H as (d & Hd & Ho).
    destruct (decide (q = 1%positive)) as [-> |H1]; [rewrite lookup_insert_eq in Hd; by injection Hd as <-|].
    rewrite lookup_insert_ne in Hd by done. destruct (decide (q = 2%positive)) as [-> |H2]; [rewrite lookup_insert_eq in Hd; by injection Hd as <-|].
    by rewrite lookup_insert_ne, lookup_empty in Hd.
  - repeat (apply Forall_cons; split; [by vm_compute; eexists|]). done.
Defined.

Definition refusing_protocol : net_protocol wire :=
  NetProtocol wire ETH_P_IP (fun iobuf _ _ _ _ w => Some (free_iob iobuf w, RC_ERR EINVAL)).
Definition sample_frame : list Z := [2; 0; 0; 0; 0; 2; 2; 0; 0; 0; 0; 1; 8; 0; 9; 9].
Definition sending_host : net_world wire := wire_host [(1%positive, ether_device [2; 0; 0; 0; 0; 1])] [].
Definition receiving_host : net_world wire := wire_host [(1%positive, ether_device [2; 0; 0; 0; 0; 2])] [sample_frame].

Lemma frame_delivered_witness :
  exists frame, net_tx (wire_env []) [9; 9] 1 ETH_P_IP [2; 0; 0; 0; 0; 2] [2; 0; 0; 0; 0; 1] sending_host = netdev_tx (wire_env []) 1 frame sending_host /\
    (op_poll wire_nic 1%positive (Wire [] [sample_frame]) = (Wire [] [], [CallRx frame]) ->
     poll_device (wire_env [refusing_protocol]) 1 1 receiving_host =
       netdev_rx_err 1 None (RC_ERR EINVAL) (free_iob [9; 9] (received 1 (ether_device [2; 0; 0; 0; 0; 2]) (Wire [] []) receiving_host))).
Proof.
  exact (frame_delivered (wire_env []) (wire_env [refusing_protocol]) [9; 9] 1 1 ETH_P_IP [2; 0; 0; 0; 0; 2] [2; 0; 0; 0; 0; 1] sending_host receiving_host
    (ether_device [2; 0; 0; 0; 0; 1]) (ether_device [2; 0; 0; 0; 0; 2]) refusing_protocol 0 (Wire [] [])
    (free_iob [9; 9] (received 1 (ether_device [2; 0; 0; 0; 0; 2]) (Wire [] []) receiving_host)) (RC_ERR EINVAL)
    eq_refl eq_refl eq_refl eq_refl ltac:(done) ltac:(done) ltac:(done) eq_refl eq_refl eq_refl eq_refl eq_refl eq_refl).
Defined.
