(* ===== verification/Arp.v ===== *)
(** * Address resolution: src/src/net/arp.c with src/src/include/ipxe/arp.h
    and if_arp.h.

    The cache is the list [arp_entries] of entries with their addresses, most
    recently used first.  The timer of an entry has its address and its
    reference counter.  The entries, the timers and the state of the devices'
    driver are what the device layer carries along.  A network protocol is
    known by its number and the length of its addresses.  A result [None]
    stands for an access outside of the packet or to an object that does not
    exist. *)
From S2P Require Import Prelude LinkedList Retry Strings Ethernet Netdev.

Definition ARPOP_REQUEST : Z := 1.
Definition ARPOP_REPLY : Z := 2.

Record arp_entry := ArpEntry {
  ar_at : loc;
  ar_netdev : loc;
  ar_net_protocol : Z;
  ar_addr_len : Z;
  ar_net_dest : list Z;
  ar_net_source : list Z;
  ar_ll_dest : list Z;
  ar_tx_queue : list (list Z) }.

Record arp_ext (D : Type) := ArpExt {
  arp_entries : list arp_entry;
  arp_timers : timer_state;
  arp_now : Z;
  (** the results of the next allocations *)
  arp_allocs : list (option loc);
  arp_nic : D }.
Arguments ArpExt {D}.
Arguments arp_entries {D}.
Arguments arp_timers {D}.
Arguments arp_now {D}.
Arguments arp_allocs {D}.
Arguments arp_nic {D}.

(** [struct arphdr]. *)
Record arphdr := Arphdr {
  ar_hrd : Z;
  ar_pro : Z;
  ar_hln : Z;
  ar_pln : Z;
  ar_op : Z }.
Definition ARPHDR_LEN : Z := 8.

Definition arphdr_bytes (h : arphdr) : list Z :=
  be_bytes 2 (ar_hrd h) ++ be_bytes 2 (ar_pro h) ++ [ar_hln h; ar_pln h] ++ be_bytes 2 (ar_op h).
Definition arphdr_at (d : list Z) : option arphdr :=
  match d with
  | h1 :: h0 :: p1 :: p0 :: hln :: pln :: o1 :: o0 :: _ => Some (Arphdr (be_val [h1; h0]) (be_val [p1; p0]) hln pln (be_val [o1; o0]))
  | _ => None
  end.

(** [len] bytes at [off], all within the packet. *)
Definition field (d : list Z) (off len : Z) : option (list Z) :=
  if zlen d <? off + len then None else Some (take (Z.to_nat len) (drop (Z.to_nat off) d)).
Definition arp_sender_ha (h : arphdr) (d : list Z) : option (list Z) := field d ARPHDR_LEN (ar_hln h).
Definition arp_sender_pa (h : arphdr) (d : list Z) : option (list Z) := field d (ARPHDR_LEN + ar_hln h) (ar_pln h).
Definition arp_target_ha (h : arphdr) (d : list Z) : option (list Z) := field d (ARPHDR_LEN + ar_hln h + ar_pln h) (ar_hln h).
Definition arp_target_pa (h : arphdr) (d : list Z) : option (list Z) := field d (ARPHDR_LEN + ar_hln h + ar_pln h + ar_hln h) (ar_pln h).

Section Arp.
Context {D : Type}.
Variable ticks_per_sec : Z.
Variable env : net_env (arp_ext D).
Abbreviation world := (net_world (arp_ext D)).
Implicit Type w : world.

(** ARP_NET_PROTOCOLS: the check whether an address is ours. *)
Record arp_net_protocol := ArpNetProtocol {
  anp_net_proto : Z;
  anp_addr_len : Z;
  anp_check : loc -> list Z -> world -> bool }.
Variable arp_net_protocols : list arp_net_protocol.

Definition ARP_MIN_TIMEOUT : Z := ticks_per_sec / 8.
Definition ARP_MAX_TIMEOUT : Z := ticks_per_sec * 3.

(** ** State. *)
Definition on_ext (f : arp_ext D -> arp_ext D) w : world := set_ext (f (nw_ext w)) w.
Definition set_entries (l : list arp_entry) w : world :=
  on_ext (fun x => ArpExt l (arp_timers x) (arp_now x) (arp_allocs x) (arp_nic x)) w.
Definition set_timers (s : timer_state) w : world :=
  on_ext (fun x => ArpExt (arp_entries x) s (arp_now x) (arp_allocs x) (arp_nic x)) w.
Definition entries w : list arp_entry := arp_entries (nw_ext w).
Definition timers_of w : timer_state := arp_timers (nw_ext w).

Definition arp_alloc w : world * option loc :=
  match arp_allocs (nw_ext w) with
  | [] => (w, None)
  | a :: l => (on_ext (fun x => ArpExt (arp_entries x) (arp_timers x) (arp_now x) l (arp_nic x)) w, a)
  end.

Definition update_entry (e : loc) (f : arp_entry -> arp_entry) w : world :=
  set_entries ((fun a => if decide (ar_at a = e) then f a else a) <$> entries w) w.
Definition set_queue (q : list (list Z)) (a : arp_entry) : arp_entry :=
  ArpEntry (ar_at a) (ar_netdev a) (ar_net_protocol a) (ar_addr_len a) (ar_net_dest a) (ar_net_source a) (ar_ll_dest a) q.
Definition set_ll_dest (d : list Z) (a : arp_entry) : arp_entry :=
  ArpEntry (ar_at a) (ar_netdev a) (ar_net_protocol a) (ar_addr_len a) (ar_net_dest a) (ar_net_source a) d (ar_tx_queue a).
Definition entry_at (e : loc) w : option arp_entry := snd <$> list_find (fun a => ar_at a = e) (entries w).

(** Dropping a reference; the last one frees the entry with arp_free(). *)
Definition arp_free (netdev : loc) w : option world := netdev_put env netdev w.
Definition arp_ref_put (e netdev : loc) w : option world :=
  let s := timers_of w in
  let r := ref_put (Some e) (objects s) in
  let w := set_timers (Timers (timers s) (tmr s) r) w in
  if decide (length (freed r) = length (freed (objects s))) then Some w else arp_free netdev w.
Definition arp_ref_get (e : loc) w : world :=
  let s := timers_of w in set_timers (Timers (timers s) (tmr s) (ref_get (Some e) (objects s))) w.

(** ** The cache. *)
Definition arp_create (netdev : loc) (proto addr_len : Z) (net_dest net_source : list Z) w : option (world * option arp_entry) :=
  match arp_alloc w with
  | (w, None) => Some (w, None)
  | (w, Some e) =>
      let s := timers_of w in
      let s := Timers (timers s) (<[e := Timer false 0 ARP_MIN_TIMEOUT ARP_MAX_TIMEOUT 0 0 (Some e)]> (tmr s))
                 (Refs (<[e := 0]> (count (objects s))) (freed (objects s))) in
      let w := netdev_get netdev w in
      let zeros := replicate (Z.to_nat MAX_NET_ADDR_LEN) 0 in
      let arp := ArpEntry e netdev proto addr_len (memcpy zeros net_dest addr_len) (memcpy zeros net_source addr_len)
                   (replicate (Z.to_nat MAX_LL_ADDR_LEN) 0) [] in
      s ← start_timer_nodelay ticks_per_sec (arp_now (nw_ext w)) e s;
      Some (set_entries (arp :: entries w) (set_timers s w), Some arp)
  end.

Definition arp_matches (netdev : loc) (proto addr_len : Z) (net_dest : list Z) (a : arp_entry) : Prop :=
  ar_netdev a = netdev /\ ar_net_protocol a = proto /\
  take (Z.to_nat addr_len) (ar_net_dest a) = take (Z.to_nat addr_len) net_dest.
#[global] Instance arp_matches_dec netdev proto addr_len net_dest a : Decision (arp_matches netdev proto addr_len net_dest a).
Proof. unfold arp_matches. apply _. Defined.

(** The entry is moved to the start of the cache. *)
Definition arp_find (netdev : loc) (proto addr_len : Z) (net_dest : list Z) w : world * option arp_entry :=
  match list_find (arp_matches netdev proto addr_len net_dest) (entries w) with
  | Some (i, a) => (set_entries (a :: delete i (entries w)) w, Some a)
  | None => (w, None)
  end.

Fixpoint discard_queue (netdev : loc) (e : errno) (q : list (list Z)) w : option world :=
  match q with
  | [] => Some w
  | iobuf :: q => w ← netdev_tx_err netdev iobuf (RC_ERR e) w; discard_queue netdev e q w
  end.

Definition arp_destroy (a : arp_entry) (e : errno) w : option world :=
  let w := set_entries (filter (fun b => ar_at b <> ar_at a) (entries w)) w in
  s ← stop_timer (arp_now (nw_ext w)) (ar_at a) (timers_of w);
  w ← discard_queue (ar_netdev a) e (ar_tx_queue a) (set_timers s w);
  arp_ref_put (ar_at a) (ar_netdev a) w.

Definition arp_resolved (a : arp_entry) w : option bool :=
  running ← timer_running (ar_at a) (timers_of w);
  Some (negb running).

Definition arp_tx (iobuf : list Z) (netdev : loc) (proto addr_len : Z) (net_dest net_source ll_source : list Z) w : option (world * rc) :=
  let '(w, found) := arp_find netdev proto addr_len net_dest w in
  '(w, arp) ←
    (match found with
     | Some a => Some (w, Some a)
     | None => arp_create netdev proto addr_len net_dest net_source w
     end);
  match arp with
  | None => Some (w, RC_ERR ENOMEM)
  | Some a =>
      resolved ← arp_resolved a w;
      if (resolved : bool) then net_tx env iobuf netdev proto (ar_ll_dest a) ll_source w
      else Some (update_entry (ar_at a) (fun b => set_queue (ar_tx_queue b ++ [iobuf]) b) w, RC_ERR EAGAIN)
  end.

(** The deferred packets, oldest first; an error is ignored.  An entry that has
    left the cache meanwhile has none: arp_destroy() has emptied its queue. *)
Fixpoint send_queue (fuel : nat) (e netdev : loc) (proto : Z) (ll_dest : list Z) w : option world :=
  match from_option ar_tx_queue [] (entry_at e w) with
  | [] => Some w
  | iobuf :: q =>
      match fuel with
      | O => None
      | S fuel =>
          let w := update_entry e (set_queue q) w in
          d ← nw_store w !! netdev;
          '(w, _) ← net_tx env iobuf netdev proto ll_dest (ll_addr d) w;
          send_queue fuel e netdev proto ll_dest w
      end
  end.

Definition arp_update (a : arp_entry) (ll_dest : list Z) w : option world :=
  d ← nw_store w !! ar_netdev a;
  let w := update_entry (ar_at a) (fun b => set_ll_dest (memcpy (ar_ll_dest b) ll_dest (ll_addr_len (nd_ll d))) b) w in
  s ← stop_timer (arp_now (nw_ext w)) (ar_at a) (timers_of w);
  let w := arp_ref_get (ar_at a) (set_timers s w) in
  w ← send_queue (length (ar_tx_queue a)) (ar_at a) (ar_netdev a) (ar_net_protocol a) ll_dest w;
  arp_ref_put (ar_at a) (ar_netdev a) w.

(** ** Requests. *)
Definition arp_request (d : net_device) (a : arp_entry) : list Z :=
  let hln := ll_addr_len (nd_ll d) in
  let pln := ar_addr_len a in
  arphdr_bytes (Arphdr (ll_proto (nd_ll d)) (ar_net_protocol a) hln pln ARPOP_REQUEST) ++
  take (Z.to_nat hln) (ll_addr d) ++ take (Z.to_nat pln) (ar_net_source a) ++
  replicate (Z.to_nat hln) 0 ++ take (Z.to_nat pln) (ar_net_dest a).

Definition arp_expired (e : loc) (fail : bool) w : option world :=
  a ← entry_at e w;
  if fail then arp_destroy a ETIMEDOUT w else
  s ← start_timer ticks_per_sec (arp_now (nw_ext w)) e (timers_of w);
  let w := set_timers s w in
  match arp_alloc w with
  | (w, None) => Some w
  | (w, Some _) =>
      d ← nw_store w !! ar_netdev a;
      '(w, _) ← net_tx env (arp_request d a) (ar_netdev a) ETH_P_ARP (ll_broadcast d) (ll_addr d) w;
      Some w
  end.

(** timer_expired() of retry.c for the timer of an entry. *)
Definition arp_timer_expired (e : loc) w : option world :=
  a ← entry_at e w;
  '(s, fail) ← expire ticks_per_sec e (timers_of w);
  w ← arp_expired e fail (set_timers s w);
  arp_ref_put e (ar_netdev a) w.

(** ** Received packets. *)
Definition arp_find_protocol (proto : Z) : option arp_net_protocol :=
  snd <$> list_find (fun np => anp_net_proto np = proto) arp_net_protocols.

(** The request turned into a reply: the two pairs of addresses change
    places and ours is filled in. *)
Definition arp_reply (h : arphdr) (iobuf ll_addr : list Z) : option (list Z) :=
  sender ← field iobuf ARPHDR_LEN (ar_hln h + ar_pln h);
  target ← field iobuf (ARPHDR_LEN + ar_hln h + ar_pln h) (ar_hln h + ar_pln h);
  Some (arphdr_bytes (Arphdr (ar_hrd h) (ar_pro h) (ar_hln h) (ar_pln h) ARPOP_REPLY) ++
    memcpy target ll_addr (ar_hln h) ++ sender ++ drop (Z.to_nat (ARPHDR_LEN + 2 * (ar_hln h + ar_pln h))) iobuf).

Definition arp_rx (iobuf : list Z) (netdev : loc) w : option (world * rc) :=
  h ← arphdr_at iobuf;
  match arp_find_protocol (ar_pro h) with
  | None => Some (free_iob iobuf w, RC_ERR EPROTONOSUPPORT)
  | Some np =>
      d ← nw_store w !! netdev;
      if negb (ar_hrd h =? ll_proto (nd_ll d)) || negb (ar_hln h =? ll_addr_len (nd_ll d)) || negb (ar_pln h =? anp_addr_len np)
      then Some (free_iob iobuf w, RC_ERR EINVAL) else
      sender_pa ← arp_sender_pa h iobuf;
      let '(w, found) := arp_find netdev (anp_net_proto np) (anp_addr_len np) sender_pa w in
      w ← (match found with
           | Some a => sender_ha ← arp_sender_ha h iobuf; arp_update a sender_ha w
           | None => Some w
           end);
      if negb (ar_op h =? ARPOP_REQUEST) then Some (free_iob iobuf w, RC_OK) else
      target_pa ← arp_target_pa h iobuf;
      if negb (anp_check np netdev target_pa w) then Some (free_iob iobuf w, RC_OK) else
      d ← nw_store w !! netdev;
      reply ← arp_reply h iobuf (ll_addr d);
      target_ha ← arp_target_ha h reply;
      net_tx env reply netdev ETH_P_ARP target_ha (ll_addr d) w
  end.

(** ** Devices and memory. *)
Fixpoint destroy_all (l : list arp_entry) (e : errno) w : option world :=
  match l with
  | [] => Some w
  | a :: l => w ← arp_destroy a e w; destroy_all l e w
  end.

Definition arp_flush (netdev : loc) w : option world :=
  d ← nw_store w !! netdev;
  if negb (netdev_is_open d) then destroy_all (entries w) ENODEV w else Some w.

Definition arp_net_driver : net_driver (arp_ext D) := NetDriver _ (fun _ w => Some (w, RC_OK)) arp_flush arp_flush.

(** The number of entries discarded. *)
Definition arp_discard w : option (world * Z) :=
  match last (entries w) with
  | Some a => w ← arp_destroy a ENOBUFS w; Some (w, 1)
  | None => Some (w, 0)
  end.

Definition arp_protocol : net_protocol (arp_ext D) := NetProtocol _ ETH_P_ARP (fun iobuf netdev _ _ _ w => arp_rx iobuf netdev w).
End Arp.

(** ** A driver below the ARP cache. *)
Definition lift_nic {D} (n : nic D) : nic (arp_ext D) :=
  let put x d := ArpExt (arp_entries x) (arp_timers x) (arp_now x) (arp_allocs x) d in
  Nic _
    (fun p x => let '(d, r) := op_open n p (arp_nic x) in (put x d, r))
    (fun p x => let '(d, r) := op_close n p (arp_nic x) in (put x d, r))
    (fun p b x => let '(d, r) := op_transmit n p b (arp_nic x) in (put x d, r))
    (fun p x => let '(d, r) := op_poll n p (arp_nic x) in (put x d, r))
    (match op_irq n with None => None | Some irq => Some (fun p b x => put x (irq p b (arp_nic x))) end).

(** ** Proofs, for devices on a wire. *)
Section ArpProofs.
Context (tps : Z) (Htps : 8 <= tps < 2 ^ 28).
Context (env : net_env (arp_ext wire)) (Henv : netdev_op env = lift_nic wire_nic).
Implicit Types (w : net_world (arp_ext wire)) (p e : loc) (d : net_device) (a : arp_entry).

Definition sent w : list (list Z) := wire_sent (arp_nic (nw_ext w)).

(** An open Ethernet device. *)
Record ether_open d : Prop := {
  eo_ll : nd_ll d = ethernet_protocol;
  eo_open : netdev_is_open d = true;
  eo_addr : 6 <= zlen (ll_addr d);
  eo_broadcast : ll_broadcast d = eth_broadcast }.

Definition ether_frame (ll_dest ll_source : list Z) (proto : Z) (iobuf : list Z) : list Z :=
  take 6 ll_dest ++ take 6 ll_source ++ be_bytes 2 proto ++ iobuf.

(** The state after a frame was handed to the driver. *)
Definition transmit p d (frame : list Z) w : net_world (arp_ext wire) :=
  on_ext (fun x => ArpExt (arp_entries x) (arp_timers x) (arp_now x) (arp_allocs x)
      (Wire (wire_sent (arp_nic x) ++ [frame]) (wire_incoming (arp_nic x))))
    (set_store (<[p := set_tx_queue (tx_queue d ++ [frame]) d]> (nw_store w)) w).

Lemma net_tx_wire p d w iobuf proto ll_dest ll_source : nw_store w !! p = Some d -> ether_open d ->
  net_tx env iobuf p proto ll_dest ll_source w = Some (transmit p d (ether_frame ll_dest ll_source proto iobuf) w, RC_OK).
Proof.
  intros Hd [Hll Ho _ _]. unfold net_tx. rewrite Hd. cbn [mbind option_bind]. rewrite Hll. cbn [ll_push ethernet_protocol eth_push].
  unfold netdev_tx, with_dev. rewrite Hd. cbn [mbind option_bind]. rewrite Ho. cbn [negb]. by rewrite Henv.
Qed.

Lemma ether_open_queue d q : ether_open d -> ether_open (set_tx_queue q d).
Proof. by intros [? ? ? ?]. Qed.
Lemma ether_open_stats d r : ether_open d -> ether_open (record_rx r d).
Proof. by intros [? ? ? ?]. Qed.

(** The entry [a] is the first one of the cache, with its timer and its
    references. *)
Record cached w a (rest : list arp_entry) (run : bool) (c : Z) : Prop := {
  ca_entries : entries w = a :: rest;
  ca_others : Forall (fun b => ar_at b <> ar_at a) rest;
  ca_timer : exists t, tmr (timers_of w) !! ar_at a = Some t /\ running t = run /\ tm_refcnt t = Some (ar_at a);
  ca_count : count (objects (timers_of w)) !! ar_at a = Some c;
  ca_range : 0 <= c < 100 }.

Lemma cached_at w a rest run c : cached w a rest run c -> entry_at (ar_at a) w = Some a.
Proof. intros [He _ _ _ _]. unfold entry_at. rewrite He. cbn. by rewrite decide_True. Qed.

Lemma update_others f e l : Forall (fun b => ar_at b <> e) l -> ((fun b => if decide (ar_at b = e) then f b else b) <$> l) = l.
Proof. induction 1 as [|b l Hb _ IH]; [done|]. rewrite fmap_cons, IH. by rewrite decide_False. Qed.

Lemma update_cached w a rest run c f : cached w a rest run c -> ar_at (f a) = ar_at a ->
  entries (update_entry (ar_at a) f w) = f a :: rest /\ cached (update_entry (ar_at a) f w) (f a) rest run c.
Proof.
  intros [He Ho Ht Hc Hr] Hf. assert (entries (update_entry (ar_at a) f w) = f a :: rest) as E.
  { unfold update_entry, entries, set_entries, on_ext in *. cbn. rewrite He. rewrite fmap_cons, decide_True by done. by rewrite update_others. }
  split; [done|]. split; rewrite ?Hf; done.
Qed.

(** A reference that is not the last one is dropped. *)
Lemma ref_put_cached w a rest run c netdev : cached w a rest run c -> 1 <= c ->
  exists w', arp_ref_put env (ar_at a) netdev w = Some w' /\ cached w' a rest run (c - 1) /\
    nw_store w' = nw_store w /\ sent w' = sent w /\ arp_allocs (nw_ext w') = arp_allocs (nw_ext w).
Proof.
  intros [He Ho Ht Hc Hr] H1. unfold arp_ref_put, ref_put, ref_decrement. cbn [count]. rewrite lookup_alter_eq, Hc. cbn [fmap option_fmap option_map].
  assert (s32 (c - 1) = c - 1) as -> by (apply signed_small; [cbn; lia|done]). rewrite (proj2 (Z.leb_le 0 (c - 1))) by lia. cbn [freed]. rewrite decide_True by done.
  eexists. split; [reflexivity|]. split; [|done]. split; [done|done|done| |lia]. cbn. rewrite lookup_alter_eq, Hc. cbn.
  f_equal. apply signed_small; [cbn; lia|done].
Qed.

Lemma ref_get_cached w a rest run c : cached w a rest run c -> c < 50 -> cached (arp_ref_get (ar_at a) w) a rest run (c + 1).
Proof.
  intros [He Ho Ht Hc Hr] H1. split; [done|done|done| |lia]. cbn. rewrite lookup_alter_eq, Hc. cbn. f_equal. apply signed_small; [cbn; lia|done].
Qed.

Lemma send_queue_run p d proto ll_dest q : forall w a rest run c, cached w a rest run c -> ar_tx_queue a = q ->
  nw_store w !! p = Some d -> ether_open d ->
  exists w' d', send_queue env (length q) (ar_at a) p proto ll_dest w = Some w' /\ cached w' (set_queue [] a) rest run c /\
    sent w' = sent w ++ (ether_frame ll_dest (ll_addr d) proto <$> q) /\
    nw_store w' !! p = Some d' /\ ether_open d' /\ ll_addr d' = ll_addr d /\ timers_of w' = timers_of w /\
    arp_allocs (nw_ext w') = arp_allocs (nw_ext w).
Proof.
  revert d. induction q as [|b q IH]; intros d w a rest run c Hca Hq Hd Ho; cbn [send_queue length]; rewrite (cached_at _ _ _ _ _ Hca); cbn [from_option]; rewrite Hq.
  { exists w, d. rewrite app_nil_r. assert (set_queue [] a = a) as -> by (destruct a; cbn in Hq; by rewrite Hq). done. }
  destruct (update_cached w a rest run c (set_queue q) Hca eq_refl) as [_ Hca1]. set (w1 := update_entry _ _ _) in *.
  cbn [nw_store update_entry set_entries on_ext set_ext]. change (nw_store w1) with (nw_store w). rewrite Hd. cbn [mbind option_bind].
  rewrite (net_tx_wire p d w1 b proto ll_dest (ll_addr d) Hd Ho). cbn [mbind option_bind].
  set (frame := ether_frame _ _ _ b). set (w2 := transmit p d frame w1).
  destruct (IH (set_tx_queue (tx_queue d ++ [frame]) d) w2 (set_queue q a) rest run c) as (w' & d' & E & Hca' & Hs & Hd' & Ho' & Ha & Ht & Hal).
  - by destruct Hca1.
  - done.
  - cbn. by rewrite lookup_insert_eq.
  - by apply ether_open_queue.
  - exists w', d'. split; [exact E|]. split; [done|]. rewrite Hs. cbn [fmap list_fmap]. split; [|by rewrite Ha, Ht, Hal].
    change (sent w2) with (sent w ++ [frame]). by rewrite <- app_assoc.
Qed.

Lemma stop_cached w a rest c : cached w a rest true c -> 1 <= c ->
  exists s, stop_timer (arp_now (nw_ext w)) (ar_at a) (timers_of w) = Some s /\ cached (set_timers s w) a rest false (c - 1).
Proof.
  intros [He Ho (t & Ht & Hrun & Href) Hc Hr] H1. unfold stop_timer. rewrite Ht. cbn [mbind option_bind]. rewrite Hrun. cbn [negb].
  destruct (if ctrue (tm_count t) then _ else _) as [cnt tmo]. eexists. split; [reflexivity|]. rewrite Href. split; [done|done| | |lia].
  - cbn. rewrite lookup_insert_eq. by eexists.
  - cbn. unfold ref_decrement. cbn [count]. rewrite lookup_alter_eq, Hc. cbn [fmap option_fmap option_map].
    assert (s32 (c - 1) = c - 1) as E by (apply signed_small; [cbn; lia|done]). rewrite E. rewrite (proj2 (Z.leb_le 0 (c - 1))) by lia. cbn [count].
    by rewrite lookup_alter_eq, Hc, <- E at 1.
Qed.

(** A resolved entry: the address is filled in and the packets are gone. *)
Definition resolved (ll_dest : list Z) a : arp_entry := set_queue [] (set_ll_dest (memcpy (ar_ll_dest a) ll_dest ETH_ALEN) a).

Lemma arp_update_run w a rest c d ll_dest : cached w a rest true c -> 1 <= c < 50 -> nw_store w !! ar_netdev a = Some d -> ether_open d ->
  exists w' d', arp_update env a ll_dest w = Some w' /\ cached w' (resolved ll_dest a) rest false (c - 1) /\
    sent w' = sent w ++ (ether_frame ll_dest (ll_addr d) (ar_net_protocol a) <$> ar_tx_queue a) /\
    nw_store w' !! ar_netdev a = Some d' /\ ether_open d' /\ ll_addr d' = ll_addr d.
Proof.
  intros Hca Hc Hd Ho. unfold arp_update. rewrite Hd. cbn [mbind option_bind]. rewrite (eo_ll _ Ho). change (ll_addr_len ethernet_protocol) with ETH_ALEN.
  destruct (update_cached w a rest true c (fun b => set_ll_dest (memcpy (ar_ll_dest b) ll_dest ETH_ALEN) b) Hca eq_refl) as [_ Hca1].
  set (w1 := update_entry _ _ _) in *.
  destruct (stop_cached w1 _ rest c Hca1 ltac:(lia)) as (s & Es & Hca2). cbn [set_ll_dest ar_at] in Es. rewrite Es. cbn [mbind option_bind].
  pose proof (ref_get_cached _ _ rest false (c - 1) Hca2 ltac:(lia)) as Hca3.
  change (ar_at (set_ll_dest (memcpy (ar_ll_dest a) ll_dest ETH_ALEN) a)) with (ar_at a) in Hca3.
  destruct (send_queue_run (ar_netdev a) d (ar_net_protocol a) ll_dest (ar_tx_queue a) _ _ rest false _ Hca3 eq_refl Hd Ho)
    as (w4 & d4 & E4 & Hca4 & Hs4 & Hd4 & Ho4 & Ha4 & _).
  cbn [set_ll_dest ar_at] in E4. rewrite E4. cbn [mbind option_bind].
  destruct (ref_put_cached w4 _ rest false (c - 1 + 1) (ar_netdev a) Hca4 ltac:(lia)) as (w5 & E5 & Hca5 & Hst5 & Hs5 & _).
  exists w5, d4. split; [exact E5|]. split; [|by rewrite Hs5, Hst5]. by replace (c - 1) with (c - 1 + 1 - 1) by lia.
Qed.

(** An entry that is made for an address. *)
Definition new_entry e p (proto alen : Z) (net_dest net_source : list Z) : arp_entry :=
  ArpEntry e p proto alen (memcpy (replicate 4 0) net_dest alen) (memcpy (replicate 4 0) net_source alen) (replicate 20 0) [].

(** The timer of an entry that was just made. *)
Definition fresh_timer w e : Prop := exists t, tmr (timers_of w) !! e = Some t /\ timeout t = 0 /\ max_timeout t = tps * 3.

Lemma create_run w p proto alen net_dest net_source e l : arp_allocs (nw_ext w) = Some e :: l -> Forall (fun b => ar_at b <> e) (entries w) ->
  exists w', arp_create tps p proto alen net_dest net_source w = Some (w', Some (new_entry e p proto alen net_dest net_source)) /\
    cached w' (new_entry e p proto alen net_dest net_source) (entries w) true 1 /\ fresh_timer w' e /\
    nw_store w' = nw_store w /\ sent w' = sent w /\ arp_allocs (nw_ext w') = l.
Proof.
  intros Hal Hf. unfold arp_create, arp_alloc. rewrite Hal. unfold start_timer_nodelay, start_timer_fixed, start_timer.
  cbn [timers_of arp_timers nw_ext netdev_get set_refs on_ext set_ext tmr timers objects]. rewrite lookup_insert_eq. cbn [mbind option_bind running].
  cbn [tmr set_timer]. rewrite lookup_insert_eq. cbn [mbind option_bind].
  eexists. split; [reflexivity|]. split; [|split; [|done]].
  - split; [done|done| | |lia].
    + cbn. rewrite lookup_insert_eq. by eexists.
    + cbn. by rewrite lookup_alter_eq, lookup_insert_eq.
  - eexists. cbn. rewrite lookup_insert_eq. by split.
Qed.

Lemma shift_zero : u32 (Z.shiftl 0 1) = 0.
Proof. done. Qed.

Lemma alloc_run w x l : arp_allocs (nw_ext w) = Some x :: l ->
  exists w', arp_alloc w = (w', Some x) /\ nw_store w' = nw_store w /\ timers_of w' = timers_of w /\ entries w' = entries w /\ sent w' = sent w.
Proof. intros E. unfold arp_alloc. rewrite E. by eexists. Qed.

(** The first expiry of the timer sends the request. *)
Lemma expiry_run w a rest d l x : cached w a rest true 1 -> fresh_timer w (ar_at a) -> arp_allocs (nw_ext w) = Some x :: l ->
  nw_store w !! ar_netdev a = Some d -> ether_open d ->
  exists w' d', arp_timer_expired tps env (ar_at a) w = Some w' /\ cached w' a rest true 1 /\
    sent w' = sent w ++ [ether_frame eth_broadcast (ll_addr d) ETH_P_ARP (arp_request d a)] /\
    nw_store w' !! ar_netdev a = Some d' /\ ether_open d' /\ ll_addr d' = ll_addr d.
Proof.
  intros Hca (t & Ht & Hz & Hmax) Hal Hd Ho. pose proof Hca as [He Hoth (t' & Ht' & Hrun & Href) Hc Hr].
  rewrite Ht in Ht'. injection Ht' as <-. unfold arp_timer_expired. rewrite (cached_at _ _ _ _ _ Hca). cbn [mbind option_bind].
  unfold expire. rewrite Ht. cbn [mbind option_bind]. rewrite Hz, shift_zero, Hmax.
  destruct (Z.eqb_spec (tps * 3) 0); [lia|]. destruct (Z.ltb_spec (tps * 3) 0); [lia|].
  set (s1 := set_timer _ _ _). unfold arp_expired. change (entry_at (ar_at a) (set_timers s1 w)) with (entry_at (ar_at a) w).
  rewrite (cached_at _ _ _ _ _ Hca). cbn [mbind option_bind]. unfold start_timer.
  change (timers_of (set_timers s1 w)) with s1. cbn [tmr s1 set_timer]. rewrite lookup_insert_eq. cbn [mbind option_bind running].
  set (s2 := set_timer _ _ _).
  destruct (alloc_run (set_timers s2 (set_timers s1 w)) x l Hal) as (w3 & -> & Est & Etm & Een & Ese). rewrite Est. cbn [nw_store set_timers on_ext set_ext].
  rewrite Hd. cbn [mbind option_bind]. change (nw_store (set_timers s2 (set_timers s1 w))) with (nw_store w) in Est. rewrite <- Est in Hd.
  rewrite (net_tx_wire (ar_netdev a) d w3 _ _ _ _ Hd Ho). cbn [mbind option_bind]. rewrite (eo_broadcast _ Ho).
  set (frame := ether_frame _ _ _ _). set (w4 := transmit _ _ _ _).
  assert (cached w4 a rest true 2) as Hca4.
  { split; [by change (entries w4) with (entries w3); rewrite Een|done| | |lia]; change (timers_of w4) with (timers_of w3); rewrite Etm.
    - cbn. rewrite lookup_insert_eq. by eexists.
    - cbn. rewrite Href. cbn. by rewrite lookup_alter_eq, Hc. }
  destruct (ref_put_cached w4 a rest true 2 (ar_netdev a) Hca4 ltac:(lia)) as (w5 & E5 & Hca5 & Hst5 & Hs5 & _).
  eexists w5, _. split; [exact E5|]. split; [done|]. rewrite Hs5, Hst5. split; [by change (sent w4) with (sent w3 ++ [frame]); rewrite Ese|].
  cbn. rewrite lookup_insert_eq. split; [done|]. split; [by apply ether_open_queue|done].
Qed.

(** ** Packets. *)
Definition arp_packet (op : Z) (sha spa tha tpa : list Z) : list Z :=
  arphdr_bytes (Arphdr ARPHRD_ETHER ETH_P_IP ETH_ALEN 4 op) ++ sha ++ spa ++ tha ++ tpa.

Lemma field_at x y z off len : zlen x = off -> zlen y = len -> field (x ++ y ++ z) off len = Some y.
Proof.
  intros Hx Hy. unfold field. rewrite !length_app. destruct (Z.ltb_spec (Z.of_nat (length x + (length y + length z))) (off + len)); [lia|].
  subst off len. rewrite !Nat2Z.id, drop_app_length, take_app_length. done.
Qed.

(** The lengths of the addresses of a packet. *)
Record addresses (sha spa tha tpa : list Z) : Prop := {
  ad_sha : length sha = 6%nat;
  ad_spa : length spa = 4%nat;
  ad_tha : length tha = 6%nat;
  ad_tpa : length tpa = 4%nat }.

Abbreviation hdr op := (Arphdr ARPHRD_ETHER ETH_P_IP ETH_ALEN 4 op).

Lemma arp_fields op sha spa tha tpa pad : op = ARPOP_REQUEST \/ op = ARPOP_REPLY -> addresses sha spa tha tpa ->
  let d := arp_packet op sha spa tha tpa ++ pad in
  arphdr_at d = Some (hdr op) /\ arp_sender_ha (hdr op) d = Some sha /\ arp_sender_pa (hdr op) d = Some spa /\
  arp_target_ha (hdr op) d = Some tha /\ arp_target_pa (hdr op) d = Some tpa /\
  field d ARPHDR_LEN 10 = Some (sha ++ spa) /\ field d (ARPHDR_LEN + ETH_ALEN + 4) 10 = Some (tha ++ tpa) /\
  drop 28 d = pad.
Proof.
  intros Hop [H1 H2 H3 H4]. cbv zeta. unfold arp_packet. assert (length (arphdr_bytes (hdr op)) = 8%nat) as Hh by done.
  set (hb := arphdr_bytes (hdr op)) in *. unfold arp_sender_ha, arp_sender_pa, arp_target_ha, arp_target_pa.
  cbn [ar_hln ar_pln]. unfold ARPHDR_LEN, ETH_ALEN. split_and!.
  - subst hb. by destruct Hop as [-> | ->].
  - rewrite <- !app_assoc. apply field_at; lia.
  - rewrite <- !app_assoc, (app_assoc hb). apply field_at; [rewrite length_app|]; lia.
  - rewrite <- !app_assoc, (app_assoc hb), (app_assoc (hb ++ sha)). apply field_at; [rewrite !length_app|]; lia.
  - rewrite <- !app_assoc, (app_assoc hb), (app_assoc (hb ++ sha)), (app_assoc ((hb ++ sha) ++ spa)). apply field_at; [rewrite !length_app|]; lia.
  - rewrite <- !app_assoc, (app_assoc sha). apply field_at; [|rewrite length_app]; lia.
  - rewrite <- !app_assoc, (app_assoc hb), (app_assoc (hb ++ sha)), (app_assoc tha). apply field_at; [rewrite !length_app|rewrite length_app]; lia.
  - rewrite drop_app_ge by (rewrite !length_app; lia). replace (28 - length _)%nat with 0%nat by (rewrite !length_app; lia). done.
Qed.

Lemma arp_reply_packet sha spa tha tpa pad lla : addresses sha spa tha tpa -> 6 <= zlen lla ->
  arp_reply (hdr ARPOP_REQUEST) (arp_packet ARPOP_REQUEST sha spa tha tpa ++ pad) lla =
    Some (arp_packet ARPOP_REPLY (take 6 lla) tpa sha spa ++ pad).
Proof.
  intros Ha Hl. destruct (arp_fields ARPOP_REQUEST sha spa tha tpa pad (or_introl eq_refl) Ha) as (_ & _ & _ & _ & _ & E1 & E2 & E3).
  unfold arp_reply. cbn [ar_hln ar_pln ar_hrd ar_pro]. change (ETH_ALEN + 4) with 10. rewrite E1. cbn [mbind option_bind].
  rewrite E2. cbn [mbind option_bind]. change (Z.to_nat (ARPHDR_LEN + 2 * 10)) with 28%nat. rewrite E3. destruct Ha as [H1 H2 H3 H4].
  unfold memcpy. change (Z.to_nat ETH_ALEN) with 6%nat. rewrite drop_app_ge by lia. rewrite H3. cbn [Nat.sub]. rewrite drop_0.
  unfold arp_packet. by rewrite <- !app_assoc.
Qed.

Context (protocols : list (arp_net_protocol (D := wire))) (np : arp_net_protocol (D := wire)).
Context (Hnp : arp_find_protocol protocols ETH_P_IP = Some np) (Hproto : anp_net_proto np = ETH_P_IP) (Hlen : anp_addr_len np = 4).

Lemma rx_checks d : ether_open d -> forall op, negb (ar_hrd (hdr op) =? ll_proto (nd_ll d)) || negb (ar_hln (hdr op) =? ll_addr_len (nd_ll d)) ||
  negb (ar_pln (hdr op) =? anp_addr_len np) = false.
Proof. intros [-> _ _ _] op. by rewrite Hlen. Qed.

(** A request for one of our addresses is answered. *)
Lemma rx_request w q d sha spa tha tpa pad : addresses sha spa tha tpa -> nw_store w !! q = Some d -> ether_open d ->
  list_find (arp_matches q ETH_P_IP 4 spa) (entries w) = None -> anp_check np q tpa w = true ->
  arp_rx env protocols (arp_packet ARPOP_REQUEST sha spa tha tpa ++ pad) q w =
    Some (transmit q d (ether_frame sha (ll_addr d) ETH_P_ARP (arp_packet ARPOP_REPLY (take 6 (ll_addr d)) tpa sha spa ++ pad)) w, RC_OK).
Proof.
  intros Ha Hd Ho Hnone Hcheck.
  destruct (arp_fields ARPOP_REQUEST sha spa tha tpa pad (or_introl eq_refl) Ha) as (E0 & E1 & E2 & _ & E4 & _).
  unfold arp_rx. rewrite E0. cbn [mbind option_bind]. change (ar_pro (hdr ARPOP_REQUEST)) with ETH_P_IP. rewrite Hnp, Hd. cbn [mbind option_bind].
  rewrite rx_checks by done. rewrite E2. cbn [mbind option_bind]. rewrite Hproto, Hlen. unfold arp_find. rewrite Hnone. cbn [mbind option_bind].
  change (ar_op (hdr ARPOP_REQUEST) =? ARPOP_REQUEST) with true. cbn [negb]. rewrite E4. cbn [mbind option_bind]. rewrite Hcheck. cbn [negb].
  rewrite Hd. cbn [mbind option_bind]. rewrite (arp_reply_packet sha spa tha tpa pad (ll_addr d) Ha (eo_addr _ Ho)). cbn [mbind option_bind].
  assert (addresses (take 6 (ll_addr d)) tpa sha spa) as Ha'.
  { destruct Ha. pose proof (eo_addr _ Ho). split; try done. rewrite length_take. lia. }
  destruct (arp_fields ARPOP_REPLY (take 6 (ll_addr d)) tpa sha spa pad (or_intror eq_refl) Ha') as (_ & _ & _ & E3 & _).
  change (arp_target_ha (hdr ARPOP_REQUEST)) with (arp_target_ha (hdr ARPOP_REPLY)). rewrite E3. cbn [mbind option_bind].
  by apply net_tx_wire.
Qed.

(** A reply resolves the entry for its sender. *)
Lemma rx_reply w a rest c d sha spa tha tpa pad : addresses sha spa tha tpa -> cached w a rest true c -> 1 <= c < 50 ->
  nw_store w !! ar_netdev a = Some d -> ether_open d -> arp_matches (ar_netdev a) ETH_P_IP 4 spa a ->
  exists w' d', arp_rx env protocols (arp_packet ARPOP_REPLY sha spa tha tpa ++ pad) (ar_netdev a) w = Some (w', RC_OK) /\
    cached w' (resolved sha a) rest false (c - 1) /\
    sent w' = sent w ++ (ether_frame sha (ll_addr d) ETH_P_IP <$> ar_tx_queue a) /\
    nw_store w' !! ar_netdev a = Some d' /\ ether_open d' /\ ll_addr d' = ll_addr d.
Proof.
  intros Ha Hca Hc Hd Ho Hm.
  destruct (arp_fields ARPOP_REPLY sha spa tha tpa pad (or_intror eq_refl) Ha) as (E0 & E1 & E2 & _).
  unfold arp_rx. rewrite E0. cbn [mbind option_bind]. change (ar_pro (hdr ARPOP_REPLY)) with ETH_P_IP. rewrite Hnp, Hd. cbn [mbind option_bind].
  rewrite rx_checks by done. rewrite E2. cbn [mbind option_bind]. rewrite Hproto, Hlen. unfold arp_find.
  rewrite (ca_entries _ _ _ _ _ Hca). cbn [list_find]. rewrite decide_True by done. cbn [delete list_delete].
  rewrite E1. cbn [mbind option_bind].
  assert (cached (set_entries (a :: rest) w) a rest true c) as Hca1 by (by destruct Hca).
  destruct (arp_update_run (set_entries (a :: rest) w) a rest c d sha Hca1 Hc Hd Ho) as (w' & d' & E & Hca' & Hs & Hd' & Ho' & Hl').
  rewrite E. cbn [mbind option_bind]. change (ar_op (hdr ARPOP_REPLY) =? ARPOP_REQUEST) with false. cbn [negb].
  destruct Hm as (_ & Ep & _). rewrite Ep in Hs. eexists _, d'. split; [reflexivity|]. split; [by destruct Hca'|]. done.
Qed.
End ArpProofs.

(** ** Two hosts on a wire. *)
Section Resolution.
Context (tps : Z) (Htps : 8 <= tps < 2 ^ 28).
Context (env : net_env (arp_ext wire)) (Henv : netdev_op env = lift_nic wire_nic).
Context (protocols : list (arp_net_protocol (D := wire))) (np : arp_net_protocol (D := wire)).
Context (Hnp : arp_find_protocol protocols ETH_P_IP = Some np) (Hproto : anp_net_proto np = ETH_P_IP) (Hlen : anp_addr_len np = 4).
(** The devices with the network protocols, ARP among them. *)
Context (net : net_env (arp_ext wire)) (i : nat).
Context (Hnet : list_find (fun x => net_proto x = ETH_P_ARP) (net_protocols net) = Some (i, arp_protocol env protocols)).
Implicit Types (w : net_world (arp_ext wire)) (d : net_device) (a : arp_entry).

Lemma process_arp w p d ll_dest ll_source x w' : nw_store w !! p = Some d -> ether_open d -> 6 <= zlen ll_dest -> 6 <= zlen ll_source ->
  arp_rx env protocols x p w = Some (w', RC_OK) -> process_packet net p (ether_frame ll_dest ll_source ETH_P_ARP x) w = Some w'.
Proof.
  intros Hd Ho H1 H2 E. destruct (eth_push_pull x ll_dest ll_source ETH_P_ARP H1 H2 ltac:(done)) as (frame & Ep & Epull).
  assert (frame = ether_frame ll_dest ll_source ETH_P_ARP x) as -> by (symmetry; by apply (inj inr) in Ep).
  unfold process_packet. rewrite Hd. cbn [mbind option_bind]. rewrite (eo_ll _ Ho). cbn [ll_pull ethernet_protocol]. rewrite Epull.
  cbn [pl_iobuf pl_proto pl_dest pl_source pl_flags]. unfold net_rx. rewrite Hnet. cbn [net_rx_method arp_protocol]. rewrite E. done.
Qed.

Abbreviation ip_tx ipB ipA lla p b w := (arp_tx tps env b p ETH_P_IP 4 ipB ipA lla w).

(** Packets that are sent one after the other. *)
Fixpoint arp_txs (bs : list (list Z)) (p : loc) (ipB ipA lla : list Z) w : option (net_world (arp_ext wire) * list rc) :=
  match bs with
  | [] => Some (w, [])
  | b :: bs => '(w, r) ← ip_tx ipB ipA lla p b w; '(w, rs) ← arp_txs bs p ipB ipA lla w; Some (w, r :: rs)
  end.

Lemma defer_run bs : forall w a rest c ipB ipA lla, cached w a rest true c -> arp_matches (ar_netdev a) ETH_P_IP 4 ipB a ->
  exists w', arp_txs bs (ar_netdev a) ipB ipA lla w = Some (w', replicate (length bs) (RC_ERR EAGAIN)) /\
    cached w' (set_queue (ar_tx_queue a ++ bs) a) rest true c /\ sent w' = sent w /\ timers_of w' = timers_of w /\
    nw_store w' = nw_store w /\ arp_allocs (nw_ext w') = arp_allocs (nw_ext w).
Proof.
  induction bs as [|b bs IH]; intros w a rest c ipB ipA lla Hca Hm; cbn [arp_txs length replicate].
  { exists w. assert (set_queue (ar_tx_queue a ++ []) a = a) as -> by (destruct a; cbn; by rewrite app_nil_r). done. }
  unfold arp_tx, arp_find. rewrite (ca_entries _ _ _ _ _ Hca). cbn [list_find]. rewrite decide_True by done. cbn [delete list_delete mbind option_bind].
  assert (cached (set_entries (a :: rest) w) a rest true c) as Hca1 by (by destruct Hca).
  unfold arp_resolved, timer_running. destruct (ca_timer _ _ _ _ _ Hca1) as (t & Ht & Hrun & _). rewrite Ht. cbn [mbind option_bind]. rewrite Hrun. cbn [negb].
  destruct (update_cached _ a rest true c (fun x => set_queue (ar_tx_queue x ++ [b]) x) Hca1 eq_refl) as [_ Hca2].
  set (w2 := update_entry _ _ _) in *. cbn [mbind option_bind].
  destruct (IH w2 (set_queue (ar_tx_queue a ++ [b]) a) rest c ipB ipA lla Hca2 Hm) as (w' & E & Hca' & Hs & Ht' & Hst & Hal).
  change (ar_netdev (set_queue (ar_tx_queue a ++ [b]) a)) with (ar_netdev a) in E. rewrite E. cbn [mbind option_bind].
  exists w'. split; [done|]. cbn [set_queue ar_tx_queue] in Hca'. rewrite <- app_assoc in Hca'. by rewrite Hs, Ht', Hst, Hal.
Qed.

Lemma new_entry_dest e p ipB ipA : length ipB = 4%nat -> length ipA = 4%nat ->
  ar_net_dest (new_entry e p ETH_P_IP 4 ipB ipA) = ipB /\ ar_net_source (new_entry e p ETH_P_IP 4 ipB ipA) = ipA.
Proof. intros H1 H2. cbn [new_entry ar_net_dest ar_net_source]. unfold memcpy. rewrite !take_ge by (simpl; lia). by rewrite !app_nil_r. Qed.

(** The first packets for an address: an entry is made and holds them. *)
Lemma first_packets w p ipB ipA lla bs e l : bs <> [] -> length ipB = 4%nat -> length ipA = 4%nat ->
  list_find (arp_matches p ETH_P_IP 4 ipB) (entries w) = None -> arp_allocs (nw_ext w) = Some e :: l ->
  Forall (fun b => ar_at b <> e) (entries w) ->
  exists w', arp_txs bs p ipB ipA lla w = Some (w', replicate (length bs) (RC_ERR EAGAIN)) /\
    cached w' (set_queue bs (new_entry e p ETH_P_IP 4 ipB ipA)) (entries w) true 1 /\ fresh_timer tps w' e /\
    sent w' = sent w /\ nw_store w' = nw_store w /\ arp_allocs (nw_ext w') = l.
Proof.
  intros Hbs HB HA Hnone Hal Hf. destruct bs as [|b bs]; [done|]. cbn [arp_txs]. unfold arp_tx at 1, arp_find at 1. rewrite Hnone.
  destruct (create_run tps w p ETH_P_IP 4 ipB ipA e l Hal Hf) as (w1 & -> & Hca & Hft & Hst & Hs & Hal1). cbn [mbind option_bind].
  set (a := new_entry e p ETH_P_IP 4 ipB ipA) in *.
  unfold arp_resolved, timer_running. destruct (ca_timer _ _ _ _ _ Hca) as (t & Ht & Hrun & _). rewrite Ht. cbn [mbind option_bind]. rewrite Hrun. cbn [negb].
  destruct (update_cached _ a _ true 1 (fun x => set_queue (ar_tx_queue x ++ [b]) x) Hca eq_refl) as [_ Hca2].
  set (w2 := update_entry _ _ _) in *. cbn [mbind option_bind].
  destruct (defer_run bs w2 (set_queue [b] a) _ 1 ipB ipA lla Hca2) as (w' & E & Hca' & Hs' & Ht' & Hst' & Hal').
  { split; [done|]. split; [done|]. change (take (Z.to_nat 4) (ar_net_dest a) = take (Z.to_nat 4) ipB). subst a. by rewrite (proj1 (new_entry_dest e p ipB ipA HB HA)). }
  change (ar_netdev (set_queue [b] a)) with p in E. rewrite E. cbn [mbind option_bind].
  exists w'. split; [done|]. split; [done|]. split; [unfold fresh_timer in *; by rewrite Ht'|]. by rewrite Hs', Hst', Hal'.
Qed.

(** A packet for a resolved address is sent at once. *)
Lemma resolved_tx w a rest c d ipB ipA b : cached w a rest false c -> arp_matches (ar_netdev a) ETH_P_IP 4 ipB a ->
  nw_store w !! ar_netdev a = Some d -> ether_open d ->
  exists w', ip_tx ipB ipA (ll_addr d) (ar_netdev a) b w = Some (w', RC_OK) /\
    sent w' = sent w ++ [ether_frame (ar_ll_dest a) (ll_addr d) ETH_P_IP b].
Proof.
  intros Hca Hm Hd Ho. unfold arp_tx, arp_find. rewrite (ca_entries _ _ _ _ _ Hca). cbn [list_find]. rewrite decide_True by done.
  cbn [delete list_delete mbind option_bind]. unfold arp_resolved, timer_running.
  destruct (ca_timer _ _ _ _ _ Hca) as (t & Ht & Hrun & _). change (timers_of (set_entries (a :: rest) w)) with (timers_of w). rewrite Ht.
  cbn [mbind option_bind]. rewrite Hrun. cbn [negb]. rewrite (net_tx_wire env Henv _ d) by done. by eexists.
Qed.
End Resolution.

Section TwoHosts.
Context (tps : Z) (Htps : 8 <= tps < 2 ^ 28).
Context (envA envB netA netB : net_env (arp_ext wire)) (HenvA : netdev_op envA = lift_nic wire_nic) (HenvB : netdev_op envB = lift_nic wire_nic).
Context (protA protB : list (arp_net_protocol (D := wire))) (npA npB : arp_net_protocol (D := wire)) (iA iB : nat).
Context (HnpA : arp_find_protocol protA ETH_P_IP = Some npA) (HprotoA : anp_net_proto npA = ETH_P_IP) (HlenA : anp_addr_len npA = 4).
Context (HnpB : arp_find_protocol protB ETH_P_IP = Some npB) (HprotoB : anp_net_proto npB = ETH_P_IP) (HlenB : anp_addr_len npB = 4).
Context (HnetA : list_find (fun x => net_proto x = ETH_P_ARP) (net_protocols netA) = Some (iA, arp_protocol envA protA)).
Context (HnetB : list_find (fun x => net_proto x = ETH_P_ARP) (net_protocols netB) = Some (iB, arp_protocol envB protB)).

(** The frames of the exchange, byte by byte: the question goes to the
    broadcast address and names the sender of [ipA]; the answer goes to the
    asker and names the owner of [ipB]. *)
Definition arp_question (macA ipA ipB : list Z) : list Z :=
  [0xff; 0xff; 0xff; 0xff; 0xff; 0xff] ++ macA ++ [0x08; 0x06] ++ [0; 1; 8; 0; 6; 4; 0; 1] ++ macA ++ ipA ++ [0; 0; 0; 0; 0; 0] ++ ipB.
Definition arp_answer (macA ipA macB ipB : list Z) : list Z :=
  macA ++ macB ++ [0x08; 0x06] ++ [0; 1; 8; 0; 6; 4; 0; 2] ++ macB ++ ipB ++ macA ++ ipA.

(** The exchange of a request and a reply. *)
Lemma arp_exchange wA wB p q dA dB ipA ipB packets more e x l :
  nw_store wA !! p = Some dA -> ether_open dA -> nw_store wB !! q = Some dB -> ether_open dB ->
  length ipA = 4%nat -> length ipB = 4%nat -> packets <> [] ->
  list_find (arp_matches p ETH_P_IP 4 ipB) (entries wA) = None -> list_find (arp_matches q ETH_P_IP 4 ipA) (entries wB) = None ->
  arp_allocs (nw_ext wA) = Some e :: Some x :: l -> Forall (fun b => ar_at b <> e) (entries wA) ->
  anp_check npB q ipB wB = true ->
  exists w1 w2 w3 w4 wB',
    let macA := take 6 (ll_addr dA) in let macB := take 6 (ll_addr dB) in
    arp_txs tps envA packets p ipB ipA (ll_addr dA) wA = Some (w1, replicate (length packets) (RC_ERR EAGAIN)) /\ sent w1 = sent wA /\
    arp_timer_expired tps envA e w1 = Some w2 /\ sent w2 = sent w1 ++ [arp_question macA ipA ipB] /\
    process_packet netB q (arp_question macA ipA ipB) wB = Some wB' /\ sent wB' = sent wB ++ [arp_answer macA ipA macB ipB] /\
    process_packet netA p (arp_answer macA ipA macB ipB) w2 = Some w3 /\
    sent w3 = sent w2 ++ (ether_frame (ll_addr dB) (ll_addr dA) ETH_P_IP <$> packets) /\
    arp_tx tps envA more p ETH_P_IP 4 ipB ipA (ll_addr dA) w3 = Some (w4, RC_OK) /\
    sent w4 = sent w3 ++ [ether_frame (ll_addr dB) (ll_addr dA) ETH_P_IP more].
Proof.
  intros HpA HoA HqB HoB HA HB Hne HnoneA HnoneB Hal Hfresh Hcheck.
  destruct (first_packets tps envA wA p ipB ipA (ll_addr dA) packets e (Some x :: l) Hne HB HA HnoneA Hal Hfresh) as (w1 & E1 & Hca1 & Hft1 & Hs1 & Hst1 & Hal1).
  set (a := set_queue packets (new_entry e p ETH_P_IP 4 ipB ipA)) in *. rewrite <- Hst1 in HpA.
  destruct (expiry_run tps Htps envA HenvA w1 a _ dA l x Hca1 Hft1 Hal1 HpA HoA) as (w2 & d2 & E2 & Hca2 & Hs2 & Hd2 & Ho2 & Ha2).
  destruct (new_entry_dest e p ipB ipA HB HA) as [Edest Esrc]. pose proof (eo_addr _ HoA) as LA. pose proof (eo_addr _ HoB) as LB.
  assert (arp_request dA a = arp_packet ARPOP_REQUEST (take 6 (ll_addr dA)) ipA (replicate 6 0) ipB ++ []) as Ereq.
  { rewrite app_nil_r. unfold arp_request. rewrite (eo_ll _ HoA). change (ar_net_source a) with (ar_net_source (new_entry e p ETH_P_IP 4 ipB ipA)).
    change (ar_net_dest a) with (ar_net_dest (new_entry e p ETH_P_IP 4 ipB ipA)). rewrite Edest, Esrc. change (Z.to_nat (ar_addr_len a)) with 4%nat.
    by rewrite !(take_ge (A := Z) ipA), (take_ge (A := Z) ipB) by lia. }
  assert (addresses (take 6 (ll_addr dA)) ipA (replicate 6 0) ipB) as Haddr by (split; [rewrite length_take; lia|done..]).
  pose proof (rx_request envB HenvB protB npB HnpB HprotoB HlenB wB q dB _ _ _ _ [] Haddr HqB HoB HnoneB Hcheck) as Erx.
  set (request := ether_frame eth_broadcast (ll_addr dA) ETH_P_ARP (arp_request dA a)) in *.
  set (reply := ether_frame (take 6 (ll_addr dA)) (ll_addr dB) ETH_P_ARP _) in *.
  assert (process_packet netB q request wB = Some (transmit q dB reply wB)) as E3.
  { apply (process_arp envB protB netB iB HnetB wB q dB); [done|done|done|lia|]. by rewrite Ereq. }
  assert (addresses (take 6 (ll_addr dB)) ipB (take 6 (ll_addr dA)) ipA) as Haddr' by (split; [rewrite length_take; lia|done|rewrite length_take; lia|done]).
  assert (arp_matches p ETH_P_IP 4 ipB a) as Hm.
  { split; [done|]. split; [done|]. change (ar_net_dest a) with (ar_net_dest (new_entry e p ETH_P_IP 4 ipB ipA)). by rewrite Edest. }
  destruct (rx_reply envA HenvA protA npA HnpA HprotoA HlenA w2 a _ 1 d2 _ _ _ _ [] Haddr' Hca2 ltac:(lia) Hd2 Ho2 Hm) as (w3 & d3 & E4 & Hca3 & Hs3 & Hd3 & Ho3 & Ha3).
  destruct (resolved_tx tps envA HenvA w3 _ _ _ d3 ipB ipA more Hca3 Hm Hd3 Ho3) as (w4 & E5 & Hs4).
  assert (forall proto b, ether_frame (take 6 (ll_addr dB)) (ll_addr dA) proto b = ether_frame (ll_addr dB) (ll_addr dA) proto b) as Hframe.
  { intros proto b. unfold ether_frame. by rewrite take_take. }
  assert (arp_question (take 6 (ll_addr dA)) ipA ipB = request) as Eq.
  { unfold request. rewrite Ereq. unfold ether_frame. by rewrite app_nil_r. }
  assert (arp_answer (take 6 (ll_addr dA)) ipA (take 6 (ll_addr dB)) ipB = reply) as Er.
  { unfold reply, ether_frame. by rewrite take_take, app_nil_r. }
  exists w1, w2, w3, w4, (transmit q dB reply wB). cbv zeta. rewrite Eq, Er. split_and!; try done.
  - apply (process_arp envA protA netA iA HnetA w2 p d2); [done|done|rewrite length_take; lia|lia|]. exact E4.
  - rewrite Hs3, Ha2. f_equal. apply list_fmap_ext. intros j b _. apply Hframe.
  - by rewrite Ha3, Ha2 in E5.
  - rewrite Hs4, Ha3, Ha2. f_equal. f_equal. unfold ether_frame. f_equal.
    change (take 6 (memcpy (replicate 20 0) (take 6 (ll_addr dB)) 6) = take 6 (ll_addr dB)). unfold memcpy. change (Z.to_nat 6) with 6%nat.
    rewrite take_app_le by (rewrite !length_take; lia). by rewrite !take_take.
Qed.

(** C26: address resolution works between two hosts on a wire.  Packets for an
    address that is not in the cache are deferred and nothing is sent; the
    first expiry of the timer sends exactly one frame, the ARP request for the
    address to the Ethernet broadcast address; the host that has the address
    answers with one frame to the asker, the ARP reply with its hardware
    address; the answer makes the first host send all deferred
    packets, in their order, to the other host's hardware address, and a later
    packet is sent there at once. *)
Theorem arp_resolves wA wB p q dA dB ipA ipB packets more e x l :
  nw_store wA !! p = Some dA -> ether_open dA -> nw_store wB !! q = Some dB -> ether_open dB ->
  length ipA = 4%nat -> length ipB = 4%nat -> packets <> [] ->
  list_find (arp_matches p ETH_P_IP 4 ipB) (entries wA) = None -> list_find (arp_matches q ETH_P_IP 4 ipA) (entries wB) = None ->
  arp_allocs (nw_ext wA) = Some e :: Some x :: l -> Forall (fun b => ar_at b <> e) (entries wA) ->
  anp_check npB q ipB wB = true ->
  exists w1 w2 w3 w4 wB',
    let macA := take 6 (ll_addr dA) in let macB := take 6 (ll_addr dB) in
    arp_txs tps envA packets p ipB ipA (ll_addr dA) wA = Some (w1, replicate (length packets) (RC_ERR EAGAIN)) /\ sent w1 = sent wA /\
    arp_timer_expired tps envA e w1 = Some w2 /\ sent w2 = sent w1 ++ [arp_question macA ipA ipB] /\
    process_packet netB q (arp_question macA ipA ipB) wB = Some wB' /\ sent wB' = sent wB ++ [arp_answer macA ipA macB ipB] /\
    process_packet netA p (arp_answer macA ipA macB ipB) w2 = Some w3 /\
    sent w3 = sent w2 ++ (ether_frame (ll_addr dB) (ll_addr dA) ETH_P_IP <$> packets) /\
    arp_tx tps envA more p ETH_P_IP 4 ipB ipA (ll_addr dA) w3 = Some (w4, RC_OK) /\
    sent w4 = sent w3 ++ [ether_frame (ll_addr dB) (ll_addr dA) ETH_P_IP more].
Proof. apply arp_exchange. Qed.
End TwoHosts.

(** ** What the code does not check. *)

(** The length of a packet is not checked: one that is shorter than its header
    or than the addresses its header announces is read past its end. *)
Theorem arp_rx_reads_past {D} (env : net_env (arp_ext D)) protocols iobuf netdev w : zlen iobuf < ARPHDR_LEN ->
  arp_rx env protocols iobuf netdev w = None.
Proof.
  intros H. unfold arp_rx. assert (arphdr_at iobuf = None) as ->; [|done].
  do 8 (destruct iobuf as [|? iobuf]; [done|]). cbn [length] in H. unfold ARPHDR_LEN in H. lia.
Qed.

(** When no entry can be allocated the packet is neither sent, nor queued, nor
    freed: it is lost to the heap. *)
Theorem arp_tx_leaks {D} tps (env : net_env (arp_ext D)) iobuf p proto alen net_dest net_source lla w :
  list_find (arp_matches p proto alen net_dest) (entries w) = None -> arp_allocs (nw_ext w) = [] ->
  arp_tx tps env iobuf p proto alen net_dest net_source lla w = Some (w, RC_ERR ENOMEM).
Proof. intros Hnone Hal. unfold arp_tx, arp_find. rewrite Hnone. unfold arp_create, arp_alloc. rewrite Hal. done. Qed.

(** ** Instances: two hosts that own one address each. *)
Definition base_env : net_env (arp_ext wire) :=
  NetEnv _ (lift_nic wire_nic) [] [] (fun _ w => Some (w, RC_OK)) (fun _ w => Some w) (fun _ w => Some w).
Definition ip_owner (ip : list Z) : arp_net_protocol (D := wire) := ArpNetProtocol ETH_P_IP 4 (fun _ addr _ => bool_decide (addr = ip)).
Definition arp_env (ip : list Z) : net_env (arp_ext wire) :=
  NetEnv _ (lift_nic wire_nic) [] [arp_protocol base_env [ip_owner ip]] (fun _ w => Some (w, RC_OK)) (fun _ w => Some w) (fun _ w => Some w).
Definition arp_host (mac : list Z) (allocs : list (option loc)) : net_world (arp_ext wire) :=
  NetWorld {[1%positive := ether_device mac]} [1%positive] [1%positive] 0 (Refs ∅ []) [] (ArpExt [] (Timers [] ∅ (Refs ∅ [])) 100 allocs (Wire [] [])).

Lemma ether_device_open mac : length mac = 6%nat -> ether_open (ether_device mac).
Proof. intros H. split; [done|done| |done]. cbn. rewrite length_app. lia. Qed.

Lemma arp_resolves_witness : exists w1 w2 w3 w4 wB',
    arp_txs 18 base_env [[1]; [2]] 1 [10; 0; 0; 2] [10; 0; 0; 1] ([2; 0; 0; 0; 0; 1] ++ replicate 14 0) (arp_host [2; 0; 0; 0; 0; 1] [Some 5%positive; Some 6%positive]) =
      Some (w1, [RC_ERR EAGAIN; RC_ERR EAGAIN]) /\ sent w1 = [] /\
    arp_timer_expired 18 base_env 5 w1 = Some w2 /\ sent w2 = sent w1 ++ [arp_question [2; 0; 0; 0; 0; 1] [10; 0; 0; 1] [10; 0; 0; 2]] /\
    process_packet (arp_env [10; 0; 0; 2]) 1 (arp_question [2; 0; 0; 0; 0; 1] [10; 0; 0; 1] [10; 0; 0; 2]) (arp_host [2; 0; 0; 0; 0; 2] []) = Some wB' /\ sent wB' = [] ++ [arp_answer [2; 0; 0; 0; 0; 1] [10; 0; 0; 1] [2; 0; 0; 0; 0; 2] [10; 0; 0; 2]] /\
    process_packet (arp_env [10; 0; 0; 1]) 1 (arp_answer [2; 0; 0; 0; 0; 1] [10; 0; 0; 1] [2; 0; 0; 0; 0; 2] [10; 0; 0; 2]) w2 = Some w3 /\
    sent w3 = sent w2 ++ (ether_frame ([2; 0; 0; 0; 0; 2] ++ replicate 14 0) ([2; 0; 0; 0; 0; 1] ++ replicate 14 0) ETH_P_IP <$> [[1]; [2]]) /\
    arp_tx 18 base_env [3] 1 ETH_P_IP 4 [10; 0; 0; 2] [10; 0; 0; 1] ([2; 0; 0; 0; 0; 1] ++ replicate 14 0) w3 = Some (w4, RC_OK) /\
    sent w4 = sent w3 ++ [ether_frame ([2; 0; 0; 0; 0; 2] ++ replicate 14 0) ([2; 0; 0; 0; 0; 1] ++ replicate 14 0) ETH_P_IP [3]].
Proof.
  exact (arp_resolves 18 ltac:(lia) base_env base_env (arp_env [10; 0; 0; 1]) (arp_env [10; 0; 0; 2]) eq_refl eq_refl
    [ip_owner [10; 0; 0; 1]] [ip_owner [10; 0; 0; 2]] (ip_owner [10; 0; 0; 1]) (ip_owner [10; 0; 0; 2]) 0 0 eq_refl eq_refl eq_refl eq_refl eq_refl eq_refl eq_refl eq_refl
    (arp_host [2; 0; 0; 0; 0; 1] [Some 5%positive; Some 6%positive]) (arp_host [2; 0; 0; 0; 0; 2] []) 1 1
    (ether_device [2; 0; 0; 0; 0; 1]) (ether_device [2; 0; 0; 0; 0; 2]) [10; 0; 0; 1] [10; 0; 0; 2] [[1]; [2]] [3] 5 6 []
    eq_refl (ether_device_open [2; 0; 0; 0; 0; 1] eq_refl) eq_refl (ether_device_open [2; 0; 0; 0; 0; 2] eq_refl) eq_refl eq_refl ltac:(done) eq_refl eq_refl eq_refl ltac:(constructor) eq_refl).
Defined.
