(* ===== verification/IpLink.v ===== *)
(** * IPv4 on Ethernet: the environment of Ipv4 made from the device layer of
    Netdev and the cache of Arp, and the way of a datagram between two hosts
    that have not talked to each other before. *)
From S2P Require Import Prelude LinkedList Checksum Retry Strings Ipv4 IpPath Ethernet Netdev Arp.

Section Link.
Variable tps : Z.
Variable env : net_env (arp_ext wire).
Abbreviation net := (net_world (arp_ext wire)).
Variable tcpip : list (Z * (datagram -> ip_world net -> ip_world net * rc)).
Variable settings : loc -> net -> ipv4_settings.

(** The link layer on the device a route names.  The environment of Ipv4 has
    total functions; the value for a device that is not in the store is a
    convention, which the theorems below never meet. *)
Definition on_device (p : loc) (f : net_device -> option (net * rc)) (n : net) : net * rc :=
  match d ← nw_store n !! p; f d with
  | Some r => r
  | None => (n, RC_ERR ENODEV)
  end.

Definition link_ip_env : ip_env net :=
  IpEnv tps
    (fun p n => match nw_store n !! p with Some d => Netdev.netdev_is_open d | None => false end)
    (fun p n => match nw_store n !! p with Some d => (bad (Netdev.rx_stats d), good (Netdev.rx_stats d)) | None => (0, 0) end)
    (fun _ => eth_broadcast)
    (fun _ addr => match eth_mc_hash true (be_bytes 4 addr) with inr a => inl a | inl e => inr e end)
    (fun packet p ll_dest n => on_device p (fun d => net_tx env packet p ETH_P_IP ll_dest (ll_addr d) n) n)
    (fun packet p next_hop src n => on_device p (fun d => Arp.arp_tx tps env packet p ETH_P_IP 4 (be_bytes 4 next_hop) (be_bytes 4 src) (ll_addr d) n) n)
    tcpip net_devices settings.
End Link.

(** ipv4_arp_check() in the ARP table of a host.  It reads the routes alone,
    which neither ARP nor the transmission of a datagram changes. *)
Definition ipv4_arp_protocol (w : ip_world (net_world (arp_ext wire))) : arp_net_protocol (D := wire) :=
  ArpNetProtocol ETH_P_IP 4 (fun netdev addr _ => bool_decide (ipv4_arp_check netdev (be_val addr) w = RC_OK)).

Section Datagram.
Context (tps : Z) (Htps : 8 <= tps < 2 ^ 28).
Context (envA envB netA netB : net_env (arp_ext wire)) (HenvA : netdev_op envA = lift_nic wire_nic) (HenvB : netdev_op envB = lift_nic wire_nic).
Abbreviation net := (net_world (arp_ext wire)).
Context (tcpipA tcpipB : list (Z * (datagram -> ip_world net -> ip_world net * rc))) (settingsA settingsB : loc -> net -> ipv4_settings).
Context (wA wB : ip_world net) (iA iB : nat).
Context (HnetA : list_find (fun x => net_proto x = ETH_P_ARP) (net_protocols netA) = Some (iA, arp_protocol envA [ipv4_arp_protocol wA])).
Context (HnetB : list_find (fun x => net_proto x = ETH_P_ARP) (net_protocols netB) = Some (iB, arp_protocol envB [ipv4_arp_protocol wB])).

Abbreviation ipA := (link_ip_env tps envA tcpipA settingsA).
Abbreviation ipB := (link_ip_env tps envB tcpipB settingsB).

(** C11: a datagram gets through to a host that was never talked to.  ipv4_tx()
    leaves it in the ARP cache; the expiry of the entry's timer sends exactly
    one frame, the ARP request to the Ethernet broadcast address; the host that
    has the address on a route answers with exactly one frame, the ARP reply to
    the sender; the answer makes the datagram leave in a frame to that host,
    whose link layer finds the packet in it; ipv4_rx() there, after the ARP
    exchange, accepts it and gives the segment to the transport protocol, with a
    checksum that verifies. *)
Theorem datagram_over_ethernet a b proto dest nd r q dA dB e x l :
  bytes_ok a -> bytes_ok b -> Z.even (zlen a) = true -> 20 + (zlen a + 2 + zlen b) < 2 ^ 16 -> is_byte proto ->
  0 <= dest < INADDR_BROADCAST -> IN_MULTICAST dest = false ->
  ipv4_route ipA dest wA = Some (r, dest) -> 0 <= mr_address r < 2 ^ 32 ->
  Z.land (Z.lxor dest INADDR_BROADCAST) (u32 (Z.lnot (mr_netmask r))) <> 0 ->
  nw_store (ip_net wA) !! mr_netdev r = Some dA -> ether_open dA -> nw_store (ip_net wB) !! q = Some dB -> ether_open dB ->
  list_find (arp_matches (mr_netdev r) ETH_P_IP 4 (be_bytes 4 dest)) (entries (ip_net wA)) = None ->
  list_find (arp_matches q ETH_P_IP 4 (be_bytes 4 (mr_address r))) (entries (ip_net wB)) = None ->
  arp_allocs (nw_ext (ip_net wA)) = Some e :: Some x :: l -> Forall (fun c => ar_at c <> e) (entries (ip_net wA)) ->
  ipv4_has_addr q dest wB = true ->
  let csum := tcpip_chksum (a ++ [0; 0] ++ b) in
  exists wA' n2 n3 nB' frame packet flags csum' pshdr_csum,
    let request := arp_question (take 6 (ll_addr dA)) (be_bytes 4 (mr_address r)) (be_bytes 4 dest) in
    let reply := arp_answer (take 6 (ll_addr dA)) (be_bytes 4 (mr_address r)) (take 6 (ll_addr dB)) (be_bytes 4 dest) in
    ipv4_tx ipA (a ++ [csum mod 256; csum / 256] ++ b) proto None dest nd (Some (length a)) wA = Some (wA', RC_ERR EAGAIN) /\
    arp_timer_expired tps envA e (ip_net wA') = Some n2 /\ sent n2 = sent (ip_net wA) ++ [request] /\
    process_packet netB q request (ip_net wB) = Some nB' /\ sent nB' = sent (ip_net wB) ++ [reply] /\
    process_packet netA (mr_netdev r) reply n2 = Some n3 /\ sent n3 = sent n2 ++ [frame] /\
    eth_pull frame = inr (Pulled packet (take 6 (ll_addr dB)) (take 6 (ll_addr dA)) ETH_P_IP flags) /\
    ipv4_rx ipB packet q flags (set_ip_net nB' wB) =
      Some (tcpip_rx (fun _ w => w) tcpipB (Datagram (a ++ [csum' mod 256; csum' / 256] ++ b) (mr_address r) dest pshdr_csum) proto (set_ip_net nB' wB)) /\
    generic_tcpip_continue_chksum pshdr_csum (a ++ [csum' mod 256; csum' / 256] ++ b) = 0.
Proof.
  intros Ha Hb He Hlen Hp Hd Hmc Hroute Hsrc Hbc HdA HoA HdB HoB HnoA HnoB Hal Hfresh Haddr csum.
  set (mc := is_multicast_ether_addr (ll_addr dB)). set (bc := is_broadcast_ether_addr (ll_addr dB)).
  set (flags := Z.lor (if mc then Ethernet.LL_MULTICAST else 0) (if bc then LL_BROADCAST else 0)).
  destruct (datagram_path ipA ipB a b proto None dest nd r dest wA Ha Hb He Hlen Hp Hd Hmc Hroute Hsrc) as (packet & csum' & ps & Etx & Erx & Ever).
  unfold ipv4_hand_off in Etx. rewrite (proj2 (Z.eqb_neq _ _) Hbc), Hmc in Etx.
  unfold on_net in Etx. cbn [Ipv4.arp_tx link_ip_env ip_net set_next_ident_high] in Etx. unfold on_device in Etx. rewrite HdA in Etx. cbn [mbind option_bind] in Etx.
  assert (be_val (be_bytes 4 dest) = dest) as Edest.
  { rewrite be_val_bytes. apply Z.mod_small. unfold INADDR_BROADCAST in Hd. simpl. lia. }
  destruct (arp_exchange tps Htps envA envB netA netB HenvA HenvB [ipv4_arp_protocol wA] [ipv4_arp_protocol wB] (ipv4_arp_protocol wA) (ipv4_arp_protocol wB)
    iA iB eq_refl eq_refl eq_refl eq_refl eq_refl eq_refl HnetA HnetB (ip_net wA) (ip_net wB) (mr_netdev r) q dA dB (be_bytes 4 (mr_address r)) (be_bytes 4 dest)
    [packet] [] e x l HdA HoA HdB HoB) as (w1 & w2 & w3 & w4 & nB' & E1 & S1 & E2 & S2 & E3 & S3 & E4 & S4 & _); try done.
  { cbn [ipv4_arp_protocol anp_check]. rewrite Edest. unfold ipv4_arp_check. by rewrite Haddr. }
  cbn [arp_txs] in E1. destruct (Arp.arp_tx _ _ _ _ _ _ _ _ _ _) as [[n1 r1]|] eqn:E; [|done]. cbn [mbind option_bind length replicate] in E1. injection E1 as -> ->.
  destruct (eth_push_pull packet (ll_addr dB) (ll_addr dA) ETH_P_IP (eo_addr _ HoB) (eo_addr _ HoA) ltac:(done)) as (frame & Ep & Epull).
  assert (frame = ether_frame (ll_addr dB) (ll_addr dA) ETH_P_IP packet) as -> by (symmetry; by apply (inj inr) in Ep).
  eexists _, w2, w3, nB', _, packet, flags, csum', ps. cbv zeta. split_and!.
  - exact Etx.
  - exact E2.
  - by rewrite S2, S1.
  - exact E3.
  - exact S3.
  - exact E4.
  - exact S4.
  - exact Epull.
  - specialize (Erx q flags [] (set_ip_net nB' wB)). rewrite app_nil_r in Erx. apply Erx.
    unfold accepts. change (ipv4_has_addr q dest (set_ip_net nB' wB)) with (ipv4_has_addr q dest wB). by rewrite Haddr, orb_true_r.
  - exact Ever.
Qed.
End Datagram.

(** ** Instances: 10.0.0.1 sends to 10.0.0.2 on the same network. *)
Definition no_settings (_ : loc) (_ : net_world (arp_ext wire)) : ipv4_settings := Settings 0 0 0.
Definition ip_host (ip : Z) (mac : list Z) (allocs : list (option loc)) : ip_world (net_world (arp_ext wire)) :=
  IpWorld 0 [Miniroute 2 1 ip 4294967040 0] [] (Timers [] ∅ (Refs ∅ [])) 100 [] (arp_host mac allocs).
Definition sender : ip_world (net_world (arp_ext wire)) := ip_host 167772161 [2; 0; 0; 0; 0; 1] [Some 5%positive; Some 6%positive].
Definition receiver : ip_world (net_world (arp_ext wire)) := ip_host 167772162 [2; 0; 0; 0; 0; 2] [].
Definition ip_net_env (w : ip_world (net_world (arp_ext wire))) : net_env (arp_ext wire) :=
  NetEnv _ (lift_nic wire_nic) [] [arp_protocol base_env [ipv4_arp_protocol w]] (fun _ w => Some (w, RC_OK)) (fun _ w => Some w) (fun _ w => Some w).

Lemma datagram_over_ethernet_witness :
  let csum := tcpip_chksum ([1; 2] ++ [0; 0] ++ [3]) in
  exists wA' n2 n3 nB' frame packet flags csum' pshdr_csum,
    let request := arp_question [2; 0; 0; 0; 0; 1] [10; 0; 0; 1] [10; 0; 0; 2] in
    let reply := arp_answer [2; 0; 0; 0; 0; 1] [10; 0; 0; 1] [2; 0; 0; 0; 0; 2] [10; 0; 0; 2] in
    ipv4_tx (link_ip_env 18 base_env [] no_settings) ([1; 2] ++ [csum mod 256; csum / 256] ++ [3]) 17 None 167772162 None (Some 2%nat) sender = Some (wA', RC_ERR EAGAIN) /\
    arp_timer_expired 18 base_env 5 (ip_net wA') = Some n2 /\ sent n2 = sent (ip_net sender) ++ [request] /\
    process_packet (ip_net_env receiver) 1 request (ip_net receiver) = Some nB' /\ sent nB' = sent (ip_net receiver) ++ [reply] /\
    process_packet (ip_net_env sender) 1 reply n2 = Some n3 /\ sent n3 = sent n2 ++ [frame] /\
    eth_pull frame = inr (Pulled packet [2; 0; 0; 0; 0; 2] [2; 0; 0; 0; 0; 1] ETH_P_IP flags) /\
    ipv4_rx (link_ip_env 18 base_env [] no_settings) packet 1 flags (set_ip_net nB' receiver) =
      Some (set_ip_net nB' receiver, RC_ERR EPROTONOSUPPORT) /\
    generic_tcpip_continue_chksum pshdr_csum ([1; 2] ++ [csum' mod 256; csum' / 256] ++ [3]) = 0.
Proof.
  apply (datagram_over_ethernet 18 ltac:(lia) base_env base_env (ip_net_env sender) (ip_net_env receiver) eq_refl eq_refl [] [] no_settings no_settings
    sender receiver 0 0 eq_refl eq_refl [1; 2] [3] 17 167772162 None (Miniroute 2 1 167772161 4294967040 0) 1%positive
    (ether_device [2; 0; 0; 0; 0; 1]) (ether_device [2; 0; 0; 0; 0; 2]) 5%positive 6%positive []);
    first [by apply ether_device_open|reflexivity|constructor; fail|by_decide].
Defined.
