(* ===== verification/Udp.v ===== *)
(** * UDP and ICMP: src/src/net/udp.c, src/src/net/icmp.c.

    Ports are in host byte order; the socket addresses are otherwise the
    structures of the source, with the bytes after the port as they are
    compared.  The connections are part of a larger state, which the class
    [HasUdp] accesses; the applications behind the data transfer interfaces
    and the network protocols below are an environment.  [None] is a fault
    of a network protocol or the end of the fuel of the search for a port. *)
From S2P Require Import Prelude LinkedList Iobuf Checksum Retry Strings Uri Ethernet Ipv4 IpPath.

(** ** Socket addresses. *)
Definition AF_INET : Z := 1.
Definition IP_ICMP : Z := 1.
Definition IP_UDP : Z := 17.
Definition SA_LEN : Z := 32.
Definition MAX_NET_HEADER_LEN : Z := 40.
Definition MAX_LL_NET_HEADER_LEN : Z := MAX_LL_HEADER_LEN + MAX_NET_HEADER_LEN.

Record sockaddr_tcpip := Sockaddr {
  st_family : Z;
  st_port : Z;
  st_pad : list Z }.
Definition empty_sockaddr : sockaddr_tcpip := Sockaddr 0 0 (replicate (Z.to_nat (SA_LEN - 4)) 0).
Definition set_port (port : Z) (st : sockaddr_tcpip) : sockaddr_tcpip := Sockaddr (st_family st) port (st_pad st).

(** struct sockaddr_in as the TCP/IP layer sees it. *)
Definition sockaddr_in (port addr : Z) : sockaddr_tcpip :=
  Sockaddr AF_INET port (be_bytes 4 addr ++ replicate (Z.to_nat (SA_LEN - 8)) 0).
Definition sin_addr (st : sockaddr_tcpip) : Z := be_val (take 4 (st_pad st)).

(** What is given to tcpip_tx(): the segment, the protocol, the addresses, the
    device and the place of the checksum. *)
Record tcpip_packet := TcpipPacket {
  pk_segment : list Z;
  pk_proto : Z;
  pk_src : option sockaddr_tcpip;
  pk_dest : sockaddr_tcpip;
  pk_netdev : option loc;
  pk_trans_csum : option nat }.

(** ** State. *)
Record udp_connection := UdpConnection {
  uc_at : loc;
  local : sockaddr_tcpip;
  uc_peer : sockaddr_tcpip }.
Definition set_local_port (port : Z) (udp : udp_connection) : udp_connection :=
  UdpConnection (uc_at udp) (set_port port (local udp)) (uc_peer udp).

Record udp_state := UdpState {
  udp_conns : list udp_connection;
  try_port : Z;
  udp_allocs : list (option loc);
  udp_refs : refs }.
Definition set_udp_conns (l : list udp_connection) (u : udp_state) : udp_state := UdpState l (try_port u) (udp_allocs u) (udp_refs u).
Definition set_try_port (p : Z) (u : udp_state) : udp_state := UdpState (udp_conns u) p (udp_allocs u) (udp_refs u).
Definition set_udp_refs (r : refs) (u : udp_state) : udp_state := UdpState (udp_conns u) (try_port u) (udp_allocs u) r.

Class HasUdp (W : Type) := {
  udp_of : W -> udp_state;
  put_udp : udp_state -> W -> W;
  udp_of_put u w : udp_of (put_udp u w) = u }.

(** ** Binding. *)
Definition port_bound (port : Z) (u : udp_state) : bool := existsb (fun existing => st_port (local existing) =? port) (udp_conns u).
Definition bind_port (udp : udp_connection) (u : udp_state) : rc :=
  if port_bound (st_port (local udp)) u then RC_ERR EADDRINUSE else RC_OK.

Fixpoint bind_search (fuel : nat) (udp : udp_connection) (u : udp_state) : option (udp_state * udp_connection * rc) :=
  if negb (ctrue (try_port u)) then Some (u, udp, RC_ERR EADDRINUSE) else
  match fuel with
  | O => None
  | S fuel =>
      let u := set_try_port (u16 (try_port u + 1)) u in
      if try_port u <? 1024 then bind_search fuel udp u else
      let udp := set_local_port (try_port u) udp in
      match bind_port udp u with
      | RC_OK => Some (u, udp, RC_OK)
      | RC_ERR _ => bind_search fuel udp u
      end
  end.

(** 2^16 steps are enough: see [udp_bind_spec]. *)
Definition udp_bind (udp : udp_connection) (u : udp_state) : option (udp_state * udp_connection * rc) :=
  if negb (ctrue (st_port (local udp))) then bind_search (Z.to_nat 65536) udp u
  else Some (u, udp, bind_port udp u).

(** ** The interface to the application and to the network. *)
Section Udp.
Context {W : Type} `{!HasUdp W}.
Implicit Type w : W.

Record udp_env := UdpEnv {
  (** xfer_deliver() to the application, with the source and the destination. *)
  xfer_deliver : loc -> list Z -> sockaddr_tcpip -> sockaddr_tcpip -> W -> W * rc;
  intf_shutdown : loc -> rc -> W -> W;
  intf_plug_plug : loc -> W -> W;
  (** xfer_open_named_socket() with the peer and the name of the host. *)
  xfer_open_named_socket : sockaddr_tcpip -> list Z -> W -> W * rc;
  tcpip_net_protocols : list (Z * (tcpip_packet -> option W -> option W * rc)) }.
Variable env : udp_env.

Definition tx_packet (p : tcpip_packet) w : option (W * rc) :=
  let '(ow, r) := tcpip_tx (fun _ ow => ow) (tcpip_net_protocols env) p (st_family (pk_dest p)) (Some w) in
  w ← ow; Some (w, r).

Definition on_udp (f : udp_state -> udp_state) w : W := put_udp (f (udp_of w)) w.

(** ** Opening and closing. *)
Definition udp_alloc w : W * option loc :=
  match udp_allocs (udp_of w) with
  | [] => (w, None)
  | a :: l => (on_udp (fun u => UdpState (udp_conns u) (try_port u) l (udp_refs u)) w, a)
  end.

Definition udp_open_common (st_peer st_local : option sockaddr_tcpip) (promisc : bool) w : option (W * rc) :=
  match udp_alloc w with
  | (w, None) => Some (w, RC_ERR ENOMEM)
  | (w, Some at_) =>
      let w := on_udp (fun u => set_udp_refs (Refs (<[at_ := 0]> (count (udp_refs u))) (freed (udp_refs u))) u) w in
      let udp := UdpConnection at_ (default empty_sockaddr st_local) (default empty_sockaddr st_peer) in
      '(u, udp, r) ← (if promisc then Some (udp_of w, udp, RC_OK) else udp_bind udp (udp_of w));
      let w := put_udp u w in
      match r with
      | RC_ERR _ => Some (on_udp (fun u => set_udp_refs (ref_put (Some at_) (udp_refs u)) u) w, r)
      | RC_OK =>
          let w := intf_plug_plug env at_ w in
          Some (on_udp (fun u => set_udp_conns (udp :: udp_conns u) u) w, RC_OK)
      end
  end.

Definition udp_open (peer : sockaddr_tcpip) (local : option sockaddr_tcpip) w : option (W * rc) := udp_open_common (Some peer) local false w.
Definition udp_open_promisc w : option (W * rc) := udp_open_common None None true w.

Definition udp_close (udp : loc) (r : rc) w : W :=
  let w := intf_shutdown env udp r w in
  on_udp (fun u => set_udp_refs (ref_put (Some udp) (udp_refs u)) (set_udp_conns (filter (fun c => uc_at c <> udp) (udp_conns u)) u)) w.

(** ** Transmission.  [headroom] is the space before the data of the buffer. *)
Definition UDPHDR_LEN : Z := 8.

Definition udp_segment (src dest : Z) (payload : list Z) : list Z :=
  let len := UDPHDR_LEN + zlen payload in
  let ports := be_bytes 2 src ++ be_bytes 2 dest ++ be_bytes 2 len in
  let chksum := tcpip_chksum (ports ++ [0; 0] ++ payload) in
  ports ++ [chksum mod 256; chksum / 256] ++ payload.

Definition udp_tx (udp : udp_connection) (headroom : Z) (iobuf : list Z) (src dest : option sockaddr_tcpip) (netdev : option loc) w : option (W * rc) :=
  if headroom <? MAX_LL_NET_HEADER_LEN then Some (w, RC_ERR ENOBUFS) else
  let src := default (local udp) src in
  let dest := default (uc_peer udp) dest in
  tx_packet (TcpipPacket (udp_segment (st_port src) (st_port dest) iobuf) IP_UDP (Some src) dest netdev (Some 6%nat)) w.

(** The operations of the data transfer interface. *)
Definition udp_xfer_deliver (udp : udp_connection) (headroom : Z) (iobuf : list Z) (src dest : option sockaddr_tcpip) (netdev : option loc) w :
    option (W * rc) := udp_tx udp headroom iobuf src dest netdev w.

(** [iobuf] is what alloc_iob() returns for MAX_LL_NET_HEADER_LEN more bytes. *)
Definition udp_xfer_alloc_iob (iobuf : option io_buffer) : option io_buffer :=
  (fun b => (iob_reserve b MAX_LL_NET_HEADER_LEN).1) <$> iobuf.

Definition udp_open_uri (uri : uri) w : W * rc :=
  match host uri with
  | None => (w, RC_ERR EINVAL)
  | Some name => xfer_open_named_socket env (set_port (u16 (uri_port (Some uri) 0)) empty_sockaddr) name w
  end.

(** ** Reception. *)
Definition udp_matches (st_local : sockaddr_tcpip) (udp : udp_connection) : bool :=
  ((st_family (local udp) =? st_family st_local) || (st_family (local udp) =? 0)) &&
  ((st_port (local udp) =? st_port st_local) || (st_port (local udp) =? 0)) &&
  (bool_decide (st_pad (local udp) = st_pad st_local) || bool_decide (st_pad (local udp) = st_pad empty_sockaddr)).
Definition udp_demux (st_local : sockaddr_tcpip) w : option udp_connection :=
  head (filter (fun udp => udp_matches st_local udp = true) (udp_conns (udp_of w))).

Record udp_header := UdpHeader {
  uh_src : Z;
  uh_dest : Z;
  uh_len : Z;
  uh_chksum : Z }.
Definition udp_header_at (d : list Z) : option udp_header :=
  match d with
  | s0 :: s1 :: d0 :: d1 :: l0 :: l1 :: c0 :: c1 :: _ =>
      Some (UdpHeader (be_val [s0; s1]) (be_val [d0; d1]) (be_val [l0; l1]) (c0 + 256 * c1))
  | _ => None
  end.

Definition udp_rx (d : datagram) w : W * rc :=
  match udp_header_at (dg_data d) with
  | None => (w, RC_ERR EINVAL)
  | Some udphdr =>
      let ulen := uh_len udphdr in
      if ulen <? UDPHDR_LEN then (w, RC_ERR EINVAL) else
      if zlen (dg_data d) <? ulen then (w, RC_ERR EINVAL) else
      if ctrue (uh_chksum udphdr) &&
         ctrue (generic_tcpip_continue_chksum (dg_pshdr_csum d) (take (Z.to_nat ulen) (dg_data d)))
      then (w, RC_ERR EINVAL) else
      let st_src := sockaddr_in (uh_src udphdr) (dg_src d) in
      let st_dest := sockaddr_in (uh_dest udphdr) (dg_dest d) in
      match udp_demux st_dest w with
      | None => (w, RC_ERR ENOTCONN)
      | Some udp => xfer_deliver env (uc_at udp) (drop 8 (take (Z.to_nat ulen) (dg_data d))) st_src st_dest w
      end
  end.

Definition udp_protocol : Z * (datagram -> W -> W * rc) := (IP_UDP, udp_rx).

(** ** ICMP: answers to echo requests. *)
Definition ICMP_ECHO_RESPONSE : Z := 0.
Definition ICMP_ECHO_REQUEST : Z := 8.

Definition icmp_response (code : Z) (rest : list Z) : list Z :=
  let chksum := tcpip_chksum ([ICMP_ECHO_RESPONSE; code; 0; 0] ++ rest) in
  [ICMP_ECHO_RESPONSE; code; chksum mod 256; chksum / 256] ++ rest.

Definition icmp_rx (d : datagram) w : option (W * rc) :=
  match dg_data d with
  | type :: code :: _ :: _ :: rest =>
      if ctrue (tcpip_chksum (dg_data d)) then Some (w, RC_ERR EINVAL) else
      if negb (type =? ICMP_ECHO_REQUEST) then Some (w, RC_OK) else
      tx_packet (TcpipPacket (icmp_response code rest) IP_ICMP (Some (sockaddr_in 0 (dg_dest d))) (sockaddr_in 0 (dg_src d)) None None) w
  | _ => Some (w, RC_ERR EINVAL)
  end.
Definition icmp_protocol : Z * (datagram -> W -> option (W * rc)) := (IP_ICMP, icmp_rx).
End Udp.
Arguments UdpEnv {W}.

(** ** IPv4 below: the connections are in the state below it. *)
#[export] Program Instance ip_has_udp {N} `{!HasUdp N} : HasUdp (ip_world N) := {|
  udp_of w := udp_of (ip_net w);
  put_udp u w := set_ip_net (put_udp u (ip_net w)) w |}.
Next Obligation. intros N ? u w. apply udp_of_put. Qed.

(** The entry of IPv4 in the table of network protocols. *)
Definition ipv4_tcpip_protocol {N} (env : ip_env N) : Z * (tcpip_packet -> option (ip_world N) -> option (ip_world N) * rc) :=
  (AF_INET, fun p ow =>
    match w ← ow; ipv4_tx env (pk_segment p) (pk_proto p) (sin_addr <$> pk_src p) (sin_addr (pk_dest p)) (pk_netdev p) (pk_trans_csum p) w with
    | Some (w, r) => (Some w, r)
    | None => (None, RC_OK)
    end).

(** ** Ports. *)
Lemma bind_search_run fuel udp u : 0 <= try_port u < 2 ^ 16 -> 2 ^ 16 <= try_port u + Z.of_nat fuel \/ try_port u = 0 ->
  (exists p, bind_search fuel udp u = Some (set_try_port p u, set_local_port p udp, RC_OK) /\ 0 < try_port u < p /\ 1024 <= p < 2 ^ 16 /\
     port_bound p u = false /\ forall q, try_port u < q < p -> 1024 <= q -> port_bound q u = true) \/
  (exists udp', bind_search fuel udp u = Some (set_try_port 0 u, udp', RC_ERR EADDRINUSE) /\ uc_at udp' = uc_at udp /\
     (try_port u = 0 \/ forall q, try_port u < q < 2 ^ 16 -> 1024 <= q -> port_bound q u = true)).
Proof.
  revert udp u. induction fuel as [|fuel IH]; intros udp u Hr Hf; cbn [bind_search]; unfold ctrue; destruct (Z.eqb_spec (try_port u) 0) as [E|Hne]; cbn [negb];
    try (right; exists udp; assert (set_try_port 0 u = u) as -> by (destruct u; cbn in E; by subst); split_and!; [done|done|by left]); [lia|].
  change (try_port (set_try_port ?p u)) with p. set (t := u16 (try_port u + 1)).
  assert (t = try_port u + 1 /\ try_port u + 1 < 2 ^ 16 \/ t = 0 /\ try_port u = 2 ^ 16 - 1) as Ht.
  { unfold t. destruct (Z.eq_dec (try_port u) (2 ^ 16 - 1)) as [->|]; [right; done|left]. rewrite wrap_small; lia. }
  assert (forall q, port_bound q (set_try_port t u) = port_bound q u) as Hb by done.
  assert (bind_port (set_local_port t udp) (set_try_port t u) = if port_bound t u then RC_ERR EADDRINUSE else RC_OK) as Ep by done.
  clearbody t.
  destruct (Z.ltb_spec t 1024) as [Hlt|Hge].
  - destruct (IH udp (set_try_port t u)) as [(p & E & Hp & Hp2 & Hpb & Hall)|(udp' & E & Hat & Hall)]; [cbn [try_port set_try_port]; lia..|left|right]; cbn [try_port set_try_port] in *.
    + exists p. split_and!; [exact E|lia..|done|]. intros q Hq Hq2. apply (Hall q); lia.
    + exists udp'. split_and!; [exact E|exact Hat|]. right. intros q Hq Hq2. destruct Ht as [[Ht ?]|[? ?]]; [|lia]. destruct Hall as [?|Hall]; [lia|]. apply (Hall q); lia.
  - rewrite Ep. destruct (port_bound t u) eqn:Et.
    + destruct (IH (set_local_port t udp) (set_try_port t u)) as [(p & E & Hp & Hp2 & Hpb & Hall)|(udp' & E & Hat & Hall)]; [cbn [try_port set_try_port]; lia..|left|right]; cbn [try_port set_try_port] in *.
      * exists p. split_and!; [exact E|lia..|done|]. intros q Hq Hq2. destruct (Z.eq_dec q t) as [-> |]; [done|]. apply (Hall q); lia.
      * exists udp'. split_and!; [exact E|exact Hat|]. right. intros q Hq Hq2. destruct (Z.eq_dec q t) as [-> |]; [done|]. destruct Hall as [?|Hall]; [lia|]. apply (Hall q); lia.
    + left. exists t. split_and!; (done || lia).
Qed.

(** Without a port the search gives the first free one after the last port it
    gave, or none. *)
Lemma udp_bind_run udp u : 0 <= try_port u < 2 ^ 16 ->
  exists u' udp' r, udp_bind udp u = Some (u', udp', r) /\ uc_at udp' = uc_at udp /\ udp_conns u' = udp_conns u /\ 0 <= try_port u' < 2 ^ 16 /\
    udp_refs u' = udp_refs u /\ udp_allocs u' = udp_allocs u /\
    (r = RC_OK -> port_bound (st_port (local udp')) u = false).
Proof.
  intros Hr. unfold udp_bind, ctrue. destruct (Z.eqb_spec (st_port (local udp)) 0); cbn [negb].
  - destruct (bind_search_run (Z.to_nat 65536) udp u Hr ltac:(lia)) as [(p & E & Hp & Hp2 & Hpb & _)|(udp' & E & Hat & _)]; rewrite E.
    + eexists _, _, _. split; [reflexivity|]. cbn. split_and!; try (done || lia).
    + eexists _, _, _. split; [reflexivity|]. cbn. split_and!; try (done || lia).
  - eexists _, _, _. split; [reflexivity|]. split_and!; try (done || lia). unfold bind_port. by destruct (port_bound _ _).
Qed.

(** A port is given once: [n] connections that are opened one after the other
    and closed at once have different ports, and when 65535 has been given no
    connection can be bound any more, although no port is in use. *)
Fixpoint binds (n : nat) (udp : udp_connection) (u : udp_state) : option (udp_state * list rc) :=
  match n with
  | O => Some (u, [])
  | S n => '(u, _, r) ← udp_bind udp u; '(u, rs) ← binds n udp u; Some (u, r :: rs)
  end.

Lemma bind_next udp u : st_port (local udp) = 0 -> udp_conns u = [] -> 1023 <= try_port u < 2 ^ 16 - 1 ->
  udp_bind udp u = Some (set_try_port (try_port u + 1) u, set_local_port (try_port u + 1) udp, RC_OK).
Proof.
  intros Hp Hc Ht. assert (forall q, port_bound q u = false) as Hb by (intros q; unfold port_bound; by rewrite Hc).
  unfold udp_bind. rewrite Hp. cbn [ctrue Z.eqb negb].
  destruct (bind_search_run (Z.to_nat 65536) udp u ltac:(lia) ltac:(lia)) as [(p & E & Hp1 & Hp2 & _ & Hall)|(udp' & _ & _ & [?|Hall])]; [|lia|].
  - assert (p = try_port u + 1) as <-; [|exact E]. destruct (Z.eq_dec p (try_port u + 1)); [done|].
    specialize (Hall (try_port u + 1) ltac:(lia) ltac:(lia)). by rewrite Hb in Hall.
  - specialize (Hall (try_port u + 1) ltac:(lia) ltac:(lia)). by rewrite Hb in Hall.
Qed.

Lemma bind_none udp u : st_port (local udp) = 0 -> try_port u = 0 -> udp_bind udp u = Some (u, udp, RC_ERR EADDRINUSE).
Proof.
  intros Hp Ht. unfold udp_bind. rewrite Hp. cbn [ctrue Z.eqb negb]. change (Z.to_nat 65536) with (S 65535).
  cbn [bind_search]. by rewrite Ht.
Qed.

Lemma bind_last udp u : st_port (local udp) = 0 -> try_port u = 2 ^ 16 - 1 -> udp_bind udp u = Some (set_try_port 0 u, udp, RC_ERR EADDRINUSE).
Proof.
  intros Hp Ht. unfold udp_bind. rewrite Hp. cbn [ctrue Z.eqb negb]. change (Z.to_nat 65536) with (S (S 65534)).
  cbn [bind_search]. by rewrite Ht.
Qed.

Lemma binds_none k udp u : st_port (local udp) = 0 -> try_port u = 0 -> binds k udp u = Some (u, replicate k (RC_ERR EADDRINUSE)).
Proof. intros Hp Ht. induction k as [|k IH]; cbn [binds replicate]; [done|]. rewrite bind_none by done. cbn [mbind option_bind]. by rewrite IH. Qed.

Theorem udp_ports_run_out udp u n : st_port (local udp) = 0 -> udp_conns u = [] -> try_port u = 1023 ->
  binds (Z.to_nat 64512 + S n) udp u = Some (set_try_port 0 u, replicate (Z.to_nat 64512) RC_OK ++ replicate (S n) (RC_ERR EADDRINUSE)).
Proof.
  intros Hp Hc Ht. assert (1023 <= try_port u /\ try_port u + Z.of_nat (Z.to_nat 64512) = 2 ^ 16 - 1) as [Hlo Hm] by lia.
  clear Ht. revert u Hc Hlo Hm. induction (Z.to_nat 64512) as [|m IH]; intros u Hc Hlo Hm.
  - cbn [Nat.add binds replicate app]. rewrite bind_last by (done || lia). cbn [mbind option_bind]. by rewrite binds_none.
  - cbn [Nat.add binds replicate app]. rewrite (bind_next udp u Hp Hc) by lia. cbn [mbind option_bind].
    rewrite IH; [done|done|cbn [try_port set_try_port]; lia..].
Qed.

(** ** The connections. *)
Definition bound_ports (l : list udp_connection) : list Z := filter (fun p => p <> 0) ((fun c => st_port (local c)) <$> l).
Definition udp_ok (u : udp_state) : Prop := 0 <= try_port u < 2 ^ 16 /\ NoDup (bound_ports (udp_conns u)).

(** What UDP relies on: plugging an interface leaves the connections alone,
    and an application that is told of a close leaves them well formed. *)
Class UdpClients {W} `{!HasUdp W} (env : udp_env (W := W)) : Prop := {
  plug_keeps at_ w : udp_of (intf_plug_plug env at_ w) = udp_of w;
  shutdown_ok at_ r w : udp_ok (udp_of w) -> udp_ok (udp_of (intf_shutdown env at_ r w)) }.

Inductive udp_op :=
| UdpOpen (peer : sockaddr_tcpip) (local : option sockaddr_tcpip)
| UdpOpenPromisc
| UdpClose (udp : loc) (r : rc).

Lemma bound_filter (P : udp_connection -> Prop) `{!forall c, Decision (P c)} l : NoDup (bound_ports l) -> NoDup (bound_ports (filter P l)).
Proof.
  unfold bound_ports. induction l as [|c l IH]; [done|]. cbn [fmap list_fmap]. rewrite !filter_cons. intros Hn.
  assert (NoDup (filter (fun p => p <> 0) ((fun c => st_port (local c)) <$> l))) as Hl by (destruct (decide _); [by apply NoDup_cons in Hn as [_ ?]|done]).
  destruct (decide (P c)); [|by apply IH]. cbn [fmap list_fmap]. rewrite filter_cons. destruct (decide (st_port (local c) <> 0)); [|by apply IH].
  apply NoDup_cons in Hn as [Hc _]. apply NoDup_cons. split; [|by apply IH]. intros Hin. apply Hc.
  apply list_elem_of_filter in Hin as [? (x & ? & Hx)%list_elem_of_fmap]. apply list_elem_of_filter in Hx as [_ Hx].
  apply list_elem_of_filter. split; [done|]. apply list_elem_of_fmap. by exists x.
Qed.

Section Life.
Context {W : Type} `{!HasUdp W} (env : udp_env (W := W)) `{!UdpClients env}.
Implicit Type w : W.

Fixpoint udp_ops (l : list udp_op) w : option (W * list rc) :=
  match l with
  | [] => Some (w, [])
  | o :: l =>
      '(w, r) ← (match o with
                 | UdpOpen peer local => udp_open env peer local w
                 | UdpOpenPromisc => udp_open_promisc env w
                 | UdpClose udp r => Some (udp_close env udp r w, r)
                 end);
      '(w, rs) ← udp_ops l w;
      Some (w, r :: rs)
  end.

Lemma not_bound c u : port_bound (st_port (local c)) u = false -> NoDup (bound_ports (udp_conns u)) -> NoDup (bound_ports (c :: udp_conns u)).
Proof.
  intros Hb Hn. unfold bound_ports in *. cbn [fmap list_fmap]. rewrite filter_cons. destruct (decide _); [|done]. apply NoDup_cons. split; [|done].
  intros [_ (x & Hx & Hin)%list_elem_of_fmap]%list_elem_of_filter. apply not_true_iff_false in Hb. apply Hb. apply existsb_exists. exists x.
  split; [by apply list_elem_of_In|]. by apply Z.eqb_eq.
Qed.

Lemma udp_open_run st_peer st_local promisc w : (promisc = true -> st_local = None) -> udp_ok (udp_of w) ->
  exists w' r, udp_open_common env st_peer st_local promisc w = Some (w', r) /\ udp_ok (udp_of w').
Proof.
  intros Hpr [Ht Hn]. unfold udp_open_common, udp_alloc. destruct (udp_allocs (udp_of w)) as [|[a|] l]; cbn.
  - eexists _, _. by split.
  - set (w1 := on_udp _ (on_udp _ w)). set (udp := UdpConnection a _ _).
    assert (udp_conns (udp_of w1) = udp_conns (udp_of w) /\ try_port (udp_of w1) = try_port (udp_of w)) as [Ec Et]
      by (unfold w1, on_udp; by rewrite !udp_of_put).
    rewrite <- Ec in Hn. rewrite <- Et in Ht.
    destruct promisc.
    + cbn. eexists _, _. split; [reflexivity|]. unfold on_udp at 1. rewrite udp_of_put, plug_keeps, udp_of_put. split; [done|].
      unfold udp. rewrite Hpr by done. exact Hn.
    + destruct (udp_bind_run udp (udp_of w1) Ht) as (u' & udp' & r & -> & _ & Hcu & Htu & _ & _ & Hb). cbn. destruct r as [|e].
      * eexists _, _. split; [reflexivity|]. unfold on_udp. rewrite udp_of_put, plug_keeps, udp_of_put. split; [done|].
        cbn [udp_conns set_udp_conns]. rewrite Hcu. by apply not_bound; [apply Hb|].
      * eexists _, _. split; [reflexivity|]. unfold on_udp. rewrite !udp_of_put. split; [done|]. cbn. by rewrite Hcu.
  - eexists _, _. split; [reflexivity|]. unfold on_udp. rewrite udp_of_put. by split.
Qed.

(** However UDP connections are opened, with a port, without one or
    promiscuously, and closed, and whatever fails meanwhile, every operation
    returns, the search for a port included, and no two connections are
    bound to the same port. *)
Theorem udp_ports_unique ops : forall w, udp_ok (udp_of w) -> exists w' rs, udp_ops ops w = Some (w', rs) /\ udp_ok (udp_of w').
Proof.
  induction ops as [|o ops IH]; intros w Hok; cbn [udp_ops]; [by exists w, []|].
  assert (exists w1 r1, (match o with UdpOpen peer local => udp_open env peer local w | UdpOpenPromisc => udp_open_promisc env w
    | UdpClose udp r => Some (udp_close env udp r w, r) end) = Some (w1, r1) /\ udp_ok (udp_of w1)) as (w1 & r1 & -> & H1).
  { destruct o as [peer local| |udp r]; [by apply udp_open_run|by apply udp_open_run|]. eexists _, _. split; [reflexivity|].
    unfold udp_close, on_udp. rewrite udp_of_put. destruct (shutdown_ok udp r w Hok) as [Ht Hn]. split; [done|]. cbn.
    by apply bound_filter. }
  cbn [mbind option_bind]. destruct (IH w1 H1) as (w2 & rs & -> & H2). by eexists _, _.
Qed.
End Life.

(** ** Delivery. *)
Section Delivery.
Context {N N' : Type} `{!HasUdp N} `{!HasUdp N'} (ipA : ip_env N) (ipB : ip_env N').
Context (envA : udp_env (W := ip_world N)) (envB : udp_env (W := ip_world N')) (restA : list (Z * (tcpip_packet -> option (ip_world N) -> option (ip_world N) * rc)))
  (restB : list (Z * (datagram -> ip_world N' -> ip_world N' * rc))).
Context (HtableA : tcpip_net_protocols envA = ipv4_tcpip_protocol ipA :: restA) (HtableB : tcpip_protocols ipB = udp_protocol envB :: restB).

Lemma sin_addr_in port addr : 0 <= addr < 2 ^ 32 -> sin_addr (sockaddr_in port addr) = addr.
Proof.
  intros Ha. unfold sin_addr, sockaddr_in. cbn [st_pad]. rewrite take_app_length' by (by rewrite be_bytes_length). rewrite be_val_bytes. by apply Z.mod_small.
Qed.

Lemma be_bytes_two x : exists b0 b1, be_bytes 2 x = [b0; b1].
Proof.
  pose proof (be_bytes_length 2 x). destruct (be_bytes 2 x) as [|b0 [|b1 [|]]]; try done. by exists b0, b1.
Qed.

(** The segment with any checksum. *)
Lemma segment_header src dest payload csum : 0 <= src < 2 ^ 16 -> 0 <= dest < 2 ^ 16 -> 8 + zlen payload < 2 ^ 16 ->
  udp_header_at ((be_bytes 2 src ++ be_bytes 2 dest ++ be_bytes 2 (UDPHDR_LEN + zlen payload)) ++ [csum mod 256; csum / 256] ++ payload) =
    Some (UdpHeader src dest (8 + zlen payload) csum).
Proof.
  intros Hs Hd Hl. pose proof (be_val_bytes 2 src) as Es. pose proof (be_val_bytes 2 dest) as Ed. pose proof (be_val_bytes 2 (UDPHDR_LEN + zlen payload)) as El.
  destruct (be_bytes_two src) as (s0 & s1 & E0), (be_bytes_two dest) as (d0 & d1 & E1), (be_bytes_two (UDPHDR_LEN + zlen payload)) as (l0 & l1 & E2).
  rewrite E0 in Es |- *. rewrite E1 in Ed |- *. rewrite E2 in El |- *.
  cbn [app udp_header_at]. rewrite Es, Ed, El. unfold UDPHDR_LEN. rewrite !Z.mod_small by lia. do 2 f_equal. pose proof (Z.div_mod csum 256). lia.
Qed.

(** C27: a UDP datagram arrives.  What an application sends to a host that
    IPv4 has a route to is delivered there to the application that
    udp_demux() finds for the destination port, with the payload unchanged,
    the port of the sender and the address of the route it was sent by. *)
Theorem udp_delivered udp headroom payload src dest nd sport dport addr r hop wA :
  bytes_ok payload -> 28 + zlen payload < 2 ^ 16 -> MAX_LL_NET_HEADER_LEN <= headroom ->
  st_port (default (local udp) src) = sport -> 0 <= sport < 2 ^ 16 -> default (uc_peer udp) dest = sockaddr_in dport addr -> 0 <= dport < 2 ^ 16 ->
  0 <= addr < INADDR_BROADCAST -> IN_MULTICAST addr = false -> ipv4_route ipA addr wA = Some (r, hop) -> 0 <= mr_address r < 2 ^ 32 ->
  exists packet,
    udp_xfer_deliver envA udp headroom payload src dest nd wA =
      Some (ipv4_hand_off ipA packet (mr_netdev r) hop (mr_netmask r) (mr_address r) (set_next_ident_high (u8 (next_ident_high wA + 1)) wA)) /\
    forall netdev flags pad wB c, accepts netdev flags addr wB = true -> udp_demux (sockaddr_in dport addr) wB = Some c ->
      ipv4_rx ipB (packet ++ pad) netdev flags wB =
        Some (xfer_deliver envB (uc_at c) payload (sockaddr_in sport (mr_address r)) (sockaddr_in dport addr) wB).
Proof.
  intros Hb Hlen Hh Hsp Hs Hdp Hd Ha Hmc Hroute Hsrc. unfold udp_xfer_deliver, udp_tx. destruct (Z.ltb_spec headroom MAX_LL_NET_HEADER_LEN); [lia|].
  rewrite Hsp, Hdp. unfold udp_segment. cbn [st_port sockaddr_in]. set (a := be_bytes 2 sport ++ be_bytes 2 dport ++ be_bytes 2 (UDPHDR_LEN + zlen payload)).
  assert (length a = 6%nat) as La by (unfold a; rewrite !length_app, !be_bytes_length; done).
  assert (bytes_ok a) as Hba by (unfold a; repeat apply Forall_app_2; apply be_bytes_ok).
  destruct (datagram_path ipA ipB a payload IP_UDP (Some (sin_addr (default (local udp) src))) addr nd r hop wA Hba Hb) as (packet & csum' & ps & Etx & Erx & Ever);
    [by rewrite La|rewrite La; lia|unfold is_byte, IP_UDP; lia|done|done|done|done|].
  exists packet. split.
  - unfold tx_packet. rewrite HtableA. cbn [tcpip_tx ipv4_tcpip_protocol st_family pk_dest sockaddr_in]. change (AF_INET =? AF_INET) with true.
    cbn [mbind option_bind pk_segment pk_proto pk_src pk_dest pk_netdev pk_trans_csum fmap option_fmap option_map].
    rewrite sin_addr_in by (unfold INADDR_BROADCAST in Ha; lia). rewrite La in Etx. rewrite Etx. by destruct (ipv4_hand_off _ _ _ _ _ _ _).
  - intros netdev flags pad wB c Hacc Hdemux. rewrite Erx by done. rewrite HtableB. cbn [tcpip_rx udp_protocol]. rewrite Z.eqb_refl. f_equal.
    unfold udp_rx. cbn [dg_data dg_src dg_dest dg_pshdr_csum]. unfold a. rewrite segment_header by lia. fold a. cbn [uh_len uh_src uh_dest uh_chksum].
    set (segment := a ++ [csum' mod 256; csum' / 256] ++ payload) in *.
    assert (zlen segment = 8 + zlen payload) as Hsl by (unfold segment; rewrite !length_app, La; cbn [length]; lia).
    destruct (Z.ltb_spec (8 + zlen payload) UDPHDR_LEN); [unfold UDPHDR_LEN in *; lia|]. rewrite Hsl, Z.ltb_irrefl.
    rewrite (take_ge segment) by lia. rewrite Ever, andb_false_r, Hdemux. f_equal.
Qed.
End Delivery.

(** A buffer that was allocated for a connection has room for the headers. *)
Lemma alloc_headroom b b' : iob_data b = iob_head b -> udp_xfer_alloc_iob (Some b) = Some b' -> iob_headroom b' = MAX_LL_NET_HEADER_LEN.
Proof.
  intros Hb [= <-]. unfold iob_headroom. cbn. rewrite Hb, wrap_sub_l, Z.add_simpl_l by lia. reflexivity.
Qed.

(** ** Echo. *)

(** A ping is answered once.  An echo request with a valid checksum makes
    icmp_rx() send one response to the sender, from the address the request
    was for, with the same identifier, sequence number and data and a valid
    checksum; the ICMP of the sender accepts the response and does not answer
    it. *)
Theorem ping_answered {W W'} `{!HasUdp W} `{!HasUdp W'} (env : udp_env (W := W)) (env' : udp_env (W := W')) code c0 c1 rest src dest ps ps' w w' :
  bytes_ok (code :: rest) -> tcpip_chksum (ICMP_ECHO_REQUEST :: code :: c0 :: c1 :: rest) = 0 ->
  icmp_rx env (Datagram (ICMP_ECHO_REQUEST :: code :: c0 :: c1 :: rest) src dest ps) w =
    tx_packet env (TcpipPacket (icmp_response code rest) IP_ICMP (Some (sockaddr_in 0 dest)) (sockaddr_in 0 src) None None) w /\
  tcpip_chksum (icmp_response code rest) = 0 /\
  (exists csum, icmp_response code rest = [ICMP_ECHO_RESPONSE; code] ++ csum ++ rest /\ length csum = 2%nat) /\
  icmp_rx env' (Datagram (icmp_response code rest) dest src ps') w' = Some (w', RC_OK).
Proof.
  intros Hb Hc. apply Forall_cons in Hb as [Hcode Hrest].
  assert (tcpip_chksum (icmp_response code rest) = 0) as Hr.
  { apply (chksum_fill [ICMP_ECHO_RESPONSE; code] rest); [|done|done]. repeat apply Forall_cons_2; [unfold is_byte; cbv; done|done|apply Forall_nil_2]. }
  split_and!.
  - unfold icmp_rx. cbn [dg_data dg_dest dg_src]. by rewrite Hc.
  - exact Hr.
  - eexists. split; [reflexivity|done].
  - unfold icmp_rx. cbn [dg_data]. rewrite Hr. done.
Qed.

(** ** Instances: hosts whose applications keep what they get. *)
Record app_world := AppWorld {
  app_udp : udp_state;
  app_log : list (loc * list Z * sockaddr_tcpip) }.
#[export] Instance app_has_udp : HasUdp app_world := {|
  udp_of := app_udp;
  put_udp u w := AppWorld u (app_log w);
  udp_of_put _ _ := eq_refl |}.

Definition app_ip_env (protocols : list (Z * (datagram -> ip_world app_world -> ip_world app_world * rc))) : ip_env app_world :=
  IpEnv 18 (fun _ _ => true) (fun _ _ => (0, 0)) (fun _ => eth_broadcast) (fun _ _ => inr ENOTSUP)
    (fun _ _ _ n => (n, RC_OK)) (fun _ _ _ _ n => (n, RC_OK)) protocols (fun _ => []) (fun _ _ => Settings 0 0 0).
Definition app_env (protocols : list (Z * (tcpip_packet -> option (ip_world app_world) -> option (ip_world app_world) * rc))) : udp_env (W := ip_world app_world) :=
  UdpEnv (fun at_ data src _ w => (set_ip_net (AppWorld (app_udp (ip_net w)) ((at_, data, src) :: app_log (ip_net w))) w, RC_OK))
    (fun _ _ w => w) (fun _ w => w) (fun _ _ w => (w, RC_OK)) protocols.
Definition app_host (ip : Z) (conns : list udp_connection) (allocs : list (option loc)) : ip_world app_world :=
  IpWorld 0 [Miniroute 2 1 ip 4294967040 0] [] (Timers [] ∅ (Refs ∅ [])) 100 [] (AppWorld (UdpState conns 1023 allocs (Refs ∅ [])) []).
#[export] Instance app_clients protocols : UdpClients (app_env protocols).
Proof. by split. Qed.

Definition dns_server : udp_connection := UdpConnection 7 (set_port 53 empty_sockaddr) empty_sockaddr.
Definition resolver : udp_connection := UdpConnection 8 (set_port 1024 empty_sockaddr) (sockaddr_in 53 167772162).

Lemma udp_delivered_witness : exists packet,
  udp_xfer_deliver (app_env [ipv4_tcpip_protocol (app_ip_env [])]) resolver 76 [1; 2; 3] None None None (app_host 167772161 [resolver] []) =
    Some (ipv4_hand_off (app_ip_env []) packet 1 167772162 4294967040 167772161 (set_next_ident_high 1 (app_host 167772161 [resolver] []))) /\
  ipv4_rx (app_ip_env [udp_protocol (app_env [])]) packet 1 0 (app_host 167772162 [dns_server] []) =
    Some (set_ip_net (AppWorld (UdpState [dns_server] 1023 [] (Refs ∅ [])) [(7%positive, [1; 2; 3], sockaddr_in 1024 167772161)]) (app_host 167772162 [dns_server] []), RC_OK).
Proof.
  destruct (udp_delivered (app_ip_env []) (app_ip_env [udp_protocol (app_env [])]) (app_env [ipv4_tcpip_protocol (app_ip_env [])]) (app_env []) [] [] eq_refl eq_refl
    resolver 76 [1; 2; 3] None None None 1024 53 167772162 (Miniroute 2 1 167772161 4294967040 0) 167772162 (app_host 167772161 [resolver] []))
    as (packet & Etx & Erx); try reflexivity; try by_decide.
  exists packet. split; [exact Etx|]. specialize (Erx 1%positive 0 [] (app_host 167772162 [dns_server] []) dns_server eq_refl eq_refl).
  by rewrite app_nil_r in Erx.
Defined.

Lemma udp_ports_unique_witness : exists w' rs,
  udp_ops (app_env []) [UdpOpen empty_sockaddr None; UdpOpen empty_sockaddr (Some (set_port 1024 empty_sockaddr)); UdpClose 5 RC_OK; UdpOpenPromisc]
    (app_host 167772161 [] [Some 5%positive; Some 6%positive; None]) = Some (w', rs) /\ udp_ok (udp_of w').
Proof.
  apply (udp_ports_unique (app_env []) [UdpOpen empty_sockaddr None; UdpOpen empty_sockaddr (Some (set_port 1024 empty_sockaddr)); UdpClose 5 RC_OK; UdpOpenPromisc]
    (app_host 167772161 [] [Some 5%positive; Some 6%positive; None])).
  split; [by_decide|constructor].
Defined.

Lemma ping_answered_witness :
  icmp_rx (app_env []) (Datagram [8; 0; 247; 253; 0; 1; 0; 1] 167772161 167772162 0) (app_host 167772162 [] []) =
    tx_packet (app_env []) (TcpipPacket (icmp_response 0 [0; 1; 0; 1]) IP_ICMP (Some (sockaddr_in 0 167772162)) (sockaddr_in 0 167772161) None None) (app_host 167772162 [] []).
Proof.
  apply (ping_answered (app_env []) (app_env []) 0 247 253 [0; 1; 0; 1] 167772161 167772162 0 0 (app_host 167772162 [] []) (app_host 167772161 [] [])); [by_decide|].
  vm_compute. reflexivity.
Defined.
