(* ===== verification/Interface.v ===== *)
(** * Object interfaces and data transfer: src/src/core/interface.c,
    src/src/include/ipxe/interface.h, src/src/core/xfer.c.

    An interface is an object of a store.  The methods behind an interface
    are code of the objects; they may call every interface function again,
    also for the interface they are called through.  A method is a program
    ([prog]) over the interface functions and the state [X] of the objects;
    [call_method] runs it with a bound on the depth of nested methods.
    [None] is a missing interface or the end of that bound or of [hops],
    the bound on the length of a chain of pass-through interfaces.  An object
    whose last reference is dropped is recorded as freed and its interfaces
    stay in the store: the theorems are about termination, plugging and
    counting, and not about the use of memory after it was freed. *)
From S2P Require Import Prelude LinkedList Retry.

(** ** Data. *)
Inductive op_type := OP_intf_close | OP_xfer_window | OP_xfer_window_changed | OP_xfer_alloc_iob | OP_xfer_deliver.
#[export] Instance op_type_eq_dec : EqDecision op_type.
Proof. solve_decision. Defined.

Record interface_operation := IntfOp {
  op_kind : op_type;
  op_func : Z }.
Record interface_descriptor := IntfDesc {
  desc_offset : Z;
  desc_op : list interface_operation;
  passthru_offset : Z }.
Record interface := Interface {
  dest : loc;
  refcnt : option loc;
  desc : interface_descriptor }.
#[export] Instance interface_operation_eq_dec : EqDecision interface_operation.
Proof. solve_decision. Defined.
#[export] Instance interface_descriptor_eq_dec : EqDecision interface_descriptor.
Proof. solve_decision. Defined.

Definition null_intf_desc : interface_descriptor := IntfDesc 0 [] 0.

(** What a method is asked, and what it returns. *)
Inductive message (M : Type) :=
| MsgClose (r : rc)
| MsgWindow
| MsgWindowChanged
| MsgAllocIob (len : Z)
| MsgDeliver (iobuf : list Z) (meta : M).
Arguments MsgClose {M}.
Arguments MsgWindow {M}.
Arguments MsgWindowChanged {M}.
Arguments MsgAllocIob {M}.
Arguments MsgDeliver {M}.
Inductive result := Void | Rc (r : rc) | Len (n : Z) | Iobuf (b : option (list Z)).

(** The interface functions a method may call. *)
Inductive command (M : Type) :=
| Plug (intf dest : loc)
| PlugPlug (a b : loc)
| Unplug (intf : loc)
| Nullify (intf : loc)
| Close (intf : loc) (r : rc)
| Shutdown (intf : loc) (r : rc)
| Restart (intf : loc) (r : rc)
| Window (intf : loc)
| WindowChanged (intf : loc)
| AllocIob (intf : loc) (len : Z)
| Deliver (intf : loc) (iobuf : list Z) (meta : M)
| RefGet (obj : loc)
| RefPut (obj : loc).
Arguments Plug {M}.
Arguments PlugPlug {M}.
Arguments Unplug {M}.
Arguments Nullify {M}.
Arguments Close {M}.
Arguments Shutdown {M}.
Arguments Restart {M}.
Arguments Window {M}.
Arguments WindowChanged {M}.
Arguments AllocIob {M}.
Arguments Deliver {M}.
Arguments RefGet {M}.
Arguments RefPut {M}.

Inductive prog (X M : Type) :=
| Done (r : result)
| Call (c : command M) (k : result -> prog X M)
| Get (k : X -> prog X M)
| Put (x : X) (k : prog X M).
Arguments Done {X M}.
Arguments Call {X M}.
Arguments Get {X M}.
Arguments Put {X M}.

Record intf_state (X : Type) := IntfState {
  intfs : gmap loc interface;
  irefs : refs;
  app : X }.
Arguments IntfState {X}.
Arguments intfs {X}.
Arguments irefs {X}.
Arguments app {X}.

Section Interfaces.
Context {X M : Type}.
(** The address of the null interface, and pointer arithmetic. *)
Variable null_intf : loc.
Variable at_offset : loc -> Z -> loc.
(** The metadata of xfer_deliver() when there is none and of a seek to an
    offset, and alloc_iob() of a length. *)
Variable dummy_metadata : M.
Variable seek_metadata : Z -> M.
Variable alloc_iob : Z -> X -> X * option (list Z).
Variable method : Z -> loc -> message M -> prog X M.
Variable hops : nat.
Implicit Type s : intf_state X.

Definition set_intfs (m : gmap loc interface) s : intf_state X := IntfState m (irefs s) (app s).
Definition set_irefs (r : refs) s : intf_state X := IntfState (intfs s) r (app s).
Definition set_app (x : X) s : intf_state X := IntfState (intfs s) (irefs s) x.
Definition set_dest (d : loc) (x : interface) : interface := Interface d (refcnt x) (desc x).
Definition set_desc (d : interface_descriptor) (x : interface) : interface := Interface (dest x) (refcnt x) d.

(** ** Plumbing. *)
Definition intf_init (intf : loc) (d : interface_descriptor) (r : option loc) s : intf_state X :=
  set_intfs (<[intf := Interface null_intf r d]> (intfs s)) s.

Definition intf_get (intf : loc) s : option (intf_state X) :=
  x ← intfs s !! intf;
  Some (set_irefs (ref_get (refcnt x) (irefs s)) s).
Definition intf_put (intf : loc) s : option (intf_state X) :=
  x ← intfs s !! intf;
  Some (set_irefs (ref_put (refcnt x) (irefs s)) s).

Definition intf_plug (intf new_dest : loc) s : option (intf_state X) :=
  s ← intf_get new_dest s;
  x ← intfs s !! intf;
  s ← intf_put (dest x) s;
  Some (set_intfs (<[intf := set_dest new_dest x]> (intfs s)) s).
Definition intf_plug_plug (a b : loc) s : option (intf_state X) :=
  s ← intf_plug a b s;
  intf_plug b a s.
Definition intf_unplug (intf : loc) s : option (intf_state X) := intf_plug intf null_intf s.

Definition intf_nullify (intf : loc) s : option (intf_state X) :=
  x ← intfs s !! intf;
  Some (set_intfs (<[intf := set_desc null_intf_desc x]> (intfs s)) s).

Definition intf_object (intf : loc) s : option loc :=
  x ← intfs s !! intf;
  Some (at_offset intf (- desc_offset (desc x))).

Definition intf_get_passthru (intf : loc) s : option (option loc) :=
  x ← intfs s !! intf;
  Some (if ctrue (passthru_offset (desc x)) then Some (at_offset intf (passthru_offset (desc x))) else None).

Definition find_op (type : op_type) (d : interface_descriptor) : option Z :=
  op_func <$> head (filter (fun op => op_kind op = type) (desc_op d)).

Definition intf_get_dest_op_no_passthru (intf : loc) (type : op_type) s : option (intf_state X * loc * option Z) :=
  x ← intfs s !! intf;
  s ← intf_get (dest x) s;
  d ← intfs s !! dest x;
  Some (s, dest x, find_op type (desc d)).

Fixpoint get_dest_op (fuel : nat) (intf : loc) (type : op_type) s : option (intf_state X * loc * option Z) :=
  match fuel with
  | O => None
  | S fuel =>
      '(s, d, func) ← intf_get_dest_op_no_passthru intf type s;
      match func with
      | Some f => Some (s, d, Some f)
      | None =>
          through ← intf_get_passthru d s;
          match through with
          | None => Some (s, d, None)
          | Some intf => s ← intf_put d s; get_dest_op fuel intf type s
          end
      end
  end.
Definition intf_get_dest_op := get_dest_op hops.

(** ** Operations.  [call] runs a method. *)
Section Operations.
Variable call : Z -> loc -> message M -> intf_state X -> option (intf_state X * result).

(** The common part: the method of the destination or the default. *)
Definition invoke (intf : loc) (type : op_type) (msg : message M) (default : intf_state X -> intf_state X * result) s :
    option (intf_state X * result) :=
  '(s, d, func) ← intf_get_dest_op intf type s;
  object ← intf_object d s;
  '(s, r) ← (match func with
             | Some f => call f object msg s
             | None => Some (default s)
             end);
  s ← intf_put d s;
  Some (s, r).

Definition intf_close (intf : loc) (r : rc) s : option (intf_state X) :=
  '(s, _) ← invoke intf OP_intf_close (MsgClose r) (fun s => (s, Void)) s;
  Some s.

Definition intf_shutdown (intf : loc) (r : rc) s : option (intf_state X) :=
  s ← intf_nullify intf s;
  s ← intf_close intf r s;
  intf_unplug intf s.

Definition intf_restart (intf : loc) (r : rc) s : option (intf_state X) :=
  x ← intfs s !! intf;
  s ← intf_shutdown intf r s;
  y ← intfs s !! intf;
  Some (set_intfs (<[intf := set_desc (desc x) y]> (intfs s)) s).

Definition xfer_window (intf : loc) s : option (intf_state X * result) :=
  invoke intf OP_xfer_window MsgWindow (fun s => (s, Len (2 ^ 32 - 1))) s.
Definition xfer_window_changed (intf : loc) s : option (intf_state X) :=
  '(s, _) ← invoke intf OP_xfer_window_changed MsgWindowChanged (fun s => (s, Void)) s;
  Some s.
Definition xfer_alloc_iob (intf : loc) (len : Z) s : option (intf_state X * result) :=
  invoke intf OP_xfer_alloc_iob (MsgAllocIob len) (fun s => let '(x, b) := alloc_iob len (app s) in (set_app x s, Iobuf b)) s.
Definition xfer_deliver (intf : loc) (iobuf : list Z) (meta : M) s : option (intf_state X * result) :=
  invoke intf OP_xfer_deliver (MsgDeliver iobuf meta) (fun s => (s, Rc (RC_ERR EPIPE))) s.

Definition xfer_deliver_iob (intf : loc) (iobuf : list Z) s : option (intf_state X * result) := xfer_deliver intf iobuf dummy_metadata s.
Definition xfer_deliver_raw_meta (intf : loc) (data : list Z) (meta : M) s : option (intf_state X * result) :=
  '(s, r) ← xfer_alloc_iob intf (zlen data) s;
  match r with
  | Iobuf (Some iobuf) => xfer_deliver intf (iobuf ++ data) meta s
  | _ => Some (s, Rc (RC_ERR ENOMEM))
  end.
Definition xfer_deliver_raw (intf : loc) (data : list Z) s : option (intf_state X * result) := xfer_deliver_raw_meta intf data dummy_metadata s.

Definition xfer_seek (intf : loc) (offset : Z) s : option (intf_state X * result) :=
  '(s, r) ← xfer_alloc_iob intf 0 s;
  match r with
  | Iobuf (Some iobuf) => xfer_deliver intf iobuf (seek_metadata offset) s
  | _ => Some (s, Rc (RC_ERR ENOMEM))
  end.

(** ** Programs. *)
Definition void (os : option (intf_state X)) : option (intf_state X * result) := s ← os; Some (s, Void).
Definition exec (c : command M) s : option (intf_state X * result) :=
  match c with
  | Plug intf d => void (intf_plug intf d s)
  | PlugPlug a b => void (intf_plug_plug a b s)
  | Unplug intf => void (intf_unplug intf s)
  | Nullify intf => void (intf_nullify intf s)
  | Close intf r => void (intf_close intf r s)
  | Shutdown intf r => void (intf_shutdown intf r s)
  | Restart intf r => void (intf_restart intf r s)
  | Window intf => xfer_window intf s
  | WindowChanged intf => void (xfer_window_changed intf s)
  | AllocIob intf len => xfer_alloc_iob intf len s
  | Deliver intf iobuf meta => xfer_deliver intf iobuf meta s
  | RefGet obj => Some (set_irefs (ref_get (Some obj) (irefs s)) s, Void)
  | RefPut obj => Some (set_irefs (ref_put (Some obj) (irefs s)) s, Void)
  end.

Fixpoint run_prog (p : prog X M) s : option (intf_state X * result) :=
  match p with
  | Done r => Some (s, r)
  | Call c k => '(s, r) ← exec c s; run_prog (k r) s
  | Get k => run_prog (k (app s)) s
  | Put x k => run_prog k (set_app x s)
  end.
End Operations.

Fixpoint call_method (depth : nat) (f : Z) (object : loc) (msg : message M) s : option (intf_state X * result) :=
  match depth with
  | O => None
  | S depth => run_prog (call_method depth) (method f object msg) s
  end.
End Interfaces.

(** ** References.  The references an object has because interfaces are
    plugged into its interfaces. *)
Section References.
Context {X M : Type} (null_intf : loc) (at_offset : loc -> Z -> loc) (alloc_iob : Z -> X -> X * option (list Z))
  (hops : nat).
Implicit Type s : intf_state X.
Variable p : loc.
(** The references that the objects account for in their own state. *)
Context (own : X -> Z) (Hown : forall len x, own (alloc_iob len x).1 = own x).

Definition owner s (d : loc) : option loc := x ← intfs s !! d; refcnt x.
Definition users s : Z := Z.of_nat (size (filter (fun kv : loc * interface => owner s (dest kv.2) = Some p) (intfs s))).
Definition one (o : option loc) : Z := if decide (o = Some p) then 1 else 0.

(** The references that come neither from interfaces nor from the objects
    themselves change by [k], modulo the width of the counter. *)
Record shifted (k : Z) s s' : Prop := {
  sh_owner d : owner s' d = owner s d;
  sh_count c : count (irefs s) !! p = Some c -> exists c' j, count (irefs s') !! p = Some c' /\
    c' - users s' - own (app s') = c - users s - own (app s) + k + j * 2 ^ 32 }.

Lemma shifted_refl s : shifted 0 s s.
Proof. split; [done|]. intros c Hc. exists c, 0. split; [done|lia]. Qed.

Lemma shifted_trans k1 k2 k s1 s2 s3 : shifted k1 s1 s2 -> shifted k2 s2 s3 -> k = k1 + k2 -> shifted k s1 s3.
Proof.
  intros [Ho1 Hc1] [Ho2 Hc2] ->. split; [intros d; by rewrite Ho2|]. intros c Hc. destruct (Hc1 c Hc) as (c1 & j1 & E1 & H1).
  destruct (Hc2 c1 E1) as (c2 & j2 & E2 & H2). exists c2, (j1 + j2). split; [done|lia].
Qed.

Lemma s32_cong x : exists j, s32 x = x + j * 2 ^ 32.
Proof.
  unfold signed, wrap. change (2 ^ 32) with 4294967296. pose proof (Z.div_mod x 4294967296 ltac:(lia)). destruct (_ <? _); [exists (- (x / 4294967296))|exists (- (x / 4294967296) - 1)]; lia.
Qed.

Lemma ref_get_shift r s : shifted (one r) s (set_irefs (ref_get r (irefs s)) s).
Proof.
  split; [done|]. intros c Hc. change (users (set_irefs _ s)) with (users s). cbn [app set_irefs]. unfold one.
  destruct r as [q|]; cbn [irefs set_irefs ref_get ref_increment count]; [|exists c, 0; split; [done|]; rewrite decide_False by done; lia].
  case_decide as E; simplify_eq.
  - rewrite lookup_alter_eq, Hc. destruct (s32_cong (c + 1)) as [j Hj]. exists (s32 (c + 1)), j. split; [done|lia].
  - rewrite lookup_alter_ne by congruence. exists c, 0. split; [done|lia].
Qed.

Lemma ref_put_shift r s : shifted (- one r) s (set_irefs (ref_put r (irefs s)) s).
Proof.
  split; [done|]. intros c Hc. change (users (set_irefs _ s)) with (users s). cbn [app set_irefs]. unfold one.
  assert (forall q, count (ref_put (Some q) (irefs s)) = alter (fun c => s32 (c - 1)) q (count (irefs s))) as Hp.
  { intros q. cbn. case_match; [|done]. by repeat case_match. }
  destruct r as [q|]; cbn [irefs set_irefs]; [rewrite Hp|exists c, 0; split; [done|]; rewrite decide_False by done; lia].
  case_decide as E; simplify_eq.
  - rewrite lookup_alter_eq, Hc. destruct (s32_cong (c - 1)) as [j Hj]. exists (s32 (c - 1)), j. split; [done|lia].
  - rewrite lookup_alter_ne by congruence. exists c, 0. split; [done|lia].
Qed.

Lemma filter_replace (P : loc * interface -> Prop) `{HP : !forall kv, Decision (P kv)} (m : gmap loc interface) i x y : m !! i = Some x ->
  Z.of_nat (size (filter P (<[i := y]> m))) =
    Z.of_nat (size (filter P m)) + (if decide (P (i, y)) then 1 else 0) - (if decide (P (i, x)) then 1 else 0).
Proof.
  intros Hx. assert (forall z, Z.of_nat (size (filter P (<[i := z]> m))) = Z.of_nat (size (filter P (delete i m))) + (if decide (P (i, z)) then 1 else 0)) as Hsize.
  { intros z. rewrite <- insert_delete_eq, map_filter_insert. destruct (decide (P (i, z))).
    - rewrite map_size_insert_None; [lia|]. apply map_lookup_filter_None. left. apply lookup_delete_eq.
    - rewrite delete_delete_eq. lia. }
  rewrite Hsize. rewrite <- (insert_id m i x Hx) at 2. rewrite Hsize. lia.
Qed.

(** An interface is changed. *)
Lemma change_shift i x y s : intfs s !! i = Some x -> refcnt y = refcnt x ->
  shifted (one (owner s (dest x)) - one (owner s (dest y))) s (set_intfs (<[i := y]> (intfs s)) s).
Proof.
  intros Hx Hr. assert (forall d, owner (set_intfs (<[i := y]> (intfs s)) s) d = owner s d) as Ho.
  { intros d. unfold owner. cbn. destruct (decide (d = i)) as [-> |]; [rewrite lookup_insert_eq, Hx; cbn; by rewrite Hr|by rewrite lookup_insert_ne]. }
  split; [done|]. intros c Hc. exists c, 0. split; [done|]. unfold users at 1. cbn [intfs set_intfs].
  assert (size (filter (fun kv : loc * interface => owner (set_intfs (<[i := y]> (intfs s)) s) (dest kv.2) = Some p) (<[i := y]> (intfs s))) =
          size (filter (fun kv : loc * interface => owner s (dest kv.2) = Some p) (<[i := y]> (intfs s)))) as ->.
  { f_equal. apply map_filter_ext. intros k z _. cbn. by rewrite Ho. }
  rewrite (filter_replace _ _ _ x) by done. unfold users, one. cbn [snd app set_intfs]. lia.
Qed.

Lemma get_shift d s s' : intf_get d s = Some s' -> shifted (one (owner s d)) s s'.
Proof.
  unfold intf_get, owner. destruct (intfs s !! d) as [x|]; [|done]. intros [= <-]. apply ref_get_shift.
Qed.
Lemma put_shift d s s' : intf_put d s = Some s' -> shifted (- one (owner s d)) s s'.
Proof.
  unfold intf_put, owner. destruct (intfs s !! d) as [x|]; [|done]. intros [= <-]. apply ref_put_shift.
Qed.

Lemma plug_shift i d s s' : intf_plug i d s = Some s' -> shifted 0 s s'.
Proof.
  unfold intf_plug. destruct (intf_get d s) as [s1|] eqn:E1; [|done]. cbn. destruct (intfs s1 !! i) as [x|] eqn:Ex; [|done]. cbn.
  destruct (intf_put (dest x) s1) as [s2|] eqn:E2; [|done]. intros [= <-].
  pose proof (get_shift _ _ _ E1) as H1. pose proof (put_shift _ _ _ E2) as H2.
  assert (intfs s2 = intfs s1) as Es by (unfold intf_put in E2; destruct (intfs s1 !! dest x); by simplify_eq/=).
  rewrite <- Es in Ex. pose proof (change_shift i x (set_dest d x) s2 Ex eq_refl) as H3. cbn [dest set_dest] in H3.
  eapply shifted_trans; [exact H1|eapply shifted_trans; [exact H2|exact H3|reflexivity]|].
  rewrite !(sh_owner _ _ _ H2), !(sh_owner _ _ _ H1). lia.
Qed.

Lemma nullify_shift i s s' : intf_nullify i s = Some s' -> shifted 0 s s'.
Proof.
  unfold intf_nullify. destruct (intfs s !! i) as [x|] eqn:Ex; [|done]. intros [= <-].
  eapply shifted_trans; [apply shifted_refl|by apply (change_shift i x)|]. cbn. lia.
Qed.

Lemma dest_op_shift fuel i type s s' d f : get_dest_op at_offset fuel i type s = Some (s', d, f) -> shifted (one (owner s d)) s s'.
Proof.
  revert i s. induction fuel as [|fuel IH]; intros i s; [done|]. cbn [get_dest_op]. unfold intf_get_dest_op_no_passthru.
  destruct (intfs s !! i) as [x|]; [|done]. cbn. destruct (intf_get (dest x) s) as [s1|] eqn:E1; [|done]. cbn.
  destruct (intfs s1 !! dest x) as [y|] eqn:Ey; [|done]. cbn. pose proof (get_shift _ _ _ E1) as H1.
  destruct (find_op type (desc y)) as [g|]; [by intros [= <- <- _]|]. unfold intf_get_passthru. rewrite Ey. cbn.
  destruct (ctrue _); [|by intros [= <- <- _]]. destruct (intf_put (dest x) s1) as [s2|] eqn:E2; [|done]. cbn. intros E3%IH.
  pose proof (put_shift _ _ _ E2) as H2. rewrite (sh_owner _ _ _ H1) in H2. rewrite (sh_owner _ _ _ H2), (sh_owner _ _ _ H1) in E3.
  eapply shifted_trans; [exact H1|eapply shifted_trans; [exact H2|exact E3|reflexivity]|]. lia.
Qed.

(** Commands that do not count the references of the object themselves. *)
Definition quiet_command (c : command M) : Prop := match c with RefGet q | RefPut q => q <> p | _ => True end.

Section Calls.
Variable call : Z -> loc -> message M -> intf_state X -> option (intf_state X * result).
Hypothesis Hcall : forall f o m s s' r, call f o m s = Some (s', r) -> shifted 0 s s'.

Lemma invoke_shift i type msg default s s' r : (forall s, shifted 0 s (default s).1) ->
  invoke at_offset hops call i type msg default s = Some (s', r) -> shifted 0 s s'.
Proof.
  intros Hd. unfold invoke, intf_get_dest_op. destruct (get_dest_op _ _ _ _ _) as [[[s1 d] f]|] eqn:E1; [|done]. cbn.
  destruct (intf_object _ _ _) as [o|]; [|done]. cbn. pose proof (dest_op_shift _ _ _ _ _ _ _ E1) as H1.
  assert (forall s2 r2, match f with Some f => call f o msg s1 | None => Some (default s1) end = Some (s2, r2) -> shifted 0 s1 s2) as Hc.
  { intros s2 r2. destruct f; [by apply Hcall|]. intros [= E]. specialize (Hd s1). by rewrite E in Hd. }
  destruct (match f with Some f => _ | None => _ end) as [[s2 r2]|]; [|done]. cbn. specialize (Hc s2 r2 eq_refl).
  destruct (intf_put d s2) as [s3|] eqn:E3; [|done]. intros [= <- _]. pose proof (put_shift _ _ _ E3) as H3.
  rewrite (sh_owner _ _ _ Hc), (sh_owner _ _ _ H1) in H3.
  eapply shifted_trans; [exact H1|eapply shifted_trans; [exact Hc|exact H3|reflexivity]|]. lia.
Qed.

Lemma close_shift i r s s' : intf_close at_offset hops call i r s = Some s' -> shifted 0 s s'.
Proof.
  unfold intf_close. destruct (invoke _ _ _ _ _ _ _ _) as [[s1 r1]|] eqn:E; [|done]. intros [= <-].
  apply invoke_shift in E; [done|]. intros. apply shifted_refl.
Qed.

Lemma shutdown_shift i r s s' : intf_shutdown null_intf at_offset hops call i r s = Some s' -> shifted 0 s s'.
Proof.
  unfold intf_shutdown. destruct (intf_nullify i s) as [s1|] eqn:E1; [|done]. cbn. destruct (intf_close _ _ _ _ _ _) as [s2|] eqn:E2; [|done]. cbn. intros E3.
  eapply shifted_trans; [by eapply nullify_shift|eapply shifted_trans; [by eapply close_shift|by eapply plug_shift|reflexivity]|done].
Qed.

Lemma set_app_shift x s : shifted (own (app s) - own x) s (set_app x s).
Proof. split; [done|]. intros c Hc. exists c, 0. split; [done|]. change (users (set_app x s)) with (users s). cbn [app set_app]. lia. Qed.

Lemma exec_shift c s s' r : quiet_command c -> exec null_intf at_offset alloc_iob hops call c s = Some (s', r) -> shifted 0 s s'.
Proof.
  intros Hq. destruct c; cbn [exec]; unfold void, intf_plug_plug, intf_unplug, intf_restart, xfer_window, xfer_window_changed, xfer_alloc_iob, xfer_deliver.
  - destruct (intf_plug _ _ _) eqn:E; [|done]. intros [= <- _]. by eapply plug_shift.
  - destruct (intf_plug a b s) as [s1|] eqn:E1; [|done]. cbn. destruct (intf_plug b a s1) as [s2|] eqn:E2; [|done]. intros [= <- _].
    eapply shifted_trans; [by eapply plug_shift|by eapply plug_shift|done].
  - destruct (intf_plug _ _ _) eqn:E; [|done]. intros [= <- _]. by eapply plug_shift.
  - destruct (intf_nullify _ _) eqn:E; [|done]. intros [= <- _]. by eapply nullify_shift.
  - destruct (intf_close _ _ _ _ _ _) eqn:E; [|done]. intros [= <- _]. by eapply close_shift.
  - destruct (intf_shutdown _ _ _ _ _ _ _) eqn:E; [|done]. intros [= <- _]. by eapply shutdown_shift.
  - destruct (intfs s !! intf) as [x|]; [|done]. cbn. destruct (intf_shutdown _ _ _ _ _ _ _) as [s1|] eqn:E; [|done]. cbn.
    destruct (intfs s1 !! intf) as [y|] eqn:Ey; [|done]. intros [= <- _].
    eapply shifted_trans; [by eapply shutdown_shift|by apply (change_shift intf y)|]. cbn. lia.
  - apply invoke_shift. intros. apply shifted_refl.
  - destruct (invoke _ _ _ _ _ _ _ _) as [[s1 r1]|] eqn:E; [|done]. intros [= <- _]. apply invoke_shift in E; [done|]. intros. apply shifted_refl.
  - apply invoke_shift. intros t. pose proof (Hown len (app t)) as Ho. destruct (alloc_iob len (app t)) as [x b]. cbn in Ho |- *. eapply shifted_trans; [apply shifted_refl|apply set_app_shift|lia].
  - apply invoke_shift. intros. apply shifted_refl.
  - intros [= <- _]. eapply shifted_trans; [apply shifted_refl|apply (ref_get_shift (Some obj))|]. unfold one. rewrite decide_False by congruence. done.
  - intros [= <- _]. eapply shifted_trans; [apply shifted_refl|apply (ref_put_shift (Some obj))|]. unfold one. rewrite decide_False by congruence. done.
Qed.

End Calls.
End References.

(** ** References that methods take and drop themselves.  The methods, with a
    count of the references of the object [p] that they took less those they
    dropped; the count is beside the state of the objects, and nothing reads
    it. *)
Section Counting.
Context {X M : Type} (null_intf : loc) (at_offset : loc -> Z -> loc) (alloc_iob : Z -> X -> X * option (list Z))
  (method : Z -> loc -> message M -> prog X M) (hops : nat) (p : loc).

Definition counting (c : command M) : Z :=
  match c with
  | RefGet q => if decide (q = p) then 1 else 0
  | RefPut q => if decide (q = p) then -1 else 0
  | _ => 0
  end.
Fixpoint counted (g : prog X M) : prog (X * Z) M :=
  match g with
  | Done r => Done r
  | Call c k => Call c (fun r => Get (fun x => Put (x.1, x.2 + counting c) (counted (k r))))
  | Get k => Get (fun x => counted (k x.1))
  | Put x k => Get (fun y => Put (x, y.2) (counted k))
  end.
Definition counted_method (f : Z) (o : loc) (m : message M) : prog (X * Z) M := counted (method f o m).
Definition counted_alloc (len : Z) (x : X * Z) : (X * Z) * option (list Z) := let '(y, b) := alloc_iob len x.1 in ((y, x.2), b).

Abbreviation method_at := (call_method null_intf at_offset alloc_iob method hops).
Abbreviation counted_at := (call_method null_intf at_offset counted_alloc counted_method hops).
Abbreviation shifted := (shifted p snd).

(** *** The count is right. *)
Lemma counted_alloc_own len x : (counted_alloc len x).1.2 = x.2.
Proof. unfold counted_alloc. by destruct (alloc_iob len x.1). Qed.

Section Shift.
Variable call : Z -> loc -> message M -> intf_state (X * Z) -> option (intf_state (X * Z) * result).
Hypothesis Hcall : forall f o m s s' r, call f o m s = Some (s', r) -> shifted 0 s s'.

Lemma exec_counting c s s' r : exec null_intf at_offset counted_alloc hops call c s = Some (s', r) -> shifted (counting c) s s'.
Proof.
  intros E. assert (c = RefGet p \/ c = RefPut p \/ quiet_command p c /\ counting c = 0) as [-> |[-> |[Hq ->]]].
  { destruct c as [| | | | | | | | | | |q|q]; try (by right; right). all: cbn; destruct (decide (q = p)) as [-> |]; auto. }
  - injection E as <- _. cbn [counting]. rewrite decide_True by done.
    eapply shifted_trans; [apply shifted_refl|apply (ref_get_shift p snd (Some p))|]. unfold one. by rewrite decide_True.
  - injection E as <- _. cbn [counting]. rewrite decide_True by done.
    eapply shifted_trans; [apply shifted_refl|apply (ref_put_shift p snd (Some p))|]. unfold one. by rewrite decide_True.
  - by eapply (exec_shift null_intf at_offset counted_alloc hops p snd counted_alloc_own call Hcall c).
Qed.

Lemma counted_shift g s s' r : run_prog null_intf at_offset counted_alloc hops call (counted g) s = Some (s', r) -> shifted 0 s s'.
Proof.
  revert s. induction g as [r0|c k IH|k IH|x g IH]; intros s; cbn [counted run_prog].
  - intros [= <- _]. apply shifted_refl.
  - destruct (exec _ _ _ _ _ _ _) as [[s1 r1]|] eqn:E; [|done]. cbn. intros Hr%IH. apply exec_counting in E.
    eapply shifted_trans; [exact E|eapply shifted_trans; [apply set_app_shift|exact Hr|reflexivity]|]. cbn. lia.
  - intros Hr. by eapply IH.
  - intros Hr%IH. eapply shifted_trans; [apply set_app_shift|exact Hr|]. cbn. lia.
Qed.
End Shift.

Lemma counted_method_shift depth f o m s s' r : counted_at depth f o m s = Some (s', r) -> shifted 0 s s'.
Proof. revert f o m s s' r. induction depth as [|depth IH]; intros f o m s s' r; cbn [call_method]; [done|]. apply counted_shift, IH. Qed.

(** *** The count changes nothing. *)
Definition erase (s : intf_state (X * Z)) : intf_state X := IntfState (intfs s) (irefs s) (app s).1.
Definition erase_r (sr : intf_state (X * Z) * result) : intf_state X * result := (erase sr.1, sr.2).

Lemma erase_get d s : intf_get d (erase s) = erase <$> intf_get d s.
Proof. unfold intf_get. cbn. by destruct (intfs s !! d). Qed.
Lemma erase_put d s : intf_put d (erase s) = erase <$> intf_put d s.
Proof. unfold intf_put. cbn. by destruct (intfs s !! d). Qed.
Lemma erase_nullify i s : intf_nullify i (erase s) = erase <$> intf_nullify i s.
Proof. unfold intf_nullify. cbn. by destruct (intfs s !! i). Qed.

Lemma erase_plug i d s : intf_plug i d (erase s) = erase <$> intf_plug i d s.
Proof.
  unfold intf_plug. rewrite erase_get. destruct (intf_get d s) as [s1|]; [|done]. cbn. destruct (intfs s1 !! i) as [x|]; [|done]. cbn.
  rewrite erase_put. by destruct (intf_put (dest x) s1).
Qed.

Lemma erase_dest_op fuel type : forall i s, get_dest_op at_offset fuel i type (erase s) =
  (fun t : intf_state (X * Z) * loc * option Z => (erase t.1.1, t.1.2, t.2)) <$> get_dest_op at_offset fuel i type s.
Proof.
  induction fuel as [|fuel IH]; intros i s; [done|]. cbn [get_dest_op]. unfold intf_get_dest_op_no_passthru. cbn [intfs erase].
  destruct (intfs s !! i) as [x|]; [|done]. cbn. rewrite erase_get. destruct (intf_get (dest x) s) as [s1|]; [|done]. cbn.
  destruct (intfs s1 !! dest x) as [y|] eqn:Ey; [|done]. cbn. destruct (find_op type (desc y)); [done|]. unfold intf_get_passthru. cbn. rewrite Ey. cbn.
  destruct (ctrue _); [|done]. rewrite erase_put. destruct (intf_put (dest x) s1) as [s2|]; [|done]. cbn. apply IH.
Qed.

Section Erase.
Variable call : Z -> loc -> message M -> intf_state X -> option (intf_state X * result).
Variable call' : Z -> loc -> message M -> intf_state (X * Z) -> option (intf_state (X * Z) * result).
Hypothesis Hcall : forall f o m s, call f o m (erase s) = erase_r <$> call' f o m s.

Lemma erase_invoke i type msg default default' s : (forall s, default (erase s) = erase_r (default' s)) ->
  invoke at_offset hops call i type msg default (erase s) = erase_r <$> invoke at_offset hops call' i type msg default' s.
Proof.
  intros Hd. unfold invoke, intf_get_dest_op. rewrite erase_dest_op. destruct (get_dest_op _ _ _ _ _) as [[[s1 d] f]|]; [|done]. cbn.
  unfold intf_object. cbn. destruct (intfs s1 !! d) as [x|]; [|done]. cbn.
  assert (match f with Some f => call f (at_offset d (- desc_offset (desc x))) msg (erase s1) | None => Some (default (erase s1)) end =
    erase_r <$> match f with Some f => call' f (at_offset d (- desc_offset (desc x))) msg s1 | None => Some (default' s1) end) as ->.
  { destruct f; [apply Hcall|]. by rewrite Hd. }
  destruct (match f with Some f => call' _ _ _ _ | None => _ end) as [[s2 r]|]; [|done]. cbn. rewrite erase_put. by destruct (intf_put d s2).
Qed.

Lemma erase_close i r s : intf_close at_offset hops call i r (erase s) = erase <$> intf_close at_offset hops call' i r s.
Proof. unfold intf_close. rewrite (erase_invoke _ _ _ _ (fun s => (s, Void))) by done. by destruct (invoke _ _ _ _ _ _ _ s) as [[s1 r1]|]. Qed.

Lemma erase_shutdown i r s : intf_shutdown null_intf at_offset hops call i r (erase s) = erase <$> intf_shutdown null_intf at_offset hops call' i r s.
Proof.
  unfold intf_shutdown. rewrite erase_nullify. destruct (intf_nullify i s) as [s1|]; [|done]. cbn. rewrite erase_close.
  destruct (intf_close _ _ _ _ _ s1) as [s2|]; [|done]. cbn. apply erase_plug.
Qed.

Lemma erase_void os os' : os = erase <$> os' -> void os = erase_r <$> void os'.
Proof. intros ->. unfold void. by destruct os'. Qed.

Lemma erase_exec c s : exec null_intf at_offset alloc_iob hops call c (erase s) = erase_r <$> exec null_intf at_offset counted_alloc hops call' c s.
Proof.
  destruct c; cbn [exec]; try done; try (apply erase_void); unfold intf_plug_plug, intf_unplug, intf_restart, xfer_window, xfer_window_changed, xfer_alloc_iob, xfer_deliver.
  - apply erase_plug.
  - rewrite erase_plug. destruct (intf_plug a b s); [|done]. apply erase_plug.
  - apply erase_plug.
  - apply erase_nullify.
  - apply erase_close.
  - apply erase_shutdown.
  - cbn. destruct (intfs s !! intf) as [x|]; [|done]. cbn. rewrite erase_shutdown. destruct (intf_shutdown _ _ _ _ _ _ s) as [s1|]; [|done]. cbn.
    by destruct (intfs s1 !! intf).
  - by apply erase_invoke.
  - rewrite (erase_invoke _ _ _ _ (fun s => (s, Void))) by done. by destruct (invoke _ _ _ _ _ _ _ s) as [[s1 r1]|].
  - apply erase_invoke. intros t. unfold counted_alloc. cbn. by destruct (alloc_iob len (app t).1).
  - by apply erase_invoke.
Qed.

Lemma erase_prog g s : run_prog null_intf at_offset alloc_iob hops call g (erase s) = erase_r <$> run_prog null_intf at_offset counted_alloc hops call' (counted g) s.
Proof.
  revert s. induction g as [r|c k IH|k IH|x g IH]; intros s; cbn [run_prog counted]; [done| | |].
  - rewrite erase_exec. destruct (exec _ _ _ _ _ c s) as [[s1 r]|]; [|done]. cbn. apply (IH r (set_app ((app s1).1, (app s1).2 + counting c) s1)).
  - apply (IH (app s).1 s).
  - apply (IH (set_app (x, (app s).2) s)).
Qed.
End Erase.

Lemma erase_method depth f o m s : method_at depth f o m (erase s) = erase_r <$> counted_at depth f o m s.
Proof. revert f o m s. induction depth as [|depth IH]; intros f o m s; cbn [call_method]; [done|]. apply erase_prog, IH. Qed.

(** C25: interfaces account for their references.  Whatever interface function
    is called, with methods that call any others again, also through the same
    interface and to any depth, and that take and drop references themselves,
    the counter of an object changes exactly with the number of interfaces that
    are plugged into interfaces of the object and with the references [k] that
    the methods took less those they dropped, in the width of the counter.  No
    interface is plugged without a reference, or unplugged without dropping
    it.  The run with the count [k] is the same as the one without it. *)
Theorem references_balanced depth c (s s' : intf_state X) r n :
  exec null_intf at_offset alloc_iob hops (method_at depth) c s = Some (s', r) -> count (irefs s) !! p = Some n ->
  exists k n', exec null_intf at_offset counted_alloc hops (counted_at depth) c (IntfState (intfs s) (irefs s) (app s, 0)) =
      Some (IntfState (intfs s') (irefs s') (app s', k), r) /\
    count (irefs s') !! p = Some n' /\ (n' - users p s') mod 2 ^ 32 = (n - users p s + k + counting c) mod 2 ^ 32.
Proof.
  intros E Hn. set (t := IntfState (intfs s) (irefs s) (app s, 0)). assert (erase t = s) as Ees by by destruct s.
  rewrite <- Ees, (erase_exec _ _ (erase_method depth)) in E. destruct (exec _ _ _ _ _ c t) as [[t' r']|] eqn:Et; [|done]. injection E as <- <-.
  apply exec_counting in Et as Hs; [|apply counted_method_shift]. destruct (sh_count _ _ _ _ _ Hs n Hn) as (n' & j & Hn' & Hj).
  exists (app t').2, n'. split; [destruct t' as [? ? []]; done|]. split; [done|]. change (users p (erase t')) with (users p t').
  change (users p s) with (users p t). replace (n' - users p t') with (n - users p t + (app t').2 + counting c + j * 2 ^ 32) by (cbn in Hj |- *; lia).
  apply Z.mod_add. lia.
Qed.
End Counting.

(** ** Closing. *)
Section Closing.
Context {X M : Type} (null_intf : loc) (at_offset : loc -> Z -> loc) (alloc_iob : Z -> X -> X * option (list Z))
  (method : Z -> loc -> message M -> prog X M) (hops : nat) (rank : loc -> nat).
Implicit Types (s : intf_state X) (m : gmap loc interface).

(** Programs that shut down interfaces, count references and change the state
    of the objects. *)
Fixpoint tame m (g : prog X M) : Prop :=
  match g with
  | Done _ => True
  | Call (Shutdown i _) k => is_Some (m !! i) /\ forall r, tame m (k r)
  | Call (RefGet _) k | Call (RefPut _) k => forall r, tame m (k r)
  | Call _ _ => False
  | Get k => forall x, tame m (k x)
  | Put _ k => tame m k
  end.
(** Such a program whose first shutdown is that of [i]. *)
Fixpoint closes_first m (i : loc) (g : prog X M) : Prop :=
  match g with
  | Call (Shutdown j _) k => j = i /\ forall r, tame m (k r)
  | Call (RefGet _) k | Call (RefPut _) k => forall r, closes_first m i (k r)
  | Get k => forall x, closes_first m i (k x)
  | Put _ k => closes_first m i k
  | Done _ | Call _ _ => False
  end.

(** The convention for objects: a close method shuts down the interface it is
    called through before any others.  Chains of pass-through interfaces
    end. *)
Record tidy m : Prop := {
  ti_null : m !! null_intf = Some (Interface null_intf None null_intf_desc);
  ti_dest i x : m !! i = Some x -> is_Some (m !! dest x);
  ti_rank i : (rank i < hops)%nat;
  ti_rank_null : rank null_intf = 0%nat;
  ti_through i x : m !! i = Some x -> ctrue (passthru_offset (desc x)) = true ->
    exists y, m !! at_offset i (passthru_offset (desc x)) = Some y /\ (rank (dest y) < rank i)%nat;
  ti_close i x f r : m !! i = Some x -> find_op OP_intf_close (desc x) = Some f ->
    closes_first m i (method f (at_offset i (- desc_offset (desc x))) (MsgClose r)) }.

Lemma tame_mono m m' g : (forall i, is_Some (m !! i) -> is_Some (m' !! i)) -> tame m g -> tame m' g.
Proof. intros K. induction g as [r|[] k IH|k IH|x g IH]; cbn; try naive_solver. Qed.

Lemma closes_first_mono m m' i g : (forall i, is_Some (m !! i) -> is_Some (m' !! i)) -> closes_first m i g -> closes_first m' i g.
Proof. intros K. induction g as [r|[] k IH|k IH|x g IH]; cbn; try naive_solver. intros [-> Hk]. split; [done|]. intros r'. by apply (tame_mono m). Qed.

(** Interfaces are blocked or unplugged, and nothing else. *)
Record shrinks m m' : Prop := {
  sk_back i x' : m' !! i = Some x' -> exists x, m !! i = Some x /\ (desc x' = desc x \/ desc x' = null_intf_desc) /\ (dest x' = dest x \/ dest x' = null_intf);
  sk_keep i : is_Some (m !! i) -> is_Some (m' !! i);
  sk_null : m !! null_intf = Some (Interface null_intf None null_intf_desc) -> m' !! null_intf = Some (Interface null_intf None null_intf_desc) }.

Definition gone m (i : loc) : Prop := exists x, m !! i = Some x /\ desc x = null_intf_desc /\ dest x = null_intf.

Definition live m : gset loc := dom (filter (fun kv : loc * interface => desc kv.2 <> null_intf_desc) m).
Definition alive m : nat := size (live m).

Lemma live_at m i : i ∈ live m <-> exists x, m !! i = Some x /\ desc x <> null_intf_desc.
Proof.
  unfold live. rewrite elem_of_dom. split.
  - intros [x [Hx Hd]%map_lookup_filter_Some]. by exists x.
  - intros (x & Hx & Hd). exists x. by apply map_lookup_filter_Some.
Qed.

Lemma shrinks_refl m : shrinks m m.
Proof. split; [|done..]. intros i x Hx. exists x. split; [done|]. split; by left. Qed.

Lemma shrinks_trans m1 m2 m3 : shrinks m1 m2 -> shrinks m2 m3 -> shrinks m1 m3.
Proof.
  intros [B1 K1 N1] [B2 K2 N2]. split; [|by auto..]. intros i x' Hx'. destruct (B2 i x' Hx') as (y & Hy & Hd2 & He2).
  destruct (B1 i y Hy) as (x & Hx & Hd1 & He1). exists x. split; [done|]. split.
  - destruct Hd2 as [-> | ->]; [done|by right].
  - destruct He2 as [-> | ->]; [done|by right].
Qed.

Lemma shrinks_gone m m' i : shrinks m m' -> gone m i -> gone m' i.
Proof.
  intros [B K _] (x & Hx & Hd & He). destruct (K i) as [x' Hx']; [by eexists|]. exists x'. split; [done|].
  destruct (B i x' Hx') as (y & Hy & Hd' & He'). simplify_eq. split; [destruct Hd'; congruence|destruct He'; congruence].
Qed.

Lemma shrinks_live m m' : shrinks m m' -> live m' ⊆ live m.
Proof.
  intros [B _ _] i (x' & Hx' & Hd)%live_at. destruct (B i x' Hx') as (x & Hx & Hd' & _). apply live_at. exists x. split; [done|].
  destruct Hd'; congruence.
Qed.

Lemma shrinks_alive m m' : shrinks m m' -> (alive m' <= alive m)%nat.
Proof. intros H%shrinks_live. unfold alive. by apply (subseteq_size (C := gset loc)). Qed.

Lemma find_null type : find_op type null_intf_desc = None.
Proof. done. Qed.

Lemma tidy_shrinks m m' : tidy m -> shrinks m m' -> tidy m'.
Proof.
  intros Ht Hs. pose proof (sk_keep _ _ Hs) as K. split.
  - apply (sk_null _ _ Hs), Ht.
  - intros i x' Hx'. destruct (sk_back _ _ Hs i x' Hx') as (x & Hx & _ & [-> | ->]); apply K; [by eapply ti_dest|]. eexists. by apply ti_null.
  - apply Ht.
  - apply Ht.
  - intros i x' Hx' Hp. destruct (sk_back _ _ Hs i x' Hx') as (x & Hx & [Ed|Ed] & _); rewrite Ed in Hp |- *; [|done].
    destruct (ti_through _ Ht i x Hx Hp) as (y & Hy & Hr). destruct (K (at_offset i (passthru_offset (desc x)))) as [y' Hy']; [by eexists|].
    exists y'. split; [done|]. destruct (sk_back _ _ Hs _ _ Hy') as (z & Hz & _ & [-> | ->]); simplify_eq; [done|]. rewrite (ti_rank_null _ Ht). lia.
  - intros i x' f r Hx' Hf. destruct (sk_back _ _ Hs i x' Hx') as (x & Hx & [Ed|Ed] & _); rewrite Ed in Hf |- *; [|done].
    by apply (closes_first_mono _ _ _ _ K), ti_close.
Qed.

(** One interface is blocked, or unplugged. *)
Lemma shrinks_change m i x y : m !! i = Some x -> (m !! null_intf = Some (Interface null_intf None null_intf_desc)) -> refcnt y = refcnt x ->
  (desc y = desc x \/ desc y = null_intf_desc) -> (dest y = dest x \/ dest y = null_intf) -> shrinks m (<[i := y]> m).
Proof.
  intros Hx Hn Hr Hd He. split.
  - intros j z Hz. destruct (decide (j = i)) as [-> |]; [rewrite lookup_insert_eq in Hz; simplify_eq; by exists x|].
    rewrite lookup_insert_ne in Hz by done. exists z. split; [done|]. split; by left.
  - intros j Hj. destruct (decide (j = i)) as [-> |]; [rewrite lookup_insert_eq; by eexists|by rewrite lookup_insert_ne].
  - intros _. destruct (decide (null_intf = i)) as [<- |]; [|by rewrite lookup_insert_ne]. rewrite lookup_insert_eq. simplify_eq. cbn in *.
    destruct y as [dy ry ey]. cbn in *. by destruct Hd as [-> | ->], He as [-> | ->]; subst.
Qed.

Lemma nullify_run i x s : intfs s !! i = Some x -> tidy (intfs s) ->
  exists s', intf_nullify i s = Some s' /\ intfs s' = <[i := set_desc null_intf_desc x]> (intfs s) /\ shrinks (intfs s) (intfs s').
Proof.
  intros Hx Ht. unfold intf_nullify. rewrite Hx. eexists. split; [done|]. split; [done|]. cbn.
  apply (shrinks_change _ _ x); [done|apply Ht|done|by right|by left].
Qed.

Lemma unplug_run i x s : intfs s !! i = Some x -> tidy (intfs s) ->
  exists s', intf_unplug null_intf i s = Some s' /\ intfs s' = <[i := set_dest null_intf x]> (intfs s) /\ shrinks (intfs s) (intfs s').
Proof.
  intros Hx Ht. unfold intf_unplug, intf_plug, intf_get. rewrite (ti_null _ Ht). cbn. rewrite Hx. cbn. unfold intf_put. cbn.
  destruct (ti_dest _ Ht i x Hx) as [y ->]. cbn. eexists. split; [done|]. split; [done|]. cbn.
  apply (shrinks_change _ _ x); [done|apply Ht|done|by left|by right].
Qed.

Lemma nullify_less m i x : m !! i = Some x -> desc x <> null_intf_desc -> (alive (<[i := set_desc null_intf_desc x]> m) < alive m)%nat.
Proof.
  intros Hx Hd. unfold alive. apply (subset_size (C := gset loc)). split.
  - intros j (y & Hy & Hy')%live_at. apply live_at. destruct (decide (j = i)) as [-> |]; [rewrite lookup_insert_eq in Hy; by simplify_eq|].
    rewrite lookup_insert_ne in Hy by done. by exists y.
  - intros Hsub. assert (i ∈ live m) as Hi by (apply live_at; by exists x). apply Hsub, live_at in Hi as (y & Hy & Hy').
    rewrite lookup_insert_eq in Hy. by simplify_eq.
Qed.

Lemma dest_op_run fuel type : forall i x s, tidy (intfs s) -> intfs s !! i = Some x -> (rank (dest x) < fuel)%nat ->
  exists s' d y, get_dest_op at_offset fuel i type s = Some (s', d, find_op type (desc y)) /\ intfs s' = intfs s /\ intfs s !! d = Some y /\
    (is_Some (y' ← intfs s !! dest x; find_op type (desc y')) -> d = dest x).
Proof.
  induction fuel as [|fuel IH]; intros i x s Ht Hx Hr; [lia|]. cbn [get_dest_op]. unfold intf_get_dest_op_no_passthru. rewrite Hx. cbn.
  destruct (ti_dest _ Ht i x Hx) as [y Hy]. unfold intf_get. rewrite Hy. cbn. rewrite Hy. cbn.
  destruct (find_op type (desc y)) as [f|] eqn:Ef.
  - eexists _, (dest x), y. rewrite Ef. split_and!; [reflexivity|done|done|]. done.
  - unfold intf_get_passthru. cbn. rewrite Hy. cbn. destruct (ctrue (passthru_offset (desc y))) eqn:Ep.
    + destruct (ti_through _ Ht _ y Hy Ep) as (z & Hz & Hrz). unfold intf_put. cbn. rewrite Hy. cbn.
      match goal with |- context [get_dest_op _ fuel ?q _ ?t] => destruct (IH q z t) as (s' & d & u & E & Es & Hu & _); [exact Ht|exact Hz|lia|] end.
      rewrite E. exists s', d, u. split_and!; [done|exact Es|exact Hu|by intros [? ?]].
    + eexists _, (dest x), y. rewrite Ef. split_and!; [reflexivity|done|done|]. done.
Qed.

Abbreviation method_at := (call_method null_intf at_offset alloc_iob method hops).
Abbreviation close_at n := (intf_close at_offset hops (method_at n)).
Abbreviation shutdown_at n := (intf_shutdown null_intf at_offset hops (method_at n)).

(** Whether closing works at depth [n]. *)
Definition closes (n : nat) : Prop := forall i x r s, tidy (intfs s) -> intfs s !! i = Some x -> (alive (intfs s) <= n)%nat ->
  exists s', close_at n i r s = Some s' /\ shrinks (intfs s) (intfs s') /\
    (forall y f, intfs s !! dest x = Some y -> find_op OP_intf_close (desc y) = Some f -> gone (intfs s') (dest x)).

Lemma shutdown_run n i x r s : closes n -> tidy (intfs s) -> intfs s !! i = Some x ->
  (alive (<[i := set_desc null_intf_desc x]> (intfs s)) <= n)%nat ->
  exists s', shutdown_at n i r s = Some s' /\ shrinks (intfs s) (intfs s') /\ gone (intfs s') i /\
    (forall y f, dest x <> i -> intfs s !! dest x = Some y -> find_op OP_intf_close (desc y) = Some f -> gone (intfs s') (dest x)).
Proof.
  intros Hc Ht Hx Ha. unfold intf_shutdown. destruct (nullify_run i x s Hx Ht) as (s1 & -> & E1 & S1). cbn [mbind option_bind].
  pose proof (tidy_shrinks _ _ Ht S1) as T1. rewrite <- E1 in Ha. assert (intfs s1 !! i = Some (set_desc null_intf_desc x)) as X1 by (rewrite E1; apply lookup_insert_eq).
  destruct (Hc i _ r s1 T1 X1 Ha) as (s2 & -> & S2 & G2). cbn [mbind option_bind]. pose proof (tidy_shrinks _ _ T1 S2) as T2.
  destruct (sk_keep _ _ S2 i) as [x2 X2]; [by eexists|]. destruct (unplug_run i x2 s2 X2 T2) as (s3 & -> & E3 & S3). exists s3. split_and!; [done| | |].
  - eapply shrinks_trans; [exact S1|]. by eapply shrinks_trans.
  - exists (set_dest null_intf x2). split; [rewrite E3; apply lookup_insert_eq|]. split; [|done]. cbn.
    destruct (sk_back _ _ S2 i x2 X2) as (z & Hz & Hd & _). rewrite X1 in Hz. simplify_eq. by destruct Hd.
  - intros y f Hne Hy Hf. eapply shrinks_gone; [exact S3|]. apply (G2 y f); [|done]. cbn. rewrite E1. by rewrite lookup_insert_ne.
Qed.

Lemma tame_run n g : closes n -> forall s, tidy (intfs s) -> tame (intfs s) g -> (alive (intfs s) <= n)%nat ->
  exists s' res, run_prog null_intf at_offset alloc_iob hops (method_at n) g s = Some (s', res) /\ shrinks (intfs s) (intfs s').
Proof.
  intros Hc. induction g as [res|c k IH|k IH|x g IH]; intros s Ht Hg Ha; cbn [run_prog].
  - exists s, res. split; [done|apply shrinks_refl].
  - destruct c as [| | | | |i r| | | | | |obj|obj]; try done; cbn [tame] in Hg.
    2,3: cbn [exec mbind option_bind]; match goal with |- context [run_prog _ _ _ _ _ _ ?t] => apply (IH Void t); try done; apply Hg end.
    destruct Hg as [[x Hx] Hk]. cbn [exec].
    assert (alive (<[i := set_desc null_intf_desc x]> (intfs s)) <= alive (intfs s))%nat as Hle.
    { apply shrinks_alive, (shrinks_change _ _ x); [done|apply Ht|done|by right|by left]. }
    destruct (shutdown_run n i x r s Hc Ht Hx ltac:(lia)) as (s1 & -> & S1 & _). unfold void. cbn [mbind option_bind].
    pose proof (shrinks_alive _ _ S1). destruct (IH Void s1) as (s2 & res & -> & S2);
      [by eapply tidy_shrinks|by apply (tame_mono _ _ _ (sk_keep _ _ S1))|lia|].
    exists s2, res. split; [done|]. by eapply shrinks_trans.
  - by apply (IH (app s)).
  - by apply (IH (set_app x s)).
Qed.

(** A close method that is called through [d]. *)
Lemma close_first_run n d y g : closes n -> forall s, tidy (intfs s) -> intfs s !! d = Some y -> desc y <> null_intf_desc ->
  closes_first (intfs s) d g -> (alive (intfs s) <= S n)%nat ->
  exists s' res, run_prog null_intf at_offset alloc_iob hops (method_at n) g s = Some (s', res) /\ shrinks (intfs s) (intfs s') /\ gone (intfs s') d.
Proof.
  intros Hc. induction g as [res|c k IH|k IH|x g IH]; intros s Ht Hy Hne Hg Ha; cbn [run_prog]; [done| | |].
  - destruct c as [| | | | |i r| | | | | |obj|obj]; try done; cbn [closes_first] in Hg.
    2,3: cbn [exec mbind option_bind]; match goal with |- context [run_prog _ _ _ _ _ _ ?t] => apply (IH Void t); try done; apply Hg end.
    destruct Hg as [-> Hk]. cbn [exec]. pose proof (nullify_less _ d y Hy Hne).
    destruct (shutdown_run n d y r s Hc Ht Hy ltac:(lia)) as (s2 & -> & S2 & G2 & _). unfold void. cbn [mbind option_bind].
    assert (alive (intfs s2) <= n)%nat as Ha2.
    { assert (live (intfs s2) ⊂ live (intfs s)) as Hss; [|apply (subset_size (C := gset loc)) in Hss; unfold alive in *; lia]. split; [by apply shrinks_live|].
      intros Hsub. assert (d ∈ live (intfs s)) as Hin by (apply live_at; by exists y). apply Hsub, live_at in Hin as (z & Hz & Hz').
      destruct G2 as (z' & Hz2 & Hz3 & _). simplify_eq. }
    destruct (tame_run n (k Void) Hc s2) as (s3 & res & -> & S3);
      [by eapply tidy_shrinks|by apply (tame_mono _ _ _ (sk_keep _ _ S2))|done|].
    exists s3, res. split; [done|]. split; [by eapply shrinks_trans|by eapply shrinks_gone].
  - by apply (IH (app s)).
  - by apply (IH (set_app x s)).
Qed.

Lemma closes_all n : closes n.
Proof.
  induction n as [|n IH]; intros i x r s Ht Hx Ha; unfold intf_close, invoke, intf_get_dest_op.
  all: destruct (dest_op_run hops OP_intf_close i x s Ht Hx (ti_rank _ Ht _)) as (s1 & d & y & -> & E1 & Hy & Hd); cbn [mbind option_bind].
  all: unfold intf_object; rewrite E1, Hy; cbn [mbind option_bind].
  all: destruct (find_op OP_intf_close (desc y)) as [f|] eqn:Ef.
  all: try (cbn [mbind option_bind]; unfold intf_put; rewrite E1, Hy; cbn; eexists; split; [reflexivity|]; cbn; rewrite E1; split; [apply shrinks_refl|];
    intros y' f' Hy' Hf'; exfalso; rewrite Hy' in Hd; cbn in Hd; rewrite Hf' in Hd; rewrite (Hd ltac:(by eexists)) in Hy; simplify_eq; congruence).
  - exfalso. assert (d ∈ live (intfs s)) as Hin. { apply live_at. exists y. split; [done|]. intros E. by rewrite E in Ef. }
    assert (alive (intfs s) = 0%nat) as H0 by lia. unfold alive in H0. apply (size_empty_inv (C := gset loc)) in H0. set_solver.
  - cbn [call_method]. pose proof (ti_close _ Ht d y f r Hy Ef) as Hf.
    rewrite <- E1 in Hy, Ht, Ha, Hf. assert (desc y <> null_intf_desc) as Hne by (intros E; by rewrite E in Ef).
    destruct (close_first_run n d y _ IH s1 Ht Hy Hne Hf Ha) as (s3 & res & -> & S3 & G3).
    cbn [mbind option_bind]. destruct (sk_keep _ _ S3 d) as [z Hz]; [by eexists|].
    unfold intf_put. rewrite Hz. cbn. eexists. split; [reflexivity|]. cbn. rewrite <- E1. split; [done|].
    intros y' f' Hy' Hf'. rewrite <- E1 in Hd. rewrite Hy' in Hd. cbn in Hd. rewrite Hf' in Hd. by rewrite <- (Hd ltac:(by eexists)).
Qed.

(** Nobody is behind the other end. *)
Definition deaf (x : interface) : Prop := find_op OP_intf_close (desc x) = None /\ ctrue (passthru_offset (desc x)) = false.

Lemma shutdown_deaf n i x y r s : tidy (intfs s) -> intfs s !! i = Some x -> intfs s !! dest x = Some y -> deaf y ->
  exists s', shutdown_at n i r s = Some s' /\ intfs s' = <[i := Interface null_intf (refcnt x) null_intf_desc]> (intfs s) /\ app s' = app s.
Proof.
  intros Ht Hx Hy Hdeaf. unfold intf_shutdown, intf_nullify. rewrite Hx. cbn [mbind option_bind]. set (s1 := set_intfs _ s).
  assert (exists y1, intfs s1 !! dest x = Some y1 /\ deaf y1) as (y1 & Hy1 & Hf1 & Hp1).
  { unfold s1. cbn. destruct (decide (dest x = i)) as [-> |]; [rewrite lookup_insert_eq; by eexists|rewrite lookup_insert_ne by done; by exists y]. }
  assert (hops <> 0)%nat as Hh by (pose proof (ti_rank _ Ht i); lia). destruct hops as [|h]; [done|].
  assert (intfs s1 = <[i:=set_desc null_intf_desc x]> (intfs s)) as E1 by done. assert (app s1 = app s) as Eapp by done.
  assert (intfs s1 !! i = Some (set_desc null_intf_desc x)) as Hx1 by apply lookup_insert_eq.
  assert (is_Some (intfs s1 !! null_intf)) as [z Hz].
  { rewrite E1. destruct (decide (null_intf = i)) as [<- |]; [rewrite lookup_insert_eq; by eexists|rewrite lookup_insert_ne by done; eexists; apply Ht]. }
  clearbody s1. unfold intf_close, invoke, intf_get_dest_op. cbn [get_dest_op]. unfold intf_get_dest_op_no_passthru.
  rewrite Hx1. cbn [mbind option_bind dest set_desc].
  unfold intf_get. rewrite Hy1. cbn. rewrite Hy1. cbn. rewrite Hf1. unfold intf_get_passthru. cbn. rewrite Hy1. cbn. rewrite Hp1. cbn.
  unfold intf_object. cbn. rewrite Hy1. cbn. unfold intf_put. cbn. rewrite Hy1. cbn.
  unfold intf_unplug, intf_plug, intf_get. cbn. rewrite Hz. cbn. rewrite Hx1. cbn. unfold intf_put. cbn. rewrite Hy1. cbn.
  eexists. split; [done|]. split; [|done]. cbn. by rewrite E1, insert_insert_eq.
Qed.

End Closing.

(** ** Instances: two objects whose interfaces are plugged together and which
    close each other. *)
Definition closing_desc (f : Z) : interface_descriptor := IntfDesc 0 [IntfOp OP_intf_close f] 0.
Definition close_method (f : Z) (object : loc) (msg : message unit) : prog unit unit :=
  match msg with
  | MsgClose r => Call (RefGet 9) (fun _ => Call (Shutdown object r) (fun _ => Call (RefPut 9) (fun _ => Call (Shutdown 4 r) (fun _ => Done Void))))
  | _ => Done Void
  end.
Definition no_arithmetic (p : loc) (_ : Z) : loc := p.
Definition no_memory (_ : Z) (x : unit) : unit * option (list Z) := (x, None).
Definition pair_state : intf_state unit :=
  IntfState {[1%positive := Interface 1 None null_intf_desc; 2%positive := Interface 3 (Some 8%positive) (closing_desc 1);
              3%positive := Interface 2 (Some 9%positive) (closing_desc 2); 4%positive := Interface 1 (Some 9%positive) (closing_desc 2)]}
    (Refs {[8%positive := 1; 9%positive := 1]} []) tt.

Lemma pair_intfs i x : intfs pair_state !! i = Some x ->
  (i = 1 /\ x = Interface 1 None null_intf_desc \/ i = 2 /\ x = Interface 3 (Some 8) (closing_desc 1) \/
   i = 3 /\ x = Interface 2 (Some 9) (closing_desc 2) \/ i = 4 /\ x = Interface 1 (Some 9) (closing_desc 2))%positive.
Proof.
  unfold pair_state. cbn [intfs]. rewrite !lookup_insert_Some, lookup_singleton_Some. naive_solver.
Qed.

Lemma pair_tidy : tidy 1%positive no_arithmetic close_method 1 (fun _ => 0%nat) (intfs pair_state).
Proof.
  split; try done.
  - intros i x Hx%pair_intfs. destruct_or?; destruct_and?; subst; by eexists.
  - intros i. lia.
  - intros i x Hx%pair_intfs. destruct_or?; destruct_and?; by subst.
Qed.


Lemma references_balanced_witness : exists s' k n',
  exec 1 no_arithmetic no_memory 1 (call_method 1 no_arithmetic no_memory close_method 1 3) (Shutdown 2 RC_OK) pair_state = Some (s', Void) /\
  count (irefs s') !! 9%positive = Some n' /\ (n' - users 9 s') mod 2 ^ 32 = (1 - users 9 pair_state + k) mod 2 ^ 32.
Proof.
  destruct (references_balanced 1 no_arithmetic no_memory close_method 1 9 3 (Shutdown 2 RC_OK) pair_state
    (default pair_state (fst <$> exec 1 no_arithmetic no_memory 1 (call_method 1 no_arithmetic no_memory close_method 1 3) (Shutdown 2 RC_OK) pair_state)) Void 1)
    as (k & n' & _ & Hn & Hb); [by vm_compute|done|].
  eexists _, k, n'. split; [|split; [exact Hn|]]; [by vm_compute|]. cbn [counting] in Hb. by rewrite Z.add_0_r in Hb.
Defined.
