(* ===== verification/DhcpPkt.v ===== *)
(** * DHCP packets: src/src/net/dhcppkt.c, src/src/include/ipxe/dhcppkt.h.

    A packet is the fixed part of the header, as bytes, and a block of
    options ([DhcpOpts]).  Some settings are fields of the fixed part. *)
From S2P Require Import Prelude Strings Printf DhcpOpts.

(** ** The fixed part. *)
Definition DHCP_TFTP_SERVER_NAME : Z := 66.
Definition DHCP_BOOTFILE_NAME : Z := 67.
Definition DHCP_EB_ENCAP : Z := 175.
Definition DHCP_EB_YIADDR : Z := DHCP_ENCAP_OPT DHCP_EB_ENCAP 2.
Definition DHCP_EB_SIADDR : Z := DHCP_ENCAP_OPT DHCP_EB_ENCAP 3.

(** offsetof ( struct dhcphdr, options ). *)
Definition DHCPHDR_LEN : nat := 240.

Record dhcp_packet := DhcpPacket {
  dhcphdr : list Z;
  options : dhcp_options }.

Definition used_len_ipv4 (data : list Z) (_ : nat) : nat := if bool_decide (take 4 data = [0; 0; 0; 0]) then 0 else 4.

Definition used_len_string (data : list Z) (len : nat) : nat := strnlen (until_nul data) len.

Record dhcp_packet_field := PacketField {
  pf_tag : Z;
  pf_offset : nat;
  pf_len : nat;
  pf_used_len : list Z -> nat -> nat }.
Definition dhcp_packet_fields : list dhcp_packet_field :=
  [PacketField DHCP_EB_YIADDR 16 4 used_len_ipv4; PacketField DHCP_EB_SIADDR 20 4 used_len_ipv4;
   PacketField DHCP_TFTP_SERVER_NAME 44 64 used_len_string; PacketField DHCP_BOOTFILE_NAME 108 128 used_len_string].

Definition find_dhcp_packet_field (tag : Z) : option dhcp_packet_field :=
  head (filter (fun field => pf_tag field = tag) dhcp_packet_fields).

(** Reading a field, and writing data followed by zeros to it. *)
Definition field_data (field : dhcp_packet_field) (h : list Z) : list Z := take (pf_len field) (drop (pf_offset field) h).
Definition write_field (field : dhcp_packet_field) (data h : list Z) : list Z :=
  take (pf_offset field) h ++ (data ++ replicate (pf_len field - length data) 0) ++ drop (pf_offset field + pf_len field) h.

(** ** Settings. *)
Definition dhcppkt_applies (tag : Z) : bool := dhcpopt_applies tag.

(** Erasing the option of a field may fail without effect on the result. *)
Definition dhcppkt_store (pkt : dhcp_packet) (tag : Z) (data : list Z) : option (dhcp_packet * option errno) :=
  match find_dhcp_packet_field tag with
  | Some field =>
      if Z.of_nat (pf_len field) <? zlen data then Some (pkt, Some ENOSPC) else
      '(o, _) ← dhcpopt_store dhcpopt_no_realloc (options pkt) tag [];
      Some (DhcpPacket (write_field field data (dhcphdr pkt)) o, None)
  | None =>
      '(o, r) ← dhcpopt_store dhcpopt_no_realloc (options pkt) tag data;
      Some (DhcpPacket (dhcphdr pkt) o, r)
  end.

Definition field_value (pkt : dhcp_packet) (tag : Z) : list Z :=
  match find_dhcp_packet_field tag with
  | Some field => let data := field_data field (dhcphdr pkt) in take (pf_used_len field data (pf_len field)) data
  | None => []
  end.
Definition dhcppkt_fetch (pkt : dhcp_packet) (tag len : Z) : option (list Z * (Z + errno)) :=
  let value := field_value pkt tag in
  if ctrue (zlen value) then Some (take (Z.to_nat len) value, inl (zlen value))
  else dhcpopt_fetch (options pkt) tag len.

(** [data] is the packet with its options and what lies behind them. *)
Definition dhcppkt_init (data : list Z) (len : Z) : option dhcp_packet :=
  o ← dhcpopt_init (drop DHCPHDR_LEN data) (len - Z.of_nat DHCPHDR_LEN);
  Some (DhcpPacket (take DHCPHDR_LEN data) o).
Definition dhcppkt_len (pkt : dhcp_packet) : Z := Z.of_nat DHCPHDR_LEN + used_len (options pkt).

(** ** Fields. *)
Definition text (d : list Z) : Prop := Forall (fun c => c <> 0) d.

Lemma text_used d n : text d -> used_len_string (d ++ replicate n 0) (length d + n) = length d.
Proof.
  intros H. unfold used_len_string. assert (until_nul (d ++ replicate n 0) = d) as ->.
  { induction H as [|c d Hc _ IH]; cbn [app until_nul]; [by destruct n|]. rewrite IH. by destruct (Z.eqb_spec c 0). }
  clear H. induction d as [|c d IH]; cbn [length Nat.add strnlen]; [by destruct n|by rewrite IH].
Qed.

Lemma write_read field d h : (pf_offset field + pf_len field <= length h)%nat -> (length d <= pf_len field)%nat ->
  field_data field (write_field field d h) = d ++ replicate (pf_len field - length d) 0.
Proof.
  intros Hh Hd. unfold field_data, write_field. rewrite drop_app_length' by (rewrite length_take; lia).
  apply take_app_length'. rewrite length_app, length_replicate. lia.
Qed.

Lemma write_length field d h : (pf_offset field + pf_len field <= length h)%nat -> (length d <= pf_len field)%nat ->
  length (write_field field d h) = length h.
Proof. intros Hh Hd. unfold write_field. rewrite !length_app, length_take, length_replicate, length_drop. lia. Qed.

Lemma write_other field field' d h : (pf_offset field + pf_len field <= length h)%nat -> (length d <= pf_len field)%nat ->
  (pf_offset field + pf_len field <= pf_offset field' \/ pf_offset field' + pf_len field' <= pf_offset field)%nat ->
  field_data field' (write_field field d h) = field_data field' h.
Proof.
  intros Hh Hd Hdisj. unfold field_data. apply list_eq. intros i. destruct (decide (i < pf_len field')%nat) as [Hi|Hi].
  - rewrite !lookup_take_lt, !lookup_drop by done. unfold write_field. destruct Hdisj.
    + rewrite app_assoc, lookup_app_r by (rewrite !length_app, length_take, length_replicate; lia).
      rewrite lookup_drop, !length_app, length_take, length_replicate. f_equal. lia.
    + rewrite lookup_app_l by (rewrite length_take; lia). apply lookup_take_lt. lia.
  - by rewrite !lookup_take_ge by lia.
Qed.

(** The fields. *)
Lemma packet_field tag field : find_dhcp_packet_field tag = Some field ->
  field ∈ dhcp_packet_fields /\ pf_tag field = tag.
Proof.
  unfold find_dhcp_packet_field. intros Hh. assert (field ∈ filter (fun field => pf_tag field = tag) dhcp_packet_fields) as Hin.
  { destruct (filter _ _); [done|]. injection Hh as ->. by left. }
  apply list_elem_of_filter in Hin as [Ht Hin]. done.
Qed.

Ltac each_field H := unfold dhcp_packet_fields in H; repeat (apply elem_of_cons in H as [->|H]; [|]); [..|by apply not_elem_of_nil in H].

Lemma fields_in_header field : field ∈ dhcp_packet_fields -> (pf_offset field + pf_len field <= DHCPHDR_LEN)%nat.
Proof. intros H. each_field H; cbn; unfold DHCPHDR_LEN; lia. Qed.

Lemma fields_disjoint f f' : f ∈ dhcp_packet_fields -> f' ∈ dhcp_packet_fields -> pf_tag f' <> pf_tag f ->
  (pf_offset f + pf_len f <= pf_offset f' \/ pf_offset f' + pf_len f' <= pf_offset f)%nat.
Proof. intros H H'. each_field H; each_field H'; cbn; intros Hne; first [by destruct Hne|lia]. Qed.

Lemma fetch_eq pkt pkt' tag len : field_value pkt' tag = field_value pkt tag -> dhcpopt_fetch (options pkt') tag len = dhcpopt_fetch (options pkt) tag len ->
  dhcppkt_fetch pkt' tag len = dhcppkt_fetch pkt tag len.
Proof. intros E1 E2. unfold dhcppkt_fetch. by rewrite E1, E2. Qed.

(** What a field can hold: an address other than 0.0.0.0, or a string; or
    nothing. *)
Definition fits_field (field : dhcp_packet_field) (d : list Z) : Prop :=
  d = [] \/
  match pf_len field with
  | 4%nat => length d = 4%nat /\ d <> [0; 0; 0; 0]
  | _ => text d
  end.

Lemma used_len_fits field d : field ∈ dhcp_packet_fields -> fits_field field d -> (length d <= pf_len field)%nat ->
  pf_used_len field (d ++ replicate (pf_len field - length d) 0) (pf_len field) = length d.
Proof.
  intros Hin Hf Hl. assert (text d -> used_len_string (d ++ replicate (pf_len field - length d) 0) (pf_len field) = length d) as Hs.
  { intros Ht. replace (pf_len field) with (length d + (pf_len field - length d))%nat at 2 by lia. by apply text_used. }
  destruct Hf as [-> |Hf]; [each_field Hin; done|]. each_field Hin; cbn [pf_used_len pf_len] in *; try by apply Hs.
  all: destruct Hf as [H4 Hne]; destruct d as [|? [|? [|? [|? []]]]]; try done; unfold used_len_ipv4; cbn [app replicate length Nat.sub take];
    by rewrite bool_decide_eq_false_2.
Qed.

Lemma stored_value pkt o tag field d : find_dhcp_packet_field tag = Some field -> length (dhcphdr pkt) = DHCPHDR_LEN ->
  fits_field field d -> (length d <= pf_len field)%nat -> field_value (DhcpPacket (write_field field d (dhcphdr pkt)) o) tag = d.
Proof.
  intros Hf Hh Hd Hl. destruct (packet_field tag field Hf) as [Hin _]. pose proof (fields_in_header _ Hin). unfold field_value. rewrite Hf.
  cbn [dhcphdr]. rewrite write_read, used_len_fits by (done || lia). by apply take_app_length'.
Qed.

Lemma kept_value pkt o tag tag' field d : tag' <> tag -> find_dhcp_packet_field tag = Some field ->
  length (dhcphdr pkt) = DHCPHDR_LEN -> (length d <= pf_len field)%nat -> field_value (DhcpPacket (write_field field d (dhcphdr pkt)) o) tag' = field_value pkt tag'.
Proof.
  intros Hne Hf Hh Hl. destruct (packet_field tag field Hf) as [Hin Et]. pose proof (fields_in_header _ Hin). unfold field_value.
  destruct (find_dhcp_packet_field tag') as [f'|] eqn:Ef'; [|done]. destruct (packet_field tag' f' Ef') as [Hin' Et'].
  cbn [dhcphdr]. rewrite write_other; [done|lia|lia|]. apply fields_disjoint; congruence.
Qed.


(** ** An instance: a packet whose options hold a boot file name and,
    encapsulated, the client's address; another address is stored. *)
Definition named_items : list item := [Opt 67 [120]; Opt 175 (enc [Opt 2 [1; 2; 3; 4]] ++ [DHCP_END])].
Definition named_packet : dhcp_packet :=
  DhcpPacket (replicate 240 0) (DhcpOptions (enc named_items ++ [DHCP_END] ++ replicate 350 0) 13 64).

Lemma named_packet_ok : block (options named_packet) named_items [DHCP_END].
Proof. split; [split; vm_compute; congruence|by eexists|done|by vm_compute| |right; by eexists]. by_decide. Qed.

Lemma yiaddr_named : named named_items DHCP_EB_YIADDR.
Proof. apply (named_encap _ 175 2 [Opt 2 [1; 2; 3; 4]] []); [by_decide|by_decide|split; [done|by_decide]|done|done]. Qed.

