(* ===== verification/Bigint.v ===== *)
(** * Big integers (crypto/bigint.c, include/ipxe/bigint.h,
    arch/x86/include/bits/bigint.h, arch/x86/core/x86_bigint.c).

    A big integer of [size] elements is the list of its 32-bit elements,
    the least significant first, exactly as in memory.  The x86 routines
    are instruction loops; each is a recursion over the elements with the
    carry flag as an argument.  [bval] is the number an element list
    stands for, and the theorems relate every routine to the operation on
    integers it is named after: addition and subtraction modulo
    2^(32 size), the two rotations through a clear carry as doubling and
    halving, the comparison and the position of the highest bit, the
    schoolbook product, the reduction by shifted subtraction and the
    square-and-multiply power.  Element counts are at least one: a count
    register that starts at zero makes [loop] run 2^32 times, which is
    the failure [None] where the count is run-time data. *)

From Stdlib Require Import Zpow_facts.
From S2P Require Import Prelude.

(** ** Element lists. *)

Fixpoint bval (l : list Z) : Z :=
  match l with
  | [] => 0
  | x :: l' => x + 2 ^ 32 * bval l'
  end.

Definition limb (x : Z) : Prop := 0 <= x < 2 ^ 32.
Definition limbs (l : list Z) : Prop := Forall limb l.

(** Number of elements for [len] bytes. *)
Definition bigint_required_size (len : Z) : Z := (len + 4 - 1) / 4.

(** Bytes of memory, least significant first, as elements and back. *)
Fixpoint words (l : list Z) : list Z :=
  match l with
  | b0 :: b1 :: b2 :: b3 :: l' => (b0 + 256 * (b1 + 256 * (b2 + 256 * b3))) :: words l'
  | _ => []
  end.

Definition word_bytes (x : Z) : list Z :=
  [x mod 256; x / 2 ^ 8 mod 256; x / 2 ^ 16 mod 256; x / 2 ^ 24 mod 256].

(** ** The x86 routines. *)

(** The first loop stores the [len] bytes of data from the last one back,
    the second pads with zeros up to the end of the big integer.  A zero
    [len] or one beyond the big integer makes a count wrap. *)
Definition bigint_init_raw (size : nat) (data : list Z) : option (list Z) :=
  if (length data =? 0)%nat || (4 * size <? length data)%nat then None
  else Some (words (rev data ++ replicate (4 * size - length data) 0)).

Fixpoint adc_loop (cf : Z) (addend value : list Z) : list Z :=
  match addend, value with
  | a :: addend', v :: value' =>
      u32 (v + a + cf) :: adc_loop ((v + a + cf) / 2 ^ 32) addend' value'
  | _, _ => value
  end.

Definition bigint_add_raw (addend value : list Z) : list Z := adc_loop 0 addend value.

Fixpoint sbb_loop (cf : Z) (subtrahend value : list Z) : list Z :=
  match subtrahend, value with
  | a :: subtrahend', v :: value' =>
      u32 (v - a - cf) :: sbb_loop (if v - a - cf <? 0 then 1 else 0) subtrahend' value'
  | _, _ => value
  end.

Definition bigint_subtract_raw (subtrahend value : list Z) : list Z := sbb_loop 0 subtrahend value.

Fixpoint rcl_loop (cf : Z) (value : list Z) : list Z :=
  match value with
  | [] => []
  | v :: value' => u32 (2 * v + cf) :: rcl_loop (v / 2 ^ 31) value'
  end.

Definition bigint_rol_raw (value : list Z) : list Z := rcl_loop 0 value.

(** From the highest element down; the carry out of the elements above
    enters at the top. *)
Fixpoint rcr_loop (value : list Z) : list Z * Z :=
  match value with
  | [] => ([], 0)
  | v :: value' => let '(high, cf) := rcr_loop value' in (v / 2 + 2 ^ 31 * cf :: high, v mod 2)
  end.

Definition bigint_ror_raw (value : list Z) : list Z := (rcr_loop value).1.

Fixpoint bigint_is_zero_raw (value : list Z) : bool :=
  match value with
  | [] => true
  | v :: value' => if v =? 0 then bigint_is_zero_raw value' else false
  end.

(** The elements of both numbers from the highest one down. *)
Fixpoint geq_loop (value reference : list Z) : bool :=
  match value, reference with
  | v :: value', r :: reference' => if v =? r then geq_loop value' reference' else r <=? v
  | _, _ => true
  end.

Definition bigint_is_geq_raw (value reference : list Z) : bool := geq_loop (rev value) (rev reference).

Definition bigint_bit_is_set_raw (value : list Z) (bit : Z) : option bool :=
  v ← value !! Z.to_nat (bit / 32); Some (ctrue (Z.land v (u32 (Z.shiftl 1 (bit mod 32))))).

Fixpoint bsr_loop (value : list Z) : Z :=
  match value with
  | [] => 0
  | v :: value' => if v =? 0 then bsr_loop value' else 1 + Z.log2 v + 8 * (4 * zlen value')
  end.

Definition bigint_max_set_bit_raw (value : list Z) : Z := bsr_loop (rev value).

Definition bigint_grow_raw (source : list Z) (dest_size : nat) : list Z :=
  source ++ replicate (dest_size - length source) 0.

Definition bigint_shrink_raw (source : list Z) (dest_size : nat) : list Z := take dest_size source.

Definition bigint_done_raw (value : list Z) (len : nat) : option (list Z) :=
  if (len =? 0)%nat || (4 * length value <? len)%nat then None
  else Some (rev (take len (mjoin (word_bytes <$> value)))).

(** ** Multiplication.
    The [adcl $0] at the label runs at least once, then for as long as it
    carries; memory ends with the list. *)
Fixpoint adc_carry (cf : Z) (mem : list Z) : option (list Z) :=
  match mem with
  | [] => None
  | m :: mem' =>
      if m + cf <? 2 ^ 32 then Some (m + cf :: mem')
      else mem'' ← adc_carry 1 mem'; Some (u32 (m + cf) :: mem'')
  end.

(** One [mull] and its double-element addition at the start of [mem]. *)
Definition mull_add (multiplicand_element multiplier_element : Z) (mem : list Z) : option (list Z) :=
  match mem with
  | m0 :: m1 :: mem' =>
      let eax := u32 (multiplicand_element * multiplier_element) in
      let edx := (multiplicand_element * multiplier_element) / 2 ^ 32 in
      let s0 := m0 + eax in
      let s1 := m1 + edx + s0 / 2 ^ 32 in
      mem'' ← adc_carry (s1 / 2 ^ 32) mem'; Some (u32 s0 :: u32 s1 :: mem'')
  | _ => None
  end.

(** The inner loop over [j]: [mem] starts at [result->element\[i + j\]]. *)
Fixpoint mul_row (multiplicand_element : Z) (multiplier mem : list Z) : option (list Z) :=
  match multiplier with
  | [] => Some mem
  | b :: multiplier' =>
      mem' ← mull_add multiplicand_element b mem;
      match mem' with
      | [] => None
      | m :: mem'' => mem''' ← mul_row multiplicand_element multiplier' mem''; Some (m :: mem''')
      end
  end.

(** The outer loop over [i]. *)
Fixpoint mul_rows (multiplicand multiplier mem : list Z) : option (list Z) :=
  match multiplicand with
  | [] => Some mem
  | a :: multiplicand' =>
      mem' ← mul_row a multiplier mem;
      match mem' with
      | [] => None
      | m :: mem'' => mem''' ← mul_rows multiplicand' multiplier mem''; Some (m :: mem''')
      end
  end.

(** The result and the memory [behind] it. *)
Definition bigint_multiply_raw (multiplicand multiplier behind : list Z) : option (list Z * list Z) :=
  let size := length multiplicand in
  mem ← mul_rows multiplicand multiplier (replicate (2 * size) 0 ++ behind);
  Some (take (2 * size) mem, drop (2 * size) mem).

(** ** Modular multiplication and exponentiation.
    The temporary space holds the double-size result and, behind it, the
    rescaled modulus; [tmp] is the old content of the latter. *)

Fixpoint rol_times (n : nat) (value : list Z) : list Z :=
  match n with
  | O => value
  | S n' => rol_times n' (bigint_rol_raw value)
  end.

Fixpoint reduce_loop (n : nat) (result modulus : list Z) : list Z * list Z :=
  match n with
  | O => (result, modulus)
  | S n' =>
      let result' := if bigint_is_geq_raw result modulus then bigint_subtract_raw modulus result else result in
      reduce_loop n' result' (bigint_ror_raw modulus)
  end.

Definition bigint_mod_multiply_raw (multiplicand multiplier modulus tmp : list Z) : option (list Z * list Z) :=
  let size := length multiplicand in
  p ← bigint_multiply_raw multiplicand multiplier tmp;
  let '(product, _) := p in
  let rescaled := bigint_grow_raw modulus (2 * size) in
  let rotation := bigint_max_set_bit_raw product - bigint_max_set_bit_raw rescaled in
  let rotated := rol_times (Z.to_nat rotation) rescaled in
  let '(reduced, tmp') := reduce_loop (Z.to_nat (rotation + 1)) product rotated in
  Some (bigint_shrink_raw reduced size, tmp').

Fixpoint mod_exp_loop (fuel : nat) (base modulus exponent result tmp : list Z) : option (list Z * list Z) :=
  if bigint_is_zero_raw exponent then Some (result, tmp)
  else match fuel with
  | O => None
  | S fuel' =>
      odd ← bigint_bit_is_set_raw exponent 0;
      p ← (if odd : bool then bigint_mod_multiply_raw result base modulus tmp else Some (result, tmp));
      let '(result', tmp') := p in
      q ← bigint_mod_multiply_raw base base modulus tmp';
      let '(base', tmp'') := q in
      mod_exp_loop fuel' base' modulus (bigint_ror_raw exponent) result' tmp''
  end.

(** Each turn shifts one bit out of the exponent, so [32 exponent_size]
    turns are enough. *)
Definition bigint_mod_exp_raw (base modulus exponent tmp : list Z) : option (list Z * list Z) :=
  result ← bigint_init_raw (length base) [1];
  mod_exp_loop (32 * length exponent) base modulus exponent result tmp.

(** ** Values of element lists. *)

Abbreviation cap n := (2 ^ (32 * Z.of_nat n)).

Lemma cap_pos n : 0 < cap n.
Proof. apply Z.pow_pos_nonneg; lia. Qed.

Lemma cap_S n : cap (S n) = 2 ^ 32 * cap n.
Proof. rewrite <- Z.pow_add_r by lia. f_equal. lia. Qed.

Lemma cap_add n m : cap (n + m) = cap n * cap m.
Proof. rewrite <- Z.pow_add_r by lia. f_equal. lia. Qed.

#[export] Hint Resolve cap_pos : wpxe.

Lemma mod_cons (x y c : Z) : 0 < c -> (x + 2 ^ 32 * y) mod (2 ^ 32 * c) = u32 x + 2 ^ 32 * ((x / 2 ^ 32 + y) mod c).
Proof.
  intros Hc. rewrite Z.rem_mul_r by lia. unfold wrap.
  replace (x + 2 ^ 32 * y) with (x + y * 2 ^ 32) by lia.
  by rewrite Z.mod_add, Z.div_add by lia.
Qed.

Lemma bval_range l : limbs l -> 0 <= bval l < cap (length l).
Proof.
  induction 1 as [|x l Hx Hl IH]; [cbn; lia|]. cbn [bval length]. rewrite cap_S.
  unfold limb in Hx. nia.
Qed.

Lemma bval_app a b : bval (a ++ b) = bval a + cap (length a) * bval b.
Proof.
  induction a as [|x a IH]; cbn [bval app length]; [change (cap 0) with 1; lia|].
  rewrite IH, cap_S. lia.
Qed.

Lemma bval_zeros n : bval (replicate n 0) = 0.
Proof. induction n as [|n IH]; [done|]. cbn [replicate bval]. lia. Qed.

Lemma limbs_zeros n : limbs (replicate n 0).
Proof. apply Forall_replicate. unfold limb. lia. Qed.

Lemma u32_limb x : limb (u32 x).
Proof. apply wrap_range. lia. Qed.

#[export] Hint Resolve limbs_zeros u32_limb : wpxe.

(** ** Addition, subtraction and the rotations. *)

Lemma adc_loop_spec cf a v : length a = length v ->
  bval (adc_loop cf a v) = (bval v + bval a + cf) mod cap (length v).
Proof.
  revert cf v. induction a as [|x a IH]; intros cf [|y v] L; try done.
  - cbn. by rewrite Z.mod_1_r.
  - cbn [adc_loop bval length]. rewrite IH by (cbn in L; lia).
    rewrite cap_S. replace (y + 2 ^ 32 * bval v + (x + 2 ^ 32 * bval a) + cf)
      with (y + x + cf + 2 ^ 32 * (bval v + bval a)) by lia.
    rewrite mod_cons by apply cap_pos. do 3 f_equal. lia.
Qed.

Lemma adc_loop_limbs cf a v : length a = length v -> limbs (adc_loop cf a v) /\ length (adc_loop cf a v) = length v.
Proof.
  revert cf v. induction a as [|x a IH]; intros cf [|y v] L; try done; [by split; [constructor|]|].
  destruct (IH ((y + x + cf) / 2 ^ 32) v) as [Hl Hn]; [cbn in L; lia|]. cbn [adc_loop length]. rewrite Hn.
  split; [constructor|]; auto with wpxe.
Qed.

Lemma sbb_loop_spec cf a v : limbs a -> limbs v -> 0 <= cf <= 1 -> length a = length v ->
  bval (sbb_loop cf a v) = (bval v - bval a - cf) mod cap (length v).
Proof.
  revert cf v. induction a as [|x a IH]; intros cf [|y v] Ha Hv Hc L; try done.
  - cbn. by rewrite Z.mod_1_r.
  - apply Forall_cons in Ha as [Hx Ha], Hv as [Hy Hv]. unfold limb in Hx, Hy.
    cbn [sbb_loop bval length]. rewrite IH by (done || (cbn in L; zcases)).
    rewrite cap_S. replace (y + 2 ^ 32 * bval v - (x + 2 ^ 32 * bval a) - cf)
      with (y - x - cf + 2 ^ 32 * (bval v - bval a)) by lia.
    rewrite mod_cons by apply cap_pos. do 3 f_equal.
    assert ((y - x - cf) / 2 ^ 32 = - (if y - x - cf <? 0 then 1 else 0)) as ->
      by (change (2 ^ 32) with 4294967296 in *; zcases; zdm). lia.
Qed.

Lemma sbb_loop_limbs cf a v : length a = length v -> limbs (sbb_loop cf a v) /\ length (sbb_loop cf a v) = length v.
Proof.
  revert cf v. induction a as [|x a IH]; intros cf [|y v] L; try done; [by split; [constructor|]|].
  destruct (IH (if y - x - cf <? 0 then 1 else 0) v) as [Hl Hn]; [cbn in L; lia|]. cbn [sbb_loop length]. rewrite Hn.
  split; [constructor|]; auto with wpxe.
Qed.

Lemma rcl_loop_spec cf v : limbs v -> 0 <= cf <= 1 -> bval (rcl_loop cf v) = (2 * bval v + cf) mod cap (length v).
Proof.
  intros Hv. revert cf. induction Hv as [|y v Hy Hv IH]; intros cf Hc.
  - cbn. by rewrite Z.mod_1_r.
  - unfold limb in Hy. cbn [rcl_loop bval length].
    rewrite IH by (change (2 ^ 32) with 4294967296 in Hy; change (2 ^ 31) with 2147483648; zdm).
    rewrite cap_S. replace (2 * (y + 2 ^ 32 * bval v) + cf) with (2 * y + cf + 2 ^ 32 * (2 * bval v)) by lia.
    rewrite mod_cons by apply cap_pos. do 3 f_equal.
    assert ((2 * y + cf) / 2 ^ 32 = y / 2 ^ 31) as ->
      by (change (2 ^ 32) with 4294967296 in *; change (2 ^ 31) with 2147483648; zdm). lia.
Qed.

Lemma rcl_loop_limbs cf v : limbs (rcl_loop cf v) /\ length (rcl_loop cf v) = length v.
Proof.
  revert cf. induction v as [|y v IH]; intros cf; [by split; [constructor|]|].
  destruct (IH (y / 2 ^ 31)) as [Hl Hn]. cbn [rcl_loop length]. rewrite Hn.
  split; [constructor|]; auto with wpxe.
Qed.

Lemma rcr_loop_spec v : limbs v ->
  let '(high, cf) := rcr_loop v in
  bval high = bval v / 2 /\ cf = bval v mod 2 /\ limbs high /\ length high = length v.
Proof.
  induction 1 as [|y v Hy Hv IH]; [by repeat split; constructor|].
  cbn [rcr_loop]. destruct (rcr_loop v) as [high cf]. destruct IH as (Eh & -> & Hh & L).
  unfold limb in Hy. cbn [bval length]. rewrite Eh, L. change (2 ^ 32) with 4294967296 in *.
  change (2 ^ 31) with 2147483648. splits; try zdm; try done.
  constructor; [|done]. unfold limb. change (2 ^ 32) with 4294967296. zdm.
Qed.

Lemma ror_spec v : limbs v ->
  bval (bigint_ror_raw v) = bval v / 2 /\ limbs (bigint_ror_raw v) /\ length (bigint_ror_raw v) = length v.
Proof.
  intros Hv. pose proof (rcr_loop_spec v Hv) as H. unfold bigint_ror_raw.
  destruct (rcr_loop v) as [high cf]. cbn. naive_solver.
Qed.

(** ** Comparison and the highest bit. *)

Lemma is_zero_spec v : limbs v -> bigint_is_zero_raw v = (bval v =? 0).
Proof.
  induction 1 as [|y v Hy Hv IH]; [done|]. cbn [bigint_is_zero_raw bval]. rewrite IH.
  pose proof (bval_range v Hv). unfold limb in Hy. zcases.
Qed.

Lemma geq_loop_spec v r : limbs v -> limbs r -> length v = length r ->
  geq_loop v r = (bval (rev r) <=? bval (rev v)).
Proof.
  intros Hv. revert r. induction Hv as [|y v Hy Hv IH]; intros [|x r] Hr L; try done.
  apply Forall_cons in Hr as [Hx Hr]. cbn [geq_loop rev]. rewrite !bval_app, !length_rev. cbn [bval].
  injection L as L. rewrite (IH r Hr L), L.
  pose proof (bval_range (rev v) ltac:(by apply Forall_rev)) as Bv.
  pose proof (bval_range (rev r) ltac:(by apply Forall_rev)) as Br.
  rewrite length_rev in Bv, Br. rewrite L in Bv.
  set (c := cap (length r)) in *. clearbody c. zcases; subst; try nia.
Qed.

Lemma is_geq_spec v r : limbs v -> limbs r -> length v = length r ->
  bigint_is_geq_raw v r = (bval r <=? bval v).
Proof.
  intros Hv Hr L. unfold bigint_is_geq_raw.
  rewrite geq_loop_spec, !rev_involutive; [done|by apply Forall_rev|by apply Forall_rev|by rewrite !length_rev].
Qed.

(** Number of bits of a number. *)
Definition bits (x : Z) : Z := if x =? 0 then 0 else 1 + Z.log2 x.

Lemma bits_le x n : 0 <= n -> 0 <= x -> bits x <= n <-> x < 2 ^ n.
Proof.
  intros Hn Hx. unfold bits. destruct (Z.eqb_spec x 0) as [->|].
  - pose proof (Z.pow_pos_nonneg 2 n). lia.
  - rewrite Z.log2_lt_pow2 by lia. lia.
Qed.

Lemma bsr_loop_spec v : limbs v -> bsr_loop v = bits (bval (rev v)).
Proof.
  induction 1 as [|y v Hy Hv IH]; [done|]. unfold limb in Hy.
  cbn [bsr_loop rev]. rewrite bval_app, length_rev. cbn [bval].
  pose proof (bval_range (rev v) ltac:(by apply Forall_rev)) as Bv. rewrite length_rev in Bv.
  zcases; [subst; rewrite IH; f_equal; lia|]. unfold bits.
  set (c := cap (length v)) in *. pose proof (cap_pos (length v)) as Hc. fold c in Hc.
  destruct (Z.eqb_spec (bval (rev v) + c * (y + 2 ^ 32 * 0)) 0); [nia|].
  rewrite (Z.log2_unique (bval (rev v) + c * (y + 2 ^ 32 * 0)) (Z.log2 y + 32 * Z.of_nat (length v)));
    [lia|pose proof (Z.log2_nonneg y); lia|].
  destruct (Z.log2_spec y ltac:(lia)) as [L1 L2]. unfold Z.succ in *.
  pose proof (Z.log2_nonneg y).
  replace (Z.log2 y + 32 * Z.of_nat (length v) + 1) with (Z.log2 y + 1 + 32 * Z.of_nat (length v)) by lia.
  rewrite !Z.pow_add_r with (c := 32 * Z.of_nat (length v)) by lia. fold c. nia.
Qed.

Lemma max_set_bit_spec v : limbs v -> bigint_max_set_bit_raw v = bits (bval v).
Proof.
  intros Hv. unfold bigint_max_set_bit_raw. rewrite bsr_loop_spec, rev_involutive; [done|by apply Forall_rev].
Qed.

Lemma bit_is_set_0 v : limbs v -> v <> [] -> bigint_bit_is_set_raw v 0 = Some (Z.odd (bval v)).
Proof.
  intros Hv Hn. destruct v as [|y v]; [done|]. transitivity (Some (ctrue (Z.land y (Z.ones 1)))); [done|].
  rewrite Z.land_ones, Zmod_odd by lia. cbn [bval]. rewrite Z.odd_add, Z.odd_mul. change (Z.odd (2 ^ 32)) with false.
  by destruct (Z.odd y).
Qed.

(** ** Multiplication. *)

Lemma bval_inj a b : limbs a -> limbs b -> length a = length b -> bval a = bval b -> a = b.
Proof.
  intros Ha. revert b. induction Ha as [|x a Hx Ha IH]; intros [|y b] Hb L E; try done.
  apply Forall_cons in Hb as [Hy Hb]. cbn [bval] in E. unfold limb in Hx, Hy.
  assert (x = y) as -> by (change (2 ^ 32) with 4294967296 in *; lia).
  f_equal. apply IH; [done|by injection L|lia].
Qed.

Lemma adc_carry_spec cf mem : limbs mem -> mem <> [] -> 0 <= cf <= 1 -> bval mem + cf < cap (length mem) ->
  exists mem', adc_carry cf mem = Some mem' /\ limbs mem' /\ length mem' = length mem /\ bval mem' = bval mem + cf.
Proof.
  intros Hm. revert cf. induction Hm as [|m mem Hx Hm IH]; intros cf Hne Hc B; [done|].
  unfold limb in Hx. cbn [adc_carry bval length] in *. rewrite cap_S in B.
  destruct (Z.ltb_spec (m + cf) (2 ^ 32)).
  - eexists. splits; [done|constructor; [unfold limb; lia|done]|done|cbn; lia].
  - assert (m + cf = 2 ^ 32) as E by lia. destruct (IH 1) as (mem' & -> & Hm' & L & V); [|lia|apply (Z.mul_lt_mono_pos_l (2 ^ 32)); lia|].
    { intros ->. cbn in B. lia. }
    eexists. splits; [done|constructor; auto with wpxe|cbn; lia|]. cbn [bval]. rewrite E, V.
    change (u32 (2 ^ 32)) with 0. lia.
Qed.

Lemma mull_add_spec a b mem : limb a -> limb b -> limbs mem -> (3 <= length mem)%nat -> bval mem + a * b < cap (length mem) ->
  exists mem', mull_add a b mem = Some mem' /\ limbs mem' /\ length mem' = length mem /\ bval mem' = bval mem + a * b.
Proof.
  intros Ha Hb Hm L B. destruct mem as [|m0 [|m1 mem]]; cbn in L; try lia.
  apply Forall_cons in Hm as [H0 [H1 Hm]%Forall_cons]. unfold limb in *. cbn [mull_add bval length] in *.
  rewrite !cap_S in B.
  pose proof (Z.div_mod (a * b) (2 ^ 32) ltac:(lia)) as E. fold (u32 (a * b)) in E.
  pose proof (wrap_range 32 (a * b) ltac:(lia)) as R. set (eax := u32 (a * b)) in *.
  assert (0 <= a * b / 2 ^ 32 <= 2 ^ 32 - 2) as Rd.
  { split; [apply Z.div_pos; nia|]. apply Z.lt_succ_r, Z.div_lt_upper_bound; nia. }
  set (edx := a * b / 2 ^ 32) in *. clearbody eax edx.
  set (s0 := m0 + eax). set (s1 := m1 + edx + s0 / 2 ^ 32).
  pose proof (Z.div_mod s0 (2 ^ 32) ltac:(lia)) as E0. fold (u32 s0) in E0.
  pose proof (Z.div_mod s1 (2 ^ 32) ltac:(lia)) as E1. fold (u32 s1) in E1.
  pose proof (wrap_range 32 s0 ltac:(lia)). pose proof (wrap_range 32 s1 ltac:(lia)).
  assert (0 <= s0 / 2 ^ 32 <= 1) by (subst s0; change (2 ^ 32) with 4294967296 in *; zdm).
  assert (0 <= s1 / 2 ^ 32 <= 1) by (subst s1; change (2 ^ 32) with 4294967296 in *; zdm).
  destruct (adc_carry_spec (s1 / 2 ^ 32) mem) as (mem' & -> & Hm' & L' & V); [done|by intros ->; cbn in L; lia|lia| |].
  - subst s1. change (2 ^ 32) with 4294967296 in *. nia.
  - exists (u32 s0 :: u32 s1 :: mem'). splits; [done|repeat apply Forall_cons_2; auto with wpxe|cbn; lia|]. cbn [bval]. rewrite V.
    change (2 ^ 32) with 4294967296 in *. lia.
Qed.

Lemma mul_row_spec a b mem : limb a -> limbs b -> limbs mem -> (length b + 2 <= length mem)%nat ->
  bval mem + a * bval b < cap (length mem) ->
  exists mem', mul_row a b mem = Some mem' /\ limbs mem' /\ length mem' = length mem /\ bval mem' = bval mem + a * bval b.
Proof.
  intros Ha Hb. revert mem. induction Hb as [|x b Hx Hb IH]; intros mem Hm L B.
  - exists mem. cbn. splits; [done|done|done|lia].
  - cbn [mul_row bval length] in *. pose proof (bval_range b Hb). unfold limb in Ha, Hx.
    destruct (mull_add_spec a x mem) as (mem1 & -> & H1 & L1 & V1); [done|done|done|lia|nia|].
    destruct mem1 as [|m mem1]; [cbn in *; lia|]. cbn [mbind option_bind].
    apply Forall_cons in H1 as [Hm0 H1]. cbn [bval length] in *. unfold limb in Hm0. rewrite <- L1 in B.
    rewrite cap_S in B. destruct (IH mem1) as (mem2 & -> & H2 & L2 & V2); [done|lia|nia|].
    eexists. splits; [done|by constructor|cbn; lia|]. cbn [bval]. rewrite V2. lia.
Qed.

Lemma mul_rows_spec a b mem : limbs a -> limbs b -> limbs mem -> (length a + length b + 1 <= length mem)%nat ->
  bval mem + bval a * bval b < cap (length mem) ->
  exists mem', mul_rows a b mem = Some mem' /\ limbs mem' /\ length mem' = length mem /\ bval mem' = bval mem + bval a * bval b.
Proof.
  intros Ha Hb. revert mem. induction Ha as [|x a Hx Ha IH]; intros mem Hm L B.
  - exists mem. cbn. splits; [done|done|done|lia].
  - cbn [mul_rows bval length] in *. pose proof (bval_range b Hb). pose proof (bval_range a Ha). unfold limb in Hx.
    destruct (mul_row_spec x b mem) as (mem1 & -> & H1 & L1 & V1); [done|done|done|lia|nia|].
    destruct mem1 as [|m mem1]; [cbn in *; lia|]. cbn [mbind option_bind].
    apply Forall_cons in H1 as [Hm0 H1]. cbn [bval length] in *. unfold limb in Hm0. rewrite <- L1 in B.
    rewrite cap_S in B. destruct (IH mem1) as (mem2 & -> & H2 & L2 & V2); [done|lia|nia|].
    eexists. splits; [done|by constructor|cbn; lia|]. cbn [bval]. rewrite V2. lia.
Qed.

Lemma multiply_spec a b behind : limbs a -> limbs b -> length a = length b -> limbs behind -> behind <> [] ->
  exists product, bigint_multiply_raw a b behind = Some (product, behind) /\ limbs product /\
    length product = (2 * length a)%nat /\ bval product = bval a * bval b.
Proof.
  intros Ha Hb L Hm Hne. unfold bigint_multiply_raw.
  pose proof (bval_range a Ha) as Ra. pose proof (bval_range b Hb) as Rb. rewrite <- L in Rb.
  pose proof (bval_range behind Hm). assert (0 < length behind)%nat by (destruct behind; cbn; [done|lia]).
  assert (bval a * bval b < cap (2 * length a)) as Bp by (replace (2 * length a)%nat with (length a + length a)%nat by lia; rewrite cap_add; nia).
  destruct (mul_rows_spec a b (replicate (2 * length a) 0 ++ behind)) as (mem & -> & Hmem & Lm & V); [done|done| | | |].
  - apply Forall_app. split; [apply limbs_zeros|done].
  - rewrite length_app, length_replicate. lia.
  - rewrite bval_app, bval_zeros, length_app, length_replicate, cap_add. nia.
  - rewrite bval_app, bval_zeros, length_replicate in V. rewrite length_app, length_replicate in Lm.
    cbn [mbind option_bind].
    assert (limbs (take (2 * length a) mem) /\ limbs (drop (2 * length a) mem)) as [Ht Hd]
      by (split; [by apply Forall_take|by apply Forall_drop]).
    assert (length (take (2 * length a) mem) = (2 * length a)%nat) as Lt by (rewrite length_take; lia).
    pose proof (bval_app (take (2 * length a) mem) (drop (2 * length a) mem)) as E. rewrite take_drop, Lt in E.
    pose proof (bval_range _ Ht) as Rt. rewrite Lt in Rt. set (c := cap (2 * length a)) in *.
    assert (bval (drop (2 * length a) mem) = bval behind) as Ed by nia. rewrite Ed in E.
    apply bval_inj in Ed as ->; [|done|done|rewrite length_drop; lia].
    eexists. splits; [done|done|done|lia].
Qed.

(** A result with nothing behind it is written past its end: the carry
    instruction of the last product touches the element after it. *)
Lemma mull_add_length a b mem mem' : mull_add a b mem = Some mem' -> length mem' = length mem.
Proof.
  assert (forall cf m m', adc_carry cf m = Some m' -> length m' = length m) as C.
  { intros cf m. revert cf. induction m as [|x m IH]; intros cf m' E; [done|]. cbn in E. zcases; simplify_eq; [done|].
    destruct (adc_carry 1 m) eqn:E1; simplify_eq/=. f_equal. by eapply IH. }
  destruct mem as [|m0 [|m1 mem]]; [done..|]. cbn [mull_add]. intros E.
  destruct (adc_carry _ mem) eqn:E1; simplify_eq/=. do 2 f_equal. by eapply C.
Qed.

Lemma mul_row_length a b mem mem' : mul_row a b mem = Some mem' -> length mem' = length mem.
Proof.
  revert mem mem'. induction b as [|x b IH]; intros mem mem' E; cbn in E; [by simplify_eq|].
  destruct (mull_add a x mem) as [[|m mem1]|] eqn:E1; simplify_eq/=. apply mull_add_length in E1.
  destruct (mul_row a b mem1) eqn:E2; simplify_eq/=. apply IH in E2. lia.
Qed.

Lemma mul_row_short a b mem : b <> [] -> length mem = S (length b) -> mul_row a b mem = None.
Proof.
  revert mem. induction b as [|x b IH]; intros mem Hb L; [done|]. cbn.
  destruct (mull_add a x mem) as [[|m mem1]|] eqn:E1; [done| |done]. pose proof (mull_add_length _ _ _ _ E1) as L1. cbn in *.
  destruct b as [|y b].
  - exfalso. destruct mem as [|m0 [|m1 [|m2 mem]]]; cbn in *; try lia. done.
  - rewrite IH; [done|done|cbn in *; lia].
Qed.

Lemma multiply_past_end a b : a <> [] -> length a = length b -> bigint_multiply_raw a b [] = None.
Proof.
  intros Ha L. unfold bigint_multiply_raw. enough (mul_rows a b (replicate (2 * length a) 0 ++ []) = None) as -> by done.
  assert (b <> []) as Hb by (destruct a, b; done).
  assert (length (replicate (2 * length a) 0 ++ []) = (length a + length b)%nat) as Lm
    by (rewrite length_app, length_replicate; cbn; lia).
  clear L. revert Lm. generalize (replicate (2 * length a) 0 ++ []). induction a as [|x a IH]; intros mem Lm; [done|].
  cbn. destruct (mul_row x b mem) as [[|m mem1]|] eqn:E1; [done| |done].
  pose proof (mul_row_length _ _ _ _ E1) as L1. cbn in *. destruct a as [|y a].
  - by rewrite mul_row_short in E1 by (done || (cbn in *; lia)).
  - rewrite IH; [done|done|cbn in *; lia].
Qed.

(** ** Reduction. *)

Lemma rol_spec v : limbs v -> 2 * bval v < cap (length v) ->
  bval (bigint_rol_raw v) = 2 * bval v /\ limbs (bigint_rol_raw v) /\ length (bigint_rol_raw v) = length v.
Proof.
  intros Hv B. pose proof (bval_range v Hv). unfold bigint_rol_raw. rewrite rcl_loop_spec by (done || lia).
  rewrite Z.add_0_r, Z.mod_small by lia. by pose proof (rcl_loop_limbs 0 v).
Qed.

Lemma rol_times_spec n v : limbs v -> bval v * 2 ^ Z.of_nat n < cap (length v) ->
  bval (rol_times n v) = bval v * 2 ^ Z.of_nat n /\ limbs (rol_times n v) /\ length (rol_times n v) = length v.
Proof.
  revert v. induction n as [|n IH]; intros v Hv B; cbn [rol_times]; [splits; [cbn; lia|done|done]|].
  rewrite Nat2Z.inj_succ, Z.pow_succ_r in * by lia. pose proof (bval_range v Hv).
  pose proof (Z.pow_pos_nonneg 2 (Z.of_nat n)).
  destruct (rol_spec v Hv) as (V & Hr & L); [nia|].
  destruct (IH (bigint_rol_raw v)) as (V' & Hr' & L'); [done|rewrite V, L; nia|].
  rewrite V', V, L', L. splits; [lia|done|done].
Qed.

Lemma subtract_spec m r : limbs m -> limbs r -> length m = length r -> bval m <= bval r ->
  bval (bigint_subtract_raw m r) = bval r - bval m /\ limbs (bigint_subtract_raw m r) /\
  length (bigint_subtract_raw m r) = length r.
Proof.
  intros Hm Hr L B. pose proof (bval_range m Hm). pose proof (bval_range r Hr). unfold bigint_subtract_raw.
  rewrite sbb_loop_spec, Z.sub_0_r, Z.mod_small by (done || lia). by pose proof (sbb_loop_limbs 0 m r L).
Qed.

Lemma reduce_loop_spec n r m M : limbs r -> limbs m -> length r = length m -> 0 < M ->
  (n <> O -> bval m = M * 2 ^ Z.of_nat n / 2) -> bval r < M * 2 ^ Z.of_nat n ->
  exists r' m', reduce_loop n r m = (r', m') /\ limbs r' /\ limbs m' /\ length r' = length r /\
    length m' = length m /\ bval r' = bval r mod M.
Proof.
  revert r m. induction n as [|n IH]; intros r m Hr Hm L HM Em Br; cbn [reduce_loop].
  - exists r, m. splits; try done. pose proof (bval_range r Hr). cbn in Br. rewrite Z.mod_small; lia.
  - rewrite Nat2Z.inj_succ, Z.pow_succ_r in * by lia. pose proof (bval_range r Hr).
    replace (M * (2 * 2 ^ Z.of_nat n)) with (M * 2 ^ Z.of_nat n * 2) in Em, Br by lia.
    rewrite Z.div_mul in Em by lia. specialize (Em ltac:(done)). rewrite is_geq_spec by done.
    destruct (ror_spec m Hm) as (V & Hm' & Lm).
    set (r1 := if bval m <=? bval r then bigint_subtract_raw m r else r).
    assert (limbs r1 /\ length r1 = length r /\ bval r1 < M * 2 ^ Z.of_nat n /\ bval r1 mod M = bval r mod M)
      as (H1 & L1 & B1 & V1).
    { subst r1. destruct (Z.leb_spec (bval m) (bval r)); [|splits; done || lia].
      destruct (subtract_spec m r) as (Vs & Hs & Ls); [done..|]. splits; [done|done|lia|].
      rewrite Vs, Em, <- Z.add_opp_r, <- Z.mul_opp_r, Z.mul_comm, Z.mod_add; lia. }
    destruct (IH r1 (bigint_ror_raw m)) as (r' & m' & -> & Hr' & Hm'' & Lr' & Lm' & Vr');
      [done|done|lia|lia|by intros _; rewrite V, Em|done|].
    exists r', m'. splits; try done; try lia.
Qed.

Lemma grow_spec v n : limbs v -> (length v <= n)%nat ->
  bval (bigint_grow_raw v n) = bval v /\ limbs (bigint_grow_raw v n) /\ length (bigint_grow_raw v n) = n.
Proof.
  intros Hv L. unfold bigint_grow_raw. rewrite bval_app, bval_zeros, length_app, length_replicate.
  splits; [lia| |lia]. apply Forall_app. split; [done|apply limbs_zeros].
Qed.

Lemma shrink_spec v n : limbs v -> (n <= length v)%nat -> bval v < cap n ->
  bval (bigint_shrink_raw v n) = bval v /\ limbs (bigint_shrink_raw v n) /\ length (bigint_shrink_raw v n) = n.
Proof.
  intros Hv L B. unfold bigint_shrink_raw. pose proof (bval_app (take n v) (drop n v)) as E.
  rewrite take_drop, length_take, Nat.min_l in E by done.
  pose proof (bval_range (take n v) ltac:(by apply Forall_take)).
  pose proof (bval_range (drop n v) ltac:(by apply Forall_drop)). pose proof (cap_pos n).
  rewrite length_take, Nat.min_l by done. splits; [|by apply Forall_take|done].
  assert (bval (drop n v) = 0) as E0 by (set (c := cap n) in *; clearbody c; nia). lia.
Qed.

(** The modulus rotated until its highest bit meets that of the product
    is at least half of it, and no bit is lost. *)
Lemma rescale_bounds p m n : 0 <= n -> 0 <= p < 2 ^ n -> 0 < m < 2 ^ n ->
  let k := bits p - bits m in
  p < m * 2 ^ Z.of_nat (Z.to_nat (k + 1)) /\ m * 2 ^ Z.of_nat (Z.to_nat k) < 2 ^ n.
Proof.
  intros Hn Hp Hm k.
  assert (forall x, 0 <= bits x) as Nb by (intros x; unfold bits; pose proof (Z.log2_nonneg x); zcases).
  pose proof (Nb p). pose proof (Nb m).
  assert (0 < bits m) by (unfold bits; pose proof (Z.log2_nonneg m); zcases).
  assert (bits p <= n) by (apply bits_le; lia).
  assert (p < 2 ^ bits p) as Bp by (apply bits_le; lia).
  assert (m < 2 ^ bits m) as Bm2 by (apply bits_le; lia).
  assert (2 ^ (bits m - 1) <= m) as Bm1.
  { apply Z.nlt_ge. intros C. apply (bits_le m (bits m - 1)) in C; lia. }
  destruct (Z.leb_spec 0 k) as [Hk|Hk].
  - rewrite !Z2Nat.id by lia. split.
    + eapply Z.lt_le_trans; [exact Bp|]. replace (bits p) with (bits m - 1 + (k + 1)) by lia.
      rewrite Z.pow_add_r by lia. apply Z.mul_le_mono_nonneg_r; lia.
    + eapply Z.lt_le_trans; [|apply (Z.pow_le_mono_r 2 (bits p)); lia]. replace (bits p) with (bits m + k) by lia.
      rewrite Z.pow_add_r by lia. apply Z.mul_lt_mono_pos_r; lia.
  - replace (Z.to_nat (k + 1)) with 0%nat by lia. replace (Z.to_nat k) with 0%nat by lia.
    change (2 ^ Z.of_nat 0) with 1. split; [|lia].
    enough (p < 2 ^ (bits m - 1)) by lia. apply bits_le; lia.
Qed.

Lemma mod_multiply_spec a b m tmp : limbs a -> limbs b -> limbs m -> limbs tmp ->
  length a = length m -> length b = length m -> tmp <> [] -> 0 < bval m ->
  exists r tmp', bigint_mod_multiply_raw a b m tmp = Some (r, tmp') /\ limbs r /\ limbs tmp' /\
    length r = length m /\ tmp' <> [] /\ bval r = (bval a * bval b) mod bval m.
Proof.
  intros Ha Hb Hm Ht La Lb Hn Pm. unfold bigint_mod_multiply_raw.
  destruct (multiply_spec a b tmp) as (p & -> & Hp & Lp & Vp); [done|done|congruence|done|done|]. cbn [mbind option_bind].
  rewrite La in *. destruct (grow_spec m (2 * length m)) as (Vg & Hg & Lg); [done|lia|].
  set (g := bigint_grow_raw m (2 * length m)) in *. rewrite !max_set_bit_spec, Vg by done.
  pose proof (bval_range p Hp) as Rp. pose proof (bval_range g Hg) as Rg. rewrite Lp in Rp. rewrite Vg in Rg.
  destruct (rescale_bounds (bval p) (bval m) (32 * Z.of_nat (2 * length m))) as [B1 B2]; [lia|done|rewrite <- Lg; lia|].
  set (k := bits (bval p) - bits (bval m)) in *.
  destruct (rol_times_spec (Z.to_nat k) g) as (Vr & Hr & Lr); [done|by rewrite Lg, Vg|].
  destruct (reduce_loop_spec (Z.to_nat (k + 1)) p (rol_times (Z.to_nat k) g) (bval m))
    as (r & t & -> & Hr' & Ht' & Lr' & Lt' & V); [done|done|lia|done| |done|].
  - intros Hk. rewrite Vr, Vg. replace (Z.to_nat (k + 1)) with (S (Z.to_nat k)) by lia.
    rewrite Nat2Z.inj_succ, Z.pow_succ_r by lia. rewrite (Z.mul_comm 2), Z.mul_assoc, Z.div_mul by lia. done.
  - pose proof (Z.mod_pos_bound (bval p) (bval m) Pm). pose proof (bval_range m Hm).
    destruct (shrink_spec r (length m)) as (Vs & Hs & Ls); [done|lia|lia|].
    eexists _, t. splits; [done|done|done|done| |by rewrite Vs, V, Vp].
    intros ->. cbn in Lt'. destruct m; [done|]. cbn in *. lia.
Qed.

(** ** Exponentiation. *)

Lemma pow_square_mod b e m : 0 < m -> 0 <= e -> ((b * b) mod m) ^ e mod m = b ^ (2 * e) mod m.
Proof.
  intros Hm He. rewrite <- Zpower_mod by lia. f_equal. rewrite Z.pow_mul_r by lia. f_equal. lia.
Qed.

Lemma square_multiply_step r b e m : 0 < m -> 0 < e ->
  let r' := if Z.odd e then (r * b) mod m else r in
  (if e / 2 =? 0 then r' else (r' * ((b * b) mod m) ^ (e / 2)) mod m) = (r * b ^ e) mod m.
Proof.
  intros Hm He r'. subst r'.
  assert (e = 2 * (e / 2) + if Z.odd e then 1 else 0) as E by (rewrite <- Zmod_odd; zdm).
  pose proof (Z.div_pos e 2 ltac:(lia) ltac:(lia)) as Hd. remember (e / 2) as h eqn:Eh. clear Eh.
  destruct (Z.eqb_spec h 0) as [->|Hh].
  - destruct (Z.odd e); [|lia]. assert (e = 1) as -> by lia. by rewrite Z.pow_1_r.
  - rewrite <- Z.mul_mod_idemp_r, pow_square_mod, Z.mul_mod_idemp_r by lia.
    destruct (Z.odd e); rewrite E.
    + rewrite Z.mul_mod_idemp_l, Z.pow_add_r, Z.pow_1_r by lia. f_equal. lia.
    + by rewrite Z.add_0_r.
Qed.

Lemma mod_exp_loop_spec fuel b m e r tmp : limbs b -> limbs m -> limbs e -> limbs r -> limbs tmp ->
  length b = length m -> length r = length m -> tmp <> [] -> e <> [] -> 0 < bval m ->
  bval e < 2 ^ Z.of_nat fuel ->
  exists r' tmp', mod_exp_loop fuel b m e r tmp = Some (r', tmp') /\ limbs tmp' /\ tmp' <> [] /\ limbs r' /\ length r' = length m /\
    bval r' = if bval e =? 0 then bval r else (bval r * bval b ^ bval e) mod bval m.
Proof.
  revert b e r tmp. induction fuel as [|fuel IH]; intros b e r tmp Hb Hm He Hr Ht Lb Lr Hn Hne Pm B;
    cbn [mod_exp_loop]; rewrite is_zero_spec by done; pose proof (bval_range e He).
  - destruct (Z.eqb_spec (bval e) 0); [by exists r, tmp|]. cbn in B. lia.
  - destruct (Z.eqb_spec (bval e) 0); [by exists r, tmp|]. rewrite bit_is_set_0 by done. cbn [mbind option_bind].
    destruct (ror_spec e He) as (Ve & He' & Le).
    assert (exists r1 t1, (if Z.odd (bval e) then bigint_mod_multiply_raw r b m tmp else Some (r, tmp)) = Some (r1, t1) /\
      limbs r1 /\ limbs t1 /\ length r1 = length m /\ t1 <> [] /\
      bval r1 = if Z.odd (bval e) then (bval r * bval b) mod bval m else bval r) as (r1 & t1 & -> & H1 & Ht1 & L1 & Hn1 & V1).
    { destruct (Z.odd (bval e)); [by apply mod_multiply_spec|by exists r, tmp]. }
    cbn [mbind option_bind].
    destruct (mod_multiply_spec b b m t1) as (b' & t2 & -> & Hb' & Ht2 & Lb' & Hn2 & Vb'); try done. cbn [mbind option_bind].
    destruct (IH b' (bigint_ror_raw e) r1 t2) as (r' & t' & -> & Ht' & Hn' & Hr' & Lr' & V'); try done.
    + by intros E; rewrite E in Le; destruct e.
    + rewrite Ve. rewrite Nat2Z.inj_succ, Z.pow_succ_r in B by lia. apply Z.div_lt_upper_bound; lia.
    + exists r', t'. splits; try done. rewrite V', Ve, V1, Vb'. apply square_multiply_step; lia.
Qed.

(** ** Conversion from and to bytes. *)

Fixpoint le_val (l : list Z) : Z :=
  match l with
  | [] => 0
  | b :: l' => b + 256 * le_val l'
  end.

Lemma le_val_app a b : le_val (a ++ b) = le_val a + 2 ^ (8 * zlen a) * le_val b.
Proof.
  induction a as [|x a IH]; cbn [le_val app length]; [change (2 ^ (8 * Z.of_nat 0)) with 1; lia|].
  rewrite IH. replace (8 * Z.of_nat (S (length a))) with (8 + 8 * zlen a) by lia.
  rewrite Z.pow_add_r by lia. change (2 ^ 8) with 256. lia.
Qed.

Lemma le_val_rev l : le_val (rev l) = be_val l.
Proof.
  induction l as [|x l IH]; [done|]. cbn [rev be_val]. rewrite le_val_app, length_rev, IH. cbn. lia.
Qed.

Lemma le_val_zeros n : le_val (replicate n 0) = 0.
Proof. induction n as [|n IH]; [done|]. cbn [replicate le_val]. lia. Qed.

Lemma words_spec n l : length l = (4 * n)%nat -> bytes_ok l ->
  bval (words l) = le_val l /\ limbs (words l) /\ length (words l) = n.
Proof.
  revert l. induction n as [|n IH]; intros l L Hl.
  - destruct l; [|cbn in L; lia]. splits; [done|constructor|done].
  - do 4 (destruct l as [|? l]; [cbn in L; lia|]). cbn [length] in L.
    repeat (apply Forall_cons in Hl as [? Hl]). destruct (IH l) as (V & H' & L'); [lia|done|].
    cbn [words bval le_val length]. rewrite V, L'. unfold is_byte in *. splits; [lia| |done].
    apply Forall_cons_2; [unfold limb; lia|done].
Qed.

Lemma init_spec size data : bytes_ok data -> (1 <= length data <= 4 * size)%nat ->
  exists v, bigint_init_raw size data = Some v /\ limbs v /\ length v = size /\ bval v = be_val data.
Proof.
  intros Hd L. unfold bigint_init_raw.
  destruct (Nat.eqb_spec (length data) 0); [lia|]. destruct (Nat.ltb_spec (4 * size) (length data)); [lia|]. cbn [orb].
  destruct (words_spec size (rev data ++ replicate (4 * size - length data) 0)) as (V & Hw & L').
  - rewrite length_app, length_rev, length_replicate. lia.
  - apply Forall_app. split; [by apply Forall_rev|]. apply Forall_replicate. unfold is_byte. lia.
  - eexists. splits; [done|done|done|]. rewrite V, le_val_app, le_val_zeros, le_val_rev. lia.
Qed.

Lemma word_bytes_val x : limb x -> le_val (word_bytes x) = x /\ bytes_ok (word_bytes x).
Proof.
  intros Hx. unfold limb in Hx. unfold word_bytes. cbn [le_val].
  split; [change (2 ^ 32) with 4294967296 in Hx; change (2 ^ 8) with 256; change (2 ^ 16) with 65536;
          change (2 ^ 24) with 16777216; zdm|].
  repeat apply Forall_cons_2; try constructor; unfold is_byte; apply Z.mod_pos_bound; lia.
Qed.

Lemma memory_bytes v : limbs v ->
  le_val (mjoin (word_bytes <$> v)) = bval v /\ bytes_ok (mjoin (word_bytes <$> v)) /\
  length (mjoin (word_bytes <$> v)) = (4 * length v)%nat.
Proof.
  induction 1 as [|x v Hx Hv (V & Hb & L)]; [splits; [done|constructor|done]|].
  destruct (word_bytes_val x Hx) as [Vx Hbx]. change (mjoin (word_bytes <$> x :: v)) with (word_bytes x ++ mjoin (word_bytes <$> v)).
  rewrite le_val_app, length_app, V, Vx, L.
  cbn [bval length]. splits; [change (8 * zlen (word_bytes x)) with 32; lia|by apply Forall_app|cbn; lia].
Qed.

Lemma done_spec v len : limbs v -> (1 <= len <= 4 * length v)%nat -> bigint_done_raw v len = Some (be_bytes len (bval v)).
Proof.
  intros Hv L. unfold bigint_done_raw.
  destruct (Nat.eqb_spec len 0); [lia|]. destruct (Nat.ltb_spec (4 * length v) len); [lia|]. cbn [orb]. f_equal.
  destruct (memory_bytes v Hv) as (V & Hb & Lm). set (mem := mjoin (word_bytes <$> v)) in *.
  assert (length (rev (take len mem)) = len) as Lr by (rewrite length_rev, length_take; lia).
  rewrite <- (be_bytes_val (rev (take len mem))), Lr by (by apply Forall_rev, Forall_take).
  apply be_bytes_mod. rewrite <- V, <- le_val_rev, rev_involutive.
  assert (le_val mem = le_val (take len mem ++ drop len mem)) as -> by (by rewrite take_drop).
  rewrite le_val_app, length_take, Nat.min_l by lia.
  by rewrite (Z.mul_comm (2 ^ _)), Z.mod_add by lia.
Qed.


Lemma mod_exp_spec b m e tmp : limbs b -> limbs m -> limbs e -> limbs tmp -> tmp <> [] ->
  length b = length m -> m <> [] -> e <> [] -> 0 < bval m ->
  exists r tmp', bigint_mod_exp_raw b m e tmp = Some (r, tmp') /\ limbs tmp' /\ tmp' <> [] /\ limbs r /\ length r = length m /\
    bval r = if bval e =? 0 then 1 else bval b ^ bval e mod bval m.
Proof.
  intros Hb Hm He Ht Hn Lb Hm0 He0 Pm. unfold bigint_mod_exp_raw.
  destruct (init_spec (length b) [1]) as (r & -> & Hr & Lr & Vr);
    [repeat constructor; unfold is_byte; lia|rewrite Lb; destruct m; [done|cbn; lia]|].
  cbn [mbind option_bind]. pose proof (bval_range e He) as Re.
  destruct (mod_exp_loop_spec (32 * length e) b m e r tmp) as (r' & t' & E & Ht' & Hn' & Hr' & Lr' & V'); try done; try congruence.
  - rewrite Nat2Z.inj_mul. apply Re.
  - exists r', t'. splits; try done. rewrite V', Vr. change (be_val [1]) with 1. by rewrite Z.mul_1_l.
Qed.

(** ** The properties. *)

(** Multiplication of two big integers of the same size stores their
    exact product, of twice the size, and leaves the element behind it,
    which the last carry instruction reads and writes, as it was. *)
Theorem bigint_multiply_exact multiplicand multiplier behind :
  limbs multiplicand -> limbs multiplier -> length multiplicand = length multiplier ->
  limbs behind -> behind <> [] ->
  exists product, bigint_multiply_raw multiplicand multiplier behind = Some (product, behind) /\ limbs product /\
    length product = (2 * length multiplicand)%nat /\ bval product = bval multiplicand * bval multiplier.
Proof. apply multiply_spec. Qed.

Lemma bigint_multiply_exact_witness :
  exists product, bigint_multiply_raw [4294967295; 4294967295] [4294967295; 4294967295] [4294967295] = Some (product, [4294967295]) /\
    limbs product /\ length product = 4%nat /\ bval product = (2 ^ 64 - 1) * (2 ^ 64 - 1).
Proof.
  apply (bigint_multiply_exact [4294967295; 4294967295] [4294967295; 4294967295] [4294967295]);
    [by_decide|by_decide|reflexivity|by_decide|done].
Defined.

(** C22: modular exponentiation of byte strings, as RSA uses it
    (initialise, exponentiate, finalise): for a modulus and an exponent
    of any length and a non-zero modulus that fits in [len] bytes, the
    loop ends within 32 turns per exponent element and the bytes are
    those of base^exponent mod modulus, or of 1 when the exponent is
    zero. *)
Theorem bigint_mod_exp_power size exponent_size len base modulus exponent tmp :
  bytes_ok base -> bytes_ok modulus -> bytes_ok exponent -> limbs tmp -> tmp <> [] ->
  (1 <= length base <= 4 * size)%nat -> (1 <= length modulus <= 4 * size)%nat ->
  (1 <= length exponent <= 4 * exponent_size)%nat -> (1 <= len <= 4 * size)%nat -> 0 < be_val modulus ->
  (b ← bigint_init_raw size base; m ← bigint_init_raw size modulus; e ← bigint_init_raw exponent_size exponent;
   p ← bigint_mod_exp_raw b m e tmp; bigint_done_raw p.1 len)
  = Some (be_bytes len (if be_val exponent =? 0 then 1 else be_val base ^ be_val exponent mod be_val modulus)).
Proof.
  intros Hb Hm He Ht Hn Lb Lm Le Ll Pm.
  destruct (init_spec size base) as (b & -> & Hb' & Lb' & Vb); [done..|].
  destruct (init_spec size modulus) as (m & -> & Hm' & Lm' & Vm); [done..|].
  destruct (init_spec exponent_size exponent) as (e & -> & He' & Le' & Ve); [done..|]. cbn [mbind option_bind].
  destruct (mod_exp_spec b m e tmp) as (r & t & -> & _ & _ & Hr & Lr & Vr); try done; try congruence.
  - intros ->. cbn in *. lia.
  - intros ->. cbn in *. lia.
  - cbn [mbind option_bind fst]. rewrite done_spec by (done || lia). by rewrite Vr, Ve, Vb, Vm.
Qed.

(** 123456789^17 mod (2^61 - 1) on two elements. *)
Lemma bigint_mod_exp_power_witness :
  (b ← bigint_init_raw 2 [7; 91; 205; 21]; m ← bigint_init_raw 2 [31; 255; 255; 255; 255; 255; 255; 255];
   e ← bigint_init_raw 1 [17]; p ← bigint_mod_exp_raw b m e [0; 0; 0; 0]; bigint_done_raw p.1 8)
  = Some (be_bytes 8 (123456789 ^ 17 mod (2 ^ 61 - 1))).
Proof.
  apply (bigint_mod_exp_power 2 1 8 [7; 91; 205; 21] [31; 255; 255; 255; 255; 255; 255; 255] [17] [0; 0; 0; 0]);
    [by_decide|by_decide|by_decide|by_decide|done|cbn; lia|cbn; lia|cbn; lia|cbn; lia|reflexivity].
Defined.
