(* ===== verification/NumTheory.v ===== *)
(** * The arithmetic behind RSA.

    Fermat's little theorem over the integers, by the permutation of the
    non-zero residues that multiplication by a unit is, and what it gives
    for a product of distinct primes, two or more (RFC 3447): raising to
    two exponents whose product is one modulo each p - 1 is the identity
    on residues modulo the product.  No code of the repository is modelled here; [Rsa] uses the
    result for the key pairs of crypto/rsa.c. *)

From Stdlib Require Import Znumtheory Zpow_facts.
From S2P Require Import Prelude.

(** ** Products of lists. *)

Definition product (l : list Z) : Z := foldr Z.mul 1 l.

#[export] Instance product_perm : Proper ((≡ₚ) ==> eq) product.
Proof. unfold product. intros l1 l2. induction 1; cbn; lia. Qed.

Lemma product_scaled a p l : 0 < p ->
  product ((fun i => (a * i) mod p) <$> l) mod p = (a ^ zlen l * product l) mod p.
Proof.
  intros Hp. induction l as [|i l IH]; [done|]. cbn [fmap list_fmap product foldr length]. fold (product l).
  fold (product ((fun i => (a * i) mod p) <$> l)).
  rewrite Z.mul_mod_idemp_l, <- Z.mul_mod_idemp_r, IH, Z.mul_mod_idemp_r by lia.
  rewrite Nat2Z.inj_succ, Z.pow_succ_r by lia. f_equal. lia.
Qed.

Lemma prime_product p l : prime p -> (forall i, i ∈ l -> ~ (p | i)) -> ~ (p | product l).
Proof.
  intros Hp. induction l as [|i l IH]; intros Hl D; cbn in D.
  - apply Z.divide_1_r_nonneg in D; destruct Hp; lia.
  - apply prime_mult in D as [D|D]; [| |done].
    + apply (Hl i); [apply list_elem_of_here|done].
    + revert D. apply IH. intros j Hj. apply Hl. by apply list_elem_of_further.
Qed.

(** ** Fermat's little theorem. *)

Lemma not_divides p i : 0 < i < p -> ~ (p | i).
Proof. intros Hi D. apply Z.divide_pos_le in D; lia. Qed.

Lemma residues_permuted a p : prime p -> ~ (p | a) ->
  (fun i => (a * i) mod p) <$> seqZ 1 (p - 1) ≡ₚ seqZ 1 (p - 1).
Proof.
  intros Hp Ha. assert (1 < p) as P1 by (by destruct Hp).
  apply submseteq_length_Permutation; [|by rewrite length_fmap].
  apply NoDup_submseteq.
  - apply NoDup_fmap_2_strong; [|apply NoDup_seqZ]. intros x y Hx Hy E. apply elem_of_seqZ in Hx, Hy.
    destruct (decide (x = y)) as [|Hn]; [done|]. exfalso.
    assert (p | a * (x - y)) as D.
    { apply Z.mod_divide; [lia|]. rewrite Z.mul_sub_distr_l, Zminus_mod, E, Z.sub_diag. apply Z.mod_0_l. lia. }
    apply prime_mult in D as [D|D]; [done| |done].
    destruct (Z.ltb_spec x y).
    + apply Z.divide_opp_r in D. revert D. apply not_divides. lia.
    + revert D. apply not_divides. lia.
  - intros x (i & -> & Hi)%list_elem_of_fmap. apply elem_of_seqZ in Hi. apply elem_of_seqZ.
    pose proof (Z.mod_pos_bound (a * i) p ltac:(lia)).
    assert ((a * i) mod p <> 0); [|lia]. intros E. apply Z.mod_divide in E; [|lia].
    apply prime_mult in E as [D|D]; [done| |done]. revert D. apply not_divides. lia.
Qed.

Lemma fermat_little a p : prime p -> ~ (p | a) -> a ^ (p - 1) mod p = 1.
Proof.
  intros Hp Ha. assert (1 < p) as P1 by (by destruct Hp).
  pose proof (product_scaled a p (seqZ 1 (p - 1)) ltac:(lia)) as E.
  rewrite (residues_permuted a p Hp Ha), length_seqZ, Z2Nat.id in E by lia.
  set (P := product (seqZ 1 (p - 1))) in *.
  assert (p | P * (a ^ (p - 1) - 1)) as D.
  { apply Z.mod_divide; [lia|]. rewrite Z.mul_sub_distr_l, Z.mul_1_r, (Z.mul_comm P), Zminus_mod, <- E, Z.sub_diag.
    apply Z.mod_0_l. lia. }
  apply prime_mult in D as [D|[c D]]; [| |done].
  - exfalso. revert D. apply prime_product; [done|]. intros i Hi. apply elem_of_seqZ in Hi. apply not_divides. lia.
  - replace (a ^ (p - 1)) with (1 + c * p) by lia. rewrite Z.mod_add, Z.mod_small; lia.
Qed.

(** ** Exponents that undo each other modulo a product of primes. *)

Record rsa_exponents (primes : list Z) (e d : Z) : Prop := {
  re_primes : Forall prime primes;
  re_distinct : NoDup primes;
  re_e : 0 < e;
  re_d : 0 < d;
  re_inverse : Forall (fun p => (p - 1 | e * d - 1)) primes;
}.

Lemma power_fixed p m x : prime p -> 0 < x -> (p - 1 | x - 1) -> (p | m ^ x - m).
Proof.
  intros Hp Hx [k Hk]. assert (1 < p) as P1 by (by destruct Hp).
  assert (0 <= k) as Kp by nia. replace x with (1 + (p - 1) * k) by lia.
  rewrite Z.pow_add_r, Z.pow_1_r by nia. destruct (Znumtheory.Zdivide_dec p m) as [D|D].
  - apply Z.divide_sub_r; [|done]. by apply Z.divide_mul_l.
  - rewrite Z.pow_mul_r by lia. apply Z.mod_divide; [lia|].
    rewrite Zminus_mod, <- Z.mul_mod_idemp_r, Zpower_mod, (fermat_little m p Hp D) by lia.
    rewrite Z.pow_1_l, (Z.mod_small 1), Z.mul_1_r, Z.sub_diag by lia. apply Z.mod_0_l. lia.
Qed.

Lemma product_divides ps x : Forall prime ps -> NoDup ps -> Forall (fun p => (p | x)) ps -> (product ps | x).
Proof.
  intros Hp Hn. induction Hp as [|p ps Hp Hps IH]; intros Hd; [apply Z.divide_1_l|].
  apply NoDup_cons in Hn as [Hnot Hn]. apply Forall_cons in Hd as [Dp Hd].
  destruct (IH Hn Hd) as [c ->]. cbn. fold (product ps).
  apply prime_mult in Dp as [[y ->]|Dp]; [exists y; lia| |done].
  exfalso. revert Dp. apply prime_product; [done|]. intros q Hq D. apply Hnot.
  assert (prime q) as Hq' by (by rewrite Forall_forall in Hps; apply Hps).
  destruct Hp as [P1 _]. destruct (prime_divisors q Hq' p D) as [|[|[|]]]; [lia|lia|by subst|].
  destruct Hq'. lia.
Qed.

Lemma product_pos ps : Forall prime ps -> 0 < product ps.
Proof. induction 1 as [|p ps [P1 _] _ IH]; cbn; [lia|]. fold (product ps). lia. Qed.

Lemma rsa_identity ps e d m : rsa_exponents ps e d -> 0 <= m < product ps ->
  (m ^ e mod product ps) ^ d mod product ps = m.
Proof.
  intros [Hp Hn He Hd Hi] Hm.
  rewrite <- Zpower_mod, <- Z.pow_mul_r by lia.
  assert (product ps | m ^ (e * d) - m) as [c E].
  { apply product_divides; [done|done|]. apply Forall_forall. intros p Hin.
    rewrite Forall_forall in Hp, Hi. apply power_fixed; [by apply Hp|nia|by apply Hi]. }
  replace (m ^ (e * d)) with (m + c * product ps) by lia. rewrite Z.mod_add, Z.mod_small; lia.
Qed.

(** ** Checking the exponents of small primes. *)

Lemma prime_check p : (1 <? p) && forallb (fun n => Z.gcd n p =? 1) (seqZ 1 (p - 1)) = true -> prime p.
Proof.
  rewrite andb_true_iff, Z.ltb_lt, forallb_forall. intros [P1 H]. apply prime_intro; [done|].
  intros n Hn. apply Zgcd_1_rel_prime, Z.eqb_eq, H, list_elem_of_In, elem_of_seqZ. lia.
Qed.

Definition rsa_exponents_check (primes : list Z) (e d : Z) : bool :=
  forallb (fun p => (1 <? p) && forallb (fun n => Z.gcd n p =? 1) (seqZ 1 (p - 1))) primes &&
  bool_decide (NoDup primes) && (0 <? e) && (0 <? d) && forallb (fun p => (e * d - 1) mod (p - 1) =? 0) primes.

Lemma rsa_exponents_checked primes e d : rsa_exponents_check primes e d = true -> rsa_exponents primes e d.
Proof.
  unfold rsa_exponents_check. rewrite !andb_true_iff, bool_decide_eq_true, !Z.ltb_lt, !forallb_forall.
  intros [[[[Hp Hn] He] Hd] Hi].
  assert (Forall prime primes) as Hpr by (apply Forall_forall; intros p Hin; apply prime_check, Hp, list_elem_of_In, Hin).
  split; try done. apply Forall_forall. intros p Hin. specialize (Hi p (proj1 (list_elem_of_In _ _) Hin)). apply Z.eqb_eq in Hi.
  rewrite Forall_forall in Hpr. destruct (Hpr p Hin) as [P1 _]. apply Z.mod_divide; lia.
Qed.
