(* ===== verification/Time.v ===== *)
(** * Calendar time (core/time.c).

    [mktime] turns a broken-down time into seconds since the Epoch and
    fills in the day of the week and of the year.  The specification is
    the Gregorian calendar counted day by day: the lengths of the months
    and of the years before the date.  The fields are C [int]s and the
    arithmetic stays far inside their range for the four-digit years the
    callers use, so no wrap-around is written; divisions truncate towards
    zero as in C. *)

From S2P Require Import Prelude.

Record tm := Tm {
  tm_sec : Z; tm_min : Z; tm_hour : Z; tm_mday : Z; tm_mon : Z; tm_year : Z; tm_wday : Z; tm_yday : Z;
}.

(** [tm_year] counts from 1900. *)
Definition is_leap_year (tm_year : Z) : bool :=
  let leap_year := Z.rem tm_year 4 =? 0 in
  let leap_year := if Z.rem tm_year 100 =? 0 then false else leap_year in
  if Z.rem tm_year 400 =? 100 then true else leap_year.

Definition leap_years_to_end (tm_year : Z) : Z :=
  Z.quot tm_year 4 - Z.quot tm_year 100 + Z.quot (tm_year + 300) 400.

Definition weekday_offset : list Z := [1; 4; 3; 6; 1; 4; 6; 2; 5; 0; 3; 5].
Definition days_to_month_start : list Z := [0; 31; 59; 90; 120; 151; 181; 212; 243; 273; 304; 334].

(** An index outside a table reads other memory. *)
Definition table_lookup (l : list Z) (i : Z) : option Z := if i <? 0 then None else l !! Z.to_nat i.

Definition day_of_week (tm_year tm_mon tm_mday : Z) : option Z :=
  let pseudo_year := if tm_mon <? 2 then tm_year - 1 else tm_year in
  offset ← table_lookup weekday_offset tm_mon;
  Some (Z.rem (pseudo_year + leap_years_to_end pseudo_year + offset + tm_mday) 7).

Definition mktime (t : tm) : option (Z * tm) :=
  start ← table_lookup days_to_month_start (tm_mon t);
  let yday := tm_mday t - 1 + start in
  let yday := if (2 <=? tm_mon t) && is_leap_year (tm_year t) then yday + 1 else yday in
  wday ← day_of_week (tm_year t) (tm_mon t) (tm_mday t);
  let days_since_epoch := yday + 365 * tm_year t - 25567 + leap_years_to_end (tm_year t - 1) in
  let seconds_since_day := (tm_hour t * 60 + tm_min t) * 60 + tm_sec t in
  Some (days_since_epoch * 86400 + seconds_since_day,
        Tm (tm_sec t) (tm_min t) (tm_hour t) (tm_mday t) (tm_mon t) (tm_year t) wday yday).

(** ** The calendar. *)

Definition gregorian_leap (year : Z) : bool :=
  (year mod 4 =? 0) && (negb (year mod 100 =? 0) || (year mod 400 =? 0)).

Definition year_length (year : Z) : Z := if gregorian_leap year then 366 else 365.

(** Months are numbered from 0. *)
Definition month_length (year : Z) (month : nat) : Z :=
  match month with
  | 1%nat => if gregorian_leap year then 29 else 28
  | 3%nat | 5%nat | 8%nat | 10%nat => 30
  | _ => 31
  end.

(** Days from 1 January 1900 to the start of [1900 + years]. *)
Fixpoint days_before_year (years : nat) : Z :=
  match years with
  | O => 0
  | S y => days_before_year y + year_length (1900 + Z.of_nat y)
  end.

Fixpoint days_before_month (year : Z) (month : nat) : Z :=
  match month with
  | O => 0
  | S m => days_before_month year m + month_length year m
  end.

(** Days from 1 January 1900 to a date. *)
Definition day_number (years month : nat) (mday : Z) : Z :=
  days_before_year years + days_before_month (1900 + Z.of_nat years) month + (mday - 1).

(** ** Lemmas. *)

Lemma is_leap_year_gregorian y : 0 <= y -> is_leap_year y = gregorian_leap (1900 + y).
Proof.
  intros Hy. unfold is_leap_year, gregorian_leap. rewrite !Z.rem_mod_nonneg by lia.
  zcases; cbn; try done; zdm.
Qed.

Lemma leap_years_step y : 0 <= y ->
  leap_years_to_end y = leap_years_to_end (y - 1) + (if gregorian_leap (1900 + y) then 1 else 0).
Proof.
  intros Hy. destruct (Z.eqb_spec y 0) as [->|]; [done|].
  unfold leap_years_to_end, gregorian_leap. rewrite !Z.quot_div_nonneg by lia. zcases; cbn; zdm.
Qed.

Lemma days_before_year_formula n : days_before_year n = 365 * Z.of_nat n + leap_years_to_end (Z.of_nat n - 1).
Proof.
  induction n as [|n IH]; [done|]. cbn [days_before_year]. rewrite IH. unfold year_length.
  replace (Z.of_nat (S n) - 1) with (Z.of_nat n) by lia. rewrite (leap_years_step (Z.of_nat n)) by lia.
  destruct (gregorian_leap _); lia.
Qed.

Lemma leap_years_nonneg y : -1 <= y -> 0 <= leap_years_to_end y.
Proof.
  intros Hy. destruct (Z.eqb_spec y (-1)) as [->|]; [done|].
  unfold leap_years_to_end. rewrite !Z.quot_div_nonneg by lia. zdm.
Qed.

(** The twelve months, one by one. *)
Tactic Notation "each_month" ident(m) tactic(tac) := do 12 (destruct m as [|m]; [solve [tac]|]); lia.

(** The tables agree with the month lengths, the second one modulo a
    week. *)
Lemma month_tables year m : (m < 12)%nat ->
  exists s o, table_lookup days_to_month_start (Z.of_nat m) = Some s /\
    table_lookup weekday_offset (Z.of_nat m) = Some o /\
    days_before_month year m = s + (if (2 <=? Z.of_nat m) && gregorian_leap year then 1 else 0) /\
    (if Z.of_nat m <? 2 then 1 else 0) <= o /\
    (s - o + (if Z.of_nat m <? 2 then 1 else 0)) mod 7 = 0.
Proof.
  intros Hm. each_month m (do 2 eexists; splits; [reflexivity|reflexivity| |apply Z.leb_le; reflexivity|reflexivity];
    cbn [days_before_month month_length]; destruct (gregorian_leap year); reflexivity).
Qed.

Lemma mktime_day t : 0 <= tm_year t -> 0 <= tm_mon t < 12 -> 1 <= tm_mday t ->
  let day := day_number (Z.to_nat (tm_year t)) (Z.to_nat (tm_mon t)) (tm_mday t) in
  mktime t = Some (86400 * (day - 25567) + (tm_hour t * 3600 + tm_min t * 60 + tm_sec t),
    Tm (tm_sec t) (tm_min t) (tm_hour t) (tm_mday t) (tm_mon t) (tm_year t)
       ((day + 1) mod 7) (day - days_before_year (Z.to_nat (tm_year t)))).
Proof.
  destruct t as [sec mi hour mday mon year wday yday]. cbn [tm_sec tm_min tm_hour tm_mday tm_mon tm_year].
  intros Hy Hm Hd.
  destruct (month_tables (1900 + year) (Z.to_nat mon)) as (s & o & Es & Eo & Em & Ho & Hw); [lia|].
  rewrite Z2Nat.id in * by lia. unfold mktime, day_of_week. cbn [tm_sec tm_min tm_hour tm_mday tm_mon tm_year].
  rewrite Es, Eo. cbn [mbind option_bind]. rewrite is_leap_year_gregorian by lia.
  unfold day_number. rewrite !Z2Nat.id, Em, days_before_year_formula, Z2Nat.id by lia.
  pose proof (leap_years_nonneg (year - 1) ltac:(lia)) as L1. pose proof (leap_years_nonneg year ltac:(lia)) as L2.
  pose proof (leap_years_step year Hy) as Ls.
  set (g := gregorian_leap (1900 + year)) in *. clearbody g.
  do 2 f_equal; [destruct (2 <=? mon), g; cbn [andb]; lia|].
  f_equal; [|destruct (2 <=? mon), g; cbn [andb]; lia].
  rewrite Z.rem_mod_nonneg by (zcases; lia).
  destruct (Z.ltb_spec mon 2), (Z.leb_spec 2 mon), g; cbn [andb]; try lia; zdm.
Qed.

(** For every date from 1900 on, [mktime] returns the seconds since
    1 January 1970 counted with the Gregorian calendar, and stores the day
    of the week (1 January 1900 was a Monday) and the day of the year. *)
Theorem mktime_calendar t : 0 <= tm_year t -> 0 <= tm_mon t < 12 -> 1 <= tm_mday t ->
  let day := day_number (Z.to_nat (tm_year t)) (Z.to_nat (tm_mon t)) (tm_mday t) in
  mktime t = Some (86400 * (day - day_number 70 0 1) + (tm_hour t * 3600 + tm_min t * 60 + tm_sec t),
    Tm (tm_sec t) (tm_min t) (tm_hour t) (tm_mday t) (tm_mon t) (tm_year t)
       ((day + 1) mod 7) (day - days_before_year (Z.to_nat (tm_year t)))).
Proof. exact (mktime_day t). Qed.

(** Noon of 29 February 2000, a Tuesday and the 60th day of its year. *)
Lemma mktime_calendar_witness :
  mktime (Tm 0 0 12 29 1 100 0 0) = Some (951825600, Tm 0 0 12 29 1 100 2 59).
Proof.
  exact (mktime_calendar (Tm 0 0 12 29 1 100 0 0) ltac:(done) ltac:(done) ltac:(done)).
Defined.
