(* ===== verification/Asn1.v ===== *)
(** * ASN.1 (crypto/asn1.c, include/ipxe/asn1.h).

    A cursor is a pointer and a length.  The pointer is modelled by the
    bytes readable from it on, which go on behind the object the cursor
    covers, so that a read outside the buffer is the failure [None] and a
    read outside the object only is not.  Every parsing function returns
    its status and the cursor as it leaves it; errors are values, and the
    invalid cursor of [asn1_invalidate_cursor] makes them permanent.  The
    builder grows towards the front of its buffer; whether a [realloc]
    succeeds is an argument.

    The theorems: no parsing function reads outside the buffer and every
    cursor it leaves stays inside it; an object built by the builder is
    entered, skipped and shrunk back to exactly its contents, what
    follows and itself; integers of up to four bytes have their two's
    complement value; a time is the calendar's. *)

From S2P Require Import Prelude Strings Time.

Abbreviation result A := (A + errno)%type.

(** ** Types and cursors. *)

Definition ASN1_END : Z := 0.
Definition ASN1_BOOLEAN : Z := 1.
Definition ASN1_INTEGER : Z := 2.
Definition ASN1_BIT_STRING : Z := 3.
Definition ASN1_OCTET_STRING : Z := 4.
Definition ASN1_NULL : Z := 5.
Definition ASN1_OID : Z := 6.
Definition ASN1_ENUMERATED : Z := 10.
Definition ASN1_UTC_TIME : Z := 23.
Definition ASN1_GENERALIZED_TIME : Z := 24.
Definition ASN1_SEQUENCE : Z := 48.
Definition ASN1_SET : Z := 49.
Definition ASN1_IMPLICIT_TAG (number : Z) : Z := Z.lor 128 number.
Definition ASN1_EXPLICIT_TAG (number : Z) : Z := Z.lor 160 number.
Definition ASN1_ANY : Z := 2 ^ 32 - 1.

Record asn1_cursor := Cursor { cur_data : list Z; cur_len : Z }.

(** The static two-byte array an invalid cursor points to. *)
Definition asn1_invalid_cursor : asn1_cursor := Cursor [ASN1_END; 0] 0.

Definition asn1_type (cursor : asn1_cursor) : option Z := head (cur_data cursor).

(** The bytes a cursor covers. *)
Definition contents (cursor : asn1_cursor) : list Z := take (Z.to_nat (cur_len cursor)) (cur_data cursor).

(** ** Entering, skipping and shrinking. *)

Fixpoint asn1_read_len (len_len : nat) (len : Z) (data : list Z) : option (Z * list Z) :=
  match len_len with
  | O => Some (len, data)
  | S len_len' =>
      match data with
      | [] => None
      | b :: data' => asn1_read_len len_len' (Z.lor (u32 (Z.shiftl len 8)) b) data'
      end
  end.

Definition asn1_start (cursor : asn1_cursor) (type : Z) : option (result Z * asn1_cursor) :=
  if cur_len cursor <? 2 then Some (inr EINVAL_ASN1_EMPTY, cursor)
  else
    tag ← asn1_type cursor;
    if negb (type =? ASN1_ANY) && negb (type =? tag) then Some (inr ENXIO, cursor)
    else
      let data := tail (cur_data cursor) in
      let len := cur_len cursor - 1 in
      first ← head data;
      let '(len_len, data, len) :=
        if ctrue (Z.land first 128) then (Z.land first 127, tail data, len - 1) else (1, data, len) in
      if len <? len_len then Some (inr EINVAL_ASN1_LEN_LEN, Cursor data len)
      else
        p ← asn1_read_len (Z.to_nat len_len) 0 data;
        let '(body, data) := p in
        let cursor' := Cursor data (len - len_len) in
        if len - len_len <? body then Some (inr EINVAL_ASN1_LEN, cursor')
        else Some (if s32 body <? 0 then inr (ELENGTH (s32 body)) else inl body, cursor').

Definition asn1_enter (cursor : asn1_cursor) (type : Z) : option (rc * asn1_cursor) :=
  p ← asn1_start cursor type;
  match p with
  | (inl len, cursor') => Some (RC_OK, Cursor (cur_data cursor') len)
  | (inr e, _) => Some (RC_ERR e, asn1_invalid_cursor)
  end.

Definition asn1_skip_if_exists (cursor : asn1_cursor) (type : Z) : option (rc * asn1_cursor) :=
  p ← asn1_start cursor type;
  match p with
  | (inl len, cursor') =>
      let cursor'' := Cursor (drop (Z.to_nat len) (cur_data cursor')) (cur_len cursor' - len) in
      Some (if cur_len cursor'' =? 0 then RC_ERR ENOENT else RC_OK, cursor'')
  | (inr e, cursor') => Some (RC_ERR e, cursor')
  end.

Definition asn1_skip (cursor : asn1_cursor) (type : Z) : option (rc * asn1_cursor) :=
  p ← asn1_skip_if_exists cursor type;
  match p with
  | (RC_OK, cursor') => Some (RC_OK, cursor')
  | (RC_ERR e, _) => Some (RC_ERR e, asn1_invalid_cursor)
  end.

(** [end - cursor->data] is the length of the header and the body. *)
Definition asn1_shrink (cursor : asn1_cursor) (type : Z) : option (rc * asn1_cursor) :=
  p ← asn1_start cursor type;
  match p with
  | (inl len, temp) => Some (RC_OK, Cursor (cur_data cursor) (zlen (cur_data cursor) - zlen (cur_data temp) + len))
  | (inr e, _) => Some (RC_ERR e, asn1_invalid_cursor)
  end.

Definition asn1_enter_any (cursor : asn1_cursor) : option (rc * asn1_cursor) := asn1_enter cursor ASN1_ANY.
Definition asn1_skip_any (cursor : asn1_cursor) : option (rc * asn1_cursor) := asn1_skip cursor ASN1_ANY.
Definition asn1_shrink_any (cursor : asn1_cursor) : option (rc * asn1_cursor) := asn1_shrink cursor ASN1_ANY.

(** ** Values. *)

Definition asn1_boolean (cursor : asn1_cursor) : option (result Z) :=
  p ← asn1_enter cursor ASN1_BOOLEAN;
  if negb (cur_len p.2 =? 1) then Some (inr EINVAL_ASN1_BOOLEAN)
  else value ← head (cur_data p.2); Some (inl value).

(** The value is an [int] shifted left by a byte per turn. *)
Fixpoint asn1_integer_loop (len : nat) (data : list Z) (value : Z) : option (result Z) :=
  match len with
  | O => Some (inl value)
  | S len' =>
      let high_byte := u8 (Z.shiftr value 24) in
      if negb (high_byte =? 0) && negb (high_byte =? 255) then Some (inr EINVAL_ASN1_INTEGER)
      else
        match data with
        | [] => None
        | b :: data' => asn1_integer_loop len' data' (s32 (Z.lor (Z.shiftl value 8) b))
        end
  end.

Definition asn1_integer (cursor : asn1_cursor) : option (result Z) :=
  p ← asn1_enter cursor ASN1_INTEGER;
  match p with
  | (RC_ERR e, _) => Some (inr e)
  | (RC_OK, c) =>
      if cur_len c <? 1 then Some (inr EINVAL_ASN1_INTEGER)
      else
        b ← head (cur_data c);
        asn1_integer_loop (Z.to_nat (cur_len c - 1)) (tail (cur_data c)) (signed 8 b)
  end.

Record asn1_bit_string_t := BitString { bits_data : list Z; bits_len : Z; bits_unused : Z }.

(** [last] is the byte before the end of the string, which is the byte of
    unused bits when the string is empty.  The mask is computed before the
    count of unused bits is checked. *)
Definition asn1_bit_string (cursor : asn1_cursor) : option (result asn1_bit_string_t) :=
  p ← asn1_enter cursor ASN1_BIT_STRING;
  match p with
  | (RC_ERR e, _) => Some (inr e)
  | (RC_OK, c) =>
      if cur_len c <? 1 then Some (inr EINVAL_BIT_STRING)
      else
        unused ← head (cur_data c);
        let len := cur_len c - 1 in
        if (8 <=? unused) || ((0 <? unused) && (len =? 0)) then Some (inr EINVAL_BIT_STRING)
        else
          let unused_mask := u8 (Z.shiftr 255 (8 - unused)) in
          last ← cur_data c !! Z.to_nat len;
          if negb (Z.land last unused_mask =? 0) then Some (inr EINVAL_BIT_STRING)
          else Some (inl (BitString (tail (cur_data c)) len unused))
  end.

Definition asn1_integral_bit_string (cursor : asn1_cursor) : option (result asn1_bit_string_t) :=
  r ← asn1_bit_string cursor;
  match r with
  | inr e => Some (inr e)
  | inl bits => Some (if ctrue (bits_unused bits) then inr EINVAL_BIT_STRING else inl bits)
  end.

(** Whether the difference is zero: the lengths first, then the bytes. *)
Definition asn1_compare_eq (cursor1 cursor2 : asn1_cursor) : bool :=
  (cur_len cursor2 - cur_len cursor1 =? 0) && bool_decide (contents cursor1 = take (Z.to_nat (cur_len cursor1)) (cur_data cursor2)).

(** ** Algorithms.
    An algorithm names its public-key and digest parts; the table is the
    linker's, in the order the objects are linked. *)

Record asn1_algorithm_t (P D : Type) := Algorithm { alg_oid : list Z; alg_pubkey : option P; alg_digest : option D }.
Arguments Algorithm {P D}.
Arguments alg_oid {P D}.
Arguments alg_pubkey {P D}.
Arguments alg_digest {P D}.

Definition oid_cursor (oid : list Z) : asn1_cursor := Cursor oid (zlen oid).

Section Algorithms.
Context {P D : Type} (ASN1_ALGORITHMS : list (asn1_algorithm_t P D)).

Definition asn1_find_algorithm (cursor : asn1_cursor) : option (asn1_algorithm_t P D) :=
  head (filter (fun a => asn1_compare_eq (oid_cursor (alg_oid a)) cursor = true) ASN1_ALGORITHMS).

Definition asn1_algorithm (cursor : asn1_cursor) : option (result (asn1_algorithm_t P D)) :=
  p ← asn1_enter cursor ASN1_SEQUENCE;
  q ← asn1_enter p.2 ASN1_OID;
  match q with
  | (RC_ERR _, _) => Some (inr EINVAL_ASN1_ALGORITHM)
  | (RC_OK, c) => Some (match asn1_find_algorithm c with Some a => inl a | None => inr ENOTSUP_ALGORITHM end)
  end.

Definition asn1_pubkey_algorithm (cursor : asn1_cursor) : option (result (asn1_algorithm_t P D)) :=
  r ← asn1_algorithm cursor;
  match r with
  | inr e => Some (inr e)
  | inl a => Some (if alg_pubkey a then inl a else inr ENOTTY_ALGORITHM)
  end.

Definition asn1_digest_algorithm (cursor : asn1_cursor) : option (result (asn1_algorithm_t P D)) :=
  r ← asn1_algorithm cursor;
  match r with
  | inr e => Some (inr e)
  | inl a => Some (if alg_digest a then inl a else inr ENOTTY_ALGORITHM)
  end.

Definition asn1_signature_algorithm (cursor : asn1_cursor) : option (result (asn1_algorithm_t P D)) :=
  r ← asn1_algorithm cursor;
  match r with
  | inr e => Some (inr e)
  | inl a => Some (if alg_pubkey a then (if alg_digest a then inl a else inr ENOTTY_ALGORITHM) else inr ENOTTY_ALGORITHM)
  end.

End Algorithms.

(** ** Times.
    The loop over the pairs of digits; [n] pairs are left.  The inner
    [None] is the error. *)
Fixpoint time_pairs (n : nat) (data : list Z) (remaining : Z) : option (option (list Z * list Z * Z)) :=
  match n with
  | O => Some (Some ([], data, remaining))
  | S n' =>
      if remaining <? 2 then Some (if (n' =? 0)%nat then Some ([], data, remaining) else None)
      else
        match data with
        | tens :: units :: data' =>
            if isdigit tens && isdigit units then
              r ← time_pairs n' data' (remaining - 2);
              Some ('(pairs, d, rem) ← r; Some (u8 (10 * (tens - 48) + (units - 48)) :: pairs, d, rem))
            else Some None
        | _ => None
        end
  end.

(** The broken-down time of the seven pairs, those not read being zero. *)
Definition time_of_pairs (have_century : bool) (pairs : list Z) : tm :=
  let raw i := nth i ((if have_century then [] else [0]) ++ pairs) 0 in
  let year := raw 1%nat in
  let century := if have_century then raw 0%nat else if 50 <=? year then 19 else 20 in
  Tm (raw 6%nat) (raw 5%nat) (raw 4%nat) (raw 3%nat) (raw 2%nat - 1) ((century - 19) * 100 + year) 0 0.

Definition asn1_generalized_time (cursor : asn1_cursor) : option (result Z) :=
  type ← asn1_type cursor;
  if negb (type =? ASN1_UTC_TIME) && negb (type =? ASN1_GENERALIZED_TIME) then Some (inr EINVAL_ASN1_TIME)
  else
    let have_century := type =? ASN1_GENERALIZED_TIME in
    p ← asn1_enter cursor type;
    match p with
    | (RC_ERR e, _) => Some (inr e)
    | (RC_OK, c) =>
        r ← time_pairs (if have_century then 7 else 6) (cur_data c) (cur_len c);
        match r with
        | None => Some (inr EINVAL_ASN1_TIME)
        | Some (pairs, data, remaining) =>
            if negb (remaining =? 1) then Some (inr EINVAL_ASN1_TIME)
            else
              z ← head data;
              if negb (z =? 90) then Some (inr EINVAL_ASN1_TIME)
              else t ← mktime (time_of_pairs have_century pairs); Some (inl t.1)
        end
    end.

(** ** The builder. *)

(** Bytes of a length, most significant first and without leading zeros:
    the two loops over [temp >>= 8].  Eight bytes are enough for a
    [size_t]. *)
Fixpoint len_bytes (fuel : nat) (temp : Z) : list Z :=
  match fuel with
  | O => []
  | S fuel' => if temp =? 0 then [] else len_bytes fuel' (Z.shiftr temp 8) ++ [Z.land temp 255]
  end.

Definition asn1_header (type len : Z) : list Z :=
  if len <? 128 then [u8 type; len]
  else let bytes := len_bytes 8 len in u8 type :: Z.lor 128 (zlen bytes) :: bytes.

(** [None] is the NULL pointer. *)
Record asn1_builder := Builder { b_data : option (list Z); b_len : Z }.

(** Grow by [length front] bytes, which are then filled in.  [ok] says
    whether [realloc] succeeds; a request of no bytes always does. *)
Definition asn1_grow (builder : asn1_builder) (ok : bool) (front : list Z) : rc * asn1_builder :=
  if ctrue (b_len builder) && negb (bool_decide (is_Some (b_data builder))) then (RC_ERR ENOMEM, builder)
  else
    let new_len := u32 (b_len builder + zlen front) in
    if ok || (new_len =? 0) then (RC_OK, Builder (Some (front ++ default [] (b_data builder))) new_len)
    else (RC_ERR ENOMEM, Builder None (b_len builder)).

Definition asn1_prepend_raw (builder : asn1_builder) (ok : bool) (data : list Z) : rc * asn1_builder :=
  asn1_grow builder ok data.

Definition asn1_prepend (builder : asn1_builder) (ok : bool) (type : Z) (data : list Z) : rc * asn1_builder :=
  asn1_grow builder ok (asn1_header type (zlen data) ++ data).

Definition asn1_wrap (builder : asn1_builder) (ok : bool) (type : Z) : rc * asn1_builder :=
  asn1_grow builder ok (asn1_header type (b_len builder)).

(** ** Cursors inside a buffer. *)

Definition cursor_ok (c : asn1_cursor) : Prop :=
  bytes_ok (cur_data c) /\ 0 <= cur_len c <= zlen (cur_data c) /\ zlen (cur_data c) < 2 ^ 32.

(** [c'] is a cursor that covers a part of what [c] covers, or nothing. *)
Definition inside (c c' : asn1_cursor) : Prop :=
  cursor_ok c' /\
  (cur_len c' = 0 \/ exists k, cur_data c' = drop k (cur_data c) /\ Z.of_nat k + cur_len c' <= cur_len c).

Lemma invalid_ok : cursor_ok asn1_invalid_cursor.
Proof. unfold cursor_ok. cbn. splits; try lia. repeat apply Forall_cons_2; [unfold is_byte, ASN1_END; lia..|constructor]. Qed.

Lemma inside_invalid c : inside c asn1_invalid_cursor.
Proof. split; [apply invalid_ok|by left]. Qed.

Lemma inside_drop c k len : cursor_ok c -> 0 <= len -> Z.of_nat k + len <= cur_len c ->
  inside c (Cursor (drop k (cur_data c)) len).
Proof.
  intros (Hb & Hl & Hz) Hn Hk. split; [|right; by exists k].
  unfold cursor_ok. cbn. rewrite length_drop. splits; [by apply Forall_drop|lia..].
Qed.

Lemma inside_refl c : cursor_ok c -> inside c c.
Proof. intros H. split; [done|]. right. exists 0%nat. rewrite drop_0. split; [done|lia]. Qed.

Lemma inside_trans a b c : inside a b -> inside b c -> inside a c.
Proof.
  intros (_ & Hb) [(Oc & Lc & Zc) Hc]. split; [done|].
  destruct Hc as [|(j & E' & L')]; [by left|]. destruct Hb as [|(k & E & L)]; [left; lia|].
  right. exists (k + j)%nat. rewrite E', E, drop_drop. split; [done|lia].
Qed.

#[export] Hint Resolve invalid_ok inside_invalid inside_refl : wpxe.

(** ** The header. *)

Lemma read_len_safe n len data : bytes_ok data -> (n <= length data)%nat -> 0 <= len < 2 ^ 32 ->
  exists v, asn1_read_len n len data = Some (v, drop n data) /\ 0 <= v < 2 ^ 32.
Proof.
  revert len data. induction n as [|n IH]; intros len data Hd L Hl; [by exists len; rewrite drop_0|].
  destruct Hd as [|b data Hb Hd]; [cbn in L; lia|]. cbn [asn1_read_len drop]. apply IH; [done|cbn in L; lia|].
  apply lor_range; [lia|apply wrap_range; lia|unfold is_byte in Hb; lia].
Qed.

Lemma asn1_start_spec c type : cursor_ok c ->
  exists r c' k, asn1_start c type = Some (r, c') /\ cur_data c' = drop k (cur_data c) /\
    0 <= cur_len c' /\ Z.of_nat k + cur_len c' = cur_len c /\
    forall len, r = inl len -> 0 <= len <= cur_len c' /\ (2 <= k)%nat.
Proof.
  intros (Hb & Hl & Hz). destruct c as [data n]. cbn [cur_data cur_len] in *. unfold asn1_start. cbn [cur_data cur_len].
  destruct (Z.ltb_spec n 2); [eexists _, _, 0%nat; splits; [done|done|cbn; lia|cbn; lia|done]|].
  destruct data as [|tag [|first data]]; [cbn in Hl; lia..|]. cbn [asn1_type head cur_data mbind option_bind tail].
  assert (is_byte first) as Hf by (by apply Forall_cons in Hb as [_ [? _]%Forall_cons]). cbn [length] in Hl.
  destruct (_ && _); [eexists _, _, 0%nat; splits; [done|done|cbn; lia|cbn; lia|done]|].
  unfold is_byte in Hf. assert (0 <= Z.land first 127) as R by (apply Z.land_nonneg; lia).
  set (q := if ctrue (Z.land first 128) then _ else _).
  assert (exists j, q = (q.1.1, drop j (tag :: first :: data), n - Z.of_nat j) /\ (1 <= j <= 2)%nat /\ 0 <= q.1.1 /\
    (j = 1%nat -> q.1.1 = 1)) as (j & -> & Hj & Hq & Hq1).
  { subst q. destruct (ctrue _); [exists 2%nat; replace (n - 1 - 1) with (n - Z.of_nat 2) by lia|exists 1%nat];
      (splits; [done|lia|cbn; lia|cbn; lia|cbn; lia]). }
  set (len_len := q.1.1) in *. clearbody len_len. clear q. cbn [fst] in Hq, Hq1.
  destruct (Z.ltb_spec (n - Z.of_nat j) len_len);
    [eexists _, _, j; splits; [done|done|cbn; lia|cbn; lia|done]|].
  destruct (read_len_safe (Z.to_nat len_len) 0 (drop j (tag :: first :: data))) as (v & -> & Hv).
  - by apply Forall_drop.
  - rewrite length_drop. cbn [length]. lia.
  - lia.
  - cbn [mbind option_bind]. rewrite drop_drop.
    destruct (Z.ltb_spec (n - Z.of_nat j - len_len) v);
      (eexists _, _, (j + Z.to_nat len_len)%nat; splits; [done|done|cbn [cur_len]; lia|cbn [cur_len]; lia|]); [done|].
    intros len. cbn [cur_len]. unfold signed. rewrite wrap_small by lia. change (2 ^ (32 - 1)) with 2147483648.
    change (2 ^ 32) with 4294967296. zcases; intros E; simplify_eq; lia.
Qed.

(** ** Safety of every parsing function. *)

Lemma asn1_enter_safe c type : cursor_ok c -> exists r c', asn1_enter c type = Some (r, c') /\ inside c c'.
Proof.
  intros Hc. destruct (asn1_start_spec c type Hc) as (r & c' & k & E & D & L & S & F). unfold asn1_enter. rewrite E.
  destruct r as [len|e]; cbn; [|eauto with wpxe]. destruct (F len eq_refl) as [Hl Hk].
  rewrite D. eexists _, _. split; [done|]. apply inside_drop; [done|lia|lia].
Qed.

Lemma asn1_skip_if_exists_safe c type : cursor_ok c ->
  exists r c', asn1_skip_if_exists c type = Some (r, c') /\ inside c c'.
Proof.
  intros Hc. destruct (asn1_start_spec c type Hc) as (r & c' & k & E & D & L & S & F). unfold asn1_skip_if_exists. rewrite E.
  destruct r as [len|e]; cbn [mbind option_bind].
  - destruct (F len eq_refl) as [Hl Hk]. rewrite D, drop_drop. eexists _, _. split; [done|].
    apply inside_drop; [done|lia|lia].
  - eexists _, _. split; [done|]. destruct c' as [d n]. cbn [cur_data cur_len] in *. subst d. apply inside_drop; [done|lia|lia].
Qed.

Lemma asn1_skip_safe c type : cursor_ok c -> exists r c', asn1_skip c type = Some (r, c') /\ inside c c'.
Proof.
  intros Hc. destruct (asn1_skip_if_exists_safe c type Hc) as ([|e] & c' & E & I); unfold asn1_skip; rewrite E; cbn;
    eauto with wpxe.
Qed.

Lemma asn1_shrink_safe c type : cursor_ok c -> exists r c', asn1_shrink c type = Some (r, c') /\ inside c c'.
Proof.
  intros Hc. destruct (asn1_start_spec c type Hc) as (r & c' & k & E & D & L & S & F). unfold asn1_shrink. rewrite E.
  destruct r as [len|e]; cbn [mbind option_bind]; [|eauto with wpxe]. destruct (F len eq_refl) as [Hl Hk].
  destruct Hc as (Hb & Hn & Hz). rewrite D, length_drop. eexists _, _. split; [done|].
  pose proof (inside_drop c 0 (Z.of_nat k + len) ltac:(done) ltac:(lia) ltac:(lia)) as H. rewrite drop_0 in H.
  replace (zlen (cur_data c) - Z.of_nat (length (cur_data c) - k) + len) with (Z.of_nat k + len) by lia. done.
Qed.

Lemma covered_byte c (i : nat) : cursor_ok c -> Z.of_nat i < cur_len c -> is_Some (cur_data c !! i).
Proof. intros (_ & H & _) Hi. apply lookup_lt_is_Some. lia. Qed.

Lemma integer_loop_safe n data v : (n <= length data)%nat -> is_Some (asn1_integer_loop n data v).
Proof.
  revert data v. induction n as [|n IH]; intros data v L; cbn [asn1_integer_loop]; [done|].
  destruct (_ && _); [done|]. destruct data as [|b data]; [cbn in L; lia|]. apply IH. cbn in L. lia.
Qed.

Lemma asn1_integer_safe c : cursor_ok c -> is_Some (asn1_integer c).
Proof.
  intros Hc. unfold asn1_integer. destruct (asn1_enter_safe c ASN1_INTEGER Hc) as ([|e] & [d n] & -> & (Hb & Hn & Hz) & _);
    cbn [mbind option_bind cur_data cur_len] in *; [|done].
  destruct (Z.ltb_spec n 1); [done|]. destruct d as [|b d]; [cbn in Hn; lia|]. cbn [head tail mbind option_bind].
  apply integer_loop_safe. cbn [length] in Hn. lia.
Qed.

Lemma asn1_boolean_safe c : cursor_ok c -> is_Some (asn1_boolean c).
Proof.
  intros Hc. unfold asn1_boolean. destruct (asn1_enter_safe c ASN1_BOOLEAN Hc) as (r & [d n] & -> & (Hb & Hn & Hz) & _).
  cbn [mbind option_bind cur_data cur_len snd] in *.
  destruct (Z.eqb_spec n 1); [|done]. destruct d as [|b d]; [cbn in Hn; lia|]. done.
Qed.

Lemma asn1_bit_string_safe c : cursor_ok c ->
  exists r, asn1_bit_string c = Some r /\
    forall bits, r = inl bits -> inside c (Cursor (bits_data bits) (bits_len bits)).
Proof.
  intros Hc. unfold asn1_bit_string.
  destruct (asn1_enter_safe c ASN1_BIT_STRING Hc) as ([|e] & [d n] & -> & I); cbn [mbind option_bind cur_data cur_len];
    [|by eexists]. destruct (Z.ltb_spec n 1); [by eexists|].
  pose proof (proj1 I) as Hi. destruct d as [|unused d]; [destruct Hi as (_ & H' & _); cbn in H'; lia|].
  cbn [head tail mbind option_bind].
  destruct (_ || _); [by eexists|].
  destruct (covered_byte _ (Z.to_nat (n - 1)) Hi) as [last E]; [cbn [cur_len]; lia|]. cbn [cur_data] in E. rewrite E.
  cbn [mbind option_bind]. destruct (negb _); [by eexists|]. eexists. split; [done|]. intros bits [= <-].
  eapply inside_trans; [exact I|]. apply (inside_drop (Cursor (unused :: d) n) 1); [done|cbn; lia|cbn; lia].
Qed.

(** ** Objects with a header. *)

Lemma be_val_snoc l b : be_val (l ++ [b]) = 256 * be_val l + b.
Proof.
  induction l as [|x l IH]; [cbn; lia|]. cbn [app be_val]. rewrite IH, length_app. cbn [length].
  replace (8 * Z.of_nat (length l + 1)) with (8 + 8 * zlen l) by lia. rewrite Z.pow_add_r by lia.
  change (2 ^ 8) with 256. lia.
Qed.

Lemma len_bytes_spec fuel x : 0 <= x < 2 ^ (8 * Z.of_nat fuel) ->
  be_val (len_bytes fuel x) = x /\ bytes_ok (len_bytes fuel x) /\ (length (len_bytes fuel x) <= fuel)%nat /\
  (0 < x -> (0 < length (len_bytes fuel x))%nat).
Proof.
  revert x. induction fuel as [|fuel IH]; intros x Hx.
  - cbn in Hx. splits; [cbn; lia|constructor|done|lia].
  - cbn [len_bytes]. destruct (Z.eqb_spec x 0) as [->|Hn]; [splits; [done|constructor|cbn; lia|lia]|].
    replace (8 * Z.of_nat (S fuel)) with (8 + 8 * Z.of_nat fuel) in Hx by lia. rewrite Z.pow_add_r in Hx by lia.
    change (2 ^ 8) with 256 in Hx. change 255 with (Z.ones 8). rewrite Z.land_ones, Z.shiftr_div_pow2 by lia. change (2 ^ 8) with 256.
    destruct (IH (x / 256)) as (V & Hb & L & _); [split; [apply Z.div_pos; lia|apply Z.div_lt_upper_bound; lia]|].
    rewrite be_val_snoc, V, length_app. cbn [length]. splits; [zdm| |lia|lia].
    apply Forall_app. split; [done|]. constructor; [apply Z.mod_pos_bound; lia|constructor].
Qed.

Lemma read_len_value l acc rest : bytes_ok l -> 0 <= acc -> acc * 2 ^ (8 * zlen l) + be_val l < 2 ^ 32 ->
  asn1_read_len (length l) acc (l ++ rest) = Some (acc * 2 ^ (8 * zlen l) + be_val l, rest).
Proof.
  intros Hl. revert acc. induction Hl as [|b l Hb Hl IH]; intros acc Ha B; [cbn; do 2 f_equal; lia|].
  cbn [length be_val asn1_read_len app] in *.
  replace (8 * Z.of_nat (S (length l))) with (8 + 8 * zlen l) in * by lia.
  rewrite Z.pow_add_r in * by lia. change (2 ^ 8) with 256 in *.
  pose proof (be_val_range l Hl). pose proof (Z.pow_pos_nonneg 2 (8 * zlen l)).
  assert (u32 (Z.shiftl acc 8) = Z.shiftl acc 8) as ->.
  { rewrite wrap_small; [done|]. rewrite Z.shiftl_mul_pow2 by lia. change (2 ^ 8) with 256. unfold is_byte in Hb. nia. }
  rewrite lor_byte by done. unfold is_byte in Hb. rewrite IH by nia. do 2 f_equal. lia.
Qed.

Lemma header_bytes type len : 0 <= type < 256 -> 0 <= len < 2 ^ 31 ->
  exists first l, asn1_header type len = type :: first :: l /\ is_byte first /\ bytes_ok l /\
    (first = len /\ l = [] /\ len < 128 \/
     first = 128 + zlen l /\ be_val l = len /\ (1 <= length l <= 8)%nat).
Proof.
  intros Ht Hl. unfold asn1_header. rewrite (wrap_small 8) by lia. destruct (Z.ltb_spec len 128).
  - exists len, []. splits; [done|unfold is_byte; lia|constructor|by left].
  - destruct (len_bytes_spec 8 len) as (V & Hb & L & P); [cbn in *; lia|].
    specialize (P ltac:(lia)). set (l := len_bytes 8 len) in *. clearbody l.
    assert (Z.lor 128 (zlen l) = 128 + zlen l) as -> by (do 9 (destruct l as [|? l]; [done|]); cbn in L; lia).
    exists (128 + zlen l), l. splits; [done|unfold is_byte; lia|done|right; splits; done || lia].
Qed.

Lemma byte_high b : is_byte b -> ctrue (Z.land b 128) = (128 <=? b) /\ (128 <= b -> Z.land b 127 = b - 128).
Proof.
  intros Hb. assert (Forall (fun b => ctrue (Z.land b 128) = (128 <=? b) /\ (128 <= b -> Z.land b 127 = b - 128)) (seqZ 0 256)) as H
    by by_decide.
  rewrite Forall_forall in H. apply H, elem_of_seqZ. unfold is_byte in Hb. lia.
Qed.

(** What [asn1_start] makes of an object the builder produced. *)
Lemma asn1_start_object type t body rest n : 0 <= type < 256 -> t = type \/ t = ASN1_ANY -> zlen body < 2 ^ 31 ->
  let header := asn1_header type (zlen body) in
  zlen header + zlen body <= n ->
  asn1_start (Cursor (header ++ body ++ rest) n) t = Some (inl (zlen body), Cursor (body ++ rest) (n - zlen header)).
Proof.
  intros Ht Htt Hb header Hn. subst header.
  destruct (header_bytes type (zlen body) Ht ltac:(lia)) as (first & l & E & Hf & Hl & C). rewrite E in *.
  cbn [length app] in *. unfold asn1_start. cbn [cur_data cur_len asn1_type head tail mbind option_bind].
  destruct (Z.ltb_spec n 2); [lia|].
  assert (negb (t =? ASN1_ANY) && negb (t =? type) = false) as -> by (destruct Htt as [->| ->]; rewrite Z.eqb_refl; cbn; [apply andb_false_r|done]).
  assert (s32 (zlen body) <? 0 = false) as Hs.
  { rewrite (signed_small 32) by (change (32 - 1) with 31; lia). by apply Z.ltb_ge; lia. }
  destruct (byte_high first Hf) as [Hh Hlow]. rewrite Hh.
  destruct C as [(-> & -> & Hlt)|(-> & V & L)].
  - destruct (Z.leb_spec 128 (zlen body)); [lia|]. destruct (Z.ltb_spec (n - 1) 1); [cbn in Hn; lia|]. cbn [app].
    change (asn1_read_len (Z.to_nat 1) 0 (zlen body :: body ++ rest))
      with (asn1_read_len (length [zlen body]) 0 ([zlen body] ++ body ++ rest)).
    rewrite read_len_value; [|repeat constructor; apply Hf|lia|cbn; lia]. cbn [mbind option_bind]. cbn in Hn.
    replace (0 * 2 ^ (8 * zlen [zlen body]) + be_val [zlen body]) with (zlen body) by (cbn; lia).
    destruct (Z.ltb_spec (n - 1 - 1) (zlen body)); [lia|]. rewrite Hs. do 3 f_equal. cbn. lia.
  - rewrite (Hlow ltac:(lia)). replace (128 + zlen l - 128) with (zlen l) by lia.
    destruct (Z.leb_spec 128 (128 + zlen l)); [|lia]. destruct (Z.ltb_spec (n - 1 - 1) (zlen l)); [lia|].
    rewrite Nat2Z.id, read_len_value by (done || lia). cbn [mbind option_bind]. rewrite V, Z.mul_0_l, Z.add_0_l.
    destruct (Z.ltb_spec (n - 1 - 1 - zlen l) (zlen body)); [lia|]. rewrite Hs. do 3 f_equal. lia.
Qed.

(** ** Integers. *)

(** Two's complement value of the bytes of an integer. *)
Definition twos_complement (l : list Z) : Z :=
  match l with
  | [] => 0
  | b :: _ => if b <? 128 then be_val l else be_val l - 2 ^ (8 * zlen l)
  end.

Lemma small_high_byte v : - 2 ^ 23 <= v < 2 ^ 23 ->
  negb (u8 (Z.shiftr v 24) =? 0) && negb (u8 (Z.shiftr v 24) =? 255) = false.
Proof.
  intros Hv. rewrite Z.shiftr_div_pow2 by lia. unfold wrap.
  assert (v / 2 ^ 24 = 0 \/ v / 2 ^ 24 = -1) as [-> | ->]; [|done|done].
  change (2 ^ 24) with 16777216. change (2 ^ 23) with 8388608 in Hv. zdm.
Qed.

Lemma lor_byte_signed v b : is_byte b -> Z.lor (Z.shiftl v 8) b = v * 256 + b.
Proof.
  intros Hb. unfold is_byte in Hb. rewrite <- Z.add_lor_land, Z.shiftl_mul_pow2 by lia. change (2 ^ 8) with 256.
  enough (Z.land (v * 256) b = 0) by lia. apply Z.bits_inj'. intros n Hn. rewrite Z.land_spec, Z.testbit_0_l.
  destruct (Z.ltb_spec n 8); [rewrite (Z.mul_pow2_bits_low v 8) by lia; done|].
  rewrite <- (Z.mod_small b (2 ^ 8)), Z.mod_pow2_bits_high by lia. apply andb_false_r.
Qed.

Lemma integer_loop_value l rest v k : bytes_ok l -> (0 < k)%nat -> (k + length l <= 4)%nat ->
  - 2 ^ (8 * Z.of_nat k - 1) <= v < 2 ^ (8 * Z.of_nat k - 1) ->
  asn1_integer_loop (length l) (l ++ rest) v = Some (inl (v * 2 ^ (8 * zlen l) + be_val l)).
Proof.
  intros Hl. revert v k. induction Hl as [|b l Hb Hl IH]; intros v k Hk L R; [cbn; do 2 f_equal; lia|].
  cbn [length asn1_integer_loop app] in *.
  assert (2 ^ (8 * Z.of_nat k - 1) <= 2 ^ 23) by (apply Z.pow_le_mono_r; lia).
  rewrite small_high_byte by lia. rewrite lor_byte_signed by done. unfold is_byte in Hb.
  rewrite s32_id by (change (2 ^ 31) with (256 * 2 ^ 23); lia).
  rewrite (IH _ (S k)); [|lia|lia|].
  - do 2 f_equal. cbn [be_val]. replace (8 * Z.of_nat (S (length l))) with (8 + 8 * zlen l) by lia.
    rewrite Z.pow_add_r by lia. change (2 ^ 8) with 256. lia.
  - replace (8 * Z.of_nat (S k) - 1) with (8 + (8 * Z.of_nat k - 1)) by lia. rewrite Z.pow_add_r by lia.
    change (2 ^ 8) with 256. lia.
Qed.

(** The check of the high byte misses a carry into the sign: five bytes
    can be accepted, with the value of the last four. *)
Lemma asn1_integer_wraps : asn1_integer (Cursor [2; 5; 0; 255; 255; 255; 255] 7) = Some (inl (-1)).
Proof. reflexivity. Qed.

(** ** Times. *)

Definition digits2 (x : Z) : list Z := [48 + x / 10; 48 + x mod 10].

Lemma time_pairs_digits ps rest r : Forall (fun x => 0 <= x < 100) ps ->
  time_pairs (length ps) (mjoin (digits2 <$> ps) ++ rest) (2 * zlen ps + Z.max 0 r) = Some (Some (ps, rest, Z.max 0 r)).
Proof.
  induction 1 as [|x ps Hx Hps IH]; [done|].
  change (mjoin (digits2 <$> x :: ps)) with (digits2 x ++ mjoin (digits2 <$> ps)). unfold digits2 at 1.
  cbn [length time_pairs app]. destruct (Z.ltb_spec (2 * Z.of_nat (S (length ps)) + Z.max 0 r) 2); [lia|].
  assert (isdigit (48 + x / 10) && isdigit (48 + x mod 10) = true) as ->.
  { unfold isdigit. rewrite !andb_true_iff, !Z.leb_le. zdm. }
  replace (2 * Z.of_nat (S (length ps)) + Z.max 0 r - 2) with (2 * zlen ps + Z.max 0 r) by lia.
  rewrite IH. cbn [mbind option_bind]. rewrite wrap_small by (change (2 ^ 8) with 256; zdm). do 5 f_equal. zdm.
Qed.

(** A month outside 1 to 12 indexes the tables of [mktime] out of
    bounds: here month 13 of 2012. *)
Lemma asn1_time_month_unchecked :
  asn1_generalized_time (Cursor (23 :: 13 :: mjoin (digits2 <$> [12; 13; 1; 0; 0; 0]) ++ [90]) 15) = None.
Proof. reflexivity. Qed.

(** ** The properties. *)

Inductive asn1_op := Enter (type : Z) | Skip (type : Z) | SkipIfExists (type : Z) | Shrink (type : Z).

Definition asn1_apply (op : asn1_op) (c : asn1_cursor) : option (rc * asn1_cursor) :=
  match op with
  | Enter t => asn1_enter c t
  | Skip t => asn1_skip c t
  | SkipIfExists t => asn1_skip_if_exists c t
  | Shrink t => asn1_shrink c t
  end.

Fixpoint asn1_run (ops : list asn1_op) (c : asn1_cursor) : option asn1_cursor :=
  match ops with
  | [] => Some c
  | op :: ops' => p ← asn1_apply op c; asn1_run ops' p.2
  end.

Lemma asn1_run_safe ops c : cursor_ok c -> exists c', asn1_run ops c = Some c' /\ inside c c'.
Proof.
  revert c. induction ops as [|op ops IH]; intros c Hc; [eexists; split; [done|by apply inside_refl]|].
  assert (exists r c1, asn1_apply op c = Some (r, c1) /\ inside c c1) as (r & c1 & E & I).
  { destruct op; [by apply asn1_enter_safe|by apply asn1_skip_safe|by apply asn1_skip_if_exists_safe|by apply asn1_shrink_safe]. }
  cbn [asn1_run]. rewrite E. cbn [mbind option_bind snd].
  destruct (IH c1 (proj1 I)) as (c' & -> & I'). exists c'. split; [done|by eapply inside_trans].
Qed.



(** A whole object as the builder lays it out. *)
Definition asn1_object (type : Z) (body : list Z) : list Z := asn1_header type (zlen body) ++ body.

Lemma asn1_enter_object type t body rest n : 0 <= type < 256 -> t = type \/ t = ASN1_ANY -> zlen body < 2 ^ 31 ->
  zlen (asn1_object type body) <= n ->
  asn1_enter (Cursor (asn1_object type body ++ rest) n) t = Some (RC_OK, Cursor (body ++ rest) (zlen body)).
Proof.
  intros Ht Htt Hb Hn. unfold asn1_object in *. rewrite length_app in Hn. rewrite <- app_assoc. unfold asn1_enter.
  rewrite (asn1_start_object type t body rest n Ht Htt Hb) by lia. done.
Qed.

Lemma asn1_skip_object type t body rest n : 0 <= type < 256 -> t = type \/ t = ASN1_ANY -> zlen body < 2 ^ 31 ->
  zlen (asn1_object type body) < n ->
  asn1_skip (Cursor (asn1_object type body ++ rest) n) t = Some (RC_OK, Cursor rest (n - zlen (asn1_object type body))).
Proof.
  intros Ht Htt Hb Hn. unfold asn1_object in *. rewrite length_app in *. rewrite <- app_assoc.
  unfold asn1_skip, asn1_skip_if_exists. rewrite (asn1_start_object type t body rest n Ht Htt Hb) by lia.
  cbn [mbind option_bind cur_data cur_len]. rewrite Nat2Z.id, drop_app_length.
  destruct (Z.eqb_spec (n - zlen (asn1_header type (zlen body)) - zlen body) 0); [lia|]. do 3 f_equal. lia.
Qed.

Lemma asn1_shrink_object type t body rest n : 0 <= type < 256 -> t = type \/ t = ASN1_ANY -> zlen body < 2 ^ 31 ->
  zlen (asn1_object type body) <= n ->
  asn1_shrink (Cursor (asn1_object type body ++ rest) n) t
  = Some (RC_OK, Cursor (asn1_object type body ++ rest) (zlen (asn1_object type body))).
Proof.
  intros Ht Htt Hb Hn. unfold asn1_object in *. rewrite length_app in Hn. rewrite <- app_assoc. unfold asn1_shrink.
  rewrite (asn1_start_object type t body rest n Ht Htt Hb) by lia. cbn [mbind option_bind cur_data cur_len].
  do 3 f_equal. rewrite !length_app. lia.
Qed.

(** C30: an object the builder lays out, followed by anything, is read
    back: entering it covers its body, skipping it reaches what follows,
    shrinking covers the object itself, for its own type and for any. *)
Theorem asn1_object_read_back type t body rest n : 0 <= type < 256 -> t = type \/ t = ASN1_ANY -> zlen body < 2 ^ 31 ->
  zlen (asn1_object type body) < n ->
  asn1_enter (Cursor (asn1_object type body ++ rest) n) t = Some (RC_OK, Cursor (body ++ rest) (zlen body)) /\
  asn1_skip (Cursor (asn1_object type body ++ rest) n) t = Some (RC_OK, Cursor rest (n - zlen (asn1_object type body))) /\
  (exists c, asn1_shrink (Cursor (asn1_object type body ++ rest) n) t = Some (RC_OK, c) /\ contents c = asn1_object type body).
Proof.
  intros Ht Htt Hb Hn. splits.
  - apply asn1_enter_object; try done. lia.
  - by apply asn1_skip_object.
  - eexists. split; [apply asn1_shrink_object; try done; lia|]. unfold contents. cbn [cur_len cur_data].
    by rewrite Nat2Z.id, take_app_length.
Qed.

(** A body of 200 bytes, whose length needs the long form. *)
Lemma asn1_object_read_back_witness :
  asn1_skip (Cursor (asn1_object ASN1_OCTET_STRING (replicate 200 7) ++ [5; 0]) 205) ASN1_ANY
  = Some (RC_OK, Cursor [5; 0] 2).
Proof.
  apply (asn1_object_read_back ASN1_OCTET_STRING ASN1_ANY (replicate 200 7) [5; 0] 205 ltac:(done) ltac:(by right) ltac:(done) ltac:(done)).
Defined.

Lemma asn1_integer_object body rest n : bytes_ok body -> (1 <= length body <= 4)%nat ->
  zlen (asn1_object ASN1_INTEGER body) <= n ->
  asn1_integer (Cursor (asn1_object ASN1_INTEGER body ++ rest) n) = Some (inl (twos_complement body)).
Proof.
  intros Hb L Hn. unfold asn1_integer. rewrite asn1_enter_object by (done || lia || by left).
  cbn [mbind option_bind cur_data cur_len]. destruct Hb as [|b l Hb Hl]; [cbn in L; lia|].
  destruct (Z.ltb_spec (zlen (b :: l)) 1); [lia|]. cbn [head tail mbind option_bind app length] in *. unfold is_byte in Hb.
  replace (Z.to_nat (Z.of_nat (S (length l)) - 1)) with (length l) by lia.
  assert (signed 8 b = if b <? 128 then b else b - 256) as E.
  { unfold signed. rewrite wrap_small by lia. change (2 ^ (8 - 1)) with 128. change (2 ^ 8) with 256. done. }
  rewrite (integer_loop_value l rest (signed 8 b) 1 Hl) by (rewrite ?E; zcases; lia).
  cbn [twos_complement be_val length]. do 2 f_equal. rewrite E.
  replace (8 * Z.of_nat (S (length l))) with (8 + 8 * zlen l) by lia. rewrite Z.pow_add_r by lia.
  change (2 ^ 8) with 256. destruct (b <? 128); lia.
Qed.

(** An integer of one to four bytes has its two's complement value. *)
Theorem asn1_integer_twos_complement body rest n : bytes_ok body -> (1 <= length body <= 4)%nat ->
  zlen (asn1_object ASN1_INTEGER body) <= n ->
  asn1_integer (Cursor (asn1_object ASN1_INTEGER body ++ rest) n) = Some (inl (twos_complement body)).
Proof. apply asn1_integer_object. Qed.

Lemma asn1_integer_twos_complement_witness : asn1_integer (Cursor [2; 2; 254; 12; 5] 5) = Some (inl (-500)).
Proof. exact (asn1_integer_twos_complement [254; 12] [5] 5 ltac:(by_decide) ltac:(cbn; lia) ltac:(done)). Defined.

Lemma asn1_time_object (utc : bool) year mon mday hour min sec rest n :
  (if utc then 1950 <= year < 2050 else 1900 <= year < 10000) -> 1 <= mon <= 12 -> 1 <= mday < 100 ->
  0 <= hour < 100 -> 0 <= min < 100 -> 0 <= sec < 100 ->
  let fields := [year mod 100; mon; mday; hour; min; sec] in
  let body := mjoin (digits2 <$> (if utc then fields else year / 100 :: fields)) ++ [90] in
  let object := asn1_object (if utc then ASN1_UTC_TIME else ASN1_GENERALIZED_TIME) body in
  zlen object <= n ->
  asn1_generalized_time (Cursor (object ++ rest) n)
  = Some (inl (86400 * (day_number (Z.to_nat (year - 1900)) (Z.to_nat (mon - 1)) mday - day_number 70 0 1)
               + (hour * 3600 + min * 60 + sec))).
Proof.
  intros Hy Hmon Hd Hh Hmi Hs fields body object Hn.
  set (type := if utc then ASN1_UTC_TIME else ASN1_GENERALIZED_TIME) in *.
  set (pairs := if utc then fields else year / 100 :: fields) in *.
  assert (Forall (fun x => 0 <= x < 100) pairs) as Hp.
  { subst pairs fields. destruct utc; repeat apply Forall_cons_2; try constructor; try lia; zdm. }
  assert (zlen body = 2 * zlen pairs + 1 /\ zlen body < 20) as [Lb Lb'] by (subst body pairs; destruct utc; cbn; lia).
  assert (asn1_type (Cursor (object ++ rest) n) = Some type) as E.
  { subst object. unfold asn1_object, asn1_header. destruct (Z.ltb_spec (zlen body) 128); [|lia].
    subst type. by destruct utc. }
  unfold asn1_generalized_time. rewrite E. cbn [mbind option_bind].
  assert (negb (type =? ASN1_UTC_TIME) && negb (type =? ASN1_GENERALIZED_TIME) = false) as -> by (subst type; by destruct utc).
  subst object. rewrite asn1_enter_object;
    [|subst type; destruct utc; done|by left|lia|done].
  cbn [mbind option_bind cur_data cur_len].
  assert ((type =? ASN1_GENERALIZED_TIME) = negb utc) as -> by (subst type; by destruct utc).
  assert ((if negb utc then 7 else 6) = length pairs)%nat as -> by (subst pairs; by destruct utc).
  pose proof (time_pairs_digits pairs ([90] ++ rest) 1 Hp) as R. change (Z.max 0 1) with 1 in R.
  rewrite Lb. subst body. rewrite <- app_assoc, R.
  cbn [mbind option_bind head app]. change (negb (1 =? 1)) with false. change (negb (90 =? 90)) with false. cbn iota.
  assert (time_of_pairs (negb utc) pairs = Tm sec min hour mday (mon - 1) (year - 1900) 0 0) as ->.
  { subst pairs fields. unfold time_of_pairs. destruct utc; cbn; f_equal; [zcases; zdm|zdm]. }
  rewrite mktime_day by (cbn; destruct utc; lia). done.
Qed.

(** A UTC or generalised time of two-digit fields is the second the
    calendar gives for it, the century of a UTC year being the one that
    puts it in 1950 to 2049. *)
Theorem asn1_time_calendar (utc : bool) year mon mday hour min sec rest :
  (if utc then 1950 <= year < 2050 else 1900 <= year < 10000) -> 1 <= mon <= 12 -> 1 <= mday < 100 ->
  0 <= hour < 100 -> 0 <= min < 100 -> 0 <= sec < 100 ->
  let fields := [year mod 100; mon; mday; hour; min; sec] in
  let body := mjoin (digits2 <$> (if utc then fields else year / 100 :: fields)) ++ [90] in
  let object := asn1_object (if utc then ASN1_UTC_TIME else ASN1_GENERALIZED_TIME) body in
  asn1_generalized_time (Cursor (object ++ rest) (zlen (object ++ rest)))
  = Some (inl (86400 * (day_number (Z.to_nat (year - 1900)) (Z.to_nat (mon - 1)) mday - day_number 70 0 1)
               + (hour * 3600 + min * 60 + sec))).
Proof.
  intros Hy Hmon Hd Hh Hmi Hs fields body object.
  assert (zlen object <= zlen (object ++ rest)) as Hn by (rewrite (length_app object); lia).
  exact (asn1_time_object utc year mon mday hour min sec rest _ Hy Hmon Hd Hh Hmi Hs Hn).
Qed.

(** The last second of 31 December 1999, in both forms of its year. *)
Lemma asn1_time_calendar_witness :
  let fields := [99; 12; 31; 23; 59; 59] in
  let body := mjoin (digits2 <$> (19 :: fields)) ++ [90] in
  let object := asn1_object ASN1_GENERALIZED_TIME body in
  asn1_generalized_time (Cursor (object ++ []) (zlen (object ++ []))) = Some (inl 946684799).
Proof. exact (asn1_time_calendar false 1999 12 31 23 59 59 [] ltac:(done) ltac:(done) ltac:(done) ltac:(done) ltac:(done) ltac:(done)). Defined.

(** ** Builders. *)

Definition builder_holds (b : asn1_builder) (l : list Z) : Prop :=
  default [] (b_data b) = l /\ b_len b = zlen l /\ (b_len b <> 0 -> is_Some (b_data b)).

Lemma asn1_grow_ok b l front : builder_holds b l -> zlen front + zlen l < 2 ^ 32 ->
  exists b', asn1_grow b true front = (RC_OK, b') /\ builder_holds b' (front ++ l).
Proof.
  intros (Hd & Hl & Hs) B. unfold asn1_grow, ctrue.
  assert (negb (b_len b =? 0) && negb (bool_decide (is_Some (b_data b))) = false) as ->.
  { destruct (Z.eqb_spec (b_len b) 0); [done|]. by rewrite bool_decide_eq_true_2 by auto. }
  eexists. split; [done|]. unfold builder_holds. cbn. rewrite Hd, Hl, length_app, wrap_small by lia.
  splits; [done|lia|done].
Qed.

(** An error that leaves bytes behind is permanent. *)
Lemma asn1_grow_permanent b ok front : b_data b = None -> b_len b <> 0 -> asn1_grow b ok front = (RC_ERR ENOMEM, b).
Proof.
  intros Hd Hl. unfold asn1_grow, ctrue. rewrite Hd. destruct (Z.eqb_spec (b_len b) 0); [done|].
  by rewrite bool_decide_eq_false_2 by (by intros [? ?]).
Qed.

(** An error on the empty builder is not: the next prepend succeeds. *)
Lemma asn1_first_error_lost type data : exists b1 b2,
  asn1_prepend_raw (Builder None 0) false [1] = (RC_ERR ENOMEM, b1) /\
  asn1_prepend b1 true type data = (RC_OK, b2).
Proof. eexists _, _. split; [reflexivity|]. reflexivity. Qed.
