(* ===== verification/Rsa.v ===== *)
(** * RSA (crypto/rsa.c, include/ipxe/rsa.h).

    A context holds the big integers of a key and their scratch space, as
    element lists.  The encoded message of PKCS #1 is built inside the
    scratch space (the output big integer when enciphering, the input one
    when deciphering), byte by byte as the code stores it, and a store
    outside that big integer is the failure [None].  The key arrives as
    DER through [Asn1], the exponentiation is the one of [Bigint], the
    digest prefixes are those of the three digests of [Sha], and the
    padding bytes come from an interface that the generator of [Drbg]
    implements.

    The theorems: a key pair over two primes read from its DER encodings
    decrypts what was encrypted and verifies what was signed; a signature
    is accepted exactly when its power is the encoded digest. *)

From Stdlib Require Import Znumtheory.
From S2P Require Import Prelude Asn1 NumTheory Digest Sha Entropy Drbg Bigint.

(** ** Object identifiers and digestInfo prefixes. *)

Definition ASN1_OID_INITIAL (first second : Z) : Z := first * 40 + second.
Definition ASN1_OID_SINGLE (value : Z) : list Z := [Z.land value 127].
Definition ASN1_OID_DOUBLE (value : Z) : list Z :=
  Z.lor 128 (Z.land (Z.shiftr value 7) 127) :: ASN1_OID_SINGLE value.
Definition ASN1_OID_TRIPLE (value : Z) : list Z :=
  Z.lor 128 (Z.land (Z.shiftr value 14) 127) :: ASN1_OID_DOUBLE value.

Definition oid_rsadsi : list Z := ASN1_OID_INITIAL 1 2 :: ASN1_OID_DOUBLE 840 ++ ASN1_OID_TRIPLE 113549.
Definition ASN1_OID_RSAENCRYPTION : list Z := oid_rsadsi ++ [1; 1; 1].
Definition ASN1_OID_MD5WITHRSAENCRYPTION : list Z := oid_rsadsi ++ [1; 1; 4].
Definition ASN1_OID_SHA1WITHRSAENCRYPTION : list Z := oid_rsadsi ++ [1; 1; 5].
Definition ASN1_OID_SHA256WITHRSAENCRYPTION : list Z := oid_rsadsi ++ [1; 1; 11].
Definition ASN1_OID_MD5 : list Z := oid_rsadsi ++ [2; 5].
Definition ASN1_OID_SHA1 : list Z := [ASN1_OID_INITIAL 1 3; 14; 3; 2; 26].
Definition ASN1_OID_SHA256 : list Z := ASN1_OID_INITIAL 2 16 :: ASN1_OID_DOUBLE 840 ++ [1; 101; 3; 4; 2; 1].

(** The digest that does nothing (crypto/crypto_null.c). *)
Definition digest_null : digest_algorithm :=
  DigestAlgorithm unit 1 0 (fun ctx => ctx) (fun ctx _ => ctx) (fun ctx => Some (ctx, [])).

(** A pointer to a digest algorithm. *)
Inductive digest_ref := md5_ref | sha1_ref | sha256_ref | null_ref.

Definition digest_of (d : digest_ref) : digest_algorithm :=
  match d with
  | md5_ref => Md5.md5_algorithm
  | sha1_ref => Sha1.sha1_algorithm
  | sha256_ref => Sha256.sha256_algorithm
  | null_ref => digest_null
  end.

Definition RSA_DIGESTALGORITHM_CONTENTS (oid : list Z) : list Z := [ASN1_OID; zlen oid] ++ oid ++ [ASN1_NULL; 0].
Definition RSA_DIGESTALGORITHM (oid : list Z) : list Z :=
  [ASN1_SEQUENCE; zlen (RSA_DIGESTALGORITHM_CONTENTS oid)] ++ RSA_DIGESTALGORITHM_CONTENTS oid.
Definition RSA_DIGEST_PREFIX (digest_size : Z) : list Z := [ASN1_OCTET_STRING; digest_size].
Definition RSA_DIGESTINFO_PREFIX (digest_size : Z) (oid : list Z) : list Z :=
  [ASN1_SEQUENCE; zlen (RSA_DIGESTALGORITHM oid) + zlen (RSA_DIGEST_PREFIX digest_size) + digest_size]
  ++ RSA_DIGESTALGORITHM oid ++ RSA_DIGEST_PREFIX digest_size.

Definition rsa_find_prefix (d : digest_ref) : option (list Z) :=
  match d with
  | md5_ref => Some (RSA_DIGESTINFO_PREFIX 16 ASN1_OID_MD5)
  | sha1_ref => Some (RSA_DIGESTINFO_PREFIX 20 ASN1_OID_SHA1)
  | sha256_ref => Some (RSA_DIGESTINFO_PREFIX 32 ASN1_OID_SHA256)
  | null_ref => None
  end.

(** ** Contexts. *)

Record rsa_context := Rsa {
  rsa_modulus : list Z; rsa_max_len : Z; rsa_exponent : list Z;
  rsa_input : list Z; rsa_output : list Z; rsa_tmp : list Z;
}.

(** The bytes of a big integer in memory, and the big integer whose first
    bytes are given. *)
Definition memory (v : list Z) : list Z := mjoin (word_bytes <$> v).
Definition overlay (v bytes : list Z) : list Z := words (bytes ++ drop (length bytes) (memory v)).

(** Store into a buffer; outside of it there is other memory. *)
Definition store (mem : list Z) (off : Z) (bytes : list Z) : option (list Z) :=
  if (off <? 0) || (zlen mem <? off + zlen bytes) then None
  else Some (take (Z.to_nat off) mem ++ bytes ++ drop (Z.to_nat off + length bytes) mem).

(** [memset], whose count is checked before the bytes are made. *)
Definition fill (mem : list Z) (off byte count : Z) : option (list Z) :=
  if zlen mem <? off + count then None else store mem off (replicate (Z.to_nat count) byte).

(** [malloc] returned [mem], of the size of the whole structure, or NULL.
    The part of the scratch space that outlives a call is the rescaled
    modulus at its end. *)
Definition rsa_alloc (malloc : option (list Z)) (modulus_len exponent_len : Z) : result rsa_context :=
  let size := Z.to_nat (bigint_required_size modulus_len) in
  let exponent_size := Z.to_nat (bigint_required_size exponent_len) in
  match malloc with
  | None => inr ENOMEM
  | Some mem =>
      let slice off n := take n (drop off mem) in
      inl (Rsa (slice 0 size) modulus_len (slice size exponent_size)
             (slice (size + exponent_size) size) (slice (2 * size + exponent_size) size)
             (slice (6 * size + 2 * exponent_size) (2 * size)))%nat
  end.

(** Number of elements of the structure: the four big integers, and the
    base, the exponent, the product and the modulus of the scratch space. *)
Definition rsa_dynamic_size (modulus_len exponent_len : Z) : nat :=
  let size := Z.to_nat (bigint_required_size modulus_len) in
  let exponent_size := Z.to_nat (bigint_required_size exponent_len) in
  (3 * size + exponent_size + (size + exponent_size + 4 * size))%nat.

Definition rsa_parse_integer (raw : asn1_cursor) : option (result asn1_cursor) :=
  p ← asn1_enter raw ASN1_INTEGER;
  let integer := p.2 in
  integer ← (if 1 <? cur_len integer then
    b ← head (cur_data integer);
    Some (if b =? 0 then Cursor (tail (cur_data integer)) (cur_len integer - 1) else integer)
  else Some integer);
  Some (if cur_len integer =? 0 then inr EINVAL else inl integer).

(** The cursor at the modulus, and whether the key is private. *)
Definition rsa_find_integers (key : list Z) : option (result (bool * asn1_cursor)) :=
  p ← asn1_enter (Cursor key (zlen key)) ASN1_SEQUENCE;
  type ← asn1_type p.2;
  if type =? ASN1_INTEGER then
    q ← asn1_skip_any p.2; Some (inl (true, q.2))
  else
    q ← asn1_skip p.2 ASN1_SEQUENCE;
    r ← asn1_integral_bit_string q.2;
    match r with
    | inr e => Some (inr e)
    | inl bits => s ← asn1_enter (Cursor (bits_data bits) (bits_len bits)) ASN1_SEQUENCE; Some (inl (false, s.2))
    end.

(** Allocate the context and construct its big integers. *)
Definition rsa_construct (malloc : Z -> Z -> option (list Z)) (modulus exponent : asn1_cursor) : option (result rsa_context) :=
  match rsa_alloc (malloc (cur_len modulus) (cur_len exponent)) (cur_len modulus) (cur_len exponent) with
  | inr e => Some (inr e)
  | inl context =>
      n ← bigint_init_raw (length (rsa_modulus context)) (contents modulus);
      e ← bigint_init_raw (length (rsa_exponent context)) (contents exponent);
      Some (inl (Rsa n (rsa_max_len context) e (rsa_input context) (rsa_output context) (rsa_tmp context)))
  end.

Definition rsa_init (malloc : Z -> Z -> option (list Z)) (key : list Z) : option (result rsa_context) :=
  r ← rsa_find_integers key;
  match r with
  | inr e => Some (inr e)
  | inl (is_private, cursor) =>
      m ← rsa_parse_integer cursor;
      match m with
      | inr e => Some (inr e)
      | inl modulus =>
          p ← asn1_skip_any cursor;
          q ← (if is_private : bool then asn1_skip p.2 ASN1_INTEGER else Some p);
          x ← rsa_parse_integer q.2;
          match x with
          | inr e => Some (inr e)
          | inl exponent => rsa_construct malloc modulus exponent
          end
      end
  end.

(** ** The cipher operation.
    [data] is what is readable at the input buffer. *)

Definition rsa_cipher (context : rsa_context) (data : list Z) : option (rsa_context * list Z) :=
  if zlen data <? rsa_max_len context then None else
  input ← bigint_init_raw (length (rsa_modulus context)) (take (Z.to_nat (rsa_max_len context)) data);
  p ← bigint_mod_exp_raw input (rsa_modulus context) (rsa_exponent context) (rsa_tmp context);
  let '(output, tmp) := p in
  out ← bigint_done_raw output (Z.to_nat (rsa_max_len context));
  Some (Rsa (rsa_modulus context) (rsa_max_len context) (rsa_exponent context) input output tmp, out).

Definition set_output (context : rsa_context) (output : list Z) : rsa_context :=
  Rsa (rsa_modulus context) (rsa_max_len context) (rsa_exponent context) (rsa_input context) output (rsa_tmp context).
Definition set_input (context : rsa_context) (input : list Z) : rsa_context :=
  Rsa (rsa_modulus context) (rsa_max_len context) (rsa_exponent context) input (rsa_output context) (rsa_tmp context).

(** ** Encryption and decryption. *)

Section Encrypt.
Context {S : Type} (get_random_nz : S -> Z -> option (S * (errno + list Z))).

(** The status, the context and the ciphertext. *)
Definition rsa_encrypt (rng : S) (context : rsa_context) (plaintext : list Z) :
    option (S * rsa_context * result (list Z)) :=
  let plaintext_len := zlen plaintext in
  let max_len := u32 (rsa_max_len context - 11) in
  let random_nz_len := u32 (max_len - plaintext_len + 8) in
  if max_len <? plaintext_len then Some (rng, context, inr ERANGE) else
  encoded ← store (memory (rsa_output context)) 0 [0];
  encoded ← store encoded 1 [2];
  if zlen encoded <? 2 + random_nz_len then None else
  p ← get_random_nz rng random_nz_len;
  match p with
  | (rng', inl e) => Some (rng', set_output context (words encoded), inr e)
  | (rng', inr bytes) =>
      encoded ← store encoded 2 bytes;
      encoded ← store encoded (2 + random_nz_len) [0];
      encoded ← store encoded (rsa_max_len context - plaintext_len) plaintext;
      q ← rsa_cipher (set_output context (words encoded)) encoded;
      let '(context', ciphertext) := q in
      Some (rng', context', inl ciphertext)
  end.
End Encrypt.

(** The first zero byte of [len] bytes. *)
Fixpoint memchr_zero (mem : list Z) (len : Z) : option (option Z) :=
  if len =? 0 then Some None
  else match mem with
  | [] => None
  | b :: mem' => if b =? 0 then Some (Some 0) else r ← memchr_zero mem' (len - 1); Some (option_map (fun i => i + 1) r)
  end.

Definition rsa_decrypt (context : rsa_context) (ciphertext : list Z) : option (rsa_context * result (list Z)) :=
  if negb (zlen ciphertext =? rsa_max_len context) then Some (context, inr ERANGE) else
  p ← rsa_cipher context ciphertext;
  let '(context, out) := p in
  let context := set_input context (overlay (rsa_input context) out) in
  let encoded := memory (rsa_input context) in
  b0 ← encoded !! 0%nat;
  b1 ← encoded !! 1%nat;
  if negb (b0 =? 0) || negb (b1 =? 2) then Some (context, inr EINVAL) else
  r ← memchr_zero (drop 2 encoded) (u32 (rsa_max_len context - 2));
  match r with
  | None => Some (context, inr EINVAL)
  | Some zero =>
      let start := 2 + zero + 1 in
      let plaintext_len := u32 (rsa_max_len context - start) in
      if zlen encoded <? start + plaintext_len then None
      else Some (context, inl (take (Z.to_nat plaintext_len) (drop (Z.to_nat start) encoded)))
  end.

(** ** Signatures. *)

(** [encoded] is the memory the encoded digest is stored in. *)
Definition rsa_encode_digest (context : rsa_context) (digest : digest_ref) (value encoded : list Z) :
    option (result (list Z)) :=
  let digest_len := digestsize (digest_of digest) in
  match rsa_find_prefix digest with
  | None => Some (inr ENOTSUP)
  | Some prefix =>
      let digestinfo_len := u32 (zlen prefix + digest_len) in
      let max_len := u32 (rsa_max_len context - 11) in
      if max_len <? digestinfo_len then Some (inr ERANGE) else
      encoded ← store encoded 0 [0];
      encoded ← store encoded 1 [1];
      let pad_len := u32 (max_len - digestinfo_len + 8) in
      encoded ← fill encoded 2 255 pad_len;
      encoded ← store encoded (2 + pad_len) [0];
      encoded ← store encoded (3 + pad_len) prefix;
      encoded ← store encoded (3 + pad_len + zlen prefix) (take (Z.to_nat digest_len) value);
      Some (inl encoded)
  end.

Definition rsa_sign (context : rsa_context) (digest : digest_ref) (value : list Z) :
    option (rsa_context * result (list Z)) :=
  r ← rsa_encode_digest context digest value (memory (rsa_output context));
  match r with
  | inr e => Some (context, inr e)
  | inl encoded =>
      p ← rsa_cipher (set_output context (words encoded)) encoded;
      let '(context', signature) := p in
      Some (context', inl signature)
  end.

Definition rsa_verify (context : rsa_context) (digest : digest_ref) (value signature : list Z) :
    option (rsa_context * rc) :=
  if negb (zlen signature =? rsa_max_len context) then Some (context, RC_ERR ERANGE) else
  p ← rsa_cipher context signature;
  let '(context, out) := p in
  let context := set_input context (overlay (rsa_input context) out) in
  let expected := memory (rsa_input context) in
  r ← rsa_encode_digest context digest value (memory (rsa_output context));
  match r with
  | inr e => Some (context, RC_ERR e)
  | inl actual =>
      let context := set_output context (words actual) in
      let len := Z.to_nat (rsa_max_len context) in
      Some (context, if bool_decide (take len actual = take len expected) then RC_OK else RC_ERR EACCES_VERIFY)
  end.

(** ** Memory of big integers. *)

Lemma words_memory n l : length l = (4 * n)%nat -> bytes_ok l -> memory (words l) = l.
Proof.
  revert l. induction n as [|n IH]; intros l L Hl; [by destruct l|].
  do 4 (destruct l as [|? l]; [cbn in L; lia|]). cbn [length] in L.
  repeat (apply Forall_cons in Hl as [? Hl]). cbn [words]. unfold memory in *.
  change (mjoin (word_bytes <$> ?a :: ?b)) with (word_bytes a ++ mjoin (word_bytes <$> b)).
  rewrite IH by (done || lia). unfold word_bytes, is_byte in *.
  change (2 ^ 8) with 256. change (2 ^ 16) with 65536. change (2 ^ 24) with 16777216. cbn [app].
  repeat f_equal; zdm.
Qed.

Lemma store_seq pre rest bytes off : off = zlen pre -> (length bytes <= length rest)%nat ->
  store (pre ++ rest) off bytes = Some ((pre ++ bytes) ++ drop (length bytes) rest).
Proof.
  intros -> L. unfold store. rewrite length_app.
  destruct (Z.ltb_spec (zlen pre) 0); [lia|]. destruct (Z.ltb_spec (Z.of_nat (length pre + length rest)) (zlen pre + zlen bytes)); [lia|].
  cbn [orb]. rewrite Nat2Z.id, take_app_length, drop_app_ge by lia. rewrite <- app_assoc. do 4 f_equal. lia.
Qed.

Lemma fill_seq pre rest byte count off : off = zlen pre -> 0 <= count <= zlen rest ->
  fill (pre ++ rest) off byte count = Some ((pre ++ replicate (Z.to_nat count) byte) ++ drop (Z.to_nat count) rest).
Proof.
  intros -> L. unfold fill. rewrite length_app. destruct (Z.ltb_spec (Z.of_nat (length pre + length rest)) (zlen pre + count)); [lia|].
  rewrite store_seq by (done || rewrite length_replicate; lia). by rewrite length_replicate.
Qed.

(** ** Contexts that hold a key. *)

Record rsa_holds (c : rsa_context) (n e : Z) : Prop := {
  rh_modulus : limbs (rsa_modulus c);
  rh_n : bval (rsa_modulus c) = n;
  rh_exponent : limbs (rsa_exponent c);
  rh_e : bval (rsa_exponent c) = e;
  rh_input : limbs (rsa_input c) /\ length (rsa_input c) = length (rsa_modulus c);
  rh_output : limbs (rsa_output c) /\ length (rsa_output c) = length (rsa_modulus c);
  rh_tmp : limbs (rsa_tmp c) /\ rsa_tmp c <> [];
  rh_len : 1 <= rsa_max_len c <= 4 * zlen (rsa_modulus c) /\ rsa_max_len c < 2 ^ 32;
  rh_pos : 0 < n /\ 0 < e;
}.

(** The modulus has as many bytes as [max_len] says, the first of them
    not zero. *)
Definition full_length (c : rsa_context) (n : Z) : Prop :=
  2 ^ (8 * (rsa_max_len c - 1)) <= n < 2 ^ (8 * rsa_max_len c).

Lemma holds_set_output c n e mem : rsa_holds c n e -> bytes_ok mem -> length mem = (4 * length (rsa_modulus c))%nat ->
  rsa_holds (set_output c (words mem)) n e.
Proof.
  intros [] Hb L. destruct (words_spec _ mem L Hb) as (_ & Hw & Lw). by split.
Qed.

Lemma rsa_cipher_spec c n e data : rsa_holds c n e -> bytes_ok data -> rsa_max_len c <= zlen data ->
  exists c', rsa_cipher c data
    = Some (c', be_bytes (Z.to_nat (rsa_max_len c)) (be_val (take (Z.to_nat (rsa_max_len c)) data) ^ e mod n)) /\
    rsa_holds c' n e /\ rsa_max_len c' = rsa_max_len c /\ rsa_modulus c' = rsa_modulus c.
Proof.
  intros [Hm Hn He Hev [Hi Li] [Ho Lo] [Ht Ht0] [Hl Hl32] [Pn Pe]] Hd L. unfold rsa_cipher.
  destruct (Z.ltb_spec (zlen data) (rsa_max_len c)); [lia|].
  destruct (init_spec (length (rsa_modulus c)) (take (Z.to_nat (rsa_max_len c)) data)) as (b & -> & Hb & Lb & Vb);
    [by apply Forall_take|rewrite length_take; lia|]. cbn [mbind option_bind].
  assert (rsa_exponent c <> []) as He0 by (intros E; rewrite E in Hev; cbn in Hev; lia).
  assert (rsa_modulus c <> []) as Hm0 by (intros E; rewrite E in Hn; cbn in Hn; lia).
  destruct (mod_exp_spec b (rsa_modulus c) (rsa_exponent c) (rsa_tmp c)) as (r & t & -> & Ht' & Ht0' & Hr & Lr & Vr); try done; [lia|].
  cbn [mbind option_bind]. rewrite done_spec by (done || lia). cbn [mbind option_bind].
  rewrite Vr, Hev, Vb, Hn. destruct (Z.eqb_spec e 0); [lia|].
  eexists. splits; [done| |done|done]. by split.
Qed.

(** ** Encoded messages. *)

Definition encoded_message (random plaintext : list Z) : list Z := [0; 2] ++ random ++ [0] ++ plaintext.

Definition nonzero_bytes (l : list Z) : Prop := Forall (fun x => 0 < x < 256) l.

Lemma nonzero_bytes_ok l : nonzero_bytes l -> bytes_ok l.
Proof. intros H. eapply Forall_impl; [exact H|]. cbn. unfold is_byte. lia. Qed.

Lemma small_bytes b l : is_byte b -> bytes_ok l -> bytes_ok (b :: l).
Proof. intros. by constructor. Qed.

Lemma encoded_below (c : rsa_context) n l : full_length c n -> bytes_ok l -> zlen l + 1 = rsa_max_len c ->
  0 <= be_val (0 :: l) < n.
Proof.
  intros [F _] Hl L. pose proof (be_val_range l Hl) as R. cbn [be_val].
  replace (rsa_max_len c - 1) with (zlen l) in F by lia. lia.
Qed.

(** What the padding needs of its source of bytes. *)
Class NonZeroRandom {S : Type} (get_random_nz : S -> Z -> option (S * (errno + list Z))) (ok : S -> Prop) : Prop := {
  nz_kept s len s' r : ok s -> 0 <= len -> get_random_nz s len = Some (s', r) -> ok s';
  nz_bytes s len s' bytes : ok s -> 0 <= len -> get_random_nz s len = Some (s', inr bytes) ->
    nonzero_bytes bytes /\ zlen bytes = len;
}.

(** The bytes of memory are bytes, and as many as the big integer has. *)
Lemma output_memory c n e : rsa_holds c n e ->
  bytes_ok (memory (rsa_output c)) /\ zlen (memory (rsa_output c)) = 4 * zlen (rsa_modulus c).
Proof.
  intros [_ _ _ _ _ [Ho Lo] _ _ _]. destruct (memory_bytes _ Ho) as (_ & Hb & L). unfold memory. split; [done|]. rewrite L, Lo. lia.
Qed.

Section Encryption.
Context {S : Type} (get_random_nz : S -> Z -> option (S * (errno + list Z))).

Lemma rsa_encrypt_spec c n e rng rng' plaintext bytes : rsa_holds c n e -> 11 <= rsa_max_len c ->
  bytes_ok plaintext -> zlen plaintext <= rsa_max_len c - 11 ->
  get_random_nz rng (rsa_max_len c - 3 - zlen plaintext) = Some (rng', inr bytes) ->
  nonzero_bytes bytes -> zlen bytes = rsa_max_len c - 3 - zlen plaintext ->
  exists c', rsa_encrypt get_random_nz rng c plaintext
    = Some (rng', c', inl (be_bytes (Z.to_nat (rsa_max_len c)) (be_val (encoded_message bytes plaintext) ^ e mod n))) /\
    rsa_holds c' n e.
Proof.
  intros H H11 Hp Lp Er Hb Lb. destruct (output_memory c n e H) as [Hm Lm]. pose proof (rh_len _ _ _ H) as [Hl Hl32].
  unfold rsa_encrypt. rewrite (wrap_small 32 (rsa_max_len c - 11)) by lia.
  replace (rsa_max_len c - 11 - zlen plaintext + 8) with (rsa_max_len c - 3 - zlen plaintext) by lia.
  rewrite (wrap_small 32) by lia. destruct (Z.ltb_spec (rsa_max_len c - 11) (zlen plaintext)); [lia|].
  set (mem := memory (rsa_output c)) in *. change mem with ([] ++ mem) at 1.
  rewrite store_seq by (done || cbn; lia). cbn [mbind option_bind].
  rewrite store_seq by (done || (cbn [length]; rewrite length_drop; lia)). cbn [mbind option_bind].
  change (([] ++ [0]) ++ [2]) with [0; 2]. rewrite drop_drop, (length_app [0; 2]), length_drop. cbn [length].
  match goal with |- context [?a <? 2 + ?b] => destruct (Z.ltb_spec a (2 + b)); [lia|] end.
  rewrite Er. cbn [mbind option_bind].
  rewrite (store_seq [0; 2]) by (done || (rewrite length_drop; lia)). cbn [mbind option_bind]. rewrite drop_drop.
  rewrite (store_seq ([0; 2] ++ bytes)) by ((rewrite length_app; cbn [length]; lia) || (cbn [length]; rewrite length_drop; lia)).
  cbn [mbind option_bind]. rewrite drop_drop.
  rewrite (store_seq (([0; 2] ++ bytes) ++ [0])) by ((rewrite !length_app; cbn [length]; lia) || (rewrite length_drop; cbn [length]; lia)).
  cbn [mbind option_bind]. rewrite drop_drop.
  assert ((([0; 2] ++ bytes) ++ [0]) ++ plaintext = encoded_message bytes plaintext) as ->
    by (unfold encoded_message; by rewrite <- !app_assoc).
  set (k := (_ + length plaintext)%nat).
  assert (zlen (encoded_message bytes plaintext) = rsa_max_len c) as Le
    by (unfold encoded_message; rewrite !length_app; cbn [length]; lia).
  assert (Z.of_nat k = rsa_max_len c) as Hk by (subst k; cbn [length]; lia).
  assert (bytes_ok (encoded_message bytes plaintext)) as He.
  { apply Forall_app; split; [repeat constructor; unfold is_byte; lia|].
    apply Forall_app; split; [by apply nonzero_bytes_ok|]. constructor; [unfold is_byte; lia|done]. }
  destruct (rsa_cipher_spec (set_output c (words (encoded_message bytes plaintext ++ drop k mem))) n e
    (encoded_message bytes plaintext ++ drop k mem)) as (c' & E & Hc' & _).
  - apply holds_set_output; [done|apply Forall_app; split; [done|by apply Forall_drop]|rewrite length_app, length_drop; lia].
  - apply Forall_app; split; [done|by apply Forall_drop].
  - cbn [rsa_max_len set_output]. rewrite length_app. lia.
  - rewrite E. cbn [mbind option_bind rsa_max_len set_output]. exists c'. split; [|done].
    rewrite <- Le, Nat2Z.id, take_app_length. done.
Qed.
End Encryption.

(** ** Decryption. *)

Lemma memchr_zero_found l r len : nonzero_bytes l -> zlen l < len -> memchr_zero (l ++ 0 :: r) len = Some (Some (zlen l)).
Proof.
  intros Hl. revert len. induction Hl as [|b l Hb Hl IH]; intros len L; cbn [app memchr_zero length] in *.
  - destruct (Z.eqb_spec len 0); [cbn in L; lia|]. done.
  - destruct (Z.eqb_spec len 0); [lia|]. destruct (Z.eqb_spec b 0); [lia|]. rewrite IH by lia. cbn. do 2 f_equal. lia.
Qed.

(** A decipherment into the input big integer: what is there afterwards. *)
Lemma decipher_memory c n e data : rsa_holds c n e -> bytes_ok data -> rsa_max_len c = zlen data ->
  exists c' rest, let out := be_bytes (length data) (be_val data ^ e mod n) in
    rsa_cipher c data = Some (c', out) /\ rsa_holds (set_input c' (overlay (rsa_input c') out)) n e /\
    rsa_max_len c' = rsa_max_len c /\ rsa_modulus c' = rsa_modulus c /\ memory (overlay (rsa_input c') out) = out ++ rest.
Proof.
  intros H Hd L. destruct (rsa_cipher_spec c n e data H Hd ltac:(lia)) as (c' & E & H' & Lc & Mc).
  rewrite L, Nat2Z.id, firstn_all in E. pose proof (rh_len _ _ _ H) as [Hl _].
  pose proof (rh_input _ _ _ H') as [Hi Li]. destruct (memory_bytes _ Hi) as (_ & Hb & Lm).
  set (out := be_bytes (length data) (be_val data ^ e mod n)) in *.
  assert (length out = length data) as Lo by apply be_bytes_length.
  exists c', (drop (length out) (memory (rsa_input c'))). cbn zeta. fold out.
  assert (bytes_ok (out ++ drop (length out) (memory (rsa_input c')))) as Hw
    by (apply Forall_app; split; [apply be_bytes_ok|by apply Forall_drop]).
  assert (length (out ++ drop (length out) (memory (rsa_input c'))) = (4 * length (rsa_modulus c'))%nat) as Lw.
  { rewrite length_app, length_drop. unfold memory. rewrite Lm, Li, Mc. lia. }
  destruct (words_spec _ _ Lw Hw) as (_ & Hlw & Llw).
  splits; [done| |done|done|by eapply words_memory].
  destruct H'. split; cbn; done.
Qed.

Lemma rsa_decrypt_spec c n d random plaintext ciphertext : rsa_holds c n d -> nonzero_bytes random -> bytes_ok plaintext ->
  zlen (encoded_message random plaintext) = rsa_max_len c -> bytes_ok ciphertext -> zlen ciphertext = rsa_max_len c ->
  be_val ciphertext ^ d mod n = be_val (encoded_message random plaintext) ->
  exists c', rsa_decrypt c ciphertext = Some (c', inl plaintext) /\ rsa_holds c' n d.
Proof.
  intros H Hr Hp Le Hc Lc Ev. pose proof (rh_len _ _ _ H) as [Hl Hl32].
  destruct (decipher_memory c n d ciphertext H Hc ltac:(lia)) as (c' & rest & E & H' & Lc' & _ & Em). cbn zeta in *.
  unfold rsa_decrypt. rewrite Lc, Z.eqb_refl. cbn [negb]. rewrite E. cbn [mbind option_bind].
  set (c2 := set_input c' _) in *. exists c2. split; [|done].
  assert (memory (rsa_input c2) = encoded_message random plaintext ++ rest) as ->.
  { subst c2. cbn [rsa_input set_input]. rewrite Em, Ev. f_equal.
    assert (length ciphertext = length (encoded_message random plaintext)) as -> by lia.
    apply be_bytes_val. unfold encoded_message. apply Forall_app; split; [repeat constructor; unfold is_byte; lia|].
    apply Forall_app; split; [by apply nonzero_bytes_ok|]. constructor; [unfold is_byte; lia|done]. }
  assert (rsa_max_len c2 = rsa_max_len c) as -> by done. clearbody c2.
  unfold encoded_message in *. rewrite !length_app in Le. cbn [length] in Le.
  change (([0; 2] ++ random ++ [0] ++ plaintext) ++ rest) with (0 :: 2 :: (random ++ 0 :: plaintext) ++ rest).
  cbn [lookup list_lookup mbind option_bind]. change (negb (0 =? 0) || negb (2 =? 2)) with false. cbn iota.
  change (drop 2 (0 :: 2 :: (random ++ 0 :: plaintext) ++ rest)) with ((random ++ 0 :: plaintext) ++ rest).
  rewrite <- app_assoc. rewrite wrap_small by lia. cbn [app]. rewrite memchr_zero_found by (done || lia).
  cbn [mbind option_bind]. rewrite wrap_small by lia. cbn [length]. rewrite !length_app. cbn [length].
  rewrite length_app.
  match goal with |- context [?a <? ?b] => destruct (Z.ltb_spec a b); [lia|] end. do 3 f_equal.
  replace (Z.to_nat (2 + zlen random + 1)) with (S (S (length random + 1))) by lia. cbn [drop].
  replace (random ++ 0 :: plaintext ++ rest) with ((random ++ [0]) ++ plaintext ++ rest) by (by rewrite <- app_assoc).
  rewrite drop_app_length' by (rewrite length_app; done).
  replace (Z.to_nat _) with (length plaintext) by lia. apply take_app_length.
Qed.

(** ** Digests. *)

Definition encoded_digest (max_len : Z) (prefix value : list Z) : list Z :=
  [0; 1] ++ replicate (Z.to_nat (max_len - 3 - zlen prefix - zlen value)) 255 ++ [0] ++ prefix ++ value.

(** A digest value for an algorithm that has a prefix. *)
Definition digest_value (digest : digest_ref) (prefix value : list Z) : Prop :=
  rsa_find_prefix digest = Some prefix /\ bytes_ok value /\ zlen value = digestsize (digest_of digest).

Lemma prefix_bytes digest prefix : rsa_find_prefix digest = Some prefix ->
  bytes_ok prefix /\ 0 <= digestsize (digest_of digest) <= 32 /\ 15 <= zlen prefix <= 19.
Proof. destruct digest; cbn; intros E; simplify_eq; (split; [by_decide|cbn; lia]). Qed.

Lemma encoded_digest_bytes max_len digest prefix value : digest_value digest prefix value ->
  zlen prefix + zlen value + 11 <= max_len ->
  bytes_ok (encoded_digest max_len prefix value) /\ zlen (encoded_digest max_len prefix value) = max_len.
Proof.
  intros (Ef & Hv & Lv) L. destruct (prefix_bytes _ _ Ef) as (Hp & _ & _). unfold encoded_digest. split.
  - repeat apply Forall_app_2; try done; try (apply Forall_replicate; unfold is_byte; lia);
      repeat constructor; unfold is_byte; lia.
  - rewrite !length_app, length_replicate. cbn [length]. lia.
Qed.

Lemma rsa_encode_digest_spec c n e digest prefix value mem : rsa_holds c n e -> digest_value digest prefix value ->
  zlen prefix + zlen value + 11 <= rsa_max_len c -> rsa_max_len c <= zlen mem ->
  exists k, rsa_encode_digest c digest value mem = Some (inl (encoded_digest (rsa_max_len c) prefix value ++ drop k mem)) /\
    Z.of_nat k = rsa_max_len c.
Proof.
  intros H (Ef & Hv & Lv) L Lm. pose proof (rh_len _ _ _ H) as [Hl Hl32].
  destruct (prefix_bytes _ _ Ef) as (Hp & Hd & Hpl). unfold rsa_encode_digest. rewrite Ef, <- Lv.
  rewrite (wrap_small 32 (zlen prefix + zlen value)), (wrap_small 32 (rsa_max_len c - 11)) by lia.
  rewrite (wrap_small 32 (rsa_max_len c - 11 - (zlen prefix + zlen value) + 8)) by lia.
  destruct (Z.ltb_spec (rsa_max_len c - 11) (zlen prefix + zlen value)); [lia|].
  set (pad := rsa_max_len c - 11 - (zlen prefix + zlen value) + 8) in *.
  change mem with ([] ++ mem) at 1.
  rewrite store_seq by (done || cbn; lia). cbn [mbind option_bind].
  rewrite store_seq by (done || (cbn [length]; rewrite length_drop; lia)). cbn [mbind option_bind].
  change (([] ++ [0]) ++ [1]) with [0; 1]. rewrite drop_drop. cbn [length Nat.add].
  rewrite (fill_seq [0; 1]) by (done || (rewrite length_drop; lia)). cbn [mbind option_bind]. rewrite drop_drop.
  rewrite store_seq by ((rewrite length_app, length_replicate; cbn [length]; lia) || (rewrite length_drop; cbn [length]; lia)).
  cbn [mbind option_bind]. rewrite drop_drop.
  rewrite store_seq by ((rewrite !length_app, length_replicate; cbn [length]; lia) || (rewrite length_drop; cbn [length]; lia)).
  cbn [mbind option_bind]. rewrite drop_drop, Nat2Z.id, firstn_all.
  rewrite store_seq by ((rewrite !length_app, length_replicate; cbn [length]; lia) || (rewrite length_drop; cbn [length]; lia)).
  cbn [mbind option_bind]. rewrite drop_drop. eexists. split.
  - do 3 f_equal. unfold encoded_digest. rewrite <- !app_assoc. do 3 f_equal. subst pad. lia.
  - cbn [length]. lia.
Qed.

Lemma be_bytes_inj_val len x l : bytes_ok l -> length l = len -> 0 <= x < 2 ^ (8 * Z.of_nat len) ->
  be_bytes len x = l <-> x = be_val l.
Proof.
  intros Hl <- Hx. split; [|by intros ->; apply be_bytes_val].
  intros E. rewrite <- E, be_val_bytes, Z.mod_small; lia.
Qed.

(** A signature is accepted exactly when its power is the encoded digest. *)
Lemma rsa_verify_spec c n e digest prefix value signature : rsa_holds c n e -> n <= 2 ^ (8 * rsa_max_len c) ->
  digest_value digest prefix value -> zlen prefix + zlen value + 11 <= rsa_max_len c ->
  bytes_ok signature -> zlen signature = rsa_max_len c ->
  exists c', rsa_holds c' n e /\ rsa_verify c digest value signature
    = Some (c', if bool_decide (be_val signature ^ e mod n = be_val (encoded_digest (rsa_max_len c) prefix value))
                then RC_OK else RC_ERR EACCES_VERIFY).
Proof.
  intros H F Hv L Hs Ls. pose proof (rh_len _ _ _ H) as [Hl Hl32]. pose proof (rh_pos _ _ _ H) as [Pn Pe].
  destruct (decipher_memory c n e signature H Hs ltac:(lia)) as (c1 & rest & E & H1 & L1 & Lmod1 & Em). cbn zeta in *.
  unfold rsa_verify. rewrite Ls, Z.eqb_refl. cbn [negb]. rewrite E. cbn [mbind option_bind].
  set (c2 := set_input c1 _) in *. assert (rsa_max_len c2 = rsa_max_len c) as L2 by done.
  assert (memory (rsa_input c2) = be_bytes (length signature) (be_val signature ^ e mod n) ++ rest) as Em2 by done. clearbody c2.
  destruct (output_memory c2 n e H1) as [Hm Lm]. pose proof (rh_len _ _ _ H1) as [Hl2 _].
  destruct (rsa_encode_digest_spec c2 n e digest prefix value (memory (rsa_output c2)) H1 Hv) as (k & -> & Hk); [lia|lia|].
  cbn [mbind option_bind rsa_max_len set_output]. rewrite L2 in *.
  destruct (encoded_digest_bytes (rsa_max_len c) _ _ _ Hv L) as [He Le].
  set (em := encoded_digest (rsa_max_len c) prefix value) in *.
  exists (set_output c2 (words (em ++ drop k (memory (rsa_output c2))))). split.
  - apply holds_set_output; [done|apply Forall_app; split; [done|by apply Forall_drop]|rewrite length_app, length_drop; lia].
  - do 2 f_equal. rewrite Em2. replace (Z.to_nat (rsa_max_len c)) with (length em) by lia. rewrite take_app_length.
    rewrite take_app_length' by (rewrite be_bytes_length; lia).
    pose proof (Z.mod_pos_bound (be_val signature ^ e) n Pn).
    erewrite bool_decide_ext; [done|]. rewrite <- (be_bytes_inj_val (length signature)); [done|done|lia|].
    replace (Z.of_nat (length signature)) with (rsa_max_len c) by lia. lia.
Qed.

Lemma rsa_sign_spec c n e digest prefix value : rsa_holds c n e ->
  digest_value digest prefix value -> zlen prefix + zlen value + 11 <= rsa_max_len c ->
  exists c', rsa_holds c' n e /\ rsa_sign c digest value
    = Some (c', inl (be_bytes (Z.to_nat (rsa_max_len c)) (be_val (encoded_digest (rsa_max_len c) prefix value) ^ e mod n))).
Proof.
  intros H Hv L. destruct (output_memory c n e H) as [Hm Lm]. pose proof (rh_len _ _ _ H) as [Hl _].
  destruct (encoded_digest_bytes (rsa_max_len c) _ _ _ Hv L) as [He Le]. unfold rsa_sign.
  destruct (rsa_encode_digest_spec c n e digest prefix value (memory (rsa_output c)) H Hv) as (k & -> & Hk); [lia|lia|].
  set (em := encoded_digest (rsa_max_len c) prefix value) in *. cbn [mbind option_bind].
  assert (bytes_ok (em ++ drop k (memory (rsa_output c)))) as Hb by (apply Forall_app; split; [done|by apply Forall_drop]).
  destruct (rsa_cipher_spec (set_output c (words (em ++ drop k (memory (rsa_output c))))) n e (em ++ drop k (memory (rsa_output c))))
    as (c' & E & Hc' & _); [|done|cbn [rsa_max_len set_output]; rewrite length_app; lia|].
  - apply holds_set_output; [done|done|rewrite length_app, length_drop; lia].
  - rewrite E. exists c'. split; [done|]. cbn [mbind option_bind rsa_max_len set_output].
    by rewrite <- Le, Nat2Z.id, take_app_length.
Qed.

(** ** Keys. *)

(** The contents of a DER integer that is not negative. *)
Definition der_unsigned (l : list Z) : list Z :=
  match l with
  | b :: _ => if 128 <=? b then 0 :: l else l
  | [] => [0]
  end.

Definition der_integer (l : list Z) : list Z := asn1_object ASN1_INTEGER (der_unsigned l).

Definition der_public_key (algorithm n e : list Z) : list Z :=
  asn1_object ASN1_SEQUENCE
    (asn1_object ASN1_SEQUENCE algorithm ++
     asn1_object ASN1_BIT_STRING (0 :: asn1_object ASN1_SEQUENCE (der_integer n ++ der_integer e))).

Definition der_private_key (n e d others : list Z) : list Z :=
  asn1_object ASN1_SEQUENCE (asn1_object ASN1_INTEGER [0] ++ der_integer n ++ der_integer e ++ der_integer d ++ others).

(** The bytes of a number without leading zeros. *)
Definition minimal (l : list Z) : Prop := bytes_ok l /\ exists b l', l = b :: l' /\ 0 < b.

Lemma minimal_value l : minimal l -> 2 ^ (8 * (zlen l - 1)) <= be_val l < 2 ^ (8 * zlen l).
Proof.
  intros (Hb & b & l' & -> & Hp). pose proof (be_val_range _ Hb). split; [|lia].
  cbn [be_val length]. apply Forall_cons in Hb as [_ Hl']. pose proof (be_val_range _ Hl').
  replace (8 * (Z.of_nat (S (length l')) - 1)) with (8 * zlen l') by lia. nia.
Qed.

Lemma rsa_parse_integer_spec l rest n : minimal l -> zlen l < 2 ^ 30 -> zlen (der_integer l) <= n ->
  exists c, rsa_parse_integer (Cursor (der_integer l ++ rest) n) = Some (inl c) /\ contents c = l /\ cur_len c = zlen l.
Proof.
  intros (Hb & b & l' & -> & Hp) L Hn. unfold rsa_parse_integer, der_integer in *.
  assert (exists z, der_unsigned (b :: l') = z ++ b :: l' /\ (z = [] \/ z = [0])) as (z & Ez & Hz).
  { cbn. destruct (128 <=? b); [exists [0]|exists []]; naive_solver. }
  rewrite Ez in *. assert (zlen (z ++ b :: l') <= zlen (b :: l') + 1) as Lz
    by (destruct Hz as [-> | ->]; rewrite length_app; cbn [length]; lia).
  rewrite asn1_enter_object; [|done|by left|lia|done]. cbn [mbind option_bind cur_data cur_len snd].
  rewrite <- app_assoc. unfold contents.
  destruct Hz as [-> | ->]; cbn [app head mbind option_bind length tail cur_len cur_data].
  - destruct (Z.ltb_spec 1 (Z.of_nat (S (length l')))); cbn [mbind option_bind head cur_data];
      [destruct (Z.eqb_spec b 0); [lia|]|]; cbn [cur_len]; (destruct (Z.eqb_spec (Z.of_nat (S (length l'))) 0); [lia|]);
      (eexists; splits; [done| |done]); cbn [cur_data cur_len]; rewrite Nat2Z.id; apply (take_app_length (b :: l') rest).
  - destruct (Z.ltb_spec 1 (Z.of_nat (S (S (length l'))))); [|lia]. cbn [mbind option_bind cur_len].
    change (0 =? 0) with true. cbn iota. cbn [mbind option_bind cur_len].
    destruct (Z.eqb_spec (Z.of_nat (S (S (length l'))) - 1) 0); [lia|].
    eexists. splits; [done| |cbn [cur_len]; lia]. cbn [cur_data cur_len].
    replace (Z.to_nat (Z.of_nat (S (S (length l'))) - 1)) with (length (b :: l')) by (cbn; lia).
    apply (take_app_length (b :: l') rest).
Qed.

Lemma object_longer type body : zlen body + 2 <= zlen (asn1_object type body).
Proof. unfold asn1_object, asn1_header. destruct (_ <? _); rewrite length_app; cbn [length]; lia. Qed.

Lemma object_type type body rest n : 0 <= type < 256 -> asn1_type (Cursor (asn1_object type body ++ rest) n) = Some type.
Proof.
  intros H. unfold asn1_object, asn1_header. destruct (_ <? _); cbn; by rewrite wrap_small by lia.
Qed.

Lemma bit_string_object l rest n : zlen l < 2 ^ 30 -> zlen (asn1_object ASN1_BIT_STRING (0 :: l)) <= n ->
  asn1_bit_string (Cursor (asn1_object ASN1_BIT_STRING (0 :: l) ++ rest) n) = Some (inl (BitString (l ++ rest) (zlen l) 0)).
Proof.
  intros L Hn. unfold asn1_bit_string.
  rewrite asn1_enter_object; [|done|by left|cbn [length]; lia|done]. cbn [mbind option_bind cur_len cur_data length].
  destruct (Z.ltb_spec (Z.of_nat (S (length l))) 1); [lia|]. cbn [app head mbind option_bind tail].
  change ((8 <=? 0) || (0 <? 0) && _) with false. cbn iota.
  destruct ((0 :: l ++ rest) !! Z.to_nat (Z.of_nat (S (length l)) - 1)) as [last|] eqn:E.
  - cbn [mbind option_bind]. change (u8 (255 ≫ (8 - 0))) with 0. rewrite Z.land_0_r. cbn. do 3 f_equal. lia.
  - apply lookup_ge_None in E. cbn [length] in E. rewrite length_app in E. lia.
Qed.

Lemma integral_bit_string_object l rest n : zlen l < 2 ^ 30 -> zlen (asn1_object ASN1_BIT_STRING (0 :: l)) <= n ->
  asn1_integral_bit_string (Cursor (asn1_object ASN1_BIT_STRING (0 :: l) ++ rest) n) = Some (inl (BitString (l ++ rest) (zlen l) 0)).
Proof. intros L Hn. unfold asn1_integral_bit_string. by rewrite bit_string_object. Qed.

Lemma public_integers algorithm ints : zlen (asn1_object ASN1_SEQUENCE
    (asn1_object ASN1_SEQUENCE algorithm ++ asn1_object ASN1_BIT_STRING (0 :: asn1_object ASN1_SEQUENCE ints))) < 2 ^ 30 ->
  rsa_find_integers (asn1_object ASN1_SEQUENCE
    (asn1_object ASN1_SEQUENCE algorithm ++ asn1_object ASN1_BIT_STRING (0 :: asn1_object ASN1_SEQUENCE ints)))
  = Some (inl (false, Cursor ints (zlen ints))).
Proof.
  set (inner := asn1_object ASN1_SEQUENCE ints). set (bits := asn1_object ASN1_BIT_STRING (0 :: inner)).
  set (alg := asn1_object ASN1_SEQUENCE algorithm). set (body := alg ++ bits). intros L.
  pose proof (object_longer ASN1_SEQUENCE body). pose proof (object_longer ASN1_SEQUENCE algorithm) as La. fold alg in La.
  pose proof (object_longer ASN1_BIT_STRING (0 :: inner)) as Lb. fold bits in Lb. cbn [length] in Lb.
  pose proof (object_longer ASN1_SEQUENCE ints) as Li. fold inner in Li.
  assert (zlen body = zlen alg + zlen bits) as Lbody by (subst body; rewrite length_app; lia).
  unfold rsa_find_integers. rewrite <- (app_nil_r (asn1_object ASN1_SEQUENCE body)).
  rewrite asn1_enter_object; [|done|by left|lia|rewrite app_nil_r; lia]. cbn [mbind option_bind snd].
  rewrite app_nil_r.
  assert (asn1_type (Cursor body (zlen body)) = Some ASN1_SEQUENCE) as -> by (by apply object_type).
  cbn [mbind option_bind]. change (ASN1_SEQUENCE =? ASN1_INTEGER) with false. cbn iota.
  assert (asn1_skip (Cursor body (zlen body)) ASN1_SEQUENCE = Some (RC_OK, Cursor bits (zlen bits))) as ->.
  { subst body. unfold alg at 1. rewrite asn1_skip_object; [|done|by left|lia|fold alg; lia]. fold alg. do 3 f_equal. lia. }
  cbn [mbind option_bind snd].
  assert (asn1_integral_bit_string (Cursor bits (zlen bits)) = Some (inl (BitString inner (zlen inner) 0))) as ->.
  { rewrite <- (app_nil_r bits) at 1. rewrite <- (app_nil_r inner) at 1. apply integral_bit_string_object; fold bits; lia. }
  cbn [mbind option_bind bits_data bits_len].
  assert (asn1_enter (Cursor inner (zlen inner)) ASN1_SEQUENCE = Some (RC_OK, Cursor ints (zlen ints))) as ->.
  { rewrite <- (app_nil_r inner) at 1. rewrite <- (app_nil_r ints) at 1. apply asn1_enter_object; [done|by left|lia|fold inner; lia]. }
  done.
Qed.

Lemma private_integers ints : ints <> [] -> zlen (asn1_object ASN1_SEQUENCE (asn1_object ASN1_INTEGER [0] ++ ints)) < 2 ^ 30 ->
  rsa_find_integers (asn1_object ASN1_SEQUENCE (asn1_object ASN1_INTEGER [0] ++ ints)) = Some (inl (true, Cursor ints (zlen ints))).
Proof.
  intros Hne L. pose proof (object_longer ASN1_SEQUENCE (asn1_object ASN1_INTEGER [0] ++ ints)).
  unfold rsa_find_integers. rewrite <- (app_nil_r (asn1_object ASN1_SEQUENCE _)).
  rewrite asn1_enter_object; [|done|by left|lia|rewrite app_nil_r; lia]. cbn [mbind option_bind snd].
  rewrite app_nil_r, object_type by done. cbn [mbind option_bind]. change (ASN1_INTEGER =? ASN1_INTEGER) with true. cbn iota.
  unfold asn1_skip_any. rewrite asn1_skip_object; [|done|by right|done|rewrite length_app; destruct ints; [done|cbn [length]; lia]].
  cbn [mbind option_bind snd]. do 4 f_equal. rewrite length_app. lia.
Qed.

(** What [malloc] gives: elements, as many as the structure has. *)
Definition malloc_gives (malloc : Z -> Z -> option (list Z)) (modulus_len exponent_len : Z) : Prop :=
  exists mem, malloc modulus_len exponent_len = Some mem /\ limbs mem /\ length mem = rsa_dynamic_size modulus_len exponent_len.

Lemma required_size_spec len : 1 <= len -> 1 <= bigint_required_size len /\ len <= 4 * bigint_required_size len.
Proof. intros H. unfold bigint_required_size. zdm. Qed.

Lemma rsa_construct_spec malloc modulus exponent n e : contents modulus = n -> cur_len modulus = zlen n ->
  contents exponent = e -> cur_len exponent = zlen e -> minimal n -> minimal e -> zlen n < 2 ^ 30 ->
  malloc_gives malloc (zlen n) (zlen e) ->
  exists c, rsa_construct malloc modulus exponent = Some (inl c) /\ rsa_holds c (be_val n) (be_val e) /\ rsa_max_len c = zlen n /\
    zlen (rsa_modulus c) = bigint_required_size (zlen n).
Proof.
  intros En Ln Ee Le Hn He Lt (mem & Em & Hm & Lm). unfold rsa_construct. rewrite Ln, Le, En, Ee, Em.
  pose proof (minimal_value n Hn) as Vn. pose proof (minimal_value e He) as Ve.
  pose proof (Z.pow_pos_nonneg 2 (8 * (zlen n - 1))). pose proof (Z.pow_pos_nonneg 2 (8 * (zlen e - 1))).
  assert (1 <= zlen n /\ 1 <= zlen e) as [Pn Pe].
  { destruct Hn as (_ & b & l & -> & _). destruct He as (_ & b' & l' & -> & _). cbn [length]. lia. }
  destruct (required_size_spec _ Pn) as [S1 S2]. destruct (required_size_spec _ Pe) as [X1 X2].
  unfold rsa_alloc. unfold rsa_dynamic_size in Lm.
  set (size := Z.to_nat (bigint_required_size (zlen n))) in *. set (es := Z.to_nat (bigint_required_size (zlen e))) in *.
  cbn [rsa_modulus rsa_exponent rsa_input rsa_output rsa_tmp rsa_max_len].
  assert (forall off k, (off + k <= length mem)%nat -> limbs (take k (drop off mem)) /\ length (take k (drop off mem)) = k) as Sl.
  { intros off k Hk. split; [by apply Forall_take, Forall_drop|]. rewrite length_take, length_drop. lia. }
  rewrite (proj2 (Sl 0%nat size ltac:(lia))), (proj2 (Sl size es ltac:(lia))).
  destruct (init_spec size n) as (v & -> & Hv & Lv & Vv); [apply Hn|lia|].
  destruct (init_spec es e) as (w & -> & Hw & Lw & Vw); [apply He|lia|]. cbn [mbind option_bind].
  eexists. splits; [done| |done|cbn [rsa_modulus]; lia]. split; cbn; rewrite ?Lv; try done; try apply Sl; try lia.
  split; [apply Sl; lia|]. intros E%(f_equal length). rewrite length_take, length_drop in E. cbn [length] in E. lia.
Qed.

Lemma der_integer_longer l : zlen l + 2 <= zlen (der_integer l).
Proof.
  pose proof (object_longer ASN1_INTEGER (der_unsigned l)) as H. unfold der_integer.
  assert (zlen l <= zlen (der_unsigned l)); [|lia]. destruct l as [|b l]; cbn; [lia|]. destruct (128 <=? b); cbn [length]; lia.
Qed.

Lemma der_integer_skip l rest n t : minimal l -> zlen (der_integer l) < 2 ^ 30 -> zlen (der_integer l) < n ->
  t = ASN1_INTEGER \/ t = ASN1_ANY ->
  asn1_skip (Cursor (der_integer l ++ rest) n) t = Some (RC_OK, Cursor rest (n - zlen (der_integer l))).
Proof.
  intros Hm L Hn Ht. unfold der_integer in *. pose proof (object_longer ASN1_INTEGER (der_unsigned l)).
  rewrite asn1_skip_object; [done|done|done|lia|done].
Qed.

Lemma rsa_init_public malloc algorithm n e : minimal n -> minimal e ->
  zlen (der_public_key algorithm n e) < 2 ^ 30 -> malloc_gives malloc (zlen n) (zlen e) ->
  exists c, rsa_init malloc (der_public_key algorithm n e) = Some (inl c) /\ rsa_holds c (be_val n) (be_val e) /\
    rsa_max_len c = zlen n /\ zlen (rsa_modulus c) = bigint_required_size (zlen n).
Proof.
  intros Hn He L Hm. unfold rsa_init, der_public_key in *. rewrite public_integers by done. cbn [mbind option_bind].
  pose proof (der_integer_longer n). pose proof (der_integer_longer e).
  assert (zlen (der_integer n ++ der_integer e) < 2 ^ 30) as L'.
  { set (ints := der_integer n ++ der_integer e) in *.
    pose proof (object_longer ASN1_SEQUENCE ints). set (inner := asn1_object ASN1_SEQUENCE ints) in *.
    pose proof (object_longer ASN1_BIT_STRING (0 :: inner)) as Lb. cbn [length] in Lb.
    match type of L with zlen (asn1_object _ ?b) < _ => pose proof (object_longer ASN1_SEQUENCE b) as Lq end.
    rewrite length_app in Lq. lia. }
  rewrite length_app in L'. rewrite (length_app (der_integer n)).
  destruct (rsa_parse_integer_spec n (der_integer e) (Z.of_nat (length (der_integer n) + length (der_integer e)))) as (cn & -> & En & Ln);
    [done|lia|lia|]. cbn [mbind option_bind].
  unfold asn1_skip_any. rewrite der_integer_skip by (done || lia || by right). cbn [mbind option_bind snd].
  match goal with |- context [rsa_parse_integer (Cursor _ ?k)] =>
    destruct (rsa_parse_integer_spec e [] k) as (ce & E & Ee & Le); [done|lia|lia|] end.
  rewrite app_nil_r in E. rewrite E. cbn [mbind option_bind]. apply (rsa_construct_spec _ _ _ n e); try done. lia.
Qed.

Lemma rsa_init_private malloc n e d others : minimal n -> minimal e -> minimal d ->
  zlen (der_private_key n e d others) < 2 ^ 30 -> malloc_gives malloc (zlen n) (zlen d) ->
  exists c, rsa_init malloc (der_private_key n e d others) = Some (inl c) /\ rsa_holds c (be_val n) (be_val d) /\
    rsa_max_len c = zlen n /\ zlen (rsa_modulus c) = bigint_required_size (zlen n).
Proof.
  intros Hn He Hd L Hm. pose proof (der_integer_longer n). pose proof (der_integer_longer e). pose proof (der_integer_longer d).
  unfold rsa_init, der_private_key in *.
  assert (zlen (der_integer n ++ der_integer e ++ der_integer d ++ others) < 2 ^ 30) as L'.
  { match type of L with zlen (asn1_object _ ?b) < _ => pose proof (object_longer ASN1_SEQUENCE b) as Lq end.
    rewrite length_app in Lq. lia. }
  rewrite private_integers; [|destruct (der_integer n); [cbn in *; lia|done]|done]. cbn [mbind option_bind].
  rewrite !length_app in L'. rewrite !length_app.
  match goal with |- context [rsa_parse_integer (Cursor (der_integer n ++ ?r) ?k)] =>
    destruct (rsa_parse_integer_spec n r k) as (cn & -> & En & Ln); [done|lia|lia|] end. cbn [mbind option_bind].
  unfold asn1_skip_any. rewrite der_integer_skip by (done || lia || by right). cbn [mbind option_bind snd].
  rewrite der_integer_skip by (done || lia || by left). cbn [mbind option_bind snd].
  match goal with |- context [rsa_parse_integer (Cursor (der_integer d ++ ?r) ?k)] =>
    destruct (rsa_parse_integer_spec d r k) as (cd & -> & Ed & Ld); [done|lia|lia|] end.
  cbn [mbind option_bind]. apply (rsa_construct_spec _ _ _ n d); try done. lia.
Qed.

(** ** The generator of non-zero bytes as a source of padding. *)

Definition drbg_random_nz {src} (scratch : md_context) (fuel : nat) (s : entropy_state src * drbg_state) (len : Z) :
    option ((entropy_state src * drbg_state) * (errno + list Z)) :=
  p ← get_random_nz scratch fuel s.1 s.2 len;
  let '(est, state, r) := p in Some ((est, state), r).

Lemma random_nz_typed src scratch fuel est state len est' state' r : source_ok src -> md_ctx_ok scratch ->
  usable src est -> drbg_typed state -> 0 <= len ->
  get_random_nz scratch fuel est state len = Some (est', state', r) ->
  usable src est' /\ drbg_typed state' /\ forall bytes, r = inr bytes -> nonzero_bytes bytes /\ zlen bytes = len.
Proof.
  intros Hsrc Hsc. revert est state len est' state' r.
  induction fuel as [|fuel IH]; intros est state len est' state' r Hu Ht Hl E; cbn [get_random_nz] in E;
    destruct (Z.eqb_spec len 0) as [->|Hn].
  1, 3: injection E as <- <- <-; splits; [done|done|]; intros bytes [= <-]; split; [constructor|done].
  - done.
  - destruct (drbg_generate_run src Hsrc scratch Hsc est state [] false 1 Hu Ht ltac:(by vm_compute) ltac:(lia))
      as ([[est1 s1] r1] & E1 & Hu1 & Ht1 & _ & Hr). unfold rbg_generate in E. rewrite E1 in E. cbn [mbind option_bind] in E.
    destruct r1 as [e|b]; [by injection E as <- <- <-|]. destruct Hr as (Lb & Hb & _).
    destruct b as [|x [|y b]]; cbn [length] in Lb; [lia| |lia]. apply Forall_inv in Hb. unfold is_byte in Hb.
    destruct (bool_decide ([x] = [0])) eqn:Ex; [by eapply IH|].
    destruct (get_random_nz scratch fuel est1 s1 (len - 1)) as [[[est2 s2] r2]|] eqn:E2; [|done]. cbn [mbind option_bind] in E.
    destruct (IH est1 s1 (len - 1) est2 s2 r2 Hu1 Ht1 ltac:(lia) E2) as (Hu2 & Ht2 & Hr2). injection E as <- <- <-.
    splits; [done|done|]. intros bytes Eb. destruct r2 as [e|rest]; [done|]. injection Eb as <-.
    destruct (Hr2 rest eq_refl) as [Hnz Lr]. apply bool_decide_eq_false in Ex. cbn [app length]. split; [|lia].
    constructor; [|done]. assert (x <> 0) by congruence. lia.
Qed.

#[export] Instance drbg_nonzero src scratch fuel (Hsrc : source_ok src) (Hscratch : md_ctx_ok scratch) :
  NonZeroRandom (drbg_random_nz (src := src) scratch fuel) (fun s => usable src s.1 /\ drbg_typed s.2).
Proof.
  assert (forall s len s' r, usable src s.1 /\ drbg_typed s.2 -> 0 <= len -> drbg_random_nz scratch fuel s len = Some (s', r) ->
    (usable src s'.1 /\ drbg_typed s'.2) /\ forall bytes, r = inr bytes -> nonzero_bytes bytes /\ zlen bytes = len) as H.
  { intros [est state] len s' r [Hu Ht] Hl E. unfold drbg_random_nz in E. cbn [fst snd] in Hu, Ht, E.
    destruct (get_random_nz scratch fuel est state len) as [[[est1 s1] r1]|] eqn:E1; [|done]. cbn [mbind option_bind] in E.
    injection E as <- <-. destruct (random_nz_typed src scratch fuel est state len est1 s1 r1 Hsrc Hscratch Hu Ht Hl E1) as (? & ? & ?).
    done. }
  split.
  - intros s len s' r Hs Hl E. by apply (H s len s' r).
  - intros s len s' bytes Hs Hl E. by apply (H s len s' (inr bytes)).
Qed.

(** ** The properties. *)

(** C10: the keys of a pair over distinct primes, read from their DER
    encodings, undo each other: whatever the padding bytes, what was
    encrypted with the public key is what decryption with the private one
    returns, for every plaintext that leaves room for the padding. *)
Theorem rsa_decrypts {S} get_random_nz (ok : S -> Prop) `{!NonZeroRandom get_random_nz ok} malloc primes algorithm n e d others :
  rsa_exponents primes (be_val e) (be_val d) -> product primes = be_val n -> minimal n -> minimal e -> minimal d ->
  11 <= zlen n -> zlen (der_public_key algorithm n e) < 2 ^ 30 -> zlen (der_private_key n e d others) < 2 ^ 30 ->
  malloc_gives malloc (zlen n) (zlen e) -> malloc_gives malloc (zlen n) (zlen d) ->
  exists public private,
    rsa_init malloc (der_public_key algorithm n e) = Some (inl public) /\
    rsa_init malloc (der_private_key n e d others) = Some (inl private) /\
    forall rng rng' plaintext bytes, ok rng -> bytes_ok plaintext -> zlen plaintext <= zlen n - 11 ->
      get_random_nz rng (zlen n - 3 - zlen plaintext) = Some (rng', inr bytes) ->
      exists public' private' ciphertext,
        rsa_encrypt get_random_nz rng public plaintext = Some (rng', public', inl ciphertext) /\
        rsa_decrypt private ciphertext = Some (private', inl plaintext).
Proof.
  intros Hx Pn Hn He Hd L11 Lpub Lpriv Mpub Mpriv.
  destruct (rsa_init_public malloc algorithm n e Hn He Lpub Mpub) as (public & Ep & Hp & Lp & Lmod).
  destruct (rsa_init_private malloc n e d others Hn He Hd Lpriv Mpriv) as (private & Es & Hs & Ls & _).
  exists public, private. splits; [done|done|]. intros rng rng' plaintext bytes Hok Hpt Lpt Er.
  destruct (nz_bytes rng (zlen n - 3 - zlen plaintext) rng' bytes) as [Hb Lb]; [done|lia|done|].
  destruct (rsa_encrypt_spec get_random_nz public (be_val n) (be_val e) rng rng' plaintext bytes) as (public' & Ee & _);
    [done|lia|done|lia|by rewrite Lp|done|lia|].
  pose proof (minimal_value n Hn) as Vn. rewrite Lp in Ee.
  assert (zlen (encoded_message bytes plaintext) = zlen n) as Lm by (unfold encoded_message; rewrite !length_app; cbn [length]; lia).
  assert (bytes_ok (tail (encoded_message bytes plaintext))) as Ht.
  { apply small_bytes; [unfold is_byte; lia|]. apply Forall_app; split; [by apply nonzero_bytes_ok|].
    apply small_bytes; [unfold is_byte; lia|done]. }
  assert (0 <= be_val (encoded_message bytes plaintext) < be_val n) as Hm.
  { apply (encoded_below public (be_val n) (tail (encoded_message bytes plaintext))); [by unfold full_length; rewrite Lp|done|].
    rewrite Lp. cbn [tail encoded_message app length] in *. lia. }
  assert (Z.of_nat (Z.to_nat (zlen n)) = zlen n) as Ez by lia.
  destruct (rsa_decrypt_spec private (be_val n) (be_val d) bytes plaintext
    (be_bytes (Z.to_nat (zlen n)) (be_val (encoded_message bytes plaintext) ^ be_val e mod be_val n))) as (private' & Ed & _);
    [done|done|done|lia|apply be_bytes_ok|rewrite be_bytes_length; lia| |by eexists public', private', _].
  rewrite be_val_bytes, Ez, (Z.mod_small (_ mod _)).
  - rewrite <- Pn. rewrite <- Pn in Hm. by apply rsa_identity.
  - pose proof (Z.mod_pos_bound (be_val (encoded_message bytes plaintext) ^ be_val e) (be_val n) ltac:(lia)). lia.
Qed.

(** C14: a digest signed with the private key of a pair is verified with
    the public one, for the three digests and every modulus with room for
    the encoded digest. *)
Theorem rsa_verifies malloc primes algorithm n e d others digest prefix value :
  rsa_exponents primes (be_val e) (be_val d) -> product primes = be_val n -> minimal n -> minimal e -> minimal d ->
  zlen (der_public_key algorithm n e) < 2 ^ 30 -> zlen (der_private_key n e d others) < 2 ^ 30 ->
  malloc_gives malloc (zlen n) (zlen e) -> malloc_gives malloc (zlen n) (zlen d) ->
  digest_value digest prefix value -> zlen prefix + zlen value + 11 <= zlen n ->
  exists public private public' private' signature,
    rsa_init malloc (der_public_key algorithm n e) = Some (inl public) /\
    rsa_init malloc (der_private_key n e d others) = Some (inl private) /\
    rsa_sign private digest value = Some (private', inl signature) /\
    rsa_verify public digest value signature = Some (public', RC_OK).
Proof.
  intros Hx Pn Hn He Hd Lpub Lpriv Mpub Mpriv Hv Lv.
  destruct (rsa_init_public malloc algorithm n e Hn He Lpub Mpub) as (public & Ep & Hp & Lp & Lmod).
  destruct (rsa_init_private malloc n e d others Hn He Hd Lpriv Mpriv) as (private & Es & Hs & Ls & _).
  destruct (rsa_sign_spec private (be_val n) (be_val d) digest prefix value Hs Hv) as (private' & _ & Esig); [lia|].
  pose proof (minimal_value n Hn) as Vn. rewrite Ls in Esig.
  destruct (encoded_digest_bytes (zlen n) _ _ _ Hv Lv) as [Hb Lm].
  assert (0 <= be_val (encoded_digest (zlen n) prefix value) < be_val n) as Hm.
  { apply (encoded_below public (be_val n) (tail (encoded_digest (zlen n) prefix value)));
      [by unfold full_length; rewrite Lp|by apply Forall_cons in Hb as [_ Hb]|].
    rewrite Lp. cbn [tail encoded_digest app length] in *. lia. }
  assert (Z.of_nat (Z.to_nat (zlen n)) = zlen n) as Ez by lia.
  set (em := encoded_digest (zlen n) prefix value) in *.
  pose proof (Z.mod_pos_bound (be_val em ^ be_val d) (be_val n) ltac:(lia)).
  destruct (rsa_verify_spec public (be_val n) (be_val e) digest prefix value
    (be_bytes (Z.to_nat (zlen n)) (be_val em ^ be_val d mod be_val n))) as (public' & _ & Ev);
    [done|rewrite Lp; lia|done|lia|apply be_bytes_ok|rewrite be_bytes_length; lia|].
  rewrite bool_decide_eq_true_2 in Ev; [by eexists public, private, public', private', _|].
  rewrite be_val_bytes, Ez, (Z.mod_small (_ mod _)), Lp by lia. fold em.
  rewrite <- Pn. rewrite <- Pn in Hm. apply rsa_identity; [|done].
  destruct Hx as [P1 P2 P3 P4 P5]. split; try done. by rewrite Z.mul_comm.
Qed.

(** Verification is exact: with a public key read from its DER
    encoding, a signature of the right length is accepted if and only if
    its power modulo the key is the encoded digest, and is refused as
    incorrect otherwise. *)
Theorem rsa_verify_exact malloc algorithm n e digest prefix value signature :
  minimal n -> minimal e -> zlen (der_public_key algorithm n e) < 2 ^ 30 -> malloc_gives malloc (zlen n) (zlen e) ->
  digest_value digest prefix value -> zlen prefix + zlen value + 11 <= zlen n ->
  bytes_ok signature -> zlen signature = zlen n ->
  exists public public',
    rsa_init malloc (der_public_key algorithm n e) = Some (inl public) /\
    rsa_verify public digest value signature
    = Some (public', if bool_decide (be_val signature ^ be_val e mod be_val n = be_val (encoded_digest (zlen n) prefix value))
                     then RC_OK else RC_ERR EACCES_VERIFY).
Proof.
  intros Hn He Lpub Mpub Hv Lv Hs Ls.
  destruct (rsa_init_public malloc algorithm n e Hn He Lpub Mpub) as (public & Ep & Hp & Lp & Lmod).
  pose proof (minimal_value n Hn).
  destruct (rsa_verify_spec public (be_val n) (be_val e) digest prefix value signature) as (public' & _ & Ev);
    [done|rewrite Lp; lia|done|lia|done|lia|]. rewrite Lp in Ev. by exists public, public'.
Qed.

(** C39: a modulus of less than eleven bytes makes the length of the
    padding wrap: checking a signature of the right length with such a
    key stores outside the context. *)
Theorem rsa_short_key_overruns malloc algorithm n e digest prefix value signature :
  minimal n -> minimal e -> zlen (der_public_key algorithm n e) < 2 ^ 30 -> malloc_gives malloc (zlen n) (zlen e) ->
  digest_value digest prefix value -> zlen n < 11 -> bytes_ok signature -> zlen signature = zlen n ->
  exists public, rsa_init malloc (der_public_key algorithm n e) = Some (inl public) /\
    rsa_verify public digest value signature = None.
Proof.
  intros Hn He Lpub Mpub Hv Ln Hs Ls.
  destruct (rsa_init_public malloc algorithm n e Hn He Lpub Mpub) as (public & Ep & Hp & Lp & Lmod).
  exists public. split; [done|].
  destruct (decipher_memory public _ _ signature Hp Hs ltac:(lia)) as (c1 & rest & E & H1 & L1 & Lmod1 & Em). cbn zeta in *.
  unfold rsa_verify. rewrite Ls, Lp, Z.eqb_refl. cbn [negb]. rewrite E. cbn [mbind option_bind].
  set (c2 := set_input c1 _) in *. assert (rsa_max_len c2 = zlen n) as L2 by (by rewrite <- Lp, <- L1).
  assert (zlen (rsa_modulus c2) = bigint_required_size (zlen n)) as M2 by (by rewrite <- Lmod, <- Lmod1). clearbody c2.
  destruct (output_memory c2 _ _ H1) as [Hm Lm]. pose proof (rh_len _ _ _ H1) as [Hl2 _].
  enough (rsa_encode_digest c2 digest value (memory (rsa_output c2)) = None) as -> by done.
  assert (1 <= zlen n) as Pn by (destruct Hn as (_ & b & l & -> & _); cbn [length]; lia).
  assert (4 <= zlen (memory (rsa_output c2)) <= 12) as Bm by (rewrite Lm, M2; unfold bigint_required_size; zdm).
  destruct Hv as (Ef & Hv & Lv). destruct (prefix_bytes _ _ Ef) as (_ & Hd & Hpl). unfold rsa_encode_digest. rewrite Ef, L2, <- Lv.
  rewrite (wrap_small 32 (zlen prefix + zlen value)) by lia.
  assert (u32 (zlen n - 11) = zlen n - 11 + 2 ^ 32) as -> by (unfold wrap; change (2 ^ 32) with 4294967296; zdm).
  rewrite (wrap_small 32 (zlen n - 11 + 2 ^ 32 - (zlen prefix + zlen value) + 8)) by lia.
  destruct (Z.ltb_spec (zlen n - 11 + 2 ^ 32) (zlen prefix + zlen value)); [lia|].
  set (mem := memory (rsa_output c2)) in *. change mem with ([] ++ mem) at 1.
  rewrite store_seq by (done || cbn; lia). cbn [mbind option_bind].
  rewrite store_seq by (done || (cbn [length]; rewrite length_drop; lia)). cbn [mbind option_bind]. unfold fill.
  match goal with |- context [?a <? ?b] => destruct (Z.ltb_spec a b) as [|C]; [done|exfalso; revert C] end.
  rewrite length_app, !length_drop. cbn [length app]. lia.
Qed.


(** ** Witnesses: a key over the 59 primes below 280. *)

Definition small_primes : list Z := filter (fun p => forallb (fun n => Z.gcd n p =? 1) (seqZ 1 (p - 1)) = true) (seqZ 2 276).
Definition key_n : list Z := be_bytes 47 (product small_primes).
Definition key_e : list Z := [1; 0; 1].
Definition key_d : list Z := be_bytes 14 68273275253351232821282076585473.
Definition key_malloc (modulus_len exponent_len : Z) : option (list Z) := Some (replicate (rsa_dynamic_size modulus_len exponent_len) 7).

Lemma key_pair : rsa_exponents small_primes (be_val key_e) (be_val key_d).
Proof. apply rsa_exponents_checked. vm_compute. reflexivity. Qed.

Lemma key_product : product small_primes = be_val key_n.
Proof. vm_compute. reflexivity. Qed.

Lemma key_minimal : minimal key_n /\ minimal key_e /\ minimal key_d.
Proof.
  splits; (split; [by_decide|]); vm_compute; (eexists _, _; split; reflexivity).
Qed.

Lemma key_malloc_gives m e : malloc_gives key_malloc m e.
Proof.
  eexists. splits; [done| |apply length_replicate]. apply Forall_replicate. unfold limb. lia.
Qed.

Lemma key_lengths : 11 <= zlen key_n /\ zlen (der_public_key ASN1_OID_RSAENCRYPTION key_n key_e) < 2 ^ 30 /\
  zlen (der_private_key key_n key_e key_d []) < 2 ^ 30 /\
  zlen (RSA_DIGESTINFO_PREFIX 20 ASN1_OID_SHA1) + zlen (replicate 20 9) + 11 <= zlen key_n.
Proof. by_decide. Qed.

Lemma key_digest : digest_value sha1_ref (RSA_DIGESTINFO_PREFIX 20 ASN1_OID_SHA1) (replicate 20 9).
Proof. split; [done|]. split; [by_decide|done]. Qed.

Lemma rsa_decrypts_witness :
  exists public private,
    rsa_init key_malloc (der_public_key ASN1_OID_RSAENCRYPTION key_n key_e) = Some (inl public) /\
    rsa_init key_malloc (der_private_key key_n key_e key_d []) = Some (inl private).
Proof.
  assert (md_ctx_ok stale_context) as Hs by done.
  pose proof (drbg_nonzero counting_source stale_context 100 counting_ok Hs) as Hnz.
  destruct (rsa_decrypts (drbg_random_nz (src := counting_source) stale_context 100)
    (fun s => usable counting_source s.1 /\ drbg_typed s.2) key_malloc
    small_primes ASN1_OID_RSAENCRYPTION key_n key_e key_d [] key_pair key_product (proj1 key_minimal)
    (proj1 (proj2 key_minimal)) (proj2 (proj2 key_minimal)) (proj1 key_lengths) (proj1 (proj2 key_lengths)) (proj1 (proj2 (proj2 key_lengths)))
    (key_malloc_gives _ _) (key_malloc_gives _ _)) as (public & private & Ep & Es & _).
  exists public, private. exact (conj Ep Es).
Defined.

Lemma rsa_verifies_witness :
  exists public private public' private' signature,
    rsa_init key_malloc (der_public_key ASN1_OID_RSAENCRYPTION key_n key_e) = Some (inl public) /\
    rsa_init key_malloc (der_private_key key_n key_e key_d []) = Some (inl private) /\
    rsa_sign private sha1_ref (replicate 20 9) = Some (private', inl signature) /\
    rsa_verify public sha1_ref (replicate 20 9) signature = Some (public', RC_OK).
Proof.
  apply (rsa_verifies key_malloc small_primes ASN1_OID_RSAENCRYPTION key_n key_e key_d [] sha1_ref
    (RSA_DIGESTINFO_PREFIX 20 ASN1_OID_SHA1) (replicate 20 9) key_pair key_product (proj1 key_minimal)
    (proj1 (proj2 key_minimal)) (proj2 (proj2 key_minimal))); try apply key_malloc_gives.
  - exact (proj1 (proj2 key_lengths)).
  - exact (proj1 (proj2 (proj2 key_lengths))).
  - exact key_digest.
  - exact (proj2 (proj2 (proj2 key_lengths))).
Defined.

(** A signature of zeros is refused. *)
Lemma rsa_verify_exact_witness :
  exists public public',
    rsa_init key_malloc (der_public_key ASN1_OID_RSAENCRYPTION key_n key_e) = Some (inl public) /\
    rsa_verify public sha1_ref (replicate 20 9) (replicate 47 0) = Some (public', RC_ERR EACCES_VERIFY).
Proof.
  destruct (rsa_verify_exact key_malloc ASN1_OID_RSAENCRYPTION key_n key_e sha1_ref
    (RSA_DIGESTINFO_PREFIX 20 ASN1_OID_SHA1) (replicate 20 9) (replicate 47 0) (proj1 key_minimal) (proj1 (proj2 key_minimal))
    (proj1 (proj2 key_lengths)) (key_malloc_gives _ _) key_digest
    (proj2 (proj2 (proj2 key_lengths))) ltac:(by_decide) ltac:(done)) as (public & public' & Ep & Ev).
  exists public, public'. split; [exact Ep|]. rewrite Ev.
  rewrite bool_decide_eq_false_2; [reflexivity|]. change (be_val (replicate 47 0)) with 0. rewrite Z.pow_0_l by reflexivity.
  vm_compute. discriminate.
Defined.

Lemma rsa_short_key_overruns_witness :
  exists public, rsa_init key_malloc (der_public_key ASN1_OID_RSAENCRYPTION [200; 1; 7] [3]) = Some (inl public) /\
    rsa_verify public sha1_ref (replicate 20 9) [1; 2; 3] = None.
Proof.
  apply (rsa_short_key_overruns key_malloc ASN1_OID_RSAENCRYPTION [200; 1; 7] [3] sha1_ref
    (RSA_DIGESTINFO_PREFIX 20 ASN1_OID_SHA1) (replicate 20 9) [1; 2; 3]).
  - split; [by_decide|]. by exists 200, [1; 7].
  - split; [by_decide|]. by exists 3, [].
  - apply Z.ltb_lt. vm_compute. reflexivity.
  - apply key_malloc_gives.
  - apply key_digest.
  - reflexivity.
  - by_decide.
  - reflexivity.
Defined.
