(* ===== verification/X509.v ===== *)
(** * X.509 certificates: parsing (crypto/x509.c, include/ipxe/x509.h).

    A certificate is a record with the fields of struct x509_certificate;
    cursors into the raw data are those of [Asn1].  Each parsing function
    returns its status and the certificate with the fields parsed so far;
    after an error the caller drops the certificate.  Whether an allocation of a given size succeeds is a parameter.
    Loops over a cursor run on fuel, one turn per covered byte, since
    every turn skips an object or invalidates the cursor.

    The theorems about these definitions are in [X509Der]. *)

From S2P Require Import Prelude Asn1 Time Digest Rsa.

(** ** Algorithms. *)

(** A pointer to a public-key algorithm; there is one. *)
Inductive pubkey_ref := rsa_ref.

Abbreviation algorithm := (asn1_algorithm_t pubkey_ref digest_ref).

Definition rsa_encryption_algorithm : algorithm := Algorithm ASN1_OID_RSAENCRYPTION (Some rsa_ref) None.
Definition md5_with_rsa_encryption_algorithm : algorithm := Algorithm ASN1_OID_MD5WITHRSAENCRYPTION (Some rsa_ref) (Some md5_ref).
Definition sha1_with_rsa_encryption_algorithm : algorithm := Algorithm ASN1_OID_SHA1WITHRSAENCRYPTION (Some rsa_ref) (Some sha1_ref).
Definition sha256_with_rsa_encryption_algorithm : algorithm :=
  Algorithm ASN1_OID_SHA256WITHRSAENCRYPTION (Some rsa_ref) (Some sha256_ref).
Definition oid_md5_algorithm : algorithm := Algorithm ASN1_OID_MD5 None (Some md5_ref).
Definition oid_sha1_algorithm : algorithm := Algorithm ASN1_OID_SHA1 None (Some sha1_ref).
Definition oid_sha256_algorithm : algorithm := Algorithm ASN1_OID_SHA256 None (Some sha256_ref).

Definition ASN1_ALGORITHMS : list algorithm :=
  [rsa_encryption_algorithm; md5_with_rsa_encryption_algorithm; sha1_with_rsa_encryption_algorithm;
   sha256_with_rsa_encryption_algorithm; oid_md5_algorithm; oid_sha1_algorithm; oid_sha256_algorithm].

(** ** Certificates. *)

Record x509_public_key := PublicKey {
  pk_raw : asn1_cursor; pk_algorithm : option algorithm; pk_bits : asn1_bit_string_t;
}.

Record x509_subject := Subject { subject_raw : asn1_cursor; subject_name : option (list Z); public_key : x509_public_key }.

Record x509_extensions := Extensions {
  ext_ca : Z; ext_path_len : Z;
  usage_present : bool; usage_bits : Z;
  ext_usage_bits : Z;
  ocsp_uri : option (list Z); ocsp_good : bool;
}.

Record x509_certificate := Certificate {
  valid : bool;
  path_remaining : Z;
  raw : asn1_cursor;
  version : Z;
  serial : asn1_cursor;
  tbs : asn1_cursor;
  signature_algorithm : option algorithm;
  issuer : asn1_cursor;
  not_before : Z;
  not_after : Z;
  subject : x509_subject;
  sig_algorithm : option algorithm;
  sig_value : asn1_bit_string_t;
  extensions : x509_extensions;
}.

(** What [zalloc] leaves in the structure. *)
Definition null_cursor : asn1_cursor := Cursor [] 0.
Definition null_certificate : x509_certificate :=
  Certificate false 0 null_cursor 0 null_cursor null_cursor None null_cursor 0 0
    (Subject null_cursor None (PublicKey null_cursor None (BitString [] 0 0))) None (BitString [] 0 0)
    (Extensions 0 0 false 0 0 None false).

(** Assignments to a field. *)
Definition set_raw x c := Certificate (valid c) (path_remaining c) x (version c) (serial c) (tbs c) (signature_algorithm c)
  (issuer c) (not_before c) (not_after c) (subject c) (sig_algorithm c) (sig_value c) (extensions c).
Definition set_version x c := Certificate (valid c) (path_remaining c) (raw c) x (serial c) (tbs c) (signature_algorithm c)
  (issuer c) (not_before c) (not_after c) (subject c) (sig_algorithm c) (sig_value c) (extensions c).
Definition set_serial x c := Certificate (valid c) (path_remaining c) (raw c) (version c) x (tbs c) (signature_algorithm c)
  (issuer c) (not_before c) (not_after c) (subject c) (sig_algorithm c) (sig_value c) (extensions c).
Definition set_tbs x c := Certificate (valid c) (path_remaining c) (raw c) (version c) (serial c) x (signature_algorithm c)
  (issuer c) (not_before c) (not_after c) (subject c) (sig_algorithm c) (sig_value c) (extensions c).
Definition set_signature_algorithm x c := Certificate (valid c) (path_remaining c) (raw c) (version c) (serial c) (tbs c) x
  (issuer c) (not_before c) (not_after c) (subject c) (sig_algorithm c) (sig_value c) (extensions c).
Definition set_issuer x c := Certificate (valid c) (path_remaining c) (raw c) (version c) (serial c) (tbs c)
  (signature_algorithm c) x (not_before c) (not_after c) (subject c) (sig_algorithm c) (sig_value c) (extensions c).
Definition set_validity from til c := Certificate (valid c) (path_remaining c) (raw c) (version c) (serial c) (tbs c)
  (signature_algorithm c) (issuer c) from til (subject c) (sig_algorithm c) (sig_value c) (extensions c).
Definition set_subject x c := Certificate (valid c) (path_remaining c) (raw c) (version c) (serial c) (tbs c)
  (signature_algorithm c) (issuer c) (not_before c) (not_after c) x (sig_algorithm c) (sig_value c) (extensions c).
Definition set_sig a v c := Certificate (valid c) (path_remaining c) (raw c) (version c) (serial c) (tbs c)
  (signature_algorithm c) (issuer c) (not_before c) (not_after c) (subject c) a v (extensions c).
Definition set_extensions x c := Certificate (valid c) (path_remaining c) (raw c) (version c) (serial c) (tbs c)
  (signature_algorithm c) (issuer c) (not_before c) (not_after c) (subject c) (sig_algorithm c) (sig_value c) x.
Definition set_trust v p c := Certificate v p (raw c) (version c) (serial c) (tbs c) (signature_algorithm c)
  (issuer c) (not_before c) (not_after c) (subject c) (sig_algorithm c) (sig_value c) (extensions c).

Abbreviation parsed := (option (rc * x509_certificate)).

(** [if ( ( rc = m ) != 0 ) return rc;] *)
Definition and_then (m : parsed) (k : x509_certificate -> parsed) : parsed :=
  p ← m; match p with (RC_OK, cert) => k cert | _ => Some p end.

Definition ok (cert : x509_certificate) : parsed := Some (RC_OK, cert).
Definition err (e : errno) (cert : x509_certificate) : parsed := Some (RC_ERR e, cert).

(** ** Simple fields. *)

Definition x509_parse_version (cert : x509_certificate) (raw : asn1_cursor) : parsed :=
  p ← asn1_enter raw (ASN1_EXPLICIT_TAG 0);
  r ← asn1_integer p.2;
  match r with
  | inr e => err e cert
  | inl version => if version <? 0 then err EINVAL_VERSION cert else ok (set_version version cert)
  end.

Definition x509_parse_serial (cert : x509_certificate) (raw : asn1_cursor) : parsed :=
  p ← asn1_shrink raw ASN1_INTEGER; Some (p.1, set_serial p.2 cert).

Definition x509_parse_issuer (cert : x509_certificate) (raw : asn1_cursor) : parsed :=
  p ← asn1_shrink raw ASN1_SEQUENCE; Some (p.1, set_issuer p.2 cert).

Definition x509_parse_validity (cert : x509_certificate) (raw : asn1_cursor) : parsed :=
  p ← asn1_enter raw ASN1_SEQUENCE;
  r ← asn1_generalized_time p.2;
  match r with
  | inr e => err e cert
  | inl from =>
      let cert := set_validity from (not_after cert) cert in
      q ← asn1_skip_any p.2;
      s ← asn1_generalized_time q.2;
      match s with
      | inr e => err e cert
      | inl til => ok (set_validity from til cert)
      end
  end.

Section Parse.
(** Whether an allocation of that many bytes succeeds. *)
Variable zalloc_ok : Z -> bool.

Definition ASN1_OID_COMMON_NAME : list Z := [ASN1_OID_INITIAL 2 5; 4; 3].
Definition oid_common_name_cursor : asn1_cursor := oid_cursor ASN1_OID_COMMON_NAME.

(** The scan through the name list.  A name with a NUL inside returns
    [rc], which the call before set to zero. *)
Fixpoint common_name_loop (fuel : nat) (cursor : asn1_cursor) : option (rc * option (list Z)) :=
  match fuel with
  | O => None
  | S fuel' =>
      if cur_len cursor =? 0 then Some (RC_OK, None)
      else
        s ← asn1_enter cursor ASN1_SET;
        q ← asn1_enter s.2 ASN1_SEQUENCE;
        o ← asn1_enter q.2 ASN1_OID;
        if negb (asn1_compare_eq oid_common_name_cursor o.2) then
          next ← asn1_skip_any cursor; common_name_loop fuel' next.2
        else
          n ← asn1_skip_any q.2;
          e ← asn1_enter_any n.2;
          match e with
          | (RC_ERR er, _) => Some (RC_ERR er, None)
          | (rc, name_cursor) =>
              if zalloc_ok (cur_len name_cursor + 1) then
                let name := contents name_cursor in
                if negb (bool_decide (0 ∈ name)) then Some (RC_OK, Some name) else Some (rc, Some name)
              else Some (RC_ERR ENOMEM, None)
          end
  end.

Definition x509_parse_common_name (raw : asn1_cursor) : option (rc * option (list Z)) :=
  p ← asn1_enter raw ASN1_SEQUENCE;
  common_name_loop (S (Z.to_nat (cur_len p.2))) p.2.

Definition x509_parse_subject (cert : x509_certificate) (raw : asn1_cursor) : parsed :=
  p ← asn1_shrink_any raw;
  r ← x509_parse_common_name raw;
  let name := match r.2 with Some n => Some n | None => subject_name (subject cert) end in
  Some (r.1, set_subject (Subject p.2 name (public_key (subject cert))) cert).

Definition x509_parse_public_key (cert : x509_certificate) (raw : asn1_cursor) : parsed :=
  p ← asn1_shrink_any raw;
  let s := subject cert in
  let key := public_key s in
  let key := PublicKey p.2 (pk_algorithm key) (pk_bits key) in
  q ← asn1_enter p.2 ASN1_SEQUENCE;
  r ← asn1_pubkey_algorithm ASN1_ALGORITHMS q.2;
  match r with
  | inr e => err e (set_subject (Subject (subject_raw s) (subject_name s) key) cert)
  | inl a =>
      let key := PublicKey (pk_raw key) (Some a) (pk_bits key) in
      n ← asn1_skip_any q.2;
      b ← asn1_bit_string n.2;
      match b with
      | inr e => err e (set_subject (Subject (subject_raw s) (subject_name s) key) cert)
      | inl bits => ok (set_subject (Subject (subject_raw s) (subject_name s) (PublicKey (pk_raw key) (Some a) bits)) cert)
      end
  end.

(** ** Extensions. *)

Definition X509_PATH_LEN_UNLIMITED : Z := 2 ^ 32 - 2.

Definition x509_parse_basic_constraints (cert : x509_certificate) (raw : asn1_cursor) : parsed :=
  let e := extensions cert in
  let set ca path_len := set_extensions (Extensions ca path_len (usage_present e) (usage_bits e) (ext_usage_bits e)
    (ocsp_uri e) (ocsp_good e)) cert in
  p ← asn1_enter raw ASN1_SEQUENCE;
  type ← asn1_type p.2;
  c ← (if type =? ASN1_BOOLEAN then
    b ← asn1_boolean p.2;
    match b with
    | inr er => Some (inr er)
    | inl ca => q ← asn1_skip_any p.2; Some (inl (ca, q.2))
    end
  else Some (inl (0, p.2)));
  match c with
  | inr er => err er cert
  | inl (ca, cursor) =>
      if ca =? 0 then ok (set ca (ext_path_len e))
      else
        type ← asn1_type cursor;
        if type =? ASN1_INTEGER then
          i ← asn1_integer cursor;
          match i with
          | inr er => err er (set ca X509_PATH_LEN_UNLIMITED)
          | inl path_len =>
              if path_len <? 0 then err EINVAL (set ca X509_PATH_LEN_UNLIMITED) else ok (set ca path_len)
          end
        else ok (set ca X509_PATH_LEN_UNLIMITED)
  end.

(** The first four bytes, the first one lowest. *)
Fixpoint key_usage_loop (i : Z) (bytes : list Z) (bits : Z) : Z :=
  match bytes with
  | [] => bits
  | b :: bytes' => key_usage_loop (i + 1) bytes' (Z.lor bits (u32 (Z.shiftl b (8 * i))))
  end.

Definition x509_parse_key_usage (cert : x509_certificate) (raw : asn1_cursor) : parsed :=
  let e := extensions cert in
  let set bits := set_extensions (Extensions (ext_ca e) (ext_path_len e) true bits (ext_usage_bits e)
    (ocsp_uri e) (ocsp_good e)) cert in
  r ← asn1_bit_string raw;
  match r with
  | inr er => err er (set (usage_bits e))
  | inl b =>
      let len := if 4 <? bits_len b then 4 else bits_len b in
      ok (set (key_usage_loop 0 (take (Z.to_nat len) (bits_data b)) (usage_bits e)))
  end.

Definition X509_CODE_SIGNING : Z := 1.
Definition X509_OCSP_SIGNING : Z := 2.
Definition oid_pkix : list Z := [ASN1_OID_INITIAL 1 3; 6; 1; 5; 5; 7].
Definition ASN1_OID_CODESIGNING : list Z := oid_pkix ++ [3; 3].
Definition ASN1_OID_OCSPSIGNING : list Z := oid_pkix ++ [3; 9].

Definition x509_key_purposes : list (list Z * Z) :=
  [(ASN1_OID_CODESIGNING, X509_CODE_SIGNING); (ASN1_OID_OCSPSIGNING, X509_OCSP_SIGNING)].

Definition x509_parse_key_purpose (cert : x509_certificate) (raw : asn1_cursor) : parsed :=
  let e := extensions cert in
  p ← asn1_enter raw ASN1_OID;
  match p with
  | (RC_ERR er, _) => err er cert
  | (RC_OK, cursor) =>
      match filter (fun purpose => asn1_compare_eq cursor (oid_cursor purpose.1) = true) x509_key_purposes with
      | (_, bits) :: _ => ok (set_extensions (Extensions (ext_ca e) (ext_path_len e) (usage_present e) (usage_bits e)
          (Z.lor (ext_usage_bits e) bits) (ocsp_uri e) (ocsp_good e)) cert)
      | [] => ok cert
      end
  end.

(** [while ( cursor.len ) { parse; asn1_skip_any }] *)
Fixpoint each_object (parse : x509_certificate -> asn1_cursor -> parsed) (fuel : nat) (cert : x509_certificate)
    (cursor : asn1_cursor) : parsed :=
  match fuel with
  | O => None
  | S fuel' =>
      if cur_len cursor =? 0 then ok cert
      else and_then (parse cert cursor) (fun cert =>
        n ← asn1_skip_any cursor; each_object parse fuel' cert n.2)
  end.

Definition parse_each (parse : x509_certificate -> asn1_cursor -> parsed) (cert : x509_certificate) (cursor : asn1_cursor) : parsed :=
  each_object parse (S (Z.to_nat (cur_len cursor))) cert cursor.

Definition x509_parse_extended_key_usage (cert : x509_certificate) (raw : asn1_cursor) : parsed :=
  p ← asn1_enter raw ASN1_SEQUENCE; parse_each x509_parse_key_purpose cert p.2.

Definition x509_parse_ocsp (cert : x509_certificate) (raw : asn1_cursor) : parsed :=
  let e := extensions cert in
  let set uri := set_extensions (Extensions (ext_ca e) (ext_path_len e) (usage_present e) (usage_bits e) (ext_usage_bits e)
    uri (ocsp_good e)) cert in
  p ← asn1_enter raw (ASN1_IMPLICIT_TAG 6);
  match p with
  | (RC_ERR er, _) => err er cert
  | (RC_OK, cursor) => if zalloc_ok (cur_len cursor + 1) then ok (set (Some (contents cursor))) else err ENOMEM (set None)
  end.

Definition ASN1_OID_OCSP : list Z := oid_pkix ++ [48; 1].

Definition x509_access_methods : list (list Z * (x509_certificate -> asn1_cursor -> parsed)) := [(ASN1_OID_OCSP, x509_parse_ocsp)].

Definition x509_find_access_method (oid : asn1_cursor) : option (x509_certificate -> asn1_cursor -> parsed) :=
  snd <$> head (filter (fun m => asn1_compare_eq (oid_cursor m.1) oid = true) x509_access_methods).

Definition x509_parse_access_description (cert : x509_certificate) (raw : asn1_cursor) : parsed :=
  p ← asn1_enter raw ASN1_SEQUENCE;
  o ← asn1_enter p.2 ASN1_OID;
  n ← asn1_skip_any p.2;
  match x509_find_access_method o.2 with Some parse => parse cert n.2 | None => ok cert end.

Definition x509_parse_authority_info_access (cert : x509_certificate) (raw : asn1_cursor) : parsed :=
  p ← asn1_enter raw ASN1_SEQUENCE; parse_each x509_parse_access_description cert p.2.

Definition ASN1_OID_BASICCONSTRAINTS : list Z := [ASN1_OID_INITIAL 2 5; 29; 19].
Definition ASN1_OID_KEYUSAGE : list Z := [ASN1_OID_INITIAL 2 5; 29; 15].
Definition ASN1_OID_EXTKEYUSAGE : list Z := [ASN1_OID_INITIAL 2 5; 29; 37].
Definition ASN1_OID_AUTHORITYINFOACCESS : list Z := oid_pkix ++ [1; 1].

(** The supported extensions with their parsers. *)
Definition x509_extension_table : list (list Z * (x509_certificate -> asn1_cursor -> parsed)) :=
  [(ASN1_OID_BASICCONSTRAINTS, x509_parse_basic_constraints); (ASN1_OID_KEYUSAGE, x509_parse_key_usage);
   (ASN1_OID_EXTKEYUSAGE, x509_parse_extended_key_usage); (ASN1_OID_AUTHORITYINFOACCESS, x509_parse_authority_info_access)].

Definition x509_find_extension (oid : asn1_cursor) : option (x509_certificate -> asn1_cursor -> parsed) :=
  snd <$> head (filter (fun e => asn1_compare_eq (oid_cursor e.1) oid = true) x509_extension_table).

Definition x509_parse_extension (cert : x509_certificate) (raw : asn1_cursor) : parsed :=
  p ← asn1_enter raw ASN1_SEQUENCE;
  o ← asn1_enter p.2 ASN1_OID;
  let extension := x509_find_extension o.2 in
  n ← asn1_skip_any p.2;
  type ← asn1_type n.2;
  c ← (if type =? ASN1_BOOLEAN then
    b ← asn1_boolean n.2;
    match b with
    | inr er => Some (inr er)
    | inl is_critical => q ← asn1_skip_any n.2; Some (inl (is_critical, q.2))
    end
  else Some (inl (0, n.2)));
  match c with
  | inr er => err er cert
  | inl (is_critical, cursor) =>
      match extension with
      | None => if ctrue is_critical then err ENOTSUP_EXTENSION cert else ok cert
      | Some parse =>
          v ← asn1_enter cursor ASN1_OCTET_STRING;
          match v with
          | (RC_ERR er, _) => err er cert
          | (RC_OK, value) => parse cert value
          end
      end
  end.

Definition x509_parse_extensions (cert : x509_certificate) (raw : asn1_cursor) : parsed :=
  p ← asn1_enter raw (ASN1_EXPLICIT_TAG 3);
  q ← asn1_enter p.2 ASN1_SEQUENCE;
  parse_each x509_parse_extension cert q.2.

(** ** Whole certificates. *)

(** Parse a field, then skip the object it is in. *)
Definition field_then (parse : x509_certificate -> asn1_cursor -> parsed) (cert : x509_certificate) (cursor : asn1_cursor)
    (k : x509_certificate -> asn1_cursor -> parsed) : parsed :=
  and_then (parse cert cursor) (fun cert => n ← asn1_skip_any cursor; k cert n.2).

Definition parse_signature_algorithm (cert : x509_certificate) (cursor : asn1_cursor) : parsed :=
  r ← asn1_signature_algorithm ASN1_ALGORITHMS cursor;
  match r with
  | inr e => err e cert
  | inl a => ok (set_signature_algorithm (Some a) cert)
  end.

Definition x509_parse_tbscertificate (cert : x509_certificate) (raw : asn1_cursor) : parsed :=
  t ← asn1_shrink_any raw;
  let cert := set_tbs t.2 cert in
  p ← asn1_enter t.2 ASN1_SEQUENCE;
  type ← asn1_type p.2;
  let rest cert cursor :=
    field_then x509_parse_serial cert cursor (fun cert cursor =>
    field_then parse_signature_algorithm cert cursor (fun cert cursor =>
    field_then x509_parse_issuer cert cursor (fun cert cursor =>
    field_then x509_parse_validity cert cursor (fun cert cursor =>
    field_then x509_parse_subject cert cursor (fun cert cursor =>
    field_then x509_parse_public_key cert cursor (fun cert cursor =>
    x509_parse_extensions cert cursor)))))) in
  if type =? ASN1_EXPLICIT_TAG 0 then field_then x509_parse_version cert p.2 rest
  else rest cert p.2.

(** The comparison at the end is of the algorithm of the signature with
    itself: [signature_algorithm] is the address of [signature->algorithm]. *)
Definition x509_parse (cert : x509_certificate) (raw : asn1_cursor) : parsed :=
  let cert := set_raw raw cert in
  p ← asn1_enter raw ASN1_SEQUENCE;
  field_then x509_parse_tbscertificate cert p.2 (fun cert cursor =>
    r ← asn1_signature_algorithm ASN1_ALGORITHMS cursor;
    match r with
    | inr e => err e cert
    | inl a =>
        let cert := set_sig (Some a) (sig_value cert) cert in
        n ← asn1_skip_any cursor;
        b ← asn1_integral_bit_string n.2;
        match b with
        | inr e => err e cert
        | inl value =>
            let cert := set_sig (sig_algorithm cert) value cert in
            if bool_decide (alg_oid <$> sig_algorithm cert = alg_oid <$> sig_algorithm cert) then ok cert
            else err EINVAL_ALGORITHM_MISMATCH cert
        end
    end).

End Parse.
