(* ===== verification/X509Der.v ===== *)
(** * Certificates laid out as RFC 5280 says.

    The layout of a certificate, its names, dates, key and extensions as
    byte lists, and the lemmas that say what the functions of [Asn1] and
    [X509] read from them.  A cursor that covers a list knows nothing of
    the bytes behind it.

    The theorems: such a certificate is parsed into its fields, whatever
    signature algorithm stands outside the signed part; a critical
    extension that is not known is refused, any other unknown one is
    skipped; a common name is taken as it is, zero bytes included. *)

From S2P Require Import Prelude Asn1 Time Digest Rsa X509.

(** ** The layout. *)

(** A cursor that covers [l]; [rest] follows in memory. *)
Definition covering (l rest : list Z) : asn1_cursor := Cursor (l ++ rest) (zlen l).

Definition short (l : list Z) : Prop := zlen l < 2 ^ 30.

Definition is_object (l : list Z) : Prop := exists type body, l = asn1_object type body /\ 0 <= type < 256.

(** The parts of a certificate.  A name is a list of sets of attributes,
    here as the first attribute of a set and the others. *)
Definition UTF8_STRING : Z := 12.
Definition der_algorithm (oid : list Z) : list Z := asn1_object ASN1_SEQUENCE (asn1_object ASN1_OID oid ++ [ASN1_NULL; 0]).
Record attribute := Attribute { at_oid : list Z; at_type : Z; at_value : list Z }.
Definition der_attribute (a : attribute) : list Z :=
  asn1_object ASN1_SEQUENCE (asn1_object ASN1_OID (at_oid a) ++ asn1_object (at_type a) (at_value a)).
Definition der_rdn (r : attribute * list attribute) : list Z :=
  asn1_object ASN1_SET (der_attribute r.1 ++ mjoin (der_attribute <$> r.2)).
Definition der_name (name : list (attribute * list attribute)) : list Z := asn1_object ASN1_SEQUENCE (mjoin (der_rdn <$> name)).
Definition name_ok (name : list (attribute * list attribute)) : Prop := Forall (fun r => 0 <= at_type r.1 < 256) name.

(** The common name is looked for in the first attribute of each set. *)
Definition common_name (name : list (attribute * list attribute)) : option (list Z) :=
  (fun r => at_value r.1) <$> head (filter (fun r => at_oid r.1 = ASN1_OID_COMMON_NAME) name).

(** Dates: UTCTime up to the year 2049, GeneralizedTime from 2050. *)
Record date := Date { d_year : Z; d_mon : Z; d_mday : Z; d_hour : Z; d_min : Z; d_sec : Z }.
Definition date_ok (d : date) : Prop :=
  1950 <= d_year d < 10000 /\ 1 <= d_mon d <= 12 /\ 1 <= d_mday d < 32 /\ 0 <= d_hour d < 24 /\ 0 <= d_min d < 60 /\ 0 <= d_sec d < 61.
Definition seconds (d : date) : Z :=
  86400 * (day_number (Z.to_nat (d_year d - 1900)) (Z.to_nat (d_mon d - 1)) (d_mday d) - day_number 70 0 1)
  + (d_hour d * 3600 + d_min d * 60 + d_sec d).
Definition der_date (d : date) : list Z :=
  let fields := [d_year d mod 100; d_mon d; d_mday d; d_hour d; d_min d; d_sec d] in
  if d_year d <? 2050 then asn1_object ASN1_UTC_TIME (mjoin (digits2 <$> fields) ++ [90])
  else asn1_object ASN1_GENERALIZED_TIME (mjoin (digits2 <$> d_year d / 100 :: fields) ++ [90]).
Definition der_validity (from til : date) : list Z := asn1_object ASN1_SEQUENCE (der_date from ++ der_date til).

Definition der_spki (oid bits : list Z) : list Z :=
  asn1_object ASN1_SEQUENCE (der_algorithm oid ++ asn1_object ASN1_BIT_STRING (0 :: bits)).

(** Extensions: the values of the four that are known, and any other.  An
    access description is a method and the type and body of a location. *)
Inductive extension_value :=
| BasicConstraints (ca : bool) (path_len : option (list Z))
| KeyUsage (unused : Z) (bytes : list Z)
| ExtKeyUsage (purposes : list (list Z))
| AuthorityInfoAccess (descriptions : list (list Z * (Z * list Z)))
| OtherExtension (oid value : list Z).

Definition der_description (d : list Z * (Z * list Z)) : list Z :=
  asn1_object ASN1_SEQUENCE (asn1_object ASN1_OID d.1 ++ asn1_object d.2.1 d.2.2).

Definition extension_oid (v : extension_value) : list Z :=
  match v with
  | BasicConstraints _ _ => ASN1_OID_BASICCONSTRAINTS
  | KeyUsage _ _ => ASN1_OID_KEYUSAGE
  | ExtKeyUsage _ => ASN1_OID_EXTKEYUSAGE
  | AuthorityInfoAccess _ => ASN1_OID_AUTHORITYINFOACCESS
  | OtherExtension oid _ => oid
  end.

Definition der_value (v : extension_value) : list Z :=
  match v with
  | BasicConstraints ca path_len => asn1_object ASN1_SEQUENCE
      ((if ca then asn1_object ASN1_BOOLEAN [255] else []) ++ (if path_len is Some n then asn1_object ASN1_INTEGER n else []))
  | KeyUsage unused bytes => asn1_object ASN1_BIT_STRING (unused :: bytes)
  | ExtKeyUsage purposes => asn1_object ASN1_SEQUENCE (mjoin (asn1_object ASN1_OID <$> purposes))
  | AuthorityInfoAccess descriptions => asn1_object ASN1_SEQUENCE (mjoin (der_description <$> descriptions))
  | OtherExtension _ value => value
  end.

Record extension := Extension { critical : bool; value_of : extension_value }.

Definition der_extension_of (oid : list Z) (critical : bool) (value : list Z) : list Z := asn1_object ASN1_SEQUENCE
  (asn1_object ASN1_OID oid ++ (if critical then asn1_object ASN1_BOOLEAN [255] else []) ++ asn1_object ASN1_OCTET_STRING value).

Definition der_extension (e : extension) : list Z := der_extension_of (extension_oid (value_of e)) (critical e) (der_value (value_of e)).

Definition unknown_oid (oid : list Z) : Prop :=
  oid ∉ [ASN1_OID_BASICCONSTRAINTS; ASN1_OID_KEYUSAGE; ASN1_OID_EXTKEYUSAGE; ASN1_OID_AUTHORITYINFOACCESS].

(** A length of paths only for an authority; the nine bits of a key usage,
    with the unused ones zero; an OCSP responder is named by a URI; an
    extension that is not known is not critical. *)
Definition extension_ok (e : extension) : Prop :=
  match value_of e with
  | BasicConstraints ca path_len => forall n, path_len = Some n ->
      ca = true /\ bytes_ok n /\ (1 <= length n <= 4)%nat /\ 0 <= twos_complement n
  | KeyUsage unused bytes => 0 <= unused < 8 /\ bytes_ok bytes /\ (1 <= length bytes <= 2)%nat /\ default 0 (last bytes) mod 2 ^ unused = 0
  | ExtKeyUsage _ => True
  | AuthorityInfoAccess descriptions => Forall (fun d => 0 <= d.2.1 < 256 /\ (d.1 = ASN1_OID_OCSP -> d.2.1 = ASN1_IMPLICIT_TAG 6)) descriptions
  | OtherExtension oid _ => unknown_oid oid /\ critical e = false
  end.

(** What an extension does to the certificate. *)
Definition purpose_bits (oid : list Z) : Z :=
  if decide (oid = ASN1_OID_CODESIGNING) then X509_CODE_SIGNING else if decide (oid = ASN1_OID_OCSPSIGNING) then X509_OCSP_SIGNING else 0.

Definition apply_value (v : extension_value) (x : x509_extensions) : x509_extensions :=
  match v with
  | BasicConstraints ca path_len =>
      Extensions (if ca then 255 else 0)
        (if ca then match path_len with Some n => twos_complement n | None => X509_PATH_LEN_UNLIMITED end else ext_path_len x)
        (usage_present x) (usage_bits x) (ext_usage_bits x) (ocsp_uri x) (ocsp_good x)
  | KeyUsage _ bytes => Extensions (ext_ca x) (ext_path_len x) true (Z.lor (usage_bits x) (foldr (fun b n => b + 256 * n) 0 bytes))
      (ext_usage_bits x) (ocsp_uri x) (ocsp_good x)
  | ExtKeyUsage purposes => Extensions (ext_ca x) (ext_path_len x) (usage_present x) (usage_bits x)
      (fold_left (fun bits oid => Z.lor bits (purpose_bits oid)) purposes (ext_usage_bits x)) (ocsp_uri x) (ocsp_good x)
  | AuthorityInfoAccess descriptions => Extensions (ext_ca x) (ext_path_len x) (usage_present x) (usage_bits x) (ext_usage_bits x)
      (fold_left (fun uri d => if decide (d.1 = ASN1_OID_OCSP) then Some d.2.2 else uri) descriptions (ocsp_uri x)) (ocsp_good x)
  | OtherExtension _ _ => x
  end.

Definition apply_to (v : extension_value) (cert : x509_certificate) : x509_certificate := set_extensions (apply_value v (extensions cert)) cert.

Definition apply_extensions (es : list extension) (x : x509_extensions) : x509_extensions := fold_left (fun x e => apply_value (value_of e) x) es x.

(** The field is left out when there are no extensions. *)
Definition der_extensions (es : list extension) : list Z :=
  match es with
  | [] => []
  | _ => asn1_object (ASN1_EXPLICIT_TAG 3) (asn1_object ASN1_SEQUENCE (mjoin (der_extension <$> es)))
  end.

Record certificate_info := Info {
  i_serial : list Z; i_alg : list Z; i_issuer : list (attribute * list attribute); i_from : date; i_til : date;
  i_subject : list (attribute * list attribute); i_key_alg : list Z; i_key : list Z; i_extensions : list extension;
  i_sig_alg : list Z; i_signature : list Z;
}.

Definition der_tbs (i : certificate_info) : list Z :=
  asn1_object ASN1_SEQUENCE
    (asn1_object (ASN1_EXPLICIT_TAG 0) (asn1_object ASN1_INTEGER [2]) ++ asn1_object ASN1_INTEGER (i_serial i) ++
     der_algorithm (i_alg i) ++ der_name (i_issuer i) ++ der_validity (i_from i) (i_til i) ++ der_name (i_subject i) ++
     der_spki (i_key_alg i) (i_key i) ++ der_extensions (i_extensions i)).

Definition der_certificate (i : certificate_info) : list Z :=
  asn1_object ASN1_SEQUENCE (der_tbs i ++ der_algorithm (i_sig_alg i) ++ asn1_object ASN1_BIT_STRING (0 :: i_signature i)).

(** ** Cursors over objects. *)

Lemma short_app a b : short (a ++ b) -> short a /\ short b.
Proof. unfold short. rewrite length_app. lia. Qed.

Lemma short_object type body : short (asn1_object type body) -> short body.
Proof. unfold short. pose proof (object_longer type body). lia. Qed.

Ltac shorten H :=
  repeat match type of H with
  | short (_ ++ _) => let H1 := fresh "Hs" in apply short_app in H as [H1 H]; shorten H1
  | short (asn1_object _ _) => pose proof H; apply short_object in H
  end.

Lemma enter_covering type t body more rest : 0 <= type < 256 -> t = type \/ t = ASN1_ANY -> short body ->
  asn1_enter (covering (asn1_object type body ++ more) rest) t = Some (RC_OK, covering body (more ++ rest)).
Proof.
  intros Ht Htt Hs. unfold covering, short in *. rewrite <- app_assoc.
  rewrite asn1_enter_object; [done|done|done|lia|rewrite length_app; lia].
Qed.

Lemma object_nonempty type body : asn1_object type body <> [].
Proof. pose proof (object_longer type body). destruct (asn1_object type body); [cbn in *; lia|done]. Qed.

Lemma object_then_nonempty l more : is_object l -> l ++ more <> [].
Proof. intros (type & body & -> & _) [E _]%app_nil. by apply (object_nonempty type body). Qed.

(** An object alone. *)
Lemma enter_only type t body rest : 0 <= type < 256 -> t = type \/ t = ASN1_ANY -> short body ->
  asn1_enter (covering (asn1_object type body) rest) t = Some (RC_OK, covering body rest).
Proof. intros Ht Htt Hs. rewrite <- (app_nil_r (asn1_object type body)). by apply enter_covering. Qed.

Lemma enter_mismatch type t body more rest : 0 <= type < 256 -> t <> type -> t <> ASN1_ANY -> 
  asn1_enter (covering (asn1_object type body ++ more) rest) t = Some (RC_ERR ENXIO, asn1_invalid_cursor).
Proof.
  intros Ht Hn Ha. unfold asn1_enter, asn1_start, covering. cbn [cur_len].
  pose proof (object_longer type body). rewrite length_app.
  destruct (Z.ltb_spec (Z.of_nat (length (asn1_object type body) + length more)) 2); [lia|].
  rewrite <- app_assoc, object_type by done. cbn [mbind option_bind].
  destruct (Z.eqb_spec t ASN1_ANY); [done|]. destruct (Z.eqb_spec t type); [done|]. done.
Qed.

Lemma skip_covering type t body more rest : 0 <= type < 256 -> t = type \/ t = ASN1_ANY -> short body -> more <> [] ->
  asn1_skip (covering (asn1_object type body ++ more) rest) t = Some (RC_OK, covering more rest).
Proof.
  intros Ht Htt Hs Hm. unfold covering, short in *. rewrite <- app_assoc.
  rewrite asn1_skip_object; [do 3 f_equal; rewrite length_app; lia|done|done|lia|].
  rewrite length_app. destruct more; [done|cbn [length]; lia].
Qed.

(** The last object of its parent: the cursor is invalidated. *)
Lemma skip_last type t body rest : 0 <= type < 256 -> t = type \/ t = ASN1_ANY -> short body ->
  asn1_skip (covering (asn1_object type body) rest) t = Some (RC_ERR ENOENT, asn1_invalid_cursor).
Proof.
  intros Ht Htt Hs. unfold covering, short, asn1_object in *. rewrite length_app, <- app_assoc.
  unfold asn1_skip, asn1_skip_if_exists.
  rewrite (asn1_start_object type t body rest) by (done || lia). cbn [mbind option_bind cur_data cur_len].
  destruct (Z.eqb_spec (Z.of_nat (length (asn1_header type (zlen body)) + length body) - zlen (asn1_header type (zlen body)) - zlen body) 0); [done|lia].
Qed.

Lemma shrink_covering type t body more rest : 0 <= type < 256 -> t = type \/ t = ASN1_ANY -> short body ->
  asn1_shrink (covering (asn1_object type body ++ more) rest) t = Some (RC_OK, covering (asn1_object type body) (more ++ rest)).
Proof.
  intros Ht Htt Hs. unfold covering, short in *. rewrite <- app_assoc.
  rewrite asn1_shrink_object; [done|done|done|lia|rewrite length_app; lia].
Qed.

Lemma contents_covering l rest : contents (covering l rest) = l.
Proof. unfold contents, covering. cbn. by rewrite Nat2Z.id, take_app_length. Qed.

Lemma compare_covering oid l rest : asn1_compare_eq (oid_cursor oid) (covering l rest) = bool_decide (oid = l).
Proof.
  unfold asn1_compare_eq, oid_cursor, contents, covering. cbn [cur_len cur_data].
  rewrite !Nat2Z.id, firstn_all. destruct (Z.eqb_spec (zlen l - zlen oid) 0) as [E|E]; cbn [andb].
  - apply bool_decide_ext. by rewrite take_app_length' by lia.
  - symmetry. apply bool_decide_eq_false. intros ->. lia.
Qed.

Lemma type_covering type body more rest : 0 <= type < 256 -> asn1_type (covering (asn1_object type body ++ more) rest) = Some type.
Proof. intros. unfold covering. rewrite <- app_assoc. by apply object_type. Qed.

(** ** Lists of objects. *)


(** Each object is parsed; [P] holds of what follows each of them in memory. *)
Lemma each_object_list {A} (P : list Z -> Prop) (enc : A -> list Z) (f : A -> x509_certificate -> x509_certificate) parse xs :
  (forall x, is_object (enc x)) -> (forall x l, P (enc x ++ l)) ->
  (forall x cert more rest, x ∈ xs -> short (enc x) -> P (more ++ rest) -> parse cert (covering (enc x ++ more) rest) = ok (f x cert)) ->
  forall fuel cert rest, P rest -> short (mjoin (enc <$> xs)) -> (length xs < fuel)%nat ->
  each_object parse fuel cert (covering (mjoin (enc <$> xs)) rest) = ok (fold_left (fun c x => f x c) xs cert).
Proof.
  intros Henc HP Hparse. induction xs as [|x xs IH]; intros [|fuel] cert rest Hr Hs L; try (cbn in L; lia); [done|].
  cbn [each_object]. change (mjoin (enc <$> x :: xs)) with (enc x ++ mjoin (enc <$> xs)) in *.
  destruct (Henc x) as (t & body & E & Ht). apply short_app in Hs as [Hx Hxs].
  destruct (Z.eqb_spec (cur_len (covering (enc x ++ mjoin (enc <$> xs)) rest)) 0) as [C|_].
  { pose proof (object_longer t body). cbn [covering cur_len] in C. rewrite length_app, E in C. lia. }
  rewrite Hparse; [|apply list_elem_of_here|done|].
  2: { destruct xs as [|y ys]; [done|]. change (mjoin (enc <$> y :: ys)) with (enc y ++ mjoin (enc <$> ys)). rewrite <- app_assoc. apply HP. }
  cbn [and_then ok mbind option_bind].
  assert (short body) as Hb by (rewrite E in Hx; by eapply short_object).
  unfold asn1_skip_any. destruct xs as [|y ys].
  - cbn [fmap list_fmap mjoin list_join]. rewrite app_nil_r, E, skip_last by (done || by right). cbn [mbind option_bind snd].
    destruct fuel; [cbn in L; lia|]. done.
  - rewrite E, skip_covering; [|done|by right|done|].
    + cbn [mbind option_bind snd]. rewrite IH; [done|..|cbn [length] in L |- *; lia]; [|done|done].
      intros z c m r Hz Hsz. apply Hparse; [by apply list_elem_of_further|done].
    + apply (object_then_nonempty (enc y)), Henc.
Qed.

Lemma objects_length {A} (enc : A -> list Z) xs : (forall x, is_object (enc x)) ->
  (length xs <= length (mjoin (enc <$> xs)))%nat.
Proof.
  intros Henc. induction xs as [|x xs IH]; [cbn; lia|].
  change (mjoin (enc <$> x :: xs)) with (enc x ++ mjoin (enc <$> xs)). rewrite length_app. cbn [length].
  destruct (Henc x) as (t & body & -> & _). pose proof (object_longer t body). lia.
Qed.

Lemma parse_each_list {A} (P : list Z -> Prop) (enc : A -> list Z) (f : A -> x509_certificate -> x509_certificate) parse xs cert rest :
  (forall x, is_object (enc x)) -> (forall x l, P (enc x ++ l)) ->
  (forall x cert more rest, x ∈ xs -> short (enc x) -> P (more ++ rest) -> parse cert (covering (enc x ++ more) rest) = ok (f x cert)) ->
  P rest -> short (mjoin (enc <$> xs)) ->
  parse_each parse cert (covering (mjoin (enc <$> xs)) rest) = ok (fold_left (fun c x => f x c) xs cert).
Proof.
  intros Henc HP Hparse Hr Hs. unfold parse_each. apply (each_object_list P); try done. cbn [covering cur_len]. rewrite Nat2Z.id.
  pose proof (objects_length enc xs Henc). lia.
Qed.

(** The extensions after a loop that changes only those. *)
Lemma fold_set_extensions {A} (g : A -> x509_extensions -> x509_extensions) xs cert :
  fold_left (fun c x => set_extensions (g x (extensions c)) c) xs cert
  = set_extensions (fold_left (fun e x => g x e) xs (extensions cert)) cert.
Proof. revert cert. induction xs as [|x xs IH]; intros cert; cbn [fold_left]; [by destruct cert|]. rewrite IH. by destruct cert. Qed.

(** ** The fields. *)

Definition algorithm_of (oid : list Z) : option algorithm := head (filter (fun a => alg_oid a = oid) ASN1_ALGORITHMS).

Lemma head_filter_ext {A} (P Q : A -> Prop) `{!forall x, Decision (P x), !forall x, Decision (Q x)} l :
  (forall x, P x <-> Q x) -> head (filter P l) = head (filter Q l).
Proof. intros Hpq. f_equal. by apply list_filter_iff. Qed.

Lemma algorithm_covering oid more rest : short (der_algorithm oid) ->
  asn1_algorithm ASN1_ALGORITHMS (covering (der_algorithm oid ++ more) rest)
  = Some (match algorithm_of oid with Some a => inl a | None => inr ENOTSUP_ALGORITHM end).
Proof.
  intros Hs. unfold asn1_algorithm, der_algorithm in *. apply short_object in Hs as Hb.
  rewrite enter_covering by (done || by left). cbn [mbind option_bind snd].
  rewrite enter_covering; [|done|by left|by apply short_app in Hb as [?%short_object _]].
  cbn [mbind option_bind]. unfold asn1_find_algorithm, algorithm_of.
  erewrite head_filter_ext; [done|]. intros a. cbn. rewrite compare_covering. apply bool_decide_eq_true.
Qed.

Lemma rdn_object r : is_object (der_rdn r).
Proof. by eexists _, _. Qed.

(** One turn of the scan: the object identifier of the first attribute, and
    the cursors at its value and at the next set. *)
Lemma attribute_turn r more rest : 0 <= at_type r.1 < 256 -> short (der_rdn r) ->
  exists set_cursor seq_cursor,
    asn1_enter (covering (der_rdn r ++ more) rest) ASN1_SET = Some (RC_OK, set_cursor) /\
    asn1_enter set_cursor ASN1_SEQUENCE = Some (RC_OK, seq_cursor) /\
    (exists z, asn1_enter seq_cursor ASN1_OID = Some (RC_OK, covering (at_oid r.1) z)) /\
    (exists z, asn1_skip_any seq_cursor = Some (RC_OK, covering (asn1_object (at_type r.1) (at_value r.1)) z)) /\
    (forall z, exists z', asn1_enter_any (covering (asn1_object (at_type r.1) (at_value r.1)) z) = Some (RC_OK, covering (at_value r.1) z')).
Proof.
  intros Ht Hs. unfold der_rdn, der_attribute in *. apply short_object in Hs as Hset. apply short_app in Hset as Hseq.
  destruct Hseq as [Hbody%short_object _]. apply short_app in Hbody as Hov. destruct Hov as [Ho%short_object Hv%short_object].
  eexists _, _. splits.
  - by apply enter_covering; [|left|].
  - by apply enter_covering; [|left|].
  - eexists. by apply enter_covering; [|left|].
  - eexists. unfold asn1_skip_any. apply skip_covering; [done|by right|done|]. apply object_nonempty.
  - intros z. eexists. unfold asn1_enter_any. apply enter_only; [done|by right|done].
Qed.

Lemma common_name_loop_attributes zalloc_ok name rest fuel : (forall n, zalloc_ok n = true) -> name_ok name ->
  short (mjoin (der_rdn <$> name)) -> (length name < fuel)%nat ->
  common_name_loop zalloc_ok fuel (covering (mjoin (der_rdn <$> name)) rest) = Some (RC_OK, common_name name).
Proof.
  intros Hz. revert fuel. unfold common_name. induction name as [|r name IH]; intros [|fuel] Hn Hs L; try (cbn in L; lia); [done|].
  change (mjoin (der_rdn <$> r :: name)) with (der_rdn r ++ mjoin (der_rdn <$> name)) in *.
  apply Forall_cons in Hn as [Ht Hn]. apply short_app in Hs as [Ha Hl]. cbn [common_name_loop].
  destruct (Z.eqb_spec (cur_len (covering (der_rdn r ++ mjoin (der_rdn <$> name)) rest)) 0) as [C|_].
  { destruct (rdn_object r) as (t & body & E & _). pose proof (object_longer t body).
    cbn [covering cur_len] in C. rewrite length_app, E in C. lia. }
  destruct (attribute_turn r (mjoin (der_rdn <$> name)) rest Ht Ha) as (sc & qc & -> & Eq & (r1 & Eo) & (r2 & Esk) & Een).
  cbn [mbind option_bind snd]. rewrite Eq. cbn [mbind option_bind snd]. rewrite Eo. cbn [mbind option_bind snd].
  unfold oid_common_name_cursor. rewrite compare_covering, filter_cons.
  destruct (decide (at_oid r.1 = ASN1_OID_COMMON_NAME)) as [E|E].
  - rewrite bool_decide_eq_true_2 by done. cbn [negb]. rewrite Esk. cbn [mbind option_bind snd].
    destruct (Een r2) as (r3 & ->). cbn [mbind option_bind]. rewrite Hz, contents_covering. cbn zeta. by destruct (negb _).
  - rewrite bool_decide_eq_false_2 by congruence. cbn [negb]. unfold asn1_skip_any. apply short_object in Ha. unfold der_rdn at 1.
    destruct name as [|r' name].
    + cbn [fmap list_fmap mjoin list_join]. rewrite app_nil_r.
      rewrite skip_last; [|done|by right|done]. cbn [mbind option_bind snd]. destruct fuel; [cbn in L; lia|]. done.
    + rewrite skip_covering; [|done|by right|done|apply (object_then_nonempty (der_rdn r')), rdn_object].
      cbn [mbind option_bind snd]. apply IH; [done|done|cbn [length] in *; lia].
Qed.

Lemma common_name_attributes zalloc_ok name more rest : (forall n, zalloc_ok n = true) -> name_ok name -> short (der_name name) ->
  x509_parse_common_name zalloc_ok (covering (der_name name ++ more) rest) = Some (RC_OK, common_name name).
Proof.
  intros Hz Hn Hs. unfold x509_parse_common_name, der_name in *. apply short_object in Hs.
  rewrite enter_covering by (done || by left). cbn [mbind option_bind snd].
  apply common_name_loop_attributes; [done|done|done|]. cbn [covering cur_len]. rewrite Nat2Z.id.
  pose proof (objects_length der_rdn name rdn_object). lia.
Qed.

Lemma date_object d : exists body, (der_date d = asn1_object ASN1_UTC_TIME body \/ der_date d = asn1_object ASN1_GENERALIZED_TIME body) /\ zlen body < 20.
Proof. unfold der_date. destruct (_ <? _); eexists; (split; [by (left + right)|done]). Qed.

Lemma date_covering d more rest : date_ok d -> asn1_generalized_time (covering (der_date d ++ more) rest) = Some (inl (seconds d)).
Proof.
  intros (Hy & Hmo & Hmd & Hh & Hmi & Hse). unfold covering, der_date. rewrite <- app_assoc.
  destruct (Z.ltb_spec (d_year d) 2050);
    [apply (asn1_time_object true (d_year d) (d_mon d) (d_mday d) (d_hour d) (d_min d) (d_sec d) (more ++ rest))
    |apply (asn1_time_object false (d_year d) (d_mon d) (d_mday d) (d_hour d) (d_min d) (d_sec d) (more ++ rest))];
    try done; try lia; rewrite length_app; lia.
Qed.

Lemma validity_covering from til more rest cert : date_ok from -> date_ok til -> short (der_validity from til) ->
  x509_parse_validity cert (covering (der_validity from til ++ more) rest) = ok (set_validity (seconds from) (seconds til) cert).
Proof.
  intros Hf Ht Hs%short_object. unfold x509_parse_validity, der_validity.
  rewrite enter_covering by (done || by left). cbn [mbind option_bind snd].
  rewrite date_covering by done. cbn [mbind option_bind]. unfold asn1_skip_any.
  destruct (date_object from) as (body & Ef & Hb). assert (short body) by (unfold short; lia).
  assert (asn1_skip (covering (der_date from ++ der_date til) (more ++ rest)) ASN1_ANY = Some (RC_OK, covering (der_date til) (more ++ rest))) as ->.
  { destruct (date_object til) as (b' & Et & _). assert (der_date til <> []) by (destruct Et as [-> | ->]; apply object_nonempty).
    destruct Ef as [-> | ->]; rewrite skip_covering; (done || by right). }
  cbn [mbind option_bind snd]. rewrite <- (app_nil_r (der_date til)), date_covering by done. done.
Qed.

Lemma subject_covering zalloc_ok attributes more rest cert : (forall n, zalloc_ok n = true) -> name_ok attributes -> short (der_name attributes) ->
  subject_name (subject cert) = None ->
  x509_parse_subject zalloc_ok cert (covering (der_name attributes ++ more) rest)
  = ok (set_subject (Subject (covering (der_name attributes) (more ++ rest))
      (common_name attributes) (public_key (subject cert))) cert).
Proof.
  intros Hz Ho Hs Hn. unfold x509_parse_subject. rewrite common_name_attributes by done.
  unfold asn1_shrink_any. unfold der_name at 1. rewrite shrink_covering; [|done|by right|by eapply short_object].
  cbn [mbind option_bind fst snd]. rewrite Hn. unfold ok. do 4 f_equal. by destruct (common_name _).
Qed.

Lemma bit_string_covering l more rest : short l ->
  asn1_bit_string (covering (asn1_object ASN1_BIT_STRING (0 :: l) ++ more) rest) = Some (inl (BitString (l ++ more ++ rest) (zlen l) 0)).
Proof. intros Hs. unfold covering. rewrite <- app_assoc, bit_string_object; [done|done|rewrite length_app; lia]. Qed.

Lemma public_key_covering oid a bits more rest cert : algorithm_of oid = Some a -> alg_pubkey a <> None -> short (der_spki oid bits) ->
  exists key, x509_parse_public_key cert (covering (der_spki oid bits ++ more) rest)
    = ok (set_subject (Subject (subject_raw (subject cert)) (subject_name (subject cert)) key) cert) /\
    contents (pk_raw key) = der_spki oid bits /\ pk_algorithm key = Some a /\
    take (Z.to_nat (bits_len (pk_bits key))) (bits_data (pk_bits key)) = bits.
Proof.
  intros Ea Hp Hs. unfold x509_parse_public_key, asn1_shrink_any, der_spki in *. apply short_object in Hs as Hb.
  apply short_app in Hb as Hab. destruct Hab as [Hal Hbs%short_object].
  assert (short bits) as Hbits by (unfold short in *; cbn [length] in *; lia).
  rewrite shrink_covering by (done || by right). cbn [mbind option_bind snd].
  set (spki := asn1_object ASN1_SEQUENCE (der_algorithm oid ++ asn1_object ASN1_BIT_STRING (0 :: bits))) in *.
  assert (asn1_enter (covering spki (more ++ rest)) ASN1_SEQUENCE
    = Some (RC_OK, covering (der_algorithm oid ++ asn1_object ASN1_BIT_STRING (0 :: bits)) (more ++ rest))) as ->.
  { rewrite <- (app_nil_r spki). subst spki. rewrite enter_covering by (done || by left). done. }
  cbn [mbind option_bind snd]. unfold asn1_pubkey_algorithm. rewrite algorithm_covering, Ea by done. cbn [mbind option_bind].
  destruct (alg_pubkey a) as [pk|] eqn:Epk; [|done]. cbn [mbind option_bind].
  unfold asn1_skip_any. unfold der_algorithm. rewrite skip_covering;
    [|done|by right|by eapply short_object|apply object_nonempty].
  cbn [mbind option_bind snd]. rewrite <- (app_nil_r (asn1_object ASN1_BIT_STRING _)), bit_string_covering by done.
  cbn [mbind option_bind]. eexists. splits; [done|by apply contents_covering|done|]. cbn [pk_bits bits_len bits_data].
  by rewrite Nat2Z.id, take_app_length.
Qed.

Lemma find_extension_covering zalloc_ok oid rest :
  x509_find_extension zalloc_ok (covering oid rest) = snd <$> head (filter (fun e => e.1 = oid) (x509_extension_table zalloc_ok)).
Proof.
  unfold x509_find_extension. erewrite head_filter_ext; [done|]. intros e. cbn. rewrite compare_covering. apply bool_decide_eq_true.
Qed.

(** An extension up to its value: critical or not. *)
Lemma extension_header zalloc_ok oid (crit : bool) value more rest cert parse :
  snd <$> head (filter (fun e => e.1 = oid) (x509_extension_table zalloc_ok)) = parse -> short (der_extension_of oid crit value) ->
  x509_parse_extension zalloc_ok cert (covering (der_extension_of oid crit value ++ more) rest)
  = match parse with
    | Some p => p cert (covering value (more ++ rest))
    | None => if crit then err ENOTSUP_EXTENSION cert else ok cert
    end.
Proof.
  unfold der_extension_of. intros Ep Hs. apply short_object in Hs as Hb. apply short_app in Hb as Hov. destruct Hov as [Ho%short_object Hcv].
  apply short_app in Hcv as [_ Hv%short_object]. unfold x509_parse_extension.
  rewrite enter_covering by (done || by left). cbn [mbind option_bind snd].
  rewrite enter_covering by (done || by left). cbn [mbind option_bind snd]. rewrite find_extension_covering, Ep.
  unfold asn1_skip_any. rewrite skip_covering; [|done|by right|done|destruct crit; [done|apply object_nonempty]].
  cbn [mbind option_bind snd].
  assert (asn1_enter (covering (asn1_object ASN1_OCTET_STRING value) (more ++ rest)) ASN1_OCTET_STRING
    = Some (RC_OK, covering value (more ++ rest))) as Ev by (apply enter_only; (done || by left)).
  destruct crit; cbn [app].
  - rewrite type_covering by done. cbn [mbind option_bind]. change (ASN1_BOOLEAN =? ASN1_BOOLEAN) with true. cbn iota.
    assert (asn1_boolean (covering (asn1_object ASN1_BOOLEAN [255] ++ asn1_object ASN1_OCTET_STRING value) (more ++ rest)) = Some (inl 255)) as ->.
    { unfold asn1_boolean. by rewrite enter_covering by (done || by left). }
    cbn [mbind option_bind]. rewrite skip_covering; [|done|by right|done|apply object_nonempty]. cbn [mbind option_bind snd].
    destruct parse; [|done]. by rewrite Ev.
  - rewrite <- (app_nil_r (asn1_object ASN1_OCTET_STRING value)), type_covering by done. cbn [mbind option_bind].
    change (ASN1_OCTET_STRING =? ASN1_BOOLEAN) with false. cbn iota. cbn [mbind option_bind].
    rewrite app_nil_r. destruct parse; [|done]. by rewrite Ev.
Qed.

Lemma integer_covering body more rest : bytes_ok body -> (1 <= length body <= 4)%nat ->
  asn1_integer (covering (asn1_object ASN1_INTEGER body ++ more) rest) = Some (inl (twos_complement body)).
Proof. intros Hb Hl. unfold covering. rewrite <- app_assoc. apply asn1_integer_object; [done|done|rewrite length_app; lia]. Qed.

Lemma boolean_covering b more rest : asn1_boolean (covering (asn1_object ASN1_BOOLEAN [b] ++ more) rest) = Some (inl b).
Proof. unfold asn1_boolean. by rewrite enter_covering by (done || by left). Qed.

(** What follows an object of a certificate in memory: a sequence. *)
Definition sequence_next (l : list Z) : Prop := head l = Some ASN1_SEQUENCE.

Lemma sequence_then body l : sequence_next (asn1_object ASN1_SEQUENCE body ++ l).
Proof. exact (object_type ASN1_SEQUENCE body l 0 ltac:(done)). Qed.

(** An authority: the flag, then the length of paths or nothing. *)
Lemma constraints_ca path_len rest cert crit : extension_ok (Extension crit (BasicConstraints true path_len)) ->
  x509_parse_basic_constraints cert (covering (der_value (BasicConstraints true path_len)) rest) = ok (apply_to (BasicConstraints true path_len) cert).
Proof.
  intros Ho. unfold x509_parse_basic_constraints. cbn [der_value].
  set (tl := match path_len with Some n => _ | None => _ end).
  assert (short (asn1_object ASN1_BOOLEAN [255] ++ tl)) as Hs.
  { subst tl. destruct path_len as [n|]; [|done]. destruct (Ho n eq_refl) as (_ & _ & Hl & _). unfold short, asn1_object, asn1_header.
    rewrite (proj2 (Z.ltb_lt (zlen n) 128)) by lia. change (zlen [255] <? 128) with true. cbn iota. rewrite !length_app. cbn [length]. lia. }
  rewrite enter_only by (done || by left).
  cbn [mbind option_bind snd]. rewrite type_covering by done. cbn [mbind option_bind].
  change (ASN1_BOOLEAN =? ASN1_BOOLEAN) with true. cbn iota. rewrite boolean_covering. cbn [mbind option_bind].
  unfold asn1_skip_any. subst tl. destruct path_len as [n|].
  - destruct (Ho n eq_refl) as (_ & Hb & Hl & Hp). rewrite skip_covering; [|done|by right|done|apply object_nonempty]. cbn [mbind option_bind snd].
    change (255 =? 0) with false. cbn iota. rewrite <- (app_nil_r (asn1_object ASN1_INTEGER _)), type_covering by done.
    cbn [mbind option_bind]. change (ASN1_INTEGER =? ASN1_INTEGER) with true. cbn iota.
    rewrite integer_covering by done. cbn [mbind option_bind]. destruct (Z.ltb_spec (twos_complement n) 0); [lia|]. done.
  - rewrite app_nil_r, skip_last; [|done|by right|done]. done.
Qed.

(** No authority: an empty sequence.  The type that is looked at is that of
    what follows it in memory. *)
Lemma constraints_no_ca rest cert : sequence_next rest ->
  x509_parse_basic_constraints cert (covering (der_value (BasicConstraints false None)) rest) = ok (apply_to (BasicConstraints false None) cert).
Proof.
  intros Hr. unfold x509_parse_basic_constraints. cbn [der_value app]. rewrite enter_only by (done || by left).
  cbn [mbind option_bind snd]. unfold asn1_type, covering. cbn [cur_data app]. rewrite Hr. done.
Qed.

(** Bit strings with unused bits, which are zero. *)
Lemma bits_covering unused l more rest : 0 <= unused < 8 -> (1 <= length l <= 2)%nat -> bytes_ok l -> default 0 (last l) mod 2 ^ unused = 0 ->
  asn1_bit_string (covering (asn1_object ASN1_BIT_STRING (unused :: l) ++ more) rest) = Some (inl (BitString (l ++ more ++ rest) (zlen l) unused)).
Proof.
  intros Hu Hl Hb Hz. unfold asn1_bit_string. rewrite enter_covering; [|done|by left|unfold short; cbn [length]; lia].
  cbn [mbind option_bind covering cur_len cur_data length app head tail].
  destruct (Z.ltb_spec (Z.of_nat (S (length l))) 1); [lia|]. cbn [mbind option_bind].
  destruct (Z.leb_spec 8 unused); [lia|]. destruct (Z.eqb_spec (Z.of_nat (S (length l)) - 1) 0); [lia|]. rewrite andb_false_r. cbn [orb].
  assert (u8 (255 ≫ (8 - unused)) = Z.ones unused) as ->.
  { assert (Forall (fun u => u8 (255 ≫ (8 - u)) = Z.ones u) (seqZ 0 8)) as Hm by by_decide.
    rewrite Forall_forall in Hm. apply Hm, elem_of_seqZ. lia. }
  replace (Z.to_nat (Z.of_nat (S (length l)) - 1)) with (length l) by lia.
  assert ((unused :: l ++ more ++ rest) !! length l = Some (default 0 (last l))) as ->.
  { destruct l as [|a [|b []]]; cbn in *; (done || lia). }
  cbn [mbind option_bind]. rewrite Z.land_ones, Hz by lia. cbn. do 3 f_equal. lia.
Qed.

Lemma key_usage_covering unused bytes rest cert crit : extension_ok (Extension crit (KeyUsage unused bytes)) ->
  x509_parse_key_usage cert (covering (der_value (KeyUsage unused bytes)) rest) = ok (apply_to (KeyUsage unused bytes) cert).
Proof.
  intros (Hu & Hb & Hl & Hz). unfold x509_parse_key_usage. cbn [der_value].
  rewrite <- (app_nil_r (asn1_object ASN1_BIT_STRING _)), bits_covering by done. cbn [mbind option_bind bits_len bits_data].
  destruct (Z.ltb_spec 4 (zlen bytes)); [lia|]. rewrite Nat2Z.id, take_app_length. unfold ok, apply_to. do 4 f_equal. cbn [apply_value].
  f_equal. destruct bytes as [|a [|b []]]; cbn in Hl; try lia; apply Forall_cons in Hb as [Ha Hb]; cbn [key_usage_loop foldr].
  - change (8 * 0) with 0. rewrite Z.shiftl_0_r, wrap_small by (unfold is_byte in Ha; lia). f_equal. lia.
  - apply Forall_cons in Hb as [Hb _]. unfold is_byte in *. change (8 * 0) with 0. change (8 * (0 + 1)) with 8.
    rewrite Z.shiftl_0_r, !wrap_small by (rewrite ?Z.shiftl_mul_pow2; lia). rewrite <- Z.lor_assoc. f_equal.
    rewrite Z.lor_comm, lor_byte by (done || lia). lia.
Qed.

Lemma purpose_covering oid more rest cert : short (asn1_object ASN1_OID oid) ->
  x509_parse_key_purpose cert (covering (asn1_object ASN1_OID oid ++ more) rest) = ok (apply_to (ExtKeyUsage [oid]) cert).
Proof.
  intros Hs%short_object. unfold x509_parse_key_purpose. rewrite enter_covering by (done || by left). cbn [mbind option_bind].
  assert (forall l, asn1_compare_eq (covering oid (more ++ rest)) (oid_cursor l) = bool_decide (oid = l)) as E.
  { intros l. unfold asn1_compare_eq. rewrite contents_covering. unfold oid_cursor, covering. cbn [cur_len cur_data].
    rewrite Nat2Z.id. destruct (Z.eqb_spec (zlen l - zlen oid) 0) as [E|E]; cbn [andb].
    - apply bool_decide_ext. by rewrite take_ge by lia.
    - symmetry. apply bool_decide_eq_false. intros ->. lia. }
  unfold x509_key_purposes, apply_to. cbn [apply_value fold_left]. unfold purpose_bits. rewrite !filter_cons, filter_nil. cbn [fst]. rewrite !E.
  destruct (decide (oid = ASN1_OID_CODESIGNING)) as [->|H1]; [done|]. rewrite (bool_decide_eq_false_2 (oid = ASN1_OID_CODESIGNING)) by done.
  destruct (decide (oid = ASN1_OID_OCSPSIGNING)) as [->|H2]; [done|]. rewrite (bool_decide_eq_false_2 (oid = ASN1_OID_OCSPSIGNING)) by done.
  cbn. rewrite Z.lor_0_r. unfold ok. do 3 f_equal. by destruct cert as [? ? ? ? ? ? ? ? ? ? ? ? ? []].
Qed.

Lemma description_covering zalloc_ok d more rest cert : (forall n, zalloc_ok n = true) ->
  0 <= d.2.1 < 256 -> (d.1 = ASN1_OID_OCSP -> d.2.1 = ASN1_IMPLICIT_TAG 6) -> short (der_description d) ->
  x509_parse_access_description zalloc_ok cert (covering (der_description d ++ more) rest) = ok (apply_to (AuthorityInfoAccess [d]) cert).
Proof.
  intros Hz Ht Ho Hs. unfold x509_parse_access_description, der_description in *. apply short_object in Hs. apply short_app in Hs as Hov.
  destruct Hov as [Hoid%short_object Hv%short_object]. rewrite enter_covering by (done || by left). cbn [mbind option_bind snd].
  rewrite enter_covering by (done || by left). cbn [mbind option_bind snd]. unfold asn1_skip_any.
  rewrite skip_covering; [|done|by right|done|apply object_nonempty]. cbn [mbind option_bind snd].
  unfold x509_find_access_method, x509_access_methods, apply_to. rewrite filter_cons, filter_nil. cbn [fst apply_value fold_left]. rewrite compare_covering.
  destruct (decide (d.1 = ASN1_OID_OCSP)) as [E|E].
  - rewrite bool_decide_eq_true_2 by done. cbn [decide_rel decide]. rewrite decide_True by done. cbn [head fmap option_fmap option_map snd].
    unfold x509_parse_ocsp. rewrite <- (Ho E), enter_only by (done || by left). cbn [mbind option_bind]. by rewrite Hz, contents_covering.
  - rewrite bool_decide_eq_false_2 by congruence. rewrite decide_False by done. cbn. unfold ok. do 3 f_equal.
    by destruct cert as [? ? ? ? ? ? ? ? ? ? ? ? ? []].
Qed.

Lemma ext_key_usage_covering purposes rest cert : short (der_value (ExtKeyUsage purposes)) ->
  x509_parse_extended_key_usage cert (covering (der_value (ExtKeyUsage purposes)) rest) = ok (apply_to (ExtKeyUsage purposes) cert).
Proof.
  intros Hs. unfold x509_parse_extended_key_usage. cbn [der_value] in *. apply short_object in Hs as Hl.
  rewrite enter_only by (done || by left). cbn [mbind option_bind snd].
  rewrite (parse_each_list (fun _ => True) (asn1_object ASN1_OID) (fun oid => apply_to (ExtKeyUsage [oid]))); [|by eexists _, _|done| |done|done].
  - unfold apply_to at 1. rewrite (fold_set_extensions (fun oid => apply_value (ExtKeyUsage [oid]))). unfold ok, apply_to. do 3 f_equal.
    generalize (extensions cert). clear. induction purposes as [|oid purposes IH]; intros [? ? ? ? ? ? ?]; [done|]. cbn [fold_left]. by rewrite IH.
  - intros oid c m r _ Hoid _. by apply purpose_covering.
Qed.

Lemma info_access_covering zalloc_ok descriptions rest cert crit : (forall n, zalloc_ok n = true) ->
  extension_ok (Extension crit (AuthorityInfoAccess descriptions)) -> short (der_value (AuthorityInfoAccess descriptions)) ->
  x509_parse_authority_info_access zalloc_ok cert (covering (der_value (AuthorityInfoAccess descriptions)) rest)
  = ok (apply_to (AuthorityInfoAccess descriptions) cert).
Proof.
  intros Hz Ho Hs. unfold x509_parse_authority_info_access. cbn [der_value extension_ok value_of] in *. apply short_object in Hs as Hl.
  rewrite enter_only by (done || by left). cbn [mbind option_bind snd].
  rewrite (parse_each_list (fun _ => True) der_description (fun d => apply_to (AuthorityInfoAccess [d]))); [|by eexists _, _|done| |done|done].
  - unfold apply_to at 1. rewrite (fold_set_extensions (fun d => apply_value (AuthorityInfoAccess [d]))). unfold ok, apply_to. do 3 f_equal.
    generalize (extensions cert). clear. induction descriptions as [|d ds IH]; intros [? ? ? ? ? ? ?]; [done|]. cbn [fold_left]. by rewrite IH.
  - intros d c m r Hd Hsd _. eapply Forall_forall in Ho as [Ht Hu]; [|exact Hd]. by apply description_covering.
Qed.

Lemma unknown_not_found zalloc_ok oid : unknown_oid oid -> snd <$> head (filter (fun e => e.1 = oid) (x509_extension_table zalloc_ok)) = None.
Proof.
  intros Ho. rewrite filter_none; [done|]. apply Forall_forall. intros e He <-. apply Ho. exact (list_elem_of_fmap_2 fst _ _ He).
Qed.

Lemma extension_covering zalloc_ok e more rest cert : (forall n, zalloc_ok n = true) -> extension_ok e -> short (der_extension e) ->
  sequence_next (more ++ rest) ->
  x509_parse_extension zalloc_ok cert (covering (der_extension e ++ more) rest) = ok (apply_to (value_of e) cert).
Proof.
  intros Hz He Hs Hn. unfold der_extension in *.
  assert (short (der_value (value_of e))) as Hv.
  { unfold der_extension_of in Hs. by apply short_object, short_app in Hs as [_ [_ Hv%short_object]%short_app]. }
  destruct e as [crit [ca path_len|unused bytes|purposes|descriptions|oid value]]; cbn [value_of critical extension_oid] in *.
  - rewrite (extension_header zalloc_ok ASN1_OID_BASICCONSTRAINTS _ _ _ _ _ (Some x509_parse_basic_constraints) eq_refl Hs). destruct ca; [by eapply constraints_ca|].
    destruct path_len as [n|]; [by destruct (He n eq_refl)|]. by apply constraints_no_ca.
  - rewrite (extension_header zalloc_ok ASN1_OID_KEYUSAGE _ _ _ _ _ (Some x509_parse_key_usage) eq_refl Hs). by eapply key_usage_covering.
  - rewrite (extension_header zalloc_ok ASN1_OID_EXTKEYUSAGE _ _ _ _ _ (Some x509_parse_extended_key_usage) eq_refl Hs). by apply ext_key_usage_covering.
  - rewrite (extension_header zalloc_ok ASN1_OID_AUTHORITYINFOACCESS _ _ _ _ _ (Some (x509_parse_authority_info_access zalloc_ok)) eq_refl Hs). by eapply info_access_covering.
  - destruct He as [Ho Hc]. cbn [critical] in Hc. subst crit.
    rewrite (extension_header zalloc_ok oid _ _ _ _ _ None (unknown_not_found zalloc_ok oid Ho) Hs). unfold ok. do 2 f_equal. by destruct cert.
Qed.

Lemma extensions_covering zalloc_ok e es rest cert : (forall n, zalloc_ok n = true) -> Forall extension_ok (e :: es) -> short (der_extensions (e :: es)) ->
  sequence_next rest ->
  x509_parse_extensions zalloc_ok cert (covering (der_extensions (e :: es)) rest) = ok (set_extensions (apply_extensions (e :: es) (extensions cert)) cert).
Proof.
  intros Hz He Hs Hr. unfold x509_parse_extensions, der_extensions in *. apply short_object in Hs as Hq. apply short_object in Hq as Hl.
  rewrite enter_only by (done || by left). cbn [mbind option_bind snd]. rewrite enter_only by (done || by left). cbn [mbind option_bind snd].
  rewrite (parse_each_list sequence_next der_extension (fun e => apply_to (value_of e))); [|by eexists _, _|intros; apply sequence_then| |done|done].
  - unfold apply_to. by rewrite (fold_set_extensions (fun e => apply_value (value_of e))).
  - intros x c m r Hin Hse Hnx. apply extension_covering; [done| |done|done]. by eapply Forall_forall in He.
Qed.

(** A field of the certificate, then the object behind it. *)
Lemma field_covering parse cert cert' obj more rest k : is_object obj -> short obj -> more <> [] ->
  parse cert (covering (obj ++ more) rest) = ok cert' ->
  field_then parse cert (covering (obj ++ more) rest) k = k cert' (covering more rest).
Proof.
  intros (type & body & -> & Ht) Hb%short_object Hm Hp. unfold field_then. rewrite Hp. cbn [and_then ok mbind option_bind].
  unfold asn1_skip_any. by rewrite skip_covering by (done || by right).
Qed.

(** The last field before the extensions, which may be missing. *)
Lemma field_then_extensions zalloc_ok parse cert cert' obj es rest : (forall n, zalloc_ok n = true) -> is_object obj -> short obj ->
  Forall extension_ok es -> short (der_extensions es) -> sequence_next rest -> parse cert (covering (obj ++ der_extensions es) rest) = ok cert' ->
  field_then parse cert (covering (obj ++ der_extensions es) rest) (x509_parse_extensions zalloc_ok)
  = ok (set_extensions (apply_extensions es (extensions cert')) cert').
Proof.
  intros Hz Ho Hs He Hse Hr Hp. destruct es as [|e es].
  - destruct Ho as (type & body & -> & Ht). apply short_object in Hs. unfold field_then. rewrite Hp. cbn [and_then ok mbind option_bind].
    unfold asn1_skip_any. cbn [der_extensions]. rewrite app_nil_r, skip_last by (done || by right). unfold ok. by destruct cert'.
  - erewrite (field_covering parse); [|done|done|apply object_nonempty|exact Hp]. by apply extensions_covering.
Qed.

Lemma version_covering body more rest cert : bytes_ok body -> (1 <= length body <= 4)%nat -> 0 <= twos_complement body ->
  x509_parse_version cert (covering (asn1_object (ASN1_EXPLICIT_TAG 0) (asn1_object ASN1_INTEGER body) ++ more) rest)
  = ok (set_version (twos_complement body) cert).
Proof.
  intros Hb Hl Hp. unfold x509_parse_version. rewrite enter_covering; [|done|by left|].
  - cbn [mbind option_bind snd]. rewrite <- (app_nil_r (asn1_object ASN1_INTEGER _)), integer_covering by done.
    cbn [mbind option_bind]. destruct (Z.ltb_spec (twos_complement body) 0); [lia|]. done.
  - unfold short, asn1_object, asn1_header. rewrite (proj2 (Z.ltb_lt (zlen body) 128)) by lia. rewrite length_app. cbn [length]. lia.
Qed.

Lemma signature_algorithm_covering oid a more rest : algorithm_of oid = Some a -> alg_pubkey a <> None -> alg_digest a <> None ->
  short (der_algorithm oid) ->
  asn1_signature_algorithm ASN1_ALGORITHMS (covering (der_algorithm oid ++ more) rest) = Some (inl a).
Proof.
  intros Ea Hp Hd Hs. unfold asn1_signature_algorithm. rewrite algorithm_covering, Ea by done. cbn [mbind option_bind].
  by destruct (alg_pubkey a), (alg_digest a).
Qed.

(** What the signed part says. *)
Record tbs_fields (i : certificate_info) (a ka : algorithm) (cert cert' : x509_certificate) : Prop := {
  f_tbs : contents (tbs cert') = der_tbs i;
  f_version : version cert' = 2;
  f_serial : contents (serial cert') = asn1_object ASN1_INTEGER (i_serial i);
  f_algorithm : signature_algorithm cert' = Some a;
  f_issuer : contents (issuer cert') = der_name (i_issuer i);
  f_from : not_before cert' = seconds (i_from i);
  f_til : not_after cert' = seconds (i_til i);
  f_subject : contents (subject_raw (subject cert')) = der_name (i_subject i);
  f_name : subject_name (subject cert') = common_name (i_subject i);
  f_key : contents (pk_raw (public_key (subject cert'))) = der_spki (i_key_alg i) (i_key i);
  f_key_alg : pk_algorithm (public_key (subject cert')) = Some ka;
  f_key_bits : take (Z.to_nat (bits_len (pk_bits (public_key (subject cert'))))) (bits_data (pk_bits (public_key (subject cert')))) = i_key i;
  f_extensions : extensions cert' = apply_extensions (i_extensions i) (extensions cert);
  f_rest : (raw cert', sig_algorithm cert', sig_value cert', valid cert') = (raw cert, sig_algorithm cert, sig_value cert, valid cert);
}.

Lemma serial_covering body more rest cert : short body ->
  x509_parse_serial cert (covering (asn1_object ASN1_INTEGER body ++ more) rest)
  = ok (set_serial (covering (asn1_object ASN1_INTEGER body) (more ++ rest)) cert).
Proof. intros Hs. unfold x509_parse_serial. by rewrite shrink_covering by (done || by left). Qed.

Lemma issuer_covering attributes more rest cert : short (der_name attributes) ->
  x509_parse_issuer cert (covering (der_name attributes ++ more) rest)
  = ok (set_issuer (covering (der_name attributes) (more ++ rest)) cert).
Proof. intros Hs%short_object. unfold x509_parse_issuer, der_name. by rewrite shrink_covering by (done || by left). Qed.

Ltac object := by eexists _, _.
Ltac next_field := erewrite (field_covering _ _ _ _ _ _ _); [|object|done|apply object_then_nonempty; object|].

Lemma tbs_covering zalloc_ok i a ka more rest cert : (forall n, zalloc_ok n = true) -> short (der_tbs i) ->
  name_ok (i_subject i) -> date_ok (i_from i) -> date_ok (i_til i) -> Forall extension_ok (i_extensions i) ->
  algorithm_of (i_alg i) = Some a -> alg_pubkey a <> None -> alg_digest a <> None ->
  algorithm_of (i_key_alg i) = Some ka -> alg_pubkey ka <> None -> subject_name (subject cert) = None ->
  sequence_next (more ++ rest) ->
  exists cert', x509_parse_tbscertificate zalloc_ok cert (covering (der_tbs i ++ more) rest) = ok cert' /\ tbs_fields i a ka cert cert'.
Proof.
  intros Hz Hs Hname Hf Ht He Ea Hpa Hda Ek Hpk Hn Hnext. unfold x509_parse_tbscertificate, asn1_shrink_any. unfold der_tbs in Hs |- * at 1.
  apply short_object in Hs. rewrite shrink_covering by (done || by right). cbn [mbind option_bind snd].
  rewrite enter_only by (done || by left). cbn [mbind option_bind snd].
  rewrite type_covering by done. cbn [mbind option_bind]. change (_ =? _) with true. cbn iota.
  apply short_app in Hs as [Hver Hs]. apply short_app in Hs as [Hserial Hs]. apply short_app in Hs as [Halg Hs].
  apply short_app in Hs as [Hiss Hs]. apply short_app in Hs as [Hval Hs]. apply short_app in Hs as [Hsub Hs]. apply short_app in Hs as [Hkey Hext].
  next_field; [|apply version_covering; [by_decide|cbn; lia|done]].
  next_field; [|by apply serial_covering; eapply short_object].
  next_field; [|unfold parse_signature_algorithm; by erewrite signature_algorithm_covering].
  next_field; [|by apply issuer_covering].
  next_field; [|by apply validity_covering].
  next_field; [|by apply subject_covering].
  match goal with |- context[field_then x509_parse_public_key ?c (covering (_ ++ ?m) ?r)] =>
    destruct (public_key_covering (i_key_alg i) ka (i_key i) m r c Ek Hpk Hkey) as (key & Epk & Kraw & Kalg & Kbits) end.
  erewrite field_then_extensions; [|done|object|done|done|done|done|exact Epk].
  eexists. split; [done|]. split; try done; cbn; try apply contents_covering.
Qed.

(** ** Theorems. *)

(** C16: A version 3 certificate laid out as RFC 5280 says, without unique
    identifiers, is parsed without an error when memory lasts, its
    algorithms are known, its dates are of the years 1950 to 9999 and its
    extensions are basic constraints, key usage, extended key usage,
    authority information access or others that are not critical; and every
    field holds what the certificate says: the signed part, the serial
    number, the names, the times, written as UTCTime or GeneralizedTime, the
    key, the effect of all extensions in their order, and the signature
    with the algorithm that stands outside the signed part.  Two checks
    that the code announces have no effect, which the theorem shows: that
    algorithm need not be the one inside, and a common name may hold zero
    bytes. *)
Theorem x509_parse_der zalloc_ok i a ka sa rest : (forall n, zalloc_ok n = true) -> short (der_certificate i) ->
  name_ok (i_subject i) -> date_ok (i_from i) -> date_ok (i_til i) -> Forall extension_ok (i_extensions i) ->
  algorithm_of (i_alg i) = Some a -> alg_pubkey a <> None -> alg_digest a <> None ->
  algorithm_of (i_key_alg i) = Some ka -> alg_pubkey ka <> None ->
  algorithm_of (i_sig_alg i) = Some sa -> alg_pubkey sa <> None -> alg_digest sa <> None ->
  exists cert, x509_parse zalloc_ok null_certificate (covering (der_certificate i) rest) = ok cert /\
    tbs_fields i a ka (set_raw (covering (der_certificate i) rest) null_certificate) (set_sig None (BitString [] 0 0) cert) /\
    sig_algorithm cert = Some sa /\
    take (Z.to_nat (bits_len (sig_value cert))) (bits_data (sig_value cert)) = i_signature i.
Proof.
  intros Hz Hs Hname Hf Ht He Ea Hpa Hda Ek Hpk Es Hps Hds. unfold x509_parse. unfold der_certificate in Hs |- * at 2.
  apply short_object in Hs. rewrite enter_only by (done || by left). cbn [mbind option_bind snd].
  apply short_app in Hs as [Htbs Hs]. apply short_app in Hs as [Halg Hsig].
  set (cert0 := set_raw (covering (der_certificate i) rest) null_certificate).
  destruct (tbs_covering zalloc_ok i a ka (der_algorithm (i_sig_alg i) ++ asn1_object ASN1_BIT_STRING (0 :: i_signature i)) rest cert0)
    as (cert & Ep & Hfields); try done; [rewrite <- app_assoc; apply sequence_then|].
  erewrite (field_covering (x509_parse_tbscertificate zalloc_ok)); [|object|done|apply object_then_nonempty; object|exact Ep].
  erewrite signature_algorithm_covering by done. cbn [mbind option_bind]. unfold asn1_skip_any.
  unfold der_algorithm. rewrite skip_covering; [|done|by right|by apply short_object in Halg|apply object_nonempty].
  cbn [mbind option_bind snd]. unfold covering.
  rewrite integral_bit_string_object; [|unfold short in Hsig; apply short_object in Hsig; unfold short in Hsig; cbn [length] in Hsig; lia|lia].
  cbn [mbind option_bind]. rewrite bool_decide_eq_true_2 by done. eexists. split; [done|]. split; [|split; [done|]].
  - destruct Hfields as [? ? ? ? ? ? ? ? ? ? ? ? ? Hrest]. split; try done. cbn. cbn in Hrest. congruence.
  - cbn. by rewrite Nat2Z.id, take_app_length.
Qed.

(** A certificate whose two algorithms differ; it is no authority, its key
    signs code, it names a responder, and it ends after 2049. *)
Definition example_info : certificate_info :=
  Info [18; 52] ASN1_OID_SHA256WITHRSAENCRYPTION [(Attribute ASN1_OID_COMMON_NAME UTF8_STRING [67; 65], [])]
    (Date 2012 3 1 0 0 0) (Date 2051 3 1 12 0 0)
    [(Attribute [ASN1_OID_INITIAL 2 5; 4; 10] 19 [105], []);
     (Attribute ASN1_OID_COMMON_NAME UTF8_STRING [97; 0; 98], [Attribute [ASN1_OID_INITIAL 2 5; 4; 11] 19 [106]])] ASN1_OID_RSAENCRYPTION [1; 2; 3]
    [Extension true (KeyUsage 7 [128]); Extension false (ExtKeyUsage [ASN1_OID_CODESIGNING]);
     Extension false (AuthorityInfoAccess [(ASN1_OID_OCSP, (ASN1_IMPLICIT_TAG 6, [104]))]);
     Extension false (OtherExtension [ASN1_OID_INITIAL 2 5; 29; 14] [1]); Extension true (BasicConstraints false None)]
    ASN1_OID_MD5WITHRSAENCRYPTION [9; 9].

Lemma x509_parse_der_witness : exists cert,
  x509_parse (fun _ => true) null_certificate (covering (der_certificate example_info) []) = ok cert /\
  tbs_fields example_info sha256_with_rsa_encryption_algorithm rsa_encryption_algorithm
    (set_raw (covering (der_certificate example_info) []) null_certificate) (set_sig None (BitString [] 0 0) cert) /\
  sig_algorithm cert = Some md5_with_rsa_encryption_algorithm /\
  take (Z.to_nat (bits_len (sig_value cert))) (bits_data (sig_value cert)) = [9; 9].
Proof.
  apply (x509_parse_der (fun _ => true) example_info); try done.
  - by_decide.
  - repeat apply Forall_cons_2; try apply Forall_nil_2; cbn [extension_ok value_of].
    + by_decide.
    + done.
    + by_decide.
    + split; [by_decide|done].
    + done.
Defined.

(** An extension with an unknown identifier: refused when it is critical,
    skipped when not. *)
Lemma unknown_extension zalloc_ok oid crit value more rest cert : unknown_oid oid -> short (der_extension_of oid crit value) ->
  x509_parse_extension zalloc_ok cert (covering (der_extension_of oid crit value ++ more) rest)
  = if crit then err ENOTSUP_EXTENSION cert else ok cert.
Proof. intros Ho Hs. exact (extension_header zalloc_ok oid crit value more rest cert None (unknown_not_found zalloc_ok oid Ho) Hs). Qed.
