(* ===== verification/X509Chain.v ===== *)
(** * X.509 certificates: chains and validation (crypto/x509.c).

    A certificate remembers that it was validated, and chains share their
    certificates, so there is a store from addresses to certificates, and
    a chain is the list of the addresses its links hold.  A read outside
    the data of a key, a signature or the root fingerprints is a fault
    ([None]).  The context of a digest is on the stack and the memory of
    an RSA context comes from the heap; what they hold at first is a
    parameter.

    The theorems: a chain that validates has given its first certificate
    a path of issuers to a trusted root, with each step signed, each issuer
    allowed to sign and every path length constraint of RFC 5280 kept; a
    chain that is such a path validates; a signature is accepted exactly
    when its power is the padded digest of the signed part. *)

From stdpp Require Import gmap.
From S2P Require Import Prelude Asn1 Time Digest Sha Rsa X509 X509Der.

Abbreviation loc := nat.

(** ** Checks of one certificate. *)

(** [root->fingerprints] holds [root->count] digests. *)
Record x509_root := Root { root_digest : digest_ref; root_count : Z; root_fingerprints : list Z }.

Definition X509_KEY_CERT_SIGN : Z := 0x0004.
Definition X509_ERROR_MARGIN_TIME : Z := (12 * 60 + 30) * 60.

#[export] Instance pubkey_ref_eq_dec : EqDecision pubkey_ref.
Proof. solve_decision. Defined.

Section Checks.
Variable malloc : Z -> Z -> option (list Z).
Variable stack : forall d : digest_ref, dg_ctx (digest_of d).
Variable root_certificates : x509_root.

(** [digest_init], [digest_update], [digest_final] with a context on the stack. *)
Definition digest_once (d : digest_ref) (data : list Z) : option (list Z) :=
  p ← digest_final (digest_of d) (digest_update (digest_of d) (digest_init (digest_of d) (stack d)) data);
  Some p.2.

Definition x509_check_signature (cert : x509_certificate) (key : x509_public_key) : option rc :=
  a ← sig_algorithm cert;
  digest ← alg_digest a;
  pubkey ← alg_pubkey a;
  digest_out ← digest_once digest (contents (tbs cert));
  ka ← pk_algorithm key;
  if negb (bool_decide (alg_pubkey ka = Some pubkey)) then Some (RC_ERR EINVAL_ALGORITHM_MISMATCH) else
  r ← rsa_init malloc (contents (pk_raw key));
  match r with
  | inr e => Some (RC_ERR e)
  | inl pubkey_ctx =>
      v ← rsa_verify pubkey_ctx digest digest_out (take (Z.to_nat (bits_len (sig_value cert))) (bits_data (sig_value cert)));
      Some v.2
  end.

Definition x509_check_issuer (cert iss : x509_certificate) : option rc :=
  if negb (asn1_compare_eq (issuer cert) (subject_raw (subject iss))) then Some (RC_ERR EACCES_WRONG_ISSUER)
  else if negb (ctrue (ext_ca (extensions iss))) then Some (RC_ERR EACCES_NOT_CA)
  else if usage_present (extensions iss) && negb (ctrue (Z.land (usage_bits (extensions iss)) X509_KEY_CERT_SIGN))
  then Some (RC_ERR EACCES_KEY_USAGE)
  else x509_check_signature cert (public_key (subject iss)).

Definition x509_fingerprint (cert : x509_certificate) (digest : digest_ref) : option (list Z) :=
  digest_once digest (contents (raw cert)).

(** [memcmp] of [n] bytes; reading past the end is a fault. *)
Fixpoint check_root_loop (count : nat) (n : nat) (fingerprint root_fingerprint : list Z) : option rc :=
  match count with
  | O => Some (RC_ERR ENOENT)
  | S count' =>
      if (length root_fingerprint <? n)%nat then None
      else if bool_decide (take n root_fingerprint = fingerprint) then Some RC_OK
      else check_root_loop count' n fingerprint (drop n root_fingerprint)
  end.

Definition x509_check_root (cert : x509_certificate) (root : x509_root) : option rc :=
  fingerprint ← x509_fingerprint cert (root_digest root);
  check_root_loop (Z.to_nat (root_count root)) (Z.to_nat (digestsize (digest_of (root_digest root)))) fingerprint (root_fingerprints root).

Definition x509_check_time (cert : x509_certificate) (time : Z) : rc :=
  if signed 64 (time + X509_ERROR_MARGIN_TIME) <? not_before cert then RC_ERR EACCES_EXPIRED
  else if not_after cert <? signed 64 (time - X509_ERROR_MARGIN_TIME) then RC_ERR EACCES_EXPIRED
  else RC_OK.

(** The certificate after the call; the issuer is read where it stands,
    which may be the certificate itself. *)
Definition x509_validate (cert : x509_certificate) (iss : option x509_certificate) (time : Z) (root : option x509_root) :
    option (rc * x509_certificate) :=
  let root := default root_certificates root in
  if valid cert then Some (RC_OK, cert) else
  match x509_check_time cert time with
  | RC_ERR e => Some (RC_ERR e, cert)
  | RC_OK =>
      r ← x509_check_root cert root;
      match r with
      | RC_OK => Some (RC_OK, set_trust true (u32 (ext_path_len (extensions cert) + 1)) cert)
      | RC_ERR _ =>
          match iss with
          | None => Some (RC_ERR EACCES_UNTRUSTED, cert)
          | Some iss =>
              if negb (valid iss) then Some (RC_ERR EACCES_OUT_OF_ORDER, cert) else
              i ← x509_check_issuer cert iss;
              match i with
              | RC_ERR e => Some (RC_ERR e, cert)
              | RC_OK =>
                  if path_remaining iss =? 0 then Some (RC_ERR EACCES_PATH_LEN, cert)
                  else if bool_decide (ocsp_uri (extensions cert) <> None) && negb (ocsp_good (extensions cert))
                  then Some (RC_ERR EACCES_OCSP_REQUIRED, cert)
                  else
                    let remaining := u32 (path_remaining iss - 1) in
                    let max_path_remaining := u32 (ext_path_len (extensions cert) + 1) in
                    Some (RC_OK, set_trust true (if max_path_remaining <? remaining then max_path_remaining else remaining) cert)
              end
          end
      end
  end.
End Checks.

(** ** Validation of a chain. *)

Abbreviation certificates := (gmap loc x509_certificate).

Section Validate.
Variable malloc : Z -> Z -> option (list Z).
Variable stack : forall d : digest_ref, dg_ctx (digest_of d).
Variable root_certificates : x509_root.

Definition validate_at (certs : certificates) (l : loc) (iss : option loc) (time : Z) (root : option x509_root) :
    option (rc * certificates) :=
  cert ← certs !! l;
  i ← match iss with None => Some None | Some i => c ← certs !! i; Some (Some c) end;
  p ← x509_validate malloc stack root_certificates cert i time root;
  Some (p.1, <[l := p.2]> certs).

(** From the link before the valid one back to the start of the chain. *)
Fixpoint validate_back (certs : certificates) (links : list loc) (iss : loc) (time : Z) (root : option x509_root) :
    option (rc * certificates) :=
  match links with
  | [] => Some (RC_OK, certs)
  | l :: links' =>
      p ← validate_at certs l (Some iss) time root;
      match p with
      | (RC_OK, certs) => validate_back certs links' l time root
      | _ => Some p
      end
  end.

(** [seen] is the part of the chain before the link, last one first. *)
Fixpoint validate_links (certs : certificates) (seen links : list loc) (time : Z) (root : option x509_root) :
    option (rc * certificates) :=
  match links with
  | [] => Some (RC_ERR EACCES_UNTRUSTED, certs)
  | l :: links' =>
      p ← validate_at certs l None time root;
      match p with
      | (RC_OK, certs) => validate_back certs seen l time root
      | (RC_ERR _, certs) => validate_links certs (l :: seen) links' time root
      end
  end.

Definition x509_validate_chain (certs : certificates) (chain : list loc) (time : Z) (root : option x509_root) :
    option (rc * certificates) :=
  match chain with
  | [] => Some (RC_ERR EACCES_EMPTY, certs)
  | _ => validate_links certs [] chain time root
  end.

Definition x509_invalidate (certs : certificates) (l : loc) : option certificates :=
  cert ← certs !! l; Some (<[l := set_trust false 0 cert]> certs).

Fixpoint x509_invalidate_chain (certs : certificates) (chain : list loc) : option certificates :=
  match chain with
  | [] => Some certs
  | l :: chain' => certs ← x509_invalidate certs l; x509_invalidate_chain certs chain'
  end.

(** What [ocsp_validate] does to a certificate that passed its check. *)
Definition ocsp_mark_good (certs : certificates) (l : loc) : option certificates :=
  cert ← certs !! l;
  let e := extensions cert in
  Some (<[l := set_extensions (Extensions (ext_ca e) (ext_path_len e) (usage_present e) (usage_bits e) (ext_usage_bits e)
    (ocsp_uri e) true) cert]> certs).
End Validate.

(** ** Trust. *)

(** The certificate without what validation has written into it. *)
Definition identity (cert : x509_certificate) : x509_certificate := set_trust false 0 cert.

Definition in_time (cert : x509_certificate) (time : Z) : Prop :=
  not_before cert <= time + X509_ERROR_MARGIN_TIME /\ time - X509_ERROR_MARGIN_TIME <= not_after cert.

Definition time_range (time : Z) : Prop := - 2 ^ 62 <= time < 2 ^ 62.

Definition path_len_range (cert : x509_certificate) : Prop := 0 <= ext_path_len (extensions cert) <= 2 ^ 32 - 2.

(** The constraints of RFC 5280 on the lengths: [k] certificates come
    before the one at position [k], the first of them not counted. *)
Definition path_lengths (path : list x509_certificate) : Prop :=
  forall k cert, path !! k = Some cert -> Z.of_nat k - 1 <= ext_path_len (extensions cert).

Section Trust.
Variable malloc : Z -> Z -> option (list Z).
Variable stack : forall d : digest_ref, dg_ctx (digest_of d).
(** The times and the root stores certificates were validated with. *)
Variable calls : Z -> x509_root -> Prop.

Definition issued_by (cert iss : x509_certificate) : Prop :=
  contents (issuer cert) = contents (subject_raw (subject iss)) /\
  ext_ca (extensions iss) <> 0 /\
  (usage_present (extensions iss) = true -> Z.testbit (usage_bits (extensions iss)) 2 = true) /\
  x509_check_signature malloc stack cert (public_key (subject iss)) = Some RC_OK.

Definition ocsp_ok (cert : x509_certificate) : Prop := ocsp_uri (extensions cert) = None \/ ocsp_good (extensions cert) = true.

(** From a certificate to a root. *)
Inductive cert_path : list x509_certificate -> Prop :=
| path_root cert time root :
    calls time root -> in_time cert time -> x509_check_root stack cert root = Some RC_OK -> cert_path [cert]
| path_issued cert iss path time root :
    calls time root -> in_time cert time -> issued_by cert iss -> ocsp_ok cert -> cert_path (iss :: path) ->
    cert_path (cert :: iss :: path).

(** [remaining] more certificates may follow the path. *)
Definition remaining_ok (remaining : Z) (path : list x509_certificate) : Prop :=
  0 <= remaining < 2 ^ 32 /\
  forall k cert, path !! k = Some cert -> remaining + Z.of_nat k <= ext_path_len (extensions cert) + 1.

Definition trusted (cert : x509_certificate) : Prop :=
  exists path, cert_path (identity cert :: path) /\ remaining_ok (path_remaining cert) (identity cert :: path).

Definition certs_ok (certs : certificates) : Prop :=
  map_Forall (fun _ cert => path_len_range cert /\ (valid cert = true -> trusted cert)) certs.
End Trust.

(** Cursors of certificates lie inside their data. *)
Definition in_data (c : asn1_cursor) : Prop := 0 <= cur_len c <= zlen (cur_data c).
Definition names_ok (cert : x509_certificate) : Prop := in_data (issuer cert) /\ in_data (subject_raw (subject cert)).

Lemma compare_true a b : asn1_compare_eq a b = true -> cur_len a = cur_len b /\ contents a = contents b.
Proof.
  unfold asn1_compare_eq. intros [E1%Z.eqb_eq E2%bool_decide_eq_true]%andb_prop. split; [lia|]. rewrite E2. unfold contents. f_equal. lia.
Qed.

Lemma compare_sym a b : asn1_compare_eq a b = asn1_compare_eq b a.
Proof.
  unfold asn1_compare_eq, contents. destruct (Z.eqb_spec (cur_len b - cur_len a) 0) as [E|E].
  - assert (cur_len b = cur_len a) as -> by lia. rewrite Z.sub_diag. cbn [andb Z.eqb]. apply bool_decide_ext. naive_solver.
  - destruct (Z.eqb_spec (cur_len a - cur_len b) 0); [lia|done].
Qed.

Lemma compare_contents a b : in_data a -> in_data b -> asn1_compare_eq a b = bool_decide (contents a = contents b).
Proof.
  unfold in_data, asn1_compare_eq, contents. intros Ha Hb. destruct (Z.eqb_spec (cur_len b - cur_len a) 0) as [E|E]; cbn [andb].
  - assert (cur_len b = cur_len a) as -> by lia. by apply bool_decide_ext.
  - symmetry. apply bool_decide_eq_false. intros C%(f_equal length). rewrite !length_take in C. lia.
Qed.

Lemma low_bit x k : 0 <= k -> ctrue (Z.land x (2 ^ k)) = Z.testbit x k.
Proof.
  intros Hk. assert (Z.land x (2 ^ k) = if Z.testbit x k then 2 ^ k else 0) as ->.
  { apply Z.bits_inj'. intros n Hn. rewrite Z.land_spec, Z.pow2_bits_eqb by done. destruct (Z.eqb_spec k n) as [->|Hne].
    - destruct (Z.testbit x n) eqn:E; [by rewrite Z.pow2_bits_true|by rewrite Z.testbit_0_l].
    - rewrite andb_false_r. destruct (Z.testbit x k); [by rewrite Z.pow2_bits_false by lia|by rewrite Z.testbit_0_l]. }
  unfold ctrue. destruct (Z.testbit x k); [|done]. destruct (Z.eqb_spec (2 ^ k) 0) as [E|]; [|done].
  pose proof (Z.pow_pos_nonneg 2 k ltac:(lia) Hk). lia.
Qed.

Lemma key_cert_sign_bit bits : ctrue (Z.land bits X509_KEY_CERT_SIGN) = Z.testbit bits 2.
Proof. by apply (low_bit bits 2). Qed.

Lemma s64_id x : - 2 ^ 63 <= x < 2 ^ 63 -> signed 64 x = x.
Proof. intros. unfold signed, wrap. change (2 ^ (64 - 1)) with (2 ^ 63). zcases; zdm. Qed.

Lemma check_time_spec cert time : time_range time ->
  x509_check_time cert time = if bool_decide (not_before cert <= time + X509_ERROR_MARGIN_TIME /\ time - X509_ERROR_MARGIN_TIME <= not_after cert)
    then RC_OK else RC_ERR EACCES_EXPIRED.
Proof.
  unfold time_range, x509_check_time, X509_ERROR_MARGIN_TIME. intros Ht. rewrite !s64_id by lia.
  case_bool_decide; zcases; try done; exfalso; lia.
Qed.

Lemma issuer_accepted malloc stack cert iss : x509_check_issuer malloc stack cert iss = Some RC_OK -> issued_by malloc stack cert iss.
Proof.
  unfold x509_check_issuer, issued_by. rewrite key_cert_sign_bit.
  destruct (asn1_compare_eq _ _) eqn:E; [|done]. cbn [negb]. destruct (ctrue (ext_ca _)) eqn:Ec; [|done]. cbn [negb].
  destruct (usage_present _ && _) eqn:Eu; [done|]. intros Hs. splits; [|..|done].
  - by apply compare_true.
  - intros C. by rewrite C in Ec.
  - intros Hp. rewrite Hp in Eu. by destruct (Z.testbit _ 2).
Qed.

Lemma issuer_accepts malloc stack cert iss : names_ok cert -> names_ok iss -> issued_by malloc stack cert iss ->
  x509_check_issuer malloc stack cert iss = Some RC_OK.
Proof.
  intros [Hc _] [_ Hi] (En & Hca & Hu & Hs). unfold x509_check_issuer. rewrite compare_contents, key_cert_sign_bit by done.
  rewrite bool_decide_eq_true_2 by done. cbn [negb]. unfold ctrue. destruct (Z.eqb_spec (ext_ca (extensions iss)) 0); [done|].
  cbn [negb]. destruct (usage_present _); [|done]. by rewrite Hu.
Qed.

Lemma remaining_root cert : path_len_range cert -> remaining_ok (u32 (ext_path_len (extensions cert) + 1)) [cert].
Proof.
  unfold path_len_range. intros Hr. rewrite wrap_small by lia. split; [lia|]. intros [|k] c; [|done]. cbn. intros [= <-]. lia.
Qed.

Lemma remaining_issued cert remaining path : path_len_range cert -> remaining_ok remaining path -> remaining <> 0 ->
  remaining_ok (let r := u32 (remaining - 1) in let m := u32 (ext_path_len (extensions cert) + 1) in if m <? r then m else r) (cert :: path).
Proof.
  unfold path_len_range. intros Hr [Hrange Hl] Hn. rewrite !wrap_small by lia. cbn zeta. split; [destruct (Z.ltb_spec (ext_path_len (extensions cert) + 1) (remaining - 1)); lia|].
  intros [|k] c; cbn; [intros [= <-]|intros Hc; apply Hl in Hc]; destruct (Z.ltb_spec (ext_path_len (extensions cert) + 1) (remaining - 1)); lia.
Qed.

(** One call: the certificate keeps its data, becomes valid exactly when
    the call succeeds, and only with a path to a root. *)
Lemma validate_sound malloc stack roots calls cert iss time root r cert' :
  x509_validate malloc stack roots cert iss time root = Some (r, cert') ->
  calls time (default roots root) -> time_range time ->
  path_len_range cert -> (valid cert = true -> trusted malloc stack calls cert) ->
  (forall i, iss = Some i -> valid i = true -> trusted malloc stack calls i) ->
  identity cert' = identity cert /\ (valid cert' = true -> trusted malloc stack calls cert') /\
  match r with RC_OK => valid cert' = true | RC_ERR _ => cert' = cert end.
Proof.
  intros E Hcalls Ht Hp Hv Hi. unfold x509_validate in E. cbn zeta in E.
  destruct (valid cert) eqn:Ev; [injection E as <- <-; rewrite Ev; naive_solver|].
  assert (forall e, Some (RC_ERR e, cert) = Some (r, cert') -> identity cert' = identity cert /\ (valid cert' = true -> trusted malloc stack calls cert') /\
    match r with RC_OK => valid cert' = true | RC_ERR _ => cert' = cert end) as Err by (intros e [= <- <-]; rewrite Ev; done).
  rewrite check_time_spec in E by done. case_bool_decide as Htime; [|exact (Err _ E)].
  destruct (x509_check_root stack cert (default roots root)) as [[|e]|] eqn:Er; [| |done]; cbn [mbind option_bind] in E.
  - injection E as <- <-. splits; [done| |done]. intros _. exists []. split; [|exact (remaining_root (identity cert) Hp)].
    by apply (path_root _ _ _ _ time (default roots root)).
  - destruct iss as [i|]; [|exact (Err _ E)]. destruct (valid i) eqn:Evi; [|exact (Err _ E)]. cbn [negb] in E.
    destruct (x509_check_issuer malloc stack cert i) as [[|e']|] eqn:Ei; [|exact (Err _ E)|done]. cbn [mbind option_bind] in E.
    destruct (Z.eqb_spec (path_remaining i) 0) as [|Hn]; [exact (Err _ E)|].
    destruct (bool_decide _ && _) eqn:Eo; [exact (Err _ E)|]. injection E as <- <-. splits; [done| |done]. intros _.
    destruct (Hi i eq_refl Evi) as (path & Hpath & Hrem). exists (identity i :: path). split; [|exact (remaining_issued (identity cert) _ _ Hp Hrem Hn)].
    apply (path_issued _ _ _ _ _ _ time (default roots root)); try done.
    + exact (issuer_accepted _ _ _ _ Ei).
    + unfold ocsp_ok. cbn. destruct (ocsp_uri (extensions cert)); [|by left]. right. by destruct (ocsp_good _).
Qed.

Lemma mark_good_ok malloc stack calls certs l certs' : certs_ok malloc stack calls certs -> ocsp_mark_good certs l = Some certs' ->
  certs_ok malloc stack calls certs'.
Proof.
  intros Hok E. unfold ocsp_mark_good in E. destruct (certs !! l) as [cert|] eqn:El; [|done]. cbn [mbind option_bind] in E.
  injection E as <-. apply map_Forall_insert_2; [|done]. destruct (Hok l cert El) as [Hp Hv]. split; [exact Hp|]. cbn [valid set_extensions].
  intros H. destruct (Hv H) as (path & Hpath & Hrange & Hrem). exists path. split.
  - inversion Hpath as [c t r Hc Ht Hr|c iss p t r Hc Ht Hi Ho Hrest]; subst.
    + eapply path_root; [exact Hc|exact Ht|exact Hr].
    + eapply path_issued; [exact Hc|exact Ht|exact Hi|by right|exact Hrest].
  - split; [exact Hrange|]. intros [|k] c; cbn; [intros [= <-]; exact (Hrem 0%nat _ eq_refl)|exact (Hrem (S k) c)].
Qed.

Section Chains.
Variable malloc : Z -> Z -> option (list Z).
Variable stack : forall d : digest_ref, dg_ctx (digest_of d).
Variable roots : x509_root.
Variable calls : Z -> x509_root -> Prop.
Variable time : Z.
Variable root : option x509_root.
Hypothesis Hcalls : calls time (default roots root).
Hypothesis Htime : time_range time.

Definition made_valid (certs : certificates) (l : loc) : Prop := exists cert, certs !! l = Some cert /\ valid cert = true.

(** What a validation may do to the store. *)
Definition sound_step (certs : certificates) (r : rc) (certs' : certificates) (l : loc) : Prop :=
  certs_ok malloc stack calls certs' /\ identity <$> certs' = identity <$> certs /\ (r = RC_OK -> made_valid certs' l).

Lemma validate_at_sound certs l iss r certs' : certs_ok malloc stack calls certs ->
  validate_at malloc stack roots certs l iss time root = Some (r, certs') -> sound_step certs r certs' l.
Proof.
  intros Hok E. unfold validate_at in E. destruct (certs !! l) as [cert|] eqn:El; [|done]. cbn [mbind option_bind] in E.
  assert (exists i, match iss with None => Some None | Some i => c ← certs !! i; Some (Some c) end = Some i /\
    (forall c, i = Some c -> valid c = true -> trusted malloc stack calls c)) as (i & Ei & Hi).
  { destruct iss as [li|]; [|by exists None]. destruct (certs !! li) as [c|] eqn:Ec; [|by cbn in E].
    exists (Some c). split; [done|]. intros c' [= <-]. exact (proj2 (Hok li c Ec)). }
  rewrite Ei in E. cbn [mbind option_bind] in E. destruct (x509_validate _ _ _ cert i time root) as [[r0 cert']|] eqn:Ev; [|done].
  cbn in E. injection E as <- <-. destruct (Hok l cert El) as [Hp Hv].
  destruct (validate_sound _ _ _ _ _ _ _ _ _ _ Ev Hcalls Htime Hp Hv Hi) as (Eid & Hv' & Hr). unfold sound_step. splits.
  - apply map_Forall_insert_2; [|done]. split; [|done].
    assert (extensions cert' = extensions cert) as Eext by exact (f_equal extensions Eid). unfold path_len_range. by rewrite Eext.
  - rewrite fmap_insert, Eid. apply insert_id. by rewrite lookup_fmap, El.
  - intros ->. exists cert'. split; [apply lookup_insert_eq|done].
Qed.

Lemma validate_back_sound links : forall certs iss r certs', certs_ok malloc stack calls certs -> made_valid certs iss ->
  validate_back malloc stack roots certs links iss time root = Some (r, certs') -> sound_step certs r certs' (default iss (last links)).
Proof.
  unfold sound_step.   induction links as [|l links IH]; intros certs iss r certs' Hok Hv E; cbn [validate_back] in E.
  - injection E as <- <-. by splits.
  - destruct (validate_at _ _ _ certs l (Some iss) time root) as [[r1 certs1]|] eqn:E1; [|done]. cbn [mbind option_bind] in E.
    destruct (validate_at_sound _ _ _ _ _ Hok E1) as (Hok1 & Eid1 & Hv1). destruct r1 as [|e].
    + destruct (IH _ _ _ _ Hok1 (Hv1 eq_refl) E) as (Hok2 & Eid2 & Hv2). splits; [done|congruence|].
      rewrite last_cons. by destruct (last links).
    + injection E as <- <-. by splits.
Qed.

Lemma validate_links_sound links : forall certs seen r certs', certs_ok malloc stack calls certs ->
  validate_links malloc stack roots certs seen links time root = Some (r, certs') ->
  certs_ok malloc stack calls certs' /\ identity <$> certs' = identity <$> certs /\
  (r = RC_OK -> exists l, head (reverse seen ++ links) = Some l /\ made_valid certs' l).
Proof.
  induction links as [|l links IH]; intros certs seen r certs' Hok E; cbn [validate_links] in E; [by injection E as <- <-|].
  destruct (validate_at _ _ _ certs l None time root) as [[r1 certs1]|] eqn:E1; [|done]. cbn [mbind option_bind] in E.
  destruct (validate_at_sound _ _ _ _ _ Hok E1) as (Hok1 & Eid1 & Hv1). destruct r1 as [|e].
  - destruct (validate_back_sound _ _ _ _ _ Hok1 (Hv1 eq_refl) E) as (Hok2 & Eid2 & Hv2). splits; [done|congruence|].
    intros Hr. exists (default l (last seen)). split; [|by apply Hv2]. rewrite head_app, head_reverse. by destruct (last seen).
  - destruct (IH _ _ _ _ Hok1 E) as (Hok2 & Eid2 & Hv2). splits; [done|congruence|]. intros Hr.
    destruct (Hv2 Hr) as (l' & Hl & Hv). exists l'. split; [|done]. by rewrite reverse_cons, <- app_assoc in Hl.
Qed.
End Chains.

(** ** Chains that are accepted. *)

Section Accepted.
Variable malloc : Z -> Z -> option (list Z).
Variable stack : forall d : digest_ref, dg_ctx (digest_of d).
Variable roots : x509_root.
Variable time : Z.
Variable root : option x509_root.
Hypothesis Htime : time_range time.

(** This time and this root store only. *)
Definition this_call (t : Z) (r : x509_root) : Prop := t = time /\ r = default roots root.

(** A certificate that was not validated yet, and whose fingerprint can be
    compared with the root store. *)
Definition fresh_cert (cert : x509_certificate) : Prop :=
  valid cert = false /\ names_ok cert /\ path_len_range cert /\ exists r, x509_check_root stack cert (default roots root) = Some r.

Lemma validate_root cert iss : fresh_cert cert -> in_time cert time -> x509_check_root stack cert (default roots root) = Some RC_OK ->
  x509_validate malloc stack roots cert iss time root = Some (RC_OK, set_trust true (ext_path_len (extensions cert) + 1) cert).
Proof.
  intros (Ev & _ & Hp & _) Ht Er. unfold x509_validate. rewrite Ev, check_time_spec, bool_decide_eq_true_2, Er by done.
  cbn [mbind option_bind]. unfold path_len_range in Hp. by rewrite wrap_small by lia.
Qed.

Lemma validate_issued cert iss n : fresh_cert cert -> in_time cert time -> issued_by malloc stack cert iss -> ocsp_ok cert ->
  valid iss = true -> names_ok iss -> n + 1 <= path_remaining iss < 2 ^ 32 -> 0 <= n <= ext_path_len (extensions cert) + 1 ->
  exists p, x509_validate malloc stack roots cert (Some iss) time root = Some (RC_OK, set_trust true p cert) /\ n <= p < 2 ^ 32.
Proof.
  intros Hf Ht Hi Ho Evi Hni Hn Hp. pose proof Hf as (Ev & Hnc & Hpr & ([|e] & Er)); unfold path_len_range in Hpr.
  { eexists. split; [by apply validate_root|lia]. }
  unfold x509_validate. rewrite Ev, check_time_spec, bool_decide_eq_true_2, Er by done. cbn [mbind option_bind]. rewrite Evi. cbn [negb].
  rewrite issuer_accepts by done. cbn [mbind option_bind]. destruct (Z.eqb_spec (path_remaining iss) 0); [lia|].
  assert (bool_decide (ocsp_uri (extensions cert) <> None) && negb (ocsp_good (extensions cert)) = false) as ->.
  { destruct Ho as [->| ->]; [by rewrite bool_decide_eq_false_2 by naive_solver|apply andb_false_r]. }
  rewrite !wrap_small by lia. eexists. split; [done|]. zcases; lia.
Qed.

(** The walk from a link back to the start of the chain. *)
Definition walk (certs : certificates) (links : list loc) : option (rc * certificates) :=
  match links with
  | [] => Some (RC_OK, certs)
  | l :: back =>
      p ← validate_at malloc stack roots certs l None time root;
      match p with (RC_OK, certs) => validate_back malloc stack roots certs back l time root | _ => Some p end
  end.

Lemma validate_back_snoc links l : forall certs iss,
  validate_back malloc stack roots certs (links ++ [l]) iss time root
  = (p ← validate_back malloc stack roots certs links iss time root;
     match p with (RC_OK, certs) => validate_at malloc stack roots certs l (Some (default iss (last links))) time root | _ => Some p end).
Proof.
  induction links as [|l' links IH]; intros certs iss; cbn [app validate_back mbind option_bind last default].
  - destruct (validate_at _ _ _ _ _ _ _ _) as [[[|e] c]|]; done.
  - destruct (validate_at _ _ _ _ l' _ _ _) as [[[|e] c]|]; cbn [mbind option_bind]; [|done..].
    rewrite IH, last_cons. by destruct (last links).
Qed.

Lemma walk_accepts path : cert_path malloc stack this_call path -> forall links certs n,
  Forall2 (fun l cert => certs !! l = Some cert /\ fresh_cert cert) links path -> NoDup links -> 0 <= n ->
  (forall k cert, path !! k = Some cert -> n + Z.of_nat k <= ext_path_len (extensions cert) + 1) ->
  exists certs' l p cert, walk certs (reverse links) = Some (RC_OK, certs') /\ head links = Some l /\ head path = Some cert /\
    certs' !! l = Some (set_trust true p cert) /\ n <= p < 2 ^ 32 /\
    (forall l', l' ∉ links -> certs' !! l' = certs !! l').
Proof.
  induction 1 as [cert t r [-> ->] Ht Hr|cert iss path t r [-> ->] Ht Hi Ho Hpath IH]; intros links certs n Hl Hd Hn Hlen.
  - apply Forall2_cons_inv_r in Hl as (l & links' & [El Hf] & ->%Forall2_nil_inv_r & ->). cbn [walk reverse rev_append].
    change (reverse [l]) with [l]. cbn [walk]. unfold validate_at. rewrite El. cbn [mbind option_bind]. rewrite validate_root by done.
    cbn [mbind option_bind fst snd validate_back]. eexists _, l, (ext_path_len (extensions cert) + 1), cert. splits; try done; [apply lookup_insert_eq|..].
    + pose proof (Hlen 0%nat cert eq_refl). destruct Hf as (_ & _ & Hp & _). unfold path_len_range in Hp. lia.
    + pose proof (Hlen 0%nat cert eq_refl). destruct Hf as (_ & _ & Hp & _). unfold path_len_range in Hp. lia.
    + intros l' Hl'. apply lookup_insert_ne. set_solver.
  - apply Forall2_cons_inv_r in Hl as (l & links' & [El Hf] & Hl & ->). apply NoDup_cons in Hd as [Hnl Hd].
    destruct (IH links' certs (n + 1) Hl Hd ltac:(lia)) as (certs1 & li & p & i & Ew & Eh & Ei & Eli & Hp & Hrest).
    { intros k c Hk. pose proof (Hlen (S k) c Hk). lia. }
    injection Ei as <-. pose proof (Hlen 0%nat cert eq_refl).
    assert (fresh_cert iss) as Hfi by (apply Forall2_cons_inv_r in Hl as (? & ? & [_ Hfi] & _); done).
    destruct (validate_issued cert (set_trust true p iss) n) as (q & Ev & Hq); try done; [by destruct Hfi as (_ & ? & _)|lia|].
    exists (<[l := set_trust true q cert]> certs1), l, q, cert. splits; try done; [|apply lookup_insert_eq|lia|lia|].
    + rewrite reverse_cons. destruct (reverse links') as [|lk back] eqn:Erev.
      { apply (f_equal reverse) in Erev. rewrite reverse_involutive in Erev. by rewrite Erev in Eh. }
      cbn [walk app] in Ew |- *. destruct (validate_at _ _ _ certs lk None time root) as [[[|e] c]|] eqn:Ek; [|done..].
      cbn [mbind option_bind] in Ew |- *. rewrite validate_back_snoc, Ew. cbn [mbind option_bind].
      assert (default lk (last back) = li) as ->.
      { rewrite <- (reverse_involutive links'), Erev, head_reverse, last_cons in Eh. destruct (last back); cbn in *; congruence. }
      unfold validate_at. rewrite (Hrest l Hnl), El. cbn [mbind option_bind]. rewrite Eli. cbn [mbind option_bind]. by rewrite Ev.
    + intros l' Hl'. rewrite lookup_insert_ne by set_solver. apply Hrest. set_solver.
Qed.

(** Certificates before the root are passed over. *)
Lemma links_passed pre l post certs seen :
  Forall (fun l => exists cert, certs !! l = Some cert /\ valid cert = false /\ in_time cert time /\
    exists e, x509_check_root stack cert (default roots root) = Some (RC_ERR e)) pre ->
  (exists certs', validate_at malloc stack roots certs l None time root = Some (RC_OK, certs')) ->
  validate_links malloc stack roots certs seen (pre ++ l :: post) time root = walk certs (l :: reverse pre ++ seen).
Proof.
  intros Hpre (certs' & E). revert seen. induction Hpre as [|l' pre (cert & El & Ev & Ht & e & Er) _ IH]; intros seen; cbn [app validate_links].
  - rewrite E. cbn [mbind option_bind walk]. by rewrite E.
  - unfold validate_at at 1. rewrite El. cbn [mbind option_bind]. unfold x509_validate.
    rewrite Ev, check_time_spec, bool_decide_eq_true_2, Er by done. cbn [mbind option_bind fst snd].
    rewrite insert_id, IH by done. by rewrite reverse_cons, <- app_assoc.
Qed.
End Accepted.

Lemma path_in_time malloc stack calls path : cert_path malloc stack calls path ->
  Forall (fun cert => exists time root, calls time root /\ in_time cert time) path.
Proof. induction 1; (apply Forall_cons_2; [by eauto|]); [apply Forall_nil_2|done]. Qed.

Lemma path_last malloc stack calls path : cert_path malloc stack calls path ->
  exists pre cert time root, path = pre ++ [cert] /\ calls time root /\ in_time cert time /\ x509_check_root stack cert root = Some RC_OK.
Proof.
  induction 1 as [cert t r|cert iss path t r ? ? ? ? ? (pre & c & t' & r' & -> & ?)]; [by exists [], cert, t, r|].
  by exists (cert :: pre), c, t', r'.
Qed.

Lemma chain_walks malloc stack roots certs links post path time root :
  time_range time -> cert_path malloc stack (this_call roots time root) path ->
  Forall2 (fun l cert => certs !! l = Some cert /\ fresh_cert stack roots root cert) links path ->
  (forall k cert, path !! k = Some cert -> x509_check_root stack cert (default roots root) = Some RC_OK -> S k = length path) ->
  x509_validate_chain malloc stack roots certs (links ++ post) time root = walk malloc stack roots time root certs (reverse links).
Proof.
  intros Ht Hpath Hl Hroot.
  destruct (path_last _ _ _ _ Hpath) as (pre & last & t & r & -> & [-> ->] & Hlt & Hlr).
  apply Forall2_app_inv_r in Hl as (lpre & llast & Hpre & Hlast & ->).
  apply Forall2_cons_inv_r in Hlast as (ll & lnil & [Ell Hfl] & ->%Forall2_nil_inv_r & ->).
  unfold x509_validate_chain. rewrite <- app_assoc. cbn [app].
  enough (validate_links malloc stack roots certs [] (lpre ++ ll :: post) time root = walk malloc stack roots time root certs (reverse (lpre ++ [ll])))
    as <- by (by destruct lpre).
  rewrite (links_passed malloc stack roots time root Ht).
  - by rewrite reverse_app, app_nil_r.
  - apply Forall_forall. intros l' [k Hk]%list_elem_of_lookup_1.
    destruct (Forall2_lookup_l _ _ _ _ _ Hpre Hk) as (c & Hc & Ec & Hv & _ & _ & r & Er). exists c. splits; [done|done|..].
    + pose proof (path_in_time _ _ _ _ Hpath) as Hin. apply Forall_app in Hin as [Hin _].
      eapply Forall_lookup_1 in Hin; [|done]. by destruct Hin as (? & ? & [-> ->] & ?).
    + destruct r as [|e]; [|by exists e]. apply lookup_lt_Some in Hc as Hlt'.
      pose proof (Hroot k c (lookup_app_l_Some _ _ _ _ Hc) Er) as C. rewrite length_app in C. cbn in C. lia.
  - unfold validate_at. rewrite Ell. cbn [mbind option_bind]. rewrite validate_root by done. by eexists.
Qed.

Lemma chain_sound malloc stack roots calls certs chain time root r certs' :
  certs_ok malloc stack calls certs -> calls time (default roots root) -> time_range time ->
  x509_validate_chain malloc stack roots certs chain time root = Some (r, certs') ->
  certs_ok malloc stack calls certs' /\ identity <$> certs' = identity <$> certs /\
  (r = RC_OK -> exists l, head chain = Some l /\ made_valid certs' l).
Proof.
  intros Hok Hcalls Ht E. unfold x509_validate_chain in E. destruct chain as [|l0 chain]; [by injection E as <- <-|].
  exact (validate_links_sound _ _ _ _ _ _ Hcalls Ht _ _ _ _ _ Hok E).
Qed.

(** What the mark of validity stands for. *)
Lemma valid_path malloc stack calls certs l : certs_ok malloc stack calls certs -> made_valid certs l ->
  exists cert path, certs !! l = Some cert /\ cert_path malloc stack calls (identity cert :: path) /\ path_lengths (identity cert :: path).
Proof.
  intros Hok (cert & Ec & Hv). destruct (proj2 (Hok l cert Ec) Hv) as (path & Hpath & [Hr Hrem]).
  exists cert, path. splits; [done|done|]. intros k c Hk. pose proof (Hrem k c Hk). lia.
Qed.

(** ** Signatures. *)

Definition hash_of (d : digest_ref) : option (list Z -> list Z) :=
  match d with
  | md5_ref => Some (md_hash Md5.md5)
  | sha1_ref => Some (md_hash Sha1.sha1)
  | sha256_ref => Some (md_hash Sha256.sha256)
  | null_ref => None
  end.

(** Whatever is on the stack, the buffer of a context has its size. *)
Definition stack_ok (stack : forall d : digest_ref, dg_ctx (digest_of d)) : Prop :=
  md_ctx_ok (stack md5_ref) /\ md_ctx_ok (stack sha1_ref) /\ md_ctx_ok (stack sha256_ref).

Lemma digest_once_hash stack d hash data : stack_ok stack -> hash_of d = Some hash -> zlen data < MD_LIMIT ->
  digest_once stack d data = Some (hash data) /\ bytes_ok (hash data) /\ zlen (hash data) = digestsize (digest_of d).
Proof.
  assert (forall (a : digest_algorithm) (ok : dg_ctx a -> Prop) (h : list Z -> list Z) `{!Digests a ok MD_LIMIT h} c, ok c -> zlen data < MD_LIMIT ->
    (p ← digest_final a (digest_update a (digest_init a c) data); Some p.2) = Some (h data) /\ bytes_ok (h data) /\ zlen (h data) = digestsize a) as Hd.
  { intros a ok h Hdig c Hc Hl. destruct (digest_chunks c [data] Hc) as (c' & E & _); [cbn [concat]; by rewrite app_nil_r|].
    cbn [fold_left concat] in E. rewrite app_nil_r in E. rewrite E. splits; [done|apply hash_bytes|apply hash_length]. }
  intros (H1 & H2 & H3) E L. unfold digest_once. destruct d; cbn [hash_of] in E; simplify_eq; cbn [digest_of].
  - exact (Hd _ _ _ md5_digests _ H1 L).
  - exact (Hd _ _ _ sha1_digests _ H2 L).
  - exact (Hd _ _ _ sha256_digests _ H3 L).
Qed.

(** The signature of a certificate by an RSA key in its DER encoding
    with room for the digest: a signature of the length of the modulus is
    accepted if and only if its power modulo the key is the digest of the
    signed part, padded as PKCS #1 says, and is otherwise refused as
    incorrect. *)
Lemma check_signature_exact malloc stack cert key a ka digest hash prefix algorithm n e signature :
  stack_ok stack -> sig_algorithm cert = Some a -> alg_digest a = Some digest -> alg_pubkey a = Some rsa_ref ->
  pk_algorithm key = Some ka -> alg_pubkey ka = Some rsa_ref -> hash_of digest = Some hash -> rsa_find_prefix digest = Some prefix ->
  zlen (contents (tbs cert)) < MD_LIMIT -> contents (pk_raw key) = der_public_key algorithm n e -> minimal n -> minimal e ->
  zlen (der_public_key algorithm n e) < 2 ^ 30 -> malloc_gives malloc (zlen n) (zlen e) ->
  zlen prefix + digestsize (digest_of digest) + 11 <= zlen n ->
  take (Z.to_nat (bits_len (sig_value cert))) (bits_data (sig_value cert)) = signature -> bytes_ok signature -> zlen signature = zlen n ->
  x509_check_signature malloc stack cert key
  = Some (if bool_decide (be_val signature ^ be_val e mod be_val n = be_val (encoded_digest (zlen n) prefix (hash (contents (tbs cert)))))
          then RC_OK else RC_ERR EACCES_VERIFY).
Proof.
  intros Hst Ea Ed Epk Eka Ekp Eh Epre Ltbs Ekey Hn He Lkey Hm Lv Esig Hs Ls. unfold x509_check_signature.
  rewrite Ea. cbn [mbind option_bind]. rewrite Ed, Epk. cbn [mbind option_bind].
  destruct (digest_once_hash stack digest hash (contents (tbs cert)) Hst Eh Ltbs) as (-> & Hb & Lh). cbn [mbind option_bind].
  rewrite Eka. cbn [mbind option_bind]. rewrite bool_decide_eq_true_2 by done. cbn [negb].
  destruct (rsa_init_public malloc algorithm n e Hn He Lkey Hm) as (public & Ei & Hp & Lp & _). rewrite Ekey, Ei. cbn [mbind option_bind].
  pose proof (minimal_value n Hn). rewrite Esig.
  destruct (rsa_verify_spec public (be_val n) (be_val e) digest prefix (hash (contents (tbs cert))) signature) as (public' & _ & Ev);
    [done|rewrite Lp; lia|done|lia|done|lia|]. rewrite Ev, Lp. done.
Qed.

(** ** Theorems. *)

(** C7: In a store where every valid certificate has a path to a trusted
    root, a chain that validates leaves the store so, changes nothing but
    the marks of validation, and its first certificate has such a path:
    each certificate was in time, the last is a root by its fingerprint,
    each other one is signed by the next, which is a CA with the right to
    sign, needs no further OCSP check, and no path length constraint of
    RFC 5280 is exceeded. *)
Theorem x509_chain_trusted malloc stack roots calls certs chain time root certs' :
  certs_ok malloc stack calls certs -> calls time (default roots root) -> time_range time ->
  x509_validate_chain malloc stack roots certs chain time root = Some (RC_OK, certs') ->
  certs_ok malloc stack calls certs' /\ identity <$> certs' = identity <$> certs /\
  exists l cert path, head chain = Some l /\ certs' !! l = Some cert /\
    cert_path malloc stack calls (identity cert :: path) /\ path_lengths (identity cert :: path).
Proof.
  intros Hok Hcalls Ht E. destruct (chain_sound _ _ _ _ _ _ _ _ _ _ Hok Hcalls Ht E) as (Hok' & Eid & Hv). splits; [done|done|].
  destruct (Hv eq_refl) as (l & Hl & Hm). destruct (valid_path _ _ _ _ _ Hok' Hm) as (cert & path & ?). by exists l, cert, path.
Qed.


(** ** A chain of two certificates.  The key is that of the examples of
    [Rsa]; the signature is over the bytes one, two, three. *)

Definition example_stack (d : digest_ref) : dg_ctx (digest_of d) :=
  match d return dg_ctx (digest_of d) with
  | md5_ref => stale_context
  | sha1_ref => stale_context
  | sha256_ref => stale_context
  | null_ref => tt
  end.

Definition example_name (b : Z) : asn1_cursor := Cursor [48; 1; b] 3.
Definition example_key : list Z := der_public_key ASN1_OID_RSAENCRYPTION key_n key_e.

Definition example_cert (data : list Z) (from by_ ca : Z) (signature : list Z) : x509_certificate :=
  Certificate false 0 (Cursor data (zlen data)) 2 (Cursor [2; 1; 1] 3) (Cursor [1; 2; 3] 3) (Some md5_with_rsa_encryption_algorithm)
    (example_name by_) 0 1000000
    (Subject (example_name from) None (PublicKey (Cursor example_key (zlen example_key)) (Some rsa_encryption_algorithm) (BitString [] 0 0)))
    (Some md5_with_rsa_encryption_algorithm) (BitString signature (zlen signature) 0) (Extensions ca 0 true 0x84 1 None false).

Definition example_signature : list Z :=
  be_bytes 47 87476338180575439621894033403260300179511916784421618735559300852330063378977377266171135138177265188763045923616.
Definition example_root_cert : x509_certificate := example_cert [7] 65 65 255 [].
Definition example_leaf : x509_certificate := example_cert [8] 66 65 0 example_signature.
Definition example_roots : x509_root :=
  Root sha256_ref 1 (be_bytes 32 91461772442478604154082755547318472082410323943823420797096392355159818037369).
Definition example_store : certificates := {[0%nat := example_leaf; 1%nat := example_root_cert]}.

Lemma example_power : be_val example_signature ^ be_val key_e mod be_val key_n
  = be_val (encoded_digest (zlen key_n) (RSA_DIGESTINFO_PREFIX 16 ASN1_OID_MD5) (md_hash Md5.md5 [1; 2; 3])).
Proof.
  rewrite <- Zpow_facts.Zpow_mod_correct; [|intros E; apply (f_equal (Z.ltb 0)) in E; revert E; vm_compute; discriminate].
  vm_compute. reflexivity.
Qed.

Lemma example_lengths : zlen (RSA_DIGESTINFO_PREFIX 16 ASN1_OID_MD5) + 16 + 11 <= zlen key_n /\ bytes_ok example_signature /\
  zlen example_signature = zlen key_n.
Proof. split; [by_decide|]. split; [apply be_bytes_ok|]. vm_compute. reflexivity. Qed.

Lemma example_check : x509_check_signature key_malloc example_stack example_leaf (public_key (subject example_root_cert)) = Some RC_OK.
Proof.
  rewrite (check_signature_exact key_malloc example_stack example_leaf (public_key (subject example_root_cert))
    md5_with_rsa_encryption_algorithm rsa_encryption_algorithm md5_ref (md_hash Md5.md5) (RSA_DIGESTINFO_PREFIX 16 ASN1_OID_MD5)
    ASN1_OID_RSAENCRYPTION key_n key_e example_signature).
  - change (contents (tbs example_leaf)) with [1; 2; 3]. rewrite example_power, bool_decide_eq_true_2; reflexivity.
  - unfold stack_ok; splits; reflexivity.
  - reflexivity.
  - reflexivity.
  - reflexivity.
  - reflexivity.
  - reflexivity.
  - reflexivity.
  - reflexivity.
  - reflexivity.
  - cbn [public_key subject example_root_cert example_cert pk_raw]. rewrite <- (app_nil_r example_key) at 1. apply contents_covering.
  - exact (proj1 key_minimal).
  - exact (proj1 (proj2 key_minimal)).
  - exact (proj1 (proj2 key_lengths)).
  - apply key_malloc_gives.
  - exact (proj1 example_lengths).
  - cbn [example_leaf example_cert sig_value bits_len bits_data]. rewrite Nat2Z.id. apply firstn_all.
  - exact (proj1 (proj2 example_lengths)).
  - exact (proj2 (proj2 example_lengths)).
Qed.

Lemma example_root_check : x509_check_root example_stack example_root_cert example_roots = Some RC_OK.
Proof. vm_compute. reflexivity. Qed.

Definition example_time : Z := 500.
Definition example_path : list x509_certificate := [example_leaf; example_root_cert].

Lemma example_leaf_check : x509_check_root example_stack example_leaf example_roots = Some (RC_ERR ENOENT).
Proof. vm_compute. reflexivity. Qed.

Lemma example_cert_path : cert_path key_malloc example_stack (this_call example_roots example_time None) example_path.
Proof.
  assert (forall c, not_before c = 0 -> not_after c = 1000000 -> in_time c example_time) as Ht
    by (intros c E1 E2; unfold in_time; rewrite E1, E2; vm_compute; split; discriminate).
  apply (path_issued _ _ _ _ _ _ example_time example_roots); [done|by apply Ht| |by left|].
  - unfold issued_by. splits; [done|done|done|exact example_check].
  - apply (path_root _ _ _ _ example_time example_roots); [done|by apply Ht|exact example_root_check].
Qed.

Lemma example_fresh : Forall2 (fun l cert => example_store !! l = Some cert /\ fresh_cert example_stack example_roots None cert) [0%nat; 1%nat] example_path.
Proof.
  assert (forall c r, valid c = false -> ext_path_len (extensions c) = 0 -> names_ok c -> x509_check_root example_stack c example_roots = Some r ->
    fresh_cert example_stack example_roots None c) as Hf.
  { intros c r Hv Hp Hn Hr. unfold fresh_cert, path_len_range. rewrite Hp. split; [done|]. split; [done|]. split; [lia|by exists r]. }
  apply Forall2_cons_2; [|apply Forall2_cons_2; [|apply Forall2_nil_2]]; (split; [reflexivity|]).
  - eapply Hf; [done|done|split; split; cbn; lia|exact example_leaf_check].
  - eapply Hf; [done|done|split; split; cbn; lia|exact example_root_check].
Qed.

Lemma example_only_root k cert : example_path !! k = Some cert ->
  x509_check_root example_stack cert example_roots = Some RC_OK -> S k = length example_path.
Proof.
  destruct k as [|[|k]]; [|done|done]. intros [= <-] E. pose proof example_leaf_check as C. rewrite E in C. discriminate C.
Qed.

Lemma example_path_lengths : path_lengths example_path.
Proof. intros [|[|k]] c; cbn; [intros [= <-]; cbn; lia..|done]. Qed.

Lemma example_time_ok : time_range example_time.
Proof. split; [discriminate|reflexivity]. Qed.

Lemma example_nodup : NoDup [0%nat; 1%nat].
Proof. by_decide. Qed.

Lemma example_store_ok : certs_ok key_malloc example_stack (this_call example_roots example_time None) example_store.
Proof. apply map_Forall_insert_2; [|apply map_Forall_insert_2; [|apply map_Forall_empty]]; (split; [|done]); split; cbn; lia. Qed.

Lemma example_validates : exists certs',
  x509_validate_chain key_malloc example_stack example_roots example_store [0%nat; 1%nat] example_time None = Some (RC_OK, certs').
Proof.
  pose proof (chain_walks key_malloc example_stack example_roots example_store [0%nat; 1%nat] [] example_path example_time None
    example_time_ok example_cert_path example_fresh example_only_root) as E.
  pose proof (walk_accepts key_malloc example_stack example_roots example_time None example_time_ok example_path example_cert_path
    [0%nat; 1%nat] example_store 0 example_fresh example_nodup (Z.le_refl 0)) as W.
  cbn [app] in E. rewrite E. clear E. revert W.
  generalize (walk key_malloc example_stack example_roots example_time None example_store (reverse [0%nat; 1%nat])). intros o W.
  destruct W as (certs' & _ & _ & _ & Ew & _); [|by exists certs'].
  intros k c Hk. pose proof (example_path_lengths k c Hk). lia.
Qed.


Lemma x509_chain_trusted_witness : exists certs',
  x509_validate_chain key_malloc example_stack example_roots example_store [0%nat; 1%nat] example_time None = Some (RC_OK, certs') /\
  certs_ok key_malloc example_stack (this_call example_roots example_time None) certs' /\ identity <$> certs' = identity <$> example_store /\
  exists l cert path, head [0%nat; 1%nat] = Some l /\ certs' !! l = Some cert /\
    cert_path key_malloc example_stack (this_call example_roots example_time None) (identity cert :: path) /\ path_lengths (identity cert :: path).
Proof.
  destruct example_validates as (certs' & Ew). exists certs'. split; [exact Ew|].
  apply (x509_chain_trusted key_malloc example_stack example_roots (this_call example_roots example_time None) example_store [0%nat; 1%nat] example_time None).
  - exact example_store_ok.
  - exact (conj eq_refl eq_refl).
  - exact example_time_ok.
  - exact Ew.
Defined.
