(* ===== verification/X509Cache.v ===== *)
(** * X.509 certificates: the cache and references (crypto/x509.c,
      crypto/rootcert.c).

    The cache, chains and callers hold references to the same certificate.
    The world is the store of [X509Chain] with the reference counts and
    the list of the cache, most recently used first.  A chain is the list
    of the addresses its links hold.  Access to a certificate that was
    freed is a fault ([None]).

    An allocation may make the heap call [x509_discard] any number of
    times before it returns an address that is not in use, or NULL; that
    is what [Allocates] asks of an allocation function.  The discards of
    the smaller allocations while a certificate is parsed are counted with
    the first one, since parsing does not touch the cache.  What the heap
    discards during a validation is nothing that is held.

    The theorems: in every world that calls of these functions reach,
    reference counts are right, no certificate in use is freed, the cache
    holds no certificate twice, and a valid certificate has a path to a
    root; parsing the same data again gives the same certificate; a chain
    gives back the references it took; following the names of the issuers
    ends when they do, and otherwise only when memory does. *)

From stdpp Require Import gmap.
From S2P Require Import Prelude Asn1 Digest Rsa X509 X509Der X509Chain.

(** ** Reference counts. *)

Record x509_world := World { w_certs : certificates; w_refs : gmap loc Z; w_cache : list loc }.

Definition x509_get (w : x509_world) (l : loc) : option x509_world :=
  count ← w_refs w !! l;
  Some (World (w_certs w) (<[l := count + 1]> (w_refs w)) (w_cache w)).

(** [ref_put]; the last reference frees the certificate. *)
Definition x509_put (w : x509_world) (l : loc) : option x509_world :=
  count ← w_refs w !! l;
  if (0 <=? count - 1) || (count - 1 <? -1) then Some (World (w_certs w) (<[l := count - 1]> (w_refs w)) (w_cache w))
  else Some (World (delete l (w_certs w)) (delete l (w_refs w)) (w_cache w)).

Definition list_del (l : loc) (cache : list loc) : list loc := filter (fun x => x <> l) cache.

(** The scan from the least recently used certificate. *)
Fixpoint discard_scan (w : x509_world) (reversed : list loc) : option (Z * x509_world) :=
  match reversed with
  | [] => Some (0, w)
  | l :: reversed' =>
      count ← w_refs w !! l;
      if count =? 0 then
        w ← x509_put (World (w_certs w) (w_refs w) (list_del l (w_cache w))) l;
        Some (1, w)
      else discard_scan w reversed'
  end.

Definition x509_discard (w : x509_world) : option (Z * x509_world) := discard_scan w (reverse (w_cache w)).

(** ** Certificates and chains. *)

(** The first certificate of the cache with the given data. *)
Fixpoint cache_find (w : x509_world) (cursor : asn1_cursor) (cache : list loc) : option (option loc) :=
  match cache with
  | [] => Some None
  | l :: cache' =>
      cert ← w_certs w !! l;
      if asn1_compare_eq cursor (raw cert) then Some (Some l) else cache_find w cursor cache'
  end.

Section Functions.
(** The size asked for is that of the structure and of so many bytes. *)
Variable allocate : x509_world -> Z -> x509_world * option loc.
Variable zalloc_ok : Z -> bool.

(** The function x509_certificate().  A certificate that cannot be parsed
    is freed again. *)
Definition x509_certificate_create (w : x509_world) (data : asn1_cursor) : option (x509_world * result loc) :=
  p ← asn1_shrink_any data;
  let cursor := p.2 in
  hit ← cache_find w cursor (w_cache w);
  match hit with
  | Some l =>
      w ← x509_get (World (w_certs w) (w_refs w) (l :: list_del l (w_cache w))) l;
      Some (w, inl l)
  | None =>
      let '(w, address) := allocate w (cur_len cursor) in
      match address with
      | None => Some (w, inr ENOMEM)
      | Some l =>
          r ← x509_parse zalloc_ok null_certificate (Cursor (contents cursor) (cur_len cursor));
          match r with
          | (RC_ERR e, cert) =>
              w ← x509_put (World (<[l := cert]> (w_certs w)) (<[l := 0]> (w_refs w)) (w_cache w)) l;
              Some (w, inr e)
          | (RC_OK, cert) =>
              w ← x509_get (World (<[l := cert]> (w_certs w)) (<[l := 0]> (w_refs w)) (w_cache w)) l;
              Some (World (w_certs w) (w_refs w) (l :: w_cache w), inl l)
          end
      end
  end.

Definition x509_append (w : x509_world) (chain : list loc) (cert : loc) : option (x509_world * rc * list loc) :=
  let '(w, link) := allocate w 0 in
  match link with
  | None => Some (w, RC_ERR ENOMEM, chain)
  | Some _ => w ← x509_get w cert; Some (w, RC_OK, chain ++ [cert])
  end.

Definition x509_append_raw (w : x509_world) (chain : list loc) (data : asn1_cursor) : option (x509_world * rc * list loc) :=
  p ← x509_certificate_create w data;
  match p with
  | (w, inr e) => Some (w, RC_ERR e, chain)
  | (w, inl cert) =>
      q ← x509_append w chain cert;
      let '(w, rc, chain) := q in
      w ← x509_put w cert;
      Some (w, rc, chain)
  end.

Fixpoint x509_free_chain (w : x509_world) (chain : list loc) : option x509_world :=
  match chain with
  | [] => Some w
  | l :: chain' => w ← x509_put w l; x509_free_chain w chain'
  end.

Fixpoint x509_find_subject (w : x509_world) (certs : list loc) (name : asn1_cursor) : option (option loc) :=
  match certs with
  | [] => Some None
  | l :: certs' =>
      cert ← w_certs w !! l;
      if asn1_compare_eq name (subject_raw (subject cert)) then Some (Some l) else x509_find_subject w certs' name
  end.

Fixpoint auto_append_loop (fuel : nat) (w : x509_world) (chain certs : list loc) (previous : loc) : option (x509_world * rc * list loc) :=
  match fuel with
  | O => None
  | S fuel' =>
      cert ← w_certs w !! previous;
      found ← x509_find_subject w certs (issuer cert);
      match found with
      | None => Some (w, RC_OK, chain)
      | Some next =>
          if (next =? previous)%nat then Some (w, RC_OK, chain)
          else
            q ← x509_append w chain next;
            match q with
            | (w, RC_OK, chain) => auto_append_loop fuel' w chain certs next
            | _ => Some q
            end
      end
  end.

Definition x509_auto_append (fuel : nat) (w : x509_world) (chain certs : list loc) : option (x509_world * rc * list loc) :=
  match last chain with
  | None => Some (w, RC_ERR EINVAL, chain)
  | Some cert => auto_append_loop fuel w chain certs cert
  end.
End Functions.

(** ** Root certificates. *)

Definition FINGERPRINT_LEN : Z := 32.

(** [fetched] is the result of [fetch_setting_copy] for the "trust"
    setting: a length or an error, and the copy if there is one. *)
Definition rootcert_init (allow_trust_override : bool) (root_certificates : x509_root) (fetched : Z * option (list Z)) : x509_root :=
  if allow_trust_override then
    let '(len, external) := fetched in
    if len <? 0 then Root (root_digest root_certificates) 0 (root_fingerprints root_certificates)
    else
      match external with
      | Some bytes => Root (root_digest root_certificates) (len ÷ FINGERPRINT_LEN) bytes
      | None => root_certificates
      end
  else root_certificates.

(** ** Parsed certificates are well-formed. *)

(** Not validated, with a path length in range and the data it came from. *)
Definition unvalidated (source : asn1_cursor) (cert : x509_certificate) : Prop := valid cert = false /\ path_len_range cert /\ raw cert = source.

Section Keepers.
Variable source : asn1_cursor.
Variable zalloc_ok : Z -> bool.

Definition keeps (m : parsed) : Prop := forall r cert, m = Some (r, cert) -> unvalidated source cert.
Definition keeper (parse : x509_certificate -> asn1_cursor -> parsed) : Prop := forall cert raw, unvalidated source cert -> keeps (parse cert raw).

Lemma keeps_some r cert : unvalidated source cert -> keeps (Some (r, cert)).
Proof. by intros H r' cert' [= _ <-]. Qed.

Lemma keeps_bind {A} (m : option A) (k : A -> parsed) : (forall x, m = Some x -> keeps (k x)) -> keeps (x ← m; k x).
Proof. intros H. destruct m; [by apply H|done]. Qed.

Lemma keeps_and_then m k : keeps m -> (forall cert, unvalidated source cert -> keeps (k cert)) -> keeps (and_then m k).
Proof. intros Hm Hk. unfold and_then. destruct m as [[[|e] cert]|]; [|exact Hm|done]. cbn. by eapply Hk, Hm. Qed.

Lemma keeps_field parse cert cursor k : keeper parse -> unvalidated source cert ->
  (forall cert cursor, unvalidated source cert -> keeps (k cert cursor)) -> keeps (field_then parse cert cursor k).
Proof. intros Hp Hc Hk. apply keeps_and_then; [by apply Hp|]. intros c' Hc'. apply keeps_bind. intros p _. by apply Hk. Qed.

Lemma keeps_each parse : keeper parse -> forall fuel cert cursor, unvalidated source cert -> keeps (each_object parse fuel cert cursor).
Proof.
  intros Hp. induction fuel as [|fuel IH]; intros cert cursor Hc; [done|]. cbn [each_object].
  destruct (_ =? _); [by apply keeps_some|]. apply keeps_and_then; [by apply Hp|]. intros c' Hc'. apply keeps_bind. intros n _. by apply IH.
Qed.

Ltac keep :=
  repeat first
    [ by apply keeps_some
    | apply keeps_bind; intros
    | match goal with |- keeps (match ?x with _ => _ end) => destruct x eqn:? end
    | progress cbn zeta ].

Lemma integer_range cursor v : asn1_integer cursor = Some (inl v) -> - 2 ^ 31 <= v < 2 ^ 31.
Proof.
  assert (forall len data value, - 2 ^ 31 <= value < 2 ^ 31 -> asn1_integer_loop len data value = Some (inl v) -> - 2 ^ 31 <= v < 2 ^ 31) as Hloop.
  { induction len as [|len IH]; intros data value Hv E; cbn [asn1_integer_loop] in E; [by injection E as <-|].
    destruct (negb _ && _); [done|]. destruct data as [|b data]; [done|]. apply IH in E; [done|]. by apply (signed_range 32). }
  unfold asn1_integer. destruct (asn1_enter _ _) as [[[|e] c]|]; cbn [mbind option_bind]; try done.
  destruct (_ <? _); [done|]. destruct (head _) as [b|]; cbn [mbind option_bind]; [|done].
  apply Hloop. pose proof (signed_range 8 b ltac:(lia)). change (2 ^ (8 - 1)) with 128 in *. lia.
Qed.

Lemma keeper_version : keeper x509_parse_version.
Proof. intros cert raw H. unfold x509_parse_version. keep. Qed.
Lemma keeper_serial : keeper x509_parse_serial.
Proof. intros cert raw H. unfold x509_parse_serial. keep. Qed.
Lemma keeper_issuer : keeper x509_parse_issuer.
Proof. intros cert raw H. unfold x509_parse_issuer. keep. Qed.
Lemma keeper_validity : keeper x509_parse_validity.
Proof. intros cert raw H. unfold x509_parse_validity. keep. Qed.
Lemma keeper_subject : keeper (x509_parse_subject zalloc_ok).
Proof. intros cert raw H. unfold x509_parse_subject. keep. Qed.
Lemma keeper_public_key : keeper x509_parse_public_key.
Proof. intros cert raw H. unfold x509_parse_public_key. keep. Qed.
Lemma keeper_algorithm : keeper parse_signature_algorithm.
Proof. intros cert raw H. unfold parse_signature_algorithm. keep. Qed.
Lemma keeper_key_usage : keeper x509_parse_key_usage.
Proof. intros cert raw H. unfold x509_parse_key_usage. keep. Qed.

Lemma keeper_basic_constraints : keeper x509_parse_basic_constraints.
Proof.
  intros cert raw (Hv & Hp & Hraw). unfold x509_parse_basic_constraints.
  assert (forall ca path_len, 0 <= path_len <= 2 ^ 32 - 2 -> unvalidated source (set_extensions (Extensions ca path_len
    (usage_present (extensions cert)) (usage_bits (extensions cert)) (ext_usage_bits (extensions cert)) (ocsp_uri (extensions cert))
    (ocsp_good (extensions cert))) cert)) as Hset by (intros ca path_len Hr; by splits).
  assert (0 <= X509_PATH_LEN_UNLIMITED <= 2 ^ 32 - 2) as Hu by (unfold X509_PATH_LEN_UNLIMITED; lia).
  keep; try (apply keeps_some, Hset; unfold path_len_range in *; done || lia).
  match goal with E : asn1_integer _ = Some (inl _) |- _ => apply integer_range in E end.
  apply keeps_some, Hset. zcases.
Qed.

Lemma keeper_extended_key_usage : keeper x509_parse_extended_key_usage.
Proof.
  intros cert raw H. unfold x509_parse_extended_key_usage. keep. apply keeps_each; [|done].
  intros c r Hc. unfold x509_parse_key_purpose. keep.
Qed.

Lemma keeper_authority_info_access : keeper (x509_parse_authority_info_access zalloc_ok).
Proof.
  intros cert raw H. unfold x509_parse_authority_info_access. keep. apply keeps_each; [|done].
  intros c r Hc. unfold x509_parse_access_description, x509_find_access_method. keep.
  match goal with E : _ = Some ?p |- keeps (?p _ _) => cbn in E; destruct (asn1_compare_eq _ _); cbn in E; [|done]; injection E as <- end.
  unfold x509_parse_ocsp. keep.
Qed.

Lemma keeper_extension : keeper (x509_parse_extension zalloc_ok).
Proof.
  intros cert raw H. unfold x509_parse_extension. keep.
  match goal with E : x509_find_extension _ _ = Some ?p |- keeps (?p _ _) => rename E into Ef; rename p into parse end.
  unfold x509_find_extension in Ef. apply fmap_Some in Ef as ([oid q] & Ef & ->). apply head_Some_elem_of in Ef.
  apply list_elem_of_filter in Ef as [_ Hin]. cbn [snd].
  assert (Forall (fun e => keeper e.2) (x509_extension_table zalloc_ok)) as Hall.
  { repeat apply Forall_cons_2; cbn [snd]; [exact keeper_basic_constraints|exact keeper_key_usage|exact keeper_extended_key_usage|
      exact keeper_authority_info_access|apply Forall_nil_2]. }
  rewrite Forall_forall in Hall. by apply (Hall _ Hin).
Qed.

Lemma keeper_extensions : keeper (x509_parse_extensions zalloc_ok).
Proof. intros cert raw H. unfold x509_parse_extensions. keep. apply keeps_each; [exact keeper_extension|done]. Qed.

Lemma keeper_tbscertificate : keeper (x509_parse_tbscertificate zalloc_ok).
Proof.
  intros cert raw H. unfold x509_parse_tbscertificate. apply keeps_bind. intros t _. cbn zeta.
  assert (unvalidated source (set_tbs t.2 cert)) as Ht by done. revert Ht. generalize (set_tbs t.2 cert). clear H cert. intros cert H.
  apply keeps_bind. intros p _. apply keeps_bind. intros type _.
  assert (forall cert cursor, unvalidated source cert -> keeps (
    field_then x509_parse_serial cert cursor (fun cert cursor =>
    field_then parse_signature_algorithm cert cursor (fun cert cursor =>
    field_then x509_parse_issuer cert cursor (fun cert cursor =>
    field_then x509_parse_validity cert cursor (fun cert cursor =>
    field_then (x509_parse_subject zalloc_ok) cert cursor (fun cert cursor =>
    field_then x509_parse_public_key cert cursor (fun cert cursor =>
    x509_parse_extensions zalloc_ok cert cursor)))))))) as Hrest.
  { intros c cur Hc.
    apply keeps_field; [exact keeper_serial|done|intros]. apply keeps_field; [exact keeper_algorithm|done|intros].
    apply keeps_field; [exact keeper_issuer|done|intros]. apply keeps_field; [exact keeper_validity|done|intros].
    apply keeps_field; [exact keeper_subject|done|intros]. apply keeps_field; [exact keeper_public_key|done|intros]. by apply keeper_extensions. }
  destruct (_ =? _); [|by apply Hrest]. by apply keeps_field; [exact keeper_version|..].
Qed.

Lemma parse_unvalidated r cert : x509_parse zalloc_ok null_certificate source = Some (r, cert) -> unvalidated source cert.
Proof.
  intros E. assert (keeps (x509_parse zalloc_ok null_certificate source)) as H; [|by eapply H].
  unfold x509_parse. cbn zeta. apply keeps_bind. intros p _.
  apply keeps_field; [exact keeper_tbscertificate|by splits|]. intros c cur Hc. keep.
Qed.
End Keepers.

(** ** The invariant. *)

(** Any number of calls of [x509_discard]. *)
Inductive discarded : x509_world -> x509_world -> Prop :=
| discarded_none w : discarded w w
| discarded_one w w' w'' r : x509_discard w = Some (r, w') -> discarded w' w'' -> discarded w w''.

Class Allocates (allocate : x509_world -> Z -> x509_world * option loc) : Prop := {
  alloc_discards w len : discarded w (allocate w len).1;
  alloc_fresh w len l : (allocate w len).2 = Some l -> w_refs (allocate w len).1 !! l = None;
}.

Definition in_cache (w : x509_world) (l : loc) : nat := if bool_decide (l ∈ w_cache w) then 1 else 0.

(** [held l] references to [l] are held by callers and chains. *)
Record world_ok (w : x509_world) (held : loc -> nat) : Prop := {
  wo_dom l : is_Some (w_certs w !! l) <-> is_Some (w_refs w !! l);
  wo_nodup : NoDup (w_cache w);
  wo_cached l : l ∈ w_cache w -> is_Some (w_refs w !! l);
  wo_held l : held l <> 0%nat -> is_Some (w_refs w !! l);
  wo_count l count : w_refs w !! l = Some count -> 0 <= count /\ count + 1 = Z.of_nat (in_cache w l + held l);
  wo_distinct l l' c c' : l ∈ w_cache w -> l' ∈ w_cache w -> w_certs w !! l = Some c -> w_certs w !! l' = Some c' ->
    asn1_compare_eq (raw c) (raw c') = true -> l = l';
}.

Definition one_more (held : loc -> nat) (l : loc) : loc -> nat := fun x => if decide (x = l) then S (held x) else held x.
Definition one_less (held : loc -> nat) (l : loc) : loc -> nat := fun x => if decide (x = l) then pred (held x) else held x.

Lemma one_more_eq held l : one_more held l l = S (held l).
Proof. unfold one_more. by rewrite decide_True. Qed.
Lemma one_more_ne held l x : x <> l -> one_more held l x = held x.
Proof. intros. unfold one_more. by rewrite decide_False. Qed.
Lemma one_less_eq held l : one_less held l l = pred (held l).
Proof. unfold one_less. by rewrite decide_True. Qed.
Lemma one_less_ne held l x : x <> l -> one_less held l x = held x.
Proof. intros. unfold one_less. by rewrite decide_False. Qed.

Lemma elem_of_list_del x l cache : x ∈ list_del l cache <-> x <> l /\ x ∈ cache.
Proof. unfold list_del. by rewrite list_elem_of_filter. Qed.

Lemma get_ok w held l : world_ok w held -> is_Some (w_refs w !! l) ->
  exists w', x509_get w l = Some w' /\ world_ok w' (one_more held l) /\ w_certs w' = w_certs w /\ w_cache w' = w_cache w.
Proof.
  intros [D N C H K X] [count E]. unfold x509_get. rewrite E. eexists. split; [done|]. split; [|done].
  split; cbn [w_certs w_refs w_cache]; try done.
  - intros x. rewrite D, !lookup_insert_is_Some'. split; [by right|]. intros [->|?]; [by rewrite E|done].
  - intros x Hx. apply lookup_insert_is_Some'. right. by apply C.
  - intros x Hx. destruct (decide (x = l)) as [->|Hn]; [by rewrite lookup_insert_eq|].
    rewrite lookup_insert_ne by done. rewrite one_more_ne in Hx by done. by apply H.
  - intros x c. unfold in_cache. cbn [w_cache]. destruct (decide (x = l)) as [->|Hn].
    + rewrite lookup_insert_eq, one_more_eq. intros [= <-]. destruct (K l count E) as [? Ec]. unfold in_cache in Ec. lia.
    + rewrite lookup_insert_ne, one_more_ne by done. apply K.
Qed.

(** Giving a reference back: the certificate is freed when nothing else
    holds it. *)
Lemma put_ok w held l : world_ok w held -> held l <> 0%nat ->
  exists w', x509_put w l = Some w' /\ world_ok w' (one_less held l) /\ w_cache w' = w_cache w /\
    (forall x, x <> l \/ (in_cache w x + one_less held l x)%nat <> 0%nat -> w_certs w' !! x = w_certs w !! x).
Proof.
  intros [D N C H K X] Hl. destruct (H l Hl) as [count E]. destruct (K l count E) as [Hc Ec]. unfold x509_put. rewrite E. cbn [mbind option_bind].
  destruct (Z.leb_spec 0 (count - 1)); cbn [orb].
  - eexists. splits; [done| |done|done]. split; cbn [w_certs w_refs w_cache]; try done.
    + intros x. rewrite D, !lookup_insert_is_Some'. split; [by right|]. intros [->|?]; [by rewrite E|done].
    + intros x Hx. apply lookup_insert_is_Some'. right. by apply C.
    + intros x Hx. apply lookup_insert_is_Some'. destruct (decide (x = l)) as [->|Hn]; [by left|]. rewrite one_less_ne in Hx by done. right. by apply H.
    + intros x c. unfold in_cache. cbn [w_cache]. destruct (decide (x = l)) as [->|Hn].
      * rewrite lookup_insert_eq, one_less_eq. intros [= <-]. unfold in_cache in Ec. lia.
      * rewrite lookup_insert_ne, one_less_ne by done. apply K.
  - assert (count = 0) as -> by lia. cbn. eexists. splits; [done| |done|].
    assert (l ∉ w_cache w) as Hnc.
    { intros Hin. unfold in_cache in Ec. rewrite bool_decide_eq_true_2 in Ec by done. lia. }
    + split; cbn [w_certs w_refs w_cache]; try done.
      * intros x. rewrite !lookup_delete_is_Some, D. done.
      * intros x Hx. apply lookup_delete_is_Some. split; [naive_solver|by apply C].
      * intros x Hx. apply lookup_delete_is_Some. destruct (decide (x = l)) as [->|Hn].
        -- rewrite one_less_eq in Hx. unfold in_cache in Ec. case_bool_decide; lia.
        -- rewrite one_less_ne in Hx by done. split; [done|by apply H].
      * intros x c [Hn Hx]%lookup_delete_Some. rewrite one_less_ne by done. by apply K.
      * intros x y c c' Hx Hy [_ Ex]%lookup_delete_Some [_ Ey]%lookup_delete_Some. eauto.
    + intros x Hx. cbn [w_certs]. apply lookup_delete_ne. intros <-. destruct Hx as [?|Hx]; [done|].
      rewrite one_less_eq in Hx. unfold in_cache in Ec, Hx. lia.
Qed.

Lemma world_ok_ext w held held' : (forall l, held l = held' l) -> world_ok w held -> world_ok w held'.
Proof.
  intros E [D N C H K X]. split; try done; intros l; rewrite <- E; [apply H|apply K].
Qed.

(** The reference of the cache becomes that of whoever removes the entry. *)
Lemma uncache_ok w held l : world_ok w held -> l ∈ w_cache w ->
  world_ok (World (w_certs w) (w_refs w) (list_del l (w_cache w))) (one_more held l).
Proof.
  intros [D N C H K X] Hl. split; cbn [w_certs w_refs w_cache]; try done.
  - by apply NoDup_filter.
  - intros x [_ Hx]%elem_of_list_del. by apply C.
  - intros x Hx. destruct (decide (x = l)) as [->|Hn]; [by apply C|]. rewrite one_more_ne in Hx by done. by apply H.
  - intros x c Hx. destruct (K x c Hx) as [? Ec]. split; [done|]. rewrite Ec. unfold in_cache. cbn [w_cache].
    destruct (decide (x = l)) as [->|Hn].
    + rewrite one_more_eq, bool_decide_eq_true_2, bool_decide_eq_false_2 by (done || rewrite elem_of_list_del; naive_solver). lia.
    + rewrite one_more_ne by done. erewrite (bool_decide_ext (x ∈ list_del l (w_cache w))); [done|]. rewrite elem_of_list_del. naive_solver.
  - intros x y c c' [_ Hx]%elem_of_list_del [_ Hy]%elem_of_list_del. by eapply X.
Qed.

(** What other calls see of the work of the heap. *)
Record shrunk (w w' : x509_world) (held : loc -> nat) : Prop := {
  sh_ok : world_ok w' held;
  sh_held l : held l <> 0%nat -> w_certs w' !! l = w_certs w !! l;
  sh_certs : w_certs w' ⊆ w_certs w;
  sh_cache : forall l, l ∈ w_cache w' -> l ∈ w_cache w;
}.

Lemma shrunk_refl w held : world_ok w held -> shrunk w w held.
Proof. by split. Qed.

Lemma discard_scan_ok w held reversed : world_ok w held -> (forall l, l ∈ reversed -> l ∈ w_cache w) ->
  exists r w', discard_scan w reversed = Some (r, w') /\ shrunk w w' held.
Proof.
  intros Hw. induction reversed as [|l reversed IH]; intros Hin; cbn [discard_scan]; [eexists _, _; split; [done|by apply shrunk_refl]|].
  destruct (wo_cached _ _ Hw l) as [count E]; [apply Hin; set_solver|]. rewrite E. cbn [mbind option_bind].
  destruct (Z.eqb_spec count 0) as [->|_]; [|apply IH; set_solver].
  assert (l ∈ w_cache w) as Hl by (apply Hin; set_solver). pose proof (uncache_ok w held l Hw Hl) as Hu.
  destruct (put_ok _ _ l Hu) as (w' & Ew & Hw' & Ec & Hsame); [by rewrite one_more_eq|]. rewrite Ew. cbn [mbind option_bind].
  destruct (wo_count _ _ Hw l 0 E) as [_ Ecount]. unfold in_cache in Ecount. rewrite bool_decide_eq_true_2 in Ecount by done.
  assert (forall x, one_less (one_more held l) l x = held x) as Eh.
  { intros x. destruct (decide (x = l)) as [->|Hn]; [by rewrite one_less_eq, one_more_eq|by rewrite one_less_ne, one_more_ne]. }
  eexists _, w'. split; [done|]. split.
  - by eapply world_ok_ext.
  - intros x Hx. apply Hsame. left. intros ->. lia.
  - unfold x509_put in Ew. cbn [w_refs w_certs w_cache] in Ew. rewrite E in Ew. cbn in Ew. injection Ew as <-. apply delete_subseteq.
  - rewrite Ec. cbn [w_cache]. intros x [_ Hx]%elem_of_list_del. done.
Qed.

Lemma discarded_ok w w' held : discarded w w' -> world_ok w held -> shrunk w w' held.
Proof.
  induction 1 as [w|w w1 w2 r E _ IH]; intros Hw; [by apply shrunk_refl|].
  destruct (discard_scan_ok w held (reverse (w_cache w)) Hw) as (r' & w1' & E' & [Hw1 Hh Hs Hc]); [intros l; apply elem_of_reverse|].
  unfold x509_discard in E. rewrite E' in E. injection E as -> ->. destruct (IH Hw1) as [Hw2 Hh2 Hs2 Hc2].
  split; [done|..].
  - intros l Hl. by rewrite Hh2, Hh.
  - by etrans.
  - auto.
Qed.

Lemma cache_find_ok w held cursor cache : world_ok w held -> (forall l, l ∈ cache -> l ∈ w_cache w) ->
  exists hit, cache_find w cursor cache = Some hit /\
  match hit with
  | Some l => l ∈ cache /\ exists cert, w_certs w !! l = Some cert /\ asn1_compare_eq cursor (raw cert) = true
  | None => forall l cert, l ∈ cache -> w_certs w !! l = Some cert -> asn1_compare_eq cursor (raw cert) = false
  end.
Proof.
  intros Hw. induction cache as [|l cache IH]; intros Hin; cbn [cache_find]; [exists None; split; [done|]; intros ? ? []%not_elem_of_nil|].
  destruct (proj2 (wo_dom _ _ Hw l)) as [cert E]; [apply (wo_cached _ _ Hw), Hin; set_solver|]. rewrite E. cbn [mbind option_bind].
  destruct (asn1_compare_eq cursor (raw cert)) eqn:Ec; [exists (Some l); split; [done|]; split; [set_solver|by exists cert]|].
  destruct IH as (hit & Ef & Hhit); [set_solver|]. exists hit. split; [done|]. destruct hit as [l'|].
  - destruct Hhit. split; [set_solver|done].
  - intros x c [->|Hx]%elem_of_cons Ex; [congruence|by eapply Hhit].
Qed.

Lemma to_front_ok w held l : world_ok w held -> l ∈ w_cache w -> world_ok (World (w_certs w) (w_refs w) (l :: list_del l (w_cache w))) held.
Proof.
  intros [D N C H K X] Hl. assert (forall x, x ∈ l :: list_del l (w_cache w) <-> x ∈ w_cache w) as E.
  { intros x. rewrite elem_of_cons, elem_of_list_del. destruct (decide (x = l)) as [->|]; naive_solver. }
  split; cbn [w_certs w_refs w_cache]; try done.
  - apply NoDup_cons. split; [rewrite elem_of_list_del; naive_solver|by apply NoDup_filter].
  - intros x Hx%E. by apply C.
  - intros x c Hx. unfold in_cache. cbn [w_cache]. erewrite (bool_decide_ext (x ∈ _ :: _)); [by apply K|apply E].
  - intros x y c c' Hx%E Hy%E. by apply X.
Qed.

(** A new certificate with the reference of the cache and the caller's. *)
Lemma add_ok w held l cert : world_ok w held -> w_refs w !! l = None ->
  (forall x c, x ∈ w_cache w -> w_certs w !! x = Some c -> asn1_compare_eq (raw cert) (raw c) = false) ->
  world_ok (World (<[l := cert]> (w_certs w)) (<[l := 1]> (w_refs w)) (l :: w_cache w)) (one_more held l).
Proof.
  intros [D N C H K X] Hl Hd.
  assert (l ∉ w_cache w) as Hnc by (intros Hin; destruct (C l Hin) as [? ?]; congruence).
  assert (held l = 0%nat) as Hh by (destruct (decide (held l = 0%nat)) as [|Hn]; [done|]; destruct (H l Hn) as [? ?]; congruence).
  split; cbn [w_certs w_refs w_cache].
  - intros x. rewrite !lookup_insert_is_Some', D. done.
  - by apply NoDup_cons.
  - intros x [->|Hx]%elem_of_cons; apply lookup_insert_is_Some'; [by left|right; by apply C].
  - intros x Hx. apply lookup_insert_is_Some'. destruct (decide (x = l)) as [->|Hn]; [by left|right]. rewrite one_more_ne in Hx by done. by apply H.
  - intros x c. unfold in_cache. cbn [w_cache]. destruct (decide (x = l)) as [->|Hn].
    + rewrite lookup_insert_eq, one_more_eq, Hh, bool_decide_eq_true_2 by set_solver. intros [= <-]. lia.
    + rewrite lookup_insert_ne, one_more_ne by done. intros Hx. destruct (K x c Hx) as [? Ec]. split; [done|]. rewrite Ec. unfold in_cache.
      erewrite (bool_decide_ext (x ∈ l :: _)); [done|]. rewrite elem_of_cons. naive_solver.
  - intros x y c c' [->|Hx]%elem_of_cons [->|Hy]%elem_of_cons; [done|..].
    + rewrite lookup_insert_eq, lookup_insert_ne by naive_solver. intros [= <-] Ey Ec. by rewrite (Hd y c' Hy Ey) in Ec.
    + rewrite lookup_insert_eq, lookup_insert_ne by naive_solver. intros Ex [= <-] Ec. rewrite compare_sym in Ec. by rewrite (Hd x c Hx Ex) in Ec.
    + rewrite !lookup_insert_ne by naive_solver. by apply X.
Qed.

Lemma compare_copy cursor c : asn1_compare_eq (Cursor (contents cursor) (cur_len cursor)) c = asn1_compare_eq cursor c.
Proof. unfold asn1_compare_eq, contents. cbn [cur_len cur_data]. by rewrite take_take, Nat.min_id. Qed.

(** What a call may do to certificates: those that are held stay as they
    are, others may go, new ones were not validated. *)
Record evolved (w w' : x509_world) (held : loc -> nat) : Prop := {
  ev_held l : held l <> 0%nat -> w_certs w' !! l = w_certs w !! l;
  ev_new l cert : w_certs w' !! l = Some cert -> w_certs w !! l = Some cert \/ (valid cert = false /\ path_len_range cert);
}.

Lemma shrunk_evolved w w' held : shrunk w w' held -> evolved w w' held.
Proof. intros [_ Hh Hs _]. split; [done|]. intros l cert E. left. by eapply lookup_weaken. Qed.

Lemma created_ok w1 w2 held l cert : world_ok w1 held -> w_refs w1 !! l = None ->
  (forall x c, x ∈ w_cache w1 -> w_certs w1 !! x = Some c -> asn1_compare_eq (raw cert) (raw c) = false) ->
  x509_get (World (<[l := cert]> (w_certs w1)) (<[l := 0]> (w_refs w1)) (w_cache w1)) l = Some w2 ->
  w_certs w2 = <[l := cert]> (w_certs w1) /\ world_ok (World (w_certs w2) (w_refs w2) (l :: w_cache w2)) (one_more held l).
Proof.
  intros Hw Hf Hd E. unfold x509_get in E. cbn [w_refs w_certs w_cache] in E. rewrite lookup_insert_eq in E. cbn in E. injection E as <-.
  cbn [w_refs w_certs w_cache]. rewrite insert_insert_eq. split; [done|by apply add_ok].
Qed.

Lemma freed_again w1 w2 l cert : w_refs w1 !! l = None -> w_certs w1 !! l = None ->
  x509_put (World (<[l := cert]> (w_certs w1)) (<[l := 0]> (w_refs w1)) (w_cache w1)) l = Some w2 -> w2 = w1.
Proof.
  intros Hr Hc E. unfold x509_put in E. cbn [w_refs w_certs w_cache] in E. rewrite lookup_insert_eq in E. cbn in E. injection E as <-.
  rewrite !delete_insert_id by done. by destruct w1.
Qed.

Lemma create_ok allocate zalloc_ok `{!Allocates allocate} w held data w' r : world_ok w held ->
  x509_certificate_create allocate zalloc_ok w data = Some (w', r) ->
  evolved w w' held /\
  match r with
  | inl l => world_ok w' (one_more held l) /\ exists cert, w_certs w' !! l = Some cert /\ l ∈ w_cache w' /\
      forall p, asn1_shrink_any data = Some p -> contents (raw cert) = contents p.2
  | inr _ => world_ok w' held
  end.
Proof.
  intros Hw E. unfold x509_certificate_create in E. destruct (asn1_shrink_any data) as [p|]; [|done]. cbn [mbind option_bind] in E.
  destruct (cache_find_ok w held p.2 (w_cache w) Hw) as (hit & Ef & Hhit); [done|]. rewrite Ef in E. cbn [mbind option_bind] in E.
  destruct hit as [l|].
  - destruct Hhit as (Hl & cert & Ec & Ecmp). pose proof (to_front_ok w held l Hw Hl) as Hw1.
    destruct (get_ok _ _ l Hw1) as (w2 & Eg & Hw2 & Ecerts & Ecache); [exact (wo_cached _ _ Hw l Hl)|]. rewrite Eg in E. cbn in E. injection E as <- <-.
    split; [split; rewrite Ecerts; cbn [w_certs]; auto|]. split; [done|]. exists cert. rewrite Ecerts, Ecache. cbn [w_certs w_cache].
    splits; [done|set_solver|]. intros q [= <-]. symmetry. by apply compare_true.
  - destruct (allocate w (cur_len p.2)) as [w1 address] eqn:Ea.
    pose proof (discarded_ok w w1 held) as Hs. pose proof (alloc_discards w (cur_len p.2)) as Hd. rewrite Ea in Hd. specialize (Hs Hd Hw).
    destruct address as [l|]; [|injection E as <- <-; split; [by apply shrunk_evolved|apply Hs]].
    pose proof (alloc_fresh w (cur_len p.2) l) as Hf. rewrite Ea in Hf. specialize (Hf eq_refl). cbn [fst] in Hf.
    assert (w_certs w1 !! l = None) as Hfc.
    { apply eq_None_not_Some. intros Hsome%(proj1 (wo_dom _ _ (sh_ok _ _ _ Hs) l)). rewrite Hf in Hsome. by destruct Hsome. }
    destruct (x509_parse zalloc_ok null_certificate _) as [[rr cert]|] eqn:Ep; [|done]. cbn [mbind option_bind] in E.
    destruct (parse_unvalidated _ _ _ _ Ep) as (Hv & Hr & Hraw). destruct rr as [|e].
    + destruct (x509_get _ l) as [w2|] eqn:Eg; [|done]. cbn [mbind option_bind] in E. injection E as <- <-.
      destruct (created_ok w1 w2 held l cert (sh_ok _ _ _ Hs) Hf) as [Ec Hw2]; [|done|].
      { intros x c Hx Ex. rewrite Hraw, compare_copy. eapply Hhit; [by apply (sh_cache _ _ _ Hs)|].
        by eapply lookup_weaken; [|apply (sh_certs _ _ _ Hs)]. }
      split; [|split; [done|]].
      * pose proof (sh_ok _ _ _ Hs) as Hw1. apply shrunk_evolved in Hs as [Hh Hn]. split; cbn [w_certs]; rewrite Ec.
        -- intros x Hx. rewrite lookup_insert_ne, Hh; [done|done|]. intros <-. destruct (wo_held _ _ Hw1 l Hx) as [c Hc]. congruence.
        -- intros x c [[<- <-]|[_ Hx]]%lookup_insert_Some; [by right|by apply Hn].
      * exists cert. cbn [w_certs w_cache]. rewrite Ec, lookup_insert_eq. splits; [done|set_solver|]. intros q [= <-].
        rewrite Hraw. unfold contents. cbn [cur_data cur_len]. by rewrite take_take, Nat.min_id.
    + destruct (x509_put _ l) as [w2|] eqn:Eg; [|done]. cbn [mbind option_bind] in E. injection E as <- <-.
      apply freed_again in Eg as ->; [|done|done]. split; [by apply shrunk_evolved|apply Hs].
Qed.

Lemma certs_ok_weaken malloc stack calls certs certs' : certs_ok malloc stack calls certs ->
  (forall l cert, certs' !! l = Some cert -> certs !! l = Some cert \/ (valid cert = false /\ path_len_range cert)) ->
  certs_ok malloc stack calls certs'.
Proof. intros Hok Hnew l cert E. destruct (Hnew l cert E) as [E'|[Hv Hr]]; [exact (Hok l cert E')|]. by rewrite Hv. Qed.

Lemma put_subseteq w l w' : x509_put w l = Some w' -> w_certs w' ⊆ w_certs w.
Proof.
  unfold x509_put. destruct (w_refs w !! l) as [count|]; [|done]. cbn [mbind option_bind].
  destruct (_ || _); intros [= <-]; cbn [w_certs]; [done|apply delete_subseteq].
Qed.

Lemma append_ok allocate `{!Allocates allocate} w held chain l : world_ok w held -> held l <> 0%nat ->
  exists w' r chain', x509_append allocate w chain l = Some (w', r, chain') /\ evolved w w' held /\
  match r with
  | RC_OK => chain' = chain ++ [l] /\ world_ok w' (one_more held l)
  | RC_ERR e => e = ENOMEM /\ chain' = chain /\ world_ok w' held
  end.
Proof.
  intros Hw Hl. unfold x509_append. destruct (allocate w 0) as [w1 link] eqn:Ea.
  pose proof (discarded_ok w w1 held) as Hs. pose proof (alloc_discards w 0) as Hd. rewrite Ea in Hd. specialize (Hs Hd Hw).
  pose proof (shrunk_evolved _ _ _ Hs) as [Hh Hn]. destruct link as [a|].
  - destruct (get_ok w1 held l (sh_ok _ _ _ Hs)) as (w2 & -> & Hw2 & Ec & _); [exact (wo_held _ _ (sh_ok _ _ _ Hs) l Hl)|].
    cbn [mbind option_bind]. eexists w2, RC_OK, _. splits; [done| |done|done]. split; rewrite Ec; [exact Hh|exact Hn].
  - eexists w1, (RC_ERR ENOMEM), chain. splits; [done|by apply shrunk_evolved|done|done|apply Hs].
Qed.

(** Validation writes nothing the cache looks at. *)
Lemma world_ok_raw w held certs' : world_ok w held -> raw <$> certs' = raw <$> w_certs w ->
  world_ok (World certs' (w_refs w) (w_cache w)) held.
Proof.
  intros [D N C H K X] E. assert (forall l, raw <$> certs' !! l = raw <$> w_certs w !! l) as El by (intros l; by rewrite <- !lookup_fmap, E).
  split; cbn [w_certs w_refs w_cache]; try done.
  - intros l. rewrite <- D. specialize (El l). destruct (certs' !! l), (w_certs w !! l); cbn in El; (done || naive_solver).
  - intros l l' c c' Hl Hl' Ec Ec' Ecmp. pose proof (El l) as E1. pose proof (El l') as E2. rewrite Ec in E1. rewrite Ec' in E2.
    destruct (w_certs w !! l) as [d|] eqn:Ed; [|done]. destruct (w_certs w !! l') as [d'|] eqn:Ed'; [|done].
    apply (inj Some) in E1. apply (inj Some) in E2. apply (X l l' d d'); try done. by rewrite <- E1, <- E2.
Qed.

Lemma identity_raw (certs certs' : certificates) : identity <$> certs' = identity <$> certs -> raw <$> certs' = raw <$> certs.
Proof. intros E. apply (f_equal (fmap raw)) in E. by rewrite <- !map_fmap_compose in E. Qed.

(** ** The worlds that calls reach. *)

Section Reachable.
Variable allocate : x509_world -> Z -> x509_world * option loc.
Variable zalloc_ok : Z -> bool.
Variable malloc : Z -> Z -> option (list Z).
Variable stack : forall d : digest_ref, dg_ctx (digest_of d).
Variable roots : x509_root.
Variable calls : Z -> x509_root -> Prop.
Context `{!Allocates allocate}.

(** Callers may use what they hold. *)
Inductive reachable : x509_world -> (loc -> nat) -> Prop :=
| reach_start : reachable (World ∅ ∅ []) (fun _ => 0%nat)
| reach_create w held data w' l :
    reachable w held -> x509_certificate_create allocate zalloc_ok w data = Some (w', inl l) -> reachable w' (one_more held l)
| reach_create_fails w held data w' e :
    reachable w held -> x509_certificate_create allocate zalloc_ok w data = Some (w', inr e) -> reachable w' held
| reach_append w held chain l w' chain' :
    reachable w held -> held l <> 0%nat -> x509_append allocate w chain l = Some (w', RC_OK, chain') -> reachable w' (one_more held l)
| reach_append_fails w held chain l w' e chain' :
    reachable w held -> held l <> 0%nat -> x509_append allocate w chain l = Some (w', RC_ERR e, chain') -> reachable w' held
| reach_get w held l w' :
    reachable w held -> held l <> 0%nat -> x509_get w l = Some w' -> reachable w' (one_more held l)
| reach_put w held l w' :
    reachable w held -> held l <> 0%nat -> x509_put w l = Some w' -> reachable w' (one_less held l)
| reach_validate w held chain time root r certs' :
    reachable w held -> calls time (default roots root) -> time_range time ->
    x509_validate_chain malloc stack roots (w_certs w) chain time root = Some (r, certs') ->
    reachable (World certs' (w_refs w) (w_cache w)) held
| reach_validate_one w held l iss time root r certs' :
    reachable w held -> calls time (default roots root) -> time_range time ->
    validate_at malloc stack roots (w_certs w) l iss time root = Some (r, certs') -> reachable (World certs' (w_refs w) (w_cache w)) held
| reach_good w held l certs' :
    reachable w held -> ocsp_mark_good (w_certs w) l = Some certs' -> reachable (World certs' (w_refs w) (w_cache w)) held
| reach_invalidate w held l certs' :
    reachable w held -> x509_invalidate (w_certs w) l = Some certs' -> reachable (World certs' (w_refs w) (w_cache w)) held
| reach_discard w held r w' :
    reachable w held -> x509_discard w = Some (r, w') -> reachable w' held
| reach_same w held held' :
    reachable w held -> (forall l, held l = held' l) -> reachable w held'.

Lemma invalidate_ok certs l certs' : certs_ok malloc stack calls certs -> x509_invalidate certs l = Some certs' ->
  certs_ok malloc stack calls certs' /\ identity <$> certs' = identity <$> certs.
Proof.
  intros Hok E. unfold x509_invalidate in E. destruct (certs !! l) as [cert|] eqn:El; [|done]. injection E as <-. split.
  - apply map_Forall_insert_2; [|done]. split; [exact (proj1 (Hok l cert El))|done].
  - rewrite fmap_insert. apply insert_id. by rewrite lookup_fmap, El.
Qed.

Lemma mark_good_raw certs l certs' : ocsp_mark_good certs l = Some certs' -> raw <$> certs' = raw <$> certs.
Proof.
  intros E. unfold ocsp_mark_good in E. destruct (certs !! l) as [cert|] eqn:El; [|done]. cbn in E. injection E as <-.
  rewrite fmap_insert. apply insert_id. by rewrite lookup_fmap, El.
Qed.

Lemma reachable_ok w held : reachable w held -> world_ok w held /\ certs_ok malloc stack calls (w_certs w).
Proof.
  induction 1 as [|w held data w' l _ [Hw Hc] E|w held data w' e _ [Hw Hc] E|w held chain l w' chain' _ [Hw Hc] Hl E
    |w held chain l w' e chain' _ [Hw Hc] Hl E|w held l w' _ [Hw Hc] Hl E|w held l w' _ [Hw Hc] Hl E|w held chain time root r certs' _ [Hw Hc] Hcall Ht E
    |w held l iss time root r certs' _ [Hw Hc] Hcall Ht E|w held l certs' _ [Hw Hc] E
    |w held l certs' _ [Hw Hc] E|w held r w' _ [Hw Hc] E|w held held' _ [Hw Hc] E].
  - split; [|apply map_Forall_empty].
    split; cbn [w_certs w_refs w_cache]; [|apply NoDup_nil_2|set_solver|done| |set_solver]; intros l; rewrite !lookup_empty; done.
  - destruct (create_ok _ _ _ _ _ _ _ Hw E) as [[_ Hn] [Hw' _]]. split; [done|by eapply certs_ok_weaken].
  - destruct (create_ok _ _ _ _ _ _ _ Hw E) as [[_ Hn] Hw']. split; [done|by eapply certs_ok_weaken].
  - destruct (append_ok allocate w held chain l Hw Hl) as (w1 & r & c & E1 & [_ Hn] & Hr). rewrite E1 in E. injection E as -> -> ->.
    destruct Hr as [_ Hw']. split; [done|by eapply certs_ok_weaken].
  - destruct (append_ok allocate w held chain l Hw Hl) as (w1 & r & c & E1 & [_ Hn] & Hr). rewrite E1 in E. injection E as -> -> ->.
    destruct Hr as (_ & _ & Hw'). split; [done|by eapply certs_ok_weaken].
  - destruct (get_ok w held l Hw (wo_held _ _ Hw l Hl)) as (w1 & E1 & Hw' & Ec & _). rewrite E in E1. injection E1 as <-. by rewrite Ec.
  - destruct (put_ok w held l Hw Hl) as (w1 & E1 & Hw' & _). rewrite E in E1. injection E1 as <-. split; [done|].
    eapply certs_ok_weaken; [done|]. intros x c Hx. left. eapply lookup_weaken; [done|by eapply put_subseteq].
  - destruct (chain_sound _ _ _ _ _ _ _ _ _ _ Hc Hcall Ht E) as (Hc' & Eid & _). split; [by apply world_ok_raw, identity_raw|done].
  - destruct (validate_at_sound _ _ _ _ _ _ Hcall Ht _ _ _ _ _ Hc E) as (Hc' & Eid & _). split; [by apply world_ok_raw, identity_raw|done].
  - split; [by eapply world_ok_raw, mark_good_raw|by eapply mark_good_ok].
  - destruct (invalidate_ok _ _ _ Hc E) as [Hc' Eid]. split; [by apply world_ok_raw, identity_raw|done].
  - destruct (discarded_ok w w' held) as [Hw' _ Hs _]; [by eapply discarded_one; [|apply discarded_none]|done|]. split; [done|].
    eapply certs_ok_weaken; [done|]. intros x c Hx. left. by eapply lookup_weaken.
  - split; [by eapply world_ok_ext|done].
Qed.

Lemma reach_discarded w w' held : discarded w w' -> reachable w held -> reachable w' held.
Proof. induction 1; [done|]. intros Hr. by eapply IHdiscarded, reach_discard. Qed.

Lemma reach_alloc w held len : reachable w held -> reachable (allocate w len).1 held.
Proof. apply reach_discarded, alloc_discards. Qed.
End Reachable.

(** ** Chains. *)

Definition add_all (held : loc -> nat) (chain : list loc) : loc -> nat := fold_left one_more chain held.

Lemma add_all_count chain : forall held l, add_all held chain l = (held l + length (filter (fun x => x = l) chain))%nat.
Proof.
  unfold add_all. induction chain as [|x chain IH]; intros held l; cbn [fold_left]; [cbn; lia|]. rewrite IH, filter_cons.
  destruct (decide (x = l)) as [->|Hn]; [rewrite one_more_eq; cbn [length]; lia|by rewrite one_more_ne].
Qed.

Lemma free_chain_ok chain : forall w held, world_ok w (add_all held chain) ->
  exists w', x509_free_chain w chain = Some w' /\ world_ok w' held /\ w_certs w' ⊆ w_certs w.
Proof.
  induction chain as [|l chain IH]; intros w held Hw; cbn [x509_free_chain]; [by exists w|].
  destruct (put_ok w _ l Hw) as (w1 & E1 & Hw1 & _).
  { rewrite add_all_count, filter_cons_True by done. cbn [length]. lia. }
  rewrite E1. cbn [mbind option_bind]. destruct (IH w1 held) as (w' & E & Hw' & Hs).
  { eapply world_ok_ext; [|exact Hw1]. intros x. destruct (decide (x = l)) as [->|Hn].
    - rewrite one_less_eq, !add_all_count, filter_cons_True by done. cbn [length]. lia.
    - rewrite one_less_ne, !add_all_count, filter_cons_False by done. done. }
  exists w'. splits; [done|done|]. etrans; [done|by eapply put_subseteq].
Qed.

(** Following the names of the issuers through a list of certificates. *)
Inductive issuers (certs : certificates) (links : list loc) : loc -> list loc -> Prop :=
| issuers_end l cert found :
    certs !! l = Some cert -> x509_find_subject (World certs ∅ []) links (issuer cert) = Some found ->
    found = None \/ found = Some l -> issuers certs links l []
| issuers_next l cert next rest :
    certs !! l = Some cert -> x509_find_subject (World certs ∅ []) links (issuer cert) = Some (Some next) -> next <> l ->
    issuers certs links next rest -> issuers certs links l (next :: rest).

Lemma find_subject_held w certs links name : (forall l, l ∈ links -> w_certs w !! l = certs !! l) ->
  x509_find_subject w links name = x509_find_subject (World certs ∅ []) links name.
Proof.
  induction links as [|l links IH]; intros Hl; cbn [x509_find_subject]; [done|]. cbn [w_certs].
  rewrite (Hl l) by set_solver. destruct (certs !! l) as [cert|]; [|done]. cbn [mbind option_bind]. destruct (asn1_compare_eq _ _); [done|].
  apply IH. set_solver.
Qed.

Lemma find_subject_elem w links name l : x509_find_subject w links name = Some (Some l) -> l ∈ links.
Proof.
  induction links as [|x links IH]; cbn [x509_find_subject]; [done|]. destruct (w_certs w !! x) as [cert|]; [|done]. cbn [mbind option_bind].
  destruct (asn1_compare_eq _ _); [intros [= <-]; set_solver|]. intros H%IH. set_solver.
Qed.

Lemma auto_append_ok allocate `{!Allocates allocate} links certs ls previous : issuers certs links previous ls ->
  forall fuel w held chain, (length ls < fuel)%nat -> world_ok w held ->
  (forall l, l ∈ links -> held l <> 0%nat /\ w_certs w !! l = certs !! l) -> w_certs w !! previous = certs !! previous ->
  exists w' r done_ls, auto_append_loop allocate fuel w chain links previous = Some (w', r, chain ++ done_ls) /\
    world_ok w' (add_all held done_ls) /\
    match r with RC_OK => done_ls = ls | RC_ERR e => e = ENOMEM /\ exists rest, rest <> [] /\ ls = done_ls ++ rest end.
Proof.
  induction 1 as [l cert found Ec Ef Hend|l cert next rest Ec Ef Hne Hrest IH]; intros [|fuel] w held chain Hfuel Hw Hl Ep; [lia| |lia|];
    cbn [auto_append_loop]; rewrite Ep, Ec; cbn [mbind option_bind]; rewrite (find_subject_held w certs) by (intros; by apply Hl); rewrite Ef;
    cbn [mbind option_bind].
  - eexists w, RC_OK, []. rewrite app_nil_r. splits; [|done|done]. destruct Hend as [->| ->]; [done|]. by rewrite Nat.eqb_refl.
  - rewrite (proj2 (Nat.eqb_neq next l)) by done. pose proof (find_subject_elem _ _ _ _ Ef) as Hin. destruct (Hl next Hin) as [Hh En].
    destruct (append_ok allocate w held chain next Hw Hh) as (w1 & r & c & -> & [Hheld _] & Hr). cbn [mbind option_bind]. destruct r as [|e].
    + destruct Hr as [-> Hw1]. destruct (IH fuel w1 (one_more held next) (chain ++ [next])) as (w' & r & ds & E & Hw' & Hr).
      * cbn [length] in Hfuel. lia.
      * done.
      * intros x Hx. destruct (Hl x Hx) as [Hx1 Hx2]. rewrite Hheld by done. split; [|done].
        unfold one_more. by destruct (decide (x = next)).
      * rewrite Hheld by done. exact En.
      * exists w', r, (next :: ds). splits; [by rewrite E, <- app_assoc|done|]. destruct r; [by rewrite Hr|].
        destruct Hr as (He & rest' & Hne' & ->). split; [done|]. by exists rest'.
    + destruct Hr as (-> & -> & Hw1). exists w1, (RC_ERR ENOMEM), []. rewrite app_nil_r. splits; [done|done|done|]. by exists (next :: rest).
Qed.

(** Two certificates that name each other. *)
Lemma auto_append_cycle allocate `{!Allocates allocate} links a b ca cb : a <> b ->
  (forall w len, (allocate w len).2 <> None) ->
  forall fuel w held chain, world_ok w held -> held a <> 0%nat -> held b <> 0%nat -> (forall l, l ∈ links -> held l <> 0%nat) ->
  w_certs w !! a = Some ca -> w_certs w !! b = Some cb ->
  x509_find_subject w links (issuer ca) = Some (Some b) -> x509_find_subject w links (issuer cb) = Some (Some a) ->
  auto_append_loop allocate fuel w chain links a = None.
Proof.
  intros Hab Hsucc fuel. revert a b ca cb Hab. induction fuel as [|fuel IH]; intros a b ca cb Hab w held chain Hw Ha Hb Hl Ea Eb Fa Fb; [done|].
  cbn [auto_append_loop]. rewrite Ea. cbn [mbind option_bind]. rewrite Fa. cbn [mbind option_bind].
  rewrite (proj2 (Nat.eqb_neq b a)) by done.
  destruct (append_ok allocate w held chain b Hw Hb) as (w1 & r & c & E & [Hheld _] & Hr).
  assert (r = RC_OK) as ->.
  { unfold x509_append in E. pose proof (Hsucc w 0) as Hs. destruct (allocate w 0) as [w0 [x|]]; [|done].
    destruct (x509_get w0 b); [|done]. cbn in E. by injection E as _ <- _. }
  rewrite E. cbn [mbind option_bind]. destruct Hr as [-> Hw1].
  assert (forall name, x509_find_subject w1 links name = x509_find_subject w links name) as Hf.
  { intros name. rewrite (find_subject_held w1 (w_certs w)), (find_subject_held w (w_certs w)); [done|done|]. intros l Hin. by apply Hheld, Hl. }
  assert (forall x, held x <> 0%nat -> one_more held b x <> 0%nat) as Hmore by (intros x Hx; unfold one_more; by destruct (decide (x = b))).
  apply (IH b a cb ca (not_eq_sym Hab) w1 (one_more held b)); auto; by rewrite ?Hheld, ?Hf.
Qed.

(** ** Theorems. *)

(** C3: In every world that parsing, appending to chains, giving back
    references, validating, invalidating and discarding reach: reference
    counts are those of the cache and of the holders, the cache holds no
    certificate twice, a certificate that is held is there and can be
    given back, and a certificate marked as valid has a path of signed
    issuers to a root of one of the stores that were used, within all path
    length constraints. *)
Theorem x509_reachable_trusted allocate zalloc_ok malloc stack roots calls w held `{!Allocates allocate} :
  reachable allocate zalloc_ok malloc stack roots calls w held ->
  world_ok w held /\
  (forall l, held l <> 0%nat -> is_Some (w_certs w !! l) /\ is_Some (x509_put w l)) /\
  forall l cert, w_certs w !! l = Some cert -> valid cert = true ->
    exists path, cert_path malloc stack calls (identity cert :: path) /\ path_lengths (identity cert :: path).
Proof.
  intros Hr. destruct (reachable_ok _ _ _ _ _ _ _ _ Hr) as [Hw Hc]. splits; [done|..].
  - intros l Hl. split; [apply (wo_dom _ _ Hw), (wo_held _ _ Hw l Hl)|]. destruct (put_ok w held l Hw Hl) as (w' & E & _). by exists w'.
  - intros l cert El Hv. destruct (valid_path _ _ _ _ l Hc) as (cert' & path & E' & ?); [by exists cert|].
    rewrite El in E'. injection E' as <-. by exists path.
Qed.

(** The same data again: the certificate that is there, with what its
    validation has found, and one more reference. *)
Lemma create_again allocate zalloc_ok `{!Allocates allocate} w held data w' l : world_ok w held ->
  x509_certificate_create allocate zalloc_ok w data = Some (w', inl l) ->
  (forall p, asn1_shrink_any data = Some p -> in_data p.2) -> (forall l cert, w_certs w' !! l = Some cert -> in_data (raw cert)) ->
  exists w'', x509_certificate_create allocate zalloc_ok w' data = Some (w'', inl l) /\ w_certs w'' = w_certs w' /\
    world_ok w'' (one_more (one_more held l) l).
Proof.
  intros Hw E Hcur Hraw. destruct (create_ok _ _ _ _ _ _ _ Hw E) as (_ & Hw' & cert & Ec & Hl & Econt).
  unfold x509_certificate_create in E |- *. destruct (asn1_shrink_any data) as [p|] eqn:Ep; [|done]. cbn [mbind option_bind].
  destruct (cache_find_ok w' _ p.2 (w_cache w') Hw') as (hit & Ef & Hhit); [done|]. rewrite Ef. cbn [mbind option_bind].
  assert (asn1_compare_eq p.2 (raw cert) = true) as Hcmp.
  { rewrite compare_contents, bool_decide_eq_true; [|by apply Hcur|by eapply Hraw]. symmetry. by apply Econt. }
  destruct hit as [l'|]; [|by rewrite (Hhit l cert Hl Ec) in Hcmp]. destruct Hhit as (Hl' & cert' & Ec' & Hcmp').
  assert (l' = l) as ->.
  { apply (wo_distinct _ _ Hw' l' l cert' cert); try done. apply compare_true in Hcmp' as [_ Hc']. apply compare_true in Hcmp as [_ Hc].
    rewrite compare_contents, bool_decide_eq_true by (by eapply Hraw). congruence. }
  destruct (get_ok _ _ l (to_front_ok w' _ l Hw' Hl)) as (w'' & Eg & Hw'' & Ecerts & _); [exact (wo_cached _ _ Hw' l Hl)|].
  rewrite Eg. cbn [mbind option_bind]. exists w''. done.
Qed.

(** ** An example: a root certificate is parsed and validated. *)

Definition bump_allocate (w : x509_world) (len : Z) : x509_world * option loc := (w, Some (fresh (dom (w_refs w)))).

#[export] Instance bump_allocates : Allocates bump_allocate.
Proof.
  split; [intros; apply discarded_none|]. intros w len l [= <-]. cbn [fst bump_allocate].
  apply not_elem_of_dom, is_fresh.
Qed.

Definition example_data : asn1_cursor := covering (der_certificate example_info) [].

Definition example_trust : x509_root :=
  Root sha1_ref 1 (default [] (digest_once example_stack sha1_ref (der_certificate example_info))).

Definition parsed_world : x509_world :=
  match x509_certificate_create bump_allocate (fun _ => true) (World ∅ ∅ []) example_data with
  | Some (w, _) => w
  | None => World ∅ ∅ []
  end.

Lemma parsed_reachable : x509_certificate_create bump_allocate (fun _ => true) (World ∅ ∅ []) example_data = Some (parsed_world, inl 0%nat).
Proof. vm_compute. reflexivity. Qed.

Lemma validated_example : exists certs,
  x509_validate_chain key_malloc example_stack example_trust (w_certs parsed_world) [0%nat] 1340000000 None = Some (RC_OK, certs) /\
  valid <$> certs !! 0%nat = Some true.
Proof. eexists. split; vm_compute; reflexivity. Qed.

Lemma x509_reachable_trusted_witness : exists w held cert, w_certs w !! 0%nat = Some cert /\ valid cert = true /\ world_ok w held /\
  exists path, cert_path key_malloc example_stack (this_call example_trust 1340000000 None) (identity cert :: path) /\ path_lengths (identity cert :: path).
Proof.
  destruct validated_example as (certs & Ev & Hv). destruct (certs !! 0%nat) as [cert|] eqn:Ec; [|discriminate]. injection Hv as Hv.
  assert (reachable bump_allocate (fun _ => true) key_malloc example_stack example_trust (this_call example_trust 1340000000 None)
    (World certs (w_refs parsed_world) (w_cache parsed_world)) (one_more (fun _ => 0%nat) 0%nat)) as Hr.
  { eapply reach_validate; [eapply reach_create; [apply reach_start|exact parsed_reachable]|split; reflexivity|split; [discriminate|reflexivity]|exact Ev]. }
  destruct (x509_reachable_trusted bump_allocate (fun _ => true) key_malloc example_stack example_trust _ _ _ Hr) as (Hw & _ & Hpath).
  exists (World certs (w_refs parsed_world) (w_cache parsed_world)), (one_more (fun _ => 0%nat) 0%nat), cert.
  exact (conj Ec (conj Hv (conj Hw (Hpath 0%nat cert Ec Hv)))).
Defined.
