(* ===== verification/Cms.v ===== *)
(** * Signatures over data: CMS (crypto/cms.c).

    A signature holds the certificates it came with and, for each signer,
    a chain, the algorithms and the signature value.  Chains are lists of
    addresses in the world of [X509Cache].  Every allocation is a call of
    the allocation function, which may discard certificates of the cache
    that nobody holds.  Building a chain from the names of the issuers may
    not end ([X509Cache]); it runs on fuel.

    The theorems: data that is accepted was signed with the key of a
    certificate that has a path to a trusted root and may sign code, once
    per signer with the required name, and at least once; parsing, with
    success or not, gives back every reference that the signature does not
    keep; a required name is compared with the common name up to its first
    zero byte. *)

From stdpp Require Import gmap.
From S2P Require Import Prelude Strings Printf Asn1 Digest Sha Rsa X509 X509Der X509Chain X509Cache.

Record cms_signer_info := SignerInfo {
  info_chain : list loc; info_digest : option digest_ref; info_pubkey : option pubkey_ref; info_signature : list Z;
}.

Record cms_signature := Signature { sig_certificates : list loc; sig_info : list cms_signer_info }.

Definition set_chain (chain : list loc) (info : cms_signer_info) : cms_signer_info :=
  SignerInfo chain (info_digest info) (info_pubkey info) (info_signature info).

Definition ASN1_OID_SIGNEDDATA : list Z := oid_rsadsi ++ [1; 7; 2].

Section Parse.
Variable allocate : x509_world -> Z -> x509_world * option loc.
Variable zalloc_ok : Z -> bool.
Variable fuel : nat.

Definition cms_parse_content_type (raw : asn1_cursor) : option rc :=
  p ← asn1_enter raw ASN1_OID;
  Some (if asn1_compare_eq p.2 (oid_cursor ASN1_OID_SIGNEDDATA) then RC_OK else RC_ERR ENOTSUP_SIGNEDDATA).

(** [while ( cursor.len ) { x509_append_raw; asn1_skip_any }] *)
Fixpoint certificates_loop (turns : nat) (w : x509_world) (certificates : list loc) (cursor : asn1_cursor) :
    option (x509_world * rc * list loc) :=
  match turns with
  | O => None
  | S turns' =>
      if cur_len cursor =? 0 then Some (w, RC_OK, certificates)
      else
        q ← x509_append_raw allocate zalloc_ok w certificates cursor;
        match q with
        | (w, RC_OK, certificates) => n ← asn1_skip_any cursor; certificates_loop turns' w certificates n.2
        | _ => Some q
        end
  end.

Definition cms_parse_certificates (w : x509_world) (certificates : list loc) (raw : asn1_cursor) : option (x509_world * rc * list loc) :=
  p ← asn1_enter raw (ASN1_EXPLICIT_TAG 0);
  certificates_loop (S (Z.to_nat (cur_len p.2))) w certificates p.2.

Fixpoint cms_find_issuer_serial (w : x509_world) (certificates : list loc) (name number : asn1_cursor) : option (option loc) :=
  match certificates with
  | [] => Some None
  | l :: certificates' =>
      cert ← w_certs w !! l;
      if asn1_compare_eq name (issuer cert) && asn1_compare_eq number (serial cert) then Some (Some l)
      else cms_find_issuer_serial w certificates' name number
  end.

Definition cms_parse_signer_identifier (w : x509_world) (certificates : list loc) (info : cms_signer_info) (raw : asn1_cursor) :
    option (x509_world * rc * cms_signer_info) :=
  p ← asn1_enter raw ASN1_SEQUENCE;
  i ← asn1_shrink p.2 ASN1_SEQUENCE;
  match i with
  | (RC_ERR e, _) => Some (w, RC_ERR e, info)
  | (RC_OK, name) =>
      n ← asn1_skip_any p.2;
      s ← asn1_shrink n.2 ASN1_INTEGER;
      match s with
      | (RC_ERR e, _) => Some (w, RC_ERR e, info)
      | (RC_OK, number) =>
          found ← cms_find_issuer_serial w certificates name number;
          match found with
          | None => Some (w, RC_ERR ENOENT, info)
          | Some cert =>
              q ← x509_append allocate w (info_chain info) cert;
              match q with
              | (w, RC_ERR e, chain) => Some (w, RC_ERR e, set_chain chain info)
              | (w, RC_OK, chain) =>
                  a ← x509_auto_append allocate fuel w chain certificates;
                  let '(w, rc, chain) := a in
                  Some (w, rc, set_chain chain info)
              end
          end
      end
  end.

Definition cms_parse_digest_algorithm (info : cms_signer_info) (raw : asn1_cursor) : option (rc * cms_signer_info) :=
  r ← asn1_digest_algorithm ASN1_ALGORITHMS raw;
  match r with
  | inr e => Some (RC_ERR e, info)
  | inl a => Some (RC_OK, SignerInfo (info_chain info) (alg_digest a) (info_pubkey info) (info_signature info))
  end.

Definition cms_parse_signature_algorithm (info : cms_signer_info) (raw : asn1_cursor) : option (rc * cms_signer_info) :=
  r ← asn1_pubkey_algorithm ASN1_ALGORITHMS raw;
  match r with
  | inr e => Some (RC_ERR e, info)
  | inl a => Some (RC_OK, SignerInfo (info_chain info) (info_digest info) (alg_pubkey a) (info_signature info))
  end.

Definition cms_parse_signature_value (w : x509_world) (info : cms_signer_info) (raw : asn1_cursor) :
    option (x509_world * rc * cms_signer_info) :=
  p ← asn1_enter raw ASN1_OCTET_STRING;
  match p with
  | (RC_ERR e, _) => Some (w, RC_ERR e, info)
  | (RC_OK, cursor) =>
      let '(w, signature) := allocate w (cur_len cursor) in
      match signature with
      | None => Some (w, RC_ERR ENOMEM, info)
      | Some _ => Some (w, RC_OK, SignerInfo (info_chain info) (info_digest info) (info_pubkey info) (contents cursor))
      end
  end.

Definition cms_parse_signer_info (w : x509_world) (certificates : list loc) (info : cms_signer_info) (raw : asn1_cursor) :
    option (x509_world * rc * cms_signer_info) :=
  p ← asn1_enter raw ASN1_SEQUENCE;
  p ← asn1_skip p.2 ASN1_INTEGER;
  q ← cms_parse_signer_identifier w certificates info p.2;
  match q with
  | (_, RC_ERR _, _) => Some q
  | (w, RC_OK, info) =>
      p ← asn1_skip_any p.2;
      d ← cms_parse_digest_algorithm info p.2;
      match d with
      | (RC_ERR e, info) => Some (w, RC_ERR e, info)
      | (RC_OK, info) =>
          p ← asn1_skip_any p.2;
          p ← asn1_skip_if_exists p.2 (ASN1_EXPLICIT_TAG 0);
          s ← cms_parse_signature_algorithm info p.2;
          match s with
          | (RC_ERR e, info) => Some (w, RC_ERR e, info)
          | (RC_OK, info) => p ← asn1_skip_any p.2; cms_parse_signature_value w info p.2
          end
      end
  end.

(** The block is in the list of the signature while it is parsed. *)
Fixpoint signer_infos_loop (turns : nat) (w : x509_world) (sig : cms_signature) (cursor : asn1_cursor) :
    option (x509_world * rc * cms_signature) :=
  match turns with
  | O => None
  | S turns' =>
      if cur_len cursor =? 0 then Some (w, RC_OK, sig)
      else
        let '(w, block) := allocate w 0 in
        match block with
        | None => Some (w, RC_ERR ENOMEM, sig)
        | Some _ =>
            let info := SignerInfo [] None None [] in
            let '(w, chain) := allocate w 0 in
            match chain with
            | None => Some (w, RC_ERR ENOMEM, Signature (sig_certificates sig) (info :: sig_info sig))
            | Some _ =>
                q ← cms_parse_signer_info w (sig_certificates sig) info cursor;
                let '(w, rc, info) := q in
                let sig := Signature (sig_certificates sig) (info :: sig_info sig) in
                match rc with
                | RC_OK => n ← asn1_skip_any cursor; signer_infos_loop turns' w sig n.2
                | RC_ERR e => Some (w, RC_ERR e, sig)
                end
            end
        end
  end.

Definition cms_parse (w : x509_world) (sig : cms_signature) (raw : asn1_cursor) : option (x509_world * rc * cms_signature) :=
  p ← asn1_enter raw ASN1_SEQUENCE;
  t ← cms_parse_content_type p.2;
  match t with
  | RC_ERR e => Some (w, RC_ERR e, sig)
  | RC_OK =>
      p ← asn1_skip_any p.2;
      p ← asn1_enter p.2 (ASN1_EXPLICIT_TAG 0);
      p ← asn1_enter p.2 ASN1_SEQUENCE;
      p ← asn1_skip p.2 ASN1_INTEGER;
      p ← asn1_skip p.2 ASN1_SET;
      p ← asn1_skip p.2 ASN1_SEQUENCE;
      q ← cms_parse_certificates w (sig_certificates sig) p.2;
      let '(w, rc, certificates) := q in
      let sig := Signature certificates (sig_info sig) in
      match rc with
      | RC_ERR e => Some (w, RC_ERR e, sig)
      | RC_OK =>
          p ← asn1_skip_any p.2;
          p ← asn1_skip_if_exists p.2 (ASN1_EXPLICIT_TAG 1);
          p ← asn1_enter p.2 ASN1_SET;
          signer_infos_loop (S (Z.to_nat (cur_len p.2))) w sig p.2
      end
  end.

(** The chains of the signers, then the certificates. *)
Fixpoint free_infos (w : x509_world) (infos : list cms_signer_info) : option x509_world :=
  match infos with
  | [] => Some w
  | info :: infos' => w ← x509_free_chain w (info_chain info); free_infos w infos'
  end.

Definition cms_free (w : x509_world) (sig : cms_signature) : option x509_world :=
  w ← free_infos w (sig_info sig); x509_free_chain w (sig_certificates sig).

(** The function cms_signature(). *)
Definition cms_signature_create (w : x509_world) (data : asn1_cursor) : option (x509_world * result cms_signature) :=
  let '(w, address) := allocate w 0 in
  match address with
  | None => Some (w, inr ENOMEM)
  | Some _ =>
      let '(w, certificates) := allocate w 0 in
      match certificates with
      | None => w ← cms_free w (Signature [] []); Some (w, inr ENOMEM)
      | Some _ =>
          p ← asn1_shrink_any data;
          q ← cms_parse w (Signature [] []) p.2;
          match q with
          | (w, RC_OK, sig) => Some (w, inl sig)
          | (w, RC_ERR e, sig) => w ← cms_free w sig; Some (w, inr e)
          end
      end
  end.
End Parse.

(** ** Verification. *)

Definition X509_DIGITAL_SIGNATURE : Z := 0x0080.

Section Verify.
Variable malloc : Z -> Z -> option (list Z).
Variable stack : forall d : digest_ref, dg_ctx (digest_of d).
Variable root_certificates : x509_root.

(** One block at a time. *)
Fixpoint digest_blocks (turns : nat) (d : digest_algorithm) (ctx : dg_ctx d) (data : list Z) : option (dg_ctx d) :=
  match data with
  | [] => Some ctx
  | _ =>
      match turns with
      | O => None
      | S turns' =>
          let block := take (Z.to_nat (blocksize d)) data in
          digest_blocks turns' d (digest_update d ctx block) (drop (length block) data)
      end
  end.

Definition cms_digest (digest : digest_ref) (data : list Z) : option (list Z) :=
  ctx ← digest_blocks (length data) (digest_of digest) (digest_init (digest_of digest) (stack digest)) data;
  p ← digest_final (digest_of digest) ctx;
  Some p.2.

Definition cms_verify_digest (info : cms_signer_info) (cert : x509_certificate) (data : list Z) : option rc :=
  digest ← info_digest info;
  pubkey ← info_pubkey info;
  digest_out ← cms_digest digest data;
  r ← rsa_init malloc (contents (pk_raw (public_key (subject cert))));
  match r with
  | inr e => Some (RC_ERR e)
  | inl ctx => v ← rsa_verify ctx digest digest_out (info_signature info); Some v.2
  end.

Definition cms_verify_signer_info (certs : certificates) (info : cms_signer_info) (data : list Z) (time : Z) (root : option x509_root) :
    option (rc * certificates) :=
  p ← x509_validate_chain malloc stack root_certificates certs (info_chain info) time root;
  match p with
  | (RC_ERR e, certs) => Some (RC_ERR e, certs)
  | (RC_OK, certs) =>
      l ← head (info_chain info);
      cert ← certs !! l;
      if negb (ctrue (Z.land (usage_bits (extensions cert)) X509_DIGITAL_SIGNATURE)) then Some (RC_ERR EACCES_NON_SIGNING, certs)
      else if negb (ctrue (Z.land (ext_usage_bits (extensions cert)) X509_CODE_SIGNING)) then Some (RC_ERR EACCES_NON_CODE_SIGNING, certs)
      else rc ← cms_verify_digest info cert data; Some (rc, certs)
  end.

(** Whether the first certificate of a chain has the required name. *)
Definition name_matches (certs : certificates) (chain : list loc) (name : option (list Z)) : option bool :=
  match name with
  | None => Some true
  | Some required =>
      l ← head chain;
      cert ← certs !! l;
      Some match subject_name (subject cert) with
           | None => false
           | Some n => strcmp (until_nul n) required =? 0
           end
  end.

Fixpoint verify_infos (certs : certificates) (infos : list cms_signer_info) (data : list Z) (name : option (list Z)) (time : Z)
    (root : option x509_root) (count : Z) : option (rc * certificates) :=
  match infos with
  | [] =>
      Some (if count =? 0 then RC_ERR (if bool_decide (is_Some name) then EACCES_WRONG_NAME else EACCES_NO_SIGNATURES) else RC_OK, certs)
  | info :: infos' =>
      matches ← name_matches certs (info_chain info) name;
      if matches : bool then
        p ← cms_verify_signer_info certs info data time root;
        match p with
        | (RC_OK, certs) => verify_infos certs infos' data name time root (count + 1)
        | _ => Some p
        end
      else verify_infos certs infos' data name time root count
  end.

Definition cms_verify (certs : certificates) (sig : cms_signature) (data : list Z) (name : option (list Z)) (time : Z)
    (root : option x509_root) : option (rc * certificates) :=
  verify_infos certs (sig_info sig) data name time root 0.
End Verify.

(** ** Digests of the data. *)

Lemma digest_blocks_chunks d turns : 0 < blocksize d -> forall ctx data, (length data <= turns)%nat ->
  exists chunks, digest_blocks turns d ctx data = Some (fold_left (digest_update d) chunks ctx) /\ concat chunks = data.
Proof.
  intros Hb. induction turns as [|turns IH]; intros ctx data L; [destruct data; [by exists []|cbn in L; lia]|].
  destruct data as [|b data]; [by exists []|]. cbn [digest_blocks].
  set (block := take (Z.to_nat (blocksize d)) (b :: data)).
  assert (1 <= length block)%nat as Hl by (unfold block; rewrite length_take; cbn [length]; lia).
  assert (length block <= length (b :: data))%nat as Hl' by (unfold block; rewrite length_take; lia).
  destruct (IH (digest_update d ctx block) (drop (length block) (b :: data))) as (chunks & E & Ec).
  { rewrite length_drop. cbn [length] in L, Hl' |- *. lia. }
  exists (block :: chunks). split; [exact E|]. cbn [concat]. rewrite Ec. unfold block. rewrite length_take.
  destruct (Nat.le_ge_cases (Z.to_nat (blocksize d)) (length (b :: data))) as [H|H].
  - rewrite Nat.min_l by done. apply take_drop.
  - by rewrite Nat.min_r, take_ge, drop_ge, app_nil_r by done.
Qed.

Lemma cms_digest_hash stack d hash data : stack_ok stack -> hash_of d = Some hash -> zlen data < MD_LIMIT ->
  cms_digest stack d data = Some (hash data).
Proof.
  assert (forall (a : digest_algorithm) (ok : dg_ctx a -> Prop) (h : list Z -> list Z) `{!Digests a ok MD_LIMIT h} c, ok c -> 0 < blocksize a ->
    zlen data < MD_LIMIT ->
    (ctx ← digest_blocks (length data) a (digest_init a c) data; p ← digest_final a ctx; Some p.2) = Some (h data)) as Hd.
  { intros a ok h Hdig c Hc Hb L. destruct (digest_blocks_chunks a (length data) Hb (digest_init a c) data) as (chunks & -> & Ec); [done|].
    cbn [mbind option_bind]. destruct (digest_chunks c chunks Hc) as (c' & E & _); [by rewrite Ec|]. by rewrite E, Ec. }
  intros (H1 & H2 & H3) E L. unfold cms_digest. destruct d; cbn [hash_of] in E; simplify_eq; cbn [digest_of].
  - exact (Hd _ _ _ md5_digests _ H1 eq_refl L).
  - exact (Hd _ _ _ sha1_digests _ H2 eq_refl L).
  - exact (Hd _ _ _ sha256_digests _ H3 eq_refl L).
Qed.

Lemma null_digest_refused ctx value signature ctx' : rsa_verify ctx null_ref value signature <> Some (ctx', RC_OK).
Proof.
  unfold rsa_verify. destruct (negb _); [done|]. destruct (rsa_cipher ctx signature) as [[c out]|]; [|done]. by cbn.
Qed.

(** ** Evidence for a signature. *)

Section Sound.
Variable malloc : Z -> Z -> option (list Z).
Variable stack : forall d : digest_ref, dg_ctx (digest_of d).
Variable roots : x509_root.
Variable calls : Z -> x509_root -> Prop.
Variable data : list Z.

(** The signer has a path to a root, may sign code, and has signed the
    digest of the data. *)
Definition signer_ok (certs : certificates) (info : cms_signer_info) : Prop :=
  exists l cert path digest hash ctx ctx',
    head (info_chain info) = Some l /\ certs !! l = Some cert /\
    cert_path malloc stack calls (identity cert :: path) /\ path_lengths (identity cert :: path) /\
    Z.testbit (usage_bits (extensions cert)) 7 = true /\ Z.testbit (ext_usage_bits (extensions cert)) 0 = true /\
    info_digest info = Some digest /\ hash_of digest = Some hash /\
    rsa_init malloc (contents (pk_raw (public_key (subject cert)))) = Some (inl ctx) /\
    rsa_verify ctx digest (hash data) (info_signature info) = Some (ctx', RC_OK).

Lemma identity_lookup (certs certs' : certificates) l cert : identity <$> certs' = identity <$> certs -> certs !! l = Some cert ->
  exists cert', certs' !! l = Some cert' /\ identity cert' = identity cert.
Proof.
  intros E El. apply (f_equal (lookup l)) in E. rewrite !lookup_fmap, El in E. cbn in E. destruct (certs' !! l) as [cert'|]; [|done].
  apply (inj Some) in E. by exists cert'.
Qed.

Lemma signer_ok_identity (certs certs' : certificates) info : identity <$> certs' = identity <$> certs -> signer_ok certs info -> signer_ok certs' info.
Proof.
  intros Eid (l & cert & path & digest & hash & ctx & ctx' & Hl & Ec & Hp & Hlen & Hu & Hx & Hd & Hh & Hi & Hv).
  destruct (identity_lookup _ _ _ _ Eid Ec) as (cert' & Ec' & Ei).
  assert (extensions cert' = extensions cert) as Ee by exact (f_equal extensions Ei).
  assert (subject cert' = subject cert) as Es by exact (f_equal subject Ei).
  exists l, cert', path, digest, hash, ctx, ctx'. rewrite Ei, Ee, Es. splits; done.
Qed.

Hypothesis Hstack : stack_ok stack.
Hypothesis Hdata : zlen data < MD_LIMIT.
Variable time : Z.
Variable root : option x509_root.
Hypothesis Hcalls : calls time (default roots root).
Hypothesis Htime : time_range time.

Lemma verify_digest_ok info cert : cms_verify_digest malloc stack info cert data = Some RC_OK ->
  exists digest hash ctx ctx', info_digest info = Some digest /\ hash_of digest = Some hash /\
    rsa_init malloc (contents (pk_raw (public_key (subject cert)))) = Some (inl ctx) /\
    rsa_verify ctx digest (hash data) (info_signature info) = Some (ctx', RC_OK).
Proof.
  unfold cms_verify_digest. destruct (info_digest info) as [digest|]; [|done]. destruct (info_pubkey info); [|done]. cbn [mbind option_bind].
  destruct (hash_of digest) as [hash|] eqn:Eh.
  - rewrite (cms_digest_hash stack digest hash data Hstack Eh Hdata). cbn [mbind option_bind].
    destruct (rsa_init malloc _) as [[ctx|e]|] eqn:Ei; [|done..]. cbn [mbind option_bind].
    destruct (rsa_verify _ _ _ _) as [[ctx' r]|] eqn:Ev; [|done]. cbn. intros [= ->]. by exists digest, hash, ctx, ctx'.
  - destruct (cms_digest stack digest data); [|done]. cbn [mbind option_bind]. destruct (rsa_init malloc _) as [[ctx|e]|]; [|done..].
    cbn [mbind option_bind]. destruct (rsa_verify _ _ _ _) as [[ctx' r]|] eqn:Ev; [|done]. cbn. intros [= ->].
    destruct digest; try done. by apply null_digest_refused in Ev.
Qed.

Lemma verify_signer_ok certs info r certs' : certs_ok malloc stack calls certs ->
  cms_verify_signer_info malloc stack roots certs info data time root = Some (r, certs') ->
  certs_ok malloc stack calls certs' /\ identity <$> certs' = identity <$> certs /\ (r = RC_OK -> signer_ok certs' info).
Proof.
  intros Hok E. unfold cms_verify_signer_info in E.
  destruct (x509_validate_chain _ _ _ certs _ time root) as [[r1 certs1]|] eqn:E1; [|done]. cbn [mbind option_bind] in E.
  destruct (chain_sound _ _ _ _ _ _ _ _ _ _ Hok Hcalls Htime E1) as (Hok1 & Eid & Hv). destruct r1 as [|e]; [|injection E as <- <-; done].
  destruct (Hv eq_refl) as (l & Hl & Hm). destruct (valid_path _ _ _ _ _ Hok1 Hm) as (cert & path & Ec & Hp & Hlen).
  rewrite Hl in E. cbn [mbind option_bind] in E. rewrite Ec in E. cbn [mbind option_bind] in E.
  change X509_DIGITAL_SIGNATURE with (2 ^ 7) in E. change X509_CODE_SIGNING with (2 ^ 0) in E. rewrite !low_bit in E by done.
  destruct (Z.testbit (usage_bits _) 7) eqn:Eu; [|injection E as <- <-; done]. destruct (Z.testbit (ext_usage_bits _) 0) eqn:Ex; [|injection E as <- <-; done].
  cbn [negb] in E. destruct (cms_verify_digest _ _ _ _ _) as [rr|] eqn:Ed; [|done]. cbn in E. injection E as <- <-. splits; [done|done|].
  intros ->. destruct (verify_digest_ok _ _ Ed) as (digest & hash & ctx & ctx' & ?). exists l, cert, path, digest, hash, ctx, ctx'. naive_solver.
Qed.

Lemma name_matches_identity (certs certs' : certificates) chain name : identity <$> certs' = identity <$> certs -> name_matches certs' chain name = name_matches certs chain name.
Proof.
  intros Eid. unfold name_matches. destruct name as [required|]; [|done]. destruct (head chain) as [l|]; [|done]. cbn [mbind option_bind].
  apply (f_equal (lookup l)) in Eid. rewrite !lookup_fmap in Eid.
  destruct (certs' !! l) as [c'|], (certs !! l) as [c|]; try done. cbn in Eid |- *. apply (inj Some) in Eid.
  by assert (subject c' = subject c) as -> by exact (f_equal subject Eid).
Qed.

Lemma verify_infos_ok infos : forall certs name count certs', certs_ok malloc stack calls certs ->
  verify_infos malloc stack roots certs infos data name time root count = Some (RC_OK, certs') ->
  certs_ok malloc stack calls certs' /\ identity <$> certs' = identity <$> certs /\
  (forall info, info ∈ infos -> name_matches certs (info_chain info) name = Some true -> signer_ok certs' info) /\
  (count = 0 -> exists info, info ∈ infos /\ name_matches certs (info_chain info) name = Some true).
Proof.
  induction infos as [|info infos IH]; intros certs name count certs' Hok E; cbn [verify_infos] in E.
  - destruct (Z.eqb_spec count 0); [done|]. injection E as <-. splits; [done|done|set_solver|done].
  - destruct (name_matches certs (info_chain info) name) as [[]|] eqn:En; [| |done]; cbn [mbind option_bind] in E.
    + destruct (cms_verify_signer_info _ _ _ _ _ _ _ _) as [[[|e] certs1]|] eqn:E1; [|done..]. cbn [mbind option_bind] in E.
      destruct (verify_signer_ok _ _ _ _ Hok E1) as (Hok1 & Eid1 & Hs). destruct (IH _ _ _ _ Hok1 E) as (Hok2 & Eid2 & Hall & _).
      splits; [done|congruence| |exists info; split; [set_solver|done]].
      intros i [->|Hi]%elem_of_cons Hn; [by eapply signer_ok_identity, Hs|]. apply Hall; [done|]. by rewrite (name_matches_identity certs).
    + destruct (IH _ _ _ _ Hok E) as (Hok2 & Eid2 & Hall & Hex). splits; [done|done|..].
      * intros i [->|Hi]%elem_of_cons Hn; [congruence|by apply Hall].
      * intros Hc. destruct (Hex Hc) as (i & Hi & Hn). exists i. split; [set_solver|done].
Qed.
End Sound.

(** ** References. *)

Section References.
Variable allocate : x509_world -> Z -> x509_world * option loc.
Variable zalloc_ok : Z -> bool.
Variable malloc : Z -> Z -> option (list Z).
Variable stack : forall d : digest_ref, dg_ctx (digest_of d).
Variable roots : x509_root.
Variable calls : Z -> x509_root -> Prop.
Context `{!Allocates allocate}.
Variable fuel : nat.
Variable held : loc -> nat.

(** Callers hold [held] and these chains. *)
Definition holding (w : x509_world) (chains : list loc) : Prop :=
  reachable allocate zalloc_ok malloc stack roots calls w (add_all held chains).

Lemma holding_perm w l1 l2 : Permutation l1 l2 -> holding w l1 -> holding w l2.
Proof.
  intros Hp H. eapply reach_same; [exact H|]. intros l. rewrite !add_all_count. f_equal. apply Permutation_length. by rewrite Hp.
Qed.

Lemma holding_more w l1 l : reachable allocate zalloc_ok malloc stack roots calls w (one_more (add_all held l1) l) -> holding w (l1 ++ [l]).
Proof. unfold holding, add_all. by rewrite fold_left_app. Qed.

Lemma holding_elem w chains l : holding w chains -> l ∈ chains -> add_all held chains l <> 0%nat.
Proof.
  intros _ Hl. rewrite add_all_count. assert (l ∈ filter (fun x => x = l) chains) as Hin by (apply list_elem_of_filter; done).
  destruct (filter _ chains); [set_solver|cbn; lia].
Qed.

Lemma holding_alloc w chains len : holding w chains -> holding (allocate w len).1 chains.
Proof. apply (reach_alloc allocate zalloc_ok malloc stack roots calls). Qed.

Lemma holding_append w chains chain l w' r chain' : holding w chains -> l ∈ chains ->
  x509_append allocate w chain l = Some (w', r, chain') ->
  exists added, chain' = chain ++ added /\ holding w' (chains ++ added) /\ (r = RC_OK -> added = [l]).
Proof.
  intros H Hl E. pose proof (holding_elem _ _ _ H Hl) as Hh.
  destruct (reachable_ok _ _ _ _ _ _ _ _ H) as [Hw _].
  destruct (append_ok allocate w (add_all held chains) chain l Hw Hh) as (w1 & r1 & c1 & E1 & _ & Hr).
  rewrite E1 in E. injection E as -> -> ->. destruct r as [|e].
  - destruct Hr as [-> _]. exists [l]. splits; [done| |done]. apply holding_more. by eapply reach_append.
  - destruct Hr as (-> & -> & _). exists []. rewrite !app_nil_r. splits; [done| |done]. by eapply reach_append_fails.
Qed.

Lemma holding_put w chains l : holding w (chains ++ [l]) -> exists w', x509_put w l = Some w' /\ holding w' chains.
Proof.
  intros H. assert (add_all held (chains ++ [l]) l <> 0%nat) as Hh by (apply (holding_elem w); [done|set_solver]).
  destruct (reachable_ok _ _ _ _ _ _ _ _ H) as [Hw _]. destruct (put_ok w _ l Hw Hh) as (w' & E & _). exists w'. split; [done|].
  eapply reach_same; [by eapply reach_put|]. intros x. unfold add_all. rewrite fold_left_app. cbn [fold_left].
  destruct (decide (x = l)) as [->|Hn]; [by rewrite one_less_eq, one_more_eq|by rewrite one_less_ne, one_more_ne].
Qed.

Lemma holding_free_chain chain : forall w chains, holding w (chains ++ chain) -> exists w', x509_free_chain w chain = Some w' /\ holding w' chains.
Proof.
  induction chain as [|l chain IH]; intros w chains H; cbn [x509_free_chain]; [exists w; by rewrite app_nil_r in H|].
  destruct (holding_put w (chains ++ chain) l) as (w1 & -> & H1).
  { eapply holding_perm; [|exact H]. by rewrite <- app_assoc, (Permutation_app_comm chain [l]). }
  cbn [mbind option_bind]. by apply IH.
Qed.

Lemma holding_append_raw w chains chain data w' r chain' : holding w (chains ++ chain) ->
  x509_append_raw allocate zalloc_ok w chain data = Some (w', r, chain') -> holding w' (chains ++ chain').
Proof.
  intros H E. unfold x509_append_raw in E. destruct (x509_certificate_create _ _ w data) as [[w1 [l|e]]|] eqn:Ec; [| |done]; cbn [mbind option_bind] in E.
  - assert (holding w1 ((chains ++ chain) ++ [l])) as H1 by (apply holding_more; by eapply reach_create).
    destruct (x509_append allocate w1 chain l) as [[[w2 r2] c2]|] eqn:Ea; [|done]. cbn [mbind option_bind] in E.
    destruct (holding_append _ (((chains ++ chain) ++ [l])) chain l w2 r2 c2 H1) as (added & -> & H2 & _); [set_solver|exact Ea|].
    destruct (holding_put w2 (chains ++ chain ++ added) l) as (w3 & E3 & H3).
    { eapply holding_perm; [|exact H2]. rewrite <- !app_assoc. do 2 apply Permutation_app_head. apply Permutation_app_comm. }
    rewrite E3 in E. cbn in E. injection E as <- <- <-. done.
  - injection E as <- <- <-. by eapply reach_create_fails.
Qed.

Lemma holding_auto_loop links n : forall w chains chain previous w' r chain', holding w (chains ++ chain) -> (forall l, l ∈ links -> l ∈ chains) ->
  auto_append_loop allocate n w chain links previous = Some (w', r, chain') -> holding w' (chains ++ chain').
Proof.
  induction n as [|n IH]; intros w chains chain previous w' r chain' H Hl E; cbn [auto_append_loop] in E; [done|].
  destruct (w_certs w !! previous) as [cert|]; [|done]. cbn [mbind option_bind] in E.
  destruct (x509_find_subject w links (issuer cert)) as [[next|]|] eqn:Ef; cbn [mbind option_bind] in E; [|by injection E as <- <- <-|done].
  destruct (next =? previous)%nat; [by injection E as <- <- <-|].
  destruct (x509_append allocate w chain next) as [[[w1 r1] c1]|] eqn:Ea; [|done]. cbn [mbind option_bind] in E.
  destruct (holding_append _ (chains ++ chain) chain next w1 r1 c1 H) as (added & -> & H1 & _);
    [apply elem_of_app; left; by eapply Hl, find_subject_elem|exact Ea|].
  rewrite <- app_assoc in H1. destruct r1; [by eapply IH|by injection E as <- <- <-].
Qed.

Lemma holding_auto_append w chains chain links w' r chain' : holding w (chains ++ chain) -> (forall l, l ∈ links -> l ∈ chains) ->
  x509_auto_append allocate fuel w chain links = Some (w', r, chain') -> holding w' (chains ++ chain').
Proof.
  intros H Hl E. unfold x509_auto_append in E. destruct (last chain) as [l|]; [by eapply holding_auto_loop|by injection E as <- <- <-].
Qed.

Lemma holding_certificates turns : forall w certificates cursor w' r certificates', holding w certificates ->
  certificates_loop allocate zalloc_ok turns w certificates cursor = Some (w', r, certificates') -> holding w' certificates'.
Proof.
  induction turns as [|turns IH]; intros w certificates cursor w' r certificates' H E; cbn [certificates_loop] in E; [done|].
  destruct (_ =? _); [by injection E as <- <- <-|].
  destruct (x509_append_raw _ _ w certificates cursor) as [[[w1 r1] c1]|] eqn:Ea; [|done]. cbn [mbind option_bind] in E.
  pose proof (holding_append_raw w [] certificates cursor w1 r1 c1 H Ea) as H1. destruct r1 as [|e]; [|by injection E as <- <- <-].
  destruct (asn1_skip_any cursor) as [n|]; [|done]. by eapply IH.
Qed.

Lemma find_issuer_serial_elem w certificates name number l :
  cms_find_issuer_serial w certificates name number = Some (Some l) -> l ∈ certificates.
Proof.
  induction certificates as [|x certificates IH]; cbn [cms_find_issuer_serial]; [done|]. destruct (w_certs w !! x) as [cert|]; [|done].
  cbn [mbind option_bind]. destruct (_ && _); [intros [= <-]; set_solver|]. intros H%IH. set_solver.
Qed.

(** [others] are the certificates and the chains of the other signers. *)
Lemma holding_signer_identifier w certificates others info raw w' r info' : (forall l, l ∈ certificates -> l ∈ others) ->
  holding w (others ++ info_chain info) ->
  cms_parse_signer_identifier allocate fuel w certificates info raw = Some (w', r, info') -> holding w' (others ++ info_chain info').
Proof.
  intros Hsub H E. unfold cms_parse_signer_identifier in E.
  destruct (asn1_enter raw ASN1_SEQUENCE) as [p|]; [|done]. cbn [mbind option_bind] in E.
  destruct (asn1_shrink p.2 ASN1_SEQUENCE) as [[[|e] name]|]; cbn [mbind option_bind] in E; [|by injection E as <- <- <-|done].
  destruct (asn1_skip_any p.2) as [n|]; [|done]. cbn [mbind option_bind] in E.
  destruct (asn1_shrink n.2 ASN1_INTEGER) as [[[|e] number]|]; cbn [mbind option_bind] in E; [|by injection E as <- <- <-|done].
  destruct (cms_find_issuer_serial w certificates name number) as [[cert|]|] eqn:Ef; cbn [mbind option_bind] in E; [|by injection E as <- <- <-|done].
  destruct (x509_append allocate w (info_chain info) cert) as [[[w1 r1] c1]|] eqn:Ea; [|done]. cbn [mbind option_bind] in E.
  destruct (holding_append _ (others ++ info_chain info) (info_chain info) cert w1 r1 c1 H) as (added & -> & H1 & _);
    [apply elem_of_app; left; by eapply Hsub, find_issuer_serial_elem|exact Ea|]. rewrite <- app_assoc in H1.
  destruct r1 as [|e]; [|by injection E as <- <- <-].
  destruct (x509_auto_append allocate fuel w1 _ certificates) as [[[w2 r2] c2]|] eqn:Eb; [|done]. cbn in E. injection E as <- <- <-.
  by eapply holding_auto_append.
Qed.

Lemma holding_signer_info w certificates others info raw w' r info' : (forall l, l ∈ certificates -> l ∈ others) ->
  holding w (others ++ info_chain info) ->
  cms_parse_signer_info allocate fuel w certificates info raw = Some (w', r, info') -> holding w' (others ++ info_chain info').
Proof.
  intros Hsub H E. unfold cms_parse_signer_info in E.
  destruct (asn1_enter raw ASN1_SEQUENCE) as [p|]; [|done]. cbn [mbind option_bind] in E.
  destruct (asn1_skip p.2 ASN1_INTEGER) as [p1|]; [|done]. cbn [mbind option_bind] in E.
  destruct (cms_parse_signer_identifier _ _ w certificates info p1.2) as [[[w1 r1] info1]|] eqn:Ei; [|done]. cbn [mbind option_bind] in E.
  pose proof (holding_signer_identifier _ _ _ _ _ _ _ _ Hsub H Ei) as H1. destruct r1 as [|e]; [|by injection E as <- <- <-].
  destruct (asn1_skip_any p1.2) as [p2|]; [|done]. cbn [mbind option_bind] in E.
  unfold cms_parse_digest_algorithm in E. destruct (asn1_digest_algorithm _ _) as [[a|e]|]; cbn [mbind option_bind] in E; [|by injection E as <- <- <-|done].
  destruct (asn1_skip_any p2.2) as [p3|]; [|done]. cbn [mbind option_bind] in E.
  destruct (asn1_skip_if_exists p3.2 _) as [p4|]; [|done]. cbn [mbind option_bind] in E.
  unfold cms_parse_signature_algorithm in E. destruct (asn1_pubkey_algorithm _ _) as [[b|e]|]; cbn [mbind option_bind] in E; [|by injection E as <- <- <-|done].
  destruct (asn1_skip_any p4.2) as [p5|]; [|done]. cbn [mbind option_bind] in E.
  unfold cms_parse_signature_value in E. destruct (asn1_enter p5.2 _) as [[[|e] c]|]; cbn [mbind option_bind] in E; [|by injection E as <- <- <-|done].
  pose proof (holding_alloc w1 _ (cur_len c) H1) as H2. destruct (allocate w1 (cur_len c)) as [w2 [x|]]; by injection E as <- <- <-.
Qed.

(** All the references a signature holds. *)
Definition sig_locs (sig : cms_signature) : list loc := sig_certificates sig ++ mjoin (info_chain <$> sig_info sig).

Lemma holding_info w sig info : holding w (sig_locs sig ++ info_chain info) -> holding w (sig_locs (Signature (sig_certificates sig) (info :: sig_info sig))).
Proof.
  apply holding_perm. unfold sig_locs. cbn [sig_certificates sig_info fmap list_fmap mjoin list_join]. rewrite <- app_assoc.
  apply Permutation_app_head, Permutation_app_comm.
Qed.

Lemma holding_signer_infos turns : forall w sig cursor w' r sig', holding w (sig_locs sig) ->
  signer_infos_loop allocate fuel turns w sig cursor = Some (w', r, sig') -> holding w' (sig_locs sig').
Proof.
  induction turns as [|turns IH]; intros w sig cursor w' r sig' H E; cbn [signer_infos_loop] in E; [done|].
  destruct (_ =? _); [by injection E as <- <- <-|]. apply (holding_alloc w _ 0) in H.
  destruct (allocate w 0) as [w1 [x|]]; cbn [fst] in H; [|by injection E as <- <- <-]. apply (holding_alloc w1 _ 0) in H.
  set (info := SignerInfo [] None None []) in E.
  assert (forall w, holding w (sig_locs sig) -> holding w (sig_locs sig ++ info_chain info)) as Hi by (intros ? ?; by rewrite app_nil_r).
  destruct (allocate w1 0) as [w2 [y|]]; cbn [fst] in H; [|injection E as <- <- <-; by apply holding_info, Hi].
  destruct (cms_parse_signer_info _ _ w2 _ info cursor) as [[[w3 r3] info3]|] eqn:Ep; [|done]. cbn [mbind option_bind] in E.
  assert (forall l, l ∈ sig_certificates sig -> l ∈ sig_locs sig) as Hsub by (intros l Hl; apply elem_of_app; by left).
  pose proof (holding_signer_info _ _ _ _ _ _ _ _ Hsub (Hi _ H) Ep) as H3. apply holding_info in H3.
  destruct r3 as [|e]; [|by injection E as <- <- <-]. destruct (asn1_skip_any cursor) as [n|]; [|done]. by eapply IH.
Qed.

Lemma holding_parse w raw w' r sig' : holding w [] ->
  cms_parse allocate zalloc_ok fuel w (Signature [] []) raw = Some (w', r, sig') -> holding w' (sig_locs sig').
Proof.
  intros H E. unfold cms_parse in E. destruct (asn1_enter raw _) as [p|]; [|done]. cbn [mbind option_bind] in E.
  destruct (cms_parse_content_type p.2) as [[|e]|]; cbn [mbind option_bind] in E; [|by injection E as <- <- <-|done].
  destruct (asn1_skip_any p.2) as [p1|]; [|done]. cbn [mbind option_bind] in E. destruct (asn1_enter p1.2 _) as [p2|]; [|done]. cbn [mbind option_bind] in E.
  destruct (asn1_enter p2.2 _) as [p3|]; [|done]. cbn [mbind option_bind] in E. destruct (asn1_skip p3.2 _) as [p4|]; [|done]. cbn [mbind option_bind] in E.
  destruct (asn1_skip p4.2 _) as [p5|]; [|done]. cbn [mbind option_bind] in E. destruct (asn1_skip p5.2 _) as [p6|]; [|done]. cbn [mbind option_bind] in E.
  destruct (cms_parse_certificates _ _ w _ p6.2) as [[[w1 r1] certs1]|] eqn:Ec; [|done]. cbn [mbind option_bind] in E.
  unfold cms_parse_certificates in Ec. destruct (asn1_enter p6.2 _) as [q|]; [|done]. cbn [mbind option_bind] in Ec.
  pose proof (holding_certificates _ _ _ _ _ _ _ H Ec) as H1. rewrite <- (app_nil_r certs1) in H1. change (holding w1 (sig_locs (Signature certs1 []))) in H1.
  destruct r1 as [|e]; [|by injection E as <- <- <-]. destruct (asn1_skip_any p6.2) as [p7|]; [|done]. cbn [mbind option_bind] in E.
  destruct (asn1_skip_if_exists p7.2 _) as [p8|]; [|done]. cbn [mbind option_bind] in E. destruct (asn1_enter p8.2 _) as [p9|]; [|done]. cbn [mbind option_bind] in E.
  by eapply holding_signer_infos.
Qed.

Lemma holding_free_infos infos : forall w chains, holding w (chains ++ mjoin (info_chain <$> infos)) ->
  exists w', free_infos w infos = Some w' /\ holding w' chains.
Proof.
  induction infos as [|info infos IH]; intros w chains H; cbn [free_infos]; [exists w; by rewrite app_nil_r in H|].
  destruct (holding_free_chain (info_chain info) w (chains ++ mjoin (info_chain <$> infos))) as (w1 & -> & H1).
  { eapply holding_perm; [|exact H]. rewrite <- app_assoc. apply Permutation_app_head. apply Permutation_app_comm. }
  cbn [mbind option_bind]. by apply IH.
Qed.

Lemma holding_free w sig : holding w (sig_locs sig) -> exists w', cms_free w sig = Some w' /\ holding w' [].
Proof.
  intros H. unfold cms_free. destruct (holding_free_infos _ _ _ H) as (w1 & -> & H1). cbn [mbind option_bind].
  by apply (holding_free_chain (sig_certificates sig) w1 []).
Qed.

Lemma holding_create w data w' r : holding w [] -> cms_signature_create allocate zalloc_ok fuel w data = Some (w', r) ->
  match r with inl sig => holding w' (sig_locs sig) | inr _ => holding w' [] end.
Proof.
  intros H E. unfold cms_signature_create in E. apply (holding_alloc w _ 0) in H.
  destruct (allocate w 0) as [w1 [x|]]; cbn [fst] in H; [|by injection E as <- <-]. apply (holding_alloc w1 _ 0) in H.
  destruct (allocate w1 0) as [w2 [y|]]; cbn [fst] in H; [|by injection E as <- <-].
  destruct (asn1_shrink_any data) as [p|]; [|done]. cbn [mbind option_bind] in E.
  destruct (cms_parse _ _ _ w2 _ p.2) as [[[w3 r3] sig3]|] eqn:Ep; [|done]. cbn [mbind option_bind] in E.
  pose proof (holding_parse _ _ _ _ _ H Ep) as H3. destruct r3 as [|e]; [by injection E as <- <-|].
  destruct (holding_free w3 sig3 H3) as (w4 & E4 & H4). rewrite E4 in E. by injection E as <- <-.
Qed.
End References.

(** The signature of data, as that of a certificate in [X509Chain]. *)
Lemma verify_digest_exact malloc stack info cert data digest hash prefix algorithm n e :
  stack_ok stack -> info_digest info = Some digest -> info_pubkey info = Some rsa_ref -> hash_of digest = Some hash ->
  rsa_find_prefix digest = Some prefix -> zlen data < MD_LIMIT ->
  contents (pk_raw (public_key (subject cert))) = der_public_key algorithm n e -> minimal n -> minimal e ->
  zlen (der_public_key algorithm n e) < 2 ^ 30 -> malloc_gives malloc (zlen n) (zlen e) ->
  zlen prefix + digestsize (digest_of digest) + 11 <= zlen n -> bytes_ok (info_signature info) -> zlen (info_signature info) = zlen n ->
  cms_verify_digest malloc stack info cert data
  = Some (if bool_decide (be_val (info_signature info) ^ be_val e mod be_val n = be_val (encoded_digest (zlen n) prefix (hash data)))
          then RC_OK else RC_ERR EACCES_VERIFY).
Proof.
  intros Hst Ed Epk Eh Epre Ld Ekey Hn He Lkey Hm Lv Hs Ls. unfold cms_verify_digest. rewrite Ed, Epk. cbn [mbind option_bind].
  rewrite (cms_digest_hash stack digest hash data Hst Eh Ld). cbn [mbind option_bind].
  destruct (digest_once_hash stack digest hash data Hst Eh Ld) as (_ & Hb & Lh).
  destruct (rsa_init_public malloc algorithm n e Hn He Lkey Hm) as (public & Ei & Hp & Lp & _). rewrite Ekey, Ei. cbn [mbind option_bind].
  pose proof (minimal_value n Hn).
  destruct (rsa_verify_spec public (be_val n) (be_val e) digest prefix (hash data) (info_signature info)) as (public' & _ & Ev);
    [done|rewrite Lp; lia|done|lia|done|lia|]. rewrite Ev, Lp. done.
Qed.

(** ** Theorems. *)


(** Whatever the data, parsing a signature gives back every reference
    it took when it fails; when it succeeds the signature holds one
    reference for each entry of its chains, and freeing it gives back
    exactly those.  The worlds in between are reachable, so their valid
    certificates have paths to roots. *)
Theorem cms_references allocate zalloc_ok malloc stack roots calls fuel held w data w' r `{!Allocates allocate} :
  reachable allocate zalloc_ok malloc stack roots calls w held ->
  cms_signature_create allocate zalloc_ok fuel w data = Some (w', r) ->
  match r with
  | inl sig => reachable allocate zalloc_ok malloc stack roots calls w' (add_all held (sig_locs sig)) /\
      exists w'', cms_free w' sig = Some w'' /\ reachable allocate zalloc_ok malloc stack roots calls w'' held
  | inr _ => reachable allocate zalloc_ok malloc stack roots calls w' held
  end.
Proof.
  intros Hr E. pose proof (holding_create allocate zalloc_ok malloc stack roots calls fuel held w data w' r Hr E) as H.
  destruct r as [sig|e]; [|exact H]. split; [exact H|]. exact (holding_free allocate zalloc_ok malloc stack roots calls held w' sig H).
Qed.

(** A certificate whose common name continues after a zero byte passes for
    the name before it. *)
Lemma name_cut_at_zero certs chain l cert name rest : head chain = Some l -> certs !! l = Some cert -> cstring name ->
  subject_name (subject cert) = Some (name ++ 0 :: rest) -> name_matches certs chain (Some name) = Some true.
Proof.
  intros Hl Ec Hn Es. unfold name_matches. rewrite Hl. cbn [mbind option_bind]. rewrite Ec. cbn [mbind option_bind]. rewrite Es.
  assert (until_nul (name ++ 0 :: rest) = name) as ->.
  { clear -Hn. induction Hn as [|b name Hb _ IH]; [done|]. cbn [app until_nul]. unfold is_char in Hb. destruct (Z.eqb_spec b 0); [lia|]. by rewrite IH. }
  by rewrite (proj2 (strcmp_eq name name Hn Hn) eq_refl).
Qed.

(** ** Examples. *)

(** A signature with one certificate and one signer. *)
Definition example_cms : list Z :=
  asn1_object ASN1_SEQUENCE
    (asn1_object ASN1_OID ASN1_OID_SIGNEDDATA ++
     asn1_object (ASN1_EXPLICIT_TAG 0) (asn1_object ASN1_SEQUENCE
       (asn1_object ASN1_INTEGER [1] ++ asn1_object ASN1_SET [] ++ asn1_object ASN1_SEQUENCE [] ++
        asn1_object (ASN1_EXPLICIT_TAG 0) (der_certificate example_info) ++
        asn1_object ASN1_SET (asn1_object ASN1_SEQUENCE
          (asn1_object ASN1_INTEGER [1] ++
           asn1_object ASN1_SEQUENCE (der_name (i_issuer example_info) ++ asn1_object ASN1_INTEGER (i_serial example_info)) ++
           der_algorithm ASN1_OID_MD5 ++ der_algorithm ASN1_OID_RSAENCRYPTION ++ asn1_object ASN1_OCTET_STRING [5; 6]))))).

Definition example_parsed : cms_signature := Signature [0%nat] [SignerInfo [0%nat] (Some md5_ref) (Some rsa_ref) [5; 6]].

Lemma example_parses : exists w,
  cms_signature_create bump_allocate (fun _ => true) 10 (World ∅ ∅ []) (covering example_cms []) = Some (w, inl example_parsed).
Proof. eexists. vm_compute. reflexivity. Qed.

Lemma cms_references_witness : exists w' w'',
  cms_signature_create bump_allocate (fun _ => true) 10 (World ∅ ∅ []) (covering example_cms []) = Some (w', inl example_parsed) /\
  cms_free w' example_parsed = Some w'' /\
  reachable bump_allocate (fun _ => true) key_malloc example_stack example_roots (fun _ _ => True) w'' (fun _ => 0%nat).
Proof.
  destruct example_parses as (w & E). exists w.
  destruct (cms_references bump_allocate (fun _ => true) key_malloc example_stack example_roots (fun _ _ => True) 10 (fun _ => 0%nat)
    (World ∅ ∅ []) (covering example_cms []) w (inl example_parsed) (reach_start _ _ _ _ _ _) E) as (_ & w'' & Ef & Hr).
  exists w''. exact (conj E (conj Ef Hr)).
Defined.

(** The leaf of the example of [X509Chain] signs the bytes it is signed over. *)
Definition example_signer : cms_signer_info := SignerInfo [0%nat; 1%nat] (Some md5_ref) (Some rsa_ref) example_signature.

Lemma example_stack_ok : stack_ok example_stack.
Proof. unfold stack_ok. splits; reflexivity. Qed.

Lemma example_digest_verified cert : public_key (subject cert) = public_key (subject example_root_cert) ->
  cms_verify_digest key_malloc example_stack example_signer cert [1; 2; 3] = Some RC_OK.
Proof.
  intros Ek. rewrite (verify_digest_exact key_malloc example_stack example_signer cert [1; 2; 3] md5_ref (md_hash Md5.md5)
    (RSA_DIGESTINFO_PREFIX 16 ASN1_OID_MD5) ASN1_OID_RSAENCRYPTION key_n key_e).
  - cbn [info_signature example_signer]. rewrite example_power, bool_decide_eq_true_2; reflexivity.
  - exact example_stack_ok.
  - reflexivity.
  - reflexivity.
  - reflexivity.
  - reflexivity.
  - reflexivity.
  - rewrite Ek. cbn [public_key subject example_root_cert example_cert pk_raw]. rewrite <- (app_nil_r example_key) at 1. apply contents_covering.
  - exact (proj1 key_minimal).
  - exact (proj1 (proj2 key_minimal)).
  - exact (proj1 (proj2 key_lengths)).
  - apply key_malloc_gives.
  - exact (proj1 example_lengths).
  - exact (proj1 (proj2 example_lengths)).
  - exact (proj2 (proj2 example_lengths)).
Qed.

Lemma one_signer_accepted malloc stack roots certs info data time root certs' l cert :
  x509_validate_chain malloc stack roots certs (info_chain info) time root = Some (RC_OK, certs') ->
  head (info_chain info) = Some l -> certs' !! l = Some cert ->
  Z.testbit (usage_bits (extensions cert)) 7 = true -> Z.testbit (ext_usage_bits (extensions cert)) 0 = true ->
  cms_verify_digest malloc stack info cert data = Some RC_OK ->
  cms_verify malloc stack roots certs (Signature [] [info]) data None time root = Some (RC_OK, certs').
Proof.
  intros E Hl Ec Hu Hx Ed. unfold cms_verify. cbn [verify_infos sig_info name_matches mbind option_bind]. unfold cms_verify_signer_info.
  rewrite E. cbn [mbind option_bind]. rewrite Hl. cbn [mbind option_bind]. rewrite Ec. cbn [mbind option_bind].
  change X509_DIGITAL_SIGNATURE with (2 ^ 7). change X509_CODE_SIGNING with (2 ^ 0). rewrite !low_bit, Hu, Hx by done. cbn [negb].
  by rewrite Ed.
Qed.

Lemma example_accepted : exists certs',
  cms_verify key_malloc example_stack example_roots example_store (Signature [] [example_signer]) [1; 2; 3] None example_time None = Some (RC_OK, certs').
Proof.
  destruct example_validates as (certs' & Ev). exists certs'.
  destruct (chain_sound _ _ _ _ _ _ _ _ _ _ example_store_ok (conj eq_refl eq_refl) example_time_ok Ev) as (_ & Eid & _).
  destruct (identity_lookup example_store certs' 0%nat example_leaf Eid eq_refl) as (cert & Ec & Ei).
  assert (extensions cert = Extensions 0 0 true 0x84 1 None false) as Ee by exact (f_equal extensions Ei).
  apply (one_signer_accepted _ _ _ _ example_signer _ _ _ _ 0%nat cert Ev eq_refl Ec); [by rewrite Ee|by rewrite Ee|].
  apply example_digest_verified. exact (f_equal (fun c => public_key (subject c)) Ei).
Qed.

