(* ===== verification/Ocsp.v ===== *)
(** * Certificate status: OCSP (crypto/ocsp.c).

    A check holds references to a certificate and its issuer, the request
    it built and what it has parsed of the last response, with the
    certificate of the signer in the world of [X509Cache].  Each
    allocation is a call of the allocation function; [fresh] is what a
    new block holds.  A NULL signer that is used is a fault ([None]).

    The theorems: a certificate is marked as good only with a response
    signed by its issuer, or by a certificate with the OCSP signing
    purpose that this issuer has signed, at a time for which the response
    is meant; the request is the one RFC 2560 prescribes and the URI
    carries exactly it; a response as RFC 2560 lays it out is parsed into
    its fields, and refused with the error of its defect; the references
    of a check are given back. *)

From stdpp Require Import gmap.
From S2P Require Import Prelude Strings Printf Uri Codec Asn1 Time Digest Sha Rsa X509 X509Der X509Chain X509Cache Cms.

Definition OCSP_ALGORITHM_IDENTIFIER (oid : list Z) : list Z := ASN1_OID :: zlen oid :: oid ++ [ASN1_NULL; 0].
Definition ocsp_algorithm_id : list Z := OCSP_ALGORITHM_IDENTIFIER ASN1_OID_SHA1.
Definition oid_basic_response_type : list Z := oid_pkix ++ [48; 1; 1].
Definition OCSP_STATUS_SUCCESSFUL : Z := 0.

Record ocsp_request_t := OcspRequest { req_builder : asn1_builder; req_cert_id : asn1_cursor }.

Record ocsp_response_t := OcspResponse {
  resp_data : option (list Z);
  resp_tbs : asn1_cursor;
  this_update : Z;
  next_update : Z;
  resp_algorithm : option algorithm;
  resp_signature : asn1_bit_string_t;
  resp_signer : option loc;
}.

Record ocsp_check_t := OcspCheck {
  oc_cert : loc;
  oc_issuer : loc;
  oc_uri_string : option (list Z);
  oc_request : ocsp_request_t;
  oc_response : ocsp_response_t;
}.

(** What [zalloc] leaves. *)
Definition null_request : ocsp_request_t := OcspRequest (Builder None 0) null_cursor.
Definition null_response : ocsp_response_t := OcspResponse None null_cursor 0 0 None (BitString [] 0 0) None.

Definition set_data x r := OcspResponse x (resp_tbs r) (this_update r) (next_update r) (resp_algorithm r) (resp_signature r) (resp_signer r).
Definition set_tbs x r := OcspResponse (resp_data r) x (this_update r) (next_update r) (resp_algorithm r) (resp_signature r) (resp_signer r).
Definition set_this_update x r := OcspResponse (resp_data r) (resp_tbs r) x (next_update r) (resp_algorithm r) (resp_signature r) (resp_signer r).
Definition set_next_update x r := OcspResponse (resp_data r) (resp_tbs r) (this_update r) x (resp_algorithm r) (resp_signature r) (resp_signer r).
Definition set_algorithm x r := OcspResponse (resp_data r) (resp_tbs r) (this_update r) (next_update r) x (resp_signature r) (resp_signer r).
Definition set_signature x r := OcspResponse (resp_data r) (resp_tbs r) (this_update r) (next_update r) (resp_algorithm r) x (resp_signer r).
Definition set_signer x r := OcspResponse (resp_data r) (resp_tbs r) (this_update r) (next_update r) (resp_algorithm r) (resp_signature r) x.

(** ** The request. *)

Section Request.
Variable allocate : x509_world -> Z -> x509_world * option loc.
Variable stack : forall d : digest_ref, dg_ctx (digest_of d).
Variable fresh : Z -> list Z.

(** One call that grows the builder.  A builder that has lost its data
    does not ask for memory any more. *)
Definition grow_step (w : x509_world) (builder : asn1_builder) (step : asn1_builder -> bool -> rc * asn1_builder) :
    x509_world * rc * asn1_builder :=
  match step builder true with
  | (RC_ERR e, builder') => (w, RC_ERR e, builder')
  | (RC_OK, grown) =>
      let '(w, block) := allocate w (b_len grown) in
      let '(rc, builder) := step builder (bool_decide (is_Some block)) in
      (w, rc, builder)
  end.

(** Calls joined by the comma operator: the status is that of the last one. *)
Fixpoint comma_steps (w : x509_world) (builder : asn1_builder) (steps : list (asn1_builder -> bool -> rc * asn1_builder)) (status : rc) :
    x509_world * rc * asn1_builder :=
  match steps with
  | [] => (w, status, builder)
  | step :: steps' => let '(w, rc, builder) := grow_step w builder step in comma_steps w builder steps' rc
  end.

Definition request_steps (number pubkey_digest name_digest : list Z) : list (asn1_builder -> bool -> rc * asn1_builder) :=
  [fun b ok => asn1_prepend_raw b ok number;
   fun b ok => asn1_prepend b ok ASN1_OCTET_STRING pubkey_digest;
   fun b ok => asn1_prepend b ok ASN1_OCTET_STRING name_digest;
   fun b ok => asn1_prepend b ok ASN1_SEQUENCE ocsp_algorithm_id;
   fun b ok => asn1_wrap b ok ASN1_SEQUENCE;
   fun b ok => asn1_wrap b ok ASN1_SEQUENCE;
   fun b ok => asn1_wrap b ok ASN1_SEQUENCE;
   fun b ok => asn1_wrap b ok ASN1_SEQUENCE;
   fun b ok => asn1_wrap b ok ASN1_SEQUENCE].

Definition ocsp_request (w : x509_world) (cert iss : x509_certificate) (request : ocsp_request_t) :
    option (x509_world * rc * ocsp_request_t) :=
  let digest := digest_of sha1_ref in
  n ← digest_final digest (digest_update digest (digest_init digest (stack sha1_ref)) (contents (issuer cert)));
  let key := pk_bits (public_key (subject iss)) in
  k ← digest_final digest (digest_update digest (digest_init digest n.1) (take (Z.to_nat (bits_len key)) (bits_data key)));
  let '(w, rc, builder) := comma_steps w (req_builder request) (request_steps (contents (serial cert)) k.2 n.2) RC_OK in
  match rc with
  | RC_ERR e => Some (w, RC_ERR e, OcspRequest builder (req_cert_id request))
  | RC_OK =>
      data ← b_data builder;
      p ← asn1_enter (Cursor data (b_len builder)) ASN1_SEQUENCE;
      p ← asn1_enter p.2 ASN1_SEQUENCE;
      p ← asn1_enter p.2 ASN1_SEQUENCE;
      p ← asn1_enter p.2 ASN1_SEQUENCE;
      Some (w, p.1, OcspRequest builder p.2)
  end.

(** [stores] writes at an offset and fails outside the buffer. *)
Definition ocsp_uri_string (w : x509_world) (cert : x509_certificate) (request : ocsp_request_t) : option (x509_world * result (list Z)) :=
  match ocsp_uri (extensions cert) with
  | None => Some (w, inr ENOTTY)
  | Some uri =>
      let base_uri_string := until_nul uri in
      let base64_request_len := base64_encoded_len (b_len (req_builder request)) + 1 in
      let '(w, block) := allocate w base64_request_len in
      match block with
      | None => Some (w, inr ENOMEM)
      | Some _ =>
          data ← b_data (req_builder request);
          base64_request ← base64_encode (take (Z.to_nat (b_len (req_builder request))) data) (fresh base64_request_len);
          let encoded := uri_encode (until_nul base64_request) URI_FRAGMENT in
          let uri_string_len := zlen base_uri_string + 1 + zlen encoded + 1 in
          let '(w, block) := allocate w uri_string_len in
          match block with
          | None => Some (w, inr ENOMEM)
          | Some _ =>
              p ← vsnprintf (fresh uri_string_len) uri_string_len (cstr "%s/") [ArgStr (Some base_uri_string)];
              uri_string ← stores p.1 (Z.to_nat p.2) (encoded ++ [0]);
              Some (w, inl uri_string)
          end
      end
  end.

(** A NULL signer holds no reference. *)
Definition put_signer (w : x509_world) (signer : option loc) : option x509_world :=
  match signer with None => Some w | Some l => x509_put w l end.

Definition ocsp_free (w : x509_world) (ocsp : ocsp_check_t) : option x509_world :=
  w ← x509_put w (oc_cert ocsp);
  w ← x509_put w (oc_issuer ocsp);
  put_signer w (resp_signer (oc_response ocsp)).

Definition ocsp_check (w : x509_world) (cert iss : loc) : option (x509_world * result ocsp_check_t) :=
  let '(w, block) := allocate w 0 in
  match block with
  | None => Some (w, inr ENOMEM)
  | Some _ =>
      w ← x509_get w cert;
      w ← x509_get w iss;
      c ← w_certs w !! cert;
      i ← w_certs w !! iss;
      q ← ocsp_request w c i null_request;
      let '(w, rc, request) := q in
      match rc with
      | RC_ERR e => w ← ocsp_free w (OcspCheck cert iss None request null_response); Some (w, inr e)
      | RC_OK =>
          u ← ocsp_uri_string w c request;
          match u with
          | (w, inr e) => w ← ocsp_free w (OcspCheck cert iss None request null_response); Some (w, inr e)
          | (w, inl uri_string) => Some (w, inl (OcspCheck cert iss (Some uri_string) request null_response))
          end
      end
  end.
End Request.

(** ** The response. *)

(** [EPROTO_STATUS] is returned without a minus sign, unlike every other
    error; it is not zero either way. *)
Definition ocsp_parse_response_status (raw : asn1_cursor) : option rc :=
  p ← asn1_enter raw ASN1_ENUMERATED;
  match p with
  | (RC_ERR e, _) => Some (RC_ERR e)
  | (RC_OK, cursor) =>
      if negb (cur_len cursor =? 1) then Some (RC_ERR EINVAL)
      else
        status ← head (cur_data cursor);
        Some (if negb (status =? OCSP_STATUS_SUCCESSFUL) then RC_ERR (EPROTO_STATUS status) else RC_OK)
  end.

Definition ocsp_parse_response_type (raw : asn1_cursor) : option rc :=
  p ← asn1_enter raw ASN1_OID;
  Some (if negb (asn1_compare_eq (oid_cursor oid_basic_response_type) p.2) then RC_ERR ENOTSUP else RC_OK).

Definition ocsp_parse_cert_id (request : ocsp_request_t) (raw : asn1_cursor) : option rc :=
  p ← asn1_shrink_any raw;
  Some (if negb (asn1_compare_eq p.2 (req_cert_id request)) then RC_ERR EACCES_CERT_MISMATCH else RC_OK).

Section Response.
Variable allocate : x509_world -> Z -> x509_world * option loc.
Variable zalloc_ok : Z -> bool.
(** [time ( NULL )] *)
Variable now : Z.
Variable request : ocsp_request_t.

Definition ocsp_parse_responses (response : ocsp_response_t) (raw : asn1_cursor) : option (rc * ocsp_response_t) :=
  p ← asn1_enter raw ASN1_SEQUENCE;
  p ← asn1_enter p.2 ASN1_SEQUENCE;
  id ← ocsp_parse_cert_id request p.2;
  match id with
  | RC_ERR e => Some (RC_ERR e, response)
  | RC_OK =>
      p ← asn1_skip_any p.2;
      status ← asn1_type p.2;
      if negb (status =? ASN1_IMPLICIT_TAG 0) then Some (RC_ERR EACCES_CERT_STATUS, response)
      else
        p ← asn1_skip_any p.2;
        t ← asn1_generalized_time p.2;
        match t with
        | inr e => Some (RC_ERR e, response)
        | inl time =>
            let response := set_this_update time response in
            p ← asn1_skip_any p.2;
            type ← asn1_type p.2;
            if type =? ASN1_EXPLICIT_TAG 0 then
              p ← asn1_enter p.2 (ASN1_EXPLICIT_TAG 0);
              t ← asn1_generalized_time p.2;
              match t with
              | inr e => Some (RC_ERR e, response)
              | inl time => Some (RC_OK, set_next_update time response)
              end
            else Some (RC_OK, set_next_update now response)
        end
  end.

Definition ocsp_parse_tbs_response_data (response : ocsp_response_t) (raw : asn1_cursor) : option (rc * ocsp_response_t) :=
  p ← asn1_shrink_any raw;
  let response := set_tbs p.2 response in
  p ← asn1_enter p.2 ASN1_SEQUENCE;
  p ← asn1_skip_if_exists p.2 (ASN1_EXPLICIT_TAG 0);
  p ← asn1_skip_any p.2;
  p ← asn1_skip_any p.2;
  ocsp_parse_responses response p.2.

Definition ocsp_parse_certs (w : x509_world) (response : ocsp_response_t) (raw : asn1_cursor) : option (x509_world * rc * ocsp_response_t) :=
  p ← asn1_enter raw (ASN1_EXPLICIT_TAG 0);
  p ← asn1_enter p.2 ASN1_SEQUENCE;
  if cur_len p.2 =? 0 then Some (w, RC_OK, response)
  else
    c ← x509_certificate_create allocate zalloc_ok w p.2;
    match c with
    | (w, inr e) => Some (w, RC_ERR e, response)
    | (w, inl signer) => Some (w, RC_OK, set_signer (Some signer) response)
    end.

Definition ocsp_parse_basic_response (w : x509_world) (response : ocsp_response_t) (raw : asn1_cursor) :
    option (x509_world * rc * ocsp_response_t) :=
  p ← asn1_enter raw ASN1_SEQUENCE;
  d ← ocsp_parse_tbs_response_data response p.2;
  match d with
  | (RC_ERR e, response) => Some (w, RC_ERR e, response)
  | (RC_OK, response) =>
      p ← asn1_skip_any p.2;
      a ← asn1_signature_algorithm ASN1_ALGORITHMS p.2;
      match a with
      | inr e => Some (w, RC_ERR e, response)
      | inl algorithm =>
          let response := set_algorithm (Some algorithm) response in
          p ← asn1_skip_any p.2;
          s ← asn1_integral_bit_string p.2;
          match s with
          | inr e => Some (w, RC_ERR e, response)
          | inl signature =>
              let response := set_signature signature response in
              p ← asn1_skip_any p.2;
              type ← asn1_type p.2;
              if type =? ASN1_EXPLICIT_TAG 0 then ocsp_parse_certs w response p.2 else Some (w, RC_OK, response)
          end
      end
  end.

Definition ocsp_parse_response_bytes (w : x509_world) (response : ocsp_response_t) (raw : asn1_cursor) :
    option (x509_world * rc * ocsp_response_t) :=
  p ← asn1_enter raw (ASN1_EXPLICIT_TAG 0);
  p ← asn1_enter p.2 ASN1_SEQUENCE;
  t ← ocsp_parse_response_type p.2;
  match t with
  | RC_ERR e => Some (w, RC_ERR e, response)
  | RC_OK =>
      p ← asn1_skip_any p.2;
      p ← asn1_enter p.2 ASN1_OCTET_STRING;
      ocsp_parse_basic_response w response p.2
  end.

Definition ocsp_parse_response (w : x509_world) (response : ocsp_response_t) (raw : asn1_cursor) : option (x509_world * rc * ocsp_response_t) :=
  p ← asn1_enter raw ASN1_SEQUENCE;
  s ← ocsp_parse_response_status p.2;
  match s with
  | RC_ERR e => Some (w, RC_ERR e, response)
  | RC_OK => p ← asn1_skip_any p.2; ocsp_parse_response_bytes w response p.2
  end.

(** The function ocsp_response(). *)
Definition ocsp_response_received (w : x509_world) (response : ocsp_response_t) (data : list Z) : option (x509_world * rc * ocsp_response_t) :=
  w ← put_signer w (resp_signer response);
  let '(w, block) := allocate w (zlen data) in
  match block with
  | None => Some (w, RC_ERR ENOMEM, set_data None (set_signer None response))
  | Some _ => ocsp_parse_response w (set_data (Some data) (set_signer None response)) (Cursor data (zlen data))
  end.
End Response.

(** ** Validation. *)

Definition ocsp_root : x509_root := Root sha1_ref 0 [].

Section Validate.
Variable malloc : Z -> Z -> option (list Z).
Variable stack : forall d : digest_ref, dg_ctx (digest_of d).
Variable root_certificates : x509_root.

Definition signature_bytes (response : ocsp_response_t) : list Z :=
  take (Z.to_nat (bits_len (resp_signature response))) (bits_data (resp_signature response)).

Definition ocsp_check_signature (response : ocsp_response_t) (signer : x509_certificate) : option rc :=
  a ← resp_algorithm response;
  digest ← alg_digest a;
  pubkey ← alg_pubkey a;
  digest_out ← digest_once stack digest (contents (resp_tbs response));
  r ← rsa_init malloc (contents (pk_raw (public_key (subject signer))));
  match r with
  | inr e => Some (RC_ERR e)
  | inl pubkey_ctx => v ← rsa_verify pubkey_ctx digest digest_out (signature_bytes response); Some v.2
  end.

(** The checks of a signer that is not the issuer. *)
Definition ocsp_validate_signer (certs : certificates) (signer iss : loc) (time : Z) : option (rc * certificates) :=
  certs ← x509_invalidate certs signer;
  p ← validate_at malloc stack root_certificates certs signer (Some iss) time (Some ocsp_root);
  match p with
  | (RC_ERR e, certs) => Some (RC_ERR e, certs)
  | (RC_OK, certs) =>
      cert ← certs !! signer;
      Some (if ctrue (Z.land (ext_usage_bits (extensions cert)) X509_OCSP_SIGNING) then RC_OK else RC_ERR EACCES_NON_OCSP_SIGNING, certs)
  end.

Definition ocsp_validate (certs : certificates) (ocsp : ocsp_check_t) (time : Z) : option (rc * certificates) :=
  let response := oc_response ocsp in
  signer ← resp_signer response;
  p ← if (signer =? oc_issuer ocsp)%nat then Some (RC_OK, certs) else ocsp_validate_signer certs signer (oc_issuer ocsp) time;
  match p with
  | (RC_ERR e, certs) => Some (RC_ERR e, certs)
  | (RC_OK, certs) =>
      cert ← certs !! signer;
      s ← ocsp_check_signature response cert;
      match s with
      | RC_ERR e => Some (RC_ERR e, certs)
      | RC_OK =>
          if signed 64 (time + X509_ERROR_MARGIN_TIME) <? this_update response then Some (RC_ERR EACCES_STALE, certs)
          else if next_update response <? signed 64 (time - X509_ERROR_MARGIN_TIME) then Some (RC_ERR EACCES_STALE, certs)
          else
            certs ← ocsp_mark_good certs (oc_cert ocsp);
            validate_at malloc stack root_certificates certs (oc_cert ocsp) (Some (oc_issuer ocsp)) time (Some ocsp_root)
      end
  end.
End Validate.

(** ** Evidence of a status. *)

Section Sound.
Variable malloc : Z -> Z -> option (list Z).
Variable stack : forall d : digest_ref, dg_ctx (digest_of d).
Variable roots : x509_root.
Variable calls : Z -> x509_root -> Prop.

(** The response carries a signature of its data by the key of a certificate. *)
Definition signed_with (response : ocsp_response_t) (cert : x509_certificate) : Prop :=
  exists a digest hash ctx ctx', resp_algorithm response = Some a /\ alg_digest a = Some digest /\ hash_of digest = Some hash /\
    rsa_init malloc (contents (pk_raw (public_key (subject cert)))) = Some (inl ctx) /\
    rsa_verify ctx digest (hash (contents (resp_tbs response))) (signature_bytes response) = Some (ctx', RC_OK).

(** RFC 2560, 4.2.2.2: the issuer itself, or a certificate of the issuer
    for this purpose. *)
Definition responder_ok (certs : certificates) (signer iss : loc) (time : Z) (cert : x509_certificate) : Prop :=
  certs !! signer = Some cert /\
  (signer = iss \/ exists i, certs !! iss = Some i /\ valid i = true /\ issued_by malloc stack cert i /\ in_time cert time /\ ocsp_ok cert /\
    Z.testbit (ext_usage_bits (extensions cert)) 1 = true).

Definition in_update (response : ocsp_response_t) (time : Z) : Prop :=
  this_update response <= time + X509_ERROR_MARGIN_TIME /\ time - X509_ERROR_MARGIN_TIME <= next_update response.

Definition status_ok (certs : certificates) (ocsp : ocsp_check_t) (time : Z) : Prop :=
  exists signer cert, resp_signer (oc_response ocsp) = Some signer /\ responder_ok certs signer (oc_issuer ocsp) time cert /\
    signed_with (oc_response ocsp) cert /\ in_update (oc_response ocsp) time.

Lemma no_root cert : x509_check_root stack cert ocsp_root <> Some RC_OK.
Proof. unfold x509_check_root. destruct (x509_fingerprint stack cert _); by cbn. Qed.

(** Without roots a certificate becomes valid only by its issuer. *)
Lemma validate_by_issuer cert iss time cert' : valid cert = false -> time_range time ->
  x509_validate malloc stack roots cert iss time (Some ocsp_root) = Some (RC_OK, cert') ->
  exists i, iss = Some i /\ valid i = true /\ issued_by malloc stack cert i /\ in_time cert time /\ ocsp_ok cert.
Proof.
  intros Hv Ht E. unfold x509_validate in E. cbn zeta in E. rewrite Hv, check_time_spec in E by done. case_bool_decide as Htime; [|done].
  cbn [default] in E. destruct (x509_check_root stack cert _) as [[|e]|] eqn:Er; [by apply no_root in Er| |done]. cbn [mbind option_bind] in E.
  destruct iss as [i|]; [|done]. destruct (valid i) eqn:Ei; [|done]. cbn [negb] in E.
  destruct (x509_check_issuer malloc stack cert i) as [[|e']|] eqn:Eis; [|done..]. cbn [mbind option_bind] in E.
  destruct (path_remaining i =? 0); [done|]. exists i. splits; [done|done|by apply issuer_accepted|done|].
  unfold ocsp_ok. case_bool_decide as Hu; cbn [andb] in E; [|left; by destruct (ocsp_uri (extensions cert))].
  right. by destruct (ocsp_good (extensions cert)).
Qed.

Hypothesis Hstack : stack_ok stack.
Variable time : Z.
Hypothesis Hcalls : calls time ocsp_root.
Hypothesis Htime : time_range time.

Lemma check_signature_ok response cert : zlen (contents (resp_tbs response)) < MD_LIMIT ->
  ocsp_check_signature malloc stack response cert = Some RC_OK -> signed_with response cert.
Proof.
  intros L. unfold ocsp_check_signature. destruct (resp_algorithm response) as [a|] eqn:Ea; [|done]. cbn [mbind option_bind].
  destruct (alg_digest a) as [digest|] eqn:Ed; [|done]. destruct (alg_pubkey a); [|done]. cbn [mbind option_bind].
  destruct (digest_once stack digest _) as [out|] eqn:Eo; [|done]. cbn [mbind option_bind].
  destruct (rsa_init malloc _) as [[ctx|e]|] eqn:Ei; [|done..]. cbn [mbind option_bind].
  destruct (rsa_verify _ _ _ _) as [[ctx' r]|] eqn:Ev; [|done]. cbn. intros [= ->].
  destruct (hash_of digest) as [hash|] eqn:Eh.
  - destruct (digest_once_hash stack digest hash _ Hstack Eh L) as (Eo' & _ & _). rewrite Eo in Eo'. injection Eo' as ->.
    by exists a, digest, hash, ctx, ctx'.
  - destruct digest; try done. by apply null_digest_refused in Ev.
Qed.

Lemma invalidated certs l certs' : x509_invalidate certs l = Some certs' ->
  (exists cert, certs !! l = Some cert /\ certs' !! l = Some (identity cert)) /\ forall l', l' <> l -> certs' !! l' = certs !! l'.
Proof.
  unfold x509_invalidate. destruct (certs !! l) as [cert|] eqn:El; [|done]. cbn. intros [= <-]. split.
  - exists cert. by rewrite lookup_insert_eq.
  - intros l' Hn. by rewrite lookup_insert_ne.
Qed.

Lemma validate_signer_ok certs signer iss r certs' : certs_ok malloc stack calls certs -> signer <> iss ->
  ocsp_validate_signer malloc stack roots certs signer iss time = Some (r, certs') ->
  certs_ok malloc stack calls certs' /\ identity <$> certs' = identity <$> certs /\
  (r = RC_OK -> exists cert, responder_ok certs' signer iss time cert).
Proof.
  intros Hok Hne E. unfold ocsp_validate_signer in E. destruct (x509_invalidate certs signer) as [certs1|] eqn:E1; [|done]. cbn [mbind option_bind] in E.
  destruct (invalidate_ok _ _ _ _ _ _ Hok E1) as [Hok1 Eid1].
  destruct (validate_at _ _ _ certs1 _ _ _ _) as [[r2 certs2]|] eqn:E2; [|done]. cbn [mbind option_bind] in E.
  destruct (validate_at_sound malloc stack roots calls time (Some ocsp_root) Hcalls Htime _ _ _ _ _ Hok1 E2) as (Hok2 & Eid2 & _).
  assert (identity <$> certs2 = identity <$> certs) as Eid by congruence.
  destruct r2 as [|e]; [|by injection E as <- <-].
  destruct (certs2 !! signer) as [c2|] eqn:Ec2; [|done]. cbn in E. injection E as <- <-. splits; [done|done|].
  change X509_OCSP_SIGNING with (2 ^ 1). rewrite low_bit by done. destruct (Z.testbit _ 1) eqn:Eu; [|done]. intros _.
  destruct (invalidated _ _ _ E1) as ((c & Ec & Ec1) & Hrest).
  unfold validate_at in E2. rewrite Ec1 in E2. cbn [mbind option_bind] in E2. destruct (certs1 !! iss) as [i|] eqn:Ei; [|done]. cbn [mbind option_bind] in E2.
  destruct (x509_validate _ _ _ (identity c) _ _ _) as [[r3 c3]|] eqn:E3; [|done]. cbn in E2. injection E2 as -> <-.
  destruct (validate_by_issuer (identity c) (Some i) time c3) as (i' & [= <-] & Hvi & His & Hit & Hoc); [done..|].
  rewrite lookup_insert_eq in Ec2. apply (inj Some) in Ec2 as <-.
  assert (identity c3 = identity (identity c)) as Eic.
  { apply (f_equal (lookup signer)) in Eid2. rewrite !lookup_fmap, lookup_insert_eq, Ec1 in Eid2. by apply (inj Some) in Eid2. }
  exists c3. split; [by rewrite lookup_insert_eq|]. right. exists i. rewrite lookup_insert_ne by done.
  splits; [done|done| | | |done].
  - exact (eq_ind (identity (identity c)) (fun x => issued_by malloc stack x i) His (identity c3) (eq_sym Eic)).
  - exact (eq_ind (identity (identity c)) (fun x => in_time x time) Hit (identity c3) (eq_sym Eic)).
  - exact (eq_ind (identity (identity c)) (fun x => ocsp_ok x) Hoc (identity c3) (eq_sym Eic)).
Qed.

Lemma mark_good_at certs l certs' : ocsp_mark_good certs l = Some certs' ->
  (exists cert, certs' !! l = Some cert /\ ocsp_good (extensions cert) = true) /\ forall l', l' <> l -> certs' !! l' = certs !! l'.
Proof.
  unfold ocsp_mark_good. destruct (certs !! l) as [cert|]; [|done]. cbn. intros [= <-]. split.
  - eexists. split; [apply lookup_insert_eq|done].
  - intros l' Hn. by rewrite lookup_insert_ne.
Qed.

Lemma good_kept (certs certs' : certificates) l c c' : identity <$> certs' = identity <$> certs -> certs !! l = Some c -> certs' !! l = Some c' ->
  ocsp_good (extensions c') = ocsp_good (extensions c).
Proof.
  intros E Ec Ec'. apply (f_equal (lookup l)) in E. rewrite !lookup_fmap, Ec, Ec' in E. apply (inj Some) in E.
  exact (f_equal (fun x => ocsp_good (extensions x)) E).
Qed.

(** The first part of the function, before the certificate is marked. *)
Lemma ocsp_validate_cases certs ocsp r certs' : certs_ok malloc stack calls certs ->
  zlen (contents (resp_tbs (oc_response ocsp))) < MD_LIMIT ->
  ocsp_validate malloc stack roots certs ocsp time = Some (r, certs') ->
  exists certs1, certs_ok malloc stack calls certs1 /\ identity <$> certs1 = identity <$> certs /\
    ((certs' = certs1 /\ r <> RC_OK) \/
     status_ok certs1 ocsp time /\ exists certs2, ocsp_mark_good certs1 (oc_cert ocsp) = Some certs2 /\
       validate_at malloc stack roots certs2 (oc_cert ocsp) (Some (oc_issuer ocsp)) time (Some ocsp_root) = Some (r, certs')).
Proof.
  intros Hok L E. unfold ocsp_validate in E. destruct (resp_signer (oc_response ocsp)) as [signer|] eqn:Es; [|done]. cbn [mbind option_bind] in E.
  assert (exists r1 certs1, (if (signer =? oc_issuer ocsp)%nat then Some (RC_OK, certs) else ocsp_validate_signer malloc stack roots certs signer (oc_issuer ocsp) time)
    = Some (r1, certs1) /\ certs_ok malloc stack calls certs1 /\ identity <$> certs1 = identity <$> certs /\
    (r1 = RC_OK -> forall cert, certs1 !! signer = Some cert -> responder_ok certs1 signer (oc_issuer ocsp) time cert)) as (r1 & certs1 & E1 & Hok1 & Eid1 & Hr).
  { destruct (Nat.eqb_spec signer (oc_issuer ocsp)) as [Heq|Hne].
    - exists RC_OK, certs. splits; [done|done|done|]. intros _ cert Ec. split; [done|by left].
    - destruct (ocsp_validate_signer _ _ _ certs signer _ time) as [[r1 certs1]|] eqn:E1; [|done]. exists r1, certs1.
      destruct (validate_signer_ok _ _ _ _ _ Hok Hne E1) as (Hok1 & Eid1 & Hr). splits; [done|done|done|].
      intros H cert Ec. destruct (Hr H) as (cert' & Hc). destruct Hc as [Ec' Hc]. rewrite Ec in Ec'. apply (inj Some) in Ec' as <-. by split. }
  rewrite E1 in E. cbn [mbind option_bind] in E. exists certs1. split; [done|]. split; [done|].
  destruct r1 as [|e]; [|injection E as <- <-; by left]. destruct (certs1 !! signer) as [cert|] eqn:Ec; [|done]. cbn [mbind option_bind] in E.
  destruct (ocsp_check_signature _ _ _ cert) as [[|e]|] eqn:Esig; [|injection E as <- <-; by left|done]. cbn [mbind option_bind] in E.
  unfold time_range, X509_ERROR_MARGIN_TIME in *. rewrite !s64_id in E by lia.
  destruct (Z.ltb_spec (time + (12 * 60 + 30) * 60) (this_update (oc_response ocsp))); [injection E as <- <-; by left|].
  destruct (Z.ltb_spec (next_update (oc_response ocsp)) (time - (12 * 60 + 30) * 60)); [injection E as <- <-; by left|].
  destruct (ocsp_mark_good certs1 _) as [certs2|] eqn:Eg; [|done]. cbn [mbind option_bind] in E. right. split; [|by exists certs2].
  exists signer, cert. splits; [done|by apply Hr|by apply check_signature_ok|split; unfold X509_ERROR_MARGIN_TIME; lia].
Qed.
End Sound.

(** ** Theorems. *)

(** C5: Whatever a response holds, and whether or not the call succeeds, the
    only certificate that can be newly marked as good is the one that was
    checked, and then the response was signed by the issuer or by a
    certificate for OCSP signing that this issuer signed and that is in
    time, and it is meant for the given time.  After success that holds,
    and the certificate is marked and has a path of signed issuers to a
    trusted root. *)
Theorem ocsp_good_evidence malloc stack roots calls certs ocsp time r certs' :
  stack_ok stack -> certs_ok malloc stack calls certs -> calls time ocsp_root -> time_range time ->
  zlen (contents (resp_tbs (oc_response ocsp))) < MD_LIMIT ->
  ocsp_validate malloc stack roots certs ocsp time = Some (r, certs') ->
  exists certs1, identity <$> certs1 = identity <$> certs /\ certs_ok malloc stack calls certs' /\
    (forall l c c', certs !! l = Some c -> certs' !! l = Some c' -> ocsp_good (extensions c) = false -> ocsp_good (extensions c') = true ->
       l = oc_cert ocsp /\ status_ok malloc stack certs1 ocsp time) /\
    (r = RC_OK -> status_ok malloc stack certs1 ocsp time /\ exists cert path, certs' !! oc_cert ocsp = Some cert /\
       ocsp_good (extensions cert) = true /\ cert_path malloc stack calls (identity cert :: path) /\ path_lengths (identity cert :: path)).
Proof.
  intros Hst Hok Hc Ht L E.
  destruct (ocsp_validate_cases malloc stack roots calls Hst time Hc Ht _ _ _ _ Hok L E) as (certs1 & Hok1 & Eid1 & [[-> Hr]|(Hs & certs2 & Eg & Ev)]).
  - exists certs1. splits; [done|done| |done]. intros l c c' El El' Hf Htr. pose proof (good_kept _ _ _ _ _ Eid1 El El'). congruence.
  - pose proof (mark_good_ok _ _ _ _ _ _ Hok1 Eg) as Hok2. destruct (mark_good_at _ _ _ Eg) as [(g & Eg' & Hg) Hrest].
    destruct (validate_at_sound malloc stack roots calls time (Some ocsp_root) Hc Ht _ _ _ _ _ Hok2 Ev) as (Hok' & Eid' & Hv).
    exists certs1. splits; [done|done| |].
    + intros l c c' El El' Hf Htr. split; [|done]. destruct (decide (l = oc_cert ocsp)) as [|Hn]; [done|].
      destruct (identity_lookup _ _ _ _ Eid1 El) as (c1 & E1 & _). pose proof (good_kept _ _ _ _ _ Eid1 El E1).
      assert (certs2 !! l = Some c1) as E2 by (rewrite Hrest; done). pose proof (good_kept _ _ _ _ _ Eid' E2 El'). congruence.
    + intros ->. split; [done|]. destruct (valid_path _ _ _ _ _ Hok' (Hv eq_refl)) as (cert & path & Ec & Hp & Hl).
      exists cert, path. splits; [done| |done|done]. by rewrite (good_kept _ _ _ _ _ Eid' Eg' Ec).
Qed.

(** A response without a certificate, which RFC 2560 allows when the issuer
    signed it, leaves no signer; [x509_invalidate] is then called on NULL. *)
Lemma ocsp_no_signer malloc stack roots certs ocsp time : resp_signer (oc_response ocsp) = None ->
  ocsp_validate malloc stack roots certs ocsp time = None.
Proof. intros E. unfold ocsp_validate. by rewrite E. Qed.

(** ** The request as RFC 2560 lays it out. *)

Definition der_cert_id (name_hash key_hash number : list Z) : list Z :=
  asn1_object ASN1_SEQUENCE (der_algorithm ASN1_OID_SHA1 ++ asn1_object ASN1_OCTET_STRING name_hash ++ asn1_object ASN1_OCTET_STRING key_hash ++ number).

Definition der_request (cert_id : list Z) : list Z :=
  asn1_object ASN1_SEQUENCE (asn1_object ASN1_SEQUENCE (asn1_object ASN1_SEQUENCE (asn1_object ASN1_SEQUENCE cert_id))).

Lemma request_nonempty id : der_request id <> [].
Proof. apply object_nonempty. Qed.

Definition key_bits (cert : x509_certificate) : list Z :=
  take (Z.to_nat (bits_len (pk_bits (public_key (subject cert))))) (bits_data (pk_bits (public_key (subject cert)))).

(** The identifier of a certificate for its issuer. *)
Definition cert_id_of (cert iss : x509_certificate) : list Z :=
  der_cert_id (md_hash Sha1.sha1 (contents (issuer cert))) (md_hash Sha1.sha1 (key_bits iss)) (contents (serial cert)).

Definition grows (step : asn1_builder -> bool -> rc * asn1_builder) (front : list Z -> list Z) : Prop :=
  forall b l ok, builder_holds b l -> step b ok = asn1_grow b ok (front l).

Definition grown (l : list Z) (fronts : list (list Z -> list Z)) : list Z := fold_left (fun l front => front l ++ l) fronts l.

Lemma grown_longer fronts : forall l, zlen l <= zlen (grown l fronts).
Proof. induction fronts as [|f fronts IH]; intros l; cbn [grown fold_left]; [done|]. specialize (IH (f l ++ l)). unfold grown in IH. rewrite length_app in IH. lia. Qed.

Section Allocated.
Variable allocate : x509_world -> Z -> x509_world * option loc.
Hypothesis allocates : forall w n, is_Some (allocate w n).2.

Lemma grow_step_ok step front w b l : grows step front -> builder_holds b l -> zlen (front l ++ l) < 2 ^ 32 ->
  exists w' b', grow_step allocate w b step = (w', RC_OK, b') /\ builder_holds b' (front l ++ l).
Proof.
  intros Hg Hb L. rewrite length_app in L. destruct (asn1_grow_ok b l (front l) Hb) as (b' & E & Hb'); [lia|].
  unfold grow_step. rewrite (Hg b l true Hb), E. destruct (allocate w (b_len b')) as [w' block] eqn:Ea.
  pose proof (allocates w (b_len b')) as Hs. rewrite Ea in Hs. rewrite bool_decide_eq_true_2, (Hg b l true Hb), E by done. by exists w', b'.
Qed.

Lemma comma_steps_ok steps fronts : Forall2 grows steps fronts -> forall w b l status, builder_holds b l -> zlen (grown l fronts) < 2 ^ 32 ->
  exists w' b', comma_steps allocate w b steps status = (w', if steps is [] then status else RC_OK, b') /\ builder_holds b' (grown l fronts).
Proof.
  induction 1 as [|step front steps fronts Hg _ IH]; intros w b l status Hb L; cbn [comma_steps]; [by exists w, b|].
  pose proof (grown_longer fronts (front l ++ l)) as Hl.
  destruct (grow_step_ok step front w b l Hg Hb) as (w1 & b1 & -> & Hb1); [unfold grown in *; cbn [fold_left] in L; lia|].
  destruct (IH w1 b1 (front l ++ l) RC_OK Hb1 L) as (w2 & b2 & -> & Hb2). exists w2, b2. split; [by destruct steps|done].
Qed.

Lemma prepend_grows type data : grows (fun b ok => asn1_prepend b ok type data) (fun _ => asn1_object type data).
Proof. by intros b l ok _. Qed.

Lemma wrap_grows type : grows (fun b ok => asn1_wrap b ok type) (fun l => asn1_header type (zlen l)).
Proof. intros b l ok (_ & Hl & _). unfold asn1_wrap. by rewrite Hl. Qed.

Definition request_fronts (number key name : list Z) : list (list Z -> list Z) :=
  [fun _ => number; fun _ => asn1_object ASN1_OCTET_STRING key; fun _ => asn1_object ASN1_OCTET_STRING name;
   fun _ => asn1_object ASN1_SEQUENCE ocsp_algorithm_id; fun l => asn1_header ASN1_SEQUENCE (zlen l); fun l => asn1_header ASN1_SEQUENCE (zlen l);
   fun l => asn1_header ASN1_SEQUENCE (zlen l); fun l => asn1_header ASN1_SEQUENCE (zlen l); fun l => asn1_header ASN1_SEQUENCE (zlen l)].

Lemma request_grows number key name : Forall2 grows (request_steps number key name) (request_fronts number key name).
Proof.
  unfold request_steps, request_fronts. constructor; [by intros b l ok _|].
  do 3 (constructor; [apply prepend_grows|]). do 5 (constructor; [apply wrap_grows|]). constructor.
Qed.

Lemma request_grown number key name : grown [] (request_fronts number key name) = der_request (der_cert_id name key number).
Proof.
  unfold grown, request_fronts, der_request, der_cert_id, der_algorithm. cbn [fold_left]. rewrite app_nil_r.
  change (asn1_object ASN1_OID ASN1_OID_SHA1 ++ [ASN1_NULL; 0]) with ocsp_algorithm_id. reflexivity.
Qed.

Lemma request_cert_id cert_id : short (der_request cert_id) ->
  (p ← asn1_enter (covering (der_request cert_id) []) ASN1_SEQUENCE;
   p ← asn1_enter p.2 ASN1_SEQUENCE; p ← asn1_enter p.2 ASN1_SEQUENCE; asn1_enter p.2 ASN1_SEQUENCE) = Some (RC_OK, covering cert_id []).
Proof.
  intros H. unfold der_request in *. shorten H.
  repeat (rewrite enter_only by (done || by left); cbn [mbind option_bind snd]). done.
Qed.

Lemma request_built w number key name : zlen (der_request (der_cert_id name key number)) < 2 ^ 32 ->
  exists w', comma_steps allocate w (Builder None 0) (request_steps number key name) RC_OK =
    (w', RC_OK, Builder (Some (der_request (der_cert_id name key number))) (zlen (der_request (der_cert_id name key number)))).
Proof.
  intros L. rewrite <- request_grown in L. destruct (comma_steps_ok _ _ (request_grows number key name) w (Builder None 0) [] RC_OK) as (w' & b' & E & Hb); [by split|done|].
  exists w'. rewrite request_grown in Hb. destruct Hb as (Hd & Hl & _). rewrite E. cbn [request_steps]. f_equal.
  destruct b' as [[d|] n]; cbn in Hd, Hl; [by subst|]. by destruct (request_nonempty (der_cert_id name key number)).
Qed.

Lemma request_digests stack a b : stack_ok stack -> zlen a < MD_LIMIT -> zlen b < MD_LIMIT ->
  exists c1 c2, digest_final (digest_of sha1_ref) (digest_update (digest_of sha1_ref) (digest_init (digest_of sha1_ref) (stack sha1_ref)) a) = Some (c1, md_hash Sha1.sha1 a) /\
    digest_final (digest_of sha1_ref) (digest_update (digest_of sha1_ref) (digest_init (digest_of sha1_ref) c1) b) = Some (c2, md_hash Sha1.sha1 b).
Proof.
  intros (_ & Hst & _) La Lb.
  destruct (digest_chunks (Digests := sha1_digests) (stack sha1_ref) [a] Hst) as (c1 & E1 & H1); [cbn [concat]; by rewrite app_nil_r|].
  destruct (digest_chunks (Digests := sha1_digests) c1 [b] H1) as (c2 & E2 & _); [cbn [concat]; by rewrite app_nil_r|].
  cbn [concat fold_left] in E1, E2. rewrite app_nil_r in E1, E2. exists c1, c2. exact (conj E1 E2).
Qed.

(** The function, from the results of the calls it makes. *)
Lemma ocsp_request_steps stack w cert iss c1 name c2 key w' id :
  digest_final (digest_of sha1_ref) (digest_update (digest_of sha1_ref) (digest_init (digest_of sha1_ref) (stack sha1_ref)) (contents (issuer cert))) = Some (c1, name) ->
  digest_final (digest_of sha1_ref) (digest_update (digest_of sha1_ref) (digest_init (digest_of sha1_ref) c1) (key_bits iss)) = Some (c2, key) ->
  comma_steps allocate w (Builder None 0) (request_steps (contents (serial cert)) key name) RC_OK = (w', RC_OK, Builder (Some (der_request id)) (zlen (der_request id))) ->
  short (der_request id) ->
  ocsp_request allocate stack w cert iss null_request = Some (w', RC_OK, OcspRequest (Builder (Some (der_request id)) (zlen (der_request id))) (covering id [])).
Proof.
  intros E1 E2 E Hs. unfold ocsp_request, key_bits in *. cbn zeta. rewrite E1. cbn [mbind option_bind fst snd]. rewrite E2. cbn [mbind option_bind fst snd].
  cbn [req_builder null_request]. rewrite E. cbn [b_data b_len mbind option_bind].
  pose proof (request_cert_id id Hs) as Hid. unfold covering at 1 in Hid. rewrite app_nil_r in Hid.
  destruct (asn1_enter (Cursor _ _) _) as [p1|]; [|done]. cbn [mbind option_bind] in Hid |- *.
  destruct (asn1_enter p1.2 _) as [p2|]; [|done]. cbn [mbind option_bind] in Hid |- *.
  destruct (asn1_enter p2.2 _) as [p3|]; [|done]. cbn [mbind option_bind] in Hid |- *. by rewrite Hid.
Qed.

Lemma ocsp_request_der stack w cert iss : stack_ok stack -> short (der_request (cert_id_of cert iss)) ->
  zlen (contents (issuer cert)) < MD_LIMIT -> zlen (key_bits iss) < MD_LIMIT ->
  exists w', ocsp_request allocate stack w cert iss null_request =
    Some (w', RC_OK, OcspRequest (Builder (Some (der_request (cert_id_of cert iss))) (zlen (der_request (cert_id_of cert iss)))) (covering (cert_id_of cert iss) [])).
Proof.
  intros Hst Hs Ln Lk. destruct (request_digests stack _ _ Hst Ln Lk) as (c1 & c2 & E1 & E2).
  destruct (request_built w (contents (serial cert)) (md_hash Sha1.sha1 (key_bits iss)) (md_hash Sha1.sha1 (contents (issuer cert)))) as (w' & E);
    [unfold short, cert_id_of in Hs; lia|].
  exists w'. exact (ocsp_request_steps stack w cert iss _ _ _ _ w' _ E1 E2 E Hs).
Qed.
End Allocated.

(** ** References. *)

(** A first call that gave a result. *)
Ltac unbind E :=
  match type of E with
  | mbind _ ?m = _ => destruct m; [|done]; cbn [mbind option_bind] in E
  end.

(** Responses that arrive one after the other, good or bad. *)
Fixpoint ocsp_responses (allocate : x509_world -> Z -> x509_world * option loc) (zalloc_ok : Z -> bool) (now : Z) (request : ocsp_request_t)
    (w : x509_world) (response : ocsp_response_t) (datas : list (list Z)) : option (x509_world * ocsp_response_t) :=
  match datas with
  | [] => Some (w, response)
  | data :: datas' =>
      p ← ocsp_response_received allocate zalloc_ok now request w response data;
      ocsp_responses allocate zalloc_ok now request p.1.1 p.2 datas'
  end.

Section References.
Variable allocate : x509_world -> Z -> x509_world * option loc.
Variable zalloc_ok : Z -> bool.
Variable malloc : Z -> Z -> option (list Z).
Variable stack : forall d : digest_ref, dg_ctx (digest_of d).
Variable roots : x509_root.
Variable calls : Z -> x509_root -> Prop.
Variable fresh : Z -> list Z.
Context `{!Allocates allocate}.
Variable held : loc -> nat.

Local Abbreviation holding := (Cms.holding allocate zalloc_ok malloc stack roots calls held).

Definition signer_locs (response : ocsp_response_t) : list loc := option_list (resp_signer response).
Definition ocsp_locs (ocsp : ocsp_check_t) : list loc := [oc_cert ocsp; oc_issuer ocsp] ++ signer_locs (oc_response ocsp).

Lemma holding_get w chains l w' : holding w chains -> add_all held chains l <> 0%nat -> x509_get w l = Some w' -> holding w' (chains ++ [l]).
Proof. intros H Hl E. apply Cms.holding_more. by eapply reach_get. Qed.

Lemma holding_comma steps chains : forall w b status, holding w chains -> holding (comma_steps allocate w b steps status).1.1 chains.
Proof.
  induction steps as [|step steps IH]; intros w b status H; cbn [comma_steps]; [done|]. unfold grow_step.
  destruct (step b true) as [[|e] b']; [|by apply IH].
  pose proof (Cms.holding_alloc allocate zalloc_ok malloc stack roots calls held w chains (b_len b') H) as H1.
  destruct (allocate w (b_len b')) as [w1 block]. destruct (step b _) as [r b1]. by apply IH.
Qed.

Lemma holding_request w chains cert iss request w' r request' : holding w chains ->
  ocsp_request allocate stack w cert iss request = Some (w', r, request') -> holding w' chains.
Proof.
  intros H E. unfold ocsp_request in E. cbn zeta in E. destruct (digest_final _ _) as [n|]; [|done]. cbn [mbind option_bind] in E.
  destruct (digest_final _ _) as [k|]; [|done]. cbn [mbind option_bind] in E.
  pose proof (holding_comma (request_steps (contents (serial cert)) k.2 n.2) chains w (req_builder request) RC_OK H) as H1.
  destruct (comma_steps _ _ _ _ _) as [[w1 [|e]] b1]; [|by injection E as <- <- <-].
  destruct (b_data b1) as [data|]; [|done]. cbn [mbind option_bind] in E.
  do 4 unbind E. by injection E as <- <- <-.
Qed.

Lemma holding_uri_string w chains cert request w' r : holding w chains ->
  ocsp_uri_string allocate fresh w cert request = Some (w', r) -> holding w' chains.
Proof.
  intros H E. unfold ocsp_uri_string in E. destruct (ocsp_uri _) as [uri|]; [|by injection E as <- <-].
  set (n := base64_encoded_len _ + 1) in E. apply (Cms.holding_alloc allocate zalloc_ok malloc stack roots calls held w chains n) in H.
  destruct (allocate w n) as [w1 [x|]]; [|by injection E as <- <-]. destruct (b_data _) as [data|]; [|done]. cbn [mbind option_bind] in E.
  destruct (base64_encode _ _) as [s|]; [|done]. cbn [mbind option_bind] in E. set (m := zlen _ + 1 + zlen _ + 1) in E.
  apply (Cms.holding_alloc allocate zalloc_ok malloc stack roots calls held w1 chains m) in H.
  destruct (allocate w1 m) as [w2 [y|]]; [|by injection E as <- <-]. destruct (vsnprintf _ _ _ _) as [p|]; [|done]. cbn [mbind option_bind] in E.
  destruct (stores _ _ _); [|done]. by injection E as <- <-.
Qed.

Lemma holding_put_signer w chains signer : holding w (chains ++ option_list signer) ->
  exists w', put_signer w signer = Some w' /\ holding w' chains.
Proof.
  intros H. destruct signer as [l|]; cbn [put_signer option_list] in *; [by apply Cms.holding_put|]. exists w. by rewrite app_nil_r in H.
Qed.

Lemma holding_ocsp_free w ocsp : holding w (ocsp_locs ocsp) -> exists w', ocsp_free w ocsp = Some w' /\ holding w' [].
Proof.
  intros H. unfold ocsp_free. set (s := signer_locs (oc_response ocsp)).
  destruct (Cms.holding_put allocate zalloc_ok malloc stack roots calls held w ([oc_issuer ocsp] ++ s) (oc_cert ocsp)) as (w1 & -> & H1).
  { eapply Cms.holding_perm; [|exact H]. apply (Permutation_app_comm [oc_cert ocsp]). }
  cbn [mbind option_bind]. destruct (Cms.holding_put allocate zalloc_ok malloc stack roots calls held w1 s (oc_issuer ocsp)) as (w2 & -> & H2).
  { eapply Cms.holding_perm; [|exact H1]. apply Permutation_app_comm. }
  cbn [mbind option_bind]. by apply holding_put_signer.
Qed.

Lemma holding_check w cert iss w' r : holding w [] -> held cert <> 0%nat -> held iss <> 0%nat ->
  ocsp_check allocate stack fresh w cert iss = Some (w', r) ->
  match r with inl ocsp => ocsp_locs ocsp = [cert; iss] /\ holding w' [cert; iss] | inr _ => holding w' [] end.
Proof.
  intros H Hc Hi E. unfold ocsp_check in E. apply (Cms.holding_alloc allocate zalloc_ok malloc stack roots calls held w [] 0) in H.
  destruct (allocate w 0) as [w0 [x|]]; [|by injection E as <- <-]. cbn [fst] in H.
  destruct (x509_get w0 cert) as [w1|] eqn:E1; [|done]. cbn [mbind option_bind] in E.
  pose proof (holding_get w0 [] cert w1 H Hc E1) as H1. destruct (x509_get w1 iss) as [w2|] eqn:E2; [|done]. cbn [mbind option_bind] in E.
  assert (add_all held [cert] iss <> 0%nat) as Hi' by (rewrite add_all_count; lia). pose proof (holding_get w1 [cert] iss w2 H1 Hi' E2) as H2.
  destruct (w_certs w2 !! cert) as [c|]; [|done]. destruct (w_certs w2 !! iss) as [i|]; [|done]. cbn [mbind option_bind] in E.
  destruct (ocsp_request _ _ w2 c i null_request) as [[[w3 r3] request]|] eqn:E3; [|done]. cbn [mbind option_bind] in E.
  pose proof (holding_request _ _ _ _ _ _ _ _ H2 E3) as H3. set (failed := OcspCheck cert iss None request null_response) in E.
  assert (forall w e, holding w [cert; iss] -> (w ← ocsp_free w failed; Some (w, inr e)) = Some (w', r) -> exists e, r = inr e /\ holding w' []) as Hf.
  { intros wf e Hw Ef. destruct (holding_ocsp_free wf failed Hw) as (w'' & Ew & Hw''). rewrite Ew in Ef. injection Ef as <- <-. by exists e. }
  destruct r3 as [|e]; [|destruct (Hf _ _ H3 E) as (? & -> & ?); done].
  destruct (ocsp_uri_string _ _ w3 c request) as [[w4 [uri|e]]|] eqn:E4; [| |done]; cbn [mbind option_bind] in E; pose proof (holding_uri_string _ _ _ _ _ _ H3 E4) as H4.
  - by injection E as <- <-.
  - destruct (Hf _ _ H4 E) as (? & -> & ?); done.
Qed.

Lemma parse_responses_signer now request response raw r response' :
  ocsp_parse_responses now request response raw = Some (r, response') -> resp_signer response' = resp_signer response.
Proof.
  intros E. unfold ocsp_parse_responses in E. do 2 unbind E.
  destruct (ocsp_parse_cert_id _ _) as [[|e]|]; cbn [mbind option_bind] in E; [|by injection E as <- <-|done].
  unbind E. unbind E.
  destruct (negb _); [by injection E as <- <-|]. unbind E.
  destruct (asn1_generalized_time _) as [[t|e]|]; cbn [mbind option_bind] in E; [|by injection E as <- <-|done].
  unbind E. unbind E.
  destruct (_ =? _); [|by injection E as <- <-]. unbind E.
  destruct (asn1_generalized_time _) as [[t'|e]|]; cbn [mbind option_bind] in E; [by injection E as <- <-..|done].
Qed.

Lemma parse_tbs_signer now request response raw r response' :
  ocsp_parse_tbs_response_data now request response raw = Some (r, response') -> resp_signer response' = resp_signer response.
Proof.
  intros E. unfold ocsp_parse_tbs_response_data in E. unbind E.
  unbind E. unbind E.
  do 2 unbind E. by apply parse_responses_signer in E.
Qed.

(** A response starts without a signer and holds the one it finds. *)
Lemma holding_basic_response now request w chains response raw w' r response' : holding w chains -> resp_signer response = None ->
  ocsp_parse_basic_response allocate zalloc_ok now request w response raw = Some (w', r, response') ->
  holding w' (chains ++ signer_locs response').
Proof.
  intros H Hs E. assert (forall response, resp_signer response = None -> holding w (chains ++ signer_locs response)) as Hn.
  { intros x Hx. unfold signer_locs. by rewrite Hx, app_nil_r. }
  unfold ocsp_parse_basic_response in E. unbind E.
  destruct (ocsp_parse_tbs_response_data _ _ _ _) as [[r1 response1]|] eqn:Ed; [|done]. cbn [mbind option_bind] in E.
  apply parse_tbs_signer in Ed. rewrite Hs in Ed. destruct r1 as [|e]; [|injection E as <- <- <-; by apply Hn].
  unbind E.
  destruct (asn1_signature_algorithm _ _) as [[a|e]|]; cbn [mbind option_bind] in E; [|injection E as <- <- <-; by apply Hn|done].
  unbind E.
  destruct (asn1_integral_bit_string _) as [[s|e]|]; cbn [mbind option_bind] in E; [|injection E as <- <- <-; by apply Hn|done].
  unbind E. unbind E.
  destruct (_ =? _); [|injection E as <- <- <-; by apply Hn]. unfold ocsp_parse_certs in E.
  do 2 unbind E. destruct (_ =? _); [injection E as <- <- <-; by apply Hn|].
  destruct (x509_certificate_create _ _ _ _) as [[w1 [l|e]]|] eqn:Ec; cbn [mbind option_bind] in E; [| |done].
  - injection E as <- <- <-. apply Cms.holding_more. by eapply reach_create.
  - injection E as <- <- <-. cbn. unfold signer_locs. cbn. rewrite Ed, app_nil_r. by eapply reach_create_fails.
Qed.

Lemma holding_response now request w chains response data w' r response' : holding w (chains ++ signer_locs response) ->
  ocsp_response_received allocate zalloc_ok now request w response data = Some (w', r, response') -> holding w' (chains ++ signer_locs response').
Proof.
  intros H E. unfold ocsp_response_received in E. destruct (holding_put_signer w chains (resp_signer response) H) as (w1 & E1 & H1).
  rewrite E1 in E. cbn [mbind option_bind] in E. apply (Cms.holding_alloc allocate zalloc_ok malloc stack roots calls held w1 chains (zlen data)) in H1.
  assert (forall w x, holding w chains -> resp_signer x = None -> holding w (chains ++ signer_locs x)) as Hn.
  { intros wn x Hw Hx. unfold signer_locs. by rewrite Hx, app_nil_r. }
  destruct (allocate w1 (zlen data)) as [w2 [x|]]; cbn [fst] in H1; [|injection E as <- <- <-; by apply Hn].
  unfold ocsp_parse_response in E. unbind E.
  destruct (ocsp_parse_response_status _) as [[|e]|]; cbn [mbind option_bind] in E; [|injection E as <- <- <-; by apply Hn|done].
  unbind E. unfold ocsp_parse_response_bytes in E.
  do 2 unbind E.
  destruct (ocsp_parse_response_type _) as [[|e]|]; cbn [mbind option_bind] in E; [|injection E as <- <- <-; by apply Hn|done].
  unbind E. unbind E.
  by eapply holding_basic_response; [exact H1| |exact E].
Qed.

Lemma holding_responses now request datas chains : forall w response w' response', holding w (chains ++ signer_locs response) ->
  ocsp_responses allocate zalloc_ok now request w response datas = Some (w', response') -> holding w' (chains ++ signer_locs response').
Proof.
  induction datas as [|data datas IH]; intros w response w' response' H E; cbn [ocsp_responses] in E; [by injection E as <- <-|].
  destruct (ocsp_response_received _ _ _ _ _ _ _) as [[[w1 r1] response1]|] eqn:E1; [|done]. cbn [mbind option_bind fst snd] in E.
  eapply IH; [|exact E]. by eapply holding_response.
Qed.
End References.

(** Creating a check that fails gives back every reference it took.
    One that succeeds can receive any number of responses, well-formed or
    not, and freeing it gives back the references to the certificate, the
    issuer and the signer of the last response; the worlds in between are
    reachable, so their valid certificates have paths to roots. *)
Theorem ocsp_references allocate zalloc_ok malloc stack roots calls fresh held w cert iss w1 r `{!Allocates allocate} :
  reachable allocate zalloc_ok malloc stack roots calls w held -> held cert <> 0%nat -> held iss <> 0%nat ->
  ocsp_check allocate stack fresh w cert iss = Some (w1, r) ->
  match r with
  | inr _ => reachable allocate zalloc_ok malloc stack roots calls w1 held
  | inl ocsp => forall now datas w2 response,
      ocsp_responses allocate zalloc_ok now (oc_request ocsp) w1 (oc_response ocsp) datas = Some (w2, response) ->
      let ocsp' := OcspCheck (oc_cert ocsp) (oc_issuer ocsp) (oc_uri_string ocsp) (oc_request ocsp) response in
      reachable allocate zalloc_ok malloc stack roots calls w2 (add_all held (ocsp_locs ocsp')) /\
      exists w3, ocsp_free w2 ocsp' = Some w3 /\ reachable allocate zalloc_ok malloc stack roots calls w3 held
  end.
Proof.
  intros Hr Hc Hi E. pose proof (holding_check allocate zalloc_ok malloc stack roots calls fresh held w cert iss w1 r Hr Hc Hi E) as H.
  destruct r as [ocsp|e]; [|exact H]. destruct H as [El H]. rewrite <- El in H. intros now datas w2 response E2 ocsp'.
  pose proof (holding_responses allocate zalloc_ok malloc stack roots calls held now _ datas [oc_cert ocsp; oc_issuer ocsp] _ _ _ _ H E2) as H2.
  split; [exact H2|]. exact (holding_ocsp_free allocate zalloc_ok malloc stack roots calls held w2 ocsp' H2).
Qed.

(** ** The address of the request. *)

Lemma object_bytes_ok type body : 0 <= type < 256 -> zlen body < 2 ^ 31 -> bytes_ok body -> bytes_ok (asn1_object type body).
Proof. intros Ht L Hb. destruct (header_bytes type (zlen body) Ht) as (first & l & E & Hf & Hl & _); [lia|]. unfold asn1_object. rewrite E.
  constructor; [unfold is_byte; lia|]. constructor; [done|]. apply Forall_app. by split. Qed.

Lemma uri_prefix base : vcprintf 4 (cstr "%s/") [ArgStr (Some base)] = Some (base ++ [47]).
Proof. reflexivity. Qed.

Lemma uri_string_built fresh base encoded : (forall n, 0 <= n -> zlen (fresh n) = n) -> bytes_ok encoded ->
  let n := zlen base + 1 + zlen encoded + 1 in
  (p ← vsnprintf (fresh n) n (cstr "%s/") [ArgStr (Some base)]; stores p.1 (Z.to_nat p.2) (encoded ++ [0])) = Some (base ++ 47 :: encoded ++ [0]).
Proof.
  intros Hf Hb n. unfold vsnprintf. change (S (length (cstr "%s/"))) with 4%nat. rewrite uri_prefix. cbn [mbind option_bind fst snd].
  assert (0 <= n) as Hn by (unfold n; lia). pose proof (Hf n Hn) as Hl. set (out := base ++ [47]).
  assert (length out = S (length base)) as Ho by (unfold out; rewrite length_app; cbn; lia).
  rewrite (take_ge out) by (unfold n; lia). unfold ctrue. destruct (Z.eqb_spec n 0); [unfold n in *; lia|]. cbn [negb].
  replace (Z.to_nat (if zlen out <? n - 1 then zlen out else n - 1)) with (length out) by (unfold n in *; destruct (Z.ltb_spec (zlen out) (zlen base + 1 + zlen encoded + 1 - 1)); lia).
  replace (Z.to_nat (Z.min n (zlen out))) with (length out) by (unfold n in *; lia).
  rewrite Nat2Z.id, insert_app_r_alt, Nat.sub_diag by lia.
  pose proof (stores_app (encoded ++ [0]) out (<[0%nat:=0]> (drop (length out) (fresh n))) []) as Hs. rewrite !app_nil_r in Hs. rewrite Hs.
  - unfold out. by rewrite <- app_assoc.
  - apply Forall_app. split; [done|by apply Forall_singleton].
  - rewrite length_insert, length_drop, length_app. cbn [length]. unfold n in *. lia.
Qed.

Lemma until_nul_app s rest : cstring s -> until_nul (s ++ 0 :: rest) = s.
Proof. induction 1 as [|c s Hc _ IH]; [done|]. cbn [app until_nul]. unfold is_char in Hc. destruct (Z.eqb_spec c 0); [lia|]. by rewrite IH. Qed.

(** [s] is base64 for the request. *)
Definition base64_for (s request : list Z) : Prop :=
  cstring s /\ forall buf, base64_decoded_max_len s < zlen buf ->
    exists buf', base64_decode s buf = Some (buf', inl (zlen request)) /\ take (length request) buf' = request.

Lemma base64_encode_for request block : bytes_ok request -> zlen request < 2 ^ 28 -> zlen block = base64_encoded_len (zlen request) + 1 ->
  exists s, base64_encode request block = Some (s ++ [0]) /\ base64_for s request.
Proof.
  intros Hb L Hl. destruct (base64_roundtrip request block [] Hb ltac:(lia) Hl) as (s & E & _ & Hs & _). exists s. split; [done|]. split; [done|].
  intros buf. destruct (base64_roundtrip request block buf Hb ltac:(lia) Hl) as (s' & E' & _ & _ & Hd). rewrite E in E'.
  apply (inj Some), app_inj_tail in E' as [<- _]. exact Hd.
Qed.

Lemma ocsp_uri_string_ok allocate fresh w cert request id uri : (forall w n, is_Some (allocate w n).2) -> (forall n, 0 <= n -> zlen (fresh n) = n) ->
  ocsp_uri (extensions cert) = Some uri -> bytes_ok request -> zlen request < 2 ^ 28 ->
  exists w' s, ocsp_uri_string allocate fresh w cert (OcspRequest (Builder (Some request) (zlen request)) id) =
    Some (w', inl (until_nul uri ++ 47 :: uri_encode s URI_FRAGMENT ++ [0])) /\ base64_for s request.
Proof.
  intros Ha Hf Eu Hb L. unfold ocsp_uri_string. rewrite Eu. cbn [req_builder b_len b_data mbind option_bind]. set (n := base64_encoded_len _ + 1).
  assert (0 <= n) as Hn by (unfold n, base64_encoded_len; zdm). destruct (base64_encode_for request (fresh n) Hb L (Hf n Hn)) as (s & Es & Hs).
  destruct (allocate w n) as [w1 block] eqn:E1. pose proof (Ha w n) as H1. rewrite E1 in H1. destruct block; [|by destruct H1].
  rewrite take_ge, Es by lia. cbn [mbind option_bind]. rewrite until_nul_app by apply Hs. set (encoded := uri_encode s URI_FRAGMENT).
  set (m := zlen (until_nul uri) + 1 + zlen encoded + 1). destruct (allocate w1 m) as [w2 block] eqn:E2. pose proof (Ha w1 m) as H2. rewrite E2 in H2.
  destruct block; [|by destruct H2]. pose proof (uri_string_built fresh (until_nul uri) encoded Hf) as Hu. cbn zeta in Hu. fold m in Hu.
  exists w2, s. split; [|done]. destruct (vsnprintf _ _ _ _) as [p|]; cbn [mbind option_bind] in Hu |- *.
  - rewrite Hu; [done|]. eapply Forall_impl; [apply encode_cstring, Hs|]. unfold is_char, is_byte. lia.
  - exfalso. discriminate Hu. eapply Forall_impl; [apply encode_cstring, Hs|]. unfold is_char, is_byte. lia.
Qed.

Lemma cert_id_bytes cert iss : bytes_ok (contents (serial cert)) -> zlen (cert_id_of cert iss) < 2 ^ 28 -> bytes_ok (cert_id_of cert iss).
Proof.
  intros Hs L. unfold cert_id_of, der_cert_id in *. pose proof (object_longer ASN1_SEQUENCE (der_algorithm ASN1_OID_SHA1 ++
    asn1_object ASN1_OCTET_STRING (md_hash Sha1.sha1 (contents (issuer cert))) ++ asn1_object ASN1_OCTET_STRING (md_hash Sha1.sha1 (key_bits iss)) ++ contents (serial cert))) as Hl.
  assert (forall data, bytes_ok (md_hash Sha1.sha1 data) /\ zlen (md_hash Sha1.sha1 data) = 20) as Hh.
  { intros data. split; [exact (hash_bytes (Digests := sha1_digests) data)|exact (hash_length (Digests := sha1_digests) data)]. }
  destruct (Hh (contents (issuer cert))) as [Hn Ln], (Hh (key_bits iss)) as [Hk Lk].
  apply object_bytes_ok; [done|lia|]. apply Forall_app. split; [by_decide|]. apply Forall_app. split; [apply object_bytes_ok; [done|lia|done]|].
  apply Forall_app. split; [apply object_bytes_ok; [done|lia|done]|done].
Qed.

Lemma request_bytes id : bytes_ok id -> zlen (der_request id) < 2 ^ 28 -> bytes_ok (der_request id).
Proof.
  intros Hb L. unfold der_request in *. do 4 match goal with |- bytes_ok (asn1_object ?t ?b) => pose proof (object_longer t b); apply object_bytes_ok; [done|lia|] end. done.
Qed.

Lemma request_longer id : zlen id <= zlen (der_request id).
Proof.
  unfold der_request. do 4 match goal with |- _ <= zlen (asn1_object ?t ?b) => transitivity (zlen b); [|pose proof (object_longer t b); lia] end. done.
Qed.

(** C18: The check of a certificate asks for the status of the certificate
    with this serial number among those of its issuer, named by the SHA-1
    digests of the issuer's name and key.  The address it builds is that of
    the responder, a slash, and text from which undoing the URI encoding
    and then base64 gives back exactly the request; the identifier it will
    compare responses with is the one in the request. *)
Theorem ocsp_check_request allocate stack fresh w held cert iss c i uri `{!Allocates allocate} :
  (forall w n, is_Some (allocate w n).2) -> (forall n, 0 <= n -> zlen (fresh n) = n) -> stack_ok stack ->
  world_ok w held -> held cert <> 0%nat -> held iss <> 0%nat -> w_certs w !! cert = Some c -> w_certs w !! iss = Some i ->
  ocsp_uri (extensions c) = Some uri -> bytes_ok (contents (serial c)) ->
  zlen (contents (issuer c)) < MD_LIMIT -> zlen (key_bits i) < MD_LIMIT -> zlen (der_request (cert_id_of c i)) < 2 ^ 28 ->
  exists w' encoded, ocsp_check allocate stack fresh w cert iss = Some (w', inl (OcspCheck cert iss
      (Some (until_nul uri ++ 47 :: encoded ++ [0]))
      (OcspRequest (Builder (Some (der_request (cert_id_of c i))) (zlen (der_request (cert_id_of c i)))) (covering (cert_id_of c i) []))
      null_response)) /\
    base64_for (decode_field encoded) (der_request (cert_id_of c i)).
Proof.
  intros Ha Hf Hst Hw Hc Hi Ec Ei Eu Hs Ln Lk L. unfold ocsp_check.
  destruct (discarded_ok w (allocate w 0).1 held (alloc_discards w 0) Hw) as [Hw1 Hkeep _ _].
  pose proof (Ha w 0) as H0. destruct (allocate w 0) as [w1 block]. cbn [fst snd] in *. destruct block; [|by destruct H0].
  destruct (get_ok w1 held cert Hw1 (wo_held _ _ Hw1 _ Hc)) as (w2 & -> & Hw2 & Ecerts2 & _). cbn [mbind option_bind].
  assert (one_more held cert iss <> 0%nat) as Hi2 by (unfold one_more; destruct (decide _); lia).
  destruct (get_ok w2 _ iss Hw2 (wo_held _ _ Hw2 _ Hi2)) as (w3 & -> & _ & Ecerts3 & _). cbn [mbind option_bind].
  rewrite Ecerts3, Ecerts2, !Hkeep, Ec, Ei by done. cbn [mbind option_bind].
  destruct (ocsp_request_der allocate Ha stack w3 c i Hst) as (w4 & E4); [unfold short; lia|done|done|]. rewrite E4. cbn [mbind option_bind].
  pose proof (request_longer (cert_id_of c i)). assert (bytes_ok (der_request (cert_id_of c i))) as Hb by (apply request_bytes; [apply cert_id_bytes; [done|lia]|done]).
  destruct (ocsp_uri_string_ok allocate fresh w4 c _ (covering (cert_id_of c i) []) uri Ha Hf Eu Hb L) as (w5 & s & -> & Hs64). cbn [mbind option_bind].
  exists w5, (uri_encode s URI_FRAGMENT). split; [done|]. rewrite decode_field_encode; [done|done|apply Hs64].
Qed.

(** ** Responses as RFC 2560 lays them out. *)

Definition time_digits (d : date) : list Z :=
  mjoin (digits2 <$> [d_year d / 100; d_year d mod 100; d_mon d; d_mday d; d_hour d; d_min d; d_sec d]) ++ [90].
Definition der_time (d : date) : list Z := asn1_object ASN1_GENERALIZED_TIME (time_digits d).

(** [r_id] is the contents of the certificate identifier, [r_others] are
    further responses, [r_certs] the certificates, if there are any. *)
Record ocsp_reply := Reply {
  r_status : Z; r_version : option (list Z); r_responder : Z * list Z; r_produced : date;
  r_id : list Z; r_cert_status : Z * list Z; r_this : date; r_next : option date; r_others : list Z;
  r_alg : list Z; r_sig : list Z; r_certs : option (list Z);
}.

Definition der_optional (type : Z) (body : option (list Z)) : list Z := if body is Some b then asn1_object type b else [].

Definition der_single (r : ocsp_reply) : list Z :=
  asn1_object ASN1_SEQUENCE (asn1_object ASN1_SEQUENCE (r_id r) ++ asn1_object (r_cert_status r).1 (r_cert_status r).2 ++
    der_time (r_this r) ++ der_optional (ASN1_EXPLICIT_TAG 0) (der_time <$> r_next r)).
Definition der_response_data (r : ocsp_reply) : list Z :=
  asn1_object ASN1_SEQUENCE (der_optional (ASN1_EXPLICIT_TAG 0) (r_version r) ++ asn1_object (r_responder r).1 (r_responder r).2 ++
    der_time (r_produced r) ++ asn1_object ASN1_SEQUENCE (der_single r ++ r_others r)).
Definition der_basic_response (r : ocsp_reply) : list Z :=
  asn1_object ASN1_SEQUENCE (der_response_data r ++ der_algorithm (r_alg r) ++ asn1_object ASN1_BIT_STRING (0 :: r_sig r) ++
    der_optional (ASN1_EXPLICIT_TAG 0) (asn1_object ASN1_SEQUENCE <$> r_certs r)).
Definition der_reply (r : ocsp_reply) : list Z :=
  asn1_object ASN1_SEQUENCE (asn1_object ASN1_ENUMERATED [r_status r] ++
    asn1_object (ASN1_EXPLICIT_TAG 0) (asn1_object ASN1_SEQUENCE (asn1_object ASN1_OID oid_basic_response_type ++
      asn1_object ASN1_OCTET_STRING (der_basic_response r)))).

Record reply_ok (r : ocsp_reply) : Prop := {
  ro_responder : 0 <= (r_responder r).1 < 256 /\ (r_responder r).1 <> ASN1_EXPLICIT_TAG 0;
  ro_cert_status : 0 <= (r_cert_status r).1 < 256;
  ro_this : date_ok (r_this r);
  ro_next d : r_next r = Some d -> date_ok d;
  ro_certs certs : r_certs r = Some certs -> certs <> [];
  ro_short : short (der_reply r);
}.

Lemma time_covering d more rest : date_ok d -> asn1_generalized_time (covering (der_time d ++ more) rest) = Some (inl (seconds d)).
Proof.
  intros (Hy & Hmon & Hd & Hh & Hmi & Hs). unfold covering, der_time, time_digits. rewrite <- app_assoc, length_app.
  rewrite (asn1_time_object false (d_year d) (d_mon d) (d_mday d) (d_hour d) (d_min d) (d_sec d)); [done|lia..].
Qed.

Lemma skip_absent type t body more rest : 0 <= type < 256 -> t <> type -> t <> ASN1_ANY ->
  asn1_skip_if_exists (covering (asn1_object type body ++ more) rest) t = Some (RC_ERR ENXIO, covering (asn1_object type body ++ more) rest).
Proof.
  intros Ht Hn Ha. unfold asn1_skip_if_exists, asn1_start, covering. cbn [cur_len].
  pose proof (object_longer type body). rewrite length_app.
  destruct (Z.ltb_spec (Z.of_nat (length (asn1_object type body) + length more)) 2); [lia|].
  rewrite <- app_assoc, object_type by done. cbn [mbind option_bind].
  destruct (Z.eqb_spec t ASN1_ANY); [done|]. destruct (Z.eqb_spec t type); [done|]. done.
Qed.

Lemma skip_present type body more rest : 0 <= type < 256 -> short body -> more <> [] ->
  asn1_skip_if_exists (covering (asn1_object type body ++ more) rest) type = Some (RC_OK, covering more rest).
Proof.
  intros Ht Hs Hm. pose proof (skip_covering type type body more rest Ht (or_introl eq_refl) Hs Hm) as E. unfold asn1_skip in E.
  destruct (asn1_skip_if_exists _ _) as [[[|e] c]|]; [|done..]. cbn in E. by simplify_eq.
Qed.

Lemma compare_coverings a b ra rb : asn1_compare_eq (covering a ra) (covering b rb) = bool_decide (a = b).
Proof.
  assert (forall l r, in_data (covering l r)) as Hd by (intros l r; unfold in_data, covering; cbn; rewrite length_app; lia).
  by rewrite compare_contents, !contents_covering by done.
Qed.

(** What is short has short parts. *)
Ltac short_parts H :=
  lazymatch type of H with
  | short (?a ++ ?b) =>
      let H1 := fresh "Hs" in let H2 := fresh "Hs" in destruct (short_app a b H) as [H1 H2]; short_parts H1; short_parts H2
  | short (asn1_object ?t ?b) => let H1 := fresh "Hs" in pose proof (short_object t b H) as H1; short_parts H1
  | _ => idtac
  end.

Ltac object_side := first [done | by left | by right | apply object_nonempty | by apply object_then_nonempty; object].
Ltac enter := first [rewrite enter_covering by object_side | rewrite enter_only by object_side]; cbn [mbind option_bind snd].
Ltac skip := unfold asn1_skip_any; first [rewrite skip_covering by object_side | rewrite skip_last by object_side]; cbn [mbind option_bind snd].
Ltac shrink := unfold asn1_shrink_any; rewrite shrink_covering by object_side; cbn [mbind option_bind snd].

(** The status of the reply for a request that asked for [id]. *)
Definition reply_rc (r : ocsp_reply) (id : list Z) : rc :=
  if bool_decide (asn1_object ASN1_SEQUENCE (r_id r) = id) then
    if (r_cert_status r).1 =? ASN1_IMPLICIT_TAG 0 then RC_OK else RC_ERR EACCES_CERT_STATUS
  else RC_ERR EACCES_CERT_MISMATCH.

Lemma responses_covering now request response r id rest : reply_ok r -> short (asn1_object ASN1_SEQUENCE (der_single r ++ r_others r)) ->
  req_cert_id request = covering id [] ->
  ocsp_parse_responses now request response (covering (asn1_object ASN1_SEQUENCE (der_single r ++ r_others r)) rest)
  = Some (reply_rc r id, match reply_rc r id with
      | RC_OK => set_next_update (default now (seconds <$> r_next r)) (set_this_update (seconds (r_this r)) response)
      | RC_ERR _ => response
      end).
Proof.
  intros Hok Hs Hid. unfold ocsp_parse_responses, der_single in *. pose proof (ro_cert_status _ Hok) as Hcs. short_parts Hs.
  enter. enter. unfold ocsp_parse_cert_id. shrink.
  rewrite Hid, compare_coverings. unfold reply_rc. case_bool_decide as Ec; cbn [negb]; [|done].
  skip. rewrite type_covering by done. cbn [mbind option_bind].
  destruct (Z.eqb_spec (r_cert_status r).1 (ASN1_IMPLICIT_TAG 0)) as [Eg|Eg]; cbn [negb]; [|done].
  skip. rewrite time_covering by apply Hok. cbn [mbind option_bind]. change (der_time (r_this r)) with (asn1_object ASN1_GENERALIZED_TIME (time_digits (r_this r))).
  pose proof (short_object _ _ Hs10 : short (time_digits (r_this r))) as Ht.
  destruct (r_next r) as [d|] eqn:En; cbn [fmap option_fmap option_map der_optional default].
  - skip. rewrite <- (app_nil_r (asn1_object (ASN1_EXPLICIT_TAG 0) _)). rewrite type_covering by done. cbn [mbind option_bind].
    change (ASN1_EXPLICIT_TAG 0 =? ASN1_EXPLICIT_TAG 0) with true. cbn iota.
    enter. rewrite <- (app_nil_r (der_time d)), time_covering by by apply (ro_next _ Hok). done.
  - rewrite app_nil_r. skip. done.
Qed.

(** The fields a good response fills in. *)
Definition filled_response (now : Z) (r : ocsp_reply) (tbs : asn1_cursor) (response : ocsp_response_t) : ocsp_response_t :=
  set_next_update (default now (seconds <$> r_next r)) (set_this_update (seconds (r_this r)) (set_tbs tbs response)).

Lemma response_data_covering now request response r id more rest : reply_ok r -> short (der_response_data r) ->
  req_cert_id request = covering id [] ->
  ocsp_parse_tbs_response_data now request response (covering (der_response_data r ++ more) rest)
  = Some (reply_rc r id, let tbs := covering (der_response_data r) (more ++ rest) in
      match reply_rc r id with RC_OK => filled_response now r tbs response | RC_ERR _ => set_tbs tbs response end).
Proof.
  intros Hok Hs Hid. unfold ocsp_parse_tbs_response_data. destruct (ro_responder _ Hok) as [Hr Hn]. pose proof Hs as Hs'. unfold der_response_data in Hs' |- *.
  short_parts Hs'. shrink. enter.
  assert (exists e, asn1_skip_if_exists (covering (der_optional (ASN1_EXPLICIT_TAG 0) (r_version r) ++
      asn1_object (r_responder r).1 (r_responder r).2 ++ der_time (r_produced r) ++ asn1_object ASN1_SEQUENCE (der_single r ++ r_others r)) (more ++ rest)) (ASN1_EXPLICIT_TAG 0)
    = Some (e, covering (asn1_object (r_responder r).1 (r_responder r).2 ++ der_time (r_produced r) ++ asn1_object ASN1_SEQUENCE (der_single r ++ r_others r)) (more ++ rest)))
    as (e & ->).
  { destruct (r_version r) as [v|]; cbn [der_optional] in *; eexists.
    - apply skip_present; [done|by eapply short_object|by apply object_then_nonempty; object].
    - apply skip_absent; [done|done|done]. }
  cbn [mbind option_bind snd]. skip. change (der_time (r_produced r)) with (asn1_object ASN1_GENERALIZED_TIME (time_digits (r_produced r))) in *.
  assert (short (time_digits (r_produced r))) by (by eapply short_object). skip.
  by apply responses_covering.
Qed.

(** The signature and its algorithm, after the signed data. *)
Definition signed_response (now : Z) (r : ocsp_reply) (a : algorithm) (tbs : asn1_cursor) (bits : asn1_bit_string_t) (response : ocsp_response_t) : ocsp_response_t :=
  set_signature bits (set_algorithm (Some a) (filled_response now r tbs response)).

(** What is recorded of the reply. *)
Definition records (now : Z) (r : ocsp_reply) (a : algorithm) (response : ocsp_response_t) : Prop :=
  contents (resp_tbs response) = der_response_data r /\ this_update response = seconds (r_this r) /\
  next_update response = default now (seconds <$> r_next r) /\ resp_algorithm response = Some a /\ signature_bytes response = r_sig r.

Lemma integral_covering l more rest : short l ->
  asn1_integral_bit_string (covering (asn1_object ASN1_BIT_STRING (0 :: l) ++ more) rest) = Some (inl (BitString (l ++ more ++ rest) (zlen l) 0)).
Proof. intros Hl. unfold asn1_integral_bit_string. by rewrite bit_string_covering. Qed.

Lemma skip_object l more rest : is_object l -> short l -> more <> [] -> asn1_skip_any (covering (l ++ more) rest) = Some (RC_OK, covering more rest).
Proof. intros (type & body & -> & Ht) Hs Hm. apply skip_covering; [done|by right|by eapply short_object|done]. Qed.

Section Reply.
Variable allocate : x509_world -> Z -> x509_world * option loc.
Variable zalloc_ok : Z -> bool.
Variable now : Z.
Variable request : ocsp_request_t.

(** The certificates of a reply, once its fields are recorded. *)
Definition parse_signer (w : x509_world) (certs : option (list Z)) (response : ocsp_response_t) : option (x509_world * rc * ocsp_response_t) :=
  match certs with
  | None => Some (w, RC_OK, response)
  | Some data =>
      c ← x509_certificate_create allocate zalloc_ok w (covering data []);
      match c with
      | (w, inr e) => Some (w, RC_ERR e, response)
      | (w, inl signer) => Some (w, RC_OK, set_signer (Some signer) response)
      end
  end.

Lemma basic_covering w response r id a : reply_ok r -> short (der_basic_response r) -> req_cert_id request = covering id [] ->
  algorithm_of (r_alg r) = Some a -> alg_pubkey a <> None -> alg_digest a <> None ->
  exists response', resp_signer response' = resp_signer response /\
    ocsp_parse_basic_response allocate zalloc_ok now request w response (covering (der_basic_response r) [])
    = match reply_rc r id with RC_OK => parse_signer w (r_certs r) response' | RC_ERR e => Some (w, RC_ERR e, response') end /\
    (reply_rc r id = RC_OK -> records now r a response').
Proof.
  intros Hok Hs Hid Ha Hp Hd. unfold ocsp_parse_basic_response, der_basic_response in *. short_parts Hs.
  enter. rewrite (response_data_covering now request response r id) by done. cbn [mbind option_bind].
  destruct (reply_rc r id) as [|e] eqn:Erc; [|eexists; split; [|split; [reflexivity|done]]; done].
  rewrite skip_object by (done || object || by apply object_then_nonempty; object). cbn [mbind option_bind snd].
  rewrite (signature_algorithm_covering _ a) by done. cbn [mbind option_bind].
  rewrite skip_object by (done || object || by apply object_then_nonempty; object). cbn [mbind option_bind snd].
  assert (short (r_sig r)) as Hsig by (unfold short in *; cbn [length] in *; lia).
  rewrite integral_covering by done. cbn [mbind option_bind].
  set (tbs := covering (der_response_data r) _). set (bits := BitString _ _ _).
  exists (signed_response now r a tbs bits response). split; [done|]. split.
  - destruct (r_certs r) as [certs|] eqn:Ecerts; cbn [fmap option_fmap option_map der_optional parse_signer] in *.
    + skip. rewrite <- (app_nil_r (asn1_object (ASN1_EXPLICIT_TAG 0) _)), type_covering by done. cbn [mbind option_bind].
      change (ASN1_EXPLICIT_TAG 0 =? ASN1_EXPLICIT_TAG 0) with true. cbn iota. unfold ocsp_parse_certs.
      match goal with H : short (asn1_object (ASN1_EXPLICIT_TAG 0) _) |- _ => short_parts H end.
      enter. enter. change ([] ++ []) with (@nil Z). destruct (Z.eqb_spec (cur_len (covering certs [])) 0) as [E0|_]; [|done].
      destruct (ro_certs _ Hok _ Ecerts). destruct certs; [done|cbn in E0; lia].
    + rewrite app_nil_r. skip. done.
  - intros _. unfold records. cbn [resp_tbs this_update next_update resp_algorithm signed_response filled_response set_signature set_algorithm set_next_update set_this_update set_tbs].
    splits; [apply contents_covering|done|done|done|]. unfold signature_bytes. cbn. rewrite Nat2Z.id. by rewrite take_app_length.
Qed.

Lemma reply_covering w response r id a : reply_ok r -> r_status r = OCSP_STATUS_SUCCESSFUL -> req_cert_id request = covering id [] ->
  algorithm_of (r_alg r) = Some a -> alg_pubkey a <> None -> alg_digest a <> None ->
  exists response', resp_signer response' = resp_signer response /\
    ocsp_parse_response allocate zalloc_ok now request w response (covering (der_reply r) [])
    = match reply_rc r id with RC_OK => parse_signer w (r_certs r) response' | RC_ERR e => Some (w, RC_ERR e, response') end /\
    (reply_rc r id = RC_OK -> records now r a response').
Proof.
  intros Hok Hst Hid Ha Hp Hd. pose proof (ro_short _ Hok) as Hs. unfold ocsp_parse_response, der_reply in *. short_parts Hs.
  enter. unfold ocsp_parse_response_status. enter. rewrite Hst. cbn [covering cur_len length cur_data app head mbind option_bind Z.of_nat].
  change (negb (Z.of_nat 1 =? 1)) with false. cbn iota. cbn [negb]. skip. unfold ocsp_parse_response_bytes. enter. enter.
  unfold ocsp_parse_response_type. enter. rewrite compare_covering, bool_decide_eq_true_2 by done. cbn [negb].
  skip. enter. by apply basic_covering.
Qed.
End Reply.

(** The status a reply leads to. *)
Definition reply_status (r : ocsp_reply) (id : list Z) : rc :=
  if r_status r =? OCSP_STATUS_SUCCESSFUL then reply_rc r id else RC_ERR (EPROTO_STATUS (r_status r)).

Lemma failed_covering allocate zalloc_ok now request w response r : short (der_reply r) -> r_status r <> OCSP_STATUS_SUCCESSFUL ->
  ocsp_parse_response allocate zalloc_ok now request w response (covering (der_reply r) []) = Some (w, RC_ERR (EPROTO_STATUS (r_status r)), response).
Proof.
  intros Hs Hst. unfold ocsp_parse_response, der_reply in *. short_parts Hs.
  enter. unfold ocsp_parse_response_status. enter. cbn [covering cur_len length cur_data app head mbind option_bind Z.of_nat].
  change (negb (Z.of_nat 1 =? 1)) with false. cbn iota. destruct (Z.eqb_spec (r_status r) OCSP_STATUS_SUCCESSFUL); [done|]. done.
Qed.

(** C17: A response laid out as RFC 2560 prescribes is refused with the error
    of its status, of a certificate identifier other than the one of the
    request, or of a certificate status other than good; otherwise its
    signed part, times, algorithm and signature are recorded, the next
    update being now when it is missing, and its first certificate is
    parsed as the signer.  Without certificates there is no signer. *)
Theorem ocsp_response_der allocate zalloc_ok now request w w1 w2 block response r id a :
  put_signer w (resp_signer response) = Some w1 -> allocate w1 (zlen (der_reply r)) = (w2, Some block) ->
  reply_ok r -> req_cert_id request = covering id [] ->
  algorithm_of (r_alg r) = Some a -> alg_pubkey a <> None -> alg_digest a <> None ->
  exists response', resp_signer response' = None /\
    ocsp_response_received allocate zalloc_ok now request w response (der_reply r)
    = match reply_status r id with
      | RC_OK => parse_signer allocate zalloc_ok w2 (r_certs r) response'
      | RC_ERR e => Some (w2, RC_ERR e, response')
      end /\
    (reply_status r id = RC_OK -> records now r a response').
Proof.
  intros Ep Ea Hok Hid Halg Hp Hd. unfold ocsp_response_received. rewrite Ep. cbn [mbind option_bind]. rewrite Ea.
  set (started := set_data _ _). replace (Cursor (der_reply r) (zlen (der_reply r))) with (covering (der_reply r) []) by (unfold covering; by rewrite app_nil_r).
  unfold reply_status. destruct (Z.eqb_spec (r_status r) OCSP_STATUS_SUCCESSFUL) as [Es|Es].
  - exact (reply_covering allocate zalloc_ok now request w2 started r id a Hok Es Hid Halg Hp Hd).
  - exists started. split; [done|]. split; [by apply failed_covering; [apply (ro_short _ Hok)|]|done].
Qed.

(** A good reply that the issuer signed and that brings no certificate is
    accepted by the parser; validating it then uses a NULL pointer. *)
Lemma ocsp_reply_without_certs allocate zalloc_ok malloc stack roots now w w1 w2 block ocsp r id a certs time :
  put_signer w (resp_signer (oc_response ocsp)) = Some w1 -> allocate w1 (zlen (der_reply r)) = (w2, Some block) ->
  reply_ok r -> req_cert_id (oc_request ocsp) = covering id [] ->
  algorithm_of (r_alg r) = Some a -> alg_pubkey a <> None -> alg_digest a <> None -> reply_status r id = RC_OK -> r_certs r = None ->
  exists response', ocsp_response_received allocate zalloc_ok now (oc_request ocsp) w (oc_response ocsp) (der_reply r) = Some (w2, RC_OK, response') /\
    ocsp_validate malloc stack roots certs (OcspCheck (oc_cert ocsp) (oc_issuer ocsp) (oc_uri_string ocsp) (oc_request ocsp) response') time = None.
Proof.
  intros Ep Ea Hok Hid Halg Hp Hd Hst Hc. unfold reply_status in Hst. destruct (Z.eqb_spec (r_status r) OCSP_STATUS_SUCCESSFUL) as [Es|]; [|done].
  unfold ocsp_response_received. rewrite Ep. cbn [mbind option_bind]. rewrite Ea.
  set (started := set_data _ _). replace (Cursor (der_reply r) (zlen (der_reply r))) with (covering (der_reply r) []) by (unfold covering; by rewrite app_nil_r).
  destruct (reply_covering allocate zalloc_ok now (oc_request ocsp) w2 started r id a Hok Es Hid Halg Hp Hd) as (response' & Hs & -> & _).
  rewrite Hst, Hc. cbn [parse_signer]. exists response'. split; [done|]. apply ocsp_no_signer. exact Hs.
Qed.

(** The signature of a response, as that of a certificate. *)
Lemma check_signature_same malloc stack response signer cert : resp_algorithm response = sig_algorithm cert ->
  contents (resp_tbs response) = contents (tbs cert) -> resp_signature response = sig_value cert ->
  x509_check_signature malloc stack cert (public_key (subject signer)) = Some RC_OK ->
  ocsp_check_signature malloc stack response signer = Some RC_OK.
Proof.
  intros Ea Et Es E. unfold ocsp_check_signature, signature_bytes. rewrite Ea, Et, Es. unfold x509_check_signature in E.
  destruct (sig_algorithm cert) as [a|]; [|done]. cbn [mbind option_bind] in E |- *. destruct (alg_digest a) as [d|]; [|done]. cbn [mbind option_bind] in E |- *.
  destruct (alg_pubkey a); [|done]. cbn [mbind option_bind] in E |- *. destruct (digest_once _ _ _); [|done]. cbn [mbind option_bind] in E |- *.
  destruct (pk_algorithm _); [|done]. cbn [mbind option_bind] in E. by destruct (negb _).
Qed.

(** A response the issuer signed, for a certificate that is valid already. *)
Lemma valid_accepted malloc stack roots (certs : certificates) ocsp time cert iss : oc_cert ocsp <> oc_issuer ocsp -> time_range time ->
  resp_signer (oc_response ocsp) = Some (oc_issuer ocsp) -> certs !! oc_issuer ocsp = Some iss -> certs !! oc_cert ocsp = Some cert -> valid cert = true ->
  ocsp_check_signature malloc stack (oc_response ocsp) iss = Some RC_OK -> in_update (oc_response ocsp) time ->
  exists certs', ocsp_validate malloc stack roots certs ocsp time = Some (RC_OK, certs').
Proof.
  intros Hne Ht Es Ei Ec Hv Hs [Hu1 Hu2]. unfold ocsp_validate. rewrite Es. cbn [mbind option_bind]. rewrite Nat.eqb_refl. cbn [mbind option_bind].
  rewrite Ei. cbn [mbind option_bind]. rewrite Hs. cbn [mbind option_bind]. unfold time_range, X509_ERROR_MARGIN_TIME in *. rewrite !s64_id by lia.
  destruct (Z.ltb_spec (time + (12 * 60 + 30) * 60) (this_update (oc_response ocsp))); [lia|].
  destruct (Z.ltb_spec (next_update (oc_response ocsp)) (time - (12 * 60 + 30) * 60)); [lia|].
  unfold ocsp_mark_good. rewrite Ec. cbn [mbind option_bind]. unfold validate_at. rewrite lookup_insert_eq. cbn [mbind option_bind].
  rewrite lookup_insert_ne, Ei by done. cbn [mbind option_bind]. unfold x509_validate. cbn [valid set_extensions]. rewrite Hv. cbn [mbind option_bind]. by eexists.
Qed.

(** ** Examples. *)

(** A response with the bytes and the signature of the leaf of [X509Chain]. *)
Definition example_signed : ocsp_response_t :=
  OcspResponse (Some []) (tbs example_leaf) 400 600 (sig_algorithm example_leaf) (sig_value example_leaf) (Some 1%nat).
Definition example_status : ocsp_check_t := OcspCheck 0 1 None null_request example_signed.

Lemma example_any_call : certs_ok key_malloc example_stack (fun _ _ => True) example_store.
Proof. apply map_Forall_insert_2; [|apply map_Forall_insert_2; [|apply map_Forall_empty]]; (split; [|done]); split; cbn; lia. Qed.

Lemma example_status_accepted : exists certs certs', certs_ok key_malloc example_stack (fun _ _ => True) certs /\
  ocsp_validate key_malloc example_stack example_roots certs example_status example_time = Some (RC_OK, certs').
Proof.
  destruct example_validates as (certs & Ev). exists certs.
  destruct (chain_sound key_malloc example_stack example_roots (fun _ _ => True) _ _ _ _ _ _ example_any_call I example_time_ok Ev) as (Hok & Eid & Hv).
  destruct (Hv eq_refl) as (l & Hl & (cert & Ec & Hvalid)). injection Hl as <-.
  destruct (identity_lookup example_store certs 1%nat example_root_cert Eid eq_refl) as (iss & Ei & Hi).
  destruct (valid_accepted key_malloc example_stack example_roots certs example_status example_time cert iss) as (certs' & E);
    [discriminate|exact example_time_ok|reflexivity|exact Ei|exact Ec|exact Hvalid| |split; discriminate|exists certs'; exact (conj Hok E)].
  apply (check_signature_same key_malloc example_stack example_signed iss example_leaf); [reflexivity..|].
  assert (public_key (subject iss) = public_key (subject example_root_cert)) as -> by exact (f_equal (fun c => public_key (subject c)) Hi).
  exact example_check.
Qed.

Lemma ocsp_good_evidence_witness : exists certs certs' certs1,
  ocsp_validate key_malloc example_stack example_roots certs example_status example_time = Some (RC_OK, certs') /\
  status_ok key_malloc example_stack certs1 example_status example_time.
Proof.
  destruct example_status_accepted as (certs & certs' & Hok & E).
  destruct (ocsp_good_evidence key_malloc example_stack example_roots (fun _ _ => True) certs example_status example_time RC_OK certs'
    example_stack_ok Hok I example_time_ok eq_refl E) as (certs1 & _ & _ & _ & Hev).
  exact (ex_intro _ certs (ex_intro _ certs' (ex_intro _ certs1 (conj E (proj1 (Hev eq_refl)))))).
Defined.

(** A certificate that names a responder, and a reply about it. *)
Definition example_responder : list Z := cstr "http://ca".
Definition status_info : certificate_info :=
  Info [18; 52] ASN1_OID_SHA256WITHRSAENCRYPTION [(Attribute ASN1_OID_COMMON_NAME UTF8_STRING [67; 65], [])]
    (Date 2012 3 1 0 0 0) (Date 2013 3 1 12 0 0) [(Attribute ASN1_OID_COMMON_NAME UTF8_STRING [97; 98], [])] ASN1_OID_RSAENCRYPTION [1; 2; 3]
    [Extension false (AuthorityInfoAccess [(ASN1_OID_OCSP, (ASN1_IMPLICIT_TAG 6, example_responder))])] ASN1_OID_SHA256WITHRSAENCRYPTION [9; 9].

Definition status_world : x509_world :=
  match x509_certificate_create bump_allocate (fun _ => true) (World ∅ ∅ []) (covering (der_certificate status_info) []) with
  | Some (w, _) => w
  | None => World ∅ ∅ []
  end.

Lemma status_created : x509_certificate_create bump_allocate (fun _ => true) (World ∅ ∅ []) (covering (der_certificate status_info) []) = Some (status_world, inl 0%nat).
Proof. vm_compute. reflexivity. Qed.

Definition zero_block (n : Z) : list Z := replicate (Z.to_nat n) 0.
Definition status_held : loc -> nat := one_more (fun _ => 0%nat) 0%nat.

Lemma status_reachable : reachable bump_allocate (fun _ => true) key_malloc example_stack example_roots (fun _ _ => True) status_world status_held.
Proof. eapply reach_create; [apply reach_start|exact status_created]. Qed.

Definition status_cert : x509_certificate := default null_certificate (w_certs status_world !! 0%nat).

Definition example_id : list Z := cert_id_of status_cert status_cert.

Definition example_reply : ocsp_reply :=
  Reply 0 None (162, [4; 1; 7]) (Date 2012 4 1 0 0 0) (drop 2 example_id) (128, []) (Date 2012 4 1 0 0 0) (Some (Date 2012 4 8 0 0 0)) []
    ASN1_OID_SHA1WITHRSAENCRYPTION [9; 9] (Some (der_certificate status_info)).

Lemma ocsp_check_request_witness : exists w' encoded,
  ocsp_check bump_allocate example_stack zero_block status_world 0 0 = Some (w', inl (OcspCheck 0 0
      (Some (example_responder ++ 47 :: encoded ++ [0]))
      (OcspRequest (Builder (Some (der_request example_id)) (zlen (der_request example_id))) (covering example_id [])) null_response)) /\
  base64_for (decode_field encoded) (der_request example_id).
Proof.
  apply (ocsp_check_request bump_allocate example_stack zero_block status_world status_held 0 0 status_cert status_cert example_responder).
  - intros w n. by eexists.
  - intros n Hn. unfold zero_block. rewrite length_replicate. lia.
  - exact example_stack_ok.
  - exact (proj1 (reachable_ok _ _ _ _ _ _ _ _ status_reachable)).
  - done.
  - done.
  - vm_compute. reflexivity.
  - vm_compute. reflexivity.
  - vm_compute. reflexivity.
  - by_decide.
  - vm_compute. reflexivity.
  - vm_compute. reflexivity.
  - vm_compute. reflexivity.
Defined.

Lemma example_reply_ok : reply_ok example_reply.
Proof.
  split.
  - by_decide.
  - by_decide.
  - unfold date_ok. cbn. lia.
  - intros d [= <-]. unfold date_ok. cbn. lia.
  - intros certs [= <-]. apply object_nonempty.
  - vm_compute. reflexivity.
Qed.

Lemma ocsp_response_der_witness : exists response', resp_signer response' = None /\
  ocsp_response_received bump_allocate (fun _ => true) 0 (OcspRequest (Builder None 0) (covering example_id [])) (World ∅ ∅ []) null_response (der_reply example_reply)
  = parse_signer bump_allocate (fun _ => true) (World ∅ ∅ []) (Some (der_certificate status_info)) response' /\
  records 0 example_reply sha1_with_rsa_encryption_algorithm response'.
Proof.
  assert (reply_status example_reply example_id = RC_OK) as Est by (vm_compute; reflexivity).
  destruct (ocsp_response_der bump_allocate (fun _ => true) 0 (OcspRequest (Builder None 0) (covering example_id [])) (World ∅ ∅ []) (World ∅ ∅ []) (World ∅ ∅ [])
    0%nat null_response example_reply example_id sha1_with_rsa_encryption_algorithm) as (response' & Hs & E & Hr).
  - reflexivity.
  - vm_compute. reflexivity.
  - exact example_reply_ok.
  - reflexivity.
  - vm_compute. reflexivity.
  - discriminate.
  - discriminate.
  - exists response'. rewrite Est in E, Hr. exact (conj Hs (conj E (Hr eq_refl))).
Defined.

(** Whether a check receives the responses and has a signer then. *)
Definition gets_signer (w : x509_world) (datas : list (list Z)) : bool :=
  match ocsp_check bump_allocate example_stack zero_block w 0 0 with
  | Some (w1, inl ocsp) =>
      match ocsp_responses bump_allocate (fun _ => true) 0 (oc_request ocsp) w1 (oc_response ocsp) datas with
      | Some (_, response) => bool_decide (is_Some (resp_signer response))
      | None => false
      end
  | _ => false
  end.

Lemma gets_signer_runs w datas : gets_signer w datas = true -> exists w1 ocsp w2 response,
  ocsp_check bump_allocate example_stack zero_block w 0 0 = Some (w1, inl ocsp) /\
  ocsp_responses bump_allocate (fun _ => true) 0 (oc_request ocsp) w1 (oc_response ocsp) datas = Some (w2, response) /\
  is_Some (resp_signer response).
Proof.
  unfold gets_signer. intros E. destruct (ocsp_check _ _ _ _ _ _) as [[w1 [ocsp|]]|]; [|discriminate E..].
  destruct (ocsp_responses _ _ _ _ _ _ _) as [[w2 response]|] eqn:Er; [|discriminate E]. apply bool_decide_eq_true in E.
  exists w1, ocsp, w2, response. exact (conj eq_refl (conj Er E)).
Qed.

(** Two bytes, and then the reply. *)
Lemma example_runs : gets_signer status_world [[1; 2]; der_reply example_reply] = true.
Proof. vm_compute. reflexivity. Qed.

Lemma ocsp_references_witness : exists w2 ocsp w3, resp_signer (oc_response ocsp) <> None /\ ocsp_free w2 ocsp = Some w3 /\
  reachable bump_allocate (fun _ => true) key_malloc example_stack example_roots (fun _ _ => True) w3 status_held.
Proof.
  destruct (gets_signer_runs _ _ example_runs) as (w1 & ocsp & w2 & response & E & Er & Hl).
  destruct (ocsp_references bump_allocate (fun _ => true) key_malloc example_stack example_roots (fun _ _ => True) zero_block status_held status_world 0 0
    w1 (inl ocsp) status_reachable ltac:(discriminate) ltac:(discriminate) E 0 _ w2 response Er) as (_ & w3 & Ef & Hr).
  exists w2. eexists _, w3. split; [|exact (conj Ef Hr)]. intros C. destruct Hl as [l Hl]. cbn [oc_response] in C. rewrite Hl in C. discriminate C.
Defined.
